(* ===== verification/_CoqProject ===== *)
-Q . S2P
Prelude.v
Dataqueue.v
Common.v
Packets.v
State.v
Loops.v
Ethernet.v
Arp.v
Routing.v
Ping.v
IpHeader.v
Dijkstra.v
ShortestPath.v
DijkstraSpec.v
Pwospf.v
PwospfInput.v
Dns.v
Ip.v
ArpInput.v
Router.v
WorkQueue.v
IpSpec.v
ArpSpec.v
IcmpSpec.v
Samples.v
TableProps.v
PacketProps.v
DijkstraProps.v
PingProps.v
Trace.v
PwospfSpec.v
LsuSpec.v
LinkSpec.v
PwospfProps.v
DnsSpec.v
LinkInput.v
LinkProps.v
Inet.v
Mem.v
MemSpec.v
MemProps.v
Linked.v
Memp.v
MempProps.v
Store.v
Pbuf.v
PbufSpec.v
PbufProps.v
PbufRefine.v
Timeouts.v
Mailbox.v
TcpOptions.v
Tcp.v
TcpSpec.v
TcpProps.v
TcpReceive.v
TcpDelivery.v
TcpConnection.v
TcpProcess.v
TcpStack.v
TcpStackProps.v
TcpStates.v
Search.v
SearchProps.v
CliClient.v
CliProps.v
CliCommands.v
CliDnsProps.v
Sockets.v
SocketsProps.v
Udp.v
UdpProps.v
UdpDatagram.v
ApiMsg.v
ApiProps.v
ApiCalls.v
SocketCalls.v
SocketSafety.v
