(* ===== verification/Prelude.v ===== *)
(** * A verified model of the software of the BIR router

    BIR ("building an Internet router") is the control and slow path of an IPv4
    router, written in C (src/SW_stub).  Frames come in from the link layer, are
    put on a work queue and handled by worker threads; the router answers ARP,
    forwards IPv4 by longest prefix match, parks packets whose next hop has no
    known hardware address, answers and originates ICMP, speaks the link state
    protocol PWOSPF with its neighbours, rebuilds its routing table from the
    topology it learnt, serves a small DNS database, and pings and traces hosts
    for its command line, which clients reach over the TCP stack lwtcp.
    The code is modelled as built for Mininet ([MININET_MODE] and no
    [_CPUMODE_]): the calls that mirror tables into NetFPGA registers have an
    empty body there.

    ** How the program is modelled

    A handler of the C code is a function in the monad [M] of the file State: it
    takes a [world] (the [router_t] with its tables and interfaces, the globals
    of ip.c, pwospf.c and cli_ping.c, the frames sent so far) and ends in
    [Ok result world] or in [Fault f], where [f] says how the process dies: a
    failed assertion, a call to [die], a null dereference, an access outside a
    buffer or to freed memory, a bad [free].  A packet is a list of bytes; its headers
    are read and written through the layouts of the file Packets, which are the
    packed structs of packets.h.  Integers are [Z] with the wrap-around of their
    width where the code performs it; addresses have the byte order they have in
    memory on the little-endian host the code is written for.

    What the sources do not determine is a component of the world over which
    every theorem quantifies: [w_clock] (the results of [gettimeofday]),
    [w_junk] (bytes of memory read before they are written) and [w_tx_result]
    (the result of the link layer's send function).  Printing is left out.

    Each critical section of the work queue is one step of a transition system
    ([wq_step]); the packet handlers are modelled one at a time, since the locks
    they take do not exclude each other (see [queue_getidandlock] below).

    ** Files

    - Prelude: integers, byte order, bytes of buffers, lists, hint database [bir].
    - Dataqueue (dataqueue.c, dataqueue.h): the shared growable queue; the module
      [Spec] gives the list it stands for; refinement and the client loops.
    - Common (sr_common.c, globals.c): time, addresses, the Internet checksum.
    - Packets (packets.h, arp.h, ip.h, icmp_type.h, pwospf.h): layouts, constants,
      table entries; frame rules for field reads and writes.
    - State (sr_router.h, sr_interface.h, dns.h): the router, the world, the
      monad; the equivalence [≡] on worlds that ignores mutexes, with the
      [Proper] instances to rewrite with it.
    - Loops: the loops over queues whose body runs in the monad.
    - Ethernet (ethernet_packet.c, sr_integration.c): framing and sending.
    - Arp, ArpInput (arp.c): the cache, its aging and its commands; requests,
      replies and the queue of waiting packets.
    - Routing (ip.c, sr_router.c, sr_integration.c): the table and its lookups.
    - IpHeader (ip.c, sr_router.c): header checks, header generation, allocation.
    - Ip (ip.c, icmp_type.c, sr_lwtcp_glue.c): reception, local delivery,
      forwarding, ICMP.
    - Ping (cli/cli_ping.c): the outstanding echo requests.
    - Pwospf, PwospfInput (pwospf.c): HELLO and link state update packets, their
      sending, flooding and reception, the neighbour timeouts.
    - Dijkstra (djikstra.c): the routing table recomputed from the topology, in
      the phases of the C function: gather, graph, distances, choice, table.
    - Dns (dns.c, dns.h): names, questions, answers, the database and its file.
    - Router (sr_router.c, sr_integration.c, sr_lwtcp_glue.c): start-up, dispatch
      of frames, shutdown, datagrams from the TCP stack.
    - WorkQueue (sr_work_queue.c): the linked list on a heap of nodes and the
      interleavings of producers and workers.
    - IpSpec, ArpSpec, IcmpSpec, ShortestPath, DijkstraSpec, PwospfSpec,
      LsuSpec (sending of link state updates), LinkSpec (flooding), LinkInput
      (reception of updates), DnsSpec: the specifications and the lemmas that
      lead to the theorems.
    - Samples: a concrete router on which the theorems are instantiated.
    - TableProps, PacketProps, DijkstraProps, PingProps, PwospfProps, LinkProps:
      the properties of those parts and their instances.
    - Inet (lwtcp/inet.c): the checksums of the TCP stack over buffers and over
      chains of buffers.
    - Mem (lwtcp/mem.c): its memory manager, on the bytes of the array; MemSpec:
      the tiling that the headers of the blocks describe and what each operation
      does to it; MemProps: the view of a client and the properties.
    - Linked: singly linked lists threaded through a map of structures.
    - Memp (lwtcp/memp.c): the pools of structures of one size, built in one
      array; MempProps: the pools as sets of free and used elements.
    - Store: the interface through which packet buffers use memory (classes
      [Store], [Shrink] and their laws), with the heap and a pool as instances.
    - Pbuf (lwtcp/pbuf.c): packet buffers, their pool, chains and reference
      counts; PbufSpec: the packets and the ownership that a state of buffers
      stands for; PbufProps: what each operation does to them; PbufRefine: the
      refinement and the properties.
    - Timeouts (lwtcp/sys.c, lwtcp/sys_arch.c): the list of timeouts of a thread
      and the functions that wait and call handlers, which may request timeouts
      and wait themselves, over a script of what the thread finds at semaphores
      and mailboxes and of the time that passes.
    - Mailbox (lwtcp/sys_arch.c): mailboxes and semaphores, with the
      interleavings of posting threads and a fetching one.
    - TcpOptions (lwtcp/tcp_input.c): the parser of the options of a SYN.
    - Tcp (lwtcp/tcp_output.c, tcp.c, the first half of [tcp_receive]): the
      sender of a connection: queueing, cutting into segments, output within the
      windows, acknowledgements, congestion control, retransmission.  TcpSpec:
      the stream of cells (bytes, SYN, FIN) that the queues of a sender stand
      for; TcpProps: the properties of the sender.
    - TcpReceive (lwtcp/tcp_input.c, the second half of [tcp_receive]): trimming,
      the queue of segments that came early, delivery.  TcpDelivery: what a
      receiver of a slice of the stream keeps; TcpConnection: sender and receiver
      joined by a network that loses, repeats and reorders segments.
    - TcpProcess (lwtcp/tcp_input.c, tcp.c): the state machine [tcp_process], and
      closing, aborting, resets.  TcpStack (lwtcp/tcp_input.c, tcp.c): the lists
      of protocol blocks, [tcp_input], the two timers, the calls of the
      application.  TcpStackProps, TcpStates: the invariant of the lists and the
      properties of the states.
    - Sockets, SocketsProps (lwtcp/sockets.c, lwtcp/api_lib.c): reading from and
      writing to sockets; what the thread of the stack does is part of the state.
    - Search, SearchProps (cli/search_state.c, cli/socket_helper.c,
      real_socket_helper.c): the search of a needle in a stream, reading and
      writing over the two kinds of sockets.
    - CliClient, CliProps (cli/cli_main.c, cli/cli.c, [cli_parser_handle_client]
      of cli/cli_parser.y): the thread of a client of the command line.
    - CliCommands, CliDnsProps (cli/cli.c): the commands that change the router.
    - Trace (cli/cli_trace.c): the outstanding requests of traceroute.
    - Udp (lwtcp/udp.c): the linked control blocks of UDP and its datagrams;
      UdpProps: the set of endpoints they stand for; UdpDatagram: what is sent
      and what is accepted, byte by byte.
    - ApiMsg (lwtcp/api_msg.c, lwtcp/transport_subsys.c, lwtcp/api_lib.c): the
      messages of the other threads to the thread of the stack, and what TCP and
      UDP call for a connection; TCP is the class [TcpApi].  ApiProps: clients,
      stack and network as a transition system; ApiCalls: its invariant.
    - SocketCalls (lwtcp/sockets.c): making, binding, connecting, listening,
      accepting and closing sockets over those connections, with the stack running
      whenever a call waits.  SocketSafety: who holds a connection, and the
      properties of descriptors.

    ** What the theorems show

    - Queue: every program of queue operations computes what it computes on a
      list of elements with sizes ([queue_program_refines]); the loops of the clients always end and
      visit the elements in order ([queue_foreach_refines_visit]); a removal
      loop skips the element behind a removed one ([queue_removal_loop]).
    - Checksum: a filled checksum verifies, a changed word is noticed.
    - Work queue: in every interleaving work is started once, in order, by at
      most the given number of workers, and nothing gets stuck.
    - Tables: lookups find the longest prefix; insertions into the routing table
      and the ARP cache do what they should on every branch; aging.
    - Packet path, from a frame that comes in to the frames that go out:
      forwarding, parking, time exceeded, no route, echo reply, ARP reply, the
      release of parked packets ([arp_reply_releases_packets]), and parking and
      release together ([packet_resolved_and_sent]); the mutual recursion of
      reception and error messages is one level deep
      ([ip_onreceive_recursion_bounded]).
    - Routing protocol: Dijkstra's loop computes the distances
      ([dijkstra_computes_distances]), the recomputed table has for every
      reachable subnet a route over the nearest interface, but for those whose
      number is the interface's own ([djikstra_recompute_correct]); HELLOs, neighbours, the advertised topology
      and its encoding; a new neighbour is announced ([hello_adds_neighbour]), a
      round of updates reaches every neighbour ([lsu_round_sends_updates]), a
      newer update is installed and flooded, an old one dropped
      ([link_update_installed], [link_update_of_new_router],
      [link_update_floods_once]).
    - Ping list and DNS names and lookups; the list of traceroute, whose requests
      are never answered ([traceroute_only_times_out]).
    - TCP stack: its checksum is the router's ([inet_chksum_agrees]) and verifies
      over chains of buffers of any length ([segment_checksum_verifies]).  The
      memory manager refines a map of independent blocks from [mem_init] on
      ([mem_refines_blocks], [mem_blocks_kept]) and loses no memory
      ([mem_freed_heap_is_whole]).  Mailboxes deliver in order and lose no
      wake-up ([mbox_delivers_in_order], [mbox_loses_no_wakeup]); timeouts are
      called in order when they are due by the time the waits report, which runs
      ahead of the clock by a millisecond per wait at most
      ([timeouts_called_when_due]).  The pools refine
      sets of elements that lie apart ([memp_refines_pools],
      [memp_blocks_apart]); every client that owns its packet buffers gets from
      them independent packets with the bytes it wrote ([pbuf_refines_packets]),
      and the buffer pool serves as long as it has buffers
      ([pbuf_pool_serves]).
    - TCP: over a network that loses, repeats and reorders segments without SYN
      and FIN, but for longer copies of queued ones, the receiver has at every time taken a prefix of the stream the sender was given
      ([tcp_delivers_in_order]), and takes every segment of the stream that
      covers the byte it waits for ([tcp_receiver_takes_segment]).  The queues of
      the sender hold what is not acknowledged, whatever the application, the
      timers and the peer do ([tcp_sender_keeps_stream]); it sends within the
      windows ([tcp_output_within_window]).  The lists of blocks stay well formed
      under every segment and timer and every call that listens and connects with
      blocks on no list ([tcp_lists_stay_sane]); a SYN for a
      listening port makes a connection and is answered
      ([tcp_syn_opens_connection]); the parser of the options ends in all cases
      but one ([tcp_parseopt_may_not_return]).
    - Sockets: reads of segments of one buffer return the stream
      ([socket_reads_stream]), writes hand the data over while the room in the
      send buffer is steady ([socket_write_hands_over]).
    - UDP: the control blocks refine a list of endpoints ([udp_refines_endpoints]),
      a datagram that is sent, but for UDP-Lite, is accepted by its endpoint with
      the bytes that were given ([udp_datagram_arrives]).
    - Connections: every call of a client that waits has its message under way or
      its one answer, and no answer is left over, as long as only connecting
      connections are reset ([netconn_calls_answered]); no
      descriptor outlives its connection ([descriptors_stay_valid]).
    - Command line: the search finds the first occurrence however the stream is
      cut ([read_search_finds_first]); a client that types its lines one at a time
      has each of them executed once ([cli_executes_typed_lines]); the edits of the
      DNS database, which write behind a block unless the allocator gave a byte
      more than it was asked for ([cli_dns_add_then_del]).
    - Where the code does something else than it means to, the theorem states
      what it does: [queue_getidandlock_takes_no_lock], [default_route_never_used],
      [arp_put_leaves_stale_binding], [arp_maintain_cache_ages],
      [arp_reply_releases_packets] (the packet behind a sent one is skipped),
      [router_answers_arp_request] (a request releases no waiting packet),
      [router_reports_no_route], [last_ping_reply_is_rejected],
      [queue_replace_keeps_size], [recompute_takes_last_neighbour],
      [recompute_ignores_netmask], [timers_run_fast], [tcp_listen_linked_insane],
      [negative_link_count_crashes], [wq_destroy_leaves_dangling_tail],
      [inet_chksum_pbuf_parity], [mem_illegal_pointer_locks_heap],
      [mem_malloc_size_wraps], [mem_realloc_breaks_alignment],
      [mem_realloc_hides_space], [mbox_full_looks_empty],
      [memp_high_array_truncated], [pbuf_realloc_frees_twice],
      [pbuf_header_overwritten],
      [tcp_retransmission_stops], [tcp_stale_queue_jumps],
      [tcp_old_stack_drops_connections], [tcp_refused_block_is_used],
      [tcp_far_ack_taken], [tcp_fin_wraps_buffer], [tcp_window_guard_wraps],
      [tcp_output_forgets_ack], [tcp_queued_fin_lost],
      [tcp_fin_before_queue_crashes], [tcp_cut_fin_skips_byte],
      [tcp_far_fin_closes], [tcp_fin_wait_2_before_fin],
      [tcp_last_data_dropped], [socket_write_race], [socket_chain_garbled],
      [socket_empty_pool_ends_stream], [socket_write_size_cut],
      [cli_typed_ahead_repeated], [cli_null_byte_kills_router],
      [cli_dns_add_overflows], [traceroute_handler_misses],
      [udp_lite_never_arrives], [udp_send_overwrites_caller],
      [udp_input_accepts_short], [netconn_reset_answers_early],
      [accept_after_reset_crashes].

    ** Bounds and fuel

    A loop up to [queue->size] runs with the size plus one as fuel:
    [queue_foreach_refines_visit] shows that the client loops always end within
    it; the loops over the queue of waiting packets, which may change during the
    loop, end in the fault [OutOfFuel] otherwise.  [ip_onreceive] has two levels
    of fuel, which [ip_onreceive_recursion_bounded] proves enough.  The loops of
    djikstra.c are structural in the number of vertices.  The parser of DNS names
    has the length of the buffer as fuel and consumes a byte per step.  A walk
    over the blocks of the heap has more fuel than blocks fit into the array; a
    walk over a chain of buffers has one round more than there are buffers, and
    the loop that allocates a chain one more than the size asked for needs.
    The parser of TCP options has 41 rounds, one more than there are bytes of
    options; the search for a free port has one round per port of its range.  The
    theorems on a TCP stream are about streams of fewer than 2^30 cells, so that
    the comparisons of sequence numbers, which are of 32-bit differences, agree
    with the order in the stream.
    A search has one round per byte and event still to come, a write one per
    answer of the stack or of the peer, the thread of a client of the command line
    two per byte to come and one per byte in its buffer.
    The deletion of a connection, which deletes those that were not accepted, has
    a fuel over which the theorems quantify; a wait of the application has the
    steps of the stack as a list, at whose end it waits for ever.
    A thread with timeouts has some fuel over which the theorem quantifies, and
    enough of it exists unless a handler asks to be called at once; its fetches
    have one round per observation to come ([fetch_loop_fuel]).
    The infinite loops of the threads are modelled by one round.

    ** Not modelled

    Of the TCP stack lwtcp: [lwip_sendto] and the functions on single network
    buffers; the timer and the start of its thread; the files that are not part of
    the build (ipv4, tcpip.c) and icmp.c, which
    nothing that is reached calls.  The messages to the stack use TCP through an
    interface without laws, so that the theorems hold for every TCP; what TCP does
    on its own is a sequence of events, and the file TcpStack, whose blocks have no
    addresses, is not an instance of it.

    In the model of TCP the data of a segment is a list of bytes and not a chain
    of buffers, so that nothing is said about the length fields of chains; blocks
    are values on the three lists and have no identity, so that a listen or
    connect takes a block that is on no list, and what listening with a block on a
    list does is modelled apart ([tcp_listen_linked]).  In the model of the pools
    the headers of the blocks and their contents are two memories, so that a write
    outside of a block is not seen.  The packet buffers are modelled for one
    thread at a time, with the sizes of the structures as parameters; the results of the allocations are
    a list of booleans over which the theorems quantify, as they do over the
    answers of the application's callbacks; the reclaimers are modelled but not
    run from inside of an allocation; the error callback is left out there.

    Left out are the debug printers; the NetFPGA parts (sr_cpu_extension_nf2.c,
    the [_CPUMODE_] branches, the Verilog under HW_stub); the link drivers,
    start-up of threads and option parsing (sr_base.c, sr_main.c,
    sr_mininet_extension.c, getarg.c); of the command line the generated parser,
    which is a parameter, the loops that accept clients, the commands that print
    tables and the help texts; reading the interface file (sr_interface.c); packet
    logging (sr_dumper.c). *)

From Stdlib Require Import ZArith Lia.
From stdpp Require Import base tactics list numbers.

Declare Scope bir_scope.
Delimit Scope bir_scope with bir.
Local Open Scope Z_scope.

(** * Fixed-width integers

    A C integer of width [w] is a [Z]; the wrap-around of an assignment or of
    an arithmetic operation is written where the source performs it. *)

Definition u8 (z : Z) : Z := z mod 256.
Definition u16 (z : Z) : Z := z mod 65536.
Definition u32 (z : Z) : Z := z mod 4294967296.
Definition u64 (z : Z) : Z := z mod 18446744073709551616.

(** Conversion of a 32-bit pattern to a signed [int]. *)
Definition s32 (z : Z) : Z :=
  if u32 z <? 2147483648 then u32 z else u32 z - 4294967296.

Definition INT_MAX : Z := 2147483647.

(** [ntohs]/[htons] and [ntohl]/[htonl] on a little-endian host. *)
Definition swap16 (x : Z) : Z := (x mod 256) * 256 + (x / 256) mod 256.
Definition swap32 (x : Z) : Z :=
  (x mod 256) * 16777216 + ((x / 256) mod 256) * 65536
  + ((x / 65536) mod 256) * 256 + (x / 16777216) mod 256.

Definition ntohs := swap16.
Definition htons := swap16.
Definition ntohl := swap32.
Definition htonl := swap32.

Definition is_byte (b : Z) : Prop := 0 <= b < 256.
Definition is_u16 (x : Z) : Prop := 0 <= x < 65536.
Definition is_u32 (x : Z) : Prop := 0 <= x < 4294967296.

#[global] Instance is_byte_dec b : Decision (is_byte b).
Proof. unfold is_byte; apply _. Defined.
#[global] Instance is_u16_dec b : Decision (is_u16 b).
Proof. unfold is_u16; apply _. Defined.
#[global] Instance is_u32_dec b : Decision (is_u32 b).
Proof. unfold is_u32; apply _. Defined.

(** * Tactics *)

(** Unfold the width conversions and byte predicates, turn [/] and [mod] into
    linear constraints, and call [lia]. *)
Ltac width_lia :=
  unfold ntohs, htons, ntohl, htonl, u8, u16, u32, u64, is_byte, is_u16, is_u32,
    swap16, swap32, INT_MAX in *;
  Z.div_mod_to_equations; lia.

(** Case analysis on every boolean comparison of the goal. *)
Ltac cmp_cases :=
  repeat match goal with
  | |- context [?a <? ?b] => destruct (Z.ltb_spec a b)
  | |- context [?a <=? ?b] => destruct (Z.leb_spec a b)
  | |- context [?a =? ?b] => destruct (Z.eqb_spec a b)
  end.

(** Split a goal's innermost [match]/[if] scrutinees, keeping equations. *)
Ltac split_matches :=
  repeat (case_match; simplify_eq/=; try done).

Create HintDb bir discriminated.
Create Rewrite HintDb bir_rw.

(** ** Range lemmas of the conversions *)

Lemma u8_range z : is_byte (u8 z).
Proof. width_lia. Qed.

Lemma u16_range z : is_u16 (u16 z).
Proof. width_lia. Qed.

Lemma u32_range z : is_u32 (u32 z).
Proof. width_lia. Qed.

Lemma u8_small z : is_byte z → u8 z = z.
Proof. width_lia. Qed.

Lemma u16_small z : is_u16 z → u16 z = z.
Proof. width_lia. Qed.

Lemma u32_small z : is_u32 z → u32 z = z.
Proof. width_lia. Qed.

Lemma u64_small z : 0 <= z < 18446744073709551616 → u64 z = z.
Proof. width_lia. Qed.

Lemma s32_small z : 0 <= z < 2147483648 → s32 z = z.
Proof.
  intros H. unfold s32. rewrite u32_small by (unfold is_u32; lia).
  by destruct (Z.ltb_spec z 2147483648); [|lia].
Qed.

Lemma swap16_range x : is_u16 (swap16 x).
Proof. width_lia. Qed.

Lemma swap16_involutive x : is_u16 x → swap16 (swap16 x) = x.
Proof. width_lia. Qed.

(** The four bytes of a 32-bit word. *)
Lemma word_bytes x : is_u32 x → ∃ a b c d,
  is_byte a ∧ is_byte b ∧ is_byte c ∧ is_byte d ∧
  x = a + 256 * b + 65536 * c + 16777216 * d.
Proof.
  intros Hx. exists (x mod 256), (x / 256 mod 256), (x / 65536 mod 256), (x / 16777216).
  pose proof (Z.div_mod x 256 ltac:(lia)) as E0.
  pose proof (Z.div_mod (x / 256) 256 ltac:(lia)) as E1.
  pose proof (Z.div_mod (x / 65536) 256 ltac:(lia)) as E2.
  rewrite Z.div_div in E1 by lia. rewrite Z.div_div in E2 by lia.
  change (256 * 256) with 65536 in E1. change (65536 * 256) with 16777216 in E2.
  unfold is_byte, is_u32 in *. repeat split; try apply Z.mod_pos_bound; try lia.
  - apply Z.div_pos; lia.
  - apply Z.div_lt_upper_bound; lia.
Qed.

(** Digits of a number written in base 256. *)
Lemma digit_mod a r : is_byte a → (a + 256 * r) mod 256 = a.
Proof. width_lia. Qed.

Lemma digit_div a r : is_byte a → (a + 256 * r) / 256 = r.
Proof. width_lia. Qed.

Lemma swap32_word a b c d :
  is_byte a → is_byte b → is_byte c → is_byte d →
  swap32 (a + 256 * b + 65536 * c + 16777216 * d) = d + 256 * c + 65536 * b + 16777216 * a.
Proof.
  intros Ha Hb Hc Hd. unfold swap32.
  replace (a + 256 * b + 65536 * c + 16777216 * d)
    with (a + 256 * (b + 256 * (c + 256 * (d + 256 * 0)))) by lia.
  change 16777216 with (256 * (256 * 256)) at 2. change 65536 with (256 * 256) at 2.
  rewrite <-!Z.div_div by lia.
  rewrite !digit_div, !digit_mod by done. lia.
Qed.

Lemma swap32_range x : is_u32 (swap32 x).
Proof.
  unfold swap32, is_u32.
  pose proof (Z.mod_pos_bound x 256). pose proof (Z.mod_pos_bound (x / 256) 256).
  pose proof (Z.mod_pos_bound (x / 65536) 256). pose proof (Z.mod_pos_bound (x / 16777216) 256).
  lia.
Qed.

Lemma swap32_involutive x : is_u32 x → swap32 (swap32 x) = x.
Proof.
  intros (a & b & c & d & ? & ? & ? & ? & ->)%word_bytes.
  rewrite swap32_word by done. rewrite swap32_word by done. lia.
Qed.

Lemma lor_bytes a b : 0 <= b < 256 → Z.lor (a * 256) b = a * 256 + b.
Proof.
  intros Hb. rewrite <-(Z.add_lor_land (a * 256) b).
  assert (Z.land (a * 256) b = 0) as ->; [|lia]. apply Z.bits_inj'. intros n Hn.
  rewrite Z.land_spec, Z.bits_0. change 256 with (2 ^ 8).
  destruct (Z.ltb_spec n 8); [by rewrite Z.mul_pow2_bits_low|].
  rewrite (Z.bits_above_log2 b n), andb_false_r; [done|lia|].
  destruct (Z.eq_dec b 0) as [->|]; [cbn; lia|]. apply Z.log2_lt_pow2; [lia|].
  apply (Z.lt_le_trans _ (2 ^ 8)); [cbn; lia|]. apply Z.pow_le_mono_r; lia.
Qed.

Lemma is_byte_u16 b : is_byte b → is_u16 b.
Proof. width_lia. Qed.

#[export] Hint Resolve u8_range u16_range u32_range swap16_range swap32_range is_byte_u16 : bir.
#[export] Hint Rewrite u8_small u16_small u32_small swap16_involutive swap32_involutive
  using (by auto with bir) : bir_rw.

(** * Byte buffers

    A [byte *] into an allocation is the list of the bytes from the pointer to
    the end of the allocation.  An access past the end is [None]. *)

Fixpoint le_combine (l : list Z) : Z :=
  match l with
  | [] => 0
  | b :: l' => b + 256 * le_combine l'
  end.

Fixpoint le_split (n : nat) (v : Z) : list Z :=
  match n with
  | O => []
  | S n' => v mod 256 :: le_split n' (v / 256)
  end.

Definition get_bytes (buf : list Z) (off n : nat) : option (list Z) :=
  if decide (off + n <= length buf)%nat then Some (take n (drop off buf)) else None.

Definition put_bytes (buf : list Z) (off : nat) (data : list Z) : option (list Z) :=
  if decide (off + length data <= length buf)%nat
  then Some (take off buf ++ data ++ drop (off + length data) buf)
  else None.

(** Load and store of an [n]-byte little-endian integer (a struct field). *)
Definition load (n : nat) (buf : list Z) (off : nat) : option Z :=
  le_combine <$> get_bytes buf off n.

Definition store (n : nat) (buf : list Z) (off : nat) (v : Z) : option (list Z) :=
  put_bytes buf off (le_split n v).

Definition bytes (l : list Z) : Prop := Forall is_byte l.

#[global] Instance bytes_dec l : Decision (bytes l).
Proof. unfold bytes; apply _. Defined.

Lemma length_le_split n v : length (le_split n v) = n.
Proof. revert v. induction n; intros; simpl; auto. Qed.

Lemma le_split_bytes n v : bytes (le_split n v).
Proof.
  revert v. induction n as [|n IH]; intros v; simpl; constructor; [|apply IH].
  width_lia.
Qed.

Lemma le_combine_range l : bytes l → 0 <= le_combine l < 256 ^ Z.of_nat (length l).
Proof.
  induction 1 as [|b l Hb Hl IH]; simpl; [lia|].
  rewrite Nat2Z.inj_succ, Z.pow_succ_r by lia. unfold is_byte in Hb. lia.
Qed.

Lemma le_combine_split n v : le_combine (le_split n v) = v mod 256 ^ Z.of_nat n.
Proof.
  revert v. induction n as [|n IH]; intros v; simpl.
  - by rewrite Z.mod_1_r.
  - rewrite IH, Nat2Z.inj_succ, Z.pow_succ_r by lia.
    rewrite Z.rem_mul_r by lia. lia.
Qed.

Lemma le_split_combine l : bytes l → le_split (length l) (le_combine l) = l.
Proof.
  induction 1 as [|b l Hb Hl IH]; simpl; [done|].
  unfold is_byte in Hb.
  replace ((b + 256 * le_combine l) mod 256) with b by width_lia.
  replace ((b + 256 * le_combine l) / 256) with (le_combine l) by width_lia.
  by rewrite IH.
Qed.

Lemma le_combine_split_small n v : 0 <= v < 256 ^ Z.of_nat n → le_combine (le_split n v) = v.
Proof. intros. rewrite le_combine_split. by apply Z.mod_small. Qed.

Lemma get_bytes_length buf off n l : get_bytes buf off n = Some l → length l = n.
Proof.
  unfold get_bytes. case_decide; [|done]. intros [= <-].
  rewrite length_take, length_drop. lia.
Qed.

Lemma get_bytes_Some buf off n :
  (off + n <= length buf)%nat → get_bytes buf off n = Some (take n (drop off buf)).
Proof. intros. unfold get_bytes. by rewrite decide_True by lia. Qed.

Lemma put_bytes_Some buf off data :
  (off + length data <= length buf)%nat →
  put_bytes buf off data = Some (take off buf ++ data ++ drop (off + length data) buf).
Proof. intros. unfold put_bytes. by rewrite decide_True by lia. Qed.

Lemma put_bytes_length buf off data buf' :
  put_bytes buf off data = Some buf' → length buf' = length buf.
Proof.
  unfold put_bytes. case_decide; [|done]. intros [= <-].
  rewrite !length_app, length_take, length_drop. lia.
Qed.

Lemma store_length n buf off v buf' : store n buf off v = Some buf' → length buf' = length buf.
Proof. apply put_bytes_length. Qed.

Lemma put_bytes_is_Some buf off data :
  is_Some (put_bytes buf off data) ↔ (off + length data <= length buf)%nat.
Proof.
  unfold put_bytes. case_decide; split; intros H'; done.
Qed.

Lemma get_put_same buf off data buf' :
  put_bytes buf off data = Some buf' → get_bytes buf' off (length data) = Some data.
Proof.
  intros Hp. pose proof (put_bytes_length _ _ _ _ Hp) as Hl.
  unfold put_bytes in Hp. case_decide as Hd; [|done]. injection Hp as <-.
  unfold get_bytes. rewrite decide_True by lia. f_equal.
  rewrite drop_app_ge by (rewrite length_take; lia).
  rewrite length_take, Nat.min_l, Nat.sub_diag by lia. rewrite drop_0.
  by rewrite take_app_length.
Qed.

Lemma get_put_other buf off data buf' off' n :
  put_bytes buf off data = Some buf' →
  (off' + n <= off ∨ off + length data <= off')%nat →
  get_bytes buf' off' n = get_bytes buf off' n.
Proof.
  intros Hp Hdis. pose proof (put_bytes_length _ _ _ _ Hp) as Hl.
  unfold get_bytes. rewrite Hl. case_decide as Hle; [|done]. f_equal.
  unfold put_bytes in Hp. case_decide as Hd; [|done]. injection Hp as <-.
  apply list_eq; intros i. destruct (decide (i < n)%nat) as [Hi|Hi]; last first.
  { rewrite !lookup_take_ge by lia. done. }
  rewrite !lookup_take by lia. rewrite decide_True, decide_True by lia.
  rewrite !lookup_drop. destruct Hdis as [Hlo|Hhi].
  - rewrite lookup_app_l by (rewrite length_take; lia).
    rewrite lookup_take. by rewrite decide_True by lia.
  - rewrite lookup_app_r by (rewrite length_take; lia).
    rewrite length_take, Nat.min_l by lia.
    rewrite lookup_app_r by lia. rewrite lookup_drop. f_equal. lia.
Qed.

Lemma put_bytes_bytes buf off data buf' :
  put_bytes buf off data = Some buf' → bytes buf → bytes data → bytes buf'.
Proof.
  unfold put_bytes. case_decide; [|done]. intros [= <-] Hb Hd.
  apply Forall_app_2; [by apply Forall_take|].
  apply Forall_app_2; [done|by apply Forall_drop].
Qed.

Lemma store_bytes n buf off v buf' : store n buf off v = Some buf' → bytes buf → bytes buf'.
Proof. intros. eapply put_bytes_bytes; eauto. apply le_split_bytes. Qed.

Lemma load_store_same n buf off v buf' :
  store n buf off v = Some buf' → load n buf' off = Some (v mod 256 ^ Z.of_nat n).
Proof.
  intros Hs. unfold load. apply get_put_same in Hs. rewrite length_le_split in Hs.
  rewrite Hs. simpl. by rewrite le_combine_split.
Qed.

Lemma load_store_other n m buf off off' v buf' :
  store n buf off v = Some buf' →
  (off' + m <= off ∨ off + n <= off')%nat → load m buf' off' = load m buf off'.
Proof.
  intros Hs Hd. unfold load. f_equal. eapply get_put_other; [apply Hs|].
  rewrite length_le_split. done.
Qed.

(** * Lists *)

Lemma filter_keep {A} (P : A → Prop) `{∀ x, Decision (P x)} l : Forall P l → filter P l = l.
Proof. induction 1; [done|]. rewrite filter_cons_True by done. by f_equal. Qed.

Lemma filter_drop {A} (P : A → Prop) `{∀ x, Decision (P x)} l : Forall (λ x, ¬ P x) l → filter P l = [].
Proof. induction 1; [done|]. by rewrite filter_cons_False. Qed.

Lemma elem_of_insert_inv {A} (l : list A) i x y : y ∈ <[i := x]> l → y = x ∨ y ∈ l.
Proof.
  intros (j & Hj)%list_elem_of_lookup. destruct (decide (i = j)) as [->|Hne].
  - apply list_lookup_insert_Some in Hj as [(_ & -> & _)|[? _]]; [by left|done].
  - rewrite list_lookup_insert_ne in Hj by done. right. apply list_elem_of_lookup. eauto.
Qed.

Lemma NoDup_insert_fresh {A} (l : list A) i x : NoDup l → x ∉ l → NoDup (<[i := x]> l).
Proof.
  intros Hnd Hx. revert i. induction Hnd as [|y l Hy Hnd IH]; intros i; [constructor|].
  rewrite not_elem_of_cons in Hx. destruct Hx as [Hxy Hx].
  destruct i as [|i]; simpl; constructor; [done|done| |by apply IH].
  intros [->|?]%elem_of_insert_inv; done.
Qed.
