(* ===== verification/Dataqueue.v ===== *)
(** The shared queue of the router (dataqueue.c, dataqueue.h).

    A [dataqueue_t] is a growable array of pointers to private copies of
    fixed-size structs, the array of their sizes, a mutex and a volatile size.
    Here a stored copy is a value of the struct type [A] all users of that
    queue store; [packet_sizes] keeps the byte size passed by the caller, which
    the users assert.  [malloc] does not fail.

    The module [Spec] gives the list every queue stands for; the refinement
    lemmas show that each operation of dataqueue.c implements the list
    operation, and that the loop idiom every client uses
    ([for (i = 0; i < q->size; i++) if (queue_getidandlock(q, i, ...)) ...])
    implements [Spec.visit]. *)

From stdpp Require Import base tactics list numbers.
From Stdlib Require Import ZArith Lia.
From S2P Require Import Prelude.

Local Open Scope Z_scope.

(** * The mutex

    One thread of control is followed.  [mx_blocked] records a lock taken while
    already held (that thread would never return), [mx_bad_unlock] an unlock of
    a mutex that is not held (undefined for a default POSIX mutex). *)
Record mutex := Mutex {
  mx_locked : bool;
  mx_blocked : bool;
  mx_bad_unlock : bool
}.

Definition pthread_mutex_init : mutex := Mutex false false false.

Definition pthread_mutex_lock (m : mutex) : mutex :=
  Mutex true (mx_blocked m || mx_locked m) (mx_bad_unlock m).

Definition pthread_mutex_unlock (m : mutex) : mutex :=
  Mutex false (mx_blocked m) (mx_bad_unlock m || negb (mx_locked m)).

Record dataqueue (A : Type) := Dataqueue {
  packet : list A;
  packet_sizes : list Z;
  locker : mutex;
  size : Z
}.
Arguments Dataqueue {A} _ _ _ _.
Arguments packet {A} _.
Arguments packet_sizes {A} _.
Arguments locker {A} _.
Arguments size {A} _.

(** [memcmp(a, b, sizeof *a) == 0] on the struct type [A]. *)
Class Memcmp (A : Type) := memcmp_eq : A → A → bool.

Section operations.
Context {A : Type}.
Implicit Types q : dataqueue A.

Definition queue_init : dataqueue A := Dataqueue [] [] pthread_mutex_init 0.

Definition lock_queue q : dataqueue A :=
  Dataqueue (packet q) (packet_sizes q) (pthread_mutex_lock (locker q)) (size q).

Definition unlock_queue q : dataqueue A :=
  Dataqueue (packet q) (packet_sizes q) (pthread_mutex_unlock (locker q)) (size q).

(** An array reallocated to [n + 1] cells whose last cell is written. *)
Definition grow {X} (arr : list X) (n : Z) (x : X) : list X := take (Z.to_nat n) arr ++ [x].

Definition queue_add_unsafe q (data : A) (sz : Z) : dataqueue A :=
  let id := size q in
  Dataqueue (grow (packet q) id data) (grow (packet_sizes q) id sz) (locker q) (id + 1).

Definition queue_add q (data : A) (sz : Z) : dataqueue A :=
  unlock_queue (queue_add_unsafe (lock_queue q) data sz).

(** The stored size of a replaced element is left as it was. *)
Definition queue_replace q (data : A) (sz id : Z) : dataqueue A * Z :=
  let q := lock_queue q in
  if (size q <=? id) || (id <? 0) then (unlock_queue q, 0)
  else
    (unlock_queue (Dataqueue (<[Z.to_nat id := data]> (packet q)) (packet_sizes q)
                     (locker q) (size q)), 1).

(** [for (i = id; i < size-1; i++) arr[i] = arr[i+1];] with [n] iterations left. *)
Fixpoint shift_down {X} (n i : nat) (arr : list X) : list X :=
  match n with
  | O => arr
  | S n' =>
      shift_down n' (S i)
        (match arr !! S i with Some x => <[i := x]> arr | None => arr end)
  end.

Definition queue_removeunsafe q (id : Z) : dataqueue A :=
  if (size q <=? id) || (id <? 0) then q
  else
    let n := Z.to_nat (size q - 1 - id) in
    let keep := Z.to_nat (size q - 1) in
    Dataqueue (take keep (shift_down n (Z.to_nat id) (packet q)))
      (take keep (shift_down n (Z.to_nat id) (packet_sizes q)))
      (locker q) (size q - 1).

Definition queue_unlockidandremove q (id : Z) : dataqueue A :=
  if (size q <=? id) || (id <? 0) then unlock_queue q
  else unlock_queue (queue_removeunsafe q id).

Definition queue_getcurrentsize q : Z := size q.

Definition queue_lockall q : dataqueue A := lock_queue q.
Definition queue_unlockall q : dataqueue A := unlock_queue q.

Definition queue_getidunsafe q (id : Z) : option (A * Z) :=
  if (size q <=? id) || (id <? 0) then None
  else
    match packet q !! Z.to_nat id, packet_sizes q !! Z.to_nat id with
    | Some data, Some sz => Some (data, sz)
    | _, _ => None
    end.

(** The lock is guarded by [#if LOCKING_ENABLEDrtable_old], an undefined name,
    so it is not compiled; the unlock of the failing branch is. *)
Definition queue_getidandlock q (id : Z) : dataqueue A * option (A * Z) :=
  if (size q <=? id) || (id <? 0) then (unlock_queue q, None)
  else (q, queue_getidunsafe q id).

Definition queue_unlockid q (id : Z) : dataqueue A := unlock_queue q.

(** A write through the pointer returned for element [id]. *)
Definition queue_write q (id : nat) (data : A) : dataqueue A :=
  Dataqueue (<[id := data]> (packet q)) (packet_sizes q) (locker q) (size q).

(** The [while (queue->size > 0)] loops; [fuel] bounds the iterations. *)
Fixpoint purge_loop (fuel : nat) q : dataqueue A :=
  match fuel with
  | O => q
  | S fuel' =>
      if 0 <? size q then
        match queue_getidandlock q 0 with
        | (q', Some _) => purge_loop fuel' (queue_unlockidandremove q' 0)
        | (q', None) => purge_loop fuel' q'
        end
      else q
  end.

Definition queue_purge q : dataqueue A := purge_loop (Z.to_nat (size q)) q.

Fixpoint purge_unsafe_loop (fuel : nat) q : dataqueue A :=
  match fuel with
  | O => q
  | S fuel' =>
      if 0 <? size q then
        match queue_getidunsafe q 0 with
        | Some _ => purge_unsafe_loop fuel' (queue_removeunsafe q 0)
        | None => purge_unsafe_loop fuel' q
        end
      else q
  end.

Definition queue_purge_unsafe q : dataqueue A := purge_unsafe_loop (Z.to_nat (size q)) q.

(** First index whose stored bytes equal [data]. *)
Fixpoint exists_loop `{Memcmp A} (fuel i : nat) q (data : A) : Z :=
  match fuel with
  | O => -1
  | S fuel' =>
      if Z.of_nat i <? size q then
        match packet q !! i with
        | Some x => if memcmp_eq x data then Z.of_nat i else exists_loop fuel' (S i) q data
        | None => exists_loop fuel' (S i) q data
        end
      else -1
  end.

Definition queue_existsunsafe `{Memcmp A} q (data : A) : Z :=
  exists_loop (Z.to_nat (size q)) 0 q data.

(** Both arrays are released after the purge. *)
Definition queue_free q : dataqueue A :=
  let q := queue_purge q in
  Dataqueue [] [] (locker q) (size q).

End operations.

(** * The locked traversal used by every client

    The body of the loop decides what happens to the entry it holds: it is
    unlocked (with the value written through the pointer, if any), unlocked and
    removed, or one of these before the enclosing function returns. *)

Inductive verdict (A : Type) :=
  | Unlock (e : A)
  | Remove
  | Return (e : A)
  | RemoveReturn.
Arguments Unlock {A} e.
Arguments Remove {A}.
Arguments Return {A} e.
Arguments RemoveReturn {A}.

(** [None] is a failed [assert(entry_size == sizeof(entry))]. *)
Fixpoint for_locked {A S} (sizeof : Z) (body : nat → A → S → verdict A * S)
    (fuel i : nat) (q : dataqueue A) (s : S) : option (dataqueue A * S) :=
  match fuel with
  | O => Some (q, s)
  | Datatypes.S fuel' =>
      if Z.of_nat i <? size q then
        match queue_getidandlock q (Z.of_nat i) with
        | (q1, Some (e, sz)) =>
            if sz =? sizeof then
              match body i e s with
              | (Unlock e', s') =>
                  for_locked sizeof body fuel' (Datatypes.S i)
                    (queue_unlockid (queue_write q1 i e') (Z.of_nat i)) s'
              | (Remove, s') =>
                  for_locked sizeof body fuel' (Datatypes.S i)
                    (queue_unlockidandremove q1 (Z.of_nat i)) s'
              | (Return e', s') =>
                  Some (queue_unlockid (queue_write q1 i e') (Z.of_nat i), s')
              | (RemoveReturn, s') => Some (queue_unlockidandremove q1 (Z.of_nat i), s')
              end
            else None
        | (q1, None) => for_locked sizeof body fuel' (Datatypes.S i) q1 s
        end
      else Some (q, s)
  end.

Definition queue_foreach {A S} (sizeof : Z) (body : nat → A → S → verdict A * S)
    (q : dataqueue A) (s : S) : option (dataqueue A * S) :=
  for_locked sizeof body (Z.to_nat (size q)) 0 q s.

(** * Specification: the list a queue stands for *)

Module Spec.

(** The traversal on the list: removing the entry at index [i] moves its
    successor to index [i], and the loop goes on at [i + 1], so the successor
    is not visited. *)
Fixpoint visit {A S} (body : nat → A → S → verdict A * S) (i : nat) (l : list A) (s : S)
  : list A * S :=
  match l with
  | [] => ([], s)
  | x :: rest =>
      match body i x s with
      | (Unlock x', s') =>
          let r := visit body (Datatypes.S i) rest s' in (x' :: r.1, r.2)
      | (Return x', s') => (x' :: rest, s')
      | (RemoveReturn, s') => (rest, s')
      | (Remove, s') =>
          match rest with
          | [] => ([], s')
          | y :: rest' =>
              let r := visit body (Datatypes.S i) rest' s' in (y :: r.1, r.2)
          end
      end
  end.

(** Removal of the elements satisfying [p] by such a loop. *)
Fixpoint remove_skip {A} (p : A → bool) (l : list A) : list A :=
  match l with
  | [] => []
  | x :: rest =>
      if p x then
        match rest with
        | [] => []
        | y :: rest' => y :: remove_skip p rest'
        end
      else x :: remove_skip p rest
  end.

(** First index from [i] on whose element satisfies [p]. *)
Fixpoint find_from {A} (p : A → bool) (i : nat) (l : list A) : option (nat * A) :=
  match l with
  | [] => None
  | x :: rest => if p x then Some (i, x) else find_from p (Datatypes.S i) rest
  end.

End Spec.

(** * Invariant and refinement *)

Record wf_queue {A} (sz : Z) (q : dataqueue A) : Prop := {
  wf_size : size q = Z.of_nat (length (packet q));
  wf_sizes : packet_sizes q = replicate (length (packet q)) sz
}.

Section refinement.
Context {A : Type}.
Implicit Types (q : dataqueue A) (l : list A).

Lemma wf_queue_init sz : wf_queue (A:=A) sz queue_init.
Proof. by split. Qed.

Lemma wf_unlock sz q : wf_queue sz q → wf_queue sz (unlock_queue q).
Proof. by intros []. Qed.

Lemma wf_lock sz q : wf_queue sz q → wf_queue sz (lock_queue q).
Proof. by intros []. Qed.

Lemma wf_write sz q i x : wf_queue sz q → wf_queue sz (queue_write q i x).
Proof. intros []. split; simpl; by rewrite length_insert. Qed.

Lemma grow_all {X} (l : list X) n x : n = Z.of_nat (length l) → grow l n x = l ++ [x].
Proof. intros ->. unfold grow. by rewrite Nat2Z.id, firstn_all. Qed.

Lemma queue_add_unsafe_spec sz q x :
  wf_queue sz q →
  wf_queue sz (queue_add_unsafe q x sz) ∧ packet (queue_add_unsafe q x sz) = packet q ++ [x].
Proof.
  intros [Hs Hz]. unfold queue_add_unsafe; simpl. rewrite !grow_all; try done; last first.
  { by rewrite Hz, length_replicate. }
  split; [|done]. split; simpl.
  - rewrite length_app; simpl. lia.
  - rewrite Hz, length_app, replicate_add. done.
Qed.

Lemma queue_add_spec sz q x :
  wf_queue sz q →
  wf_queue sz (queue_add q x sz) ∧ packet (queue_add q x sz) = packet q ++ [x].
Proof.
  intros Hw. destruct (queue_add_unsafe_spec sz (lock_queue q) x (wf_lock _ _ Hw)).
  split; [by apply wf_unlock|done].
Qed.

Lemma lookup_shift_down {X} n i (arr : list X) j :
  (i + n < length arr)%nat →
  shift_down n i arr !! j =
    if decide (i <= j < i + n)%nat then arr !! S j else arr !! j.
Proof.
  revert i arr. induction n as [|n IH]; intros i arr Hlt; simpl.
  { by rewrite decide_False by lia. }
  destruct (lookup_lt_is_Some_2 arr (S i)) as [x Hx]; [lia|]. rewrite Hx.
  rewrite IH by (rewrite length_insert; lia).
  destruct (decide (S i <= j < S i + n)%nat).
  - rewrite decide_True by lia. by rewrite list_lookup_insert_ne by lia.
  - destruct (decide (i = j)) as [->|Hne].
    + rewrite decide_True by lia. rewrite list_lookup_insert_eq by lia. done.
    + rewrite decide_False by lia. by rewrite list_lookup_insert_ne.
Qed.

Lemma shift_down_delete {X} (arr : list X) i :
  (i < length arr)%nat →
  take (length arr - 1) (shift_down (length arr - 1 - i) i arr) = delete i arr.
Proof.
  intros Hi. apply list_eq. intros j.
  rewrite lookup_take, lookup_shift_down by lia.
  destruct (decide (j < i)%nat).
  - rewrite list_lookup_delete_lt by lia. rewrite decide_True, decide_False by lia. done.
  - rewrite list_lookup_delete_ge by lia. case_decide.
    + by rewrite decide_True by lia.
    + symmetry. apply lookup_ge_None_2. lia.
Qed.

Lemma delete_replicate {X} n i (x : X) :
  (i < n)%nat → delete i (replicate n x) = replicate (n - 1) x.
Proof.
  intros Hi. symmetry. apply replicate_as_Forall. split.
  - rewrite length_delete, length_replicate; [lia|].
    apply lookup_lt_is_Some_2. by rewrite length_replicate.
  - apply Forall_delete, Forall_replicate. done.
Qed.

Lemma id_in_range q i (Hi : (i < length (packet q))%nat)
    (Hs : size q = Z.of_nat (length (packet q))) :
  (size q <=? Z.of_nat i) || (Z.of_nat i <? 0) = false.
Proof. rewrite Hs. apply orb_false_intro; [apply Z.leb_gt|apply Z.ltb_ge]; lia. Qed.

Lemma queue_removeunsafe_spec sz q i :
  wf_queue sz q → (i < length (packet q))%nat →
  wf_queue sz (queue_removeunsafe q (Z.of_nat i)) ∧
  packet (queue_removeunsafe q (Z.of_nat i)) = delete i (packet q).
Proof.
  intros [Hs Hz] Hi. unfold queue_removeunsafe. rewrite id_in_range by done. simpl.
  rewrite Hs, Nat2Z.id.
  replace (Z.to_nat (Z.of_nat (length (packet q)) - 1 - Z.of_nat i))
    with (length (packet q) - 1 - i)%nat by lia.
  replace (Z.to_nat (Z.of_nat (length (packet q)) - 1)) with (length (packet q) - 1)%nat by lia.
  rewrite shift_down_delete by done. split; [|done]. split; simpl.
  - rewrite length_delete by (by apply lookup_lt_is_Some_2). lia.
  - rewrite Hz.
    pose proof (shift_down_delete (replicate (length (packet q)) sz) i) as Hd.
    rewrite length_replicate in Hd. rewrite Hd by done.
    rewrite length_delete by (by apply lookup_lt_is_Some_2).
    by apply delete_replicate.
Qed.

Lemma queue_unlockidandremove_spec sz q i :
  wf_queue sz q → (i < length (packet q))%nat →
  wf_queue sz (queue_unlockidandremove q (Z.of_nat i)) ∧
  packet (queue_unlockidandremove q (Z.of_nat i)) = delete i (packet q).
Proof.
  intros Hw Hi. destruct (queue_removeunsafe_spec sz q i Hw Hi).
  unfold queue_unlockidandremove. rewrite id_in_range by (try apply Hw; done).
  split; [by apply wf_unlock|done].
Qed.

Lemma queue_replace_spec sz sz' q x i :
  wf_queue sz q → (i < length (packet q))%nat →
  wf_queue sz (queue_replace q x sz' (Z.of_nat i)).1 ∧
  packet (queue_replace q x sz' (Z.of_nat i)).1 = <[i := x]> (packet q) ∧
  (queue_replace q x sz' (Z.of_nat i)).2 = 1.
Proof.
  intros [Hs Hz] Hi. unfold queue_replace. rewrite id_in_range by done. simpl.
  rewrite Nat2Z.id. split; [|done].
  split; simpl; by rewrite length_insert.
Qed.

Lemma queue_getidunsafe_spec sz q i :
  wf_queue sz q →
  queue_getidunsafe q (Z.of_nat i) = (λ x, (x, sz)) <$> packet q !! i.
Proof.
  intros [Hs Hz]. unfold queue_getidunsafe. rewrite Nat2Z.id.
  destruct (decide (i < length (packet q))%nat) as [Hi|Hi].
  - rewrite id_in_range by done.
    destruct (lookup_lt_is_Some_2 (packet q) i Hi) as [x Hx]. rewrite Hx, Hz.
    by rewrite lookup_replicate_2.
  - rewrite (lookup_ge_None_2 _ i) by lia. rewrite Hs.
    by destruct (Z.leb_spec (Z.of_nat (length (packet q))) (Z.of_nat i)); [|lia].
Qed.

Lemma queue_getidandlock_spec sz q i :
  wf_queue sz q → (i < length (packet q))%nat →
  queue_getidandlock q (Z.of_nat i) = (q, (λ x, (x, sz)) <$> packet q !! i).
Proof.
  intros Hw Hi. unfold queue_getidandlock. rewrite id_in_range by (try apply Hw; done).
  by erewrite queue_getidunsafe_spec.
Qed.

Lemma purge_loop_spec sz q fuel :
  wf_queue sz q → (length (packet q) <= fuel)%nat →
  wf_queue sz (purge_loop fuel q) ∧ packet (purge_loop fuel q) = [].
Proof.
  revert q. induction fuel as [|fuel IH]; intros q Hw Hf; simpl.
  { split; [done|]. by apply nil_length_inv; lia. }
  rewrite (wf_size _ _ Hw). destruct (packet q) as [|x l] eqn:Hp; simpl in *; [done|].
  destruct (Z.ltb_spec 0 (Z.pos (Pos.of_succ_nat (length l)))); [|lia].
  pose proof (queue_getidandlock_spec sz q 0 Hw) as Hg. rewrite Hp in Hg.
  change (Z.of_nat 0) with 0 in Hg. rewrite Hg by (simpl; lia). simpl.
  destruct (queue_unlockidandremove_spec sz q 0 Hw) as [Hw' Hp']; [rewrite Hp; simpl; lia|].
  change (Z.of_nat 0) with 0 in *. apply IH; [done|]. rewrite Hp', Hp. simpl. lia.
Qed.

Lemma purge_unsafe_loop_spec sz q fuel :
  wf_queue sz q → (length (packet q) <= fuel)%nat →
  wf_queue sz (purge_unsafe_loop fuel q) ∧ packet (purge_unsafe_loop fuel q) = [] ∧
  locker (purge_unsafe_loop fuel q) = locker q.
Proof.
  revert q. induction fuel as [|fuel IH]; intros q Hw Hf; simpl.
  { split; [done|]. split; [|done]. by apply nil_length_inv; lia. }
  rewrite (wf_size _ _ Hw). destruct (packet q) as [|x l] eqn:Hp; simpl in *; [done|].
  destruct (Z.ltb_spec 0 (Z.pos (Pos.of_succ_nat (length l)))); [|lia].
  pose proof (queue_getidunsafe_spec sz q 0 Hw) as Hg. rewrite Hp in Hg.
  change (Z.of_nat 0) with 0 in Hg. rewrite Hg. simpl.
  destruct (queue_removeunsafe_spec sz q 0 Hw) as [Hw' Hp']; [rewrite Hp; simpl; lia|].
  change (Z.of_nat 0) with 0 in *.
  destruct (IH _ Hw') as (? & ? & Hl); [rewrite Hp', Hp; simpl; lia|].
  split_and!; [done..|]. rewrite Hl. unfold queue_removeunsafe.
  by destruct (_ || _).
Qed.

Lemma exists_loop_spec `{Memcmp A} sz q x fuel i :
  wf_queue sz q → (length (packet q) <= i + fuel)%nat →
  exists_loop fuel i q x =
    match Spec.find_from (λ y, memcmp_eq y x) i (drop i (packet q)) with
    | Some (j, _) => Z.of_nat j
    | None => -1
    end.
Proof.
  intros Hw. revert i. induction fuel as [|fuel IH]; intros i Hf; simpl.
  { by rewrite drop_ge by lia. }
  rewrite (wf_size _ _ Hw). destruct (Z.ltb_spec (Z.of_nat i) (Z.of_nat (length (packet q)))).
  - destruct (lookup_lt_is_Some_2 (packet q) i) as [y Hy]; [lia|]. rewrite Hy.
    rewrite (drop_S _ _ _ Hy). simpl. destruct (memcmp_eq y x); [done|].
    by rewrite IH by lia.
  - by rewrite drop_ge by lia.
Qed.

Lemma queue_existsunsafe_spec `{Memcmp A} sz q x :
  wf_queue sz q →
  queue_existsunsafe q x =
    match Spec.find_from (λ y, memcmp_eq y x) 0 (packet q) with
    | Some (j, _) => Z.of_nat j
    | None => -1
    end.
Proof.
  intros Hw. unfold queue_existsunsafe. rewrite (exists_loop_spec sz); [|done|].
  - by rewrite drop_0.
  - rewrite (wf_size _ _ Hw). lia.
Qed.

(** The traversal implements [Spec.visit]; its assertion holds. *)
Lemma for_locked_visit {T} sz (body : nat → A → T → verdict A * T) fuel pre l q s :
  wf_queue sz q → packet q = pre ++ l → (length l <= fuel)%nat →
  ∃ q', for_locked sz body fuel (length pre) q s
          = Some (q', (Spec.visit body (length pre) l s).2) ∧
        wf_queue sz q' ∧ packet q' = pre ++ (Spec.visit body (length pre) l s).1.
Proof.
  revert pre l q s. induction fuel as [|fuel IH]; intros pre l q s Hw Hp Hf.
  { destruct l; simpl in *; [|lia]. by exists q. }
  cbn [for_locked]. rewrite (wf_size _ _ Hw), Hp, length_app.
  destruct l as [|x rest]; cbn [length] in *.
  { destruct (Z.ltb_spec (Z.of_nat (length pre)) (Z.of_nat (length pre + 0))); [lia|].
    by exists q. }
  destruct (Z.ltb_spec (Z.of_nat (length pre)) (Z.of_nat (length pre + S (length rest)))); [|lia].
  assert (length pre < length (packet q))%nat as Hin by (rewrite Hp, length_app; simpl; lia).
  rewrite (queue_getidandlock_spec sz) by done. rewrite Hp, list_lookup_middle by done.
  cbn [fmap option_fmap option_map]. rewrite Z.eqb_refl.
  assert (∀ x', packet (queue_unlockid (queue_write q (length pre) x') (Z.of_nat (length pre)))
                = (pre ++ [x']) ++ rest) as Hwr.
  { intros x'. simpl. rewrite Hp, insert_app_r_alt by lia. rewrite Nat.sub_diag.
    by rewrite <-app_assoc. }
  cbn [Spec.visit]. destruct (body (length pre) x s) as [[x'| |x'|] s'] eqn:Hb.
  - destruct (IH (pre ++ [x']) rest (queue_unlockid (queue_write q (length pre) x')
      (Z.of_nat (length pre))) s') as (q' & Hq' & Hw' & Hp');
      [by apply wf_unlock, wf_write|done|lia|].
    rewrite length_app, Nat.add_1_r in Hq', Hp'.
    exists q'. split_and!; [done..|]. by rewrite Hp', <-app_assoc.
  - destruct (queue_unlockidandremove_spec sz q (length pre) Hw Hin) as [Hw' Hp'].
    rewrite Hp in Hp'.
    assert (delete (length pre) (pre ++ x :: rest) = pre ++ rest) as Hd
      by (by rewrite delete_middle).
    destruct rest as [|y rest'].
    + exists (queue_unlockidandremove q (Z.of_nat (length pre))).
      split_and!; [|done|by rewrite Hp', Hd].
      destruct fuel; simpl; [done|]. rewrite (wf_size _ _ Hw'), Hp', Hd, app_nil_r.
      by destruct (Z.ltb_spec (Z.of_nat (S (length pre))) (Z.of_nat (length pre))); [lia|].
    + destruct (IH (pre ++ [y]) rest' (queue_unlockidandremove q (Z.of_nat (length pre))) s')
        as (q' & Hq' & Hw'' & Hp''); [done| |simpl in *; lia|].
      { by rewrite Hp', Hd, <-app_assoc. }
      rewrite length_app, Nat.add_1_r in Hq', Hp''.
      exists q'. split_and!; [done..|]. by rewrite Hp'', <-app_assoc.
  - exists (queue_unlockid (queue_write q (length pre) x') (Z.of_nat (length pre))).
    split_and!; [done|by apply wf_unlock, wf_write|]. by rewrite Hwr, <-app_assoc.
  - destruct (queue_unlockidandremove_spec sz q (length pre) Hw Hin) as [Hw' Hp'].
    exists (queue_unlockidandremove q (Z.of_nat (length pre))).
    split_and!; [done..|]. by rewrite Hp', Hp, delete_middle.
Qed.

Lemma queue_foreach_visit {T} sz (body : nat → A → T → verdict A * T) q s :
  wf_queue sz q →
  ∃ q', queue_foreach sz body q s = Some (q', (Spec.visit body 0 (packet q) s).2) ∧
        wf_queue sz q' ∧ packet q' = (Spec.visit body 0 (packet q) s).1.
Proof.
  intros Hw. unfold queue_foreach.
  destruct (for_locked_visit sz body (Z.to_nat (size q)) [] (packet q) q s)
    as (q' & ? & ? & ?); [done..| |by exists q'].
  rewrite (wf_size _ _ Hw). lia.
Qed.

End refinement.

(** * The bodies clients use *)

(** Search: return at the first entry satisfying [p]. *)
Definition search_body {A} (p : A → bool) (i : nat) (x : A) (r : option (nat * A))
  : verdict A * option (nat * A) :=
  if p x then (Return x, Some (i, x)) else (Unlock x, r).

(** Deletion: remove every visited entry satisfying [p]. *)
Definition remove_body {A S} (p : A → bool) (i : nat) (x : A) (s : S) : verdict A * S :=
  if p x then (Remove, s) else (Unlock x, s).

Section bodies.
Context {A : Type}.
Implicit Types (p : A → bool) (l : list A).

Lemma visit_search p i l r :
  Spec.visit (search_body p) i l r =
    (l, match Spec.find_from p i l with Some y => Some y | None => r end).
Proof.
  revert i. induction l as [|x l IH]; intros i; simpl; [done|].
  unfold search_body at 1. destruct (p x); [done|]. by rewrite IH.
Qed.

Lemma visit_remove {T} p i l (s : T) :
  Spec.visit (remove_body p) i l s = (Spec.remove_skip p l, s).
Proof.
  revert i. induction l as [l IH] using (induction_ltof1 _ length); intros i.
  destruct l as [|x [|y l]]; simpl; [done|..]; unfold remove_body at 1; destruct (p x); try done.
  - by rewrite IH by (unfold ltof; simpl; lia).
  - change (y :: l) with ([y] ++ l).
    pose proof (IH (y :: l) ltac:(unfold ltof; simpl; lia) (S i)) as H. simpl in *.
    by rewrite H.
Qed.

(** A loop whose removals depend on the entry only. *)
Lemma visit_remove_gen {T} p (body : nat → A → T → verdict A * T) i l s :
  (∀ i x s, (body i x s).1 = if p x then Remove else Unlock x) →
  (Spec.visit body i l s).1 = Spec.remove_skip p l.
Proof.
  intros Hb. revert i s. induction l as [l IH] using (induction_ltof1 _ length); intros i s.
  destruct l as [|x l]; simpl; [done|]. specialize (Hb i x s).
  destruct (body i x s) as [v s']; simpl in Hb; subst v.
  destruct (p x); simpl.
  - destruct l as [|y l]; simpl; [done|]. by rewrite IH by (unfold ltof; simpl; lia).
  - by rewrite IH by (unfold ltof; simpl; lia).
Qed.

Lemma find_from_Some p i l j x :
  Spec.find_from p i l = Some (j, x) ↔
  (∃ k, j = (i + k)%nat ∧ l !! k = Some x ∧ p x = true ∧
        ∀ k' y, (k' < k)%nat → l !! k' = Some y → p y = false).
Proof.
  revert i. induction l as [|a l IH]; intros i; simpl.
  { split; [done|]. intros (k & _ & Hk & _). by rewrite lookup_nil in Hk. }
  destruct (p a) eqn:Hpa.
  - split.
    + intros [= <- <-]. exists 0%nat. split_and!; [lia|done..|]. intros; lia.
    + intros ([|k] & -> & Hk & Hpx & Hmin); simplify_eq/=; [by rewrite Nat.add_0_r|].
      specialize (Hmin 0%nat a ltac:(lia) eq_refl). congruence.
  - rewrite IH. split; intros (k & -> & Hk & Hpx & Hmin).
    + exists (S k). split_and!; [lia|done..|]. intros [|k'] y Hlt Hy; simplify_eq/=; [done|].
      eapply Hmin; [|done]. lia.
    + destruct k as [|k]; simplify_eq/=; [congruence|]. exists k. split_and!; [lia|done..|].
      intros k' y Hlt Hy. apply (Hmin (S k') y); [lia|done].
Qed.

Lemma find_from_None p i l :
  Spec.find_from p i l = None ↔ Forall (λ x, p x = false) l.
Proof.
  revert i. induction l as [|a l IH]; intros i; simpl; [by split|].
  destruct (p a) eqn:Ha; [split; [done|]; intros H; inversion H; congruence|].
  rewrite IH. split; [by constructor|]. by inversion 1.
Qed.

(** Nothing that fails the test is removed. *)
Lemma remove_skip_keeps p l :
  filter (λ x, p x = false) (Spec.remove_skip p l) = filter (λ x, p x = false) l.
Proof.
  induction l as [l IH] using (induction_ltof1 _ length).
  destruct l as [|x l]; simpl; [done|]. destruct (p x) eqn:Hx.
  - rewrite (filter_cons_False _ x) by congruence. destruct l as [|y l]; [done|].
    rewrite !(filter_cons _ y), (IH l) by (unfold ltof; simpl; lia). done.
  - rewrite !(filter_cons _ x), (IH l) by (unfold ltof; simpl; lia). done.
Qed.

(** No two neighbours satisfy [p]. *)
Fixpoint no_adjacent p l : bool :=
  match l with
  | [] => true
  | x :: rest =>
      match rest with
      | [] => true
      | y :: _ => negb (p x && p y) && no_adjacent p rest
      end
  end.

(** On a list without adjacent victims the loop is a filter. *)
Lemma remove_skip_filter p l :
  no_adjacent p l = true → Spec.remove_skip p l = filter (λ x, p x = false) l.
Proof.
  induction l as [l IH] using (induction_ltof1 _ length). intros Hn.
  destruct l as [|x [|y l]]; [done|..].
  - simpl. destruct (p x) eqn:Hx; [by rewrite filter_cons_False by congruence|].
    by rewrite filter_cons_True.
  - cbn [no_adjacent] in Hn. apply andb_true_iff in Hn as [Hxy Hn].
    simpl. destruct (p x) eqn:Hx.
    + rewrite (filter_cons_False _ x) by congruence.
      destruct (p y) eqn:Hy; [done|]. rewrite (filter_cons_True _ y) by done. f_equal.
      apply IH; [unfold ltof; simpl; lia|]. destruct l; [done|].
      cbn [no_adjacent] in Hn. by apply andb_true_iff in Hn as [_ ?].
    + rewrite (filter_cons_True _ x) by done. f_equal.
      apply (IH (y :: l)); [unfold ltof; simpl; lia|done].
Qed.

(** In general the survivors that satisfy [p] are exactly the skipped ones:
    two adjacent victims at the head leave the second one. *)
Lemma remove_skip_adjacent p x y l :
  p x = true → Spec.remove_skip p (x :: y :: l) = y :: Spec.remove_skip p l.
Proof. intros Hx. simpl. by rewrite Hx. Qed.

End bodies.

#[export] Hint Resolve wf_queue_init wf_unlock wf_lock wf_write : bir.

(** * Properties *)

(** ** Programs over a queue

    The operations as data, with the sizes the callers pass, what the code does,
    and what a list of elements with their sizes does. *)
Inductive queue_op (A : Type) :=
  | OpAdd (x : A) (sz : Z)
  | OpAddUnsafe (x : A) (sz : Z)
  | OpReplace (id : Z) (x : A) (sz : Z)
  | OpRemove (id : Z)
  | OpRemoveUnsafe (id : Z)
  | OpPurge
  | OpPurgeUnsafe.
Arguments OpAdd {A} x sz.
Arguments OpAddUnsafe {A} x sz.
Arguments OpReplace {A} id x sz.
Arguments OpRemove {A} id.
Arguments OpRemoveUnsafe {A} id.
Arguments OpPurge {A}.
Arguments OpPurgeUnsafe {A}.

Definition run_op {A} (q : dataqueue A) (op : queue_op A) : dataqueue A :=
  match op with
  | OpAdd x sz => queue_add q x sz
  | OpAddUnsafe x sz => queue_add_unsafe q x sz
  | OpReplace id x sz => (queue_replace q x sz id).1
  | OpRemove id => queue_unlockidandremove q id
  | OpRemoveUnsafe id => queue_removeunsafe q id
  | OpPurge => queue_purge q
  | OpPurgeUnsafe => queue_purge_unsafe q
  end.

(** A replaced element keeps the size that was stored. *)
Definition list_op {A} (l : list (A * Z)) (op : queue_op A) : list (A * Z) :=
  match op with
  | OpAdd x sz | OpAddUnsafe x sz => l ++ [(x, sz)]
  | OpReplace id x _ => if id <? 0 then l else alter (λ e, (x, e.2)) (Z.to_nat id) l
  | OpRemove id | OpRemoveUnsafe id => if id <? 0 then l else delete (Z.to_nat id) l
  | OpPurge | OpPurgeUnsafe => []
  end.

(** The size a caller passes. *)
Definition op_size {A} (op : queue_op A) : option Z :=
  match op with OpAdd _ sz | OpAddUnsafe _ sz | OpReplace _ _ sz => Some sz | _ => None end.

(** The arrays fit together. *)
Record consistent {A} (q : dataqueue A) : Prop := {
  cs_size : size q = Z.of_nat (length (packet q));
  cs_sizes : length (packet_sizes q) = length (packet q)
}.

(** The elements with their stored sizes. *)
Definition contents {A} (q : dataqueue A) : list (A * Z) := zip (packet q) (packet_sizes q).

Section programs.
Context {A : Type}.
Implicit Types q : dataqueue A.

Lemma zip_delete {X Y} i (l : list X) (k : list Y) : zip (delete i l) (delete i k) = delete i (zip l k).
Proof.
  revert i k. induction l as [|x l IH]; intros [|i] [|y k]; cbn; try done.
  - by destruct l.
  - f_equal. apply IH.
Qed.

Lemma zip_replace {X Y} i x (l : list X) (k : list Y) :
  zip (<[i := x]> l) k = alter (λ e, (x, e.2)) i (zip l k).
Proof.
  revert i k. induction l as [|y l IH]; intros [|i] [|z k]; cbn; try done. f_equal. apply IH.
Qed.

Lemma delete_past {X} (l : list X) i : (length l <= i)%nat → delete i l = l.
Proof. intros H. by rewrite delete_take_drop, take_ge, drop_ge, app_nil_r by lia. Qed.
Lemma alter_past {X} f (l : list X) i : (length l <= i)%nat → alter f i l = l.
Proof. intros H. apply list_eq. intros j. rewrite list_lookup_alter. case_decide; [subst; by rewrite lookup_ge_None_2|done]. Qed.

Lemma length_sized_contents q : consistent q → length (contents q) = length (packet q).
Proof. intros [_ Hz]. unfold contents. rewrite length_zip_with. lia. Qed.

(** An index is negative, past the end, or a position of the queue. *)
Lemma index_cases q id :
  consistent q →
  (size q <=? id) || (id <? 0) = true ∧ (id < 0 ∨ (0 <= id ∧ (length (contents q) <= Z.to_nat id)%nat)) ∨
  ∃ i, id = Z.of_nat i ∧ (i < length (packet q))%nat.
Proof.
  intros Hq. rewrite (length_sized_contents _ Hq), (cs_size _ Hq). destruct (Z.ltb_spec id 0).
  - left. split; [apply orb_true_r|by left].
  - destruct (decide (length (packet q) <= Z.to_nat id)%nat).
    + left. split; [|by right]. apply orb_true_iff. left. lia.
    + right. exists (Z.to_nat id). lia.
Qed.

Lemma add_contents q x sz :
  consistent q → consistent (queue_add_unsafe q x sz) ∧ contents (queue_add_unsafe q x sz) = contents q ++ [(x, sz)].
Proof.
  intros [Hs Hz]. unfold queue_add_unsafe. rewrite !grow_all by (done || lia). split.
  - split; cbn; rewrite !length_app; cbn; lia.
  - unfold contents. cbn [packet packet_sizes]. by rewrite zip_with_app by done.
Qed.

Lemma remove_contents q i :
  consistent q → (i < length (packet q))%nat →
  consistent (queue_removeunsafe q (Z.of_nat i)) ∧
  contents (queue_removeunsafe q (Z.of_nat i)) = delete i (contents q).
Proof.
  intros [Hs Hz] Hi. unfold queue_removeunsafe. rewrite id_in_range by done. rewrite Hs, Nat2Z.id.
  replace (Z.to_nat (Z.of_nat (length (packet q)) - 1 - Z.of_nat i)) with (length (packet q) - 1 - i)%nat by lia.
  replace (Z.to_nat (Z.of_nat (length (packet q)) - 1)) with (length (packet q) - 1)%nat by lia.
  pose proof (shift_down_delete (packet_sizes q) i) as Hd. rewrite Hz in Hd.
  rewrite shift_down_delete, Hd by done. split.
  - split; cbn; rewrite !length_delete by (apply lookup_lt_is_Some_2; lia); lia.
  - unfold contents. cbn [packet packet_sizes]. apply zip_delete.
Qed.

Lemma consistent_unlock q : consistent (unlock_queue q) ↔ consistent q.
Proof. by split; intros []. Qed.

Lemma unlockidandremove_contents q i :
  consistent q → (i < length (packet q))%nat →
  consistent (queue_unlockidandremove q (Z.of_nat i)) ∧
  contents (queue_unlockidandremove q (Z.of_nat i)) = delete i (contents q).
Proof.
  intros Hq Hi. unfold queue_unlockidandremove. rewrite id_in_range by (apply Hq || done).
  rewrite consistent_unlock. by apply remove_contents.
Qed.

Lemma getid_first q : consistent q → (0 < length (packet q))%nat → is_Some (queue_getidunsafe q 0).
Proof.
  intros [Hs Hz] Hl. unfold queue_getidunsafe. pose proof (id_in_range q 0 Hl Hs) as E. change (Z.of_nat 0) with 0 in E.
  rewrite E. change (Z.to_nat 0) with 0%nat.
  destruct (lookup_lt_is_Some_2 (packet q) 0 Hl) as [x ->].
  by destruct (lookup_lt_is_Some_2 (packet_sizes q) 0) as [y ->]; [lia|].
Qed.

(** Each round of a purge removes the first element. *)
Lemma purge_contents q fuel :
  consistent q → (length (packet q) <= fuel)%nat →
  (consistent (purge_loop fuel q) ∧ contents (purge_loop fuel q) = []) ∧
  (consistent (purge_unsafe_loop fuel q) ∧ contents (purge_unsafe_loop fuel q) = []).
Proof.
  assert (∀ q' : dataqueue A, consistent q' → length (packet q') = 0%nat → contents q' = []) as Hnil.
  { intros q' Hq' Hl. apply nil_length_inv. by rewrite length_sized_contents. }
  revert q. induction fuel as [|fuel IH]; intros q Hq Hf; cbn [purge_loop purge_unsafe_loop].
  { split; (split; [done|]); apply Hnil; done || lia. }
  rewrite (cs_size _ Hq). destruct (Z.ltb_spec 0 (Z.of_nat (length (packet q)))) as [Hl|Hl].
  - destruct (getid_first q Hq) as [e He]; [lia|].
    assert ((size q <=? 0) || (0 <? 0) = false) as E0 by (apply (id_in_range q 0); [lia|apply Hq]).
    unfold queue_getidandlock. rewrite E0, He. split.
    + destruct (unlockidandremove_contents q 0 Hq) as [H1 E1]; [lia|]. apply IH; [done|].
      pose proof (length_sized_contents _ H1) as L1. rewrite E1, length_delete, length_sized_contents in L1
        by (done || apply lookup_lt_is_Some_2; rewrite length_sized_contents by done; lia).
      change (Z.of_nat 0) with 0 in L1. lia.
    + destruct (remove_contents q 0 Hq) as [H1 E1]; [lia|]. apply IH; [done|].
      pose proof (length_sized_contents _ H1) as L1. rewrite E1, length_delete, length_sized_contents in L1
        by (done || apply lookup_lt_is_Some_2; rewrite length_sized_contents by done; lia).
      change (Z.of_nat 0) with 0 in L1. lia.
  - split; (split; [done|]); apply Hnil; done || lia.
Qed.

Lemma run_op_refines q op :
  consistent q → consistent (run_op q op) ∧ contents (run_op q op) = list_op (contents q) op.
Proof.
  intros Hq. assert (consistent (lock_queue q)) as Hlq by by destruct Hq.
  destruct op as [x sz|x sz|id x sz|id|id| |]; cbn [run_op list_op].
  - unfold queue_add. rewrite consistent_unlock. by apply (add_contents (lock_queue q)).
  - by apply add_contents.
  - unfold queue_replace. cbn [size lock_queue]. destruct (index_cases q id Hq) as [[-> Hid]|(i & -> & Hi)].
    + cbn [fst]. rewrite consistent_unlock. split; [done|]. destruct (Z.ltb_spec id 0); [done|]. by rewrite alter_past by lia.
    + rewrite id_in_range by (done || apply Hq). cbn [fst]. rewrite consistent_unlock, Nat2Z.id.
      rewrite (proj2 (Z.ltb_ge _ _)) by lia. split; [split; cbn; rewrite length_insert; apply Hq|].
      unfold contents. cbn [packet packet_sizes unlock_queue lock_queue]. apply zip_replace.
  - destruct (index_cases q id Hq) as [[E Hid]|(i & -> & Hi)].
    + unfold queue_unlockidandremove. rewrite E, consistent_unlock. split; [done|]. destruct (Z.ltb_spec id 0); [done|]. by rewrite delete_past by lia.
    + rewrite (proj2 (Z.ltb_ge _ _)), Nat2Z.id by lia. by apply unlockidandremove_contents.
  - destruct (index_cases q id Hq) as [[E Hid]|(i & -> & Hi)].
    + unfold queue_removeunsafe. rewrite E. split; [done|]. destruct (Z.ltb_spec id 0); [done|]. by rewrite delete_past by lia.
    + rewrite (proj2 (Z.ltb_ge _ _)), Nat2Z.id by lia. by apply remove_contents.
  - apply purge_contents; [done|]. rewrite (cs_size _ Hq). lia.
  - apply purge_contents; [done|]. rewrite (cs_size _ Hq). lia.
Qed.

(** With one size for all elements that size is stored throughout. *)
Lemma list_op_size sz (l : list (A * Z)) op :
  Forall (λ e, e.2 = sz) l → (∀ z, op_size op = Some z → z = sz) → Forall (λ e, e.2 = sz) (list_op l op).
Proof.
  intros Hl Ho. destruct op as [x z|x z|id x z|id|id| |]; cbn [list_op op_size] in *; try done.
  1,2: apply Forall_app_2; [done|]; constructor; [by apply Ho|done].
  - destruct (id <? 0); [done|]. by apply Forall_alter.
  - destruct (id <? 0); [done|]. by apply Forall_delete.
  - destruct (id <? 0); [done|]. by apply Forall_delete.
Qed.

Lemma contents_wf sz q : consistent q → Forall (λ e, e.2 = sz) (contents q) → wf_queue sz q.
Proof.
  intros [Hs Hz] Hf. split; [done|]. symmetry. apply replicate_as_Forall. split; [done|]. apply Forall_lookup.
  intros i z Hi. destruct (lookup_lt_is_Some_2 (packet q) i) as [x Hx]; [rewrite <-Hz; by eapply lookup_lt_Some|].
  rewrite Forall_lookup in Hf. symmetry. apply (Hf i (x, z)). unfold contents. by rewrite lookup_zip_with, Hx, Hi.
Qed.
End programs.


(** A replacement by an element of another size leaves the old size behind. *)
Example queue_replace_keeps_size :
  contents (foldl run_op queue_init [OpAdd 1 4; OpReplace 0 2 8]) = [(2, 4)].
Proof. reflexivity. Qed.

(** the iteration idiom of the clients ([queue_getidandlock] up to the
    current size, then [queue_unlockid] or [queue_unlockidandremove]) always
    ends without a failed size assertion, calls its body on the elements in
    order, and leaves the queue well formed with the content [Spec.visit]
    gives: after a removal the index still advances, so the element that moved
    into the freed position is kept without a visit. *)
Theorem queue_foreach_refines_visit {A T} sz (body : nat → A → T → verdict A * T) q s :
  wf_queue sz q →
  ∃ q', queue_foreach sz body q s = Some (q', (Spec.visit body 0 (packet q) s).2) ∧
        wf_queue sz q' ∧ packet q' = (Spec.visit body 0 (packet q) s).1.
Proof. apply queue_foreach_visit. Qed.

Lemma queue_foreach_refines_visit_witness :
  ∃ q', queue_foreach 4 (remove_body Z.even) (queue_add (queue_add queue_init 2 4) 4 4) tt
          = Some (q', tt) ∧ wf_queue 4 q' ∧ packet q' = [4].
Proof.
  apply (queue_foreach_refines_visit 4 (remove_body Z.even)
    (queue_add (queue_add queue_init 2 4) 4 4) tt). by split.
Defined.

(** what a removal loop leaves behind.  No element that fails the test is
    lost or moved; when no two neighbours both pass the test, the result is
    exactly the filtered list; the element right after a removed one stays
    whether it passes the test or not. *)
Theorem queue_removal_loop {A} sz (p : A → bool) q :
  wf_queue sz q →
  ∃ q', queue_foreach sz (remove_body p) q tt = Some (q', tt) ∧ wf_queue sz q' ∧
    filter (λ x, p x = false) (packet q') = filter (λ x, p x = false) (packet q) ∧
    (no_adjacent p (packet q) = true → packet q' = filter (λ x, p x = false) (packet q)) ∧
    (∀ x y l, packet q = x :: y :: l → p x = true → packet q' = y :: Spec.remove_skip p l).
Proof.
  intros Hw. destruct (queue_foreach_visit sz (remove_body p) q tt Hw) as (q' & Hq & Hw' & Hp).
  rewrite visit_remove in Hq, Hp. cbn [fst snd] in *. exists q'. rewrite Hp. split_and!; [done..| | |].
  - apply remove_skip_keeps.
  - apply remove_skip_filter.
  - intros x y l ->. apply remove_skip_adjacent.
Qed.

Lemma queue_removal_loop_witness :
  ∃ q', queue_foreach 4 (remove_body Z.even) (queue_add (queue_add queue_init 2 4) 4 4) tt
          = Some (q', tt) ∧ packet q' = [4].
Proof.
  destruct (queue_removal_loop 4 Z.even (queue_add (queue_add queue_init 2 4) 4 4))
    as (q' & H1 & _ & _ & _ & H2); [by split|].
  exists q'. split; [exact H1|]. by apply (H2 2 4 []).
Defined.

(** [queue_getidandlock] takes no lock (its lock call sits behind a
    misspelt preprocessor symbol): a lookup of an existing index leaves the
    mutex as it is, and the [queue_unlockid] that follows releases a mutex
    nobody holds. *)
Theorem queue_getidandlock_takes_no_lock {A} sz (q : dataqueue A) i :
  wf_queue sz q → (i < length (packet q))%nat → mx_locked (locker q) = false →
  mx_locked (locker (queue_getidandlock q (Z.of_nat i)).1) = false ∧
  mx_bad_unlock (locker (queue_unlockid (queue_getidandlock q (Z.of_nat i)).1 (Z.of_nat i))) = true.
Proof.
  intros Hw Hi Hl. rewrite (queue_getidandlock_spec sz) by done. split; [done|]. cbn.
  by rewrite Hl, orb_true_r.
Qed.

Lemma queue_getidandlock_takes_no_lock_witness :
  mx_bad_unlock (locker (queue_unlockid (queue_getidandlock (queue_add queue_init 2 4) 0).1 0)) = true.
Proof.
  apply (queue_getidandlock_takes_no_lock 4 (queue_add queue_init 2 4) 0);
    [by split|apply Nat.lt_0_1|done].
Defined.
