(* ===== verification/Common.v ===== *)
(** Common helpers: time and address utilities (sr_common.c, sr_common.h) and
    the Internet checksum (globals.c).

    The theorems on the checksum are the ones every protocol component uses: a
    header whose checksum field was filled by [generatechecksum] verifies to
    zero, and a change of one 16-bit word is detected. *)

From stdpp Require Import base tactics list numbers strings pretty.
From Stdlib Require Import ZArith Lia.
From S2P Require Import Prelude.

Local Open Scope Z_scope.

(** * Time *)

Record timeval := Timeval { tv_sec : Z; tv_usec : Z }.

#[global] Instance timeval_eq_dec : EqDecision timeval.
Proof. solve_decision. Defined.

Definition time_add_usec (start : timeval) (usec : Z) : timeval :=
  let tot_usec := u32 (usec + tv_usec start) in
  let carry_sec := tot_usec / 1000000 in
  Timeval (tv_sec start + carry_sec) (u32 (tot_usec - u32 (1000000 * carry_sec))).

Definition is_later (t1 t2 : timeval) : bool :=
  (tv_sec t2 <? tv_sec t1) || ((tv_sec t1 =? tv_sec t2) && (tv_usec t2 <? tv_usec t1)).

(** [now] is the time read when [end] is [NULL]. *)
Definition time_passed (start : timeval) (end_ : option timeval) (now : timeval) : Z :=
  let end_ := match end_ with Some t => t | None => now end in
  let start_usec := u64 (tv_sec start * 1000000 + tv_usec start) in
  let end_usec := u64 (tv_sec end_ * 1000000 + tv_usec end_) in
  u64 (end_usec - start_usec).

Definition has_time_passed (start : timeval) (end_ : option timeval) (now : timeval)
    (microsec_threshold : Z) : bool :=
  microsec_threshold <? time_passed start end_ now.

(** * Hardware addresses *)

(** [addr_mac_t]: six octets. *)
Definition addr_mac : Type := list Z.

Definition octet (mac : addr_mac) (i : nat) : Z := nth i mac 0.

Definition MAC_BROADCAST : addr_mac := [255; 255; 255; 255; 255; 255].
Definition MAC_ZERO : addr_mac := [0; 0; 0; 0; 0; 0].

Definition wf_mac (mac : addr_mac) : Prop := length mac = 6%nat ∧ bytes mac.

Fixpoint is_valid_mac_loop (n i : nat) (mac : addr_mac) : bool :=
  match n with
  | O => false
  | S n' => if octet mac i =? 0 then is_valid_mac_loop n' (S i) mac else true
  end.

Definition is_valid_mac (mac : addr_mac) : bool := is_valid_mac_loop 6 0 mac.

Definition make_mac_addr (byte5 byte4 byte3 byte2 byte1 byte0 : Z) : addr_mac :=
  [byte0; byte1; byte2; byte3; byte4; byte5].

Definition mac_hi (mac : addr_mac) : Z := u16 (Z.shiftl (octet mac 0) 8 + octet mac 1).

Definition mac_lo (mac : addr_mac) : Z :=
  u32 (Z.shiftl (octet mac 2) 24 + Z.shiftl (octet mac 3) 16 + Z.shiftl (octet mac 4) 8
       + octet mac 5).

Definition mac_set_hi (mac : addr_mac) (hi : Z) : addr_mac :=
  <[1%nat := u8 (Z.land hi 255)]> (<[0%nat := u8 (Z.shiftr hi 8)]> mac).

Definition mac_set_lo (mac : addr_mac) (lo : Z) : addr_mac :=
  <[5%nat := u8 (Z.land lo 255)]>
    (<[4%nat := u8 (Z.shiftr (Z.land lo 65280) 8)]>
      (<[3%nat := u8 (Z.shiftr (Z.land lo 16711680) 16)]>
        (<[2%nat := u8 (Z.shiftr lo 24)]> mac))).

Definition mac_is_zero (mac : addr_mac) : bool :=
  (le_combine (take 4 mac) =? 0) && (le_combine (take 2 (drop 4 mac)) =? 0).

(** * Printing *)

Definition STRLEN_IP : nat := 16.
Definition STRLEN_SUBNET : nat := 19.

(** [snprintf] into a buffer of [n] bytes keeps [n - 1] characters. *)
Definition snprintf (n : nat) (s : string) : string := String.substring 0 (n - 1) s.

Definition fmt_u (z : Z) : string := pretty (Z.to_N z).

Definition ip_octet (ip : Z) (i : nat) : Z := nth i (le_split 4 ip) 0.

Definition ip_to_string (ip : Z) : string :=
  snprintf STRLEN_IP
    (fmt_u (ip_octet ip 0) +:+ "." +:+ fmt_u (ip_octet ip 1) +:+ "." +:+
     fmt_u (ip_octet ip 2) +:+ "." +:+ fmt_u (ip_octet ip 3)).

Definition ones (x : Z) : Z :=
  let x := u32 (x - Z.land (Z.shiftr x 1) 0x55555555) in
  let x := u32 (Z.land (Z.shiftr x 2) 0x33333333 + Z.land x 0x33333333) in
  let x := Z.land (u32 (Z.shiftr x 4 + x)) 0x0f0f0f0f in
  let x := u32 (x + Z.shiftr x 8) in
  let x := u32 (x + Z.shiftr x 16) in
  Z.land x 0x3f.

Definition subnet_to_string (subnet mask : Z) : string :=
  let num_ones := ones mask in
  let b i := fmt_u (ip_octet subnet i) in
  if (num_ones =? 0) && (subnet =? 0) then snprintf STRLEN_SUBNET "<catch-all>"
  else if num_ones <=? 8 then
    snprintf STRLEN_SUBNET (b 0%nat +:+ "/" +:+ fmt_u num_ones)
  else if num_ones <=? 16 then
    snprintf STRLEN_SUBNET (b 0%nat +:+ "." +:+ b 1%nat +:+ "/" +:+ fmt_u num_ones)
  else if num_ones <=? 24 then
    snprintf STRLEN_SUBNET
      (b 0%nat +:+ "." +:+ b 1%nat +:+ "." +:+ b 2%nat +:+ "/" +:+ fmt_u num_ones)
  else
    snprintf STRLEN_SUBNET
      (b 0%nat +:+ "." +:+ b 1%nat +:+ "." +:+ b 2%nat +:+ "." +:+ b 3%nat +:+ "/"
       +:+ fmt_u num_ones).

(** * Checksum (globals.c) *)

(** [for (sum = 0; size > 0; size--) sum += ntohs( *data++ )]; [None] reads past
    the end of the allocation. *)
Fixpoint sum_words (n : nat) (data : list Z) (sum : Z) : option (Z * list Z) :=
  match n with
  | O => Some (sum, data)
  | S n' =>
      match data with
      | b0 :: b1 :: data' => sum_words n' data' (u32 (sum + ntohs (b0 + 256 * b1)))
      | _ => None
      end
  end.

Definition generatechecksum (buf : list Z) (len : Z) : option Z :=
  '(sum, data) ← sum_words (Z.to_nat (Z.quot len 2)) buf 0;
  sum ← (if Z.odd len then
           match data with
           | b :: _ => Some (u32 (sum + Z.shiftl b 8))
           | [] => None
           end
         else Some sum);
  let sum := u32 (Z.shiftr sum 16 + Z.land sum 0xffff) in
  let sum := u32 (sum + Z.shiftr sum 16) in
  Some (htons (u16 (Z.lnot sum))).

(** Pseudo header of a UDP datagram: [udp] and [ip] are the bytes from the UDP
    and the IP header on.  A length field below the header size makes the
    block smaller than the fields written into it, and one beyond the buffer
    reads past its end: [None]. *)
Definition malloc_udp_pseudo_header (udp ip : list Z) : option (list Z * Z) :=
  udp_length ← load 2 udp 4;
  src_ip ← get_bytes ip 12 4;
  dst_ip ← get_bytes ip 16 4;
  protocol ← get_bytes ip 9 1;
  ports ← get_bytes udp 0 4;
  udp_len_bytes ← get_bytes udp 4 2;
  csum ← get_bytes udp 6 2;
  let datasize := ntohs udp_length - 8 in
  if datasize <? 0 then None
  else
    data ← get_bytes udp 8 (Z.to_nat datasize);
    Some (src_ip ++ dst_ip ++ [0] ++ protocol ++ udp_len_bytes ++ ports ++ udp_len_bytes
            ++ csum ++ data, 20 + datasize).

(** * Theory of the checksum *)

Section checksum.

(** The sum of the big-endian 16-bit words, an odd last byte being the high
    half of a word. *)
Fixpoint word_sum (l : list Z) : Z :=
  match l with
  | b0 :: b1 :: l' => 256 * b0 + b1 + word_sum l'
  | [b] => 256 * b
  | [] => 0
  end.

(** The two folding steps of the code on a sum below [2^32]. *)
Definition fold16 (s : Z) : Z :=
  let s1 := s / 65536 + s mod 65536 in (s1 + s1 / 65536) mod 65536.

Lemma list_ind2 (P : list Z → Prop) :
  P [] → (∀ b, P [b]) → (∀ b0 b1 l, P l → P (b0 :: b1 :: l)) → ∀ l, P l.
Proof.
  intros H0 H1 H2. fix IH 1. intros [|b0 [|b1 l]]; [done|apply H1|]. apply H2, IH.
Qed.

Lemma word_sum_range l : bytes l → 0 <= word_sum l <= 65535 * ((Z.of_nat (length l) + 1) / 2).
Proof.
  induction l as [|b|b0 b1 l IH] using list_ind2; intros Hb; simpl length.
  - simpl. done.
  - inversion_clear Hb as [|? ? Hb0]. simpl. width_lia.
  - inversion_clear Hb as [|? ? Hb0 Hb']. inversion_clear Hb' as [|? ? Hb1 Hl].
    specialize (IH Hl). cbn [word_sum].
    replace ((Z.of_nat (S (S (length l))) + 1) / 2) with ((Z.of_nat (length l) + 1) / 2 + 1)
      by (rewrite <-Z.div_add by lia; f_equal; lia).
    unfold is_byte in *. lia.
Qed.

Lemma word_sum_app l1 l2 :
  Nat.even (length l1) = true → word_sum (l1 ++ l2) = word_sum l1 + word_sum l2.
Proof.
  induction l1 as [|b|b0 b1 l IH] using list_ind2; intros He; simpl in *; [done..|].
  rewrite IH by done. lia.
Qed.

Lemma ntohs_word b0 b1 : is_byte b0 → is_byte b1 → ntohs (b0 + 256 * b1) = 256 * b0 + b1.
Proof. width_lia. Qed.

Lemma sum_words_spec n data sum :
  bytes data → 0 <= sum → (2 * n <= length data)%nat →
  sum + word_sum (take (2 * n) data) < 4294967296 →
  sum_words n data sum = Some (sum + word_sum (take (2 * n) data), drop (2 * n) data).
Proof.
  revert data sum. induction n as [|n IH]; intros data sum Hb Hs Hlen Hov.
  { simpl. by rewrite Z.add_0_r. }
  destruct data as [|b0 [|b1 data]]; simpl in Hlen; [lia..|].
  replace (2 * S n)%nat with (S (S (2 * n))) in * by lia.
  inversion_clear Hb as [|? ? Hb0 Hb']. inversion_clear Hb' as [|? ? Hb1 Hl].
  pose proof (word_sum_range (take (2 * n) data) (Forall_take _ _ _ Hl)) as Hr.
  cbn [take word_sum drop] in *. cbn [sum_words]. rewrite ntohs_word by done.
  rewrite u32_small by (unfold is_u32, is_byte in *; lia).
  rewrite IH by (unfold is_byte in *; try done; lia). do 2 f_equal. lia.
Qed.

Lemma fold16_range s : 0 <= fold16 s < 65536.
Proof. unfold fold16. apply Z.mod_pos_bound. lia. Qed.

(** Folding keeps the residue modulo 65535 and never turns a non-zero sum
    into zero. *)
Lemma fold16_spec s :
  0 <= s < 4294967296 →
  (s = 0 ∧ fold16 s = 0) ∨ (∃ k, 0 < fold16 s ∧ s = fold16 s + 65535 * k ∧ 0 <= k).
Proof.
  intros Hs. unfold fold16. set (h := s / 65536). set (l := s mod 65536).
  assert (s = 65536 * h + l ∧ 0 <= l < 65536 ∧ 0 <= h < 65536) as (E & Hl & Hh).
  { subst h l. width_lia. }
  clearbody h l. destruct (Z.le_gt_cases 65536 (h + l)).
  - right. exists (h + 1).
    replace ((h + l) / 65536) with 1 by width_lia.
    replace ((h + l + 1) mod 65536) with (h + l + 1 - 65536) by width_lia. lia.
  - replace ((h + l) / 65536) with 0 by width_lia.
    rewrite Z.add_0_r, Z.mod_small by lia.
    destruct (Z.eq_dec s 0); [left|right; exists h]; lia.
Qed.

Lemma generatechecksum_sum buf len :
  bytes buf → 0 <= len <= 65536 → len <= Z.of_nat (length buf) →
  generatechecksum buf len =
    Some (swap16 (65535 - fold16 (word_sum (take (Z.to_nat len) buf)))).
Proof.
  intros Hb Hlen Hl. set (n := Z.to_nat (len / 2)).
  assert (Z.to_nat len = 2 * n + (if Z.odd len then 1 else 0))%nat as Hn.
  { subst n. pose proof (Zmod_odd len). destruct (Z.odd len); width_lia. }
  set (l := take (Z.to_nat len) buf).
  assert (bytes l) as Hbl by by apply Forall_take.
  assert (length l = Z.to_nat len) as Hll by (subst l; rewrite length_take; lia).
  pose proof (word_sum_range l Hbl) as Hr. rewrite Hll in Hr.
  assert (0 <= word_sum l < 4294967296) as Hr' by width_lia.
  unfold generatechecksum. rewrite Z.quot_div_nonneg by lia. fold n.
  assert (sum_words n buf 0 = Some (word_sum (take (2 * n) buf), drop (2 * n) buf)) as ->.
  { rewrite sum_words_spec; [done..| |].
    - lia.
    - pose proof (word_sum_range (take (2 * n) buf) (Forall_take _ _ _ Hb)) as Hr2.
      rewrite length_take in Hr2. destruct (Z.odd len); width_lia. }
  cbn [mbind option_bind].
  assert ((if Z.odd len then match drop (2 * n) buf with
            | b :: _ => Some (u32 (word_sum (take (2 * n) buf) + Z.shiftl b 8))
            | [] => None end else Some (word_sum (take (2 * n) buf))) = Some (word_sum l)) as ->.
  { subst l. destruct (Z.odd len); [|do 2 f_equal; f_equal; lia].
    destruct (drop (2 * n) buf) as [|b r] eqn:Hd.
    { apply (f_equal length) in Hd. rewrite length_drop in Hd. simpl in Hd. lia. }
    rewrite Hn, <-take_take_drop, Hd. cbn [take].
    rewrite word_sum_app.
    2: { rewrite length_take, Nat.min_l by lia. by rewrite Nat.even_even. }
    cbn [word_sum]. rewrite Z.shiftl_mul_pow2 by lia. change (2 ^ 8) with 256.
    f_equal. rewrite Z.mul_comm. apply u32_small. unfold is_u32. rewrite Hn, <-take_take_drop, Hd in Hr'.
    cbn [take] in Hr'. rewrite word_sum_app in Hr'.
    2: { rewrite length_take, Nat.min_l by lia. by rewrite Nat.even_even. }
    done. }
  cbn [mbind option_bind]. f_equal. unfold htons. f_equal.
  unfold fold16. set (s := word_sum l) in *.
  rewrite Z.shiftr_div_pow2 by lia. change (2 ^ 16) with 65536.
  replace (Z.land s 65535) with (s mod 65536) by (symmetry; apply (Z.land_ones s 16); lia).
  assert (is_u32 (s / 65536 + s mod 65536)) by width_lia.
  rewrite !(u32_small (s / 65536 + s mod 65536)) by done.
  set (s1 := s / 65536 + s mod 65536) in *.
  rewrite Z.shiftr_div_pow2 by lia. change (2 ^ 16) with 65536.
  assert (s1 < 131072) by (subst s1; width_lia).
  rewrite u32_small by width_lia. unfold Z.lnot. width_lia.
Qed.

(** Replacing the aligned word at [off]. *)
Lemma word_sum_put n buf off b0 b1 buf' x0 x1 :
  Nat.even off = true → (off + 2 <= n)%nat →
  put_bytes buf off [b0; b1] = Some buf' → get_bytes buf off 2 = Some [x0; x1] →
  word_sum (take n buf') = word_sum (take n buf) - (256 * x0 + x1) + (256 * b0 + b1).
Proof.
  intros He Hn Hput Hget. unfold put_bytes in Hput. case_decide as Hd; [|done].
  simpl in Hd. injection Hput as <-.
  unfold get_bytes in Hget. rewrite decide_True in Hget by lia. injection Hget as Hget.
  assert (length (take off buf) = off) as Hoff by (rewrite length_take; lia).
  assert (take n buf = take off buf ++ x0 :: x1 :: take (n - off - 2) (drop (off + 2) buf)) as ->.
  { change (x0 :: x1 :: ?r) with ([x0; x1] ++ r). rewrite <-Hget, <-drop_drop.
    rewrite take_take_drop, take_take_drop. f_equal. lia. }
  simpl length. rewrite take_app_ge, Hoff by lia.
  rewrite !word_sum_app by (rewrite Hoff; done).
  replace (n - off)%nat with (S (S (n - off - 2))) at 1 by lia. simpl. lia.
Qed.

Lemma generatechecksum_zero_iff buf len :
  bytes buf → 0 <= len <= 65536 → len <= Z.of_nat (length buf) →
  generatechecksum buf len = Some 0 ↔ fold16 (word_sum (take (Z.to_nat len) buf)) = 65535.
Proof.
  intros. rewrite generatechecksum_sum by done.
  pose proof (fold16_range (word_sum (take (Z.to_nat len) buf))).
  split; [intros [= E]; width_lia|]. intros ->. done.
Qed.

Lemma generatechecksum_range buf len c : generatechecksum buf len = Some c → is_u16 c.
Proof.
  unfold generatechecksum. destruct (sum_words _ _ _) as [[s d]|]; simpl; [|done].
  destruct (if Z.odd len then _ else _); simpl; [|done]. intros [= <-]. apply swap16_range.
Qed.

(** A zero word filled with the checksum of the whole makes the whole verify:
    the property every sender of the router relies on. *)
Lemma checksum_fill buf len off c buf' :
  bytes buf → 0 <= len <= 65536 → len <= Z.of_nat (length buf) →
  Nat.even off = true → Z.of_nat off + 2 <= len →
  load 2 buf off = Some 0 → generatechecksum buf len = Some c → store 2 buf off c = Some buf' →
  generatechecksum buf' len = Some 0.
Proof.
  intros Hb Hlen Hl He Ho Hz Hc Hs.
  apply generatechecksum_zero_iff; [by eapply store_bytes|done| |].
  { by erewrite store_length. }
  rewrite generatechecksum_sum in Hc by done. injection Hc as <-.
  unfold load in Hz. destruct (get_bytes buf off 2) as [xs|] eqn:Hg; [|done].
  assert (length xs = 2%nat) by (by eapply get_bytes_length).
  destruct xs as [|x0 [|x1 [|]]]; try done. cbn [le_combine fmap option_fmap option_map] in Hz. injection Hz as Hz.
  assert (bytes [x0; x1]) as Hx.
  { unfold get_bytes in Hg. case_decide; [|done]. injection Hg as <-.
    by apply Forall_take, Forall_drop. }
  inversion_clear Hx as [|? ? Hx0 Hx']. inversion_clear Hx' as [|? ? Hx1 _].
  set (S := word_sum (take (Z.to_nat len) buf)) in *.
  set (v := swap16 (65535 - fold16 S)) in *. unfold store in Hs. simpl le_split in Hs.
  rewrite (word_sum_put (Z.to_nat len) _ _ _ _ _ _ _ He ltac:(lia) Hs Hg).
  fold S. pose proof (fold16_range S) as Hf.
  assert (256 * (v mod 256) + (v / 256) mod 256 = 65535 - fold16 S) as -> by (subst v; width_lia).
  pose proof (word_sum_range (take (Z.to_nat len) buf) (Forall_take _ _ _ Hb)) as Hr.
  fold S in Hr. rewrite length_take in Hr.
  assert (0 <= S < 2147450881) as HS by width_lia.
  set (T := S - (256 * x0 + x1) + (65535 - fold16 S)).
  assert (T = S + (65535 - fold16 S)) by (unfold is_byte in *; lia).
  pose proof (fold16_range T).
  destruct (fold16_spec S) as [[? ?]|(k' & ? & ? & ?)]; [lia|..];
    (destruct (fold16_spec T) as [[? ?]|(k & ? & ? & ?)]; [lia|lia|lia]).
Qed.

(** Changing one aligned word of a verifying block is detected, unless the
    word changes between the two representations of zero. *)
Lemma checksum_detects buf len off w w' buf' :
  bytes buf → 0 <= len <= 65536 → len <= Z.of_nat (length buf) →
  Nat.even off = true → Z.of_nat off + 2 <= len →
  load 2 buf off = Some w → is_u16 w' → store 2 buf off w' = Some buf' →
  w ≠ w' → ¬ (w = 0 ∧ w' = 65535) → ¬ (w = 65535 ∧ w' = 0) →
  generatechecksum buf len = Some 0 → ¬ generatechecksum buf' len = Some 0.
Proof.
  intros Hb Hlen Hl He Ho Hw Hw' Hs Hne H1 H2 Hz Hz'.
  apply generatechecksum_zero_iff in Hz; [|done..].
  apply generatechecksum_zero_iff in Hz';
    [|by eapply store_bytes|done|by erewrite store_length].
  unfold load in Hw. destruct (get_bytes buf off 2) as [xs|] eqn:Hg; [|done].
  assert (length xs = 2%nat) by (by eapply get_bytes_length).
  destruct xs as [|x0 [|x1 [|]]]; try done. cbn [le_combine fmap option_fmap option_map] in Hw. injection Hw as Hw.
  assert (bytes [x0; x1]) as Hx.
  { unfold get_bytes in Hg. case_decide; [|done]. injection Hg as <-.
    by apply Forall_take, Forall_drop. }
  inversion_clear Hx as [|? ? Hx0 Hx']. inversion_clear Hx' as [|? ? Hx1 _].
  unfold store in Hs. simpl le_split in Hs.
  pose proof (word_sum_range (take (Z.to_nat len) buf')
    (Forall_take _ _ _ (store_bytes 2 _ _ _ _ Hs Hb))) as Hr'.
  rewrite (word_sum_put (Z.to_nat len) _ _ _ _ _ _ _ He ltac:(lia) Hs Hg) in Hz', Hr'.
  set (S := word_sum (take (Z.to_nat len) buf)) in *.
  pose proof (word_sum_range (take (Z.to_nat len) buf) (Forall_take _ _ _ Hb)) as Hr.
  fold S in Hr. rewrite length_take in Hr.
  set (n := 256 * (w' mod 256) + (w' / 256) mod 256) in *.
  assert (0 <= n < 65536 ∧ n ≠ 256 * x0 + x1 ∧ (n = 65535 → w' = 65535) ∧ (n = 0 → w' = 0))
    as (Hn & Hn1 & Hn2 & Hn3) by (subst n; width_lia).
  assert (0 <= S <= 65535 * 32768) by width_lia.
  set (T := S - (256 * x0 + x1) + n) in *.
  assert (0 <= T < 4294967296) by (unfold is_byte in *; lia).
  destruct (fold16_spec S) as [[? ?]|(k & _ & ? & _)]; [lia|lia|].
  destruct (fold16_spec T) as [[? ?]|(k' & _ & ? & _)]; [lia|lia|].
  unfold is_byte in *. assert (n - (256 * x0 + x1) = 65535 * (k' - k)) by lia.
  assert (k' - k = 1 ∨ k' - k = -1) by lia. lia.
Qed.

End checksum.

(** * Properties *)

(** a checksum field filled by [generatechecksum] verifies.  When the
    16-bit field at an even offset inside the summed range is zero and is then
    overwritten by the checksum of the range (of even or odd length up to 64
    KiB), the checksum of the result is zero, which is the test of every
    receiver in the code. *)
Theorem generatechecksum_fill_verifies buf len off c buf' :
  bytes buf → 0 <= len <= 65536 → len <= Z.of_nat (length buf) →
  Nat.even off = true → Z.of_nat off + 2 <= len →
  load 2 buf off = Some 0 → generatechecksum buf len = Some c → store 2 buf off c = Some buf' →
  generatechecksum buf' len = Some 0.
Proof. apply checksum_fill. Qed.

Lemma generatechecksum_fill_verifies_witness :
  generatechecksum [69; 0; 0; 84; 0; 0; 169; 171; 17] 9 = Some 0.
Proof.
  apply (generatechecksum_fill_verifies [69; 0; 0; 84; 0; 0; 0; 0; 17] 9 6 43945).
  - repeat constructor; done.
  - lia.
  - done.
  - done.
  - done.
  - done.
  - reflexivity.
  - reflexivity.
Defined.

(** a receiver notices the change of any one 16-bit word of a range that
    verified, save for the two encodings of zero in one's complement (0 for
    65535 and back). *)
Theorem generatechecksum_detects_change buf len off w w' buf' :
  bytes buf → 0 <= len <= 65536 → len <= Z.of_nat (length buf) →
  Nat.even off = true → Z.of_nat off + 2 <= len →
  load 2 buf off = Some w → is_u16 w' → store 2 buf off w' = Some buf' →
  w ≠ w' → ¬ (w = 0 ∧ w' = 65535) → ¬ (w = 65535 ∧ w' = 0) →
  generatechecksum buf len = Some 0 → ¬ generatechecksum buf' len = Some 0.
Proof. apply checksum_detects. Qed.

Lemma generatechecksum_detects_change_witness :
  ¬ generatechecksum [69; 0; 1; 84; 0; 0; 169; 171; 17] 9 = Some 0.
Proof.
  apply (generatechecksum_detects_change [69; 0; 0; 84; 0; 0; 169; 171; 17] 9 2 21504 21505).
  - repeat constructor; done.
  - lia.
  - done.
  - done.
  - done.
  - reflexivity.
  - done.
  - reflexivity.
  - done.
  - lia.
  - lia.
  - reflexivity.
Defined.

(** the two halves in which a hardware address is written to the registers
    carry it completely: reading them with [mac_hi] and [mac_lo] and writing
    them into any other address with [mac_set_hi] and [mac_set_lo] gives the
    address back. *)
Theorem mac_halves_roundtrip mac other :
  wf_mac mac → wf_mac other →
  mac_set_lo (mac_set_hi other (mac_hi mac)) (mac_lo mac) = mac.
Proof.
  intros [Hl Hb] [Hlo _].
  destruct mac as [|a0 [|a1 [|a2 [|a3 [|a4 [|a5 [|]]]]]]]; try done.
  destruct other as [|b0 [|b1 [|b2 [|b3 [|b4 [|b5 [|]]]]]]]; try done.
  unfold bytes in Hb. rewrite !Forall_cons in Hb. destruct Hb as (H0 & H1 & H2 & H3 & H4 & H5 & _).
  unfold is_byte in *. unfold mac_set_lo, mac_set_hi, mac_hi, mac_lo, octet. cbn [nth].
  rewrite !Z.shiftr_land. change (Z.shiftr 65280 8) with (Z.ones 8).
  change (Z.shiftr 16711680 16) with (Z.ones 8). change 255 with (Z.ones 8).
  rewrite !Z.land_ones, !Z.shiftr_div_pow2, !Z.shiftl_mul_pow2 by lia. cbn [list_insert insert].
  repeat f_equal; width_lia.
Qed.

Lemma mac_halves_roundtrip_witness :
  mac_set_lo (mac_set_hi MAC_ZERO (mac_hi [2; 0; 94; 16; 32; 255])) (mac_lo [2; 0; 94; 16; 32; 255])
  = [2; 0; 94; 16; 32; 255].
Proof.
  apply (mac_halves_roundtrip [2; 0; 94; 16; 32; 255] MAC_ZERO);
    split; [done|repeat constructor; done|done|repeat constructor; done].
Defined.
