(* ===== verification/Packets.v ===== *)
(** Packet layouts and table entries (packets.h, arp.h, ip.h, icmp_type.h,
    pwospf.h, dns.h).

    A packed struct that is overlaid on a packet buffer is a layout: the list of
    its fields with their sizes in bytes, in declaration order; offsets and
    [sizeof] are computed from it.  A struct kept in a [dataqueue_t] is a
    record.  Addresses keep the byte order they have in memory: an [addr_ip_t]
    read from a packet is the little-endian value of its four bytes. *)

From stdpp Require Import base tactics list numbers strings.
From Stdlib Require Import ZArith Lia.
From S2P Require Import Prelude Dataqueue Common.

Local Open Scope Z_scope.

(** * Layouts *)

Definition layout : Type := list (string * nat).

Fixpoint sizeof (l : layout) : nat :=
  match l with
  | [] => 0
  | (_, n) :: l' => n + sizeof l'
  end.

Fixpoint foff (l : layout) (f : string) : nat :=
  match l with
  | [] => 0
  | (g, n) :: l' => if String.eqb f g then 0 else n + foff l' f
  end.

Fixpoint flen (l : layout) (f : string) : nat :=
  match l with
  | [] => 0
  | (g, n) :: l' => if String.eqb f g then n else flen l' f
  end.

(** Field [f] of the struct of layout [l] overlaid at [base]. *)
Definition getf (l : layout) (f : string) (buf : list Z) (base : nat) : option Z :=
  load (flen l f) buf (base + foff l f).

Definition setf (l : layout) (f : string) (buf : list Z) (base : nat) (v : Z) : option (list Z) :=
  store (flen l f) buf (base + foff l f) v.

(** Fields that are byte arrays (hardware addresses, data). *)
Definition getb (l : layout) (f : string) (buf : list Z) (base : nat) : option (list Z) :=
  get_bytes buf (base + foff l f) (flen l f).

Definition setb (l : layout) (f : string) (buf : list Z) (base : nat) (v : list Z)
  : option (list Z) :=
  put_bytes buf (base + foff l f) v.

Definition packet_ethernet_t : layout :=
  [("dest_mac", 6%nat); ("source_mac", 6%nat); ("type", 2%nat)].

Definition packet_arp_t : layout :=
  [("hardwaretype", 2%nat); ("protocoltype", 2%nat); ("hardwareaddresslength", 1%nat);
   ("protocoladdresslength", 1%nat); ("opcode", 2%nat); ("sender_mac", 6%nat);
   ("sender_ip", 4%nat); ("target_mac", 6%nat); ("target_ip", 4%nat)].

Definition packet_icmp_t : layout :=
  [("type", 1%nat); ("code", 1%nat); ("header_checksum", 2%nat); ("id", 2%nat);
   ("seq_num", 2%nat); ("data", 56%nat)].

Definition packet_udp_t : layout :=
  [("source_port", 2%nat); ("destination_port", 2%nat); ("length", 2%nat); ("checksum", 2%nat)].

(** The flag bit fields are the two bytes [flags1] (RD, TC, AA, Opcode, QR from
    the low bit) and [flags2] (Rcode, CD, AD, Z, RA). *)
Definition packet_dns_t : layout :=
  [("id", 2%nat); ("flags1", 1%nat); ("flags2", 1%nat); ("totalquestions", 2%nat);
   ("totalanswerrrs", 2%nat); ("totalauthorityrrs", 2%nat); ("totaladditionalrrs", 2%nat)].

(** [ihl] is the low and [version] the high half of the first byte. *)
Definition packet_ip4_t : layout :=
  [("ihl_version", 1%nat); ("dscp_ecn", 1%nat); ("total_length", 2%nat); ("id", 2%nat);
   ("flags_fragmentoffset", 2%nat); ("ttl", 1%nat); ("protocol", 1%nat);
   ("header_checksum", 2%nat); ("src_ip", 4%nat); ("dst_ip", 4%nat)].

Definition pwospf_packet_t : layout :=
  [("version", 1%nat); ("type", 1%nat); ("len", 2%nat); ("router_id", 4%nat);
   ("area_id", 4%nat); ("checksum", 2%nat); ("autotype", 2%nat); ("auth_type", 4%nat);
   ("auth_data", 4%nat)].

Definition pwospf_packet_hello_t : layout :=
  pwospf_packet_t ++ [("netmask", 4%nat); ("helloint", 2%nat); ("padding", 2%nat)].

Definition pwospf_packet_link_t : layout :=
  pwospf_packet_t ++ [("seq", 2%nat); ("ttl", 2%nat); ("advert", 4%nat)].

Definition pwospf_lsa_layout : layout :=
  [("subnet", 4%nat); ("netmask", 4%nat); ("router_id", 4%nat)].

(** [PACKET_CAN_MARSHALL]: the subtraction is on [size_t]. *)
Definition PACKET_CAN_MARSHALL (l : layout) (offset len : Z) : bool :=
  Z.of_nat (sizeof l) <=? u64 (len - offset).

(** * Constants *)

Definition ETH_IP_TYPE : Z := 0x0800.
Definition ETH_ARP_TYPE : Z := 0x0806.
Definition ETH_RARP_TYPE : Z := 0x8035.

Definition ARP_OP_REPLY : Z := 2.
Definition ARP_HTYPE_ETH : Z := 1.
Definition ARP_PTYPE_IP : Z := 0x0800.
Definition ARP_OPCODE_REQUEST : Z := 1.
Definition ARP_OPCODE_REPLAY : Z := 2.
Definition ARP_CACHE_TIMEOUT_REQUEST : Z := 120.
Definition ARP_CACHE_TIMEOUT_BROADCAST : Z := 60.
Definition ARP_CACHE_TIMEOUT_STATIC : Z := -1.
Definition ARPIP_QUEUE_TIMEOUT : Z := 2.
Definition ARPIP_QUEUE_MAXARPREQUESTS : Z := 3.
Definition ARP_THRESHOLD : Z := 32.

Definition IP_TYPE_ICMP : Z := 1.
Definition IP_TYPE_TCP : Z := 6.
Definition IP_TYPE_UDP : Z := 17.
Definition IP_TYPE_OSPF : Z := 89.
Definition PORT_DNS : Z := 53.

Definition IP_CONVERT (a b c d : Z) : Z :=
  u32 (Z.lor (Z.lor (Z.lor a (Z.shiftl b 8)) (Z.shiftl c 16)) (Z.shiftl d 24)).

Definition ICMP_TYPE_REPLAY : Z := 0.
Definition ICMP_TYPE_DST_UNREACH : Z := 3.
Definition ICMP_TYPE_REQUEST : Z := 8.
Definition ICMP_TYPE_TIME_EXCEEDED : Z := 11.
Definition ICMP_CODE_HOST_UNREACH : Z := 1.
Definition ICMP_CODE_PROT_UNREACH : Z := 2.
Definition ICMP_CODE_PORT_UNREACH : Z := 3.

Definition ALLSPFRouters : Z := 0x50000e0.
Definition OSPF_VERSION : Z := 2.
Definition OSPF_TYPE_HELLO : Z := 1.
Definition OSPF_TYPE_LINK : Z := 4.

Definition ROUTER_MAX_INTERFACES : nat := 4.
Definition LSUINT : Z := 30.
Definition LSUINT_TIMEOUT : Z := 3 * LSUINT.
Definition HELLOINT : Z := 5.

(** * Table entries *)

Record arp_cache_entry := ArpEntry {
  arp_ip : Z;
  arp_mac : addr_mac;
  arp_tv : timeval
}.

(** [rt_interface] is the index of the interface; [rt_pad] stands for the
    padding bytes of the struct, which [memcmp] compares as well. *)
Record rtable_entry := RtEntry {
  router_ip : Z;
  subnet : Z;
  netmask : Z;
  rt_interface : nat;
  metric : Z;
  dynamic : bool;
  rt_pad : Z
}.

Record pwospf_router := PwospfRouter {
  pw_router_id : Z;
  pw_area_id : Z;
  pw_lsuint : Z
}.

Record pwospf_lsa := Lsa {
  lsa_subnet : Z;
  lsa_netmask : Z;
  lsa_router_id : Z
}.

Record pwospf_lsa_dj := LsaDj {
  dj_lsa : pwospf_lsa;
  dj_router_ip : Z
}.

(** A [pwospf_lsa_t *]: null, a live array, or an array already freed. *)
Inductive lsa_array :=
  | LsaNull
  | LsaArray (l : list pwospf_lsa)
  | LsaFreed.

Record pwospf_list_entry := ListEntry {
  neighbour_id : Z;
  neighbour_ip : Z;
  le_helloint : Z;
  le_timestamp : timeval;
  immediate_neighbour : Z;
  lsu_lastseq : Z;
  lsu_lastcontents : lsa_array;
  lsu_lastcontents_count : Z;
  lsu_timestamp : timeval
}.

Record d_link := DLink {
  dl_subnet : Z;
  dl_netmask : Z
}.

(** A packet together with its length and the interface it is bound to (an
    index, [None] for a null pointer); the router is unique. *)
Record packet_info := PacketInfo {
  pi_packet : list Z;
  pi_len : Z;
  pi_interface : option nat
}.

(** The block [packet_info] of the source holds a [packet_info_t] followed by a
    copy of the packet. *)
Record iparp_buffer_entry := IparpEntry {
  ib_pi : packet_info;
  reception_time : timeval;
  sent_arps_count : Z;
  ib_len : Z;
  ib_intf : option nat;
  ib_dest : Z
}.

#[global] Instance arp_cache_entry_eq_dec : EqDecision arp_cache_entry.
Proof. solve_decision. Defined.
#[global] Instance rtable_entry_eq_dec : EqDecision rtable_entry.
Proof. solve_decision. Defined.
#[global] Instance pwospf_lsa_eq_dec : EqDecision pwospf_lsa.
Proof. solve_decision. Defined.
#[global] Instance pwospf_lsa_dj_eq_dec : EqDecision pwospf_lsa_dj.
Proof. solve_decision. Defined.
#[global] Instance lsa_array_eq_dec : EqDecision lsa_array.
Proof. solve_decision. Defined.
#[global] Instance d_link_eq_dec : EqDecision d_link.
Proof. solve_decision. Defined.
#[global] Instance packet_info_eq_dec : EqDecision packet_info.
Proof. solve_decision. Defined.
#[global] Instance iparp_buffer_entry_eq_dec : EqDecision iparp_buffer_entry.
Proof. solve_decision. Defined.

(** [memcmp] on the packed structs is equality of their fields; on
    [rtable_entry_t] it also sees the padding. *)
#[global] Instance lsa_memcmp : Memcmp pwospf_lsa := λ a b, bool_decide (a = b).
#[global] Instance lsa_dj_memcmp : Memcmp pwospf_lsa_dj := λ a b, bool_decide (a = b).
#[global] Instance d_link_memcmp : Memcmp d_link := λ a b, bool_decide (a = b).
#[global] Instance rtable_memcmp : Memcmp rtable_entry := λ a b, bool_decide (a = b).

(** [sizeof] of the structs kept in queues (x86-64). *)
Definition sizeof_arp_cache_entry : Z := 32.
Definition sizeof_rtable_entry : Z := 32.
Definition sizeof_pwospf_lsa : Z := 12.
Definition sizeof_pwospf_lsa_dj : Z := 16.
Definition sizeof_pwospf_list_entry : Z := 72.
Definition sizeof_d_link : Z := 8.
Definition sizeof_iparp_buffer_entry : Z := 48.
Definition sizeof_packet_info : Z := 32.

(** Compute the layout constants of the goal and the hypotheses. *)
Ltac layout_simpl :=
  repeat match goal with
  | |- context [sizeof ?l] =>
      let v := eval vm_compute in (sizeof l) in change (sizeof l) with v
  | |- context [foff ?l ?f] =>
      let v := eval vm_compute in (foff l f) in change (foff l f) with v
  | |- context [flen ?l ?f] =>
      let v := eval vm_compute in (flen l f) in change (flen l f) with v
  | H : context [sizeof ?l] |- _ =>
      let v := eval vm_compute in (sizeof l) in change (sizeof l) with v in H
  | H : context [foff ?l ?f] |- _ =>
      let v := eval vm_compute in (foff l f) in change (foff l f) with v in H
  | H : context [flen ?l ?f] |- _ =>
      let v := eval vm_compute in (flen l f) in change (flen l f) with v in H
  end.

Example sizeof_headers :
  (sizeof packet_ethernet_t, sizeof packet_arp_t, sizeof packet_ip4_t, sizeof packet_icmp_t,
   sizeof packet_udp_t, sizeof packet_dns_t, sizeof pwospf_packet_t,
   sizeof pwospf_packet_hello_t, sizeof pwospf_packet_link_t)
  = (14, 28, 20, 64, 8, 12, 24, 32, 32)%nat.
Proof. reflexivity. Qed.

(** * Reading back what was written *)

Definition disjoint (o1 n1 o2 n2 : nat) : bool := (o1 + n1 <=? o2)%nat || (o2 + n2 <=? o1)%nat.

Lemma disjoint_true o1 n1 o2 n2 :
  disjoint o1 n1 o2 n2 = true → (o1 + n1 <= o2 ∨ o2 + n2 <= o1)%nat.
Proof. unfold disjoint. rewrite orb_true_iff, !Nat.leb_le. done. Qed.

Lemma setf_ok l f p b v :
  (b + foff l f + flen l f <= length p)%nat →
  ∃ p', setf l f p b v = Some p' ∧ length p' = length p.
Proof.
  intros H. unfold setf, store.
  destruct (proj2 (put_bytes_is_Some p (b + foff l f) (le_split (flen l f) v))) as [p' Hp'].
  { rewrite length_le_split. lia. }
  exists p'. split; [done|]. by eapply put_bytes_length.
Qed.

Lemma getf_ok l f p b :
  (b + foff l f + flen l f <= length p)%nat → ∃ v, getf l f p b = Some v.
Proof. intros H. unfold getf, load. rewrite get_bytes_Some by lia. eauto. Qed.

Lemma setb_ok l f p b v :
  (b + foff l f + length v <= length p)%nat →
  ∃ p', setb l f p b v = Some p' ∧ length p' = length p.
Proof.
  intros H. unfold setb. destruct (proj2 (put_bytes_is_Some p (b + foff l f) v)) as [p' Hp']; [lia|].
  exists p'. split; [done|]. by eapply put_bytes_length.
Qed.

Lemma getf_setf_same l f p b v p' :
  setf l f p b v = Some p' → 0 <= v < 256 ^ Z.of_nat (flen l f) → getf l f p' b = Some v.
Proof.
  intros Hs Hv. unfold getf, setf in *. rewrite (load_store_same _ _ _ _ _ Hs).
  by rewrite Z.mod_small.
Qed.

Lemma put_bytes_get_other buf off data buf' off' n :
  put_bytes buf off data = Some buf' → disjoint off (length data) off' n = true →
  get_bytes buf' off' n = get_bytes buf off' n.
Proof. intros Hp Hd%disjoint_true. eapply get_put_other; [done|lia]. Qed.

Lemma getf_setf_other l f l' g p b b' v p' :
  setf l' g p b' v = Some p' →
  disjoint (b' + foff l' g) (flen l' g) (b + foff l f) (flen l f) = true →
  getf l f p' b = getf l f p b.
Proof.
  intros Hs Hd. unfold getf, load. f_equal. eapply put_bytes_get_other; [exact Hs|].
  by rewrite length_le_split.
Qed.

Lemma setf_length l f p b v p' : setf l f p b v = Some p' → length p' = length p.
Proof. apply store_length. Qed.

Lemma setf_bytes l f p b v p' : setf l f p b v = Some p' → bytes p → bytes p'.
Proof. apply store_bytes. Qed.

Lemma put_bytes_take buf off data buf' n :
  put_bytes buf off data = Some buf' → (n <= off)%nat → take n buf' = take n buf.
Proof.
  unfold put_bytes. case_decide; [|done]. intros [= <-] Hn.
  rewrite take_app_le by (rewrite length_take; lia). rewrite take_take. f_equal. lia.
Qed.

Lemma put_bytes_drop buf off data buf' n :
  put_bytes buf off data = Some buf' → (off + length data <= n)%nat → drop n buf' = drop n buf.
Proof.
  unfold put_bytes. case_decide; [|done]. intros [= <-] Hn.
  rewrite app_assoc, drop_app_ge by (rewrite length_app, length_take; lia).
  rewrite drop_drop, length_app, length_take. f_equal. lia.
Qed.

Lemma setf_take l f p b v p' n :
  setf l f p b v = Some p' → (n <= b)%nat → take n p' = take n p.
Proof. intros Hs Hn. eapply put_bytes_take; [exact Hs|lia]. Qed.

Lemma setf_drop l f p b v p' n :
  setf l f p b v = Some p' → (b + foff l f + flen l f <= n)%nat → drop n p' = drop n p.
Proof. intros Hs Hn. eapply put_bytes_drop; [exact Hs|]. by rewrite length_le_split. Qed.

(** Close a goal [getf l f p b = Some v] from the writes in the context that
    lead to [p]. *)
Ltac read_back :=
  repeat match goal with
  | |- getf ?l ?f ?p ?b = Some _ =>
      match goal with
      | H : setf ?l ?f ?q ?b ?v = Some p |- _ => refine (getf_setf_same _ _ _ _ _ _ H _)
      | H : setf _ _ ?q _ _ = Some p |- _ =>
          rewrite (getf_setf_other l f _ _ _ b _ _ _ H) by reflexivity
      end
  end.

Lemma getf_range l f p b v :
  bytes p → getf l f p b = Some v → 0 <= v < 256 ^ Z.of_nat (flen l f).
Proof.
  intros Hb. unfold getf, load. destruct (get_bytes _ _ _) as [x|] eqn:E; [|done].
  intros [= <-]. rewrite <-(get_bytes_length _ _ _ _ E). apply le_combine_range.
  unfold get_bytes in E. case_decide; [|done]. injection E as <-. by apply Forall_take, Forall_drop.
Qed.

(** Take the next write of an option chain: its result gets a name, an
    equation and a length. *)
Ltac write_step :=
  match goal with
  | |- context [setf ?l ?f ?p ?b ?v ≫= _] =>
      let p' := fresh "p" in let E := fresh "Ew" in let L := fresh "Lw" in
      destruct (setf_ok l f p b v) as (p' & E & L);
      [repeat match goal with H : length _ = length _ |- _ => rewrite H end; cbn; lia
      |rewrite E; cbn [mbind option_bind]]
  end.
