(* ===== verification/State.v ===== *)
(** The state of the running router (sr_router.h, sr_interface.h, dns.h, and the
    globals of ip.c, pwospf.c, cli_ping.c) and the monad its code runs in.

    A handler is a function from a [world] to an [outcome]: a result with the
    next world, or a [fault] that ends the process (a call to [die], a failed
    assertion, a null dereference, an access outside a buffer or to freed memory).  Frames given
    to the link layer are appended to [w_out], datagrams given to the TCP stack
    to [w_transport].

    Three things the source does not determine are components of the world:
    [w_clock] gives the result of each successive [gettimeofday], [w_junk] the
    bytes of memory that is read before it is written, [w_tx_result] the
    result of a link-layer write. *)

From stdpp Require Import base tactics list numbers strings.
From Stdlib Require Import ZArith Lia.
From S2P Require Import Prelude Dataqueue Common Packets.

Local Open Scope Z_scope.

Record interface := Interface {
  if_name : string;
  if_mac : addr_mac;
  if_ip : Z;
  if_enabled : bool;
  if_subnet_mask : Z;
  if_helloint : Z;
  if_neighbours : dataqueue pwospf_list_entry
}.

Definition set_if_neighbours (v : dataqueue pwospf_list_entry) (r : interface) : interface :=
  Interface (if_name r) (if_mac r) (if_ip r) (if_enabled r) (if_subnet_mask r) (if_helloint r) v.

(** A label of a domain name is a C string: the list of its bytes. *)
Record dns_db_entry := DnsEntry {
  db_names : list (list Z);
  db_count : Z;
  db_type : Z;
  db_class : Z;
  db_rdata : Z
}.

#[global] Instance dns_db_entry_eq_dec : EqDecision dns_db_entry.
Proof. solve_decision. Defined.

Definition sizeof_dns_db_entry : Z := 24.

Record router := Router {
  interfaces : list interface;
  arp_cache : dataqueue arp_cache_entry;
  ip_table : dataqueue rtable_entry;
  iparp_buffer : dataqueue iparp_buffer_entry;
  dns_db : dataqueue dns_db_entry;
  last_lsu : timeval;
  pw_router : pwospf_router;
  use_ospf : bool;
  is_router_running : bool
}.

Definition set_interfaces (v : list interface) (r : router) : router :=
    Router v (arp_cache r) (ip_table r) (iparp_buffer r) (dns_db r) (last_lsu r) (pw_router r)
    (use_ospf r) (is_router_running r).
Definition set_arp_cache (v : dataqueue arp_cache_entry) (r : router) : router :=
    Router (interfaces r) v (ip_table r) (iparp_buffer r) (dns_db r) (last_lsu r) (pw_router r)
    (use_ospf r) (is_router_running r).
Definition set_ip_table (v : dataqueue rtable_entry) (r : router) : router :=
    Router (interfaces r) (arp_cache r) v (iparp_buffer r) (dns_db r) (last_lsu r) (pw_router r)
    (use_ospf r) (is_router_running r).
Definition set_iparp_buffer (v : dataqueue iparp_buffer_entry) (r : router) : router :=
    Router (interfaces r) (arp_cache r) (ip_table r) v (dns_db r) (last_lsu r) (pw_router r)
    (use_ospf r) (is_router_running r).
Definition set_dns_db (v : dataqueue dns_db_entry) (r : router) : router :=
    Router (interfaces r) (arp_cache r) (ip_table r) (iparp_buffer r) v (last_lsu r) (pw_router
    r) (use_ospf r) (is_router_running r).
Definition set_last_lsu (v : timeval) (r : router) : router :=
    Router (interfaces r) (arp_cache r) (ip_table r) (iparp_buffer r) (dns_db r) v (pw_router r)
    (use_ospf r) (is_router_running r).
Definition set_pw_router (v : pwospf_router) (r : router) : router :=
    Router (interfaces r) (arp_cache r) (ip_table r) (iparp_buffer r) (dns_db r) (last_lsu r) v
    (use_ospf r) (is_router_running r).

(** An outstanding echo request of the CLI. *)
Record ping := Ping {
  ping_fd : Z;
  ping_dst_ip : Z;
  ping_seq : Z;
  send_time : timeval;
  expire_time : timeval
}.

#[global] Instance ping_eq_dec : EqDecision ping.
Proof. solve_decision. Defined.

(** What a client of the CLI is told about a ping. *)
Inductive ping_event :=
  | PingReply (p : ping)
  | PingTimeout (p : ping)
  | PingNoRoute (fd ip : Z).

Record cli := Cli {
  ping_list : list ping;
  ping_count : Z;
  router_shutdown : bool;
  feedback : list ping_event
}.

Definition set_ping_list (v : list ping) (r : cli) : cli :=
  Cli v (ping_count r) (router_shutdown r) (feedback r).
Definition set_ping_count (v : Z) (r : cli) : cli :=
  Cli (ping_list r) v (router_shutdown r) (feedback r).
Definition set_router_shutdown (v : bool) (r : cli) : cli :=
  Cli (ping_list r) (ping_count r) v (feedback r).
Definition set_feedback (v : list ping_event) (r : cli) : cli :=
  Cli (ping_list r) (ping_count r) (router_shutdown r) v.

(** A frame written to an interface. *)
Record frame := Frame {
  fr_interface : nat;
  fr_bytes : list Z
}.

#[global] Instance frame_eq_dec : EqDecision frame.
Proof. solve_decision. Defined.

Record world := World {
  w_router : router;
  w_ip_id : Z;
  w_hid : Z;
  w_cli : cli;
  w_out : list frame;
  w_transport : list (list Z);
  w_clock : nat → timeval;
  w_ticks : nat;
  w_junk : nat → Z;
  w_tx_result : Z
}.

Definition set_w_router (v : router) (r : world) : world :=
    World v (w_ip_id r) (w_hid r) (w_cli r) (w_out r) (w_transport r) (w_clock r) (w_ticks r)
    (w_junk r) (w_tx_result r).
Definition set_w_ip_id (v : Z) (r : world) : world :=
    World (w_router r) v (w_hid r) (w_cli r) (w_out r) (w_transport r) (w_clock r) (w_ticks r)
    (w_junk r) (w_tx_result r).
Definition set_w_hid (v : Z) (r : world) : world :=
    World (w_router r) (w_ip_id r) v (w_cli r) (w_out r) (w_transport r) (w_clock r) (w_ticks r)
    (w_junk r) (w_tx_result r).
Definition set_w_cli (v : cli) (r : world) : world :=
    World (w_router r) (w_ip_id r) (w_hid r) v (w_out r) (w_transport r) (w_clock r) (w_ticks r)
    (w_junk r) (w_tx_result r).
Definition set_w_out (v : list frame) (r : world) : world :=
    World (w_router r) (w_ip_id r) (w_hid r) (w_cli r) v (w_transport r) (w_clock r) (w_ticks r)
    (w_junk r) (w_tx_result r).
Definition set_w_transport (v : list (list Z)) (r : world) : world :=
    World (w_router r) (w_ip_id r) (w_hid r) (w_cli r) (w_out r) v (w_clock r) (w_ticks r)
    (w_junk r) (w_tx_result r).
Definition set_w_ticks (v : nat) (r : world) : world :=
    World (w_router r) (w_ip_id r) (w_hid r) (w_cli r) (w_out r) (w_transport r) (w_clock r) v
    (w_junk r) (w_tx_result r).

(** * The monad *)

Inductive fault :=
  | Die
  | AssertFailed
  | NullDeref
  | OutOfBounds
  | UseAfterFree
  | BadFree
  | OutOfFuel.

#[global] Instance fault_eq_dec : EqDecision fault.
Proof. solve_decision. Defined.

Inductive outcome (A : Type) :=
  | Ok (a : A) (w : world)
  | Fault (f : fault).
Arguments Ok {A} a w.
Arguments Fault {A} f.

Definition M (A : Type) : Type := world → outcome A.

#[global] Instance M_ret : MRet M := λ A a w, Ok a w.
#[global] Instance M_bind : MBind M := λ A B f m w,
  match m w with
  | Ok a w' => f a w'
  | Fault e => Fault e
  end.

Definition throw {A} (f : fault) : M A := λ w, Fault f.

Definition from_option_M {A} (f : fault) (o : option A) : M A :=
  match o with
  | Some a => mret a
  | None => throw f
  end.

(** Reads and writes of buffers. *)
Definition in_bounds {A} (o : option A) : M A := from_option_M OutOfBounds o.

Definition assert_M (b : bool) : M unit := if b then mret tt else throw AssertFailed.

Definition get_router : M router := λ w, Ok (w_router w) w.

Definition modify_router (f : router → router) : M unit :=
  λ w, Ok tt (set_w_router (f (w_router w)) w).

Definition get_world : M world := λ w, Ok w w.

Definition put_world (w' : world) : M unit := λ _, Ok tt w'.

Definition gettimeofday : M timeval :=
  λ w, Ok (w_clock w (w_ticks w)) (set_w_ticks (S (w_ticks w)) w).

(** [n] bytes that were never written. *)
Definition junk_bytes (w : world) (n : nat) : list Z :=
  map (λ k, u8 (w_junk w k)) (seq 0 n).

Definition junk (n : nat) : M (list Z) := λ w, Ok (junk_bytes w n) w.

Definition junk32 : M Z := λ w, Ok (u32 (w_junk w 0)) w.

(** [&router->interface[i]]. *)
Definition get_interface (i : nat) : M interface :=
  r ← get_router; from_option_M NullDeref (interfaces r !! i).

(** Dereference of an [interface_t *]. *)
Definition deref_interface (oi : option nat) : M interface :=
  i ← from_option_M NullDeref oi; get_interface i.

(** [router->interface[i].ip]: a slot that was never filled (or lies past the
    array) holds an unspecified value. *)
Definition interface_slot_ip (i : nat) : M Z :=
  r ← get_router;
  match interfaces r !! i with
  | Some intf => mret (if_ip intf)
  | None => junk32
  end.

(** Replace the neighbour queue of interface [i]. *)
Definition put_neighbours (i : nat) (q : dataqueue pwospf_list_entry) (r : router) : router :=
  set_interfaces (alter (set_if_neighbours q) i (interfaces r)) r.

(** * Laws *)

Lemma bind_ok {A B} (m : M A) (f : A → M B) w a w' :
  m w = Ok a w' → (m ≫= f) w = f a w'.
Proof. intros H. unfold mbind, M_bind. by rewrite H. Qed.

Lemma bind_fault {A B} (m : M A) (f : A → M B) w e :
  m w = Fault e → (m ≫= f) w = Fault e.
Proof. intros H. unfold mbind, M_bind. by rewrite H. Qed.

Lemma bind_Ok_inv {A B} (m : M A) (f : A → M B) w b w' :
  (m ≫= f) w = Ok b w' → ∃ a w1, m w = Ok a w1 ∧ f a w1 = Ok b w'.
Proof. unfold mbind, M_bind. destruct (m w) eqn:E; [eauto|done]. Qed.

Lemma from_option_Ok {A} e (o : option A) w a w' :
  from_option_M e o w = Ok a w' ↔ o = Some a ∧ w' = w.
Proof.
  destruct o; simpl; unfold mret, M_ret, throw; (split; [by intros [= <- <-]|by intros [[= <-] ->]]).
Qed.

Lemma bind_in_bounds {A B} (o : option A) (f : A → M B) w a :
  o = Some a → (in_bounds o ≫= f) w = f a w.
Proof. by intros ->. Qed.

Lemma bind_from_option {A B} e (o : option A) (f : A → M B) w a :
  o = Some a → (from_option_M e o ≫= f) w = f a w.
Proof. by intros ->. Qed.

Lemma bind_ret {A B} (a : A) (f : A → M B) w : (mret a ≫= f) w = f a w.
Proof. done. Qed.

Lemma bind_get_router {B} (f : router → M B) w : (get_router ≫= f) w = f (w_router w) w.
Proof. done. Qed.

Lemma bind_get_world {B} (f : world → M B) w : (get_world ≫= f) w = f w w.
Proof. done. Qed.

Lemma bind_put_world {B} w' (f : unit → M B) w : (put_world w' ≫= f) w = f tt w'.
Proof. done. Qed.

Lemma bind_modify {B} g (f : unit → M B) w :
  (modify_router g ≫= f) w = f tt (set_w_router (g (w_router w)) w).
Proof. done. Qed.

Lemma bind_gettimeofday {B} (f : timeval → M B) w :
  (gettimeofday ≫= f) w = f (w_clock w (w_ticks w)) (set_w_ticks (S (w_ticks w)) w).
Proof. done. Qed.

Lemma bind_junk {B} n (f : list Z → M B) w : (junk n ≫= f) w = f (junk_bytes w n) w.
Proof. done. Qed.

Lemma bind_assoc {A B C} (m : M A) (f : A → M B) (g : B → M C) w :
  ((m ≫= f) ≫= g) w = (m ≫= (λ a, f a ≫= g)) w.
Proof. unfold mbind, M_bind. by destruct (m w). Qed.

Lemma junk_bytes_bytes w n : bytes (junk_bytes w n).
Proof.
  unfold junk_bytes, bytes. rewrite Forall_forall. intros x Hx.
  apply list_elem_of_In, in_map_iff in Hx as (k & <- & _). apply u8_range.
Qed.

Lemma length_junk_bytes w n : length (junk_bytes w n) = n.
Proof. unfold junk_bytes. by rewrite length_map, length_seq. Qed.

#[export] Hint Resolve junk_bytes_bytes : bir.

(** Execute the leading step of a monadic goal; [mstep H] uses the equation [H]
    for it. *)
Ltac mrun :=
  repeat (first
    [ rewrite bind_get_router | rewrite bind_get_world | rewrite bind_put_world
    | rewrite bind_modify | rewrite bind_gettimeofday | rewrite bind_junk | rewrite bind_ret
    | rewrite bind_assoc ]; cbv beta iota).

Tactic Notation "mstep" constr(H) :=
  first [ rewrite (bind_in_bounds _ _ _ _ H) | rewrite (bind_from_option _ _ _ _ _ H)
        | rewrite (bind_ok _ _ _ _ _ H) ]; cbv beta iota.

(** Invert a successful run of a sequence of monadic steps. *)
Ltac run_inv :=
  repeat match goal with
  | H : (_ ≫= _) _ = Ok _ _ |- _ =>
      apply bind_Ok_inv in H; destruct H as (? & ? & ? & H)
  | H : mret _ _ = Ok _ _ |- _ => injection H as <- <-
  | H : from_option_M _ _ _ = Ok _ _ |- _ => apply from_option_Ok in H; destruct H as [? ->]
  | H : in_bounds _ _ = Ok _ _ |- _ => apply from_option_Ok in H; destruct H as [? ->]
  | H : throw _ _ = Ok _ _ |- _ => discriminate H
  end.

(** * Worlds up to the state of the mutexes

    Lookups walk over the tables under their locks: they leave the tables as
    they are, only the mutexes record the calls.  Two worlds are equivalent
    when they differ in mutexes alone. *)

Definition erase_queue {A} (q : dataqueue A) : dataqueue A :=
  Dataqueue (packet q) (packet_sizes q) pthread_mutex_init (size q).

Definition erase_router (r : router) : router :=
  Router ((λ i, set_if_neighbours (erase_queue (if_neighbours i)) i) <$> interfaces r)
    (erase_queue (arp_cache r)) (erase_queue (ip_table r)) (erase_queue (iparp_buffer r))
    (erase_queue (dns_db r)) (last_lsu r) (pw_router r) (use_ospf r) (is_router_running r).

Definition erase_world (w : world) : world := set_w_router (erase_router (w_router w)) w.

#[global] Instance world_equiv : Equiv world := λ w w', erase_world w = erase_world w'.

#[global] Instance world_equivalence : Equivalence (≡@{world}).
Proof. split; unfold equiv, world_equiv; red; congruence. Qed.

(** Observations that do not see the mutexes. *)
#[global] Instance w_out_proper : Proper ((≡) ==> (=)) w_out.
Proof. intros w w' H. exact (f_equal w_out H). Qed.
#[global] Instance w_ip_id_proper : Proper ((≡) ==> (=)) w_ip_id.
Proof. intros w w' H. exact (f_equal w_ip_id H). Qed.
#[global] Instance w_hid_proper : Proper ((≡) ==> (=)) w_hid.
Proof. intros w w' H. exact (f_equal w_hid H). Qed.
#[global] Instance w_cli_proper : Proper ((≡) ==> (=)) w_cli.
Proof. intros w w' H. exact (f_equal w_cli H). Qed.
#[global] Instance w_transport_proper : Proper ((≡) ==> (=)) w_transport.
Proof. intros w w' H. exact (f_equal w_transport H). Qed.
#[global] Instance w_clock_proper : Proper ((≡) ==> (=)) w_clock.
Proof. intros w w' H. exact (f_equal w_clock H). Qed.
#[global] Instance w_ticks_proper : Proper ((≡) ==> (=)) w_ticks.
Proof. intros w w' H. exact (f_equal w_ticks H). Qed.
#[global] Instance w_junk_proper : Proper ((≡) ==> (=)) w_junk.
Proof. intros w w' H. exact (f_equal w_junk H). Qed.
#[global] Instance w_tx_result_proper : Proper ((≡) ==> (=)) w_tx_result.
Proof. intros w w' H. exact (f_equal w_tx_result H). Qed.
#[global] Instance set_w_out_proper : Proper ((=) ==> (≡) ==> (≡)) set_w_out.
Proof.
  intros v ? <- w w' H. unfold equiv, world_equiv in *.
  exact (f_equal (set_w_out v) H).
Qed.
#[global] Instance set_w_ip_id_proper : Proper ((=) ==> (≡) ==> (≡)) set_w_ip_id.
Proof.
  intros v ? <- w w' H. unfold equiv, world_equiv in *.
  exact (f_equal (set_w_ip_id v) H).
Qed.
#[global] Instance set_w_ticks_proper : Proper ((=) ==> (≡) ==> (≡)) set_w_ticks.
Proof.
  intros v ? <- w w' H. unfold equiv, world_equiv in *.
  exact (f_equal (set_w_ticks v) H).
Qed.
#[global] Instance set_w_cli_proper : Proper ((=) ==> (≡) ==> (≡)) set_w_cli.
Proof.
  intros v ? <- w w' H. unfold equiv, world_equiv in *.
  exact (f_equal (set_w_cli v) H).
Qed.

(** The tables as lists. *)
Definition cache_of (w : world) : list arp_cache_entry := packet (arp_cache (w_router w)).
Definition table_of (w : world) : list rtable_entry := packet (ip_table (w_router w)).
Definition parked_of (w : world) : list iparp_buffer_entry := packet (iparp_buffer (w_router w)).

#[global] Instance cache_of_proper : Proper ((≡) ==> (=)) cache_of.
Proof. intros w w' H. exact (f_equal cache_of H). Qed.
#[global] Instance table_of_proper : Proper ((≡) ==> (=)) table_of.
Proof. intros w w' H. exact (f_equal table_of H). Qed.
#[global] Instance parked_of_proper : Proper ((≡) ==> (=)) parked_of.
Proof. intros w w' H. exact (f_equal parked_of H). Qed.

Definition plain_interface (i : interface) : interface :=
  set_if_neighbours (erase_queue (if_neighbours i)) i.

(** The interfaces without the mutexes of their neighbour queues. *)
Definition interfaces_of (w : world) : list interface :=
  plain_interface <$> interfaces (w_router w).

#[global] Instance interfaces_of_proper : Proper ((≡) ==> (=)) interfaces_of.
Proof.
  intros w w' H. exact (f_equal (λ w, interfaces (w_router w)) H).
Qed.

Lemma erase_router_eq w w' : w ≡ w' → erase_router (w_router w) = erase_router (w_router w').
Proof. intros H. exact (f_equal w_router H). Qed.

Lemma interface_same w w' i x :
  interfaces_of w' = interfaces_of w → interfaces (w_router w) !! i = Some x →
  ∃ x', interfaces (w_router w') !! i = Some x' ∧ plain_interface x' = plain_interface x.
Proof.
  intros H Hx. pose proof (f_equal (λ l, l !! i) H) as Hi. simpl in Hi.
  unfold interfaces_of in Hi. rewrite !list_lookup_fmap, Hx in Hi. simpl in Hi.
  destruct (interfaces (w_router w') !! i) as [x'|]; [|done]. exists x'. split; [done|].
  exact (inj Some _ _ Hi).
Qed.

Lemma interface_equiv w w' i x :
  w ≡ w' → interfaces (w_router w) !! i = Some x →
  ∃ x', interfaces (w_router w') !! i = Some x' ∧ plain_interface x' = plain_interface x.
Proof. intros H. apply interface_same. symmetry. exact (interfaces_of_proper _ _ H). Qed.

Lemma plain_fields x x' :
  plain_interface x' = plain_interface x →
  if_name x' = if_name x ∧ if_mac x' = if_mac x ∧ if_ip x' = if_ip x ∧
  if_subnet_mask x' = if_subnet_mask x.
Proof.
  intros H. split_and!; [exact (f_equal if_name H)|exact (f_equal if_mac H)
    |exact (f_equal if_ip H)|exact (f_equal if_subnet_mask H)].
Qed.

(** A change of a mutex of a table is no change. *)
Lemma set_arp_cache_equiv q w :
  packet q = packet (arp_cache (w_router w)) →
  packet_sizes q = packet_sizes (arp_cache (w_router w)) → size q = size (arp_cache (w_router w)) →
  set_w_router (set_arp_cache q (w_router w)) w ≡ w.
Proof.
  intros H1 H2 H3. unfold equiv, world_equiv, erase_world, erase_router, erase_queue.
  simpl. by rewrite H1, H2, H3.
Qed.

Lemma set_ip_table_equiv q w :
  packet q = packet (ip_table (w_router w)) →
  packet_sizes q = packet_sizes (ip_table (w_router w)) → size q = size (ip_table (w_router w)) →
  set_w_router (set_ip_table q (w_router w)) w ≡ w.
Proof.
  intros H1 H2 H3. unfold equiv, world_equiv, erase_world, erase_router, erase_queue.
  simpl. by rewrite H1, H2, H3.
Qed.

Lemma wf_same_sizes {A} sz (q q' : dataqueue A) :
  wf_queue sz q → wf_queue sz q' → packet q = packet q' →
  packet_sizes q = packet_sizes q' ∧ size q = size q'.
Proof. intros [H1 H2] [H3 H4] Hp. by rewrite H1, H2, H3, H4, Hp. Qed.

Lemma wf_erase {A} sz (q q' : dataqueue A) :
  erase_queue q = erase_queue q' → wf_queue sz q → wf_queue sz q'.
Proof.
  intros H [H1 H2]. injection H as Hp Hs Hz. split; [by rewrite <-Hp, <-Hz|by rewrite <-Hp, <-Hs].
Qed.
