(* ===== verification/Loops.v ===== *)
(** Loops over queues and arrays with effects.

    The clients of dataqueue.c iterate with an index up to [queue->size],
    either over entries they lock one by one or, when the whole queue is
    locked already, with [queue_getidunsafe].  [for_unsafe] and
    [for_locked_M] are these two loops for bodies that run in the monad of the
    router and leave the queue they walk over as it is. *)

From stdpp Require Import base tactics list numbers strings.
From Stdlib Require Import ZArith Lia.
From S2P Require Import Prelude Dataqueue Common Packets State.

Local Open Scope Z_scope.

(** [for (i = start; i < q->size; i++) if (queue_getidunsafe(q, i, ...)) body]. *)
Fixpoint for_unsafe_from {A S} (sizeof : Z) (body : nat → A → S → M S) (fuel i : nat)
    (q : dataqueue A) (s : S) : M S :=
  match fuel with
  | O => mret s
  | Datatypes.S fuel' =>
      if Z.of_nat i <? size q then
        match queue_getidunsafe q (Z.of_nat i) with
        | Some (e, sz) =>
            if sz =? sizeof then
              s' ← body i e s;
              for_unsafe_from sizeof body fuel' (Datatypes.S i) q s'
            else throw AssertFailed
        | None => for_unsafe_from sizeof body fuel' (Datatypes.S i) q s
        end
      else mret s
  end.

Definition for_unsafe {A S} (sizeof : Z) (body : nat → A → S → M S) (q : dataqueue A) (s : S)
  : M S :=
  for_unsafe_from sizeof body (Z.to_nat (size q)) 0 q s.

(** The same with [queue_getidandlock] and [queue_unlockid]; the queue is
    returned with the state its mutex ends in. *)
Fixpoint for_locked_from {A S} (sizeof : Z) (body : nat → A → S → M S) (fuel i : nat)
    (q : dataqueue A) (s : S) : M (dataqueue A * S) :=
  match fuel with
  | O => mret (q, s)
  | Datatypes.S fuel' =>
      if Z.of_nat i <? size q then
        match queue_getidandlock q (Z.of_nat i) with
        | (q1, Some (e, sz)) =>
            if sz =? sizeof then
              s' ← body i e s;
              for_locked_from sizeof body fuel' (Datatypes.S i) (queue_unlockid q1 (Z.of_nat i)) s'
            else throw AssertFailed
        | (q1, None) => for_locked_from sizeof body fuel' (Datatypes.S i) q1 s
        end
      else mret (q, s)
  end.

Definition for_locked_M {A S} (sizeof : Z) (body : nat → A → S → M S) (q : dataqueue A) (s : S)
  : M (dataqueue A * S) :=
  for_locked_from sizeof body (Z.to_nat (size q)) 0 q s.

(** [for (i = start; i < start + length l; i++)] over an array. *)
Fixpoint for_array {A S} (body : nat → A → S → M S) (i : nat) (l : list A) (s : S) : M S :=
  match l with
  | [] => mret s
  | x :: rest => s' ← body i x s; for_array body (Datatypes.S i) rest s'
  end.

(** [for (i = start; i < start + n; i++)]. *)
Fixpoint for_range {S} (body : nat → S → M S) (n i : nat) (s : S) : M S :=
  match n with
  | O => mret s
  | Datatypes.S n' => s' ← body i s; for_range body n' (Datatypes.S i) s'
  end.

(** * Theory *)

Lemma for_unsafe_from_spec {A S} sz (body : nat → A → S → M S) q pre l s w :
  wf_queue sz q → packet q = pre ++ l →
  for_unsafe_from sz body (length l) (length pre) q s w = for_array body (length pre) l s w.
Proof.
  intros Hw. revert pre s w. induction l as [|x l IH]; intros pre s w Hp; [done|].
  cbn [for_unsafe_from for_array length].
  assert (length pre < length (packet q))%nat as Hlt by (rewrite Hp, length_app; simpl; lia).
  destruct (Z.ltb_spec (Z.of_nat (length pre)) (size q)); [|rewrite (wf_size _ _ Hw) in *; lia].
  rewrite (queue_getidunsafe_spec _ _ (length pre) Hw).
  rewrite Hp, list_lookup_middle by done. cbn. rewrite Z.eqb_refl.
  unfold mbind, M_bind. destruct (body (length pre) x s w) as [s' w'|f]; [|done].
  specialize (IH (pre ++ [x]) s' w'). rewrite length_app, Nat.add_1_r in IH. apply IH.
  by rewrite <-app_assoc.
Qed.

(** On a well-formed queue the loop is the loop over its list. *)
Lemma for_unsafe_spec {A S} sz (body : nat → A → S → M S) q s w :
  wf_queue sz q → for_unsafe sz body q s w = for_array body 0 (packet q) s w.
Proof.
  intros Hw. unfold for_unsafe. rewrite (wf_size _ _ Hw), Nat2Z.id.
  by apply (for_unsafe_from_spec sz body q [] (packet q)).
Qed.

Lemma for_locked_from_spec {A S} sz (body : nat → A → S → M S) q pre l s w :
  wf_queue sz q → packet q = pre ++ l →
  ∃ q', wf_queue sz q' ∧ packet q' = packet q ∧
    for_locked_from sz body (length l) (length pre) q s w
    = match for_array body (length pre) l s w with
      | Ok s' w' => Ok (q', s') w'
      | Fault f => Fault f
      end.
Proof.
  revert q pre s w. induction l as [|x l IH]; intros q pre s w Hw Hp; [by exists q|].
  cbn [for_locked_from for_array length].
  assert (length pre < length (packet q))%nat as Hlt by (rewrite Hp, length_app; simpl; lia).
  destruct (Z.ltb_spec (Z.of_nat (length pre)) (size q)); [|rewrite (wf_size _ _ Hw) in *; lia].
  rewrite (queue_getidandlock_spec _ _ (length pre) Hw Hlt).
  rewrite Hp, list_lookup_middle by done. cbn. rewrite Z.eqb_refl.
  unfold mbind, M_bind. destruct (body (length pre) x s w) as [s' w'|f]; [|by exists q].
  specialize (IH (queue_unlockid q (Z.of_nat (length pre))) (pre ++ [x]) s' w').
  rewrite length_app, Nat.add_1_r in IH.
  destruct IH as (q' & Hq' & Hp' & E); [by apply wf_unlock|simpl; by rewrite <-app_assoc|].
  exists q'. split_and!; [done|by rewrite Hp'|]. exact E.
Qed.

Lemma for_locked_M_spec {A S} sz (body : nat → A → S → M S) q s w :
  wf_queue sz q →
  ∃ q', wf_queue sz q' ∧ packet q' = packet q ∧
    for_locked_M sz body q s w
    = match for_array body 0 (packet q) s w with
      | Ok s' w' => Ok (q', s') w'
      | Fault f => Fault f
      end.
Proof.
  intros Hw. unfold for_locked_M. rewrite (wf_size _ _ Hw), Nat2Z.id.
  by apply (for_locked_from_spec sz body q [] (packet q)).
Qed.

(** Invariant rule: [P k s w] holds before the [k]-th iteration. *)
Lemma for_array_inv {A S} (P : nat → S → world → Prop) (body : nat → A → S → M S) l i s w :
  P i s w →
  (∀ k x s w, l !! k = Some x → P (i + k)%nat s w →
     ∃ s' w', body (i + k)%nat x s w = Ok s' w' ∧ P (i + k + 1)%nat s' w') →
  ∃ s' w', for_array body i l s w = Ok s' w' ∧ P (i + length l)%nat s' w'.
Proof.
  revert i s w. induction l as [|x l IH]; intros i s w H0 Hstep; cbn [for_array length].
  { exists s, w. split; [done|by rewrite Nat.add_0_r]. }
  destruct (Hstep 0%nat x s w eq_refl) as (s1 & w1 & E & H1); [by rewrite Nat.add_0_r|].
  rewrite Nat.add_0_r in *. rewrite (bind_ok _ _ _ _ _ E).
  destruct (IH (Datatypes.S i) s1 w1) as (s' & w' & E' & H').
  - by rewrite Nat.add_1_r in H1.
  - intros k y s2 w2 Hk Hp. replace (Datatypes.S i + k)%nat with (i + Datatypes.S k)%nat in * by lia.
    by apply Hstep.
  - exists s', w'. split; [done|]. by replace (i + Datatypes.S (length l))%nat
      with (Datatypes.S i + length l)%nat by lia.
Qed.

Lemma for_range_inv {S} (P : nat → S → world → Prop) (body : nat → S → M S) n i s w :
  P i s w →
  (∀ k s w, (i <= k < i + n)%nat → P k s w →
     ∃ s' w', body k s w = Ok s' w' ∧ P (k + 1)%nat s' w') →
  ∃ s' w', for_range body n i s w = Ok s' w' ∧ P (i + n)%nat s' w'.
Proof.
  revert i s w. induction n as [|n IH]; intros i s w H0 Hstep; cbn [for_range].
  { exists s, w. split; [done|by rewrite Nat.add_0_r]. }
  destruct (Hstep i s w) as (s1 & w1 & E & H1); [lia|done|].
  rewrite (bind_ok _ _ _ _ _ E).
  destruct (IH (Datatypes.S i) s1 w1) as (s' & w' & E' & H').
  - by rewrite Nat.add_1_r in H1.
  - intros k s2 w2 Hk. apply Hstep. lia.
  - exists s', w'. split; [done|]. by replace (i + Datatypes.S n)%nat
      with (Datatypes.S i + n)%nat by lia.
Qed.
