(* ===== verification/Ethernet.v ===== *)
(** Link layer: sending of frames (ethernet_packet.c and the output function of
    sr_integration.c). *)

From stdpp Require Import base tactics list numbers strings.
From Stdlib Require Import ZArith Lia.
From S2P Require Import Prelude Dataqueue Common Packets State.

Local Open Scope Z_scope.

(** The first [len] bytes of the buffer are handed to the interface. *)
Definition sr_integ_low_level_output (buf : list Z) (len : Z) (intf : nat) : M Z :=
  data ← in_bounds (get_bytes buf 0 (Z.to_nat len));
  w ← get_world;
  put_world (set_w_out (w_out w ++ [Frame intf data]) w);;
  mret (w_tx_result w).

Definition with_packet (p : list Z) (pi : packet_info) : packet_info :=
  PacketInfo p (pi_len pi) (pi_interface pi).

Definition ethernet_packet_send (intf : option nat) (target_mac source_mac : addr_mac) (type : Z)
    (pi : packet_info) : M (packet_info * Z) :=
  if negb (PACKET_CAN_MARSHALL packet_ethernet_t 0 (pi_len pi)) then throw Die
  else
    p ← in_bounds (setb packet_ethernet_t "dest_mac" (pi_packet pi) 0 target_mac);
    p ← in_bounds (setb packet_ethernet_t "source_mac" p 0 source_mac);
    p ← in_bounds (setf packet_ethernet_t "type" p 0 type);
    match intf with
    | None => throw Die
    | Some i =>
        r ← sr_integ_low_level_output p (pi_len pi) i;
        mret (with_packet p pi, r)
    end.

Definition update_ethernet_header (pi : packet_info) (dst_mac src_mac : addr_mac) : M packet_info :=
  p ← in_bounds (setb packet_ethernet_t "dest_mac" (pi_packet pi) 0 dst_mac);
  p ← in_bounds (setb packet_ethernet_t "source_mac" p 0 src_mac);
  dest ← in_bounds (getb packet_ethernet_t "dest_mac" p 0);
  source ← in_bounds (getb packet_ethernet_t "source_mac" p 0);
  res ← ethernet_packet_send (pi_interface pi) dest source (htons ETH_IP_TYPE) (with_packet p pi);
  mret res.1.

(** The type field of this helper is left in host order. *)
Definition generate_ethernet_header (dst_mac src_mac : addr_mac) : option (list Z) :=
  p ← setb packet_ethernet_t "dest_mac" (replicate 14 0) 0 dst_mac;
  p ← setb packet_ethernet_t "source_mac" p 0 src_mac;
  setf packet_ethernet_t "type" p 0 ETH_IP_TYPE.

(** * Theory *)

(** The frame a send produces: new Ethernet header, rest of the packet as it
    was, cut at the length of the packet. *)
Definition frame_of (tmac smac : addr_mac) (type : Z) (pi : packet_info) : list Z :=
  take (Z.to_nat (pi_len pi)) (tmac ++ smac ++ le_split 2 type ++ drop 14 (pi_packet pi)).

Definition sent (i : nat) (data : list Z) (w : world) : world :=
  set_w_out (w_out w ++ [Frame i data]) w.

Definition sendable (pi : packet_info) : Prop :=
  14 <= pi_len pi < 4294967296 ∧ (Z.to_nat (pi_len pi) <= length (pi_packet pi))%nat.

Lemma ethernet_packet_send_spec i tmac smac type pi w :
  length tmac = 6%nat → length smac = 6%nat → sendable pi →
  ∃ pi', ethernet_packet_send (Some i) tmac smac type pi w
           = Ok (pi', w_tx_result w) (sent i (frame_of tmac smac type pi) w) ∧
         pi_packet pi' = tmac ++ smac ++ le_split 2 type ++ drop 14 (pi_packet pi) ∧
         pi_len pi' = pi_len pi ∧ pi_interface pi' = pi_interface pi.
Proof.
  intros Ht Hs [Hl Hlen]. unfold ethernet_packet_send, PACKET_CAN_MARSHALL.
  rewrite Z.sub_0_r, u64_small by lia.
  change (Z.of_nat (sizeof packet_ethernet_t)) with 14.
  destruct (Z.leb_spec 14 (pi_len pi)); [|lia]. cbn [negb].
  destruct pi as [p len oi]; simpl in *. unfold setb, setf, store. layout_simpl. simpl plus.
  assert (put_bytes p 0 tmac = Some (tmac ++ drop 6 p)) as E1.
  { rewrite put_bytes_Some, Ht; [done|lia]. }
  mstep E1.
  assert (put_bytes (tmac ++ drop 6 p) 6 smac = Some (tmac ++ smac ++ drop 12 p)) as E2.
  { rewrite put_bytes_Some by (rewrite length_app, length_drop; lia).
    rewrite take_app_le, firstn_all2 by lia. rewrite drop_app_ge by lia.
    rewrite drop_drop, Ht, Hs. done. }
  mstep E2.
  assert (put_bytes (tmac ++ smac ++ drop 12 p) 12 (le_split 2 type)
          = Some (tmac ++ smac ++ le_split 2 type ++ drop 14 p)) as E3.
  { rewrite put_bytes_Some by (rewrite !length_app, length_drop, length_le_split; lia).
    rewrite length_le_split, !(app_assoc tmac smac).
    rewrite take_app_le by (rewrite length_app; lia). rewrite firstn_all2 by (rewrite length_app; lia).
    rewrite drop_app_ge by (rewrite length_app; lia). rewrite length_app, drop_drop.
    rewrite Ht, Hs, <-!app_assoc. done. }
  mstep E3. unfold sr_integ_low_level_output. mrun.
  mstep (get_bytes_Some (tmac ++ smac ++ le_split 2 type ++ drop 14 p) 0 (Z.to_nat len)
    ltac:(rewrite !length_app, length_drop, length_le_split; lia)).
  mrun. eexists. split; [reflexivity|]. done.
Qed.
