(* ===== verification/Arp.v ===== *)
(** The ARP cache and the sending side of ARP (arp.c).

    The cache is the queue [arp_cache] of the router.  This file models its
    lookups, its update, its aging thread and the commands that edit it, and
    the functions that send ARP packets and park an IP packet until its next
    hop answers; the receiving side is in the file ArpInput.  The code is that
    of the Mininet build, where [hardware_arp_synccache] has an empty body. *)

From stdpp Require Import base tactics list numbers strings.
From Stdlib Require Import ZArith Lia.
From S2P Require Import Prelude Dataqueue Common Packets State Ethernet.

Local Open Scope Z_scope.

Definition match_mac (mac1 mac2 : addr_mac) : bool :=
  (octet mac1 0 =? octet mac2 0) && (octet mac1 1 =? octet mac2 1)
  && (octet mac1 2 =? octet mac2 2) && (octet mac1 3 =? octet mac2 3)
  && (octet mac1 4 =? octet mac2 4) && (octet mac1 5 =? octet mac2 5).

(** Index and copy of the entry found, or [None] for the result -1. *)
Definition arp_getcachebymac (cache : dataqueue arp_cache_entry) (mac : addr_mac)
  : option (dataqueue arp_cache_entry * option (nat * arp_cache_entry)) :=
  queue_foreach sizeof_arp_cache_entry (search_body (λ e, match_mac (arp_mac e) mac)) cache None.

Definition arp_getcachebyip (cache : dataqueue arp_cache_entry) (ip : Z)
  : option (dataqueue arp_cache_entry * option (nat * arp_cache_entry)) :=
  queue_foreach sizeof_arp_cache_entry (search_body (λ e, arp_ip e =? ip)) cache None.

(** The lookups as the other components call them. *)
Definition lookup_arp_ip (ip : Z) : M (option (nat * arp_cache_entry)) :=
  r ← get_router;
  res ← from_option_M AssertFailed (arp_getcachebyip (arp_cache r) ip);
  modify_router (set_arp_cache res.1);;
  mret res.2.

(** [gettimeofday(&result.tv)] followed by the update of [tv_sec]. *)
Definition entry_deadline (timeout : Z) : M timeval :=
  tv ← gettimeofday;
  let timeout := if timeout =? -1 then timeout else timeout + tv_sec tv in
  mret (Timeval timeout (tv_usec tv)).

Definition arp_putincache (ip : Z) (mac : addr_mac) (timeout : Z) : M unit :=
  r ← get_router;
  res ← from_option_M AssertFailed (arp_getcachebymac (arp_cache r) mac);
  match res.2 with
  | Some (id, result) =>
      tv ← entry_deadline timeout;
      modify_router (set_arp_cache
        (queue_replace res.1 (ArpEntry ip (arp_mac result) tv) sizeof_arp_cache_entry
           (Z.of_nat id)).1)
  | None =>
      res ← from_option_M AssertFailed (arp_getcachebyip res.1 ip);
      match res.2 with
      | Some (id, result) =>
          tv ← entry_deadline timeout;
          modify_router (set_arp_cache
            (queue_replace res.1 (ArpEntry (arp_ip result) mac tv) sizeof_arp_cache_entry
               (Z.of_nat id)).1)
      | None =>
          tv ← entry_deadline timeout;
          modify_router (set_arp_cache
            (queue_add res.1 (ArpEntry ip mac tv) sizeof_arp_cache_entry))
      end
  end.

(** ** Aging: one round of the loop of [arp_maintain_cache] *)

(** The clock is read once per entry. *)
Definition expire_body (clock : nat → timeval) (i : nat) (e : arp_cache_entry)
    (s : nat * bool) : verdict arp_cache_entry * (nat * bool) :=
  let now := clock s.1 in
  if negb (tv_sec (arp_tv e) =? -1) && (tv_sec (arp_tv e) - tv_sec now <=? 0)
  then (Remove, (S s.1, true))
  else (Unlock e, (S s.1, s.2)).

(** [for (i = 0; i < ARP_THRESHOLD - cache->size; i++)]. *)
Fixpoint threshold_loop (fuel i : nat) (q : dataqueue arp_cache_entry) (ticks : nat)
    (changed : bool) : option (dataqueue arp_cache_entry * (nat * bool)) :=
  match fuel with
  | O => Some (q, (ticks, changed))
  | S fuel' =>
      if Z.of_nat i <? ARP_THRESHOLD - size q then
        match queue_getidandlock q (Z.of_nat i) with
        | (q1, Some (e, sz)) =>
            if sz =? sizeof_arp_cache_entry then
              threshold_loop fuel' (S i) (queue_unlockidandremove q1 (Z.of_nat i))
                (S ticks) true
            else None
        | (q1, None) => threshold_loop fuel' (S i) q1 ticks changed
        end
      else Some (q, (ticks, changed))
  end.

Definition arp_maintain_cache_round : M unit :=
  w ← get_world;
  res ← from_option_M AssertFailed
    (queue_foreach sizeof_arp_cache_entry (expire_body (w_clock w)) (arp_cache (w_router w))
       (w_ticks w, false));
  res ← from_option_M AssertFailed
    (if ARP_THRESHOLD <? size res.1
     then threshold_loop (Z.to_nat (size res.1)) 0 res.1 res.2.1 res.2.2
     else Some res);
  put_world (set_w_ticks res.2.1 (set_w_router (set_arp_cache res.1 (w_router w)) w)).

(** ** Commands of the CLI *)

Definition update_cache (body : nat → arp_cache_entry → unit → verdict arp_cache_entry * unit)
  : M unit :=
  r ← get_router;
  res ← from_option_M AssertFailed
    (queue_foreach sizeof_arp_cache_entry body (arp_cache r) tt);
  modify_router (set_arp_cache res.1).

Definition arp_add_static (ip : Z) (mac : addr_mac) : M unit :=
  arp_putincache ip mac ARP_CACHE_TIMEOUT_STATIC.

Definition arp_remove_ip_mac (ip : Z) (mac : addr_mac) : M unit :=
  update_cache (λ i e s,
    if (arp_ip e =? ip) && match_mac (arp_mac e) mac then (RemoveReturn, s) else (Unlock e, s)).

Definition arp_remove_static_ip (ip : Z) : M unit :=
  update_cache (remove_body (λ e, (arp_ip e =? ip) && (tv_sec (arp_tv e) =? -1))).

Definition arp_clear_static : M unit :=
  update_cache (remove_body (λ e, tv_sec (arp_tv e) =? -1)).

Definition arp_clear_dynamic : M unit :=
  update_cache (remove_body (λ e, negb (tv_sec (arp_tv e) =? -1))).

Definition arp_clear_all : M unit :=
  modify_router (λ r, set_arp_cache (queue_purge (arp_cache r)) r).

(** ** Sending *)

(** The ARP header lies behind the Ethernet header of the packet. *)
Definition arp_send (intf : option nat) (pi : packet_info) (opcode target_ip : Z)
    (target_mac : addr_mac) (source_ip : Z) (source_mac : addr_mac) : M packet_info :=
  let base := sizeof packet_ethernet_t in
  p ← in_bounds (setf packet_arp_t "hardwareaddresslength" (pi_packet pi) base 6);
  p ← in_bounds (setf packet_arp_t "protocoladdresslength" p base 4);
  p ← in_bounds (setf packet_arp_t "opcode" p base (htons opcode));
  p ← in_bounds (setf packet_arp_t "protocoltype" p base (htons ARP_PTYPE_IP));
  p ← in_bounds (setf packet_arp_t "hardwaretype" p base (htons ARP_HTYPE_ETH));
  p ← in_bounds (setf packet_arp_t "target_ip" p base target_ip);
  p ← in_bounds (setb packet_arp_t "target_mac" p base target_mac);
  p ← in_bounds (setf packet_arp_t "sender_ip" p base source_ip);
  p ← in_bounds (setb packet_arp_t "sender_mac" p base source_mac);
  res ← ethernet_packet_send intf target_mac source_mac (htons ETH_ARP_TYPE) (with_packet p pi);
  mret res.1.

Definition arp_send_request (intf : option nat) (target_ip : Z) : M unit :=
  let len := (sizeof packet_ethernet_t + sizeof packet_arp_t)%nat in
  buf ← junk len;
  i ← deref_interface intf;
  arp_send intf (PacketInfo buf (Z.of_nat len) intf) ARP_OPCODE_REQUEST target_ip MAC_BROADCAST
    (if_ip i) (if_mac i);;
  mret tt.

(** The queued block holds a copy of the packet. *)
Definition arp_queue_ippacket_for_send_on_arp_request_response (pi : packet_info)
    (intf : option nat) (dest : Z) : M unit :=
  data ← in_bounds (get_bytes (pi_packet pi) 0 (Z.to_nat (pi_len pi)));
  tv ← gettimeofday;
  let entry := IparpEntry (PacketInfo data (pi_len pi) (pi_interface pi)) tv 1
                 (sizeof_packet_info + pi_len pi) intf dest in
  modify_router (λ r, set_iparp_buffer
    (queue_add (iparp_buffer r) entry sizeof_iparp_buffer_entry) r);;
  arp_send_request intf dest.

(** * Theory *)

Abbreviation wf_cache := (wf_queue sizeof_arp_cache_entry).

Definition by_mac (mac : addr_mac) (e : arp_cache_entry) : bool := match_mac (arp_mac e) mac.
Definition by_ip (ip : Z) (e : arp_cache_entry) : bool := arp_ip e =? ip.

Lemma match_mac_true m1 m2 :
  length m1 = 6%nat → length m2 = 6%nat → match_mac m1 m2 = true ↔ m1 = m2.
Proof.
  intros H1 H2. destruct m1 as [|a0 [|a1 [|a2 [|a3 [|a4 [|a5 [|]]]]]]]; try done.
  destruct m2 as [|b0 [|b1 [|b2 [|b3 [|b4 [|b5 [|]]]]]]]; try done.
  unfold match_mac, octet. cbn [nth]. rewrite !andb_true_iff, !Z.eqb_eq.
  split; [intros [[[[[-> ->] ->] ->] ->] ->]; done|by intros [= -> -> -> -> -> ->]].
Qed.

Lemma match_mac_refl m : match_mac m m = true.
Proof. unfold match_mac. by rewrite !Z.eqb_refl. Qed.

Lemma search_spec {A} sz p (q : dataqueue A) :
  wf_queue sz q →
  ∃ q', queue_foreach sz (search_body p) q None = Some (q', Spec.find_from p 0 (packet q)) ∧
        wf_queue sz q' ∧ packet q' = packet q.
Proof.
  intros Hw. destruct (queue_foreach_visit sz (search_body p) q None Hw) as (q' & Hq & Hw' & Hp).
  rewrite visit_search in Hq, Hp. exists q'. split_and!; [|done..]. rewrite Hq.
  by destruct (Spec.find_from p 0 (packet q)).
Qed.

Lemma remove_spec {A} sz p (q : dataqueue A) :
  wf_queue sz q →
  ∃ q', queue_foreach sz (remove_body p) q tt = Some (q', tt) ∧
        wf_queue sz q' ∧ packet q' = Spec.remove_skip p (packet q).
Proof.
  intros Hw. destruct (queue_foreach_visit sz (remove_body p) q tt Hw) as (q' & Hq & Hw' & Hp).
  rewrite visit_remove in Hq, Hp. by exists q'.
Qed.


Definition put_list (ip : Z) (mac : addr_mac) (tv : timeval) (l : list arp_cache_entry)
  : list arp_cache_entry :=
  match Spec.find_from (by_mac mac) 0 l with
  | Some (i, e) => <[i := ArpEntry ip (arp_mac e) tv]> l
  | None =>
      match Spec.find_from (by_ip ip) 0 l with
      | Some (i, e) => <[i := ArpEntry (arp_ip e) mac tv]> l
      | None => l ++ [ArpEntry ip mac tv]
      end
  end.

Definition deadline (timeout : Z) (now : timeval) : timeval :=
  Timeval (if timeout =? -1 then timeout else timeout + tv_sec now) (tv_usec now).

(** [w'] differs from [w] in the ARP cache and the number of clock reads. *)
Definition cache_changed (w w' : world) : Prop :=
  ∃ q t, w' = set_w_ticks t (set_w_router (set_arp_cache q (w_router w)) w).

Lemma find_from_lt {A} (p : A → bool) l i e :
  Spec.find_from p 0 l = Some (i, e) → (i < length l)%nat ∧ l !! i = Some e ∧ p e = true.
Proof.
  intros (k & -> & Hk & Hp & _)%find_from_Some. split; [|done]. by eapply lookup_lt_Some.
Qed.

Lemma arp_putincache_spec ip mac timeout w :
  wf_cache (arp_cache (w_router w)) →
  ∃ w', arp_putincache ip mac timeout w = Ok tt w' ∧
        cache_changed w w' ∧ wf_cache (arp_cache (w_router w')) ∧
        cache_of w' = put_list ip mac (deadline timeout (w_clock w (w_ticks w))) (cache_of w).
Proof.
  intros Hw. unfold arp_putincache, put_list, cache_of, entry_deadline. mrun.
  destruct (search_spec _ (by_mac mac) _ Hw) as (q1 & E1 & Hw1 & Hp1).
  change (queue_foreach _ _ _ _) with (arp_getcachebymac (arp_cache (w_router w)) mac) in E1.
  mstep E1. cbn [fst snd].
  destruct (Spec.find_from (by_mac mac) 0 (packet (arp_cache (w_router w)))) as [[i e]|] eqn:Hf.
  - apply find_from_lt in Hf as (Hi & _ & _). rewrite <-Hp1 in Hi. mrun.
    destruct (queue_replace_spec _ sizeof_arp_cache_entry q1
      (ArpEntry ip (arp_mac e) (deadline timeout (w_clock w (w_ticks w)))) i Hw1 Hi) as (? & Hp & _).
    eexists. split_and!; [reflexivity|by eexists _, _|done|]. etrans; [exact Hp|]. by rewrite Hp1.
  - destruct (search_spec _ (by_ip ip) _ Hw1) as (q2 & E2 & Hw2 & Hp2).
    change (queue_foreach _ _ _ _) with (arp_getcachebyip q1 ip) in E2.
    mstep E2. cbn [fst snd]. rewrite Hp1 in *.
    destruct (Spec.find_from (by_ip ip) 0 (packet (arp_cache (w_router w)))) as [[i e]|] eqn:Hf2.
    + apply find_from_lt in Hf2 as (Hi & _ & _). rewrite <-Hp2 in Hi. mrun.
      destruct (queue_replace_spec _ sizeof_arp_cache_entry q2
        (ArpEntry (arp_ip e) mac (deadline timeout (w_clock w (w_ticks w)))) i Hw2 Hi)
        as (? & Hp & _).
      eexists. split_and!; [reflexivity|by eexists _, _|done|]. etrans; [exact Hp|]. by rewrite Hp2.
    + mrun.
      destruct (queue_add_spec _ q2 (ArpEntry ip mac (deadline timeout (w_clock w (w_ticks w)))) Hw2)
        as (? & Hp).
      eexists. split_and!; [reflexivity|by eexists _, _|done|]. etrans; [exact Hp|]. by rewrite Hp2.
Qed.

(** ** Properties of the update *)

Definition wf_macs (l : list arp_cache_entry) : Prop :=
  Forall (λ e, wf_mac (arp_mac e)) l.

Lemma put_list_wf_macs ip mac tv l :
  wf_mac mac → wf_macs l → wf_macs (put_list ip mac tv l).
Proof.
  intros Hm Hl. unfold put_list.
  destruct (Spec.find_from _ 0 l) as [[i e]|] eqn:Hf.
  - apply find_from_lt in Hf as (Hi & He & _). apply Forall_insert; [done|]. simpl.
    exact (Forall_lookup_1 _ _ _ _ Hl He).
  - destruct (Spec.find_from (by_ip ip) 0 l) as [[i e]|]; [by apply Forall_insert|].
    apply Forall_app_2; [done|by constructor].
Qed.

Lemma no_mac_not_in mac l :
  wf_mac mac → wf_macs l → Spec.find_from (by_mac mac) 0 l = None →
  mac ∉ arp_mac <$> l.
Proof.
  intros Hm Hl Hn%find_from_None (e & -> & He)%list_elem_of_fmap.
  rewrite Forall_forall in Hn. specialize (Hn e He). unfold by_mac in Hn.
  by rewrite match_mac_refl in Hn.
Qed.

Lemma put_list_macs_unique ip mac tv l :
  wf_mac mac → wf_macs l → NoDup (arp_mac <$> l) → NoDup (arp_mac <$> put_list ip mac tv l).
Proof.
  intros Hm Hl Hnd. unfold put_list.
  destruct (Spec.find_from (by_mac mac) 0 l) as [[i e]|] eqn:Hf.
  - apply find_from_lt in Hf as (Hi & He & _).
    rewrite list_fmap_insert. cbn [arp_mac]. rewrite list_insert_id; [done|].
    by rewrite list_lookup_fmap, He.
  - pose proof (no_mac_not_in _ _ Hm Hl Hf) as Hnin.
    destruct (Spec.find_from (by_ip ip) 0 l) as [[i e]|] eqn:Hf2.
    + rewrite list_fmap_insert. cbn [arp_mac]. by apply NoDup_insert_fresh.
    + rewrite fmap_app. apply NoDup_app. split_and!; [done| |apply NoDup_singleton].
      intros x Hx ->%list_elem_of_singleton. done.
Qed.

(** The entry recorded by an update, when the address is not also bound to
    another station: a lookup by address finds it. *)
Lemma put_list_find ip mac tv l :
  wf_mac mac → wf_macs l →
  (mac ∈ arp_mac <$> l → Forall (λ e, arp_ip e = ip → arp_mac e = mac) l) →
  ∃ i e, Spec.find_from (by_ip ip) 0 (put_list ip mac tv l) = Some (i, e) ∧ arp_mac e = mac.
Proof.
  intros Hm Hl Hother. unfold put_list.
  destruct (Spec.find_from (by_mac mac) 0 l) as [[i e]|] eqn:Hf.
  - apply find_from_lt in Hf as (Hi & He & Hmac).
    assert (arp_mac e = mac) as Hem.
    { apply match_mac_true; [|apply Hm|done]. apply (Forall_lookup_1 _ _ _ _ Hl He). }
    assert (Forall (λ e, arp_ip e = ip → arp_mac e = mac)
      (<[i := ArpEntry ip (arp_mac e) tv]> l)) as Hall.
    { apply Forall_insert; [|done]. apply Hother. apply list_elem_of_fmap.
      exists e. split; [done|]. by eapply list_elem_of_lookup_2. }
    destruct (Spec.find_from (by_ip ip) 0 _) as [[j e']|] eqn:Hf'.
    + exists j, e'. split; [done|]. apply find_from_lt in Hf' as (_ & He' & Hip).
      apply (Forall_lookup_1 _ _ _ _ Hall He'). by apply Z.eqb_eq.
    + apply find_from_None in Hf'.
      pose proof (list_lookup_insert_eq l i (ArpEntry ip (arp_mac e) tv) Hi) as Hlk.
      apply (Forall_lookup_1 _ _ _ _ Hf') in Hlk. unfold by_ip in Hlk. simpl in Hlk. lia.
  - destruct (Spec.find_from (by_ip ip) 0 l) as [[i e]|] eqn:Hf2.
    + exists i, (ArpEntry (arp_ip e) mac tv). split; [|done].
      apply find_from_Some in Hf2 as (k & -> & Hk & Hip & Hmin). simpl.
      apply find_from_Some. exists k. split_and!; [done| |done|].
      * apply list_lookup_insert_eq. by eapply lookup_lt_Some.
      * intros k' y Hlt Hy. rewrite list_lookup_insert_ne in Hy by lia. by eapply Hmin.
    + exists (length l), (ArpEntry ip mac tv). split; [|done].
      apply find_from_Some. exists (length l). split_and!; [done| | |].
      * by rewrite list_lookup_middle.
      * apply Z.eqb_refl.
      * intros k' y Hlt Hy. rewrite lookup_app_l in Hy by done.
        apply find_from_None in Hf2. exact (Forall_lookup_1 _ _ _ _ Hf2 Hy).
Qed.

Lemma lookup_arp_ip_spec ip w :
  wf_cache (arp_cache (w_router w)) →
  ∃ q, wf_cache q ∧ packet q = cache_of w ∧
    lookup_arp_ip ip w = Ok (Spec.find_from (by_ip ip) 0 (cache_of w))
                            (set_w_router (set_arp_cache q (w_router w)) w).
Proof.
  intros Hw. unfold lookup_arp_ip, cache_of. mrun.
  destruct (search_spec _ (by_ip ip) _ Hw) as (q1 & E1 & Hw1 & Hp1).
  change (queue_foreach _ _ _ _) with (arp_getcachebyip (arp_cache (w_router w)) ip) in E1.
  mstep E1. mrun. by exists q1.
Qed.

Lemma update_cache_remove p w :
  wf_cache (arp_cache (w_router w)) →
  ∃ w', update_cache (remove_body p) w = Ok tt w' ∧ cache_changed w w' ∧
        wf_cache (arp_cache (w_router w')) ∧ cache_of w' = Spec.remove_skip p (cache_of w).
Proof.
  intros Hw. unfold update_cache, cache_of. mrun.
  destruct (remove_spec _ p _ Hw) as (q1 & E1 & Hw1 & Hp1). mstep E1.
  eexists. split_and!; [reflexivity| |done..]. exists q1, (w_ticks w). by destruct w.
Qed.

Definition expired (now : Z) (e : arp_cache_entry) : bool :=
  negb (tv_sec (arp_tv e) =? -1) && (tv_sec (arp_tv e) - now <=? 0).

(** The pruning loop is never entered: its bound is negative. *)
Lemma threshold_loop_idle fuel q t c :
  ARP_THRESHOLD < size q → threshold_loop fuel 0 q t c = Some (q, (t, c)).
Proof.
  intros Hs. destruct fuel; cbn [threshold_loop]; [done|].
  rewrite (proj2 (Z.ltb_ge _ _)) by lia. done.
Qed.

Lemma arp_maintain_cache_round_spec now w :
  wf_cache (arp_cache (w_router w)) → (∀ n, tv_sec (w_clock w n) = now) →
  ∃ w', arp_maintain_cache_round w = Ok tt w' ∧ cache_changed w w' ∧
        wf_cache (arp_cache (w_router w')) ∧
        cache_of w' = Spec.remove_skip (expired now) (cache_of w).
Proof.
  intros Hw Hnow. unfold arp_maintain_cache_round, cache_of. mrun.
  destruct (queue_foreach_visit _ (expire_body (w_clock w)) _ (w_ticks w, false) Hw)
    as (q1 & E1 & Hw1 & Hp1). mstep E1. cbn [fst snd].
  rewrite (visit_remove_gen (expired now)) in Hp1; last first.
  { intros i x [t c]. unfold expire_body, expired. simpl. rewrite Hnow. by destruct (_ && _). }
  set (s := (Spec.visit _ _ _ _).2). destruct s as [t c].
  destruct (Z.ltb_spec ARP_THRESHOLD (size q1)).
  - mstep (threshold_loop_idle (Z.to_nat (size q1)) q1 t c ltac:(done)).
    eexists. split_and!; [reflexivity|by eexists _, _|done..].
  - mrun. eexists. split_and!; [reflexivity|by eexists _, _|done..].
Qed.

(** A lookup answers from the list and changes nothing but mutexes. *)
Lemma lookup_arp_ip_equiv ip w :
  wf_cache (arp_cache (w_router w)) →
  ∃ w', lookup_arp_ip ip w = Ok (Spec.find_from (by_ip ip) 0 (cache_of w)) w' ∧ w' ≡ w.
Proof.
  intros Hw. destruct (lookup_arp_ip_spec ip w Hw) as (q & Hq & Hp & E).
  eexists. split; [exact E|]. destruct (wf_same_sizes _ _ _ Hq Hw Hp).
  by apply set_arp_cache_equiv.
Qed.

Lemma wf_cache_equiv w w' :
  w ≡ w' → wf_cache (arp_cache (w_router w)) → wf_cache (arp_cache (w_router w')).
Proof. intros H%erase_router_eq. apply wf_erase. exact (f_equal arp_cache H). Qed.
