(* ===== verification/Routing.v ===== *)
(** The routing table (ip.c, sr_router.c, sr_integration.c).

    The table is the queue [ip_table] of the router.  The lookup scans it and
    keeps the matching entry with the numerically greatest netmask; the
    theorems show that on prefix masks, read in the byte order the code keeps
    them in, that is the longest prefix. *)

From stdpp Require Import base tactics list numbers strings.
From Stdlib Require Import ZArith Lia.
From S2P Require Import Prelude Dataqueue Common Packets State Loops Ethernet Arp.

Local Open Scope Z_scope.

(** The loop state is [maxmatch] (an [int]) and the index and copy of the best
    entry so far; [maxmatch < entry->netmask] compares unsigned values. *)
Definition lpm_body (ip : Z) (i : nat) (entry : rtable_entry)
    (s : Z * option (nat * rtable_entry))
  : verdict rtable_entry * (Z * option (nat * rtable_entry)) :=
  if Z.land ip (netmask entry) =? Z.land (subnet entry) (netmask entry) then
    if u32 s.1 <? netmask entry then (Unlock entry, (s32 (netmask entry), Some (i, entry)))
    else (Unlock entry, s)
  else (Unlock entry, s).

(** [None] for the answer -1. *)
Definition ip_longestprefixmatch (table : dataqueue rtable_entry) (ip : Z)
  : option (dataqueue rtable_entry * option (nat * rtable_entry)) :=
  res ← queue_foreach sizeof_rtable_entry (lpm_body ip) table (0, None);
  Some (res.1, res.2.2).

Definition lookup_route (ip : Z) : M (option (nat * rtable_entry)) :=
  r ← get_router;
  res ← from_option_M AssertFailed (ip_longestprefixmatch (ip_table r) ip);
  modify_router (set_ip_table res.1);;
  mret res.2.

Definition ip_directmatch (table : dataqueue rtable_entry) (ip : Z)
  : option (dataqueue rtable_entry * option (nat * rtable_entry)) :=
  queue_foreach sizeof_rtable_entry (search_body (λ e, subnet e =? ip)) table None.

(** [existing] is a local struct, whose padding is unspecified. *)
Definition ip_putintable (subnet_ : Z) (intf : nat) (mask : Z) (dyn : bool) (metric_ ip : Z)
  : M unit :=
  r ← get_router;
  res ← from_option_M AssertFailed (ip_directmatch (ip_table r) subnet_);
  modify_router (set_ip_table res.1);;
  pad ← junk32;
  let add pad := modify_router (λ r, set_ip_table
    (queue_add (ip_table r) (RtEntry ip subnet_ mask intf metric_ dyn pad) sizeof_rtable_entry) r)
  in
  match res.2 with
  | Some (_, existing) =>
      if bool_decide (rt_interface existing = intf) then mret tt else add (rt_pad existing)
  | None => add pad
  end.

Definition router_lookup_interface_via_ip (ip : Z) : M (option nat) :=
  found ← lookup_route ip;
  mret (match found with Some (_, e) => Some (rt_interface e) | None => None end).

(** 0 when there is no route. *)
Definition sr_integ_findsrcip (dest : Z) : M Z :=
  found ← lookup_route dest;
  match found with
  | None => mret 0
  | Some (_, e) => i ← get_interface (rt_interface e); mret (if_ip i)
  end.

(** The routes registered at start-up: one per interface. *)
Definition sr_integ_hw_setup_routes : M unit :=
  r ← get_router;
  foldr (λ p rest,
           ip_putintable (Z.land (if_ip p.2) (if_subnet_mask p.2)) p.1 (if_subnet_mask p.2)
             false 0 0;; rest)
        (mret tt) (zip (seq 0 (length (interfaces r))) (interfaces r)).

(** Printing dereferences the interface of every entry. *)
Definition ip_print_table : M unit :=
  r ← get_router;
  res ← for_locked_M sizeof_rtable_entry
    (λ i entry s, get_interface (rt_interface entry);; mret s) (ip_table r) tt;
  modify_router (set_ip_table res.1).

(** * Theory *)

Definition wf_table (q : dataqueue rtable_entry) : Prop :=
  wf_queue sizeof_rtable_entry q ∧ Forall (λ e, is_u32 (netmask e)) (packet q).

Definition matches (ip : Z) (e : rtable_entry) : bool :=
  Z.land ip (netmask e) =? Z.land (subnet e) (netmask e).

(** What a lookup promises: the first entry of greatest non-zero netmask among
    the matching ones. *)
Definition best_match (ip : Z) (l : list rtable_entry) (r : option (nat * rtable_entry)) : Prop :=
  match r with
  | Some (i, e) =>
      l !! i = Some e ∧ matches ip e = true ∧ 0 < netmask e ∧
      (∀ j e', l !! j = Some e' → matches ip e' = true →
               netmask e' <= netmask e ∧ ((j < i)%nat → netmask e' < netmask e))
  | None => ∀ j e', l !! j = Some e' → matches ip e' = true → netmask e' = 0
  end.

Lemma u32_s32 x : is_u32 x → u32 (s32 x) = x.
Proof.
  intros Hx. unfold s32. rewrite (u32_small x) by done.
  destruct (Z.ltb_spec x 2147483648); [by apply u32_small|]. width_lia.
Qed.

(** Loop invariant: after a prefix [pre] the state describes its best match. *)
Definition lpm_inv (ip : Z) (pre : list rtable_entry) (s : Z * option (nat * rtable_entry)) : Prop :=
  best_match ip pre s.2 ∧ u32 s.1 = match s.2 with Some (_, e) => netmask e | None => 0 end.

Lemma lpm_step ip pre e s :
  is_u32 (netmask e) → lpm_inv ip pre s →
  (lpm_body ip (length pre) e s).1 = Unlock e ∧
  lpm_inv ip (pre ++ [e]) (lpm_body ip (length pre) e s).2.
Proof.
  intros He [Hb Hu]. unfold lpm_body. fold (matches ip e).
  assert (∀ j e', (pre ++ [e]) !! j = Some e' →
            pre !! j = Some e' ∨ (j = length pre ∧ e' = e)) as Hsnoc.
  { intros j e' [|[Hge Hj]]%lookup_app_Some; [by left|]. right.
    apply list_lookup_singleton_Some in Hj as [? <-]. split; [lia|done]. }
  destruct (matches ip e) eqn:Hm; [destruct (Z.ltb_spec (u32 s.1) (netmask e)) as [Hlt|Hge]|];
    (split; [done|]); unfold lpm_inv; cbn [fst snd].
  - rewrite u32_s32 by done. split; [|done]. simpl.
    assert (0 <= u32 s.1) by (pose proof (u32_range s.1); unfold is_u32 in *; lia).
    split_and!; [by rewrite list_lookup_middle|done|lia|].
    intros j e' [Hj|[-> ->]]%Hsnoc Hm'; [|split; [lia|intros; lia]].
    destruct (s.2) as [[i b]|]; simpl in *.
    + destruct Hb as (_ & _ & _ & Hmax). destruct (Hmax _ _ Hj Hm'). lia.
    + specialize (Hb _ _ Hj Hm'). lia.
  - split; [|done]. destruct (s.2) as [[i b]|]; simpl in *.
    + destruct Hb as (Hi & Hbm & Hpos & Hmax).
      split_and!; [by apply lookup_app_l_Some|done..|].
      intros j e' [Hj|[-> ->]]%Hsnoc Hm'; [by apply Hmax|].
      apply lookup_lt_Some in Hi. split; lia.
    + intros j e' [Hj|[-> ->]]%Hsnoc Hm'; [by eapply Hb|]. unfold is_u32 in He. lia.
  - split; [|done]. destruct (s.2) as [[i b]|]; simpl in *.
    + destruct Hb as (Hi & Hbm & Hpos & Hmax).
      split_and!; [by apply lookup_app_l_Some|done..|].
      intros j e' [Hj|[-> ->]]%Hsnoc Hm'; [by apply Hmax|congruence].
    + intros j e' [Hj|[-> ->]]%Hsnoc Hm'; [by eapply Hb|congruence].
Qed.

Lemma lpm_visit ip pre l s :
  Forall (λ e, is_u32 (netmask e)) l → lpm_inv ip pre s →
  (Spec.visit (lpm_body ip) (length pre) l s).1 = l ∧
  lpm_inv ip (pre ++ l) (Spec.visit (lpm_body ip) (length pre) l s).2.
Proof.
  revert pre s. induction l as [|e l IH]; intros pre s Hl Hs; simpl.
  { by rewrite app_nil_r. }
  inversion_clear Hl as [|? ? He Hl'].
  destruct (lpm_step ip pre e s He Hs) as [Hv Hinv].
  destruct (lpm_body ip (length pre) e s) as [v s']. simpl in *. subst v. simpl.
  destruct (IH (pre ++ [e]) s' Hl' Hinv) as [H1 H2].
  rewrite length_app, Nat.add_1_r in H1, H2. rewrite <-app_assoc in H2.
  split; [by rewrite H1|done].
Qed.

Lemma ip_longestprefixmatch_spec q ip :
  wf_table q →
  ∃ q' r, ip_longestprefixmatch q ip = Some (q', r) ∧ wf_table q' ∧ packet q' = packet q ∧
          best_match ip (packet q) r.
Proof.
  intros [Hw Hm]. unfold ip_longestprefixmatch.
  destruct (queue_foreach_visit _ (lpm_body ip) q (0, None) Hw) as (q' & E & Hw' & Hp).
  destruct (lpm_visit ip [] (packet q) (0, None) Hm) as [H1 [H2 _]].
  { split; [|done]. intros j e' H. by rewrite lookup_nil in H. }
  simpl in H1, H2. rewrite H1 in Hp. rewrite E. simpl. eexists _, _.
  split_and!; [done| |done|done]. split; [done|by rewrite Hp].
Qed.

Lemma lookup_route_spec ip w :
  wf_table (ip_table (w_router w)) →
  ∃ q r, wf_table q ∧ packet q = packet (ip_table (w_router w)) ∧
    best_match ip (packet (ip_table (w_router w))) r ∧
    lookup_route ip w = Ok r (set_w_router (set_ip_table q (w_router w)) w).
Proof.
  intros Hw. destruct (ip_longestprefixmatch_spec _ ip Hw) as (q' & r & E & ? & ? & ?).
  unfold lookup_route. mrun. mstep E. mrun. by exists q', r.
Qed.

(** ** Prefix masks *)

(** The mask of a prefix of length [n] as the code holds it: network byte order
    read on a little-endian host. *)
Definition prefix_mask (n : nat) : Z := swap32 (4294967296 - 2 ^ (32 - Z.of_nat n)).

Example prefix_mask_24 : prefix_mask 24 = IP_CONVERT 255 255 255 0.
Proof. reflexivity. Qed.

Lemma prefix_mask_mono_check :
  forallb (λ n, forallb (λ m, (n <? m)%nat || (prefix_mask m <=? prefix_mask n) &&
      ((m =? n)%nat || (prefix_mask m <? prefix_mask n))) (seq 0 33)) (seq 0 33) = true.
Proof. vm_compute. reflexivity. Qed.

(** Numeric order of the masks is order of the prefix lengths. *)
Lemma prefix_mask_lt m n : (m <= 32)%nat → (n <= 32)%nat →
  prefix_mask m < prefix_mask n ↔ (m < n)%nat.
Proof.
  assert (∀ a b, (a < b)%nat → (b <= 32)%nat → prefix_mask a < prefix_mask b) as Hlt.
  { intros a b Hab Hb. pose proof prefix_mask_mono_check as Hc.
    rewrite forallb_forall in Hc. specialize (Hc b ltac:(apply in_seq; lia)).
    rewrite forallb_forall in Hc. specialize (Hc a ltac:(apply in_seq; lia)).
    destruct (Nat.ltb_spec b a); [lia|]. simpl in Hc.
    apply andb_true_iff in Hc as [_ Hc]. destruct (Nat.eqb_spec a b); [lia|].
    simpl in Hc. by apply Z.ltb_lt. }
  intros Hm Hn. split; [|by intros; apply Hlt].
  intros H. destruct (Nat.lt_trichotomy m n) as [?|[->|?]]; [done|lia|].
  specialize (Hlt n m ltac:(done) ltac:(done)). lia.
Qed.

Lemma prefix_mask_zero n : (n <= 32)%nat → prefix_mask n = 0 ↔ n = 0%nat.
Proof.
  intros Hn. split; [|by intros ->]. intros H0. destruct n; [done|].
  pose proof (proj2 (prefix_mask_lt 0 (S n) ltac:(lia) Hn) ltac:(lia)) as H.
  change (prefix_mask 0) with 0 in H. lia.
Qed.

(** ** Printing the table *)

(** Every entry names an interface of the router. *)
Definition routes_bound (n : nat) (l : list rtable_entry) : Prop :=
  Forall (λ e, (rt_interface e < n)%nat) l.

Lemma ip_print_table_ok w :
  wf_table (ip_table (w_router w)) →
  routes_bound (length (interfaces (w_router w))) (packet (ip_table (w_router w))) →
  ∃ q, wf_table q ∧ packet q = packet (ip_table (w_router w)) ∧
       ip_print_table w = Ok tt (set_w_router (set_ip_table q (w_router w)) w).
Proof.
  intros [Hw Hm] Hb. unfold ip_print_table. mrun.
  set (body := λ (i : nat) (entry : rtable_entry) (s : unit), _).
  destruct (for_locked_M_spec _ body _ tt w Hw) as (q & Hwq & Hp & E).
  destruct (for_array_inv (λ k s w', w' = w) body (packet (ip_table (w_router w))) 0 tt w)
    as ([] & w' & E' & ->); [done| |].
  - intros k e s w1 Hk ->. unfold body, get_interface. mrun.
    destruct (lookup_lt_is_Some_2 (interfaces (w_router w)) (rt_interface e)) as [x Hx].
    { exact (Forall_lookup_1 _ _ _ _ Hb Hk). }
    mstep Hx. eauto.
  - rewrite E' in E. mstep E. exists q. split_and!; [split; [done|by rewrite Hp]|done|done].
Qed.

(** ** Lookups change nothing but mutexes *)

Lemma lookup_route_equiv ip w :
  wf_table (ip_table (w_router w)) →
  ∃ r w', lookup_route ip w = Ok r w' ∧ w' ≡ w ∧ best_match ip (table_of w) r.
Proof.
  intros Hw. destruct (lookup_route_spec ip w Hw) as (q & r & Hq & Hp & Hb & E).
  exists r. eexists. split_and!; [exact E| |done].
  destruct (wf_same_sizes _ _ _ (proj1 Hq) (proj1 Hw) Hp). by apply set_ip_table_equiv.
Qed.

Lemma wf_table_equiv w w' :
  w ≡ w' → wf_table (ip_table (w_router w)) → wf_table (ip_table (w_router w')).
Proof.
  intros H [Hq Hm]. split.
  - apply erase_router_eq in H. eapply wf_erase; [|exact Hq]. exact (f_equal ip_table H).
  - change (Forall (λ e, is_u32 (netmask e)) (table_of w')). by rewrite <-H.
Qed.

(** The best match is unique. *)
Lemma best_match_unique ip l r r' : best_match ip l r → best_match ip l r' → r = r'.
Proof.
  destruct r as [[i e]|], r' as [[i' e']|]; simpl; [..|done].
  - intros (Hi & Hm & _ & Hmax) (Hi' & Hm' & _ & Hmax').
    destruct (Hmax _ _ Hi' Hm') as [H1 H2], (Hmax' _ _ Hi Hm) as [H3 H4].
    assert (i = i') as <- by lia. by simplify_eq.
  - intros (Hi & Hm & Hp & _) H. specialize (H _ _ Hi Hm). lia.
  - intros H (Hi & Hm & Hp & _). specialize (H _ _ Hi Hm). lia.
Qed.
