(* ===== verification/Ping.v ===== *)
(** Outstanding echo requests of the command line (cli/cli_ping.c).

    The doubly linked list [ping_list] is the list of its nodes from the head
    on; its order is the order of expiration.  This file models the insertion
    of a new request, the matching of a reply and one round of the scrubber
    thread; [cli_ping_request], which also sends the request through the
    router, is in the file Ip.  Every call of [cli_ping_feedback] reads the
    clock and is recorded in [feedback]. *)

From stdpp Require Import base tactics list numbers strings.
From Stdlib Require Import ZArith Lia Sorted.
From S2P Require Import Prelude Dataqueue Common Packets State.

Local Open Scope Z_scope.

Definition PING_ID : Z := 3.
Definition PING_MAX_WAIT_FOR_REPLY_USEC : Z := 1000000.
Definition PING_HANDLER_MIN_RESPONSE_TIME_USEC : Z := 100000.

Definition get_cli : M cli := λ w, Ok (w_cli w) w.
Definition modify_cli (f : cli → cli) : M unit := λ w, Ok tt (set_w_cli (f (w_cli w)) w).

Definition cli_ping_init : M unit := modify_cli (set_ping_list []).

(** The cleanup loop of [cli_ping_destroy]. *)
Definition cli_ping_destroy : M unit := modify_cli (set_ping_list []).

(** The new node goes before the first one that expires later, or at the end. *)
Fixpoint insert_ping (p_new : ping) (l : list ping) : list ping :=
  match l with
  | [] => [p_new]
  | p :: rest =>
      if is_later (expire_time p) (expire_time p_new) then p_new :: p :: rest
      else p :: insert_ping p_new rest
  end.

(** The second half of [cli_ping_request], after the request went out. *)
Definition enqueue_ping (fd ip : Z) : M unit :=
  c ← get_cli;
  modify_cli (set_ping_count (u16 (ping_count c + 1)));;
  send ← gettimeofday;
  expire ← gettimeofday;
  let p_new := Ping fd ip (htons (ping_count c)) send
                 (time_add_usec expire PING_MAX_WAIT_FOR_REPLY_USEC) in
  modify_cli (λ c, set_ping_list (insert_ping p_new (ping_list c)) c).

Definition cli_ping_feedback (p : ping) (worked : bool) : M unit :=
  gettimeofday;;
  modify_cli (λ c, set_feedback
    (feedback c ++ [if worked then PingReply p else PingTimeout p]) c).

(** The node found by the search and the list without it. *)
Fixpoint unlink_ping (ip seq : Z) (l : list ping) : option (ping * list ping) :=
  match l with
  | [] => None
  | p :: rest =>
      if (ping_dst_ip p =? ip) && (ping_seq p =? seq) then Some (p, rest)
      else '(q, rest') ← unlink_ping ip seq rest; Some (q, p :: rest')
  end.

(** The result is 0 also when the reply matched the last outstanding request. *)
Definition cli_ping_handle_reply (ip seq : Z) : M Z :=
  c ← get_cli;
  if router_shutdown c then mret 0
  else
    match unlink_ping ip seq (ping_list c) with
    | Some (p, rest) =>
        modify_cli (set_ping_list rest);;
        cli_ping_feedback p true;;
        mret (match rest with [] => 0 | _ :: _ => 1 end)
    | None => mret 0
    end.

(** [while (is_later(&now, &ping_list->expire_time))]. *)
Fixpoint scrub_expired (now : timeval) (l : list ping) : M unit :=
  match l with
  | [] => modify_cli (set_ping_list [])
  | p :: rest =>
      if is_later now (expire_time p) then
        cli_ping_feedback p false;; scrub_expired now rest
      else modify_cli (set_ping_list (p :: rest))
  end.

(** The time the scrubber sleeps after a round. *)
Definition scrub_timeout (now expire : timeval) : timeval :=
  let sec := tv_sec now - tv_sec expire in
  let usec := tv_usec now - tv_usec expire in
  if (0 <? sec) || (PING_HANDLER_MIN_RESPONSE_TIME_USEC <? usec)
  then Timeval 0 PING_HANDLER_MIN_RESPONSE_TIME_USEC
  else Timeval sec usec.

(** One round of the inner loop of [cli_ping_scrubber_main]: the timeout of the
    [select] it ends with, [None] when it waits for new requests. *)
Definition cli_ping_scrubber_round : M (option timeval) :=
  c ← get_cli;
  match ping_list c with
  | [] => mret None
  | l =>
      if router_shutdown c then mret None
      else
        now ← gettimeofday;
        scrub_expired now l;;
        c ← get_cli;
        mret (match ping_list c with
              | [] => None
              | p :: _ => Some (scrub_timeout now (expire_time p))
              end)
  end.

(** * Theory *)

Definition expires_no_later (p q : ping) : Prop :=
  is_later (expire_time p) (expire_time q) = false.

Abbreviation pings_sorted := (StronglySorted expires_no_later).

Definition wf_time (t : timeval) : Prop := 0 <= tv_usec t < 1000000.

Lemma is_later_iff t1 t2 :
  is_later t1 t2 = true ↔
  tv_sec t2 < tv_sec t1 ∨ (tv_sec t1 = tv_sec t2 ∧ tv_usec t2 < tv_usec t1).
Proof.
  unfold is_later. rewrite orb_true_iff, andb_true_iff, !Z.ltb_lt, Z.eqb_eq. done.
Qed.

Lemma is_later_false_iff t1 t2 :
  is_later t1 t2 = false ↔
  tv_sec t1 < tv_sec t2 ∨ (tv_sec t1 = tv_sec t2 ∧ tv_usec t1 <= tv_usec t2).
Proof.
  rewrite <-not_true_iff_false, is_later_iff. lia.
Qed.

Lemma is_later_trans_false t1 t2 t3 :
  is_later t1 t2 = false → is_later t2 t3 = false → is_later t1 t3 = false.
Proof. rewrite !is_later_false_iff. lia. Qed.

Lemma is_later_asym t1 t2 : is_later t1 t2 = true → is_later t2 t1 = false.
Proof. rewrite is_later_iff, is_later_false_iff. lia. Qed.

Lemma insert_ping_Permutation p l : insert_ping p l ≡ₚ p :: l.
Proof.
  induction l as [|q l IH]; [done|]. cbn [insert_ping]. destruct (is_later _ _); [done|].
  rewrite IH. constructor.
Qed.

Lemma insert_ping_sorted p l : pings_sorted l → pings_sorted (insert_ping p l).
Proof.
  induction 1 as [|q l Hl IH Hq]; cbn [insert_ping]; [by repeat constructor|].
  destruct (is_later _ _) eqn:E.
  - constructor; [by constructor|]. constructor; [by apply is_later_asym|].
    eapply Forall_impl; [exact Hq|]. intros x Hx.
    eapply is_later_trans_false; [|exact Hx]. by apply is_later_asym.
  - constructor; [done|]. rewrite insert_ping_Permutation. by constructor.
Qed.

Lemma unlink_ping_Some ip seq l p rest :
  unlink_ping ip seq l = Some (p, rest) →
  ping_dst_ip p = ip ∧ ping_seq p = seq ∧ ∃ l1 l2, l = l1 ++ p :: l2 ∧ rest = l1 ++ l2 ∧
    Forall (λ q, ¬ (ping_dst_ip q = ip ∧ ping_seq q = seq)) l1.
Proof.
  revert rest. induction l as [|q l IH]; intros rest; cbn [unlink_ping]; [done|].
  destruct (_ && _) eqn:E.
  - intros [= -> ->]. apply andb_true_iff in E as [?%Z.eqb_eq ?%Z.eqb_eq].
    split_and!; [done..|]. by exists [], rest.
  - destruct (unlink_ping ip seq l) as [[q' rest']|] eqn:Hu; [|done]. simpl. intros [= -> <-].
    destruct (IH _ eq_refl) as (? & ? & l1 & l2 & -> & -> & Hl1).
    split_and!; [done..|]. exists (q :: l1), l2. split_and!; [done..|].
    constructor; [|done]. intros [?%Z.eqb_eq ?%Z.eqb_eq]. apply andb_false_iff in E as [|]; congruence.
Qed.

Lemma unlink_ping_None ip seq l :
  unlink_ping ip seq l = None →
  Forall (λ q, ¬ (ping_dst_ip q = ip ∧ ping_seq q = seq)) l.
Proof.
  induction l as [|q l IH]; cbn [unlink_ping]; [done|]. destruct (_ && _) eqn:E; [done|].
  destruct (unlink_ping ip seq l) as [[]|]; [done|]. intros _. constructor; [|by apply IH].
  intros [?%Z.eqb_eq ?%Z.eqb_eq]. apply andb_false_iff in E as [|]; congruence.
Qed.

Lemma StronglySorted_middle {A} (R : A → A → Prop) l1 x l2 :
  StronglySorted R (l1 ++ x :: l2) → StronglySorted R (l1 ++ l2).
Proof.
  induction l1 as [|y l1 IH]; simpl; [by inversion 1|].
  inversion_clear 1 as [|? ? H1 H2]. constructor; [by apply IH|].
  rewrite Forall_app, Forall_cons in *. naive_solver.
Qed.

(** The scrubber drops the expired prefix and reports each of its nodes. *)
Fixpoint drop_expired (now : timeval) (l : list ping) : list ping * list ping :=
  match l with
  | [] => ([], [])
  | p :: rest =>
      if is_later now (expire_time p) then (p :: (drop_expired now rest).1, (drop_expired now rest).2)
      else ([], p :: rest)
  end.

Definition cli_after (w : world) (l : list ping) (evs : list ping_event) (n : nat) : world :=
  set_w_ticks (w_ticks w + n)
    (set_w_cli (Cli l (ping_count (w_cli w)) (router_shutdown (w_cli w))
                  (feedback (w_cli w) ++ evs)) w).

Lemma scrub_expired_spec now l w :
  scrub_expired now l w
  = Ok tt (cli_after w (drop_expired now l).2 (PingTimeout <$> (drop_expired now l).1)
             (length (drop_expired now l).1)).
Proof.
  revert w. induction l as [|p l IH]; intros w.
  { unfold cli_after. destruct w as [? ? ? [] ? ? ? ? ? ?]. simpl. unfold modify_cli.
    simpl. by rewrite app_nil_r, Nat.add_0_r. }
  cbn [scrub_expired drop_expired]. destruct (is_later _ _).
  - unfold cli_ping_feedback. mrun. unfold modify_cli at 1. unfold mbind, M_bind at 1.
    rewrite IH. unfold cli_after. destruct w as [? ? ? [] ? ? ? ? ? ?]. simpl.
    rewrite <-app_assoc, Nat.add_succ_r. done.
  - unfold cli_after. destruct w as [? ? ? [] ? ? ? ? ? ?]. simpl. unfold modify_cli.
    simpl. by rewrite app_nil_r, Nat.add_0_r.
Qed.

Lemma drop_expired_app now l : (drop_expired now l).1 ++ (drop_expired now l).2 = l.
Proof.
  induction l as [|p l IH]; [done|]. cbn [drop_expired]. destruct (is_later _ _); [|done].
  simpl. by rewrite IH.
Qed.

Lemma drop_expired_expired now l :
  Forall (λ p, is_later now (expire_time p) = true) (drop_expired now l).1.
Proof.
  induction l as [|p l IH]; [done|]. cbn [drop_expired]. destruct (is_later _ _) eqn:E; [|done].
  by constructor.
Qed.

Lemma drop_expired_live now l :
  pings_sorted l → Forall (λ p, is_later now (expire_time p) = false) (drop_expired now l).2.
Proof.
  induction 1 as [|p l Hl IH Hp]; [done|]. cbn [drop_expired].
  destruct (is_later _ _) eqn:E; [done|]. constructor; [done|].
  eapply Forall_impl; [exact Hp|]. intros q Hq. by eapply is_later_trans_false.
Qed.

Lemma drop_expired_filter_live now l :
  pings_sorted l → (drop_expired now l).2 = filter (λ p, is_later now (expire_time p) = false) l.
Proof.
  intros Hs. rewrite <-(drop_expired_app now l) at 2. rewrite filter_app, filter_drop, filter_keep; [done| |].
  - by apply drop_expired_live.
  - eapply Forall_impl; [apply drop_expired_expired|]. cbn. congruence.
Qed.

Lemma drop_expired_filter_late now l :
  pings_sorted l → (drop_expired now l).1 = filter (λ p, is_later now (expire_time p) = true) l.
Proof.
  intros Hs. rewrite <-(drop_expired_app now l) at 2. rewrite filter_app, filter_keep, filter_drop.
  - by rewrite app_nil_r.
  - eapply Forall_impl; [by apply drop_expired_live|]. cbn. congruence.
  - apply drop_expired_expired.
Qed.
