(* ===== verification/IpHeader.v ===== *)
(** The IPv4 header (ip.c, sr_router.c): reading, checking, filling and
    printing.  The header lies behind the Ethernet header of every packet. *)

From stdpp Require Import base tactics list numbers strings.
From Stdlib Require Import ZArith Lia.
From S2P Require Import Prelude Dataqueue Common Packets State Loops Ethernet Arp Routing.

Local Open Scope Z_scope.

(** Offset of the IPv4 header and of its payload. *)
Definition IP_BASE : nat := sizeof packet_ethernet_t.
Definition L4_BASE : nat := (sizeof packet_ethernet_t + sizeof packet_ip4_t)%nat.

Definition ip_get (f : string) (p : list Z) : option Z := getf packet_ip4_t f p IP_BASE.
Definition ip_set (f : string) (p : list Z) (v : Z) : option (list Z) :=
  setf packet_ip4_t f p IP_BASE v.

(** The bit fields of the first byte. *)
Definition ip_version (b : Z) : Z := Z.shiftr b 4.
Definition ip_ihl (b : Z) : Z := Z.land b 15.
Definition put_version (b v : Z) : Z := Z.lor (Z.land b 15) (Z.shiftl (Z.land v 15) 4).
Definition put_ihl (b v : Z) : Z := Z.lor (Z.land b 240) (Z.land v 15).

Definition ip_set_version (p : list Z) (v : Z) : option (list Z) :=
  b ← ip_get "ihl_version" p; ip_set "ihl_version" p (put_version b v).

Definition ip_set_ihl (p : list Z) (v : Z) : option (list Z) :=
  b ← ip_get "ihl_version" p; ip_set "ihl_version" p (put_ihl b v).

(** [generatechecksum(ipv4, sizeof(packet_ip4_t))]. *)
Definition ip_checksum (p : list Z) : option Z := generatechecksum (drop IP_BASE p) 20.

(** [header_checksum = 0; header_checksum = generatechecksum(...)]. *)
Definition ip_fill_checksum (p : list Z) : option (list Z) :=
  p ← ip_set "header_checksum" p 0;
  c ← ip_checksum p;
  ip_set "header_checksum" p c.

Definition update_ip_packet_response (pi : packet_info) (dst_ip src_ip ttl : Z) : M packet_info :=
  p ← in_bounds (ip_set "dst_ip" (pi_packet pi) dst_ip);
  p ← in_bounds (ip_set "src_ip" p src_ip);
  p ← in_bounds (ip_set "ttl" p (u8 ttl));
  p ← in_bounds (ip_set "flags_fragmentoffset" p 0);
  w ← get_world;
  p ← in_bounds (ip_set "id" p (htons (w_ip_id w)));
  put_world (set_w_ip_id (u16 (w_ip_id w + 1)) w);;
  p ← in_bounds (ip_fill_checksum p);
  source ← in_bounds (getb packet_ethernet_t "source_mac" p 0);
  dest ← in_bounds (getb packet_ethernet_t "dest_mac" p 0);
  update_ethernet_header (with_packet p pi) source dest.

Definition generate_ipv4_header (src_ip datagram_size : Z) (p : list Z) (protocol dest : Z)
  : option (list Z) :=
  p ← ip_set_version p 4;
  p ← ip_set_ihl p 5;
  p ← ip_set "dscp_ecn" p 0;
  p ← ip_set "total_length" p (htons (u16 (20 + datagram_size)));
  p ← ip_set "id" p 0;
  p ← ip_set "flags_fragmentoffset" p 0;
  p ← ip_set "ttl" p 65;
  p ← ip_set "protocol" p (u8 protocol);
  p ← ip_set "header_checksum" p 0;
  p ← ip_set "src_ip" p src_ip;
  p ← ip_set "dst_ip" p dest;
  c ← ip_checksum p;
  ip_set "header_checksum" p c.

(** The length test compares the field, in network order, with the size of one
    byte. *)
Definition ip_header_check (p : list Z) : option bool :=
  b ← ip_get "ihl_version" p;
  if negb (ip_version b =? 4) then Some false
  else if negb (ip_ihl b =? 5) then Some false
  else
    total_length ← ip_get "total_length" p;
    if total_length <? 1 then Some false
    else
      c ← ip_checksum p;
      if negb (c =? 0) then Some false
      else
        fl ← ip_get "flags_fragmentoffset" p;
        if negb (Z.land (ntohs fl) 0x3FFF =? 0) then Some false
        else Some true.

(** What printing reads: the data up to the length the header claims. *)
Definition ip_print (p : list Z) : option unit :=
  protocol ← ip_get "protocol" p;
  total_length ← ip_get "total_length" p;
  _ ← ip_get "dst_ip" p;
  if protocol =? IP_TYPE_TCP then
    tcp ← get_bytes p L4_BASE 20;
    let offset := Z.land (nth 12 tcp 0) 15 in
    let datasize := ntohs total_length - 20 - 20 - offset in
    if 0 <? datasize
    then _ ← get_bytes p (L4_BASE + 20 + Z.to_nat offset) (Z.to_nat datasize); Some tt
    else Some tt
  else
    let datasize := ntohs total_length - 20 in
    if 0 <? datasize then _ ← get_bytes p L4_BASE (Z.to_nat datasize); Some tt else Some tt.

(** The source address -1 stands for that of the interface. *)
Definition NO_SRC : Z := u32 (-1).

(** A new packet of [size] bytes with its headers, [None] when there is no
    route to [dest]. *)
Definition packetinfo_ip_allocate (size dest src protocol total_length : Z)
  : M (option packet_info) :=
  p ← junk (Z.to_nat size);
  found ← lookup_route dest;
  match found with
  | None => mret None
  | Some (_, entry) =>
      intf ← get_interface (rt_interface entry);
      p ← in_bounds (setb packet_ethernet_t "source_mac" p 0 (if_mac intf));
      arp ← lookup_arp_ip dest;
      let dest_mac := match arp with Some (_, e) => arp_mac e | None => MAC_BROADCAST end in
      p ← in_bounds (setb packet_ethernet_t "dest_mac" p 0 dest_mac);
      p ← in_bounds (setf packet_ethernet_t "type" p 0 (htons ETH_IP_TYPE));
      p ← in_bounds (ip_set_ihl p 5);
      p ← in_bounds (ip_set_version p 4);
      p ← in_bounds (ip_set "dscp_ecn" p 0);
      p ← in_bounds (ip_set "total_length" p (htons (u16 total_length)));
      p ← in_bounds (ip_set "id" p 0);
      p ← in_bounds (ip_set "flags_fragmentoffset" p 0);
      p ← in_bounds (ip_set "ttl" p 65);
      p ← in_bounds (ip_set "protocol" p (u8 protocol));
      p ← in_bounds (ip_set "header_checksum" p 0);
      p ← in_bounds (ip_set "src_ip" p (if src =? NO_SRC then if_ip intf else src));
      p ← in_bounds (ip_set "dst_ip" p dest);
      c ← in_bounds (ip_checksum p);
      p ← in_bounds (ip_set "header_checksum" p c);
      mret (Some (PacketInfo p size (Some (rt_interface entry))))
  end.

(** * Theory *)

Lemma byte_cases (f : Z → bool) :
  forallb (λ n, f (Z.of_nat n)) (seq 0 256) = true → ∀ b, is_byte b → f b = true.
Proof.
  intros H b Hb. rewrite forallb_forall in H. specialize (H (Z.to_nat b)).
  unfold is_byte in Hb. rewrite Z2Nat.id in H by lia. apply H, in_seq. lia.
Qed.

(** Both orders of writing the bit fields give 0x45. *)
Lemma put_version_ihl b : is_byte b → put_ihl (put_version b 4) 5 = 69.
Proof.
  intros Hb. apply Z.eqb_eq.
  exact (byte_cases (λ b, put_ihl (put_version b 4) 5 =? 69) eq_refl b Hb).
Qed.

Lemma put_ihl_version b : is_byte b → put_version (put_ihl b 5) 4 = 69.
Proof.
  intros Hb. apply Z.eqb_eq.
  exact (byte_cases (λ b, put_version (put_ihl b 5) 4 =? 69) eq_refl b Hb).
Qed.

(** A packet that [ip_header_check] accepts. *)
Definition ip_accepted (p : list Z) : Prop := ip_header_check p = Some true.

Lemma ip_accepted_intro p tl :
  ip_get "ihl_version" p = Some 69 → ip_get "total_length" p = Some tl → 0 < tl →
  ip_get "flags_fragmentoffset" p = Some 0 → ip_checksum p = Some 0 → ip_accepted p.
Proof.
  intros H1 H2 Hp H3 H4. unfold ip_accepted, ip_header_check. rewrite H1. simpl.
  rewrite H2. simpl. destruct (Z.ltb_spec tl 1); [lia|]. rewrite H4. simpl. by rewrite H3.
Qed.

(** The checksum of the header depends on the bytes behind [IP_BASE]; a write
    of a header field is a write there. *)
Lemma drop_put_bytes buf off data buf' n :
  put_bytes buf off data = Some buf' → (n <= off)%nat →
  put_bytes (drop n buf) (off - n) data = Some (drop n buf').
Proof.
  unfold put_bytes. case_decide; [|done]. intros [= <-] Hn.
  rewrite decide_True by (rewrite length_drop; lia). f_equal.
  rewrite drop_app_le by (rewrite length_take; lia). rewrite skipn_firstn_comm, drop_drop.
  do 3 f_equal. lia.
Qed.

Lemma drop_get_bytes buf off k n :
  (n <= off)%nat → (off + k <= length buf)%nat →
  get_bytes (drop n buf) (off - n) k = get_bytes buf off k.
Proof.
  intros Hn Hk. rewrite !get_bytes_Some by (rewrite ?length_drop; lia).
  rewrite drop_drop. do 3 f_equal. lia.
Qed.

(** Filling the checksum field makes the header verify. *)
Lemma ip_fill_ok p c p' :
  bytes p → (34 <= length p)%nat → ip_get "header_checksum" p = Some 0 →
  ip_checksum p = Some c → ip_set "header_checksum" p c = Some p' → ip_checksum p' = Some 0.
Proof.
  intros Hb Hl Hz Hc Hs. unfold ip_checksum in *.
  eapply (checksum_fill (drop IP_BASE p) 20 10 c).
  - by apply Forall_drop.
  - lia.
  - rewrite length_drop. change IP_BASE with 14%nat. lia.
  - done.
  - lia.
  - unfold load. change 10%nat with (24 - 14)%nat. change IP_BASE with 14%nat.
    rewrite drop_get_bytes by lia. exact Hz.
  - exact Hc.
  - apply (drop_put_bytes _ 24 (le_split 2 c) p' 14) in Hs; [exact Hs|lia].
Qed.

Lemma ip_checksum_ok p : bytes p → (34 <= length p)%nat → ∃ c, ip_checksum p = Some c ∧ is_u16 c.
Proof.
  intros Hb Hl. unfold ip_checksum. eexists. split.
  - apply generatechecksum_sum; [by apply Forall_drop|lia|].
    rewrite length_drop. change IP_BASE with 14%nat. lia.
  - apply swap16_range.
Qed.

(** What a writer of a complete header leaves behind. *)
Record ip_written (p p' : list Z) (tl ttl proto src dst : Z) : Prop := {
  iw_length : length p' = length p;
  iw_bytes : bytes p';
  iw_before : take IP_BASE p' = take IP_BASE p;
  iw_after : drop L4_BASE p' = drop L4_BASE p;
  iw_vihl : ip_get "ihl_version" p' = Some 69;
  iw_tl : ip_get "total_length" p' = Some tl;
  iw_flags : ip_get "flags_fragmentoffset" p' = Some 0;
  iw_ttl : ip_get "ttl" p' = Some ttl;
  iw_proto : ip_get "protocol" p' = Some proto;
  iw_src : ip_get "src_ip" p' = Some src;
  iw_dst : ip_get "dst_ip" p' = Some dst;
  iw_checksum : ip_checksum p' = Some 0
}.

Ltac set_bytes :=
  repeat match goal with
  | H : setf _ _ ?q _ _ = Some ?p |- bytes ?p => apply (setf_bytes _ _ _ _ _ _ H)
  end.

Ltac set_outside :=
  repeat match goal with
  | H : setf _ _ ?q _ _ = Some ?p |- take _ ?p = _ =>
      rewrite (setf_take _ _ _ _ _ _ _ H) by lia
  | H : setf _ _ ?q _ _ = Some ?p |- drop _ ?p = _ =>
      rewrite (setf_drop _ _ _ _ _ _ _ H) by (cbn; lia)
  end.

(** Prove [ip_written] from the writes in the context, [Hc] and [Ep] being the
    computation and the write of the checksum. *)
Ltac header_written Hc Ep :=
  split;
  [ congruence | set_bytes; done | by set_outside | by set_outside
  | unfold ip_get; read_back; cbn; lia .. | ];
  eapply ip_fill_ok; [| | |exact Hc|exact Ep]; [set_bytes; done|lia|];
  unfold ip_get; read_back; cbn; lia.

Lemma generate_ipv4_header_spec src dsize p protocol dest :
  bytes p → (34 <= length p)%nat → is_u32 src → is_u32 dest →
  ∃ p', generate_ipv4_header src dsize p protocol dest = Some p' ∧
        ip_written p p' (htons (u16 (20 + dsize))) 65 (u8 protocol) src dest.
Proof.
  intros Hb Hl Hsrc Hdst. unfold generate_ipv4_header, ip_set_version, ip_set_ihl, ip_set, ip_get.
  destruct (getf_ok packet_ip4_t "ihl_version" p IP_BASE) as [b0 Hb0]; [cbn; lia|].
  pose proof (getf_range _ _ _ _ _ Hb Hb0) as Hr. change (256 ^ Z.of_nat _) with 256 in Hr.
  rewrite Hb0. cbn [mbind option_bind]. write_step.
  assert (0 <= put_version b0 4 < 256) as Hpv.
  { pose proof (byte_cases (λ b, (0 <=? put_version b 4) && (put_version b 4 <? 256)) eq_refl b0 Hr)
      as Hv. apply andb_true_iff in Hv as [?%Z.leb_le ?%Z.ltb_lt]. done. }
  assert (getf packet_ip4_t "ihl_version" p0 IP_BASE = Some (put_version b0 4)) as Hb1
    by by read_back.
  rewrite Hb1. cbn [mbind option_bind]. rewrite put_version_ihl by done.
  do 10 write_step.
  destruct (ip_checksum_ok p10) as (c & Hc & Hcr); [set_bytes; done|lia|].
  rewrite Hc. cbn [mbind option_bind].
  destruct (setf_ok packet_ip4_t "header_checksum" p10 IP_BASE c) as (p' & Ep & Lp); [cbn; lia|].
  exists p'. split; [exact Ep|].
  assert (is_u16 (htons (u16 (20 + dsize)))) as Htl by apply swap16_range.
  pose proof (u8_range protocol) as Hpr. unfold is_byte, is_u16, is_u32 in *.
  header_written Hc Ep.
Qed.
