(* ===== verification/Dijkstra.v ===== *)
(** Shortest paths and the rebuilding of the routing table (djikstra.c).

    The vertices of the graph are the known subnets, two subnets are joined
    when one router advertises both.  [djikstra_recompute] is split along its
    phases: collecting the advertisements, building the graph, one run of
    Dijkstra's algorithm per interface, the choice of the best interface per
    subnet, and the rebuilding of the table.  The code is that of the Mininet
    build, without the hardware tables. *)

From stdpp Require Import base tactics list numbers strings.
From Stdlib Require Import ZArith Lia.
From S2P Require Import Prelude Dataqueue Common Packets State Loops Ethernet Arp Routing.

Local Open Scope Z_scope.

(** * Dijkstra's algorithm on the adjacency matrix *)

Definition edge (graph : list (list Z)) (u v : nat) : Z := nth v (nth u graph []) 0.

(** [None]: [min_index] was never assigned. *)
Fixpoint minDistance_loop (n v : nat) (dist : list Z) (sptSet : list bool) (min : Z)
    (min_index : option nat) : option nat :=
  match n with
  | O => min_index
  | S n' =>
      if negb (nth v sptSet false) && (nth v dist 0 <=? min)
      then minDistance_loop n' (S v) dist sptSet (nth v dist 0) (Some v)
      else minDistance_loop n' (S v) dist sptSet min min_index
  end.

Definition minDistance (dist : list Z) (sptSet : list bool) (V : nat) : option nat :=
  minDistance_loop V 0 dist sptSet INT_MAX None.

(** The addition of two [int]s, which wraps when it overflows. *)
Definition int_add (a b : Z) : Z := s32 (a + b).

Definition relax (graph : list (list Z)) (sptSet : list bool) (u v : nat) (dist : list Z)
  : list Z :=
  if negb (nth v sptSet false) && negb (edge graph u v =? 0)
     && negb (nth u dist 0 =? INT_MAX) && (int_add (nth u dist 0) (edge graph u v) <? nth v dist 0)
  then <[v := int_add (nth u dist 0) (edge graph u v)]> dist
  else dist.

Fixpoint relax_loop (n v : nat) (graph : list (list Z)) (sptSet : list bool) (u : nat)
    (dist : list Z) : list Z :=
  match n with
  | O => dist
  | S n' => relax_loop n' (S v) graph sptSet u (relax graph sptSet u v dist)
  end.

(** The loop over [w]; [None] when [u] would be read uninitialised. *)
Fixpoint dijkstra_rounds (n V : nat) (graph : list (list Z)) (dist : list Z)
    (sptSet : list bool) : option (list Z * list bool) :=
  match n with
  | O => Some (dist, sptSet)
  | S n' =>
      u ← minDistance dist sptSet V;
      let sptSet := <[u := true]> sptSet in
      dijkstra_rounds n' V graph (relax_loop V 0 graph sptSet u dist) sptSet
  end.

Definition dijkstra_from (graph : list (list Z)) (V id : nat) : option (list Z) :=
  res ← dijkstra_rounds V V graph (<[id := 0]> (replicate V INT_MAX)) (replicate V false);
  Some res.1.

(** * Collecting the topology *)

Record gathered := Gathered {
  g_subnets : dataqueue d_link;
  g_topology : dataqueue pwospf_lsa_dj;
  g_routers : list Z
}.

(** [if (queue_existsunsafe(q, &x) == -1) queue_add(q, &x, sz)]. *)
Definition add_if_new {A} `{Memcmp A} (q : dataqueue A) (x : A) (sz : Z) : dataqueue A :=
  if queue_existsunsafe q x =? -1 then queue_add q x sz else q.

(** [entry->lsu_lastcontents[j]]. *)
Definition lsa_read (arr : lsa_array) (j : nat) : M pwospf_lsa :=
  match arr with
  | LsaNull => throw NullDeref
  | LsaFreed => throw UseAfterFree
  | LsaArray l => in_bounds (l !! j)
  end.

Definition gather_lsa (i : nat) (entry : pwospf_list_entry) (j : nat) (g : gathered)
  : M gathered :=
  lsa_entry ← lsa_read (lsu_lastcontents entry) j;
  let routers :=
    if immediate_neighbour entry =? 1 then <[i := neighbour_ip entry]> (g_routers g)
    else g_routers g in
  mret (Gathered
    (add_if_new (g_subnets g) (DLink (lsa_subnet lsa_entry) (lsa_netmask lsa_entry)) sizeof_d_link)
    (add_if_new (g_topology g) (LsaDj lsa_entry (neighbour_ip entry)) sizeof_pwospf_lsa_dj)
    routers).

Definition gather_neighbour (i : nat) (n : nat) (entry : pwospf_list_entry) (g : gathered)
  : M gathered :=
  match lsu_lastcontents entry with
  | LsaNull => mret g
  | _ => for_range (gather_lsa i entry) (Z.to_nat (lsu_lastcontents_count entry)) 0 g
  end.

Definition own_subnet (intf : interface) : d_link :=
  DLink (Z.land (if_subnet_mask intf) (if_ip intf)) (if_subnet_mask intf).

Definition gather_interface (router_id : Z) (i : nat) (intf : interface) (g : gathered)
  : M gathered :=
  let subnet := own_subnet intf in
  let lsa_entry := LsaDj (Lsa (dl_subnet subnet) (dl_netmask subnet) router_id) 0 in
  let g := Gathered (add_if_new (g_subnets g) subnet sizeof_d_link)
             (add_if_new (g_topology g) lsa_entry sizeof_pwospf_lsa_dj) (g_routers g) in
  for_unsafe sizeof_pwospf_list_entry (gather_neighbour i) (if_neighbours intf) g.

Definition djikstra_gather (r : router) : M gathered :=
  for_array (gather_interface (pw_router_id (pw_router r))) 0 (interfaces r)
    (Gathered queue_init queue_init (replicate (length (interfaces r)) 0)).

(** * The graph *)

Definition subnet_id (subnets : dataqueue d_link) (link : d_link) : M nat :=
  let id := queue_existsunsafe subnets link in
  assert_M (negb (id =? -1));;
  mret (Z.to_nat id).

Definition lsa_link (e : pwospf_lsa_dj) : d_link :=
  DLink (lsa_subnet (dj_lsa e)) (lsa_netmask (dj_lsa e)).

Definition set_edge (u v : nat) (graph : list (list Z)) : list (list Z) :=
  alter (λ row, <[v := 1]> row) u graph.

Definition connect (subnets : dataqueue d_link) (entry : pwospf_lsa_dj) (p : nat)
    (entry_t : pwospf_lsa_dj) (graph : list (list Z)) : M (list (list Z)) :=
  if (lsa_router_id (dj_lsa entry) =? lsa_router_id (dj_lsa entry_t))
     && negb (lsa_subnet (dj_lsa entry) =? lsa_subnet (dj_lsa entry_t)) then
    id1 ← subnet_id subnets (lsa_link entry);
    id2 ← subnet_id subnets (lsa_link entry_t);
    mret (set_edge id2 id1 (set_edge id1 id2 graph))
  else mret graph.

Definition djikstra_graph (subnets : dataqueue d_link) (topology : dataqueue pwospf_lsa_dj)
  : M (list (list Z)) :=
  let s := Z.to_nat (size subnets) in
  for_unsafe sizeof_pwospf_lsa_dj
    (λ k entry graph,
       for_unsafe_from sizeof_pwospf_lsa_dj (connect subnets entry)
         (Z.to_nat (size topology) - S k) (S k) topology graph)
    topology (replicate s (replicate s 0)).

(** * Best interface for every subnet *)

Record choice := Choice {
  c_final : list Z;
  c_intf : list Z;
  c_rips : list Z
}.

(** [if (dist[w] < final[w]) ...]. *)
Definition choose (intf : interface) (i : nat) (routers dist : list Z) (w : nat)
    (subnet : d_link) (c : choice) : choice :=
  if nth w dist 0 <? nth w (c_final c) 0 then
    Choice (<[w := nth w dist 0]> (c_final c)) (<[w := Z.of_nat i]> (c_intf c))
      (<[w := if dl_subnet subnet =? Z.land (if_subnet_mask intf) (if_ip intf) then 0
              else nth i routers 0]> (c_rips c))
  else c.

Definition choose_interface (g : gathered) (graph : list (list Z)) (i : nat) (intf : interface)
    (c : choice) : M choice :=
  id ← subnet_id (g_subnets g) (own_subnet intf);
  dist ← in_bounds (dijkstra_from graph (Z.to_nat (size (g_subnets g))) id);
  for_unsafe sizeof_d_link (λ w subnet c, mret (choose intf i (g_routers g) dist w subnet c))
    (g_subnets g) c.

(** [rips] is not initialised. *)
Definition junk_words (n : nat) : M (list Z) :=
  λ w, Ok (map (λ k, u32 (w_junk w k)) (seq 0 n)) w.

Definition djikstra_choose (r : router) (g : gathered) (graph : list (list Z)) : M choice :=
  let s := Z.to_nat (size (g_subnets g)) in
  rips ← junk_words s;
  for_array (choose_interface g graph) 0 (interfaces r)
    (Choice (replicate s INT_MAX) (replicate s INT_MAX) rips).

(** * The new table *)

(** Padding of the [k]-th freshly allocated entry. *)
Definition entry_pad (k : nat) : M Z := λ w, Ok (u32 (w_junk w k)) w.

Definition add_entry (r : router) (c : choice) (q : nat) (subnet : d_link)
    (entries : list rtable_entry) : M (list rtable_entry) :=
  let intf := nth q (c_intf c) 0 in
  if (0 <=? intf) && (intf <? Z.of_nat (length (interfaces r))) then
    i ← get_interface (Z.to_nat intf);
    if negb (Z.land (if_ip i) (if_subnet_mask i) =? dl_subnet subnet) then
      pad ← entry_pad (length entries);
      mret (entries ++ [RtEntry (nth q (c_rips c) 0) (dl_subnet subnet) (dl_netmask subnet)
                          (Z.to_nat intf) (nth q (c_final c) 0) true pad])
    else mret entries
  else mret entries.

Definition djikstra_entries (r : router) (g : gathered) (c : choice) : M (list rtable_entry) :=
  for_unsafe sizeof_d_link (add_entry r c) (g_subnets g) [].

(** Entries that are not dynamic are carried over. *)
Definition djikstra_static (rtable : dataqueue rtable_entry) (entries : list rtable_entry)
  : M (list rtable_entry) :=
  for_unsafe sizeof_rtable_entry
    (λ q entry_old entries, mret (if dynamic entry_old then entries else entries ++ [entry_old]))
    rtable entries.

Definition cmpfunc (p1 p2 : rtable_entry) : Z := if netmask p1 <=? netmask p2 then -1 else 1.

(** [qsort]: the stable order, which the merge sort of the GNU C library
    computes. *)
Fixpoint sort_insert {A} (cmp : A → A → Z) (x : A) (l : list A) : list A :=
  match l with
  | [] => [x]
  | y :: rest => if cmp x y <=? 0 then x :: y :: rest else y :: sort_insert cmp x rest
  end.

Fixpoint qsort {A} (cmp : A → A → Z) (l : list A) : list A :=
  match l with
  | [] => []
  | x :: rest => sort_insert cmp x (qsort cmp rest)
  end.

Definition fill_table (rtable : dataqueue rtable_entry) (entries : list rtable_entry)
  : dataqueue rtable_entry :=
  foldl (λ q e, if queue_existsunsafe q e =? -1 then queue_add_unsafe q e sizeof_rtable_entry
                else q) rtable entries.

Definition map_neighbours (f : dataqueue pwospf_list_entry → dataqueue pwospf_list_entry)
    (r : router) : router :=
  set_interfaces ((λ i, set_if_neighbours (f (if_neighbours i)) i) <$> interfaces r) r.

Definition djikstra_lock_router : M unit := modify_router (map_neighbours queue_lockall).
Definition djikstra_unlock_router : M unit := modify_router (map_neighbours queue_unlockall).

(** [free(entries)] frees an uninitialised pointer when there is no entry. *)
Definition djikstra_recompute : M unit :=
  djikstra_lock_router;;
  r ← get_router;
  g ← djikstra_gather r;
  graph ← djikstra_graph (g_subnets g) (g_topology g);
  c ← djikstra_choose r g graph;
  entries ← djikstra_entries r g c;
  let rtable := queue_lockall (ip_table r) in
  entries ← djikstra_static rtable entries;
  let entries := qsort cmpfunc entries in
  let rtable := queue_unlockall (fill_table (queue_purge_unsafe rtable) entries) in
  match entries with
  | [] => throw BadFree
  | _ => mret tt
  end;;
  modify_router (set_ip_table rtable);;
  ip_print_table;;
  djikstra_unlock_router.
