(* ===== verification/ShortestPath.v ===== *)
(** Dijkstra's algorithm as coded in djikstra.c computes hop distances.

    [walk] is reachability with a number of hops in the adjacency matrix;
    [dijkstra_from_correct] shows that the array the code computes holds, for
    every vertex, the length of a shortest walk from the source, or [INT_MAX]
    when there is none, and that the uninitialised index of [minDistance] is
    never used. *)

From stdpp Require Import base tactics list numbers strings.
From Stdlib Require Import ZArith Lia.
From S2P Require Import Prelude Dataqueue Common Packets State Loops Ethernet Arp Routing Dijkstra.

Local Open Scope Z_scope.

Inductive walk (graph : list (list Z)) (V s : nat) : nat → Z → Prop :=
  | walk_refl : walk graph V s s 0
  | walk_step u v n :
      walk graph V s u n → (v < V)%nat → edge graph u v ≠ 0 → walk graph V s v (n + 1).

(** Adjacency matrices: every entry is 0 or 1. *)
Definition unit_graph (graph : list (list Z)) : Prop :=
  ∀ u v, edge graph u v = 0 ∨ edge graph u v = 1.

Fixpoint visited (sptSet : list bool) : nat :=
  match sptSet with
  | [] => 0
  | b :: rest => (if b then 1 else 0) + visited rest
  end.

Lemma visited_le spt : (visited spt <= length spt)%nat.
Proof. induction spt as [|[] spt IH]; simpl; lia. Qed.

Lemma nth_insert {A} (l : list A) i x d v :
  nth v (<[i := x]> l) d = if decide (v = i ∧ (i < length l)%nat) then x else nth v l d.
Proof.
  rewrite !nth_lookup. destruct (decide _) as [[-> Hi]|Hn].
  - by rewrite list_lookup_insert_eq.
  - destruct (decide (v = i)) as [->|Hne]; [|by rewrite list_lookup_insert_ne].
    by rewrite list_insert_ge by (apply Nat.nlt_ge; tauto).
Qed.

Lemma visited_insert spt u :
  nth u spt true = false → visited (<[u := true]> spt) = S (visited spt).
Proof.
  revert u. induction spt as [|b spt IH]; intros u Hu; [by destruct u|].
  destruct u as [|u]; simpl in *; [by subst|]. rewrite IH by done. lia.
Qed.

Lemma visited_lt spt : (visited spt < length spt)%nat → ∃ u, (u < length spt)%nat ∧ nth u spt false = false.
Proof.
  induction spt as [|[] spt IH]; simpl; [lia| |].
  - intros H. destruct IH as (u & ? & ?); [lia|]. exists (S u). split; [lia|done].
  - intros _. exists 0%nat. split; [lia|done].
Qed.

Section minimum.
Variables (dist : list Z) (spt : list bool).

Definition candidate (k : nat) : Prop := nth k spt false = false.

Lemma minDistance_loop_spec n v min idx :
  match minDistance_loop n v dist spt min idx with
  | Some u =>
      (Some u = idx ∧ (∀ k, (v <= k < v + n)%nat → candidate k → min < nth k dist 0)) ∨
      ((v <= u < v + n)%nat ∧ candidate u ∧ nth u dist 0 <= min ∧
       ∀ k, (v <= k < v + n)%nat → candidate k → nth u dist 0 <= nth k dist 0)
  | None => idx = None ∧ ∀ k, (v <= k < v + n)%nat → candidate k → min < nth k dist 0
  end.
Proof.
  revert v min idx. induction n as [|n IH]; intros v min idx; cbn [minDistance_loop].
  { destruct idx; [left|]; split; try done; intros; lia. }
  assert (∀ k, (v <= k < v + S n)%nat → k = v ∨ (S v <= k < S v + n)%nat) as Hr by lia.
  destruct (negb _ && _) eqn:E.
  - apply andb_true_iff in E as [Hc%negb_true_iff Hle%Z.leb_le].
    specialize (IH (S v) (nth v dist 0) (Some v)).
    destruct (minDistance_loop _ _ _ _ _ _) as [u|]; [|naive_solver].
    right. destruct IH as [[[= ->] Hk]|(Hu & Hcu & Hle' & Hmin)].
    + split_and!; [lia|lia|done..|]. intros k [->|Hk']%Hr Hck; [lia|]. specialize (Hk k Hk' Hck). lia.
    + split_and!; [lia|lia|done|lia|]. intros k [->|Hk']%Hr Hck; [lia|by apply Hmin].
  - specialize (IH (S v) min idx).
    assert (candidate v → min < nth v dist 0) as Hv.
    { intros Hc. unfold candidate in Hc. rewrite Hc in E. simpl in E. by apply Z.leb_gt. }
    destruct (minDistance_loop _ _ _ _ _ _) as [u|].
    + destruct IH as [[-> Hk]|(Hu & Hcu & Hle' & Hmin)]; [left|right].
      * split; [done|]. intros k [->|Hk']%Hr; [done|by apply Hk].
      * split_and!; [lia|lia|done..|]. intros k [->|Hk']%Hr Hck; [|by apply Hmin].
        specialize (Hv Hck). lia.
    + destruct IH as [-> Hk]. split; [done|]. intros k [->|Hk']%Hr; [done|by apply Hk].
Qed.

(** The vertex chosen is an unvisited one of least distance. *)
Lemma minDistance_spec V k :
  (k < V)%nat → candidate k → (∀ v, (v < V)%nat → nth v dist 0 <= INT_MAX) →
  ∃ u, minDistance dist spt V = Some u ∧ (u < V)%nat ∧ candidate u ∧
       ∀ v, (v < V)%nat → candidate v → nth u dist 0 <= nth v dist 0.
Proof.
  intros Hk Hc Hmax. unfold minDistance.
  pose proof (minDistance_loop_spec V 0 INT_MAX None) as H.
  destruct (minDistance_loop _ _ _ _ _ _) as [u|].
  - destruct H as [[[=] _]|(Hu & Hcu & _ & Hmin)]. exists u. split_and!; [done|lia|done|].
    intros v Hv. apply Hmin. lia.
  - destruct H as [_ H]. specialize (H k ltac:(lia) Hc). specialize (Hmax k Hk). lia.
Qed.
End minimum.

(** Below [INT_MAX] one more hop does not overflow. *)
Lemma int_add_hop d : 0 <= d < INT_MAX → int_add d 1 = d + 1.
Proof. unfold INT_MAX. intros Hd. unfold int_add. apply s32_small. lia. Qed.

Section relaxation.
Variables (graph : list (list Z)) (spt : list bool) (u : nat).
Hypothesis Hu : nth u spt false = true.

(** The condition under which the code lowers [dist[v]]. *)
Definition improves (dist : list Z) (v : nat) : bool :=
  negb (nth v spt false) && negb (edge graph u v =? 0)
  && negb (nth u dist 0 =? INT_MAX) && (int_add (nth u dist 0) (edge graph u v) <? nth v dist 0).

Lemma relax_length v dist : length (relax graph spt u v dist) = length dist.
Proof. unfold relax. case_match; [apply length_insert|done]. Qed.

Lemma relax_loop_length n v dist : length (relax_loop n v graph spt u dist) = length dist.
Proof.
  revert v dist. induction n as [|n IH]; intros v dist; [done|]. cbn [relax_loop].
  rewrite IH. apply relax_length.
Qed.

Lemma relax_nth v dist x :
  (v < length dist)%nat →
  nth x (relax graph spt u v dist) 0 =
  if decide (x = v) then if improves dist v then int_add (nth u dist 0) (edge graph u v) else nth x dist 0
  else nth x dist 0.
Proof.
  intros Hv. unfold relax. fold (improves dist v). destruct (improves dist v) eqn:E.
  - rewrite nth_insert. destruct (decide (x = v)) as [->|]; repeat case_decide; naive_solver lia.
  - by destruct (decide (x = v)).
Qed.

(** Processed vertices keep their distance. *)
Lemma relax_nth_visited v dist x :
  (v < length dist)%nat → nth x spt false = true → nth x (relax graph spt u v dist) 0 = nth x dist 0.
Proof.
  intros Hv Hx. rewrite relax_nth by done. destruct (decide (x = v)) as [->|]; [|done].
  unfold improves. by rewrite Hx.
Qed.

Lemma improves_relax v dist x :
  (v < length dist)%nat → x ≠ v →
  improves (relax graph spt u v dist) x = improves dist x.
Proof.
  intros Hv Hne. unfold improves. rewrite (relax_nth_visited v dist u) by done.
  rewrite relax_nth by done. by destruct (decide (x = v)).
Qed.

Lemma relax_loop_nth n v dist x :
  (v + n <= length dist)%nat →
  nth x (relax_loop n v graph spt u dist) 0 =
  if decide (v <= x < v + n)%nat then
    if improves dist x then int_add (nth u dist 0) (edge graph u x) else nth x dist 0
  else nth x dist 0.
Proof.
  revert v dist. induction n as [|n IH]; intros v dist Hlen; cbn [relax_loop].
  { destruct (decide _); [lia|done]. }
  rewrite IH by (rewrite relax_length; lia).
  rewrite (relax_nth_visited v dist u) by (done || lia). rewrite !(relax_nth v dist x) by lia.
  destruct (decide (x = v)) as [->|Hne].
  - by repeat destruct (decide _); try lia.
  - rewrite improves_relax by (done || lia). repeat destruct (decide _); lia || done.
Qed.
End relaxation.

Section correctness.
Variables (graph : list (list Z)) (V s : nat).
Hypothesis Hs : (s < V)%nat.
Hypothesis Hunit : unit_graph graph.
Hypothesis HV : Z.of_nat V + 1 < INT_MAX.

(** Loop invariant after [k] rounds. *)
Record dijkstra_inv (k : nat) (dist : list Z) (spt : list bool) : Prop := {
  di_len : length dist = V ∧ length spt = V;
  di_source : nth s dist 0 = 0;
  di_range : ∀ v, (v < V)%nat → 0 <= nth v dist 0 <= INT_MAX;
  di_walk : ∀ v, (v < V)%nat → nth v dist 0 ≠ INT_MAX →
            walk graph V s v (nth v dist 0) ∧ nth v dist 0 <= Z.of_nat k;
  di_edge : ∀ u v, (u < V)%nat → (v < V)%nat → nth u spt false = true →
            nth u dist 0 ≠ INT_MAX → edge graph u v ≠ 0 → nth v dist 0 <= nth u dist 0 + 1;
  di_order : ∀ u v, (u < V)%nat → (v < V)%nat → nth u spt false = true → nth v spt false = false →
             nth u dist 0 <= nth v dist 0;
  di_count : visited spt = k
}.

Lemma dijkstra_inv_init :
  dijkstra_inv 0 (<[s := 0]> (replicate V INT_MAX)) (replicate V false).
Proof.
  assert (∀ v, (v < V)%nat → nth v (<[s := 0]> (replicate V INT_MAX)) 0
                = if decide (v = s) then 0 else INT_MAX) as Hd.
  { intros v Hv. rewrite nth_insert, length_replicate, nth_lookup.
    rewrite lookup_replicate_2 by done. repeat destruct (decide _); naive_solver. }
  assert (∀ u, nth u (replicate V false) false = false) as Hsp.
  { intros u. rewrite nth_lookup. destruct (replicate V false !! u) eqn:E; [|done].
    by apply lookup_replicate in E as [-> _]. }
  split.
  - by rewrite length_insert, !length_replicate.
  - rewrite Hd by done. by rewrite decide_True.
  - intros v Hv. rewrite Hd by done. unfold INT_MAX. destruct (decide _); lia.
  - intros v Hv. rewrite Hd by done. destruct (decide _) as [->|]; [|done]. split; [constructor|lia].
  - intros u v _ _ Hu. by rewrite Hsp in Hu.
  - intros u v _ _ Hu. by rewrite Hsp in Hu.
  - clear. by induction V.
Qed.

(** What one round does: the vertex [u] becomes visited, and the vertices that
    are not visited yet are relaxed along the edges of [u]. *)
Record relaxed (u : nat) (dist : list Z) (spt : list bool) (dist' : list Z) (spt' : list bool)
  : Prop := {
  rx_visited : ∀ x, (x < V)%nat → nth x spt' false = true ↔ x = u ∨ nth x spt false = true;
  rx_dist : ∀ x, (x < V)%nat → nth x dist' 0 = nth x dist 0 ∨
    (nth x dist' 0 = nth u dist 0 + 1 ∧ nth x spt' false = false ∧ edge graph u x ≠ 0 ∧
     nth u dist 0 ≠ INT_MAX ∧ nth u dist 0 + 1 < nth x dist 0);
  rx_edge : ∀ x, (x < V)%nat → nth x spt' false = false → edge graph u x ≠ 0 →
    nth u dist 0 ≠ INT_MAX → nth x dist' 0 <= nth u dist 0 + 1
}.

Lemma round_relaxed u dist spt :
  length dist = V → length spt = V → (u < V)%nat → 0 <= nth u dist 0 <= INT_MAX →
  relaxed u dist spt (relax_loop V 0 graph (<[u := true]> spt) u dist) (<[u := true]> spt).
Proof.
  intros Hld Hls Hu Hrange.
  assert (nth u dist 0 ≠ INT_MAX → int_add (nth u dist 0) 1 = nth u dist 0 + 1) as Hadd
    by (intros; apply int_add_hop; lia).
  assert (∀ x, (x < V)%nat → nth x (<[u := true]> spt) false = true ↔ x = u ∨ nth x spt false = true)
    as Hspt.
  { intros x Hx. rewrite nth_insert. destruct (decide _); naive_solver lia. }
  assert (nth u (<[u := true]> spt) false = true) as Hu' by (apply Hspt; [done|by left]).
  split; [done|intros x Hx|intros x Hx Hsx He Hne]; rewrite relax_loop_nth by (done || lia);
    rewrite decide_True by lia; destruct (improves _ _ _ _ _) eqn:E; unfold improves in E.
  - right. rewrite !andb_true_iff, !negb_true_iff, !Z.eqb_neq, Z.ltb_lt in E.
    destruct E as [[[? ?] ?] ?]. destruct (Hunit u x) as [?|E1]; [done|]. rewrite E1, Hadd in * by done. done.
  - by left.
  - destruct (Hunit u x) as [?|E1]; [done|]. rewrite E1, Hadd by done. lia.
  - destruct (Hunit u x) as [?|E1]; [done|]. rewrite Hsx, E1 in E. cbn [negb andb] in E.
    apply andb_false_iff in E as [E|E]; [by apply negb_false_iff, Z.eqb_eq in E|].
    apply Z.ltb_ge in E. rewrite Hadd in E by done. lia.
Qed.

(** Visited vertices keep their distance, no distance grows. *)
Lemma relaxed_keeps u dist spt dist' spt' x :
  relaxed u dist spt dist' spt' → (x < V)%nat →
  (nth x spt' false = true → nth x dist' 0 = nth x dist 0) ∧ nth x dist' 0 <= nth x dist 0.
Proof. intros [_ H _] Hx. destruct (H x Hx) as [?|(? & ? & ?)]; split; intros; lia || congruence. Qed.

Lemma relaxed_edges k u dist spt dist' spt' x y :
  dijkstra_inv k dist spt → relaxed u dist spt dist' spt' → (u < V)%nat → nth u spt false = false →
  (x < V)%nat → (y < V)%nat → nth x spt' false = true → nth x dist' 0 ≠ INT_MAX →
  edge graph x y ≠ 0 → nth y dist' 0 <= nth x dist' 0 + 1.
Proof.
  intros [_ _ _ _ Hedge Hord _] Hr Hu Hcu Hx Hy Hsx Hne He.
  destruct (relaxed_keeps _ _ _ _ _ x Hr Hx) as [Hkx _]. rewrite (Hkx Hsx) in *.
  destruct (relaxed_keeps _ _ _ _ _ y Hr Hy) as [Hky Hdec]. destruct Hr as [Hspt _ Hrel].
  apply Hspt in Hsx as [->|Hsx]; [|specialize (Hedge x y Hx Hy Hsx Hne He); lia|done].
  destruct (nth y spt' false) eqn:Hsy; [|by apply Hrel].
  rewrite Hky by done. apply Hspt in Hsy as [->|Hsy]; [lia| |done].
  specialize (Hord y u Hy Hu Hsy Hcu). lia.
Qed.

Lemma relaxed_order k u dist spt dist' spt' x y :
  dijkstra_inv k dist spt → relaxed u dist spt dist' spt' → (u < V)%nat → nth u spt false = false →
  (∀ v, (v < V)%nat → nth v spt false = false → nth u dist 0 <= nth v dist 0) →
  (x < V)%nat → (y < V)%nat → nth x spt' false = true → nth y spt' false = false →
  nth x dist' 0 <= nth y dist' 0.
Proof.
  intros [_ _ _ _ _ Hord _] Hr Hu Hcu Hle Hx Hy Hsx Hsy.
  destruct (relaxed_keeps _ _ _ _ _ x Hr Hx) as [Hkx _]. rewrite (Hkx Hsx).
  destruct Hr as [Hspt Hd _].
  assert (nth y spt false = false) as Hsy'.
  { destruct (nth y spt false) eqn:E; [|done]. rewrite (proj2 (Hspt y Hy)) in Hsy by by right. done. }
  assert (nth x dist 0 <= nth u dist 0 ∧ nth x dist 0 <= nth y dist 0) as [? ?].
  { apply Hspt in Hsx as [->|Hsx]; [split; [lia|by apply Hle]| |done]. split; by apply Hord. }
  destruct (Hd y Hy) as [->|(-> & _)]; lia.
Qed.

Lemma dijkstra_inv_step k dist spt :
  (k < V)%nat → dijkstra_inv k dist spt →
  ∃ u, minDistance dist spt V = Some u ∧
       dijkstra_inv (S k) (relax_loop V 0 graph (<[u := true]> spt) u dist) (<[u := true]> spt).
Proof.
  intros Hk Hinv. pose proof Hinv as [[Hld Hls] Hsrc Hrange Hwalk _ _ Hcnt].
  destruct (visited_lt spt) as (k0 & Hk0 & Hc0); [lia|].
  destruct (minDistance_spec dist spt V k0) as (u & Hmin & Hu & Hcu & Hle);
    [lia|done|intros v Hv; by apply Hrange|].
  exists u. split; [done|]. unfold candidate in Hcu.
  pose proof (Hrange u Hu) as Hru. pose proof (round_relaxed u dist spt Hld Hls Hu Hru) as Hr.
  split.
  - by rewrite relax_loop_length, length_insert.
  - destruct (rx_dist _ _ _ _ _ Hr s Hs) as [->|(_ & _ & _ & _ & ?)]; [done|lia].
  - intros v Hv. pose proof (Hrange v Hv).
    destruct (rx_dist _ _ _ _ _ Hr v Hv) as [->|(-> & _ & _ & _ & ?)]; lia.
  - intros v Hv. destruct (rx_dist _ _ _ _ _ Hr v Hv) as [->|(-> & _ & He & Hne & _)].
    + intros Hne. destruct (Hwalk v Hv Hne). split; [done|lia].
    + destruct (Hwalk u Hu Hne) as [Hw Hb]. intros _. split; [|lia]. by eapply walk_step.
  - intros x y. by apply (relaxed_edges k u dist spt).
  - intros x y. by apply (relaxed_order k u dist spt).
  - rewrite visited_insert; [by rewrite Hcnt|].
    rewrite nth_lookup in Hcu |- *. destruct (spt !! u) eqn:E; [done|].
    apply lookup_ge_None in E. lia.
Qed.

Lemma dijkstra_rounds_inv n k dist spt :
  (k + n <= V)%nat → dijkstra_inv k dist spt →
  ∃ dist' spt', dijkstra_rounds n V graph dist spt = Some (dist', spt') ∧
                dijkstra_inv (k + n) dist' spt'.
Proof.
  revert k dist spt. induction n as [|n IH]; intros k dist spt Hk Hinv; cbn [dijkstra_rounds].
  { exists dist, spt. by rewrite Nat.add_0_r. }
  destruct (dijkstra_inv_step k dist spt) as (u & Hu & Hinv'); [lia|done|].
  rewrite Hu. simpl. destruct (IH (S k) _ _ ltac:(lia) Hinv') as (d & sp & E & Hd).
  exists d, sp. split; [done|]. by rewrite Nat.add_succ_r.
Qed.

Lemma all_visited spt u : length spt = V → visited spt = V → (u < V)%nat → nth u spt false = true.
Proof.
  intros Hl Hv Hu. destruct (nth u spt false) eqn:E; [done|]. exfalso.
  assert (nth u spt true = false) as E'.
  { rewrite nth_lookup in E |- *. destruct (spt !! u) eqn:El; [done|].
    apply lookup_ge_None in El. lia. }
  apply visited_insert in E'. pose proof (visited_le (<[u := true]> spt)) as Hf.
  rewrite E', length_insert in Hf. lia.
Qed.

(** A finite distance is that of a shortest walk, [INT_MAX] means unreachable. *)
Definition is_distance (v : nat) (d : Z) : Prop :=
  d <= INT_MAX ∧ (d ≠ INT_MAX → walk graph V s v d) ∧
  (∀ n, walk graph V s v n → d <= n ∧ d ≠ INT_MAX).

Lemma dijkstra_from_correct :
  ∃ dist, dijkstra_from graph V s = Some dist ∧ length dist = V ∧
          ∀ v, (v < V)%nat → is_distance v (nth v dist 0).
Proof.
  destruct (dijkstra_rounds_inv V 0 _ _ ltac:(lia) dijkstra_inv_init) as (d & sp & E & Hinv).
  exists d. unfold dijkstra_from. rewrite E. simpl.
  destruct Hinv as [[Hld Hls] Hsrc Hrange Hwalk Hedge Hord Hcnt].
  split_and!; [done|done|]. intros v Hv. split_and!; [by apply Hrange|by intros; apply Hwalk|].
  intros n Hn. revert Hv. induction Hn as [|u v n Hn IH Hvu He]; intros Hv.
  { rewrite Hsrc. unfold INT_MAX. lia. }
  assert (u < V)%nat as Hu by (destruct Hn; done).
  destruct (IH Hu) as [Hle Hfin].
  specialize (Hedge u v Hu Hv (all_visited sp u Hls Hcnt Hu) Hfin He).
  destruct (Hwalk u Hu Hfin) as [_ Hb]. split; [lia|]. simpl in Hb. lia.
Qed.
End correctness.
