(* ===== verification/DijkstraSpec.v ===== *)
(** What a recomputation of the routing table promises, and the proof that
    djikstra.c delivers it.

    [advertised] lists the link state advertisements the router holds,
    [linked] joins two subnets advertised by one router, [hops] counts the
    hops between subnets.  The theorems follow the phases of the code: the
    queues hold the distinct subnets and advertisements, the matrix is the
    adjacency matrix of [linked], every run computes hop distances, and the
    rebuilt table holds the static routes and one route of least metric per
    remote subnet. *)

From stdpp Require Import base tactics list numbers strings sets.
From Stdlib Require Import ZArith Lia Sorted.
From S2P Require Import Prelude Dataqueue Common Packets State Loops Ethernet Arp Routing.
From S2P Require Import Dijkstra ShortestPath.

Local Open Scope Z_scope.

(** * Distinct elements in order of first occurrence *)

Section distinct.
Context {A : Type} `{EqDecision A}.

Definition snoc_new (l : list A) (x : A) : list A := if decide (x ∈ l) then l else l ++ [x].
Definition distinct (l : list A) : list A := foldl snoc_new [] l.

Lemma distinct_snoc l x : distinct (l ++ [x]) = snoc_new (distinct l) x.
Proof. unfold distinct. by rewrite foldl_snoc. Qed.

Lemma elem_of_distinct l x : x ∈ distinct l ↔ x ∈ l.
Proof.
  induction l as [|y l IH] using rev_ind; [done|].
  rewrite distinct_snoc, elem_of_app, list_elem_of_singleton, <-IH. unfold snoc_new.
  destruct (decide _); [naive_solver|]. by rewrite elem_of_app, list_elem_of_singleton.
Qed.

Lemma NoDup_snoc_new l x : NoDup l → NoDup (snoc_new l x).
Proof.
  intros Hl. unfold snoc_new. destruct (decide _); [done|]. apply NoDup_app.
  split_and!; [done| |apply NoDup_singleton]. by intros y Hy ->%list_elem_of_singleton.
Qed.

Lemma NoDup_distinct l : NoDup (distinct l).
Proof.
  induction l as [|y l IH] using rev_ind; [constructor|].
  rewrite distinct_snoc. by apply NoDup_snoc_new.
Qed.

(** Index of an element of a list without duplicates. *)
Lemma find_eq_lookup (l : list A) (x : A) i :
  NoDup l → l !! i = Some x →
  Spec.find_from (λ y, bool_decide (y = x)) 0 l = Some (i, x).
Proof.
  intros Hnd Hi. apply find_from_Some. exists i. split_and!; [done|done|by apply bool_decide_eq_true|].
  intros k y Hk Hy. apply bool_decide_eq_false. intros ->.
  pose proof (NoDup_lookup _ _ _ _ Hnd Hy Hi). lia.
Qed.

Lemma find_eq_none (l : list A) (x : A) :
  x ∉ l → Spec.find_from (λ y, bool_decide (y = x)) 0 l = None.
Proof.
  intros Hx. apply find_from_None, Forall_forall. intros y Hy. apply bool_decide_eq_false.
  by intros ->.
Qed.
End distinct.

(** A [memcmp] that decides equality: no padding is compared apart from what
    the record models. *)
Class MemcmpEq (A : Type) `{EqDecision A, Memcmp A} :=
  memcmp_decide : ∀ a b : A, memcmp_eq a b = bool_decide (a = b).

#[global] Instance lsa_memcmp_eq : MemcmpEq pwospf_lsa.
Proof. done. Qed.
#[global] Instance lsa_dj_memcmp_eq : MemcmpEq pwospf_lsa_dj.
Proof. done. Qed.
#[global] Instance d_link_memcmp_eq : MemcmpEq d_link.
Proof. done. Qed.
#[global] Instance rtable_memcmp_eq : MemcmpEq rtable_entry.
Proof. done. Qed.

Section add_if_new.
Context {A : Type} `{MemcmpEq A}.

Lemma find_from_ext (p q : A → bool) i l :
  (∀ x, p x = q x) → Spec.find_from p i l = Spec.find_from q i l.
Proof. intros Hpq. revert i. induction l as [|x l IH]; intros i; simpl; [done|]. by rewrite Hpq, IH. Qed.

Lemma queue_existsunsafe_lookup sz (q : dataqueue A) i x :
  wf_queue sz q → NoDup (packet q) → packet q !! i = Some x → queue_existsunsafe q x = Z.of_nat i.
Proof.
  intros Hw Hnd Hi. rewrite (queue_existsunsafe_spec sz) by done.
  rewrite (find_from_ext _ (λ y, bool_decide (y = x))) by (intros; apply memcmp_decide).
  by rewrite (find_eq_lookup _ x i).
Qed.

Lemma queue_existsunsafe_none sz (q : dataqueue A) x :
  wf_queue sz q → queue_existsunsafe q x = -1 ↔ x ∉ packet q.
Proof.
  intros Hw. rewrite (queue_existsunsafe_spec sz) by done.
  rewrite (find_from_ext _ (λ y, bool_decide (y = x))) by (intros; apply memcmp_decide).
  destruct (Spec.find_from _ 0 (packet q)) as [[j y]|] eqn:E.
  - apply find_from_Some in E as (k & -> & Hk & Hx%bool_decide_eq_true & _). subst.
    split; [lia|]. intros []. by eapply list_elem_of_lookup_2.
  - split; [|done]. intros _ Hx. apply find_from_None in E. rewrite Forall_forall in E.
    by specialize (E x Hx); apply bool_decide_eq_false in E.
Qed.

Lemma add_if_new_spec sz (q : dataqueue A) x :
  wf_queue sz q →
  wf_queue sz (add_if_new q x sz) ∧ packet (add_if_new q x sz) = snoc_new (packet q) x.
Proof.
  intros Hw. unfold add_if_new, snoc_new. pose proof (queue_existsunsafe_none sz q x Hw) as Hn.
  destruct (Z.eqb_spec (queue_existsunsafe q x) (-1)), (decide (x ∈ packet q)); try tauto.
  by apply queue_add_spec.
Qed.
End add_if_new.

(** * The advertisements the router holds *)

Definition lsas_of (entry : pwospf_list_entry) : list pwospf_lsa :=
  match lsu_lastcontents entry with LsaArray l => l | _ => [] end.

Definition advertised_by (entry : pwospf_list_entry) : list pwospf_lsa_dj :=
  (λ a, LsaDj a (neighbour_ip entry)) <$> lsas_of entry.

Definition own_lsa (router_id : Z) (intf : interface) : pwospf_lsa_dj :=
  LsaDj (Lsa (dl_subnet (own_subnet intf)) (dl_netmask (own_subnet intf)) router_id) 0.

Definition advertised_at (router_id : Z) (intf : interface) : list pwospf_lsa_dj :=
  own_lsa router_id intf :: (packet (if_neighbours intf) ≫= advertised_by).

Definition advertised (r : router) : list pwospf_lsa_dj :=
  interfaces r ≫= advertised_at (pw_router_id (pw_router r)).

Definition known_subnets (r : router) : list d_link := distinct (lsa_link <$> advertised r).
Definition known_topology (r : router) : list pwospf_lsa_dj := distinct (advertised r).

(** The next hop of an interface: the last neighbour in direct reach that has
    advertised something. *)
Definition pick_hop (hop : Z) (entry : pwospf_list_entry) : Z :=
  if (immediate_neighbour entry =? 1) && negb (bool_decide (lsas_of entry = []))
  then neighbour_ip entry else hop.

Definition next_hop (intf : interface) : Z := foldl pick_hop 0 (packet (if_neighbours intf)).

(** A neighbour a route can go through: in direct reach, and heard of. *)
Definition in_reach (entry : pwospf_list_entry) : Prop :=
  immediate_neighbour entry = 1 ∧ lsas_of entry ≠ [].

(** [h] is the address of a neighbour of the interface that a route can go
    through, the last of them in the list; 0 when there is none. *)
Definition hop_of (intf : interface) (h : Z) : Prop :=
  (∃ k entry, packet (if_neighbours intf) !! k = Some entry ∧ in_reach entry ∧
     h = neighbour_ip entry ∧
     ∀ k' entry', (k < k')%nat → packet (if_neighbours intf) !! k' = Some entry' →
                  ¬ in_reach entry') ∨
  (h = 0 ∧ ∀ entry, entry ∈ packet (if_neighbours intf) → ¬ in_reach entry).

Lemma pick_hop_reach h entry :
  pick_hop h entry = neighbour_ip entry ∧ in_reach entry ∨ pick_hop h entry = h ∧ ¬ in_reach entry.
Proof.
  unfold pick_hop, in_reach. destruct (Z.eqb_spec (immediate_neighbour entry) 1); cbn [andb];
    [|naive_solver].
  case_bool_decide; naive_solver.
Qed.

Lemma next_hop_of_interface intf : hop_of intf (next_hop intf).
Proof.
  unfold hop_of, next_hop.
  induction (packet (if_neighbours intf)) as [|entry l IH] using rev_ind.
  { right. split; [done|]. by intros ? ?%elem_of_nil. }
  rewrite foldl_snoc. destruct (pick_hop_reach (foldl pick_hop 0 l) entry) as [[-> Hr]|[-> Hr]].
  { left. exists (length l), entry. split_and!; [apply list_lookup_middle; lia|done..|].
    intros k' e' Hk Hl%lookup_lt_Some. rewrite length_app in Hl. simpl in Hl. lia. }
  destruct IH as [(k & e & Hk & He & -> & Hlast)|[-> Hno]]; [left|right].
  - exists k, e. split_and!; [by apply lookup_app_l_Some|done..|].
    intros k' e' Hlt Hl. apply lookup_app_Some in Hl as [Hk'|[_ Hk']]; [by eapply Hlast|].
    apply list_lookup_singleton_Some in Hk' as [_ <-]. done.
  - split; [done|]. intros e' He. apply elem_of_app in He as [He'|He']; [by apply Hno|].
    apply list_elem_of_singleton in He' as ->. done.
Qed.

(** No dangling advertisement, and counts that agree with the arrays. *)
Definition wf_neighbour (entry : pwospf_list_entry) : Prop :=
  match lsu_lastcontents entry with
  | LsaNull => True
  | LsaArray l => lsu_lastcontents_count entry = Z.of_nat (length l) ∧
                  Forall (λ a, is_u32 (lsa_netmask a)) l
  | LsaFreed => False
  end.

Abbreviation wf_list_queue := (wf_queue sizeof_pwospf_list_entry).

Definition wf_interface (intf : interface) : Prop :=
  wf_list_queue (if_neighbours intf) ∧ Forall wf_neighbour (packet (if_neighbours intf)) ∧
  is_u32 (if_subnet_mask intf).

(** * Phase 1: gathering *)

Definition gathered_ok (g : gathered) (adv : list pwospf_lsa_dj) (routers : list Z) : Prop :=
  wf_queue sizeof_d_link (g_subnets g) ∧ packet (g_subnets g) = distinct (lsa_link <$> adv) ∧
  wf_queue sizeof_pwospf_lsa_dj (g_topology g) ∧ packet (g_topology g) = distinct adv ∧
  g_routers g = routers.

Lemma gathered_ok_add g adv routers routers' x :
  gathered_ok g adv routers →
  gathered_ok (Gathered (add_if_new (g_subnets g) (lsa_link x) sizeof_d_link)
                 (add_if_new (g_topology g) x sizeof_pwospf_lsa_dj) routers')
    (adv ++ [x]) routers'.
Proof.
  intros (Hs & Es & Ht & Et & _). unfold gathered_ok. cbn [g_subnets g_topology g_routers].
  destruct (add_if_new_spec _ _ (lsa_link x) Hs) as [Hs' Es'].
  destruct (add_if_new_spec _ _ x Ht) as [Ht' Et'].
  split_and!; [done| |done| |done].
  - rewrite Es', Es, fmap_app. symmetry. apply distinct_snoc.
  - by rewrite Et', Et, distinct_snoc.
Qed.

Definition put_hop (i : nat) (entry : pwospf_list_entry) (k : nat) (routers : list Z) : list Z :=
  if (immediate_neighbour entry =? 1) && (0 <? k)%nat then <[i := neighbour_ip entry]> routers
  else routers.

Lemma gather_neighbour_ok i n entry g adv routers w :
  wf_neighbour entry → gathered_ok g adv routers →
  ∃ g', gather_neighbour i n entry g w = Ok g' w ∧
        gathered_ok g' (adv ++ advertised_by entry)
          (put_hop i entry (length (lsas_of entry)) routers).
Proof.
  intros Hwf Hg. unfold gather_neighbour, wf_neighbour, advertised_by, lsas_of in *.
  destruct (lsu_lastcontents entry) as [|l|] eqn:El; [|destruct Hwf as [Hcount _]|done].
  { exists g. split; [done|]. unfold put_hop. simpl. by rewrite app_nil_r, andb_false_r. }
  rewrite Hcount, Nat2Z.id.
  destruct (for_range_inv
    (λ k g' w', w' = w ∧ gathered_ok g' (adv ++ ((λ a, LsaDj a (neighbour_ip entry)) <$> take k l))
       (put_hop i entry k routers)) (gather_lsa i entry) (length l) 0 g w)
    as (g' & w' & E & -> & Hg').
  - split; [done|]. unfold put_hop. by rewrite take_0, app_nil_r, andb_false_r.
  - intros k g1 w1 Hk [-> Hg1]. unfold gather_lsa. rewrite El. cbn [lsa_read].
    destruct (lookup_lt_is_Some_2 l k) as [a Ha]; [lia|].
    rewrite (bind_in_bounds _ _ _ _ Ha).
    eexists _, w. split; [reflexivity|]. split; [done|].
    rewrite Nat.add_1_r, (take_S_r _ _ _ Ha), fmap_app, app_assoc.
    replace (put_hop i entry (S k) routers)
      with (if immediate_neighbour entry =? 1 then <[i:=neighbour_ip entry]> (g_routers g1)
            else g_routers g1).
    + by apply (gathered_ok_add _ _ (put_hop i entry k routers) _ (LsaDj a (neighbour_ip entry))).
    + destruct Hg1 as (_ & _ & _ & _ & ->). unfold put_hop. rewrite andb_true_r.
      destruct (_ =? 1); simpl; [|done].
      destruct (0 <? k)%nat; [|done]. by rewrite list_insert_insert_eq.
  - exists g'. split; [done|]. by rewrite Nat.add_0_l, firstn_all in Hg'.
Qed.

Lemma put_hop_pick i entry h routers :
  put_hop i entry (length (lsas_of entry)) (<[i := h]> routers) = <[i := pick_hop h entry]> routers.
Proof.
  unfold put_hop, pick_hop. destruct (_ =? 1); simpl; [|done].
  destruct (lsas_of entry); simpl; [done|]. by rewrite list_insert_insert_eq.
Qed.

Lemma gather_interface_ok rid i intf g adv routers w :
  wf_interface intf → routers !! i = Some 0 → gathered_ok g adv routers →
  ∃ g', gather_interface rid i intf g w = Ok g' w ∧
        gathered_ok g' (adv ++ advertised_at rid intf) (<[i := next_hop intf]> routers).
Proof.
  intros (Hq & Hn & _) Hi Hg. unfold gather_interface.
  rewrite (for_unsafe_spec sizeof_pwospf_list_entry) by done.
  set (g0 := Gathered _ _ _).
  assert (gathered_ok g0 (adv ++ [own_lsa rid intf]) routers) as Hg0.
  { assert (g_routers g = routers) as Hr by apply Hg. unfold g0. rewrite Hr.
    exact (gathered_ok_add _ _ _ routers (own_lsa rid intf) Hg). }
  set (nb := packet (if_neighbours intf)) in *.
  destruct (for_array_inv (λ k g' w', w' = w ∧
      gathered_ok g' ((adv ++ [own_lsa rid intf]) ++ (take k nb ≫= advertised_by))
        (<[i := foldl pick_hop 0 (take k nb)]> routers)) (gather_neighbour i) nb 0 g0 w)
    as (g' & w' & E & -> & Hg').
  - split; [done|]. simpl. by rewrite app_nil_r, list_insert_id.
  - intros k x g1 w1 Hx [-> Hg1]. rewrite Nat.add_0_l in *.
    destruct (gather_neighbour_ok i k x g1 _ _ w (Forall_lookup_1 _ _ _ _ Hn Hx) Hg1)
      as (g2 & E2 & Hg2).
    exists g2, w. split_and!; [done..|].
    rewrite Nat.add_1_r, (take_S_r _ _ _ Hx), bind_app, foldl_app. simpl.
    rewrite app_nil_r, app_assoc, <-put_hop_pick. done.
  - exists g'. split; [done|]. rewrite Nat.add_0_l, firstn_all in Hg'.
    rewrite <-app_assoc in Hg'. exact Hg'.
Qed.

Definition hops_up_to (k : nat) (l : list interface) : list Z :=
  (next_hop <$> take k l) ++ replicate (length l - k) 0.

Lemma hops_up_to_S k l intf :
  l !! k = Some intf → <[k := next_hop intf]> (hops_up_to k l) = hops_up_to (S k) l.
Proof.
  intros Hk. pose proof (lookup_lt_Some _ _ _ Hk) as Hlt. unfold hops_up_to.
  rewrite (take_S_r _ _ _ Hk), fmap_app, <-app_assoc.
  replace (length l - k)%nat with (S (length l - S k)) by lia. cbn [replicate].
  rewrite insert_app_r_alt by (rewrite length_fmap, length_take; lia).
  rewrite length_fmap, length_take. by replace (k - k `min` length l)%nat with 0%nat by lia.
Qed.

Lemma djikstra_gather_ok r w :
  Forall wf_interface (interfaces r) →
  ∃ g, djikstra_gather r w = Ok g w ∧ gathered_ok g (advertised r) (next_hop <$> interfaces r).
Proof.
  intros Hwf. unfold djikstra_gather, advertised.
  set (rid := pw_router_id (pw_router r)). set (l := interfaces r) in *.
  destruct (for_array_inv (λ k g w', w' = w ∧
      gathered_ok g (take k l ≫= advertised_at rid) (hops_up_to k l))
    (gather_interface rid) l 0
    (Gathered queue_init queue_init (replicate (length l) 0)) w) as (g & w' & E & -> & Hg).
  - split; [done|]. unfold hops_up_to, gathered_ok. rewrite Nat.sub_0_r.
    split_and!; done || apply wf_queue_init.
  - intros k intf g1 w1 Hk [-> Hg1]. rewrite Nat.add_0_l in *.
    pose proof (lookup_lt_Some _ _ _ Hk) as Hlt.
    assert (hops_up_to k l !! k = Some 0) as H0.
    { unfold hops_up_to. rewrite lookup_app_r by (rewrite length_fmap, length_take; lia).
      apply lookup_replicate_2. rewrite length_fmap, length_take. lia. }
    destruct (gather_interface_ok rid k intf g1 _ _ w (Forall_lookup_1 _ _ _ _ Hwf Hk) H0 Hg1)
      as (g2 & E2 & Hg2).
    exists g2, w. split_and!; [done..|].
    rewrite Nat.add_1_r, (take_S_r _ _ _ Hk), bind_app. simpl.
    rewrite app_nil_r, <-(hops_up_to_S _ _ _ Hk). done.
  - exists g. split; [done|]. rewrite Nat.add_0_l, firstn_all in Hg.
    unfold hops_up_to in Hg. by rewrite firstn_all, Nat.sub_diag, app_nil_r in Hg.
Qed.

(** * Phase 2: the graph *)

(** Two advertisements of one router for different subnets. *)
Definition joins (e1 e2 : pwospf_lsa_dj) : Prop :=
  lsa_router_id (dj_lsa e1) = lsa_router_id (dj_lsa e2) ∧
  lsa_subnet (dj_lsa e1) ≠ lsa_subnet (dj_lsa e2).

(** One router is attached to both subnets. *)
Definition linked (topo : list pwospf_lsa_dj) (l1 l2 : d_link) : Prop :=
  ∃ e1 e2, e1 ∈ topo ∧ e2 ∈ topo ∧ lsa_link e1 = l1 ∧ lsa_link e2 = l2 ∧ joins e1 e2.

Definition square (V : nat) (graph : list (list Z)) : Prop :=
  length graph = V ∧ ∀ u row, graph !! u = Some row → length row = V.

Lemma edge_lookup graph u v row :
  graph !! u = Some row → edge graph u v = nth v row 0.
Proof. intros Hu. unfold edge. by rewrite (nth_lookup_Some _ _ _ _ Hu). Qed.

Lemma set_edge_square V u v graph : square V graph → square V (set_edge u v graph).
Proof.
  intros [Hl Hr]. unfold set_edge. split; [by rewrite length_alter|].
  intros x row. destruct (decide (x = u)) as [->|].
  - rewrite list_lookup_alter_eq. intros (row' & Hx & ->)%fmap_Some. rewrite length_insert. eauto.
  - rewrite list_lookup_alter_ne by done. eauto.
Qed.

Lemma edge_set_edge V u v graph a b :
  square V graph → (u < V)%nat → (v < V)%nat →
  edge (set_edge u v graph) a b = if decide (a = u ∧ b = v) then 1 else edge graph a b.
Proof.
  intros [Hl Hr] Hu Hv. destruct (lookup_lt_is_Some_2 graph u) as [row Hrow]; [lia|].
  pose proof (Hr _ _ Hrow) as Hlen. unfold set_edge. destruct (decide (a = u)) as [->|Hne].
  - assert (alter (λ row, <[v:=1]> row) u graph !! u = Some (<[v := 1]> row)) as Ha
      by (by rewrite list_lookup_alter_eq, Hrow).
    rewrite (edge_lookup _ _ _ _ Ha), (edge_lookup _ _ _ _ Hrow), nth_insert.
    repeat destruct (decide _); naive_solver lia.
  - rewrite decide_False by naive_solver. unfold edge. f_equal.
    rewrite !nth_lookup. by rewrite list_lookup_alter_ne.
Qed.

Section graph_phase.
Variables (subs : dataqueue d_link) (topo : dataqueue pwospf_lsa_dj).
Hypothesis Hsubs : wf_queue sizeof_d_link subs.
Hypothesis Htopo : wf_queue sizeof_pwospf_lsa_dj topo.
Hypothesis Hnd : NoDup (packet subs).
Hypothesis Hknown : ∀ e, e ∈ packet topo → lsa_link e ∈ packet subs.

Let V := length (packet subs).

(** Indices of the two ends of a joined pair. *)
Definition ends (e1 e2 : pwospf_lsa_dj) (a b : nat) : Prop :=
  packet subs !! a = Some (lsa_link e1) ∧ packet subs !! b = Some (lsa_link e2).

(** Adjacency through the pairs of entries in [D]. *)
Definition adj (D : nat → nat → Prop) (a b : nat) : Prop :=
  ∃ k p e1 e2, D k p ∧ packet topo !! k = Some e1 ∧ packet topo !! p = Some e2 ∧ joins e1 e2 ∧
               (ends e1 e2 a b ∨ ends e1 e2 b a).

Definition graph_ok (D : nat → nat → Prop) (graph : list (list Z)) : Prop :=
  square V graph ∧ unit_graph graph ∧ ∀ a b, edge graph a b ≠ 0 ↔ adj D a b.

Lemma graph_ok_ext D D' graph :
  (∀ k p, D k p ↔ D' k p) → graph_ok D graph → graph_ok D' graph.
Proof.
  intros HD (Hs & Hu & He). split_and!; [done..|]. intros a b. rewrite He. unfold adj.
  by setoid_rewrite HD.
Qed.

Lemma subnet_id_ok link w :
  link ∈ packet subs →
  ∃ id, subnet_id subs link w = Ok id w ∧ (id < V)%nat ∧ packet subs !! id = Some link.
Proof.
  intros [id Hid]%list_elem_of_lookup. exists id. split_and!; [|by eapply lookup_lt_Some|done].
  unfold subnet_id. rewrite (queue_existsunsafe_lookup _ _ _ _ Hsubs Hnd Hid).
  destruct (Z.eqb_spec (Z.of_nat id) (-1)); [lia|]. simpl. by rewrite Nat2Z.id.
Qed.

Lemma connect_ok D k p e1 e2 graph w :
  packet topo !! k = Some e1 → packet topo !! p = Some e2 → graph_ok D graph →
  ∃ graph', connect subs e1 p e2 graph w = Ok graph' w ∧
            graph_ok (λ k' p', D k' p' ∨ (k' = k ∧ p' = p)) graph'.
Proof.
  intros Hk Hp (Hs & Hu & He). unfold connect.
  assert ((lsa_router_id (dj_lsa e1) =? lsa_router_id (dj_lsa e2))
     && negb (lsa_subnet (dj_lsa e1) =? lsa_subnet (dj_lsa e2)) = true ↔ joins e1 e2) as Hj.
  { unfold joins. by rewrite andb_true_iff, negb_true_iff, Z.eqb_eq, Z.eqb_neq. }
  destruct (_ && _).
  - pose proof (proj1 Hj eq_refl) as Hjoin.
    destruct (subnet_id_ok (lsa_link e1) w) as (id1 & E1 & H1 & L1);
      [by eapply Hknown, list_elem_of_lookup_2|].
    destruct (subnet_id_ok (lsa_link e2) w) as (id2 & E2 & H2 & L2);
      [by eapply Hknown, list_elem_of_lookup_2|].
    rewrite (bind_ok _ _ _ _ _ E1), (bind_ok _ _ _ _ _ E2).
    eexists. split; [reflexivity|].
    assert (∀ a b, edge (set_edge id2 id1 (set_edge id1 id2 graph)) a b
      = if decide ((a = id1 ∧ b = id2) ∨ (a = id2 ∧ b = id1)) then 1 else edge graph a b) as Hedge.
    { intros a b. rewrite (edge_set_edge V) by (done || by apply set_edge_square).
      rewrite (edge_set_edge V) by done. repeat destruct (decide _); naive_solver. }
    split_and!; [by do 2 apply set_edge_square| |].
    + intros a b. rewrite Hedge. destruct (decide _); [by right|apply Hu].
    + intros a b. rewrite Hedge. destruct (decide _) as [Hd|Hd].
      * split; [intros _|lia]. exists k, p, e1, e2. split_and!; [by right|done..|].
        unfold ends. naive_solver.
      * rewrite He. split.
        -- intros (k' & p' & x1 & x2 & ? & ?). exists k', p', x1, x2. naive_solver.
        -- intros (k' & p' & x1 & x2 & [?|[-> ->]] & Hx1 & Hx2 & ? & Hends);
             [by exists k', p', x1, x2|]. exfalso. apply Hd. simplify_eq.
           destruct Hends as [[Ha Hb]|[Ha Hb]]; [left|right];
             split; eapply NoDup_lookup; eauto.
  - exists graph. split; [done|]. split_and!; [done..|]. intros a b. rewrite He. split.
    + intros (k' & p' & x1 & x2 & ? & ?). exists k', p', x1, x2. naive_solver.
    + intros (k' & p' & x1 & x2 & [?|[-> ->]] & ? & ? & Hjx & ?); [by exists k', p', x1, x2|].
      simplify_eq. apply Hj in Hjx. done.
Qed.

Lemma connect_loop_ok k e1 graph w :
  packet topo !! k = Some e1 →
  graph_ok (λ k' p', (k' < p')%nat ∧ (k' < k)%nat ∧ (p' < length (packet topo))%nat) graph →
  ∃ graph',
    for_unsafe_from sizeof_pwospf_lsa_dj (connect subs e1) (Z.to_nat (size topo) - S k) (S k) topo
      graph w = Ok graph' w ∧
    graph_ok (λ k' p', (k' < p')%nat ∧ (k' < S k)%nat ∧ (p' < length (packet topo))%nat) graph'.
Proof.
  intros Hk Hg. pose proof (lookup_lt_Some _ _ _ Hk) as Hlt.
  set (n := length (packet topo)) in *.
  pose proof (for_unsafe_from_spec _ (connect subs e1) topo (take (S k) (packet topo))
    (drop (S k) (packet topo)) graph w Htopo ltac:(by rewrite take_drop)) as E.
  rewrite length_take, length_drop, Nat.min_l in E by lia.
  rewrite (wf_size _ _ Htopo), Nat2Z.id, E.
  destruct (for_array_inv (λ p g w', w' = w ∧
      graph_ok (λ k' p', (k' < p')%nat ∧ (p' < n)%nat ∧
                         (k' < k ∨ (k' = k ∧ p' < p))%nat) g) (connect subs e1)
      (drop (S k) (packet topo)) (S k) graph w) as (g' & w' & E' & -> & Hg').
  - split; [done|]. eapply graph_ok_ext; [|exact Hg]. intros; simpl; lia.
  - intros j x g1 w1 Hj [-> Hg1]. rewrite lookup_drop in Hj.
    pose proof (lookup_lt_Some _ _ _ Hj) as Hjlt.
    destruct (connect_ok _ _ _ _ _ g1 w Hk Hj Hg1) as (g2 & E2 & Hg2).
    exists g2, w. split_and!; [exact E2|done|]. eapply graph_ok_ext; [|exact Hg2].
    intros; simpl; unfold n; lia.
  - exists g'. split; [done|]. eapply graph_ok_ext; [|exact Hg'].
    intros; simpl. rewrite length_drop. fold n. lia.
Qed.

Lemma djikstra_graph_loop w :
  ∃ graph, djikstra_graph subs topo w = Ok graph w ∧
           graph_ok (λ k p, (k < p < length (packet topo))%nat) graph.
Proof.
  unfold djikstra_graph. rewrite (for_unsafe_spec sizeof_pwospf_lsa_dj) by done.
  rewrite (wf_size _ _ Hsubs), Nat2Z.id. fold V.
  destruct (for_array_inv (λ k g w', w' = w ∧
      graph_ok (λ k' p', (k' < p')%nat ∧ (k' < k)%nat ∧ (p' < length (packet topo))%nat) g)
    (λ k entry graph, for_unsafe_from sizeof_pwospf_lsa_dj (connect subs entry)
         (Z.to_nat (size topo) - S k) (S k) topo graph)
    (packet topo) 0 (replicate V (replicate V 0)) w) as (g & w' & E & -> & Hg).
  - assert (∀ a b, edge (replicate V (replicate V 0)) a b = 0) as H0.
    { intros a b. unfold edge. rewrite !nth_lookup.
      destruct (replicate V (replicate V 0) !! a) eqn:Ea; simpl; [|by destruct b].
      apply lookup_replicate in Ea as [-> _].
      destruct (replicate V 0 !! b) eqn:Eb; [|done]. by apply lookup_replicate in Eb as [-> _]. }
    split; [done|]. split_and!.
    + split; [apply length_replicate|]. intros u row [-> _]%lookup_replicate. apply length_replicate.
    + intros a b. left. apply H0.
    + intros a b. rewrite H0. split; [done|]. intros (k & p & ? & ? & ? & _). lia.
  - intros k x g1 w1 Hk [-> Hg1]. rewrite Nat.add_0_l in *.
    destruct (connect_loop_ok k x g1 w Hk Hg1) as (g2 & E2 & Hg2).
    exists g2, w. rewrite Nat.add_1_r. done.
  - exists g. split; [done|]. eapply graph_ok_ext; [|exact Hg]. intros; simpl; lia.
Qed.

Lemma linked_sym t l1 l2 : linked t l1 l2 → linked t l2 l1.
Proof.
  intros (e1 & e2 & ? & ? & ? & ? & Hr & Hs). exists e2, e1. unfold joins. naive_solver.
Qed.

(** The matrix is the adjacency matrix of [linked]. *)
Lemma djikstra_graph_ok w :
  ∃ graph, djikstra_graph subs topo w = Ok graph w ∧ unit_graph graph ∧
    ∀ a b, edge graph a b ≠ 0 ↔
           ∃ l1 l2, packet subs !! a = Some l1 ∧ packet subs !! b = Some l2 ∧
                    linked (packet topo) l1 l2.
Proof.
  destruct (djikstra_graph_loop w) as (g & E & _ & Hu & He). exists g. split_and!; [done..|].
  intros a b. rewrite He. split.
  - intros (k & p & e1 & e2 & _ & Hk & Hp & Hj & Hends).
    assert (linked (packet topo) (lsa_link e1) (lsa_link e2)) as Hl.
    { exists e1, e2. split_and!; [by eapply list_elem_of_lookup_2..|done|done|done]. }
    destruct Hends as [[? ?]|[? ?]]; [by eexists _, _|]. eexists _, _.
    split_and!; [done..|by apply linked_sym].
  - intros (l1 & l2 & Ha & Hb & e1 & e2 & [k Hk]%list_elem_of_lookup & [p Hp]%list_elem_of_lookup
      & <- & <- & Hj).
    pose proof (lookup_lt_Some _ _ _ Hk). pose proof (lookup_lt_Some _ _ _ Hp).
    destruct (Nat.lt_trichotomy k p) as [?|[->|?]].
    + exists k, p, e1, e2. split_and!; [lia|lia|done..|by left].
    + simplify_eq. by destruct Hj as [_ []].
    + exists p, k, e2, e1. split_and!; [lia|lia|done..| |by right].
      destruct Hj as [Hr Hs]. split; [done|congruence].
Qed.
End graph_phase.

(** * Phase 3: distances and the choice of an interface *)

(** [l] is [n] hops from the subnet [l0]. *)
Inductive hops (topo : list pwospf_lsa_dj) (l0 : d_link) : d_link → Z → Prop :=
  | hops_refl : hops topo l0 l0 0
  | hops_step l1 l2 n : hops topo l0 l1 n → linked topo l1 l2 → hops topo l0 l2 (n + 1).

(** What the arrays [final], [intf] and [rips] hold for subnet [l] once the
    interfaces below [k] have been treated: the first interface of least
    distance, if the subnet is reachable at all. *)
Definition chosen (ifs : list interface) (topo : list pwospf_lsa_dj) (k : nat) (l : d_link)
    (final intf rip : Z) : Prop :=
  (final = INT_MAX ∧ intf = INT_MAX ∧
   ∀ j y n, (j < k)%nat → ifs !! j = Some y → ¬ hops topo (own_subnet y) l n) ∨
  (∃ i x, (i < k)%nat ∧ ifs !! i = Some x ∧ intf = Z.of_nat i ∧ final < INT_MAX ∧
     hops topo (own_subnet x) l final ∧
     rip = (if dl_subnet l =? dl_subnet (own_subnet x) then 0 else next_hop x) ∧
     ∀ j y n, (j < k)%nat → ifs !! j = Some y → hops topo (own_subnet y) l n →
              final <= n ∧ ((j < i)%nat → final < n)).

(** Distances from one subnet. *)
Definition hop_distance (topo : list pwospf_lsa_dj) (l0 l : d_link) (d : Z) : Prop :=
  d <= INT_MAX ∧ (d ≠ INT_MAX → hops topo l0 l d) ∧
  (∀ n, hops topo l0 l n → d <= n ∧ d ≠ INT_MAX).

Lemma chosen_step ifs topo k l final intf rip x d :
  ifs !! k = Some x → hop_distance topo (own_subnet x) l d →
  chosen ifs topo k l final intf rip →
  if d <? final
  then chosen ifs topo (S k) l d (Z.of_nat k)
         (if dl_subnet l =? dl_subnet (own_subnet x) then 0 else next_hop x)
  else chosen ifs topo (S k) l final intf rip.
Proof.
  intros Hx (Hmax & Hwalk & Hmin) Hc.
  assert (∀ j y, (j < S k)%nat → ifs !! j = Some y → (j < k)%nat ∨ (j = k ∧ y = x)) as Hj.
  { intros j y Hj Hy. destruct (decide (j = k)) as [->|]; [right; naive_solver|left; lia]. }
  destruct (Z.ltb_spec d final) as [Hlt|Hge].
  - assert (d ≠ INT_MAX) as Hd.
    { intros ->. destruct Hc as [(-> & _)|(? & ? & _ & _ & _ & ? & _)]; lia. }
    right. exists k, x. split_and!; [lia|done|done|lia|by apply Hwalk|done|].
    intros j y n Hjk Hy Hn. destruct (Hj j y Hjk Hy) as [Hlt'|[-> ->]].
    + destruct Hc as [(_ & _ & Hno)|(i & x' & _ & _ & _ & _ & _ & _ & Hle)];
        [by destruct (Hno j y n Hlt' Hy)|]. destruct (Hle j y n Hlt' Hy Hn). lia.
    + destruct (Hmin n Hn). split; lia.
  - destruct Hc as [(-> & -> & Hno)|(i & x' & Hi & Hx' & -> & Hf & Hh & -> & Hle)].
    + left. split_and!; [done..|]. intros j y n Hjk Hy Hn.
      destruct (Hj j y Hjk Hy) as [?|[-> ->]]; [by eapply Hno|]. destruct (Hmin n Hn). lia.
    + right. exists i, x'. split_and!; [lia|done..|].
      intros j y n Hjk Hy Hn. destruct (Hj j y Hjk Hy) as [?|[-> ->]]; [by eapply Hle|].
      destruct (Hmin n Hn). split; lia.
Qed.

Section choose_phase.
Variables (ifs : list interface) (subs : dataqueue d_link) (topo : list pwospf_lsa_dj)
  (graph : list (list Z)) (g : gathered).
Hypothesis Hsubs : wf_queue sizeof_d_link subs.
Hypothesis Hnd : NoDup (packet subs).
Hypothesis Hknown : ∀ e, e ∈ topo → lsa_link e ∈ packet subs.
Hypothesis Hown : ∀ i x, ifs !! i = Some x → own_subnet x ∈ packet subs.
Hypothesis Hunit : unit_graph graph.
Hypothesis Hedge : ∀ a b, edge graph a b ≠ 0 ↔
  ∃ l1 l2, packet subs !! a = Some l1 ∧ packet subs !! b = Some l2 ∧ linked topo l1 l2.
Hypothesis Hsmall : Z.of_nat (length (packet subs)) + 1 < INT_MAX.
Hypothesis Hg : g_subnets g = subs ∧ g_routers g = next_hop <$> ifs.

Let V := length (packet subs).

Lemma walk_hops s l0 v n :
  packet subs !! s = Some l0 → walk graph V s v n →
  ∃ l, packet subs !! v = Some l ∧ hops topo l0 l n.
Proof.
  intros Hs. induction 1 as [|u v n Hw IH Hv He]; [exists l0; split; [done|constructor]|].
  destruct IH as (lu & Hu & Hh). apply Hedge in He as (l1 & l2 & Hu' & Hv' & Hl). simplify_eq.
  exists l2. split; [done|]. by eapply hops_step.
Qed.

Lemma hops_walk s l0 l n :
  packet subs !! s = Some l0 → hops topo l0 l n →
  ∃ v, packet subs !! v = Some l ∧ walk graph V s v n.
Proof.
  intros Hs. induction 1 as [|l1 l2 n Hh IH Hl]; [exists s; split; [done|constructor]|].
  destruct IH as (u & Hu & Hw).
  assert (l2 ∈ packet subs) as [v Hv]%list_elem_of_lookup.
  { destruct Hl as (e1 & e2 & _ & He2 & _ & <- & _). by apply Hknown. }
  exists v. split; [done|]. eapply walk_step; [done|by eapply lookup_lt_Some|].
  apply Hedge. by exists l1, l2.
Qed.

Lemma dijkstra_hops s l0 :
  packet subs !! s = Some l0 →
  ∃ dist, dijkstra_from graph V s = Some dist ∧ length dist = V ∧
          ∀ v l, packet subs !! v = Some l → hop_distance topo l0 l (nth v dist 0).
Proof.
  intros Hs. pose proof (lookup_lt_Some _ _ _ Hs) as Hlt.
  destruct (dijkstra_from_correct graph V s Hlt Hunit Hsmall) as (dist & E & Hl & Hd).
  exists dist. split_and!; [done..|]. intros v l Hv.
  destruct (Hd v (lookup_lt_Some _ _ _ Hv)) as (Hm & Hw & Hn). split_and!; [done| |].
  - intros Hne. destruct (walk_hops s l0 v _ Hs (Hw Hne)) as (l' & Hv' & ?). by simplify_eq.
  - intros n Hh. destruct (hops_walk s l0 l n Hs Hh) as (v' & Hv' & Hw').
    rewrite (NoDup_lookup _ _ _ _ Hnd Hv' Hv) in *. by apply Hn.
Qed.

Definition choice_len (c : choice) : Prop :=
  length (c_final c) = V ∧ length (c_intf c) = V ∧ length (c_rips c) = V.

Definition chosen_at (k : nat) (c : choice) (v : nat) (l : d_link) : Prop :=
  chosen ifs topo k l (nth v (c_final c) 0) (nth v (c_intf c) 0) (nth v (c_rips c) 0).

Definition choice_ok (k : nat) (c : choice) : Prop :=
  choice_len c ∧ ∀ v l, packet subs !! v = Some l → chosen_at k c v l.

Lemma choose_len x k routers dist v l c :
  choice_len c → choice_len (choose x k routers dist v l c).
Proof.
  unfold choice_len, choose. case_match; [|done]. simpl. by rewrite !length_insert.
Qed.

(** Only the cell of the subnet at hand changes. *)
Lemma choose_other x k routers dist v l c v' k' l' :
  v' ≠ v → chosen_at k' c v' l' → chosen_at k' (choose x k routers dist v l c) v' l'.
Proof.
  intros Hne. unfold choose, chosen_at. case_match; [|done]. simpl.
  rewrite !nth_insert. repeat destruct (decide _); naive_solver.
Qed.

Lemma choose_this x k dist v l c :
  ifs !! k = Some x → packet subs !! v = Some l → choice_len c →
  hop_distance topo (own_subnet x) l (nth v dist 0) → chosen_at k c v l →
  chosen_at (S k) (choose x k (next_hop <$> ifs) dist v l c) v l.
Proof.
  intros Hk Hv (H1 & H2 & H3) Hd Hc. pose proof (lookup_lt_Some _ _ _ Hv) as Hlt. fold V in Hlt.
  pose proof (chosen_step _ _ _ _ _ _ _ _ _ Hk Hd Hc) as Hs.
  unfold choose, chosen_at. destruct (_ <? _); [|done]. simpl.
  rewrite !nth_insert, !decide_True by (split; [done|congruence]).
  rewrite (nth_lookup_Some (next_hop <$> ifs) k 0 (next_hop x)) by (by rewrite list_lookup_fmap, Hk).
  done.
Qed.

Lemma choose_interface_ok k x c w :
  ifs !! k = Some x → choice_ok k c →
  ∃ c', choose_interface g graph k x c w = Ok c' w ∧ choice_ok (S k) c'.
Proof.
  intros Hk [Hlen Hc]. unfold choose_interface. destruct Hg as [-> ->].
  destruct (subnet_id_ok subs Hsubs Hnd (own_subnet x) w (Hown _ _ Hk)) as (id & E & _ & Hid).
  mstep E. destruct (dijkstra_hops id _ Hid) as (dist & Ed & Hld & Hd).
  rewrite (wf_size _ _ Hsubs), Nat2Z.id. mstep Ed.
  rewrite (for_unsafe_spec sizeof_d_link) by done.
  destruct (for_array_inv (λ p c' w', w' = w ∧ choice_len c' ∧
      ∀ v l, packet subs !! v = Some l → chosen_at (if (v <? p)%nat then S k else k) c' v l)
    (λ v subnet c, mret (choose x k (next_hop <$> ifs) dist v subnet c)) (packet subs) 0 c w)
    as (c' & w' & E' & -> & Hlen' & Hc').
  - split_and!; [done..|]. intros v l Hv. by apply Hc.
  - intros p l c1 w1 Hp (-> & Hl1 & Hc1). rewrite Nat.add_0_l in *.
    eexists _, w. split; [reflexivity|]. split_and!; [done|by apply choose_len|].
    intros v l' Hv. specialize (Hc1 v l' Hv). destruct (decide (v = p)) as [->|Hne].
    + simplify_eq. rewrite (proj2 (Nat.ltb_lt p (p + 1))) by lia.
      rewrite Nat.ltb_irrefl in Hc1. by apply choose_this; [..|apply Hd|].
    + apply choose_other; [done|].
      replace (v <? p + 1)%nat with (v <? p)%nat; [done|].
      destruct (Nat.ltb_spec v p), (Nat.ltb_spec v (p + 1)); lia || done.
  - exists c'. split; [done|]. split; [done|]. intros v l Hv. specialize (Hc' v l Hv).
    apply lookup_lt_Some in Hv. by rewrite (proj2 (Nat.ltb_lt v _)) in Hc' by lia.
Qed.

Lemma djikstra_choose_ok r w :
  interfaces r = ifs →
  ∃ c, djikstra_choose r g graph w = Ok c w ∧ choice_ok (length ifs) c.
Proof.
  intros Hr. unfold djikstra_choose. erewrite (bind_ok (junk_words _)) by reflexivity. rewrite Hr.
  assert (Z.to_nat (size (g_subnets g)) = V) as ->.
  { destruct Hg as [-> _]. by rewrite (wf_size _ _ Hsubs), Nat2Z.id. }
  destruct (for_array_inv (λ k c w', w' = w ∧ choice_ok k c) (choose_interface g graph) ifs 0
    (Choice (replicate V INT_MAX) (replicate V INT_MAX) (map (λ k, u32 (w_junk w k)) (seq 0 V))) w)
    as (c & w' & E & -> & Hc).
  - split; [done|]. split; [unfold choice_len; simpl; by rewrite !length_replicate, length_map, length_seq|].
    intros v l Hv. left. simpl. pose proof (lookup_lt_Some _ _ _ Hv). rewrite !nth_lookup.
    rewrite !lookup_replicate_2 by done. split_and!; [done..|]. intros; lia.
  - intros k x c1 w1 Hk [-> Hc1]. rewrite Nat.add_0_l in *.
    destruct (choose_interface_ok k x c1 w Hk Hc1) as (c2 & E2 & Hc2).
    exists c2, w. by rewrite Nat.add_1_r.
  - by exists c.
Qed.
End choose_phase.

(** * Phase 4: the new table *)

(** The interface [x], the [i]-th, is the first of those nearest to the subnet
    [l], which is [n] hops away from it. *)
Definition nearest (ifs : list interface) (topo : list pwospf_lsa_dj) (l : d_link)
    (i : nat) (x : interface) (n : Z) : Prop :=
  ifs !! i = Some x ∧ hops topo (own_subnet x) l n ∧
  ∀ j y m, ifs !! j = Some y → hops topo (own_subnet y) l m → n <= m ∧ ((j < i)%nat → n < m).

(** A route the computation may install for [e]'s subnet: over the first
    interface of least hop distance, through a neighbour in direct reach on
    that interface, and never for a subnet with the number of the one the
    interface is attached to. *)
Definition dynamic_route (ifs : list interface) (subs : list d_link) (topo : list pwospf_lsa_dj)
    (e : rtable_entry) : Prop :=
  dynamic e = true ∧ DLink (subnet e) (netmask e) ∈ subs ∧
  ∃ x, nearest ifs topo (DLink (subnet e) (netmask e)) (rt_interface e) x (metric e) ∧
    subnet e ≠ dl_subnet (own_subnet x) ∧ hop_of x (router_ip e).

(** A reachable subnet has a nearest interface, and a route over it unless its
    number is that of the subnet of this interface: the netmasks are not
    compared. *)
Definition covered (ifs : list interface) (topo : list pwospf_lsa_dj) (l : d_link)
    (table : list rtable_entry) : Prop :=
  ∃ i x n, nearest ifs topo l i x n ∧
    (dl_subnet l = dl_subnet (own_subnet x) ∨
     ∃ e, e ∈ table ∧ dynamic e = true ∧ DLink (subnet e) (netmask e) = l ∧ rt_interface e = i).

Lemma covered_mono ifs topo l t1 t2 : t1 ⊆ t2 → covered ifs topo l t1 → covered ifs topo l t2.
Proof.
  unfold covered. intros Hsub (i & x & n & Hn & [?|(e & He & ?)]); exists i, x, n;
    (split; [done|]); [by left|right]. exists e. set_solver.
Qed.

Section table_phase.
Variables (r : router) (subs : list d_link) (topo : list pwospf_lsa_dj) (c : choice).
Let ifs := interfaces r.
Hypothesis Hc : ∀ v l, subs !! v = Some l →
  chosen ifs topo (length ifs) l (nth v (c_final c) 0) (nth v (c_intf c) 0) (nth v (c_rips c) 0).
Hypothesis Hfew : Z.of_nat (length ifs) < INT_MAX.

Definition entries_ok (k : nat) (entries : list rtable_entry) : Prop :=
  Forall (dynamic_route ifs subs topo) entries ∧
  ∀ v l j y n, (v < k)%nat → subs !! v = Some l → ifs !! j = Some y →
    hops topo (own_subnet y) l n → covered ifs topo l entries.

Lemma entries_ok_step k l entries entries' :
  subs !! k = Some l → entries_ok k entries → entries ⊆ entries' →
  Forall (dynamic_route ifs subs topo) entries' →
  (∀ j y n, ifs !! j = Some y → hops topo (own_subnet y) l n → covered ifs topo l entries') →
  entries_ok (S k) entries'.
Proof.
  intros Hk [_ Hcov] Hsub Hall Hl. split; [done|]. intros v l' j y n Hv Hv' Hj Hh.
  destruct (decide (v = k)) as [->|]; [simplify_eq; by eapply Hl|].
  eapply covered_mono; [exact Hsub|]. eapply Hcov; [|done..]. lia.
Qed.

Lemma add_entry_ok k l entries w :
  w_router w = r → subs !! k = Some l → entries_ok k entries →
  ∃ entries', add_entry r c k l entries w = Ok entries' w ∧ entries_ok (S k) entries'.
Proof.
  intros Hr Hk Hok. unfold add_entry.
  destruct (Hc k l Hk) as [(_ & -> & Hno)|(i & x & Hi & Hx & -> & _ & Hh & Hrip & Hmin)].
  { exists entries. fold ifs. destruct (Z.ltb_spec INT_MAX (Z.of_nat (length ifs))); [lia|].
    rewrite andb_false_r. split; [done|]. eapply entries_ok_step; [done..|by destruct Hok|].
    intros j y n Hj Hn. destruct (Hno j y n); [by eapply lookup_lt_Some|done..]. }
  assert (nearest ifs topo l i x (nth k (c_final c) 0)) as Hbest.
  { split_and!; [done..|]. intros j y n Hj Hn. apply (Hmin j y n); [by eapply lookup_lt_Some|done..]. }
  fold ifs. destruct (Z.leb_spec 0 (Z.of_nat i)); [|lia].
  destruct (Z.ltb_spec (Z.of_nat i) (Z.of_nat (length ifs))); [|lia]. cbn [andb].
  rewrite Nat2Z.id. unfold get_interface. mrun. rewrite Hr. mstep Hx.
  assert (Z.land (if_ip x) (if_subnet_mask x) = dl_subnet (own_subnet x)) as -> by apply Z.land_comm.
  destruct (Z.eqb_spec (dl_subnet (own_subnet x)) (dl_subnet l)) as [E|Hne]; cbn [negb].
  - exists entries. split; [done|]. eapply entries_ok_step; [done..|by destruct Hok|].
    intros _ _ _ _ _. exists i, x, (nth k (c_final c) 0). split; [done|]. by left.
  - eexists. split; [reflexivity|].
    assert (nth k (c_rips c) 0 = next_hop x) as Hrip'.
    { rewrite Hrip. destruct (Z.eqb_spec (dl_subnet l) (dl_subnet (own_subnet x))); [congruence|done]. }
    destruct l as [lsub lmask]. eapply entries_ok_step; [done..| | |].
    + set_solver.
    + apply Forall_app_2; [by destruct Hok|]. constructor; [|done].
      split_and!; [done|by eapply list_elem_of_lookup_2|]. exists x. simpl in *.
      split_and!; [done|congruence|]. rewrite Hrip'. apply next_hop_of_interface.
    + intros _ _ _ _ _. exists i, x, (nth k (c_final c) 0). split; [done|]. right.
      eexists. split; [by apply elem_of_app; right; constructor|done].
Qed.

Lemma djikstra_entries_ok g w :
  w_router w = r → wf_queue sizeof_d_link (g_subnets g) → packet (g_subnets g) = subs →
  ∃ entries, djikstra_entries r g c w = Ok entries w ∧ entries_ok (length subs) entries.
Proof.
  intros Hr Hw Hs. unfold djikstra_entries. rewrite (for_unsafe_spec sizeof_d_link) by done.
  rewrite Hs.
  destruct (for_array_inv (λ k es w', w' = w ∧ entries_ok k es) (add_entry r c) subs 0 [] w)
    as (es & w' & E & -> & Hes).
  - split; [done|]. split; [constructor|]. intros; lia.
  - intros k l es w1 Hk [-> Hes]. rewrite Nat.add_0_l in *.
    destruct (add_entry_ok k l es w Hr Hk Hes) as (es' & E & Hes').
    exists es', w. by rewrite Nat.add_1_r.
  - by exists es.
Qed.
End table_phase.

Lemma djikstra_static_ok q entries w :
  wf_queue sizeof_rtable_entry q →
  djikstra_static q entries w
  = Ok (entries ++ filter (λ e, dynamic e = false) (packet q)) w.
Proof.
  intros Hw. unfold djikstra_static. rewrite (for_unsafe_spec sizeof_rtable_entry) by done.
  generalize 0%nat at 1. intros i. revert i entries.
  induction (packet q) as [|e l IH]; intros i entries; cbn [for_array]; [by rewrite app_nil_r|].
  rewrite bind_ret, IH. destruct (dynamic e) eqn:E.
  - by rewrite filter_cons_False by congruence.
  - by rewrite filter_cons_True, <-app_assoc by done.
Qed.

(** ** Sorting and filling *)

Definition mask_le (e1 e2 : rtable_entry) : Prop := netmask e1 <= netmask e2.

Lemma sort_insert_Permutation {A} (cmp : A → A → Z) x l : sort_insert cmp x l ≡ₚ x :: l.
Proof.
  induction l as [|y l IH]; [done|]. cbn [sort_insert]. destruct (_ <=? _); [done|].
  rewrite IH. constructor.
Qed.

Lemma qsort_Permutation {A} (cmp : A → A → Z) l : qsort cmp l ≡ₚ l.
Proof. induction l as [|x l IH]; [done|]. cbn [qsort]. by rewrite sort_insert_Permutation, IH. Qed.

Lemma sort_insert_sorted x l :
  StronglySorted mask_le l → StronglySorted mask_le (sort_insert cmpfunc x l).
Proof.
  induction 1 as [|y l Hl IH Hy]; cbn [sort_insert]; [by repeat constructor|].
  unfold cmpfunc at 1. destruct (Z.leb_spec (netmask x) (netmask y)) as [Hxy|Hxy]; simpl.
  - constructor; [by constructor|]. constructor; [done|]. eapply Forall_impl; [exact Hy|].
    unfold mask_le. intros z Hz. simpl in *. lia.
  - constructor; [done|]. rewrite sort_insert_Permutation. constructor; [unfold mask_le; lia|done].
Qed.

Lemma qsort_sorted l : StronglySorted mask_le (qsort cmpfunc l).
Proof. induction l as [|x l IH]; [constructor|]. by apply sort_insert_sorted. Qed.

Lemma fill_table_spec q entries :
  wf_queue sizeof_rtable_entry q →
  wf_queue sizeof_rtable_entry (fill_table q entries) ∧
  packet (fill_table q entries) = foldl snoc_new (packet q) entries.
Proof.
  revert q. induction entries as [|e es IH]; intros q Hw; [done|].
  cbn [fill_table foldl]. fold (fill_table
    (if queue_existsunsafe q e =? -1 then queue_add_unsafe q e sizeof_rtable_entry else q) es).
  pose proof (queue_existsunsafe_none _ q e Hw) as Hn.
  destruct (queue_add_unsafe_spec _ q e Hw) as [Hw' Hp'].
  unfold snoc_new at 2.
  destruct (Z.eqb_spec (queue_existsunsafe q e) (-1)), (decide (e ∈ packet q)); try tauto.
  - rewrite <-Hp'. by apply IH.
  - by apply IH.
Qed.

Lemma StronglySorted_app_inv {A} (R : A → A → Prop) l1 l2 :
  StronglySorted R (l1 ++ l2) → ∀ x y, x ∈ l1 → y ∈ l2 → R x y.
Proof.
  induction l1 as [|a l1 IH]; simpl; intros Hs x y Hx Hy; [by apply elem_of_nil in Hx|].
  inversion_clear Hs as [|? ? Hs' Ha]. apply elem_of_cons in Hx as [->|Hx]; [|by apply IH].
  rewrite Forall_forall in Ha. apply Ha, elem_of_app. by right.
Qed.

Lemma StronglySorted_snoc {A} (R : A → A → Prop) l x :
  StronglySorted R l → Forall (λ y, R y x) l → StronglySorted R (l ++ [x]).
Proof.
  induction 1 as [|y l Hl IH Hy]; intros Hx; simpl; [by repeat constructor|].
  inversion_clear Hx. constructor; [by apply IH|]. by apply Forall_app_2; [|constructor].
Qed.

Lemma distinct_sorted {A} `{EqDecision A} (R : A → A → Prop) l :
  StronglySorted R l → StronglySorted R (distinct l).
Proof.
  induction l as [|x l IH] using rev_ind; [done|]. intros Hs. rewrite distinct_snoc.
  assert (StronglySorted R l) as Hl.
  { clear IH. induction l as [|y l IH]; [constructor|]. simpl in Hs.
    inversion_clear Hs as [|? ? Hs' Hy]. constructor; [by apply IH|].
    by apply Forall_app in Hy as [? _]. }
  unfold snoc_new. destruct (decide _); [by apply IH|]. apply StronglySorted_snoc; [by apply IH|].
  apply Forall_forall. intros y Hy. rewrite elem_of_distinct in Hy.
  apply (StronglySorted_app_inv R l [x] Hs y x Hy). constructor.
Qed.

Lemma queue_purge_unsafe_spec {A} sz (q : dataqueue A) :
  wf_queue sz q → wf_queue sz (queue_purge_unsafe q) ∧ packet (queue_purge_unsafe q) = [].
Proof.
  intros Hw. unfold queue_purge_unsafe.
  destruct (purge_unsafe_loop_spec sz q (Z.to_nat (size q)) Hw) as (? & ? & _); [|done].
  rewrite (wf_size _ _ Hw). lia.
Qed.

(** * The whole computation *)

Definition locked_view (intf : interface) : interface :=
  set_if_neighbours (queue_lockall (if_neighbours intf)) intf.

Lemma advertised_locked r : advertised (map_neighbours queue_lockall r) = advertised r.
Proof.
  unfold advertised, map_neighbours. cbn [interfaces set_interfaces pw_router].
  by rewrite list_fmap_bind.
Qed.

(** The data the computation reads. *)
Definition wf_topology (r : router) : Prop :=
  Forall wf_interface (interfaces r) ∧ Z.of_nat (length (known_subnets r)) + 1 < INT_MAX ∧
  Z.of_nat (length (interfaces r)) < INT_MAX.

Definition static_of (l : list rtable_entry) : list rtable_entry :=
  filter (λ e, dynamic e = false) l.

(** What the table holds after the computation. *)
Definition recomputed (r : router) (old new : list rtable_entry) : Prop :=
  StronglySorted mask_le new ∧ NoDup new ∧
  (∀ e, e ∈ old → dynamic e = false → e ∈ new) ∧
  (∀ e, e ∈ new → (e ∈ old ∧ dynamic e = false) ∨
                  dynamic_route (interfaces r) (known_subnets r) (known_topology r) e) ∧
  (∀ l j y n, l ∈ known_subnets r → interfaces r !! j = Some y →
     hops (known_topology r) (own_subnet y) l n → covered (interfaces r) (known_topology r) l new).

Lemma known_subnets_links r e : e ∈ known_topology r → lsa_link e ∈ known_subnets r.
Proof.
  unfold known_topology, known_subnets. rewrite !elem_of_distinct. intros He.
  apply list_elem_of_fmap. by exists e.
Qed.

Lemma own_subnet_known r i x : interfaces r !! i = Some x → own_subnet x ∈ known_subnets r.
Proof.
  intros Hx. unfold known_subnets. rewrite elem_of_distinct. apply list_elem_of_fmap.
  exists (own_lsa (pw_router_id (pw_router r)) x). split; [done|]. unfold advertised.
  apply list_elem_of_bind. exists x. split; [constructor|]. by eapply list_elem_of_lookup_2.
Qed.

(** The routes computed from well-formed data, before they are merged with the
    static ones. *)
Lemma dynamic_entries_ok r w :
  wf_topology r → w_router w = r →
  ∃ g graph c entries,
    djikstra_gather r w = Ok g w ∧ djikstra_graph (g_subnets g) (g_topology g) w = Ok graph w ∧
    djikstra_choose r g graph w = Ok c w ∧ djikstra_entries r g c w = Ok entries w ∧
    entries_ok r (known_subnets r) (known_topology r) (length (known_subnets r)) entries.
Proof.
  intros (Hwf & Hsmall & Hfew) Hr.
  destruct (djikstra_gather_ok r w Hwf) as (g & Eg & Hs & Es & Ht & Et & Hrt).
  fold (known_subnets r) in Es. fold (known_topology r) in Et.
  destruct (djikstra_graph_ok (g_subnets g) (g_topology g) Hs Ht) with (w := w)
    as (graph & Egr & Hu & He).
  { rewrite Es. apply NoDup_distinct. }
  { rewrite Es, Et. apply known_subnets_links. }
  destruct (djikstra_choose_ok (interfaces r) (g_subnets g) (known_topology r) graph g)
    with (r := r) (w := w) as (c & Ec & Hlen & Hc); try done.
  { rewrite Es. apply NoDup_distinct. }
  { rewrite Es. apply known_subnets_links. }
  { rewrite Es. apply own_subnet_known. }
  { by rewrite Et in He. }
  { by rewrite Es. }
  destruct (djikstra_entries_ok r (known_subnets r) (known_topology r) c) with (g := g) (w := w)
    as (es & Ees & Hes); try done.
  { intros v l Hv. apply Hc. by rewrite Es. }
  by exists g, graph, c, es.
Qed.

Lemma nearest_locked r topo l i x n :
  nearest (interfaces (map_neighbours queue_lockall r)) topo l i x n →
  ∃ x0, x = locked_view x0 ∧ nearest (interfaces r) topo l i x0 n.
Proof.
  unfold map_neighbours. cbn [interfaces set_interfaces]. intros (Hx & Hh & Hmin).
  apply list_lookup_fmap_Some in Hx as (x0 & -> & Hx0). exists x0. split_and!; [done|].
  split_and!; [done..|]. intros j y m Hj Hm. apply (Hmin j (locked_view y) m); [|done].
  by rewrite list_lookup_fmap, Hj.
Qed.

Lemma dynamic_route_locked r subs topo e :
  dynamic_route (interfaces (map_neighbours queue_lockall r)) subs topo e →
  dynamic_route (interfaces r) subs topo e.
Proof.
  intros (Hd & Hl & x & (x0 & -> & Hx)%nearest_locked & Hne & Hhop).
  split_and!; [done..|]. by exists x0.
Qed.

Lemma covered_locked r topo l t :
  covered (interfaces (map_neighbours queue_lockall r)) topo l t → covered (interfaces r) topo l t.
Proof. intros (i & x & n & (x0 & -> & Hx)%nearest_locked & H). by exists i, x0, n. Qed.

Lemma wf_topology_locked r : wf_topology r → wf_topology (map_neighbours queue_lockall r).
Proof.
  intros (Hwf & Hs & Hn). unfold wf_topology, known_subnets. rewrite advertised_locked.
  split_and!; [|done|]; unfold map_neighbours; cbn [interfaces set_interfaces].
  - apply Forall_fmap. eapply Forall_impl; [exact Hwf|]. intros x (Hq & Hnb & Hm).
    split_and!; [by apply wf_lock|done..].
  - by rewrite length_fmap.
Qed.

Definition route_interfaces_ok (r : router) : Prop :=
  wf_table (ip_table r) ∧ routes_bound (length (interfaces r)) (packet (ip_table r)).

Lemma known_masks r l :
  Forall wf_interface (interfaces r) → l ∈ known_subnets r → is_u32 (dl_netmask l).
Proof.
  intros Hwf. unfold known_subnets. rewrite elem_of_distinct.
  intros (e & -> & He)%list_elem_of_fmap. unfold advertised in He.
  apply list_elem_of_bind in He as (x & He & Hx).
  rewrite Forall_forall in Hwf. destruct (Hwf x Hx) as (_ & Hnb & Hm).
  unfold advertised_at in He. apply elem_of_cons in He as [->|He]; [done|].
  apply list_elem_of_bind in He as (n & He & Hn). rewrite Forall_forall in Hnb.
  specialize (Hnb n Hn). unfold advertised_by, lsas_of, wf_neighbour in *.
  destruct (lsu_lastcontents n) as [|arr|]; [by apply elem_of_nil in He| |done].
  apply list_elem_of_fmap in He as (a & -> & Ha). destruct Hnb as [_ Hall].
  rewrite Forall_forall in Hall. by apply (Hall a).
Qed.

Lemma merged_table_ok r entries old :
  wf_topology r → Forall (λ e, is_u32 (netmask e)) old → routes_bound (length (interfaces r)) old →
  entries_ok (map_neighbours queue_lockall r) (known_subnets r) (known_topology r)
    (length (known_subnets r)) entries →
  let new := distinct (qsort cmpfunc (entries ++ static_of old)) in
  recomputed r old new ∧ routes_bound (length (interfaces r)) new ∧
  Forall (λ e, is_u32 (netmask e)) new.
Proof.
  intros (Hwf & _) Hmask Hb [Hdyn Hcov] new.
  assert (∀ e, e ∈ new ↔ e ∈ entries ∨ (e ∈ old ∧ dynamic e = false)) as Hnew.
  { intros e. unfold new, static_of. rewrite elem_of_distinct, qsort_Permutation, elem_of_app.
    rewrite list_elem_of_filter. naive_solver. }
  assert (∀ e, e ∈ entries →
    dynamic_route (interfaces r) (known_subnets r) (known_topology r) e) as Hroute.
  { intros e He. apply dynamic_route_locked. by eapply Forall_forall in Hdyn. }
  split_and!; [split_and!|..].
  - apply distinct_sorted, qsort_sorted.
  - apply NoDup_distinct.
  - intros e He Hd. apply Hnew. by right.
  - intros e [He|He]%Hnew; [right; by apply Hroute|by left].
  - intros l j y n [v Hv]%list_elem_of_lookup Hj Hn. apply covered_locked.
    eapply covered_mono; [|eapply (Hcov v l j (locked_view y) n)].
    + intros e He. apply Hnew. by left.
    + by eapply lookup_lt_Some.
    + done.
    + unfold map_neighbours. cbn. by rewrite list_lookup_fmap, Hj.
    + done.
  - apply Forall_forall. intros e [He|[He _]]%Hnew.
    + destruct (Hroute e He) as (_ & _ & x & (Hx & _) & _). by eapply lookup_lt_Some.
    + by eapply Forall_forall in Hb.
  - apply Forall_forall. intros e [He|[He _]]%Hnew.
    + destruct (Hroute e He) as (_ & Hl & _). exact (known_masks r _ Hwf Hl).
    + by eapply Forall_forall in Hmask.
Qed.

(** The world after the computation: a new table, neighbour queues locked and
    unlocked once. *)
Definition after_recompute (q : dataqueue rtable_entry) (w : world) : world :=
  set_w_router
    (map_neighbours (λ nb, queue_unlockall (queue_lockall nb)) (set_ip_table q (w_router w))) w.

Lemma unlock_after_lock q1 q w :
  let w1 := set_w_router (map_neighbours queue_lockall (w_router w)) w in
  let w2 := set_w_router (set_ip_table q1 (w_router w1)) w1 in
  let w3 := set_w_router (set_ip_table q (w_router w2)) w2 in
  set_w_router (map_neighbours queue_unlockall (w_router w3)) w3 = after_recompute q w.
Proof.
  destruct w as [[] ? ? ? ? ? ? ? ? ?]. unfold after_recompute, map_neighbours. simpl.
  unfold set_w_router, set_interfaces, set_ip_table. simpl. do 2 f_equal.
  rewrite <-list_fmap_compose. done.
Qed.

Lemma djikstra_recompute_run w :
  wf_topology (w_router w) → route_interfaces_ok (w_router w) →
  static_of (packet (ip_table (w_router w))) ≠ [] →
  ∃ q, djikstra_recompute w = Ok tt (after_recompute q w) ∧ wf_table q ∧
       routes_bound (length (interfaces (w_router w))) (packet q) ∧
       recomputed (w_router w) (packet (ip_table (w_router w))) (packet q).
Proof.
  intros Htop [[Hwq Hmask] Hb] Hst. unfold djikstra_recompute, djikstra_lock_router. mrun.
  set (w1 := set_w_router (map_neighbours queue_lockall (w_router w)) w).
  change (w_router w1) with (map_neighbours queue_lockall (w_router w)).
  set (r1 := map_neighbours queue_lockall (w_router w)).
  destruct (dynamic_entries_ok r1 w1 (wf_topology_locked _ Htop) eq_refl)
    as (g & graph & c & es & E1 & E2 & E3 & E4 & Hes).
  mstep E1. mstep E2. mstep E3. mstep E4.
  change (ip_table r1) with (ip_table (w_router w)). set (old := ip_table (w_router w)) in *.
  mstep (djikstra_static_ok (queue_lockall old) es w1 (wf_lock _ _ Hwq)).
  change (packet (queue_lockall old)) with (packet old). fold (static_of (packet old)).
  unfold known_subnets, known_topology in Hes. unfold r1 in Hes. rewrite advertised_locked in Hes.
  destruct (merged_table_ok (w_router w) es (packet old) Htop Hmask Hb Hes)
    as (Hrec & Hb' & Hm').
  destruct (queue_purge_unsafe_spec sizeof_rtable_entry (queue_lockall old)) as [Hwp Hp];
    [by apply wf_lock|].
  set (sorted := qsort cmpfunc (es ++ static_of (packet old))) in *.
  destruct (fill_table_spec (queue_purge_unsafe (queue_lockall old)) sorted Hwp) as [Hwf Hpf].
  rewrite Hp in Hpf. change (foldl snoc_new [] sorted) with (distinct sorted) in Hpf.
  destruct sorted as [|e0 rest] eqn:Esort.
  { apply (f_equal length) in Esort. unfold sorted in Esort.
    rewrite qsort_Permutation, length_app in Esort. destruct (static_of (packet old)); [done|].
    simpl in Esort. lia. }
  mrun. set (q1 := queue_unlockall _).
  assert (packet q1 = distinct (e0 :: rest)) as Hpq1 by exact Hpf.
  assert (wf_table q1) as Hq1 by (split; [by apply wf_unlock|by rewrite Hpq1]).
  destruct (ip_print_table_ok (set_w_router (set_ip_table q1 r1) w1)) as (q & Hq & Hpq & E);
    [done| |].
  { change (routes_bound (length (interfaces r1)) (packet q1)). rewrite Hpq1.
    unfold r1, map_neighbours. cbn [interfaces set_interfaces]. by rewrite length_fmap. }
  mstep E. exists q. change (packet q = packet q1) in Hpq. rewrite Hpq1 in Hpq.
  split_and!; [|done|by rewrite Hpq|by rewrite Hpq].
  unfold djikstra_unlock_router, modify_router. f_equal.
  exact (unlock_after_lock q1 q w).
Qed.
