(* ===== verification/Pwospf.v ===== *)
(** The Pee-Wee OSPF protocol (pwospf.c).

    Every interface keeps the queue of the routers heard on it.  HELLO packets
    create and refresh entries, LINK packets carry the advertisements
    [lsu_lastcontents] holds for an entry; every change recomputes the routing
    table and floods the own advertisements.  A PWOSPF header lies behind the
    IPv4 header of its packet.  An entry of the queue is handled through a
    pointer in the source: here through its index, and a change is written
    back to the queue. *)

From stdpp Require Import base tactics list numbers strings.
From Stdlib Require Import ZArith Lia.
From S2P Require Import Prelude Dataqueue Common Packets State Loops Ethernet Arp Routing.
From S2P Require Import IpHeader Dijkstra.

Local Open Scope Z_scope.

(** The neighbour queue of interface [i]. *)
Definition get_neighbours (i : nat) : M (dataqueue pwospf_list_entry) :=
  intf ← get_interface i; mret (if_neighbours intf).

Definition modify_neighbours (i : nat)
    (f : dataqueue pwospf_list_entry → dataqueue pwospf_list_entry) : M unit :=
  q ← get_neighbours i; modify_router (put_neighbours i (f q)).

(** Index and value of the first entry of a router; [None] is a failed
    assertion, [Some None] the result [NULL]. *)
Fixpoint getneighbour_loop (fuel n : nat) (neighbours : dataqueue pwospf_list_entry)
    (router_id : Z) : option (option (nat * pwospf_list_entry)) :=
  match fuel with
  | O => Some None
  | S fuel' =>
      if Z.of_nat n <? size neighbours then
        match queue_getidunsafe neighbours (Z.of_nat n) with
        | Some (entry, sz) =>
            if sz =? sizeof_pwospf_list_entry then
              if neighbour_id entry =? router_id then Some (Some (n, entry))
              else getneighbour_loop fuel' (S n) neighbours router_id
            else None
        | None => getneighbour_loop fuel' (S n) neighbours router_id
        end
      else Some None
  end.

Definition getneighbourfromidunsafe (neighbours : dataqueue pwospf_list_entry) (router_id : Z)
  : option (option (nat * pwospf_list_entry)) :=
  getneighbour_loop (Z.to_nat (size neighbours)) 0 neighbours router_id.

(** ** Flooding *)

Definition pwospf_reflood_to (pi : packet_info) (i : nat) (dest : Z) : M packet_info :=
  intf ← get_interface i;
  p ← in_bounds (ip_set "dst_ip" (pi_packet pi) dest);
  p ← in_bounds (ip_set "src_ip" p (if_ip intf));
  arp ← lookup_arp_ip dest;
  match arp with
  | Some (_, arp_dest) =>
      p ← in_bounds (ip_fill_checksum p);
      ttl ← in_bounds (ip_get "ttl" p);
      if ttl <? 1 then mret (with_packet p pi)
      else
        res ← ethernet_packet_send (Some i) (arp_mac arp_dest) (if_mac intf) (htons ETH_IP_TYPE)
                (with_packet p pi);
        mret res.1
  | None =>
      arp_queue_ippacket_for_send_on_arp_request_response (with_packet p pi) (Some i) dest;;
      mret (with_packet p pi)
  end.

(** [excluded_ip] is the address of the neighbour the packet came from, in the
    queue of interface [locked]. *)
Definition pwospf_reflood_packetpartiallyunsafe (pi : packet_info) (excluded_ip : Z) (locked : nat)
  : M packet_info :=
  r ← get_router;
  for_array (λ i intf pi,
    neighbours ← get_neighbours i;
    if bool_decide (i = locked) then
      for_unsafe sizeof_pwospf_list_entry
        (λ n entry pi,
           if negb (neighbour_ip entry =? excluded_ip)
           then pwospf_reflood_to pi i (neighbour_ip entry) else mret pi) neighbours pi
    else
      res ← for_locked_M sizeof_pwospf_list_entry
        (λ n entry pi, pwospf_reflood_to pi i (neighbour_ip entry)) neighbours pi;
      modify_router (put_neighbours i res.1);;
      mret res.2) 0 (interfaces r) pi.

(** ** Link state updates *)

Definition link_get (f : string) (p : list Z) : option Z := getf pwospf_packet_link_t f p L4_BASE.
Definition link_set (f : string) (p : list Z) (v : Z) : option (list Z) :=
  setf pwospf_packet_link_t f p L4_BASE v.

(** Offset of [payload[g]]. *)
Definition payload_base (g : nat) : nat :=
  (L4_BASE + sizeof pwospf_packet_link_t + g * sizeof pwospf_lsa_layout)%nat.

Definition encode_lsa (a : pwospf_lsa) : list Z :=
  le_split 4 (lsa_subnet a) ++ le_split 4 (lsa_netmask a) ++ le_split 4 (lsa_router_id a).

Definition payload_get (p : list Z) (g : nat) : option pwospf_lsa :=
  s ← getf pwospf_lsa_layout "subnet" p (payload_base g);
  m ← getf pwospf_lsa_layout "netmask" p (payload_base g);
  r ← getf pwospf_lsa_layout "router_id" p (payload_base g);
  Some (Lsa s m r).

(** [memcpy] of the whole payload. *)
Fixpoint payload_read (n g : nat) (p : list Z) : option (list pwospf_lsa) :=
  match n with
  | O => Some []
  | S n' => a ← payload_get p g; rest ← payload_read n' (S g) p; Some (a :: rest)
  end.

(** [for (g ...) if (payload[g].router_id == from) payload[g].router_id = to]. *)
Fixpoint payload_rename (n g : nat) (from to : Z) (p : list Z) : option (list Z) :=
  match n with
  | O => Some p
  | S n' =>
      r ← getf pwospf_lsa_layout "router_id" p (payload_base g);
      p ← (if r =? from then setf pwospf_lsa_layout "router_id" p (payload_base g) to else Some p);
      payload_rename n' (S g) from to p
  end.

(** The inner loop over [b]. *)
Fixpoint lsa_discovered (n j : nat) (entry : pwospf_lsa) (b : list Z) : option bool :=
  match n with
  | O => Some false
  | S n' =>
      entry2 ← payload_get b j;
      if memcmp_eq entry entry2 then Some true else lsa_discovered n' (S j) entry b
  end.

(** Every one of the [size] entries of [a] occurs in [b]. *)
Fixpoint compare_lsus_loop (n i size : nat) (a : lsa_array) (b : list Z) : M bool :=
  match n with
  | O => mret true
  | S n' =>
      entry ← lsa_read a i;
      discovered ← in_bounds (lsa_discovered size 0 entry b);
      if (discovered : bool) then compare_lsus_loop n' (S i) size a b else mret false
  end.

Definition compare_lsus (a : lsa_array) (b : list Z) (size : Z) : M bool :=
  compare_lsus_loop (Z.to_nat size) 0 (Z.to_nat size) a b.

(** [malloc] and [memcpy] of [payload_count] entries: a negative count is a
    huge [size_t], the allocation fails and the copy writes through [NULL]. *)
Definition copy_payload (payload_count : Z) (p : list Z) : M lsa_array :=
  if payload_count <? 0 then throw NullDeref
  else l ← in_bounds (payload_read (Z.to_nat payload_count) 0 p); mret (LsaArray l).

(** The database entry after an update; its old array is reused or
    reallocated, which a freed one does not survive.  [realloc] to zero bytes
    frees the array and returns [NULL] (as in glibc), [malloc(0)] does not. *)
Definition store_payload (neighbour : pwospf_list_entry) (payload_count : Z) (p : list Z)
  : M lsa_array :=
  match lsu_lastcontents neighbour with
  | LsaFreed =>
      if lsu_lastcontents_count neighbour =? payload_count then throw UseAfterFree
      else throw BadFree
  | LsaArray _ =>
      if negb (lsu_lastcontents_count neighbour =? payload_count) && (payload_count =? 0)
      then mret LsaNull else copy_payload payload_count p
  | LsaNull => copy_payload payload_count p
  end.

Definition set_lsu (contents : lsa_array) (count seq : Z) (tv : timeval) (e : pwospf_list_entry)
  : pwospf_list_entry :=
  ListEntry (neighbour_id e) (neighbour_ip e) (le_helloint e) (le_timestamp e)
    (immediate_neighbour e) seq contents count tv.

(** ** Own advertisements *)

Definition topology_neighbour (intf : interface) (n : nat) (entry : pwospf_list_entry)
    (s : dataqueue pwospf_lsa * Z) : M (dataqueue pwospf_lsa * Z) :=
  if negb (immediate_neighbour entry =? 0) then
    let intfentry := Lsa (Z.land (if_subnet_mask intf) (if_ip intf)) (if_subnet_mask intf)
                       (neighbour_id entry) in
    if queue_existsunsafe s.1 intfentry =? -1
    then mret (queue_add s.1 intfentry sizeof_pwospf_lsa, s.2 + 1)
    else mret s
  else mret s.

Definition get_topology (topology : dataqueue pwospf_lsa) : M (dataqueue pwospf_lsa * Z) :=
  r ← get_router;
  for_array (λ i intf s,
    let intfentry := Lsa (Z.land (if_subnet_mask intf) (if_ip intf)) (if_subnet_mask intf) 0 in
    let s :=
      if queue_existsunsafe s.1 intfentry =? -1
      then (queue_add s.1 intfentry sizeof_pwospf_lsa, s.2 + 1) else s in
    neighbours ← get_neighbours i;
    res ← for_locked_M sizeof_pwospf_list_entry (topology_neighbour intf) neighbours s;
    modify_router (put_neighbours i res.1);;
    mret res.2) 0 (interfaces r) (topology, 0).

Definition hello_set (f : string) (p : list Z) (v : Z) : option (list Z) :=
  setf pwospf_packet_hello_t f p L4_BASE v.
Definition hello_get (f : string) (p : list Z) : option Z := getf pwospf_packet_hello_t f p L4_BASE.

Definition generate_pwospf_hello_header (rid aid netmask : Z) (p : list Z) : option (list Z) :=
  p ← hello_set "version" p OSPF_VERSION;
  p ← hello_set "type" p OSPF_TYPE_HELLO;
  p ← hello_set "len" p (htons 32);
  p ← hello_set "router_id" p rid;
  p ← hello_set "area_id" p aid;
  p ← hello_set "autotype" p 0;
  p ← hello_set "auth_type" p 0;
  p ← hello_set "auth_data" p 0;
  p ← hello_set "netmask" p netmask;
  p ← hello_set "helloint" p (htons HELLOINT);
  p ← hello_set "padding" p 0;
  p ← hello_set "checksum" p 0;
  c ← generatechecksum (drop L4_BASE p) 32;
  hello_set "checksum" p c.

(** The sequence number is the global [hid], which is incremented. *)
Definition generate_pwospf_link_header (rid aid advert len : Z) (p : list Z) : M (list Z) :=
  p ← in_bounds (link_set "version" p OSPF_VERSION);
  p ← in_bounds (link_set "type" p OSPF_TYPE_LINK);
  p ← in_bounds (link_set "len" p (htons (u16 len)));
  p ← in_bounds (link_set "router_id" p rid);
  p ← in_bounds (link_set "area_id" p aid);
  p ← in_bounds (link_set "autotype" p 0);
  p ← in_bounds (link_set "auth_type" p 0);
  p ← in_bounds (link_set "auth_data" p 0);
  w ← get_world;
  p ← in_bounds (link_set "seq" p (htons (w_hid w)));
  put_world (set_w_hid (u16 (w_hid w + 1)) w);;
  p ← in_bounds (link_set "ttl" p (htons 64));
  p ← in_bounds (link_set "advert" p (htonl advert));
  p ← in_bounds (link_set "checksum" p 0);
  c ← in_bounds (generatechecksum (drop L4_BASE p) (s32 (32 + advert * 12)));
  in_bounds (link_set "checksum" p c).

(** The headers for one neighbour and the frame for it. *)
Definition send_lsa_to (topologysize lsa_packet_length : Z) (i : nat) (intf : interface) (n : nat)
    (entry : pwospf_list_entry) (pi : packet_info) : M packet_info :=
  if immediate_neighbour entry =? 1 then
    p ← in_bounds (generate_ipv4_header (if_ip intf) lsa_packet_length (pi_packet pi) IP_TYPE_OSPF
                     (neighbour_ip entry));
    r ← get_router;
    p ← generate_pwospf_link_header (pw_router_id (pw_router r)) 0 topologysize lsa_packet_length p;
    res ← ethernet_packet_send (Some i) MAC_BROADCAST (if_mac intf) (htons ETH_IP_TYPE)
            (with_packet p pi);
    mret res.1
  else mret pi.

(** The entries of the topology behind the headers. *)
Definition write_topology (topology : dataqueue pwospf_lsa) (p : list Z) : M (list Z) :=
  for_unsafe sizeof_pwospf_lsa
    (λ i entry p, in_bounds (put_bytes p (payload_base i) (encode_lsa entry))) topology p.

Definition send_pwospf_lsa_packet : M unit :=
  res ← get_topology queue_init;
  let topology := res.1 in
  let topologysize := res.2 in
  if topologysize =? 0 then mret tt
  else
    let lsa_packet_length := 32 + topologysize * 12 in
    let len := 34 + lsa_packet_length in
    p ← junk (Z.to_nat len);
    p ← write_topology topology p;
    r ← get_router;
    for_array (λ i intf pi,
      let pi := PacketInfo (pi_packet pi) (pi_len pi) (Some i) in
      for_unsafe sizeof_pwospf_list_entry (send_lsa_to topologysize lsa_packet_length i intf)
        (if_neighbours intf) pi) 0 (interfaces r) (PacketInfo p len None);;
    now ← gettimeofday;
    modify_router (set_last_lsu now).

Definition send_pwospf_hello_packet : M unit :=
  let len := 34 + 32 in
  p ← junk (Z.to_nat len);
  r ← get_router;
  for_array (λ i intf pi,
    p ← in_bounds (generate_ipv4_header (if_ip intf) 32 (pi_packet pi) IP_TYPE_OSPF ALLSPFRouters);
    p ← in_bounds (generate_pwospf_hello_header (pw_router_id (pw_router r)) 0
                     (if_subnet_mask intf) p);
    res ← ethernet_packet_send (Some i) MAC_BROADCAST (if_mac intf) (htons ETH_IP_TYPE)
            (PacketInfo p len (Some i));
    mret res.1) 0 (interfaces r) (PacketInfo p len None);;
  mret tt.

(** [djikstra_recompute(router); send_pwospf_lsa_packet(router);]. *)
Definition recompute_and_tell : M unit := djikstra_recompute;; send_pwospf_lsa_packet.
