(* ===== verification/PwospfInput.v ===== *)
(** Reception of PWOSPF packets and the maintenance thread (pwospf.c). *)

From stdpp Require Import base tactics list numbers strings.
From Stdlib Require Import ZArith Lia.
From S2P Require Import Prelude Dataqueue Common Packets State Loops Ethernet Arp Routing.
From S2P Require Import IpHeader Dijkstra Pwospf.

Local Open Scope Z_scope.

(** Memory of a local variable that was not initialised. *)
Definition junk_time : M timeval := λ w, Ok (Timeval (w_junk w 0) (w_junk w 1)) w.
Definition junk16 : M Z := λ w, Ok (u16 (w_junk w 0)) w.

(** ** LINK packets *)

(** A packet of a known neighbour: entry [n] of the queue of interface [i]. *)
Definition link_known (pi : packet_info) (i n : nat) (neighbour : pwospf_list_entry)
    (rid seq payload_count : Z) : M unit :=
  let pc := Z.to_nat payload_count in
  let known := negb (bool_decide (lsu_lastcontents neighbour = LsaNull)) in
  if known && (lsu_lastseq neighbour =? seq) then modify_neighbours i queue_unlockall
  else
    pi ← pwospf_reflood_packetpartiallyunsafe pi (neighbour_ip neighbour) i;
    p ← in_bounds (payload_rename pc 0 0 rid (pi_packet pi));
    same ← (if known && (lsu_lastcontents_count neighbour =? payload_count)
            then compare_lsus (lsu_lastcontents neighbour) p (lsu_lastcontents_count neighbour)
            else mret false);
    if (same : bool) then
      now ← gettimeofday;
      modify_neighbours i (λ q, queue_unlockall (queue_write q n
        (set_lsu (lsu_lastcontents neighbour) (lsu_lastcontents_count neighbour) seq now
           neighbour)))
    else
      contents ← store_payload neighbour payload_count p;
      now ← gettimeofday;
      modify_neighbours i (λ q, queue_unlockall (queue_write q n
        (set_lsu contents payload_count seq now neighbour)));;
      recompute_and_tell.

(** A packet of a router that is not in the queue yet.  The fields [helloint]
    and [timestamp] of the new entry are not initialised. *)
Definition link_new (pi : packet_info) (i : nat) (rid seq src_ip payload_count : Z) : M unit :=
  let pc := Z.to_nat payload_count in
  p ← in_bounds (payload_rename pc 0 0 rid (pi_packet pi));
  contents ← copy_payload payload_count p;
  now ← gettimeofday;
  hello ← junk16;
  stamp ← junk_time;
  let newneighbour := ListEntry rid src_ip hello stamp 0 seq contents payload_count now in
  modify_neighbours i (λ q, queue_lockall (queue_add q newneighbour sizeof_pwospf_list_entry));;
  neighbours ← get_neighbours i;
  found ← from_option_M AssertFailed (getneighbourfromidunsafe neighbours rid);
  match found with
  | Some (_, neighbour) =>
      p ← in_bounds (payload_rename pc 0 rid 0 p);
      pwospf_reflood_packetpartiallyunsafe (with_packet p pi) (neighbour_ip neighbour) i;;
      mret tt
  | None => mret tt
  end;;
  modify_neighbours i queue_unlockall;;
  recompute_and_tell.

(** [payload_count] is a signed [int]; the size computed from it wraps. *)
Definition pwospf_onreceive_link (pi : packet_info) : M unit :=
  let p := pi_packet pi in
  advert ← in_bounds (link_get "advert" p);
  let payload_count := s32 (ntohl advert) in
  if pi_len pi <? u64 (66 + payload_count * 12) then mret tt
  else
    c ← in_bounds (generatechecksum (drop L4_BASE p) (s32 (32 + payload_count * 12)));
    if negb (c =? 0) then mret tt
    else
      rid ← in_bounds (link_get "router_id" p);
      seq ← in_bounds (link_get "seq" p);
      src_ip ← in_bounds (ip_get "src_ip" p);
      r ← get_router;
      i ← from_option_M NullDeref (pi_interface pi);
      if rid =? pw_router_id (pw_router r) then mret tt
      else
        modify_neighbours i queue_lockall;;
        neighbours ← get_neighbours i;
        found ← from_option_M AssertFailed (getneighbourfromidunsafe neighbours rid);
        match found with
        | Some (n, neighbour) => link_known pi i n neighbour rid seq payload_count
        | None =>
            modify_neighbours i queue_unlockall;;
            link_new pi i rid seq src_ip payload_count
        end.

(** ** HELLO packets *)

(** The loop over the neighbours; the state is the number of clock reads and,
    once an entry matched, whether it was not an immediate neighbour. *)
Definition hello_body (clock : nat → timeval) (src_ip rid helloint : Z) (i : nat)
    (entry : pwospf_list_entry) (s : nat * option bool)
  : verdict pwospf_list_entry * (nat * option bool) :=
  if neighbour_ip entry =? src_ip then
    (Return (ListEntry rid (neighbour_ip entry) helloint (clock s.1) 1 (lsu_lastseq entry)
               (lsu_lastcontents entry) (lsu_lastcontents_count entry) (lsu_timestamp entry)),
     (S s.1, Some (immediate_neighbour entry =? 0)))
  else (Unlock entry, s).

(** [lsu_lastseq] and [lsu_timestamp] of a new entry are not initialised. *)
Definition pwospf_onreceive_hello (pi : packet_info) : M unit :=
  let p := pi_packet pi in
  i ← from_option_M NullDeref (pi_interface pi);
  intf ← get_interface i;
  c ← in_bounds (generatechecksum (drop L4_BASE p) 32);
  if negb (c =? 0) then mret tt
  else
    netmask ← in_bounds (hello_get "netmask" p);
    if negb (netmask =? if_subnet_mask intf) then mret tt
    else
      helloint ← in_bounds (hello_get "helloint" p);
      if negb (ntohs helloint =? if_helloint intf) then mret tt
      else
        rid ← in_bounds (hello_get "router_id" p);
        src_ip ← in_bounds (ip_get "src_ip" p);
        w ← get_world;
        res ← from_option_M AssertFailed
          (queue_foreach sizeof_pwospf_list_entry
             (hello_body (w_clock w) src_ip rid (ntohs helloint)) (if_neighbours intf)
             (w_ticks w, None));
        put_world (set_w_ticks res.2.1 (set_w_router (put_neighbours i res.1 (w_router w)) w));;
        match res.2.2 with
        | Some was_immediate_neighbour =>
            if (was_immediate_neighbour : bool) then recompute_and_tell else mret tt
        | None =>
            now ← gettimeofday;
            seq ← junk16;
            stamp ← junk_time;
            modify_neighbours i (λ q, queue_add q
              (ListEntry rid src_ip (ntohs helloint) now 1 seq LsaNull 0 stamp)
              sizeof_pwospf_list_entry);;
            recompute_and_tell
        end.

(** ** Dispatch *)

Definition pwospf_onreceive (pi : packet_info) : M unit :=
  let p := pi_packet pi in
  let get f := in_bounds (getf pwospf_packet_t f p L4_BASE) in
  version ← get "version";
  if negb (version =? 2) then mret tt
  else
    area_id ← get "area_id";
    r ← get_router;
    if negb (ntohl area_id =? pw_area_id (pw_router r)) then mret tt
    else
      auth_type ← get "auth_type";
      if negb (auth_type =? 0) then mret tt
      else
        type ← get "type";
        if type =? OSPF_TYPE_HELLO then
          if PACKET_CAN_MARSHALL pwospf_packet_hello_t (Z.of_nat L4_BASE) (pi_len pi)
          then pwospf_onreceive_hello pi else mret tt
        else if type =? OSPF_TYPE_LINK then
          if PACKET_CAN_MARSHALL pwospf_packet_link_t (Z.of_nat L4_BASE) (pi_len pi)
          then pwospf_onreceive_link pi else mret tt
        else mret tt.

(** ** The maintenance thread *)

Definition removeallneighbourswithrouterid (id : Z) : M unit :=
  r ← get_router;
  for_array (λ j intf s,
    res ← from_option_M AssertFailed
      (queue_foreach sizeof_pwospf_list_entry (remove_body (λ e, neighbour_id e =? id))
         (if_neighbours intf) tt);
    modify_router (put_neighbours j res.1);;
    mret s) 0 (interfaces r) tt.

(** No HELLO for three intervals, or no LINK update for too long. *)
Definition neighbour_dead (now : timeval) (entry : pwospf_list_entry) : bool :=
  (negb (immediate_neighbour entry =? 0)
   && (3 * le_helloint entry <? tv_sec now - tv_sec (le_timestamp entry)))
  || (negb (bool_decide (lsu_lastcontents entry = LsaNull))
      && (LSUINT_TIMEOUT <? tv_sec now - tv_sec (lsu_timestamp entry))).

(** [free(entry->lsu_lastcontents)]; the pointer stays in the entry. *)
Definition free_lsas (arr : lsa_array) : M lsa_array :=
  match arr with
  | LsaNull => mret LsaNull
  | LsaArray _ => mret LsaFreed
  | LsaFreed => throw BadFree
  end.

Definition set_contents (arr : lsa_array) (e : pwospf_list_entry) : pwospf_list_entry :=
  set_lsu arr (lsu_lastcontents_count e) (lsu_lastseq e) (lsu_timestamp e) e.

(** The loop over the neighbours of interface [j]; the removal changes the
    queue the loop runs over. *)
Fixpoint expire_neighbours (fuel i j : nat) (now : timeval) (changed : bool) : M bool :=
  match fuel with
  | O => mret changed
  | S fuel' =>
      neighbours ← get_neighbours j;
      if Z.of_nat i <? size neighbours then
        match queue_getidandlock neighbours (Z.of_nat i) with
        | (q, Some (entry, sz)) =>
            if sz =? sizeof_pwospf_list_entry then
              if neighbour_dead now entry then
                arr ← free_lsas (lsu_lastcontents entry);
                modify_router (put_neighbours j
                  (queue_unlockid (queue_write q i (set_contents arr entry)) (Z.of_nat i)));;
                removeallneighbourswithrouterid (neighbour_id entry);;
                expire_neighbours fuel' (S i) j now true
              else
                modify_router (put_neighbours j (queue_unlockid q (Z.of_nat i)));;
                expire_neighbours fuel' (S i) j now changed
            else throw AssertFailed
        | (q, None) =>
            modify_router (put_neighbours j q);;
            expire_neighbours fuel' (S i) j now changed
        end
      else mret changed
  end.

(** One round of the loop of [pwospf_thread]. *)
Definition pwospf_thread_round : M unit :=
  send_pwospf_hello_packet;;
  now ← gettimeofday;
  r ← get_router;
  changed ← for_array (λ j intf changed,
    q ← get_neighbours j;
    expire_neighbours (Z.to_nat (size q)) 0 j now changed) 0 (interfaces r) false;
  (if (changed : bool) then recompute_and_tell else mret tt);;
  r ← get_router;
  if LSUINT <? tv_sec now - tv_sec (last_lsu r) then send_pwospf_lsa_packet else mret tt.
