(* ===== verification/Dns.v ===== *)
(** The DNS server of the router (dns.c).

    A name is a list of labels; a label is the content of a C string buffer,
    [cstr] its value up to the terminating zero byte.  Questions are parsed
    from the bytes behind the DNS header, answers are built in a buffer that
    grows by one record at a time and are sent back to the station the query
    came from.  The database file is the list of its lines. *)

From stdpp Require Import base tactics list numbers strings.
From Stdlib Require Import ZArith Lia Ascii.
From S2P Require Import Prelude Dataqueue Common Packets State Loops Ethernet Arp Routing IpHeader.

Local Open Scope Z_scope.

Definition DNS_TYPE_A : Z := 1.
Definition DNS_TYPE_PTR : Z := 12.
Definition DNS_CLASS_IN : Z := 1.
Definition DNS_ERROR_NO_ERROR : Z := 0.
Definition DNS_ERROR_NAMEERROR : Z := 3.
Definition DNS_ERROR_NOTIMPLEMENTED : Z := 4.
Definition DNS_TTL : Z := 60 * 60 * 24.

(** * C strings *)

Fixpoint cstr (s : list Z) : list Z :=
  match s with
  | [] => []
  | b :: rest => if b =? 0 then [] else b :: cstr rest
  end.

Definition strlen (s : list Z) : Z := Z.of_nat (length (cstr s)).

Definition strcmp_eq (a b : list Z) : bool := bool_decide (cstr a = cstr b).

Definition is_digit (b : Z) : bool := (48 <=? b) && (b <=? 57).
Definition is_space (b : Z) : bool := (b =? 32) || ((9 <=? b) && (b <=? 13)).

Fixpoint atoi_digits (s : list Z) (acc : Z) : Z :=
  match s with
  | b :: rest => if is_digit b then atoi_digits rest (10 * acc + (b - 48)) else acc
  | [] => acc
  end.

Fixpoint skip_spaces (s : list Z) : list Z :=
  match s with
  | b :: rest => if is_space b then skip_spaces rest else s
  | [] => []
  end.

Definition atoi (s : list Z) : Z :=
  match skip_spaces s with
  | b :: rest =>
      if b =? 45 then s32 (- atoi_digits rest 0)
      else if b =? 43 then s32 (atoi_digits rest 0)
      else s32 (atoi_digits (b :: rest) 0)
  | [] => 0
  end.

(** The tokens of a string: its maximal pieces without separators. *)
Fixpoint tokens (sep : Z) (s cur : list Z) : list (list Z) :=
  match s with
  | [] => match cur with [] => [] | _ => [cur] end
  | b :: rest =>
      if b =? sep then
        match cur with [] => tokens sep rest [] | _ => cur :: tokens sep rest [] end
      else tokens sep rest (cur ++ [b])
  end.

Definition strtok (sep : Z) (s : list Z) : list (list Z) := tokens sep (cstr s) [].

(** * Names *)

(** [names[i]]; an array cell that was never filled holds a wild pointer. *)
Definition name_at (names : list (list Z)) (i : nat) : option (list Z) := names !! i.

Fixpoint encode_labels (n i : nat) (names : list (list Z)) : option (list Z) :=
  match n with
  | O => Some []
  | S n' =>
      s ← name_at names i;
      rest ← encode_labels n' (S i) names;
      Some (u8 (strlen s) :: cstr s ++ rest)
  end.

(** The bytes written at [*start]. *)
Definition encode_dns_string (names : list (list Z)) (size : Z) : option (list Z) :=
  l ← encode_labels (Z.to_nat size) 0 names; Some (l ++ [0]).

Fixpoint encoding_size (n i : nat) (names : list (list Z)) (total : Z) : option Z :=
  match n with
  | O => Some (total + 1)
  | S n' => s ← name_at names i; encoding_size n' (S i) names (total + strlen s + 1)
  end.

Definition calctotalsizeofencoding (names : list (list Z)) (name_count : Z) : option Z :=
  encoding_size (Z.to_nat name_count) 0 names 0.

(** * Questions *)

Record dns_query := Query {
  query_names : list (list Z);
  q_count : Z;
  qtype : Z;
  qclass : Z
}.

(** The [while] loop over the labels; no bound is checked in the source, [None]
    is a read past the packet. *)
Fixpoint parse_labels (fuel : nat) (address : list Z) : option (list (list Z) * list Z) :=
  match fuel with
  | O => None
  | S fuel' =>
      match address with
      | [] => None
      | char_size :: address =>
          if char_size =? 0 then Some ([], address)
          else
            string ← get_bytes address 0 (Z.to_nat char_size);
            '(rest, address) ← parse_labels fuel' (drop (Z.to_nat char_size) address);
            Some (string :: rest, address)
      end
  end.

Fixpoint parse_queries (size : nat) (address : list Z) : option (list dns_query) :=
  match size with
  | O => Some []
  | S size' =>
      '(names, address) ← parse_labels (S (length address)) address;
      t ← load 2 address 0;
      c ← load 2 address 2;
      rest ← parse_queries size' (drop 4 address);
      Some (Query names (Z.of_nat (length names)) (ntohs t) (ntohs c) :: rest)
  end.

Definition dns_mallocandparse_query_array (address : list Z) (size : Z) : option (list dns_query) :=
  parse_queries (Z.to_nat size) address.

(** Resource records; the 32-bit time to live goes through [ntohs], the data of
    a record is not skipped. *)
Record dns_cache_entry := CacheEntry {
  ce_names : list (list Z);
  ce_type : Z;
  ce_class : Z;
  ce_ttl : Z;
  ce_length : Z;
  ce_rdata : list Z
}.

Fixpoint parse_others (size : nat) (address : list Z) : option (list dns_cache_entry) :=
  match size with
  | O => Some []
  | S size' =>
      '(names, address) ← parse_labels (S (length address)) address;
      t ← load 2 address 0;
      c ← load 2 address 2;
      ttl ← load 4 address 4;
      len ← load 2 address 8;
      rest ← parse_others size' (drop 10 address);
      Some (CacheEntry names (ntohs t) (ntohs c) (ntohs (u16 ttl)) (ntohs len) (drop 10 address)
              :: rest)
  end.

Definition dns_mallocandparse_other_array (address : list Z) (size : Z)
  : option (list dns_cache_entry) :=
  parse_others (Z.to_nat size) address.

(** * Answers *)

Record dns_answer := Answer {
  ans_packet : list Z;
  totalsize : Z;
  adding : Z
}.

Definition dns_set (f : string) (p : list Z) (v : Z) : option (list Z) := setf packet_dns_t f p 0 v.
Definition dns_getf (f : string) (p : list Z) : option Z := getf packet_dns_t f p 0.

(** QR is the high bit of the first flag byte. *)
Definition dns_malloc_answer (transact_id : Z) : option dns_answer :=
  let p := replicate (sizeof packet_dns_t) 0 in
  p ← dns_set "totaladditionalrrs" p 0;
  p ← dns_set "totalanswerrrs" p 0;
  p ← dns_set "totalauthorityrrs" p 0;
  p ← dns_set "totalquestions" p 0;
  p ← dns_set "id" p transact_id;
  flags ← dns_getf "flags1" p;
  p ← dns_set "flags1" p (Z.lor (Z.land flags 127) 128);
  Some (Answer p 12 0).

(** [realloc]: [n] bytes of unspecified content are appended. *)
Definition grow_answer (a : dns_answer) (n : Z) : M dns_answer :=
  tail ← junk (Z.to_nat n);
  mret (Answer (ans_packet a ++ tail) (totalsize a + n) 0).

Definition bump (f : string) (p : list Z) : option (list Z) :=
  n ← dns_getf f p; dns_set f p (htons (u16 (ntohs n + 1))).

Definition dns_answer_add_query_to_end (answer : dns_answer) (question : dns_query)
  : M dns_answer :=
  assert_M (adding answer <=? 0);;
  len ← from_option_M NullDeref
    (calctotalsizeofencoding (query_names question) (q_count question));
  let start := Z.to_nat (totalsize answer) in
  answer ← grow_answer answer (len + 4);
  p ← in_bounds (bump "totalquestions" (ans_packet answer));
  enc ← from_option_M NullDeref (encode_dns_string (query_names question) (q_count question));
  p ← in_bounds (put_bytes p start enc);
  let pos := (start + length enc)%nat in
  p ← in_bounds (store 2 p (pos + 2) (htons (qclass question)));
  p ← in_bounds (store 2 p pos (htons (qtype question)));
  assert_M (Z.of_nat (pos + 4) =? totalsize answer);;
  mret (Answer p (totalsize answer) 0).

(** The position behind the record header is returned. *)
Definition dns_answer_add_generic_answer_to_end (answer : dns_answer) (name : list (list Z))
    (name_count ttlseconds type class additional_data_size : Z) : M (dns_answer * nat) :=
  assert_M (adding answer <=? 0);;
  len ← from_option_M NullDeref (calctotalsizeofencoding name name_count);
  let start := Z.to_nat (totalsize answer) in
  answer ← grow_answer answer (len + 10 + additional_data_size);
  p ← in_bounds (bump "totalanswerrrs" (ans_packet answer));
  enc ← from_option_M NullDeref (encode_dns_string name name_count);
  p ← in_bounds (put_bytes p start enc);
  let pos := (start + length enc)%nat in
  p ← in_bounds (store 2 p (pos + 2) (htons class));
  p ← in_bounds (store 2 p (pos + 8) (htons additional_data_size));
  p ← in_bounds (store 4 p (pos + 4) (htonl ttlseconds));
  p ← in_bounds (store 2 p pos (htons type));
  mret (Answer p (totalsize answer) 0, (pos + 10)%nat).

Definition dns_answer_add_PTR_answer_to_end (answer : dns_answer) (name : list (list Z))
    (name_count : Z) (answer_name : list (list Z)) (answer_name_count ttlseconds : Z)
  : M dns_answer :=
  len ← from_option_M NullDeref (calctotalsizeofencoding answer_name answer_name_count);
  res ← dns_answer_add_generic_answer_to_end answer name name_count ttlseconds DNS_TYPE_PTR
          DNS_CLASS_IN (u16 len);
  enc ← from_option_M NullDeref (encode_dns_string answer_name answer_name_count);
  p ← in_bounds (put_bytes (ans_packet res.1) res.2 enc);
  assert_M (Z.of_nat (res.2 + length enc) =? totalsize res.1);;
  mret (Answer p (totalsize res.1) 0).

Definition dns_answer_add_A_answer_to_end (answer : dns_answer) (name : list (list Z))
    (name_count ip ttlseconds : Z) : M dns_answer :=
  res ← dns_answer_add_generic_answer_to_end answer name name_count ttlseconds DNS_TYPE_A
          DNS_CLASS_IN 4;
  p ← in_bounds (store 4 (ans_packet res.1) res.2 ip);
  assert_M (Z.of_nat (res.2 + 4) =? totalsize res.1);;
  mret (Answer p (totalsize res.1) 0).

Definition udp_get (f : string) (p : list Z) : option Z := getf packet_udp_t f p L4_BASE.
Definition udp_set (f : string) (p : list Z) (v : Z) : option (list Z) :=
  setf packet_udp_t f p L4_BASE v.

(** The answer goes to the sender of the query, on the interface it came in. *)
Definition send_dns_proto_response (incoming : packet_info) (answer : dns_answer)
    (dns_err_code : Z) : M unit :=
  let len := 42 + totalsize answer in
  p ← junk (Z.to_nat len);
  flags ← in_bounds (dns_getf "flags2" (ans_packet answer));
  a ← in_bounds (dns_set "flags2" (ans_packet answer)
                   (Z.lor (Z.land flags 240) (Z.land dns_err_code 15)));
  body ← in_bounds (get_bytes a 0 (Z.to_nat (totalsize answer)));
  p ← in_bounds (put_bytes p (L4_BASE + 8) body);
  p ← in_bounds (udp_set "length" p (htons (u16 (8 + totalsize answer))));
  source_port ← in_bounds (udp_get "source_port" (pi_packet incoming));
  destination_port ← in_bounds (udp_get "destination_port" (pi_packet incoming));
  p ← in_bounds (udp_set "destination_port" p source_port);
  p ← in_bounds (udp_set "source_port" p destination_port);
  p ← in_bounds (udp_set "checksum" p 0);
  intf ← deref_interface (pi_interface incoming);
  src_ip ← in_bounds (ip_get "src_ip" (pi_packet incoming));
  p ← in_bounds (generate_ipv4_header (if_ip intf) (8 + totalsize answer) p IP_TYPE_UDP src_ip);
  p ← in_bounds (ip_fill_checksum p);
  pseudo ← in_bounds (malloc_udp_pseudo_header (drop L4_BASE p) (drop IP_BASE p));
  c ← in_bounds (generatechecksum pseudo.1 pseudo.2);
  p ← in_bounds (udp_set "checksum" p c);
  ttl ← in_bounds (ip_get "ttl" p);
  if ttl <? 1 then mret tt
  else
    source_mac ← in_bounds (getb packet_ethernet_t "source_mac" (pi_packet incoming) 0);
    ethernet_packet_send (pi_interface incoming) source_mac (if_mac intf) (htons ETH_IP_TYPE)
      (PacketInfo p len (pi_interface incoming));;
    mret tt.

(** * The database *)

(** [for (j ...) if (strcmp(dn[j], entry->names[j]) != 0) works = 0]. *)
Fixpoint names_equal (n j : nat) (dn names : list (list Z)) (works : bool) : option bool :=
  match n with
  | O => Some works
  | S n' =>
      a ← name_at dn j;
      b ← name_at names j;
      names_equal n' (S j) dn names (works && strcmp_eq a b)
  end.

(** Result of a search: an entry, or a wild pointer on the way. *)
Inductive search_result :=
  | Found (e : dns_db_entry)
  | Wild.

Definition domainname_body (dn : list (list Z)) (dn_size : Z) (i : nat) (entry : dns_db_entry)
    (s : option search_result) : verdict dns_db_entry * option search_result :=
  if dn_size =? db_count entry then
    match names_equal (Z.to_nat dn_size) 0 dn (db_names entry) true with
    | Some true => (Return entry, Some (Found entry))
    | Some false => (Unlock entry, s)
    | None => (Return entry, Some Wild)
    end
  else (Unlock entry, s).

Definition run_search
    (body : nat → dns_db_entry → option search_result →
            verdict dns_db_entry * option search_result) : M (option dns_db_entry) :=
  r ← get_router;
  res ← from_option_M AssertFailed (queue_foreach sizeof_dns_db_entry body (dns_db r) None);
  modify_router (set_dns_db res.1);;
  match res.2 with
  | Some (Found e) => mret (Some e)
  | Some Wild => throw NullDeref
  | None => mret None
  end.

Definition get_by_domainname_array_safe (dn : list (list Z)) (dn_size : Z)
  : M (option dns_db_entry) :=
  run_search (domainname_body dn dn_size).

Definition get_by_ip_safe (ip : Z) : M (option dns_db_entry) :=
  run_search (λ i entry s,
    if ip =? db_rdata entry then (Return entry, Some (Found entry)) else (Unlock entry, s)).

Definition parse_ip (array : list (list Z)) : option Z :=
  a ← name_at array 3;
  b ← name_at array 2;
  c ← name_at array 1;
  d ← name_at array 0;
  Some (IP_CONVERT (atoi a) (atoi b) (atoi c) (atoi d)).

Definition handle_question (pi : packet_info) (id : Z) (question : dns_query) : M unit :=
  answer ← in_bounds (dns_malloc_answer id);
  answer ← dns_answer_add_query_to_end answer question;
  if negb (qclass question =? DNS_CLASS_IN) then
    send_dns_proto_response pi answer DNS_ERROR_NOTIMPLEMENTED
  else if qtype question =? DNS_TYPE_PTR then
    if q_count question <? 4 then send_dns_proto_response pi answer DNS_ERROR_NAMEERROR
    else
      ip ← from_option_M NullDeref (parse_ip (query_names question));
      entry ← get_by_ip_safe ip;
      match entry with
      | Some e =>
          answer ← dns_answer_add_PTR_answer_to_end answer (query_names question)
            (q_count question) (db_names e) (db_count e) DNS_TTL;
          send_dns_proto_response pi answer DNS_ERROR_NO_ERROR
      | None => send_dns_proto_response pi answer DNS_ERROR_NAMEERROR
      end
  else if qtype question =? DNS_TYPE_A then
    entry ← get_by_domainname_array_safe (query_names question) (q_count question);
    match entry with
    | Some e =>
        answer ← dns_answer_add_A_answer_to_end answer (query_names question)
          (q_count question) (db_rdata e) DNS_TTL;
        send_dns_proto_response pi answer DNS_ERROR_NO_ERROR
    | None => send_dns_proto_response pi answer DNS_ERROR_NAMEERROR
    end
  else send_dns_proto_response pi answer DNS_ERROR_NOTIMPLEMENTED.

(** Offset of the DNS header. *)
Definition DNS_BASE : nat := (L4_BASE + sizeof packet_udp_t)%nat.

(** [&questions[0]] of an empty array lies outside it. *)
Definition dns_onreceive (pi : packet_info) : M unit :=
  let p := pi_packet pi in
  totalquestions ← in_bounds (getf packet_dns_t "totalquestions" p DNS_BASE);
  flags ← in_bounds (getf packet_dns_t "flags1" p DNS_BASE);
  if Z.testbit flags 7 then mret tt
  else
    questions ← in_bounds
      (dns_mallocandparse_query_array (drop (DNS_BASE + 12) p) (ntohs totalquestions));
    question ← in_bounds (questions !! 0%nat);
    id ← in_bounds (getf packet_dns_t "id" p DNS_BASE);
    handle_question pi id question.

(** ** The database file *)

Definition NEWLINE : Z := 10.
Definition SPACE : Z := 32.
Definition DOT : Z := 46.

Fixpoint count_char (c : Z) (s : list Z) : Z :=
  match s with
  | [] => 0
  | b :: rest => (if b =? c then 1 else 0) + count_char c rest
  end.

(** The string cut at its first newline; [None]: [strchr] returned [NULL]. *)
Fixpoint cut_newline (s : list Z) : option (list Z) :=
  match s with
  | [] => None
  | b :: rest => if b =? NEWLINE then Some [] else t ← cut_newline rest; Some (b :: t)
  end.

(** [ip[j]]: the numbers found, an unspecified value for a missing one. *)
Definition ip_part (parts : list (list Z)) (junk : nat → Z) (j : nat) : Z :=
  match parts !! j with Some s => atoi s | None => s32 (junk j) end.

(** One line of the file.  [None]: a token is missing or the line has no
    newline, and the source goes through a null pointer. *)
Definition parse_db_line (junk : nat → Z) (line : list Z) : option dns_db_entry :=
  let pch := strtok SPACE line in
  domain ← pch !! 0%nat;
  let k := count_char DOT domain in
  let answer := take (Z.to_nat (k + 1)) (strtok DOT domain) in
  type ← pch !! 1%nat;
  class ← pch !! 2%nat;
  data ← pch !! 3%nat;
  data ← cut_newline data;
  let parts := take 4 (strtok DOT data) in
  let ip := ip_part parts junk in
  Some (DnsEntry answer (u8 (k + 1)) (u16 (atoi type)) (u16 (atoi class))
          (IP_CONVERT (ip 0%nat) (ip 1%nat) (ip 2%nat) (ip 3%nat))).

(** [lines] is what successive calls of [fgets] return; the array that holds
    them has 256 cells. *)
Definition populate_database (lines : list (list Z)) : M unit :=
  if (256 <? length lines)%nat then throw OutOfBounds
  else
    w ← get_world;
    for_array (λ i line s,
      entry ← from_option_M NullDeref (parse_db_line (w_junk w) line);
      modify_router (λ r, set_dns_db (queue_add (dns_db r) entry sizeof_dns_db_entry) r);;
      mret s) 0 lines tt.

(** The bytes of a string. *)
Definition chars (s : string) : list Z :=
  map (λ a, Z.of_nat (nat_of_ascii a)) (String.list_ascii_of_string s).

Fixpoint join_names (n j : nat) (count : Z) (names : list (list Z)) : option (list Z) :=
  match n with
  | O => Some []
  | S n' =>
      s ← name_at names j;
      rest ← join_names n' (S j) count names;
      Some (cstr s ++ (if Z.of_nat j =? count - 1 then [] else [DOT]) ++ rest)
  end.

(** The result is kept in a static buffer of 256 bytes. *)
Definition concat_names (names : list (list Z)) (count : Z) : option (list Z) :=
  s ← join_names (Z.to_nat count) 0 count names;
  if (length s <=? 255)%nat then Some s else None.

(** [fprintf(file, "%s %d %d %s\n", ...)]. *)
Definition print_db_line (e : dns_db_entry) : option (list Z) :=
  concated ← concat_names (db_names e) (db_count e);
  Some (concated ++ [SPACE] ++ chars (fmt_u (db_type e)) ++ [SPACE] ++ chars (fmt_u (db_class e))
          ++ [SPACE] ++ chars (ip_to_string (db_rdata e)) ++ [NEWLINE]).

(** The lines written to the file. *)
Definition dns_save_changes : M (list (list Z)) :=
  r ← get_router;
  res ← for_locked_M sizeof_dns_db_entry
    (λ i entry lines, l ← in_bounds (print_db_line entry); mret (lines ++ [l])) (dns_db r) [];
  modify_router (set_dns_db res.1);;
  mret res.2.
