(* ===== verification/Ip.v ===== *)
(** Reception and forwarding of IPv4 packets (ip.c), ICMP (icmp_type.c) and
    the sending of echo requests (cli_ping.c).

    [ip_onreceive] and [icmp_allocate_and_send] call each other: an error
    message is routed like a received packet.  The recursion is bounded by
    [fuel]; a message generated by the router never provokes another one, so
    two levels are enough (file IcmpSpec). *)

From stdpp Require Import base tactics list numbers strings.
From Stdlib Require Import ZArith Lia.
From S2P Require Import Prelude Dataqueue Common Packets State Loops Ethernet Arp Routing.
From S2P Require Import IpHeader Ping Dijkstra Pwospf PwospfInput Dns.

Local Open Scope Z_scope.

Definition icmp_get (f : string) (p : list Z) : option Z := getf packet_icmp_t f p L4_BASE.
Definition icmp_set (f : string) (p : list Z) (v : Z) : option (list Z) :=
  setf packet_icmp_t f p L4_BASE v.

(** The checksum covers the 64 bytes of [packet_icmp_t], whatever the length of
    the packet. *)
Definition icmp_type_echo_replay (pi : packet_info) : M unit :=
  p ← in_bounds (icmp_set "type" (pi_packet pi) ICMP_TYPE_REPLAY);
  p ← in_bounds (icmp_set "header_checksum" p 0);
  c ← in_bounds (generatechecksum (drop L4_BASE p) 64);
  p ← in_bounds (icmp_set "header_checksum" p c);
  src_ip ← in_bounds (ip_get "src_ip" p);
  dst_ip ← in_bounds (ip_get "dst_ip" p);
  update_ip_packet_response (with_packet p pi) src_ip dst_ip 64;;
  mret tt.

(** [data] of the source has 28 bytes, 56 are copied from it. *)
Definition error_data (p : list Z) : M (list Z) :=
  ip ← in_bounds (get_bytes p IP_BASE 20);
  icmp ← in_bounds (get_bytes p L4_BASE 8);
  beyond ← junk 28;
  mret (ip ++ icmp ++ beyond).

(** The TCP stack gets a copy of as many bytes as the header claims. *)
Definition sr_transport_input (packet : list Z) : M unit :=
  ip_len ← in_bounds (load 2 packet 2);
  payload ← in_bounds (get_bytes packet 0 (Z.to_nat (ntohs ip_len)));
  w ← get_world;
  put_world (set_w_transport (w_transport w ++ [payload]) w).

Section recursive.
Variable ip_onreceive : packet_info → M unit.

(** 0 when there is no route, 1 otherwise. *)
Definition icmp_allocate_and_send (ip code type id count : Z) (data : list Z) (data_size src : Z)
  : M Z :=
  allocated ← packetinfo_ip_allocate 98 ip src IP_TYPE_ICMP (20 + 8 + data_size);
  match allocated with
  | None => mret 0
  | Some pi =>
      p ← in_bounds (icmp_set "code" (pi_packet pi) (u8 code));
      p ← in_bounds (icmp_set "id" p (htons (u16 id)));
      p ← in_bounds (icmp_set "type" p (u8 type));
      p ← in_bounds (icmp_set "seq_num" p (htons (u16 count)));
      p ← (if 0 <? data_size then
             d ← in_bounds (get_bytes data 0 (Z.to_nat data_size));
             in_bounds (put_bytes p (L4_BASE + 8) d)
           else mret p);
      p ← in_bounds (icmp_set "header_checksum" p 0);
      c ← in_bounds (generatechecksum (drop L4_BASE p) (8 + data_size));
      p ← in_bounds (icmp_set "header_checksum" p c);
      ip_onreceive (PacketInfo p (42 + data_size) (pi_interface pi));;
      mret 1
  end.

Definition icmp_type_time_exceeded (p : list Z) (src : Z) : M unit :=
  data ← error_data p;
  src_ip ← in_bounds (ip_get "src_ip" p);
  icmp_allocate_and_send src_ip 0 ICMP_TYPE_TIME_EXCEEDED 0 0 data 56 src;;
  mret tt.

Definition icmp_send (p : list Z) (src type code : Z) : M unit :=
  data ← error_data p;
  src_ip ← in_bounds (ip_get "src_ip" p);
  icmp_allocate_and_send src_ip code type 0 0 data 56 src;;
  mret tt.

Definition port_unreach (p : list Z) (src : Z) : M unit :=
  icmp_send p src ICMP_TYPE_DST_UNREACH ICMP_CODE_PORT_UNREACH.

(** ** Packets for an address of the router *)

Definition ip_local_icmp (pi : packet_info) (my_ip : Z) : M unit :=
  let p := pi_packet pi in
  type ← in_bounds (icmp_get "type" p);
  if type =? ICMP_TYPE_REQUEST then icmp_type_echo_replay pi
  else if type =? ICMP_TYPE_REPLAY then
    src_ip ← in_bounds (ip_get "src_ip" p);
    seq_num ← in_bounds (icmp_get "seq_num" p);
    worked ← cli_ping_handle_reply src_ip seq_num;
    if worked =? 0 then port_unreach p my_ip else mret tt
  else mret tt.

Definition ip_local_udp (pi : packet_info) (my_ip : Z) : M unit :=
  let p := pi_packet pi in
  if PACKET_CAN_MARSHALL packet_udp_t (Z.of_nat L4_BASE) (pi_len pi) then
    pseudo ← in_bounds (malloc_udp_pseudo_header (drop L4_BASE p) (drop IP_BASE p));
    checksum ← in_bounds (udp_get "checksum" p);
    c ← (if negb (checksum =? 0) then in_bounds (generatechecksum pseudo.1 pseudo.2) else mret 0);
    if negb (c =? 0) then port_unreach p my_ip
    else
      port ← in_bounds (udp_get "destination_port" p);
      if ntohs port =? PORT_DNS then
        if PACKET_CAN_MARSHALL packet_dns_t (Z.of_nat DNS_BASE) (pi_len pi)
        then dns_onreceive pi else mret tt
      else port_unreach p my_ip
  else port_unreach p my_ip.

Definition ip_local_ospf (pi : packet_info) : M unit :=
  if PACKET_CAN_MARSHALL pwospf_packet_t (Z.of_nat L4_BASE) (pi_len pi)
  then pwospf_onreceive pi else mret tt.

(** The body of the loop for the interface whose address is [my_ip]. *)
Definition ip_local (pi : packet_info) (my_ip : Z) : M unit :=
  let p := pi_packet pi in
  ttl ← in_bounds (ip_get "ttl" p);
  if ttl <=? 0 then icmp_type_time_exceeded p my_ip
  else
    protocol ← in_bounds (ip_get "protocol" p);
    if protocol =? IP_TYPE_ICMP then ip_local_icmp pi my_ip
    else if protocol =? IP_TYPE_TCP then sr_transport_input (drop IP_BASE p)
    else if protocol =? IP_TYPE_OSPF then ip_local_ospf pi
    else if protocol =? IP_TYPE_UDP then ip_local_udp pi my_ip
    else icmp_send p my_ip ICMP_TYPE_DST_UNREACH ICMP_CODE_PROT_UNREACH.

(** ** Forwarding *)

(** [ttl--] and the new checksum. *)
Definition decrement_ttl (p : list Z) : option (list Z) :=
  ttl ← ip_get "ttl" p;
  p ← ip_set "ttl" p (u8 (ttl - 1));
  ip_fill_checksum p.

Definition ip_forward (pi : packet_info) : M unit :=
  let p := pi_packet pi in
  ttl ← in_bounds (ip_get "ttl" p);
  if ttl <=? 1 then icmp_type_time_exceeded p NO_SRC
  else
    dst_ip ← in_bounds (ip_get "dst_ip" p);
    found ← lookup_route dst_ip;
    match found with
    | Some (_, entry) =>
        let next_ip := if router_ip entry =? 0 then dst_ip else router_ip entry in
        arp ← lookup_arp_ip next_ip;
        match arp with
        | Some (_, arp_dest) =>
            p ← in_bounds (decrement_ttl p);
            intf ← get_interface (rt_interface entry);
            ethernet_packet_send (Some (rt_interface entry)) (arp_mac arp_dest) (if_mac intf)
              (htons ETH_IP_TYPE) (with_packet p pi);;
            mret tt
        | None =>
            arp_queue_ippacket_for_send_on_arp_request_response pi (Some (rt_interface entry))
              next_ip
        end
    | None =>
        r ← get_router;
        src ← interface_slot_ip (length (interfaces r));
        icmp_send p src ICMP_TYPE_DST_UNREACH ICMP_CODE_HOST_UNREACH
    end.

(** Index of the first interface with the address. *)
Definition own_address (r : router) (ip : Z) : option (nat * interface) :=
  Spec.find_from (λ i, ip =? if_ip i) 0 (interfaces r).

Definition ip_onreceive_body (pi : packet_info) : M unit :=
  let p := pi_packet pi in
  ok ← in_bounds (ip_header_check p);
  if negb ok then in_bounds (ip_print p)
  else
    dst_ip ← in_bounds (ip_get "dst_ip" p);
    protocol ← in_bounds (ip_get "protocol" p);
    if (dst_ip =? ALLSPFRouters) && (protocol =? IP_TYPE_OSPF) then ip_local_ospf pi
    else
      r ← get_router;
      match own_address r dst_ip with
      | Some (_, intf) => ip_local pi (if_ip intf)
      | None => ip_forward pi
      end.
End recursive.

Fixpoint ip_onreceive_fuel (fuel : nat) (pi : packet_info) : M unit :=
  match fuel with
  | O => throw OutOfFuel
  | S fuel' => ip_onreceive_body (ip_onreceive_fuel fuel') pi
  end.

Definition ip_onreceive : packet_info → M unit := ip_onreceive_fuel 2.

(** ** Echo requests of the command line *)

Definition cli_ping_request (fd ip : Z) : M unit :=
  c ← get_cli;
  sent ← icmp_allocate_and_send ip_onreceive ip 0 ICMP_TYPE_REQUEST PING_ID (ping_count c) [] 0
           NO_SRC;
  if sent =? 0
  then modify_cli (λ c, set_feedback (feedback c ++ [PingNoRoute fd ip]) c)
  else enqueue_ping fd ip.
