(* ===== verification/ArpInput.v ===== *)
(** Reception of ARP packets and the queue of packets that wait for a hardware
    address (arp.c). *)

From stdpp Require Import base tactics list numbers strings.
From Stdlib Require Import ZArith Lia.
From S2P Require Import Prelude Dataqueue Common Packets State Loops Ethernet Arp Routing.
From S2P Require Import IpHeader Ping Dijkstra Pwospf PwospfInput Dns Ip.

Local Open Scope Z_scope.

Definition put_parked (q : dataqueue iparp_buffer_entry) : M unit :=
  modify_router (set_iparp_buffer q).

(** The packet rebuilt from the memory of an entry. *)
Definition parked_packet (entry : iparp_buffer_entry) : M packet_info :=
  assert_M (ib_len entry =? pi_len (ib_pi entry) + sizeof_packet_info);;
  mret (ib_pi entry).

(** The next hop towards an address, as forwarding computes it. *)
Definition next_hop_of (entry : rtable_entry) (dst_ip : Z) : Z :=
  if router_ip entry =? 0 then dst_ip else router_ip entry.

(** One entry of the queue [q]; a packet whose next hop is [ip] leaves the queue
    and is routed again. *)
Definition serve_entry (q : dataqueue iparp_buffer_entry) (i : nat) (entry : iparp_buffer_entry)
    (ip : Z) : M unit :=
  pi ← parked_packet entry;
  let keep := put_parked (queue_unlockid q (Z.of_nat i)) in
  if PACKET_CAN_MARSHALL packet_ip4_t (Z.of_nat IP_BASE) (pi_len pi) then
    dst_ip ← in_bounds (ip_get "dst_ip" (pi_packet pi));
    found ← lookup_route dst_ip;
    match found with
    | Some (_, e) =>
        if ip =? next_hop_of e dst_ip then
          put_parked (queue_unlockidandremove q (Z.of_nat i));;
          p ← in_bounds (ip_fill_checksum (pi_packet pi));
          ip_onreceive (with_packet p pi)
        else keep
    | None => keep
    end
  else keep.

(** The queue is read again in every iteration.  Serving a packet in transit
    takes it out and parks at most one packet again, so the size does not
    exceed its initial value and [S size] iterations are enough; a run that
    needed more would end in the fault [OutOfFuel], not in a result. *)
Fixpoint serve_loop (fuel i : nat) (ip : Z) : M unit :=
  match fuel with
  | O => throw OutOfFuel
  | S fuel' =>
      r ← get_router;
      if Z.of_nat i <? size (iparp_buffer r) then
        match queue_getidandlock (iparp_buffer r) (Z.of_nat i) with
        | (q, Some (entry, sz)) =>
            assert_M (sz =? sizeof_iparp_buffer_entry);;
            serve_entry q i entry ip;;
            serve_loop fuel' (S i) ip
        | (q, None) => put_parked q;; serve_loop fuel' (S i) ip
        end
      else mret tt
  end.

Definition process_arpipqueue (ip : Z) : M unit :=
  r ← get_router; serve_loop (S (Z.to_nat (size (iparp_buffer r)))) 0 ip.

(** ** The thread that repeats requests and gives packets up *)

Definition set_attempt (tv : timeval) (e : iparp_buffer_entry) : iparp_buffer_entry :=
  IparpEntry (ib_pi e) tv (sent_arps_count e + 1) (ib_len e) (ib_intf e) (ib_dest e).

(** [difftime(now.tv_sec, entry->reception_time.tv_sec > ARPIP_QUEUE_TIMEOUT)]:
    the second argument is the result of the comparison. *)
Definition parked_timeout (now : timeval) (e : iparp_buffer_entry) : bool :=
  negb (tv_sec now - (if ARPIP_QUEUE_TIMEOUT <? tv_sec (reception_time e) then 1 else 0) =? 0).

Definition retry_entry (now : timeval) (q : dataqueue iparp_buffer_entry) (i : nat)
    (entry : iparp_buffer_entry) : M unit :=
  pi ← parked_packet entry;
  let keep := put_parked (queue_unlockid q (Z.of_nat i)) in
  if PACKET_CAN_MARSHALL packet_ip4_t (Z.of_nat IP_BASE) (pi_len pi) then
    if parked_timeout now entry then
      if sent_arps_count entry <? ARPIP_QUEUE_MAXARPREQUESTS then
        tv ← gettimeofday;
        put_parked (queue_write q i (set_attempt tv entry));;
        arp_send_request (ib_intf entry) (ib_dest entry);;
        put_parked (queue_unlockid (queue_write q i (set_attempt tv entry)) (Z.of_nat i))
      else
        put_parked (queue_unlockidandremove q (Z.of_nat i));;
        src ← interface_slot_ip i;
        icmp_send ip_onreceive (pi_packet pi) src ICMP_TYPE_DST_UNREACH ICMP_CODE_HOST_UNREACH
    else keep
  else keep.

Fixpoint retry_loop (fuel i : nat) (now : timeval) : M unit :=
  match fuel with
  | O => throw OutOfFuel
  | S fuel' =>
      r ← get_router;
      if Z.of_nat i <? size (iparp_buffer r) then
        match queue_getidandlock (iparp_buffer r) (Z.of_nat i) with
        | (q, Some (entry, sz)) =>
            assert_M (sz =? sizeof_iparp_buffer_entry);;
            retry_entry now q i entry;;
            retry_loop fuel' (S i) now
        | (q, None) => put_parked q;; retry_loop fuel' (S i) now
        end
      else mret tt
  end.

(** One round of the loop of [thread_arpipqueue_maintain]; [now] is the time at
    which the thread was started. *)
Definition thread_arpipqueue_maintain_round (now : timeval) : M unit :=
  r ← get_router; retry_loop (S (Z.to_nat (size (iparp_buffer r)))) 0 now.

(** ** Reception *)

Definition arp_get (f : string) (p : list Z) : option Z := getf packet_arp_t f p IP_BASE.
Definition arp_getb (f : string) (p : list Z) : option (list Z) := getb packet_arp_t f p IP_BASE.

(** After a reply went out the packet holds the reply: the sender address read
    for the queue is then that of the router itself. *)
Definition arp_onreceive (pi : packet_info) : M unit :=
  let p := pi_packet pi in
  hardwaretype ← in_bounds (arp_get "hardwaretype" p);
  protocoltype ← in_bounds (arp_get "protocoltype" p);
  hlen ← in_bounds (arp_get "hardwareaddresslength" p);
  plen ← in_bounds (arp_get "protocoladdresslength" p);
  if (ntohs hardwaretype =? ARP_HTYPE_ETH) && (ntohs protocoltype =? ARP_PTYPE_IP)
     && (hlen =? 6) && (plen =? 4) then
    opcode ← in_bounds (arp_get "opcode" p);
    sender_ip ← in_bounds (arp_get "sender_ip" p);
    sender_mac ← in_bounds (arp_getb "sender_mac" p);
    target_ip ← in_bounds (arp_get "target_ip" p);
    target_mac ← in_bounds (arp_getb "target_mac" p);
    pi ← (if ntohs opcode =? ARP_OPCODE_REQUEST then
            intf ← deref_interface (pi_interface pi);
            if target_ip =? if_ip intf then
              arp_putincache sender_ip sender_mac ARP_CACHE_TIMEOUT_REQUEST;;
              arp_send (pi_interface pi) pi ARP_OP_REPLY sender_ip sender_mac (if_ip intf)
                (if_mac intf)
            else
              arp_putincache sender_ip sender_mac ARP_CACHE_TIMEOUT_BROADCAST;;
              mret pi
          else if ntohs opcode =? ARP_OPCODE_REPLAY then
            intf ← deref_interface (pi_interface pi);
            (if (target_ip =? if_ip intf) && match_mac target_mac (if_mac intf)
             then arp_putincache sender_ip sender_mac ARP_CACHE_TIMEOUT_REQUEST
             else mret tt);;
            mret pi
          else mret pi);
    ip ← in_bounds (arp_get "sender_ip" (pi_packet pi));
    process_arpipqueue ip
  else mret tt.
