(* ===== verification/Router.v ===== *)
(** The router as a whole (sr_router.c, sr_integration.c): start-up, the entry
    points for received frames and for datagrams of the TCP stack, shutdown. *)

From stdpp Require Import base tactics list numbers strings.
From Stdlib Require Import ZArith Lia.
From S2P Require Import Prelude Dataqueue Common Packets State Loops Ethernet Arp Routing.
From S2P Require Import IpHeader Ping Dijkstra Pwospf PwospfInput Dns Ip ArpInput.

Local Open Scope Z_scope.

(** [num_interfaces = 0]: no slot of the interface array is in use; the own
    router id is not initialised and keeps the value of the memory.  The work
    queue that is created here is the subject of the file WorkQueue. *)
Definition router_init : M unit :=
  now ← gettimeofday;
  modify_router (λ r, Router [] queue_init queue_init queue_init queue_init now (pw_router r) true
                        true).

(** At most [ROUTER_MAX_INTERFACES] slots exist. *)
Definition router_add_interface (name : string) (ip mask : Z) (mac : addr_mac) : M unit :=
  r ← get_router;
  (if (length (interfaces r) <? ROUTER_MAX_INTERFACES)%nat then mret tt else throw OutOfBounds);;
  modify_router (λ r,
    let r := if (length (interfaces r) =? 0)%nat
             then set_pw_router (PwospfRouter ip 0 LSUINT) r else r in
    set_interfaces (interfaces r ++ [Interface name mac ip true mask HELLOINT queue_init]) r).

(** The queues of the interfaces are freed; the advertisements of their entries
    as well. *)
Definition free_entries (intf : interface) : M unit :=
  res ← for_locked_M sizeof_pwospf_list_entry
    (λ n entry s, free_lsas (lsu_lastcontents entry);; mret s) (if_neighbours intf) tt;
  mret tt.

Definition router_destroy : M unit :=
  r ← get_router;
  for_array (λ i intf s, free_entries intf) 0 (interfaces r) tt;;
  modify_router (λ r,
    Router ((λ i, set_if_neighbours (queue_free (if_neighbours i)) i) <$> interfaces r)
      (queue_free (arp_cache r)) (queue_free (ip_table r)) (queue_free (iparp_buffer r))
      (queue_free (dns_db r)) (last_lsu r) (pw_router r) (use_ospf r) false).

Definition router_handle_packet (pi : packet_info) : M unit :=
  if PACKET_CAN_MARSHALL packet_ethernet_t 0 (pi_len pi) then
    type ← in_bounds (getf packet_ethernet_t "type" (pi_packet pi) 0);
    let type := ntohs type in
    if type =? ETH_ARP_TYPE then
      if PACKET_CAN_MARSHALL packet_arp_t (Z.of_nat IP_BASE) (pi_len pi)
      then arp_onreceive pi else mret tt
    else if type =? ETH_IP_TYPE then
      if PACKET_CAN_MARSHALL packet_ip4_t (Z.of_nat IP_BASE) (pi_len pi)
      then ip_onreceive pi else mret tt
    else mret tt
  else mret tt.

(** The packet a received frame becomes on the work queue. *)
Definition sr_integ_input (packet : list Z) (len : Z) (intf : nat) : M packet_info :=
  copy ← in_bounds (get_bytes packet 0 (Z.to_nat len));
  mret (PacketInfo copy len (Some intf)).

Definition WORK_NEW_PACKET : Z := 0.

Definition router_handle_work (type : Z) (work : packet_info) : M unit :=
  if type =? WORK_NEW_PACKET then router_handle_packet work else throw Die.

(** Datagrams of the TCP stack; the identification field is not set, and the
    result is 1 in every case. *)
Definition sr_integ_ip_output (payload : list Z) (proto src dest len : Z) : M Z :=
  let totallen := len + 20 in
  p ← junk (Z.to_nat (14 + totallen));
  data ← in_bounds (get_bytes payload 0 (Z.to_nat len));
  p ← in_bounds (put_bytes p L4_BASE data);
  p ← in_bounds (ip_set_version p 4);
  p ← in_bounds (ip_set_ihl p 5);
  p ← in_bounds (ip_set "flags_fragmentoffset" p (htons 0x4000));
  p ← in_bounds (ip_set "ttl" p 64);
  p ← in_bounds (ip_set "dscp_ecn" p 0x10);
  p ← in_bounds (ip_set "total_length" p (htons (u16 totallen)));
  p ← in_bounds (ip_set "protocol" p (u8 proto));
  p ← in_bounds (ip_set "header_checksum" p 0);
  p ← in_bounds (ip_set "src_ip" p src);
  p ← in_bounds (ip_set "dst_ip" p dest);
  p ← in_bounds (ip_fill_checksum p);
  ip_onreceive (PacketInfo p (14 + totallen) None);;
  mret 1.

(** Fragments of a buffer chain of the TCP stack, joined for sending. *)
Definition sr_lwip_output (chain : list (list Z)) (src dst proto : Z) : M Z :=
  let payload := concat chain in
  sr_integ_ip_output payload proto src dst (Z.of_nat (length payload));;
  mret 0.
