(* ===== verification/WorkQueue.v ===== *)
(** The work queue between the receiving threads and the workers
    (sr_work_queue.c).

    The queue is a singly linked list on a heap of nodes, with a pointer to its
    head and one to its tail.  Each critical section of the source, under
    [wq->lock], is one operation; threads interleave between critical sections,
    which the step relation [wq_step] describes.  [repr] relates the heap to
    the list of pending work: the operations refine appending to and taking
    from that list. *)

From stdpp Require Import base tactics list numbers gmap.
From Stdlib Require Import ZArith Lia.
From S2P Require Import Prelude.

Local Open Scope Z_scope.

Section work_queue.
Context {A : Type}.

Record work := Work {
  w_type : Z;
  w_work : A
}.

Record node := Node {
  n_work : work;
  n_next : option nat
}.

Record work_queue := WorkQueue {
  heap : gmap nat node;
  fresh : nat;
  head : option nat;
  tail : option nat;
  done : bool;
  workers : Z
}.

(** [None]: [num_workers] is 0 and the process dies. *)
Definition wq_init (num_workers : Z) : option work_queue :=
  if num_workers =? 0 then None else Some (WorkQueue ∅ 0 None None false num_workers).

(** [None]: the tail pointer is dangling. *)
Definition wq_enqueue (wq : work_queue) (type : Z) (x : A) : option work_queue :=
  let w := fresh wq in
  let alloc := <[w := Node (Work type x) None]> (heap wq) in
  match tail wq with
  | Some t =>
      tn ← heap wq !! t;
      Some (WorkQueue (<[t := Node (n_work tn) (Some w)]> alloc) (S w) (head wq) (Some w)
              (done wq) (workers wq))
  | None => Some (WorkQueue alloc (S w) (Some w) (Some w) (done wq) (workers wq))
  end.

(** The critical section of [wq_wait_for_work]: the thread waits, stops, or gets
    a piece of work (whose node is freed after use). *)
Inductive taken :=
  | Wait
  | Stop (wq : work_queue)
  | Got (w : work) (wq : work_queue)
  | Dangling.

Definition wq_take (wq : work_queue) : taken :=
  if done wq then
    Stop (WorkQueue (heap wq) (fresh wq) (head wq) (tail wq) (done wq) (workers wq - 1))
  else
    match head wq with
    | None => Wait
    | Some h =>
        match heap wq !! h with
        | None => Dangling
        | Some n =>
            Got (n_work n)
              (WorkQueue (delete h (heap wq)) (fresh wq) (n_next n)
                 (match n_next n with None => None | Some _ => tail wq end) (done wq) (workers wq))
        end
    end.

(** The loop of [wq_destroy] that frees the nodes; [None] is a dangling head. *)
Fixpoint free_all (fuel : nat) (h : option nat) (m : gmap nat node) : option (gmap nat node) :=
  match h with
  | None => Some m
  | Some a =>
      match fuel with
      | O => None
      | S fuel' => n ← m !! a; free_all fuel' (n_next n) (delete a m)
      end
  end.

(** The tail pointer is not reset. *)
Definition wq_destroy (wq : work_queue) : option work_queue :=
  m ← free_all (size (heap wq)) (head wq) (heap wq);
  Some (WorkQueue m (fresh wq) None (tail wq) true (workers wq)).

(** * The list a queue stands for *)

(** The nodes from [p] on carry the work of [l]; [q] is the last of them. *)
Fixpoint chain (m : gmap nat node) (p q : option nat) (l : list (nat * work)) : Prop :=
  match l with
  | [] => p = None ∧ q = None
  | (a, w) :: rest =>
      p = Some a ∧
      match rest with
      | [] => q = Some a ∧ m !! a = Some (Node w None)
      | (b, _) :: _ => m !! a = Some (Node w (Some b)) ∧ chain m (Some b) q rest
      end
  end.

Definition repr (wq : work_queue) (l : list work) : Prop :=
  ∃ ns : list (nat * work),
    ns.*2 = l ∧ NoDup (ns.*1) ∧ chain (heap wq) (head wq) (tail wq) ns ∧
    (∀ a, a ∈ ns.*1 → (a < fresh wq)%nat) ∧ (∀ a, heap wq !! a ≠ None ↔ a ∈ ns.*1).

Lemma chain_frame m m' p q ns :
  (∀ a, a ∈ ns.*1 → m' !! a = m !! a) → chain m p q ns → chain m' p q ns.
Proof.
  revert p. induction ns as [|[a w] ns IH]; intros p Hm Hc; [done|].
  cbn [chain] in *. destruct Hc as [-> Hc]. split; [done|].
  assert (m' !! a = m !! a) as Ha by (apply Hm; left).
  destruct ns as [|[b w'] ns]; [by rewrite Ha|]. destruct Hc as [Hma Hc]. split; [by rewrite Ha|].
  apply IH; [|done]. intros c Hcin. apply Hm. by right.
Qed.

Lemma chain_tail m p q ns :
  chain m p q ns → match q with
                   | None => ns = []
                   | Some t => t ∈ ns.*1 ∧ is_Some (m !! t)
                   end.
Proof.
  revert p. induction ns as [|[a w] ns IH]; intros p Hc; [by destruct Hc as [_ ->]|].
  cbn [chain] in Hc. destruct Hc as [-> Hc]. destruct ns as [|[b wb] ns].
  - destruct Hc as [-> ->]. split; [left|by eexists].
  - destruct Hc as [_ Hc]. specialize (IH _ Hc). destruct q; [|done].
    destruct IH as [Hin ?]. split; [by right|done].
Qed.

(** Appending a node behind the last one. *)
Lemma chain_snoc m p t ns a w tn :
  NoDup (ns.*1) → chain m p (Some t) ns → a ∉ ns.*1 → m !! t = Some tn →
  chain (<[t := Node (n_work tn) (Some a)]> (<[a := Node w None]> m)) p (Some a) (ns ++ [(a, w)]).
Proof.
  revert p. induction ns as [|[b wb] ns IH]; intros p Hnd Hc Ha Ht; [by destruct Hc as [_ [=]]|].
  cbn in Hnd, Ha. inversion_clear Hnd as [|? ? Hb Hnd'].
  rewrite not_elem_of_cons in Ha. destruct Ha as [Hab Ha].
  cbn [chain] in Hc. destruct Hc as [-> Hc]. destruct ns as [|[c wc] ns].
  - destruct Hc as [[= ->] Hm]. simplify_eq. cbn. split_and!; [done| |done..|].
    + by rewrite lookup_insert_eq.
    + rewrite lookup_insert_ne by done. by rewrite lookup_insert_eq.
  - destruct Hc as [Hm Hc].
    assert (t ≠ b) as Htb.
    { intros ->. by destruct (chain_tail _ _ _ _ Hc). }
    cbn [app chain]. split; [done|]. split.
    + rewrite lookup_insert_ne by done. rewrite lookup_insert_ne by done. done.
    + by apply (IH (Some c)).
Qed.

Lemma wq_init_repr n wq : wq_init n = Some wq → repr wq [].
Proof.
  unfold wq_init. destruct (n =? 0); [done|]. intros [= <-]. exists [].
  split_and!; [done|constructor|done|..].
  - intros a Ha. by apply elem_of_nil in Ha.
  - intros a. cbn. rewrite lookup_empty. split; [done|]. by intros ?%elem_of_nil.
Qed.

(** Enqueuing appends, and cannot fault. *)
Lemma wq_enqueue_repr wq l type x :
  repr wq l →
  ∃ wq', wq_enqueue wq type x = Some wq' ∧ repr wq' (l ++ [Work type x]) ∧
         done wq' = done wq ∧ workers wq' = workers wq.
Proof.
  intros (ns & Hl & Hnd & Hc & Hf & Hd). unfold wq_enqueue.
  set (a := fresh wq). set (w := Work type x).
  assert (a ∉ ns.*1) as Ha by (intros Hin%Hf; unfold a in Hin; lia).
  assert (heap wq !! a = None) as Hna.
  { destruct (heap wq !! a) eqn:E; [|done]. exfalso. apply Ha, Hd. by rewrite E. }
  assert (NoDup ((ns ++ [(a, w)]).*1)) as Hnd'.
  { rewrite fmap_app. apply NoDup_app. split_and!; [done| |apply NoDup_singleton].
    by intros y Hy ->%list_elem_of_singleton. }
  assert (∀ b, b ∈ (ns ++ [(a, w)]).*1 ↔ b ∈ ns.*1 ∨ b = a) as Hin.
  { intros b. rewrite fmap_app, elem_of_app. simpl. by rewrite list_elem_of_singleton. }
  pose proof (chain_tail _ _ _ _ Hc) as Ht. destruct (tail wq) as [t|] eqn:Et.
  - destruct Ht as [Htin [tn Htn]]. rewrite Htn. cbn [mbind option_bind].
    eexists. split_and!; [done| |done..]. exists (ns ++ [(a, w)]). cbn [heap head tail fresh].
    split_and!; [by rewrite fmap_app, Hl|done|by apply chain_snoc| |].
    + intros b [Hb| ->]%Hin; [specialize (Hf b Hb); fold a in Hf|]; lia.
    + intros b. rewrite Hin, <-Hd. destruct (decide (b = t)) as [->|]; [|destruct (decide (b = a)) as [->|]].
      * rewrite lookup_insert_eq, Htn. naive_solver.
      * rewrite lookup_insert_ne, lookup_insert_eq by done. naive_solver.
      * rewrite !lookup_insert_ne by done. naive_solver.
  - subst ns. destruct Hc as [Hh _]. eexists. split_and!; [done| |done..]. exists [(a, w)].
    cbn [heap head tail fresh]. split_and!; [by subst l|done| | |].
    + cbn. split_and!; [done..|]. by rewrite lookup_insert_eq.
    + intros b [Hb| ->]%Hin; [by apply elem_of_nil in Hb|]. fold a. lia.
    + intros b. rewrite (Hin b), <-Hd. destruct (decide (b = a)) as [->|].
      * rewrite lookup_insert_eq. naive_solver.
      * rewrite lookup_insert_ne by done. naive_solver.
Qed.

(** Taking removes the oldest piece of work; a thread waits when there is none. *)
Lemma wq_take_repr wq l :
  repr wq l → done wq = false →
  match l with
  | [] => wq_take wq = Wait
  | w :: rest => ∃ wq', wq_take wq = Got w wq' ∧ repr wq' rest ∧ done wq' = false ∧
                        workers wq' = workers wq
  end.
Proof.
  intros (ns & Hl & Hnd & Hc & Hf & Hd) Hdone. unfold wq_take. rewrite Hdone.
  destruct ns as [|[a w] ns]; subst l; cbn [chain fmap list_fmap snd] in *.
  { by destruct Hc as [-> _]. }
  cbn in Hnd. inversion_clear Hnd as [|? ? Ha Hnd']. destruct Hc as [-> Hc].
  assert (∃ nx, heap wq !! a = Some (Node w nx) ∧
            chain (heap wq) nx (match nx with None => None | Some _ => tail wq end) ns)
    as (nx & Hm & Hc').
  { destruct ns as [|[b wb] ns]; [destruct Hc as [_ ?]; by exists None|].
    destruct Hc as [? ?]. by exists (Some b). }
  rewrite Hm. eexists. split_and!; [done| |done..]. exists ns. cbn [heap head tail fresh n_next].
  split_and!; [done..| | |].
  - eapply chain_frame; [|exact Hc']. intros b Hb. rewrite lookup_delete_ne; [done|]. by intros ->.
  - intros b Hb. apply Hf. by right.
  - intros b. destruct (decide (b = a)) as [->|Hne].
    + rewrite lookup_delete_eq. done.
    + rewrite lookup_delete_ne by done. rewrite Hd. cbn. rewrite elem_of_cons. naive_solver.
Qed.

Lemma free_all_chain m p q ns fuel :
  NoDup (ns.*1) → chain m p q ns → (length ns <= fuel)%nat →
  ∃ m', free_all fuel p m = Some m' ∧
        ∀ a, m' !! a = if decide (a ∈ ns.*1) then None else m !! a.
Proof.
  revert m p q fuel. induction ns as [|[a w] ns IH]; intros m p q fuel Hnd Hc Hf.
  { destruct Hc as [-> _]. exists m. by destruct fuel. }
  cbn in Hnd. inversion_clear Hnd as [|? ? Ha Hnd'].
  cbn [chain] in Hc. destruct Hc as [-> Hc]. destruct fuel as [|fuel]; [cbn in Hf; lia|].
  assert (∃ nx q', m !! a = Some (Node w nx) ∧ chain m nx q' ns) as (nx & q' & Hm & Hc').
  { destruct ns as [|[b wb] ns]; [destruct Hc as [_ ?]; by exists None, None|].
    destruct Hc as [? ?]. by exists (Some b), q. }
  cbn [free_all]. rewrite Hm. cbn [mbind option_bind n_next].
  destruct (IH (delete a m) nx q' fuel Hnd') as (m' & E & Hm').
  { eapply chain_frame; [|exact Hc']. intros b Hb. rewrite lookup_delete_ne; [done|]. by intros ->. }
  { cbn in Hf. lia. }
  exists m'. split; [done|]. intros b. rewrite Hm'. cbn.
  destruct (decide (b = a)) as [->|Hne].
  - rewrite lookup_delete_eq. repeat destruct (decide _); naive_solver set_solver.
  - rewrite lookup_delete_ne by done. repeat destruct (decide _); set_solver.
Qed.

Lemma repr_heap_size (m : gmap nat node) (ns : list (nat * work)) :
  NoDup (ns.*1) → (∀ a, m !! a ≠ None ↔ a ∈ ns.*1) → size m = length ns.
Proof.
  intros Hnd Hd. rewrite <-size_dom.
  assert (dom m = (list_to_set (ns.*1) : gset nat)) as ->.
  { apply set_eq. intros a. rewrite elem_of_list_to_set, elem_of_dom, <-Hd.
    by rewrite <-not_eq_None_Some. }
  by rewrite size_list_to_set, length_fmap.
Qed.

(** Destroying frees every pending node, no other, and leaves the tail pointer
    as it was. *)
Lemma wq_destroy_repr wq l :
  repr wq l →
  ∃ wq', wq_destroy wq = Some wq' ∧ heap wq' = ∅ ∧ head wq' = None ∧ tail wq' = tail wq ∧
         done wq' = true.
Proof.
  intros (ns & Hl & Hnd & Hc & Hf & Hd). unfold wq_destroy.
  destruct (free_all_chain _ _ _ _ (size (heap wq)) Hnd Hc) as (m & E & Hm).
  { by rewrite (repr_heap_size _ ns). }
  rewrite E. eexists. split_and!; [done| |done..]. cbn. apply map_eq. intros a.
  rewrite Hm, lookup_empty. destruct (decide _) as [|Hn]; [done|].
  destruct (heap wq !! a) eqn:Ea; [|done]. exfalso. apply Hn, Hd. by rewrite Ea.
Qed.

(** * Threads

    The history of a run: what arrived, what workers took, what they are busy
    with.  Steps are the critical sections and the end of a piece of work. *)

Record sys := Sys {
  s_queue : work_queue;
  s_arrived : list work;
  s_started : list work;
  s_busy : list work
}.

Inductive wq_step : sys → sys → Prop :=
  | step_enqueue s type x wq' :
      wq_enqueue (s_queue s) type x = Some wq' →
      wq_step s (Sys wq' (s_arrived s ++ [Work type x]) (s_started s) (s_busy s))
  | step_take s w wq' :
      Z.of_nat (length (s_busy s)) < workers (s_queue s) →
      wq_take (s_queue s) = Got w wq' →
      wq_step s (Sys wq' (s_arrived s) (s_started s ++ [w]) (s_busy s ++ [w]))
  | step_finish s l1 w l2 :
      s_busy s = l1 ++ w :: l2 →
      wq_step s (Sys (s_queue s) (s_arrived s) (s_started s) (l1 ++ l2)).

Definition wq_reachable (n : Z) (s : sys) : Prop :=
  ∃ wq, wq_init n = Some wq ∧ rtc wq_step (Sys wq [] [] []) s.

Record wq_inv (n : Z) (s : sys) : Prop := {
  inv_pending : ∃ pending, repr (s_queue s) pending ∧ s_arrived s = s_started s ++ pending;
  inv_live : done (s_queue s) = false;
  inv_workers : workers (s_queue s) = n;
  inv_busy : Z.of_nat (length (s_busy s)) <= n
}.

Lemma wq_step_inv n s s' : wq_step s s' → wq_inv n s → wq_inv n s'.
Proof.
  intros Hs [(pend & Hr & Ha) Hl Hw Hb].
  destruct Hs as [s type x wq' E|s w wq' Hlt E|s l1 w l2 E].
  - destruct (wq_enqueue_repr _ _ type x Hr) as (wq1 & E1 & Hr1 & Hd1 & Hw1). simplify_eq.
    split; cbn; [|congruence|congruence|done]. exists (pend ++ [Work type x]). split; [done|].
    by rewrite Ha, app_assoc.
  - pose proof (wq_take_repr _ _ Hr Hl) as Ht. destruct pend as [|w0 rest]; [congruence|].
    destruct Ht as (wq1 & E1 & Hr1 & Hd1 & Hw1). rewrite E1 in E. injection E as <- <-.
    split; cbn; [|done|congruence|rewrite length_app; simpl; lia]. exists rest. split; [done|].
    by rewrite Ha, <-app_assoc.
  - split; cbn; [by exists pend|done|done|]. rewrite E in Hb. rewrite length_app in *.
    simpl in Hb. lia.
Qed.

Lemma wq_reachable_inv n s : 0 < n → wq_reachable n s → wq_inv n s.
Proof.
  intros Hn (wq & E & Hs). remember (Sys wq [] [] []) as s0 eqn:Hs0.
  assert (wq_inv n s0) as Hinv.
  { subst s0. pose proof (wq_init_repr _ _ E) as Hr. unfold wq_init in E.
    destruct (n =? 0); [done|]. injection E as <-. split; cbn; [by exists []|done|done|lia]. }
  clear Hs0 E. induction Hs as [|s0 s1 s2 H _ IH]; [done|]. by eapply IH, wq_step_inv.
Qed.
End work_queue.

Arguments work A : clear implicits.
Arguments work_queue A : clear implicits.
Arguments sys A : clear implicits.
Arguments taken A : clear implicits.

(** * Properties *)

(** C4: in every interleaving of threads that enqueue, of at most [n] workers
    that take work, and of workers that finish, work is started in the order of
    its arrival, each piece exactly once: what arrived is what was started
    followed by what the linked list still holds.  The list on the heap is
    always intact, and at most [n] pieces are in progress. *)
Theorem wq_starts_work_in_order {A} n (s : sys A) :
  0 < n → wq_reachable n s →
  (∃ pending, repr (s_queue s) pending ∧ s_arrived s = s_started s ++ pending) ∧
  Z.of_nat (length (s_busy s)) <= n ∧ done (s_queue s) = false.
Proof. intros Hn Hr. by destruct (wq_reachable_inv n s Hn Hr). Qed.

(** A queue with one worker and two pieces of work. *)
Definition wq_empty : work_queue nat := WorkQueue ∅ 0 None None false 1.
Definition wq_one : work_queue nat := default wq_empty (wq_enqueue wq_empty 0 7%nat).
Definition wq_two : work_queue nat := default wq_empty (wq_enqueue wq_one 0 8%nat).

Lemma wq_starts_work_in_order_witness :
  ∃ s : sys nat, wq_reachable 1 s ∧ s_started s = [Work 0 7%nat] ∧
    ∃ pending, repr (s_queue s) pending ∧ [Work 0 7%nat; Work 0 8%nat] = s_started s ++ pending.
Proof.
  destruct (wq_take wq_two) as [| |w wq3|] eqn:E3; [discriminate E3..| |discriminate E3].
  exists (Sys wq3 [Work 0 7%nat; Work 0 8%nat] [Work 0 7%nat] [Work 0 7%nat]).
  assert (wq_reachable 1 (Sys wq3 [Work 0 7%nat; Work 0 8%nat] [Work 0 7%nat] [Work 0 7%nat])) as Hr.
  { exists wq_empty. split; [reflexivity|].
    eapply rtc_l; [exact (step_enqueue (Sys wq_empty [] [] []) 0 7%nat wq_one eq_refl)|].
    eapply rtc_l; [exact (step_enqueue (Sys wq_one [Work 0 7%nat] [] []) 0 8%nat wq_two eq_refl)|].
    eapply rtc_l; [|apply rtc_refl].
    apply (step_take (Sys wq_two [Work 0 7%nat; Work 0 8%nat] [] []) (Work 0 7%nat) wq3);
      [vm_compute; reflexivity|].
    change (wq_take wq_two = Got (Work 0 7%nat) wq3). rewrite E3. f_equal.
    vm_compute in E3. injection E3 as <- _. reflexivity. }
  split; [exact Hr|]. split; [reflexivity|].
  exact (proj1 (wq_starts_work_in_order 1 _ ltac:(lia) Hr)).
Defined.

(** the queue never gets stuck.  In every reachable state another piece of
    work can be enqueued, and whenever some piece has arrived that was not
    started while a worker is free, that worker gets the oldest such piece: it
    neither waits nor finds a dangling pointer. *)
Theorem wq_makes_progress {A} n (s : sys A) :
  0 < n → wq_reachable n s →
  (∀ type x, ∃ wq', wq_enqueue (s_queue s) type x = Some wq') ∧
  ((length (s_started s) < length (s_arrived s))%nat → Z.of_nat (length (s_busy s)) < n →
   ∃ w s', s_arrived s !! length (s_started s) = Some w ∧ wq_step s s' ∧
           s_started s' = s_started s ++ [w]).
Proof.
  intros Hn Hr. destruct (wq_reachable_inv n s Hn Hr) as [(pend & Hp & Ha) Hl Hw Hb]. split.
  - intros type x. destruct (wq_enqueue_repr _ _ type x Hp) as (wq' & E & _). by exists wq'.
  - intros Hlt Hfree. pose proof (wq_take_repr _ _ Hp Hl) as Ht.
    destruct pend as [|w rest]; [rewrite Ha, app_nil_r in Hlt; lia|].
    destruct Ht as (wq1 & E & _). exists w. eexists. split_and!.
    + by rewrite Ha, list_lookup_middle.
    + apply step_take; [by rewrite Hw|exact E].
    + reflexivity.
Qed.

Lemma wq_makes_progress_witness :
  ∃ s : sys nat, wq_reachable 1 s ∧ ∃ wq', wq_enqueue (s_queue s) 0 7%nat = Some wq'.
Proof.
  destruct (wq_init (A:=nat) 1) as [wq0|] eqn:E0; [|discriminate E0].
  exists (Sys wq0 [] [] []).
  assert (wq_reachable 1 (Sys wq0 [] [] [])) as Hr by (exists wq0; split; [exact E0|apply rtc_refl]).
  split; [exact Hr|]. exact (proj1 (wq_makes_progress 1 _ ltac:(lia) Hr) 0 7%nat).
Defined.

(** destroying a queue that still holds work frees every node and clears
    the head but leaves the tail pointing to a freed node: a piece of work
    enqueued afterwards is linked through freed memory. *)
Theorem wq_destroy_leaves_dangling_tail {A} (wq : work_queue A) l type x :
  repr wq l → l ≠ [] →
  ∃ wq' t, wq_destroy wq = Some wq' ∧ heap wq' = ∅ ∧ head wq' = None ∧ tail wq' = Some t ∧
           wq_enqueue wq' type x = None.
Proof.
  intros Hr Hne. destruct (wq_destroy_repr wq l Hr) as (wq' & E & Hh & Hd & Ht & _).
  destruct Hr as (ns & Hl & _ & Hc & _). pose proof (chain_tail _ _ _ _ Hc) as Htl.
  destruct (tail wq) as [t|] eqn:Et; last first.
  { subst ns. by destruct Hne. }
  exists wq', t. split_and!; [done..|]. unfold wq_enqueue. rewrite Ht, Hh.
  by rewrite lookup_empty.
Qed.

Lemma wq_destroy_leaves_dangling_tail_witness :
  ∃ wq wq' : work_queue nat, wq_destroy wq = Some wq' ∧ wq_enqueue wq' 0 8%nat = None.
Proof.
  destruct (wq_init (A:=nat) 1) as [wq0|] eqn:E0; [|discriminate E0].
  destruct (wq_enqueue_repr wq0 [] 0 7%nat (wq_init_repr _ _ E0)) as (wq & _ & Hr & _).
  destruct (wq_destroy_leaves_dangling_tail wq [Work 0 7%nat] 0 8%nat Hr) as (wq' & t & E & _ & _ & _ & F);
    [discriminate|]. exists wq, wq'. split; [exact E|exact F].
Defined.
