(* ===== verification/IpSpec.v ===== *)
(** Theorems on the IPv4 path (files IpHeader and Ip): the invariant of the
    state it relies on, header rewriting, forwarding, parking, and packets the
    router allocates itself.  The theorems on ICMP are in the file IcmpSpec. *)

From stdpp Require Import base tactics list numbers strings.
From Stdlib Require Import ZArith Lia.
From S2P Require Import Prelude Dataqueue Common Packets State Loops Ethernet Arp Routing.
From S2P Require Import IpHeader Ping Dijkstra Pwospf PwospfInput Dns Ip.

Local Open Scope Z_scope.

(** * The state the packet path relies on *)

Record wf_world (w : world) : Prop := {
  ww_cache : wf_cache (arp_cache (w_router w));
  ww_macs : wf_macs (cache_of w);
  ww_table : wf_table (ip_table (w_router w));
  ww_routes : routes_bound (length (interfaces_of w)) (table_of w);
  ww_interfaces : Forall (λ i, wf_mac (if_mac i) ∧ is_u32 (if_ip i)) (interfaces_of w)
}.

#[global] Instance wf_world_proper : Proper ((≡) ==> iff) wf_world.
Proof.
  intros w w' Hw. split; intros [H1 H2 H3 H4 H5]; split.
  1: by eapply wf_cache_equiv.
  1: by rewrite <-Hw.
  1: by eapply wf_table_equiv.
  1: by rewrite <-Hw.
  1: by rewrite <-Hw.
  1: by eapply wf_cache_equiv; [symmetry|].
  1: by rewrite Hw.
  1: by eapply wf_table_equiv; [symmetry|].
  1: by rewrite Hw.
  by rewrite Hw.
Qed.

(** A packet whose buffer holds the bytes its length announces. *)
Record wf_packet (pi : packet_info) : Prop := {
  wp_bytes : bytes (pi_packet pi);
  wp_len : pi_len pi = Z.of_nat (length (pi_packet pi));
  wp_header : 34 <= pi_len pi < 65536
}.

Lemma interface_at w i :
  wf_world w → (i < length (interfaces_of w))%nat →
  ∃ x, interfaces (w_router w) !! i = Some x ∧ wf_mac (if_mac x) ∧ is_u32 (if_ip x).
Proof.
  intros [_ _ _ _ Hi] Hlt. unfold interfaces_of in Hlt. rewrite length_fmap in Hlt.
  destruct (lookup_lt_is_Some_2 _ _ Hlt) as [x Hx]. exists x. split; [done|].
  apply (Forall_lookup_1 _ _ i (plain_interface x) Hi). unfold interfaces_of.
  by rewrite list_lookup_fmap, Hx.
Qed.

(** * Forwarding *)

Definition ip_fields_kept (p p' : list Z) : Prop :=
  Forall (λ f, ip_get f p' = ip_get f p)
    ["ihl_version"; "dscp_ecn"; "total_length"; "id"; "flags_fragmentoffset"; "protocol"; "src_ip";
     "dst_ip"].

(** The packet [p'] is [p] one hop further. *)
Record forwarded (p p' : list Z) (ttl : Z) : Prop := {
  fw_length : length p' = length p;
  fw_before : take IP_BASE p' = take IP_BASE p;
  fw_payload : drop L4_BASE p' = drop L4_BASE p;
  fw_ttl : ip_get "ttl" p' = Some (ttl - 1);
  fw_fields : ip_fields_kept p p';
  fw_checksum : ip_checksum p' = Some 0
}.

Ltac read_through :=
  repeat match goal with
  | H : setf _ _ ?q _ _ = Some ?p |- getf ?l ?f ?p ?b = _ =>
      rewrite (getf_setf_other l f _ _ _ b _ _ _ H) by reflexivity
  end.

Lemma ip_fill_checksum_ok p :
  bytes p → (34 <= length p)%nat →
  ∃ p', ip_fill_checksum p = Some p' ∧ length p' = length p ∧ bytes p' ∧
        take IP_BASE p' = take IP_BASE p ∧ drop L4_BASE p' = drop L4_BASE p ∧
        ip_checksum p' = Some 0 ∧ ip_get "ttl" p' = ip_get "ttl" p ∧ ip_fields_kept p p'.
Proof.
  intros Hb Hl. unfold ip_fill_checksum, ip_set. write_step.
  destruct (ip_checksum_ok p0) as (c & Hc & Hr); [set_bytes; done|lia|]. rewrite Hc.
  cbn [mbind option_bind].
  destruct (setf_ok packet_ip4_t "header_checksum" p0 IP_BASE c) as (p' & Ep & Lp); [cbn; lia|].
  exists p'. split_and!; [exact Ep|congruence|set_bytes; done|by set_outside|by set_outside| | |].
  - eapply ip_fill_ok; [| | |exact Hc|exact Ep]; [set_bytes; done|lia|].
    unfold ip_get. read_back; cbn; lia.
  - unfold ip_get. by read_through.
  - unfold ip_fields_kept, ip_get. repeat constructor; by read_through.
Qed.

Lemma decrement_ttl_ok p ttl :
  bytes p → (34 <= length p)%nat → ip_get "ttl" p = Some ttl → 1 < ttl →
  ∃ p', decrement_ttl p = Some p' ∧ forwarded p p' ttl ∧ bytes p'.
Proof.
  intros Hb Hl Ht Hgt. unfold decrement_ttl. rewrite Ht. cbn [mbind option_bind].
  pose proof (getf_range _ _ _ _ _ Hb Ht) as Hr. change (256 ^ Z.of_nat _) with 256 in Hr.
  unfold ip_set. write_step.
  destruct (ip_fill_checksum_ok p0) as (p' & E & L' & B' & Hbf & Haf & Hc & Htt & Hf);
    [set_bytes; done|lia|].
  exists p'. rewrite E. split_and!; [done| |done]. split.
  - congruence.
  - rewrite Hbf. by set_outside.
  - rewrite Haf. by set_outside.
  - rewrite Htt. unfold ip_get. rewrite u8_small in Ew by (unfold is_byte; lia).
    read_back; cbn; lia.
  - assert (ip_fields_kept p p0) as Hf0.
    { unfold ip_fields_kept, ip_get. repeat constructor; by read_through. }
    unfold ip_fields_kept in *. rewrite Forall_forall in *. intros f Hin.
    rewrite (Hf f Hin). by apply Hf0.
  - done.
Qed.

(** Transit packets: accepted, not for the router, not link state packets. *)
Record transit (pi : packet_info) (w : world) (dst ttl : Z) : Prop := {
  tr_ok : ip_accepted (pi_packet pi);
  tr_dst : ip_get "dst_ip" (pi_packet pi) = Some dst;
  tr_ttl : ip_get "ttl" (pi_packet pi) = Some ttl;
  tr_ospf : ¬ (dst = ALLSPFRouters ∧ ip_get "protocol" (pi_packet pi) = Some IP_TYPE_OSPF);
  tr_own : Forall (λ x, if_ip x ≠ dst) (interfaces (w_router w))
}.

Lemma own_address_none r dst :
  Forall (λ x, if_ip x ≠ dst) (interfaces r) → own_address r dst = None.
Proof.
  intros H. apply find_from_None. eapply Forall_impl; [exact H|]. intros x Hx. simpl.
  apply Z.eqb_neq. congruence.
Qed.

Lemma getf_some_of p f l b n : (b + foff l f + flen l f <= n)%nat → (n <= length p)%nat →
  ∃ v, getf l f p b = Some v.
Proof. intros H1 H2. apply getf_ok. lia. Qed.

(** A transit packet goes to the forwarding code. *)
Lemma ip_onreceive_transit recv pi w dst ttl :
  wf_packet pi → transit pi w dst ttl →
  ip_onreceive_body recv pi w = ip_forward recv pi w.
Proof.
  intros [Hb Hl Hh] [Hok Hd Ht Ho Hw]. unfold ip_onreceive_body. mstep Hok. cbn [negb]. mstep Hd.
  destruct (getf_some_of (pi_packet pi) "protocol" packet_ip4_t IP_BASE 34) as [proto Hp];
    [cbn; lia|lia|].
  change (getf packet_ip4_t "protocol" (pi_packet pi) IP_BASE)
    with (ip_get "protocol" (pi_packet pi)) in Hp.
  mstep Hp. destruct (_ && _) eqn:E.
  { apply andb_true_iff in E as [?%Z.eqb_eq ?%Z.eqb_eq]. exfalso. apply Ho. by subst. }
  mrun. by rewrite own_address_none.
Qed.

(** The frame that carries a packet over interface [i]. *)
Definition ip_frame (i : nat) (dmac smac : addr_mac) (p : list Z) : frame :=
  Frame i (dmac ++ smac ++ le_split 2 (htons ETH_IP_TYPE) ++ drop IP_BASE p).

Lemma frame_of_whole dmac smac type pi :
  length dmac = 6%nat → length smac = 6%nat → (14 <= length (pi_packet pi))%nat →
  pi_len pi = Z.of_nat (length (pi_packet pi)) →
  frame_of dmac smac type pi = dmac ++ smac ++ le_split 2 type ++ drop IP_BASE (pi_packet pi).
Proof.
  intros Hd Hs H14 Hl. unfold frame_of. rewrite Hl, Nat2Z.id. apply firstn_all2.
  rewrite !length_app, length_le_split, length_drop. change IP_BASE with 14%nat. lia.
Qed.

(** Both lookups of the forwarding code, for a packet with a route. *)
Lemma ip_forward_lookups recv pi w dst ttl i e :
  wf_world w → transit pi w dst ttl → 1 < ttl → best_match dst (table_of w) (Some (i, e)) →
  let next := if router_ip e =? 0 then dst else router_ip e in
  ∃ x x2 w2, interfaces (w_router w) !! rt_interface e = Some x ∧
    interfaces (w_router w2) !! rt_interface e = Some x2 ∧
    if_mac x2 = if_mac x ∧ if_ip x2 = if_ip x ∧ wf_mac (if_mac x) ∧ w2 ≡ w ∧
    ip_forward recv pi w =
      match Spec.find_from (by_ip next) 0 (cache_of w) with
      | Some (_, a) =>
          p ← in_bounds (decrement_ttl (pi_packet pi));
          intf ← get_interface (rt_interface e);
          ethernet_packet_send (Some (rt_interface e)) (arp_mac a) (if_mac intf)
            (htons ETH_IP_TYPE) (with_packet p pi);;
          mret tt
      | None =>
          arp_queue_ippacket_for_send_on_arp_request_response pi (Some (rt_interface e)) next
      end w2.
Proof.
  intros Hw [_ Hd Ht _ _] Hgt Hbest next. unfold ip_forward. mstep Ht.
  destruct (Z.leb_spec ttl 1); [lia|]. mstep Hd.
  destruct (lookup_route_equiv dst w) as (r & w1 & E1 & H1 & Hb1); [by apply ww_table|].
  mstep E1. rewrite (best_match_unique _ _ _ _ Hb1 Hbest). cbv beta iota zeta.
  assert (wf_world w1) as Hw1 by by rewrite H1.
  destruct (lookup_arp_ip_equiv next w1) as (w2 & E2 & H2); [by apply ww_cache|].
  fold next. mstep E2. rewrite (cache_of_proper _ _ H1).
  assert (w2 ≡ w) as H12 by (by rewrite H2, H1).
  assert (rt_interface e < length (interfaces_of w))%nat as Hlt.
  { destruct Hbest as (Hi & _). exact (Forall_lookup_1 _ _ _ _ (ww_routes _ Hw) Hi). }
  destruct (interface_at w (rt_interface e) Hw Hlt) as (x & Hx & Hmac & _).
  destruct (interface_equiv w w2 _ _ (symmetry H12) Hx) as (x2 & Hx2 & Hpl).
  apply plain_fields in Hpl as (_ & Hmac2 & Hip2 & _). exists x, x2, w2. done.
Qed.

Lemma ip_forward_known recv pi w dst ttl i e k a :
  wf_world w → wf_packet pi → transit pi w dst ttl → 1 < ttl →
  best_match dst (table_of w) (Some (i, e)) →
  Spec.find_from (by_ip (if router_ip e =? 0 then dst else router_ip e)) 0 (cache_of w)
    = Some (k, a) →
  ∃ x p' w', interfaces (w_router w) !! rt_interface e = Some x ∧
    forwarded (pi_packet pi) p' ttl ∧
    ip_forward recv pi w = Ok tt w' ∧
    w' ≡ set_w_out (w_out w ++ [ip_frame (rt_interface e) (arp_mac a) (if_mac x) p']) w.
Proof.
  intros Hw [Hb Hl Hh] Htr Hgt Hbest Harp.
  destruct (ip_forward_lookups recv pi w dst ttl i e Hw Htr Hgt Hbest)
    as (x & x2 & w2 & Hx & Hx2 & Hmac2 & _ & [Hmac _] & H12 & ->). rewrite Harp.
  destruct (decrement_ttl_ok (pi_packet pi) ttl) as (p' & Ep & Hf & Hb'); [done|lia|apply Htr|done|].
  mstep Ep. unfold get_interface. mrun. mstep Hx2.
  assert (length (arp_mac a) = 6%nat) as Ha.
  { apply find_from_lt in Harp as (_ & Hk & _).
    exact (proj1 (Forall_lookup_1 _ _ _ _ (ww_macs _ Hw) Hk)). }
  destruct Hf as [Lp ? ? ? ? ?].
  destruct (ethernet_packet_send_spec (rt_interface e) (arp_mac a) (if_mac x2) (htons ETH_IP_TYPE)
    (with_packet p' pi) w2) as (pi' & E3 & _).
  { done. } { congruence. } { split; simpl; [lia|]. rewrite Lp, Hl. lia. }
  mstep E3. exists x, p'. eexists. split_and!; [done|by split|reflexivity|].
  unfold sent. rewrite frame_of_whole; [|done|congruence|cbn; lia|cbn; congruence].
  unfold ip_frame. rewrite Hmac2. cbn [pi_packet with_packet]. by rewrite H12.
Qed.

(** * Packets the router generates *)

Lemma interface_slot_u32 i w :
  wf_world w → ∃ v, interface_slot_ip i w = Ok v w ∧ is_u32 v.
Proof.
  intros Hw. unfold interface_slot_ip. mrun. destruct (interfaces (w_router w) !! i) as [x|] eqn:Hx.
  - exists (if_ip x). split; [done|].
    destruct (interface_at w i Hw) as (y & Hy & _ & ?).
    { unfold interfaces_of. rewrite length_fmap. by eapply lookup_lt_Some. }
    by simplify_eq.
  - eexists. split; [reflexivity|apply u32_range].
Qed.

(** Header fields of a generated packet. *)
Record generated (pi : packet_info) (size dest src proto : Z) : Prop := {
  ge_len : length (pi_packet pi) = Z.to_nat size;
  ge_bytes : bytes (pi_packet pi);
  ge_accepted : ip_accepted (pi_packet pi);
  ge_dst : ip_get "dst_ip" (pi_packet pi) = Some dest;
  ge_src : ip_get "src_ip" (pi_packet pi) = Some src;
  ge_ttl : ip_get "ttl" (pi_packet pi) = Some 65;
  ge_proto : ip_get "protocol" (pi_packet pi) = Some proto
}.

Ltac write_stepM :=
  match goal with
  | |- context [(in_bounds (setf ?l ?f ?p ?b ?v) ≫= _) _] =>
      let p' := fresh "p" in let E := fresh "Ew" in let L := fresh "Lw" in
      destruct (setf_ok l f p b v) as (p' & E & L);
      [repeat match goal with H : length _ = length _ |- _ => rewrite H end; cbn; lia
      |rewrite (bind_in_bounds _ _ _ _ E); cbv beta]
  | |- context [(in_bounds (setb ?l ?f ?p ?b ?v) ≫= _) _] =>
      let p' := fresh "p" in let E := fresh "Ew" in let L := fresh "Lw" in
      destruct (setb_ok l f p b v) as (p' & E & L);
      [repeat match goal with H : length _ = length _ |- _ => rewrite H end; cbn; lia
      |rewrite (bind_in_bounds _ _ _ _ E); cbv beta]
  end.

(** The pure part of [packetinfo_ip_allocate]: the IPv4 header. *)
Definition new_header (p : list Z) (dest src protocol total_length : Z) : option (list Z) :=
  p ← ip_set_ihl p 5;
  p ← ip_set_version p 4;
  p ← ip_set "dscp_ecn" p 0;
  p ← ip_set "total_length" p (htons (u16 total_length));
  p ← ip_set "id" p 0;
  p ← ip_set "flags_fragmentoffset" p 0;
  p ← ip_set "ttl" p 65;
  p ← ip_set "protocol" p (u8 protocol);
  p ← ip_set "header_checksum" p 0;
  p ← ip_set "src_ip" p src;
  p ← ip_set "dst_ip" p dest;
  c ← ip_checksum p;
  ip_set "header_checksum" p c.

Lemma new_header_ok p dest src protocol tl :
  bytes p → (34 <= length p)%nat → is_u32 src → is_u32 dest → 0 < tl < 65536 →
  ∃ p', new_header p dest src protocol tl = Some p' ∧
        ip_written p p' (htons tl) 65 (u8 protocol) src dest.
Proof.
  intros Hb Hl Hsrc Hdst Htl. unfold new_header, ip_set_version, ip_set_ihl, ip_set, ip_get.
  destruct (getf_ok packet_ip4_t "ihl_version" p IP_BASE) as [b0 Hb0]; [cbn; lia|].
  pose proof (getf_range _ _ _ _ _ Hb Hb0) as Hr. change (256 ^ Z.of_nat _) with 256 in Hr.
  rewrite Hb0. cbn [mbind option_bind]. write_step.
  assert (0 <= put_ihl b0 5 < 256) as Hpv.
  { pose proof (byte_cases (λ b, (0 <=? put_ihl b 5) && (put_ihl b 5 <? 256)) eq_refl b0 Hr)
      as Hv. apply andb_true_iff in Hv as [?%Z.leb_le ?%Z.ltb_lt]. done. }
  assert (getf packet_ip4_t "ihl_version" p0 IP_BASE = Some (put_ihl b0 5)) as Hb1 by by read_back.
  rewrite Hb1. cbn [mbind option_bind]. rewrite put_ihl_version by done.
  rewrite (u16_small tl) by (unfold is_u16; lia). do 10 write_step.
  destruct (ip_checksum_ok p10) as (c & Hc & Hcr); [set_bytes; done|lia|].
  rewrite Hc. cbn [mbind option_bind].
  destruct (setf_ok packet_ip4_t "header_checksum" p10 IP_BASE c) as (p' & Ep & Lp); [cbn; lia|].
  exists p'. split; [exact Ep|].
  assert (is_u16 (htons tl)) as Htl' by apply swap16_range.
  pose proof (u8_range protocol) as Hpr. unfold is_byte, is_u16, is_u32 in *.
  header_written Hc Ep.
Qed.

Lemma htons_pos tl : 0 < tl < 65536 → 0 < htons tl.
Proof. intros H. unfold htons, swap16. width_lia. Qed.

Lemma ip_written_accepted p p' tl ttl proto src dst :
  0 < tl < 65536 → ip_written p p' (htons tl) ttl proto src dst → ip_accepted p'.
Proof.
  intros Htl [? ? ? ? Hv Ht Hf ? ? ? ? Hc].
  exact (ip_accepted_intro p' (htons tl) Hv Ht (htons_pos tl Htl) Hf Hc).
Qed.

Lemma new_header_run p dest src protocol tl p' (k : list Z → M (option packet_info)) w :
  new_header p dest src protocol tl = Some p' →
  (p ← in_bounds (ip_set_ihl p 5);
   p ← in_bounds (ip_set_version p 4);
   p ← in_bounds (ip_set "dscp_ecn" p 0);
   p ← in_bounds (ip_set "total_length" p (htons (u16 tl)));
   p ← in_bounds (ip_set "id" p 0);
   p ← in_bounds (ip_set "flags_fragmentoffset" p 0);
   p ← in_bounds (ip_set "ttl" p 65);
   p ← in_bounds (ip_set "protocol" p (u8 protocol));
   p ← in_bounds (ip_set "header_checksum" p 0);
   p ← in_bounds (ip_set "src_ip" p src);
   p ← in_bounds (ip_set "dst_ip" p dest);
   c ← in_bounds (ip_checksum p);
   p ← in_bounds (ip_set "header_checksum" p c);
   k p) w = k p' w.
Proof.
  unfold new_header. intros H.
  repeat match type of H with
  | (?o ≫= _) = _ =>
      let q := fresh "q" in destruct o as [q|]; cbn [mbind option_bind] in H; [|discriminate H];
      rewrite (bind_in_bounds (Some q) _ _ q eq_refl); cbv beta
  end. by rewrite (bind_in_bounds _ _ _ _ H).
Qed.

Lemma packetinfo_ip_allocate_ok size dest src protocol tl w :
  wf_world w → 34 <= size < 65536 → is_u32 dest → is_u32 src → 0 < tl < 65536 →
  ∃ r w', best_match dest (table_of w) r ∧ w' ≡ w ∧
    match r with
    | None => packetinfo_ip_allocate size dest src protocol tl w = Ok None w'
    | Some (j, e) =>
        ∃ p x, interfaces (w_router w) !! rt_interface e = Some x ∧
          packetinfo_ip_allocate size dest src protocol tl w
          = Ok (Some (PacketInfo p size (Some (rt_interface e)))) w' ∧
          generated (PacketInfo p size (Some (rt_interface e))) size dest
            (if src =? NO_SRC then if_ip x else src) (u8 protocol)
    end.
Proof.
  intros Hw Hsize Hdest Hsrc Htl. unfold packetinfo_ip_allocate. mrun.
  destruct (lookup_route_equiv dest w) as (r & w1 & E1 & H1 & Hb); [by apply ww_table|].
  mstep E1. destruct r as [[j e]|]; [|by exists None, w1].
  assert (wf_world w1) as Hw1 by by rewrite H1.
  assert (rt_interface e < length (interfaces_of w))%nat as Hlt.
  { destruct Hb as (Hi & _). exact (Forall_lookup_1 _ _ _ _ (ww_routes _ Hw) Hi). }
  destruct (interface_at w _ Hw Hlt) as (x & Hx & [Hmac Hmacb] & Hxip).
  destruct (interface_equiv w w1 _ _ (symmetry H1) Hx) as (x1 & Hx1 & Hpl).
  apply plain_fields in Hpl as (_ & Hmac1 & Hip1 & _).
  unfold get_interface. mrun. mstep Hx1.
  assert (length (junk_bytes w (Z.to_nat size)) = Z.to_nat size) as Lj by apply length_junk_bytes.
  assert (34 <= Z.to_nat size)%nat as H34 by lia.
  assert (length (if_mac x1) = 6%nat) as Hm6 by congruence.
  write_stepM.
  destruct (lookup_arp_ip_equiv dest w1) as (w2 & E2 & H2); [by apply ww_cache|]. mstep E2.
  set (dmac := match _ with Some _ => _ | None => MAC_BROADCAST end).
  assert (wf_mac dmac) as [Hd6 Hdb].
  { unfold dmac. rewrite (cache_of_proper _ _ H1).
    destruct (Spec.find_from _ 0 (cache_of w)) as [[k a]|] eqn:Hf; [|by split; [|repeat constructor]].
    apply find_from_lt in Hf as (_ & Hk & _). exact (Forall_lookup_1 _ _ _ _ (ww_macs _ Hw) Hk). }
  write_stepM. write_stepM.
  set (src' := if src =? NO_SRC then if_ip x1 else src).
  assert (is_u32 src') as Hsrc' by (unfold src'; rewrite Hip1; by destruct (src =? NO_SRC)).
  assert (bytes p1) as Hb1.
  { eapply setf_bytes; [exact Ew1|]. eapply put_bytes_bytes; [exact Ew0| |done].
    eapply put_bytes_bytes; [exact Ew|apply junk_bytes_bytes|by rewrite Hmac1]. }
  destruct (new_header_ok p1 dest src' protocol tl) as (p' & Ep & Hwr); [done|lia|done..|].
  rewrite (new_header_run _ _ _ _ _ _ (λ p, mret (Some (PacketInfo p size (Some (rt_interface e)))))
    w2 Ep).
  exists (Some (j, e)), w2. split_and!; [done|by rewrite H2|]. exists p', x.
  split_and!; [done|done|]. pose proof (ip_written_accepted _ _ _ _ _ _ _ Htl Hwr) as Hacc.
  destruct Hwr. unfold src' in *. rewrite Hip1 in *. split; cbn; try done. lia.
Qed.
