(* ===== verification/ArpSpec.v ===== *)
(** Theorems on ARP packets (files Arp and ArpInput): the frames that are sent,
    the answer to a request, and the release of parked packets. *)

From stdpp Require Import base tactics list numbers strings.
From Stdlib Require Import ZArith Lia.
From S2P Require Import Prelude Dataqueue Common Packets State Loops Ethernet Arp Routing.
From S2P Require Import IpHeader Ping Dijkstra Pwospf PwospfInput Dns Ip ArpInput IpSpec.

Local Open Scope Z_scope.

(** * Frames *)

(** The 28 bytes of an ARP packet for IPv4 over Ethernet. *)
Definition arp_bytes (opcode tip : Z) (tmac : addr_mac) (sip : Z) (smac : addr_mac) : list Z :=
  [0; 1; 8; 0; 6; 4; 0; opcode] ++ smac ++ le_split 4 sip ++ tmac ++ le_split 4 tip.

Definition arp_frame (i : nat) (opcode tip : Z) (tmac dmac : addr_mac) (sip : Z) (smac : addr_mac)
    (pad : list Z) : frame :=
  Frame i (dmac ++ smac ++ [8; 6] ++ arp_bytes opcode tip tmac sip smac ++ pad).

Lemma split_at {A} (p : list A) n : (n <= length p)%nat → ∃ a r, length a = n ∧ p = a ++ r.
Proof.
  intros H. exists (take n p), (drop n p). rewrite length_take, take_drop. split; [lia|done].
Qed.

(** Name the elements of a list of known length. *)
Ltac explode a H :=
  destruct a as [|? a];
  [first [discriminate H | clear H] | first [discriminate H | explode a H]].

Ltac put_step :=
  match goal with
  | |- context [put_bytes ?p ?o ?d ≫= _] =>
      rewrite (put_bytes_Some p o d) by (cbn [length app le_split]; lia);
      cbn [take drop app length le_split mbind option_bind Nat.add]
  end.

Lemma split_htons_byte x : 0 <= x < 256 → le_split 2 (htons x) = [0; x].
Proof.
  intros Hx. unfold htons, swap16. cbn [le_split]. repeat f_equal; width_lia.
Qed.

(** The fields [arp_send] writes, as one pure chain. *)
Definition arp_fill (p : list Z) (opcode target_ip : Z) (target_mac : addr_mac) (source_ip : Z)
    (source_mac : addr_mac) : option (list Z) :=
  let base := sizeof packet_ethernet_t in
  p ← setf packet_arp_t "hardwareaddresslength" p base 6;
  p ← setf packet_arp_t "protocoladdresslength" p base 4;
  p ← setf packet_arp_t "opcode" p base (htons opcode);
  p ← setf packet_arp_t "protocoltype" p base (htons ARP_PTYPE_IP);
  p ← setf packet_arp_t "hardwaretype" p base (htons ARP_HTYPE_ETH);
  p ← setf packet_arp_t "target_ip" p base target_ip;
  p ← setb packet_arp_t "target_mac" p base target_mac;
  p ← setf packet_arp_t "sender_ip" p base source_ip;
  p ← setb packet_arp_t "sender_mac" p base source_mac;
  Some p.

Lemma arp_fill_ok p opcode tip tmac sip smac :
  (42 <= length p)%nat → length tmac = 6%nat → length smac = 6%nat → 0 <= opcode < 256 →
  arp_fill p opcode tip tmac sip smac
  = Some (take 14 p ++ arp_bytes opcode tip tmac sip smac ++ drop 42 p).
Proof.
  intros Hp Ht Hs Ho. destruct (split_at p 42 Hp) as (a & r & Ha & ->).
  explode tmac Ht. explode smac Hs. explode a Ha.
  unfold arp_fill, setf, setb, store. layout_simpl. cbn [Nat.add].
  rewrite (split_htons_byte opcode) by done.
  change (le_split 2 (htons ARP_PTYPE_IP)) with [8; 0].
  change (le_split 2 (htons ARP_HTYPE_ETH)) with [0; 1].
  change (le_split 1 6) with [6]. change (le_split 1 4) with [4].
  do 9 put_step. done.
Qed.

Lemma arp_send_fill intf pi opcode tip tmac sip smac w p' :
  arp_fill (pi_packet pi) opcode tip tmac sip smac = Some p' →
  arp_send intf pi opcode tip tmac sip smac w
  = (res ← ethernet_packet_send intf tmac smac (htons ETH_ARP_TYPE) (with_packet p' pi);
     mret res.1) w.
Proof.
  unfold arp_fill, arp_send. intros H.
  repeat match type of H with
  | (?o ≫= _) = _ =>
      let q := fresh "q" in destruct o as [q|]; cbn [mbind option_bind] in H; [|discriminate H];
      rewrite (bind_in_bounds (Some q) _ _ q eq_refl); cbv beta
  end. by simplify_eq.
Qed.

(** Sending an ARP packet: what lies behind it in the buffer goes along. *)
Lemma arp_send_ok i pi opcode tip tmac sip smac w :
  (42 <= length (pi_packet pi))%nat → pi_len pi = Z.of_nat (length (pi_packet pi)) →
  pi_len pi < 4294967296 →
  length tmac = 6%nat → length smac = 6%nat → 0 <= opcode < 256 →
  ∃ pi', arp_send (Some i) pi opcode tip tmac sip smac w
         = Ok pi' (set_w_out (w_out w ++
             [arp_frame i opcode tip tmac tmac sip smac (drop 42 (pi_packet pi))]) w) ∧
         pi_packet pi'
         = fr_bytes (arp_frame i opcode tip tmac tmac sip smac (drop 42 (pi_packet pi))) ∧
         pi_interface pi' = pi_interface pi.
Proof.
  intros Hp Hl Hmax Ht Hs Ho.
  pose proof (arp_fill_ok (pi_packet pi) opcode tip tmac sip smac ltac:(lia) Ht Hs Ho) as E.
  rewrite (arp_send_fill _ _ _ _ _ _ _ _ _ E).
  assert (length (arp_bytes opcode tip tmac sip smac) = 28%nat) as Hlen.
  { unfold arp_bytes. rewrite !length_app, !length_le_split, Ht, Hs. done. }
  destruct (ethernet_packet_send_spec i tmac smac (htons ETH_ARP_TYPE)
    (with_packet (take 14 (pi_packet pi) ++ arp_bytes opcode tip tmac sip smac
                    ++ drop 42 (pi_packet pi)) pi) w) as (pi' & E' & Hpk & _ & Hint); [done..| |].
  { split; cbn [pi_len pi_packet with_packet]; [lia|].
    rewrite !length_app, length_take, length_drop. lia. }
  assert (drop 14 (take 14 (pi_packet pi) ++ arp_bytes opcode tip tmac sip smac
             ++ drop 42 (pi_packet pi))
          = arp_bytes opcode tip tmac sip smac ++ drop 42 (pi_packet pi)) as Hd.
  { rewrite drop_app_ge by (rewrite length_take; lia). rewrite length_take.
    by replace (14 - 14 `min` length (pi_packet pi))%nat with 0%nat by lia. }
  mstep E'. exists pi'. cbn [pi_packet with_packet] in Hpk. rewrite Hd in Hpk.
  split_and!; [|exact Hpk|exact Hint]. unfold sent, frame_of. cbn [pi_packet with_packet pi_len].
  rewrite Hd, Hl, Nat2Z.id, firstn_all2; [done|].
  rewrite !length_app, length_le_split, length_drop, Ht, Hs, Hlen. lia.
Qed.

Lemma arp_send_request_ok w i x tip :
  interfaces (w_router w) !! i = Some x → length (if_mac x) = 6%nat →
  arp_send_request (Some i) tip w
  = Ok tt (set_w_out (w_out w ++ [arp_frame i ARP_OPCODE_REQUEST tip MAC_BROADCAST MAC_BROADCAST
                                    (if_ip x) (if_mac x) []]) w).
Proof.
  intros Hx Hm. unfold arp_send_request, deref_interface, get_interface. mrun. cbn [from_option_M].
  mrun. mstep Hx.
  destruct (arp_send_ok i (PacketInfo (junk_bytes w 42) 42 (Some i)) ARP_OPCODE_REQUEST tip
    MAC_BROADCAST (if_ip x) (if_mac x) w) as (pi' & E & _);
    [cbn [pi_packet pi_len]; rewrite ?length_junk_bytes; unfold ARP_OPCODE_REQUEST; lia || done..|].
  mstep E. cbn [pi_packet]. by rewrite (drop_ge (junk_bytes w 42)) by (rewrite length_junk_bytes; lia).
Qed.

(** * Reading an ARP packet *)

Lemma get_bytes_app (a b c : list Z) o n :
  length a = o → length b = n → get_bytes (a ++ b ++ c) o n = Some b.
Proof.
  intros <- <-. rewrite get_bytes_Some by (rewrite !length_app; lia).
  by rewrite drop_app_length, take_app_length.
Qed.

Lemma getf_app l f (a b c : list Z) base v :
  length a = (base + foff l f)%nat → b = le_split (flen l f) v →
  0 <= v < 256 ^ Z.of_nat (flen l f) → getf l f (a ++ b ++ c) base = Some v.
Proof.
  intros Ha -> Hv. unfold getf, load. rewrite (get_bytes_app a); [|done|apply length_le_split].
  simpl. by rewrite le_combine_split_small.
Qed.

Record arp_fields (p : list Z) (opcode tip : Z) (tmac : addr_mac) (sip : Z) (smac : addr_mac)
  : Prop := {
  af_htype : arp_get "hardwaretype" p = Some (htons ARP_HTYPE_ETH);
  af_ptype : arp_get "protocoltype" p = Some (htons ARP_PTYPE_IP);
  af_hlen : arp_get "hardwareaddresslength" p = Some 6;
  af_plen : arp_get "protocoladdresslength" p = Some 4;
  af_opcode : arp_get "opcode" p = Some (htons opcode);
  af_smac : arp_getb "sender_mac" p = Some smac;
  af_sip : arp_get "sender_ip" p = Some sip;
  af_tmac : arp_getb "target_mac" p = Some tmac;
  af_tip : arp_get "target_ip" p = Some tip
}.

Lemma arp_fields_ok eth opcode tip tmac sip smac pad :
  length eth = 14%nat → length tmac = 6%nat → length smac = 6%nat → is_u32 tip → is_u32 sip →
  0 <= opcode < 256 →
  arp_fields (eth ++ arp_bytes opcode tip tmac sip smac ++ pad) opcode tip tmac sip smac.
Proof.
  intros He Ht Hs Htip Hsip Ho. unfold arp_bytes, is_u32 in *. split; unfold arp_get, arp_getb, getb.
  - apply (getf_app _ _ eth [0; 1]); [done|done|first [cbn; lia|by vm_compute]].
  - replace (eth ++ _) with ((eth ++ [0; 1]) ++ [8; 0] ++ ([6; 4; 0; opcode] ++ smac
      ++ le_split 4 sip ++ tmac ++ le_split 4 tip) ++ pad) by (rewrite <-!app_assoc; done).
    apply getf_app; [by rewrite length_app, He|done|first [cbn; lia|by vm_compute]].
  - replace (eth ++ _) with ((eth ++ [0; 1; 8; 0]) ++ [6] ++ ([4; 0; opcode] ++ smac
      ++ le_split 4 sip ++ tmac ++ le_split 4 tip) ++ pad) by (rewrite <-!app_assoc; done).
    apply getf_app; [by rewrite length_app, He|done|first [cbn; lia|by vm_compute]].
  - replace (eth ++ _) with ((eth ++ [0; 1; 8; 0; 6]) ++ [4] ++ ([0; opcode] ++ smac
      ++ le_split 4 sip ++ tmac ++ le_split 4 tip) ++ pad) by (rewrite <-!app_assoc; done).
    apply getf_app; [by rewrite length_app, He|done|first [cbn; lia|by vm_compute]].
  - replace (eth ++ _) with ((eth ++ [0; 1; 8; 0; 6; 4]) ++ [0; opcode] ++ (smac
      ++ le_split 4 sip ++ tmac ++ le_split 4 tip) ++ pad) by (rewrite <-!app_assoc; done).
    apply getf_app; [by rewrite length_app, He|by rewrite <-split_htons_byte|].
    pose proof (swap16_range opcode). unfold is_u16 in *. cbn. done.
  - replace (eth ++ _) with ((eth ++ [0; 1; 8; 0; 6; 4; 0; opcode]) ++ smac ++ (
      le_split 4 sip ++ tmac ++ le_split 4 tip) ++ pad) by (rewrite <-!app_assoc; done).
    apply get_bytes_app; [by rewrite length_app, He|done].
  - replace (eth ++ _) with ((eth ++ [0; 1; 8; 0; 6; 4; 0; opcode] ++ smac) ++ le_split 4 sip ++ (
      tmac ++ le_split 4 tip) ++ pad) by (rewrite <-!app_assoc; done).
    apply getf_app; [by rewrite !length_app, He, Hs|done|first [cbn; lia|by vm_compute]].
  - replace (eth ++ _) with ((eth ++ [0; 1; 8; 0; 6; 4; 0; opcode] ++ smac ++ le_split 4 sip)
      ++ tmac ++ le_split 4 tip ++ pad) by (rewrite <-!app_assoc; done).
    apply get_bytes_app; [by rewrite !length_app, length_le_split, He, Hs|done].
  - replace (eth ++ _) with ((eth ++ [0; 1; 8; 0; 6; 4; 0; opcode] ++ smac ++ le_split 4 sip
      ++ tmac) ++ le_split 4 tip ++ pad) by (rewrite <-!app_assoc; done).
    apply getf_app; [by rewrite !length_app, length_le_split, He, Hs, Ht|done|first [cbn; lia|by vm_compute]].
Qed.

(** * Answering requests *)

Definition arp_packet (i : nat) (eth : list Z) (opcode tip : Z) (tmac : addr_mac) (sip : Z)
    (smac : addr_mac) (pad : list Z) : packet_info :=
  let p := eth ++ arp_bytes opcode tip tmac sip smac ++ pad in
  PacketInfo p (Z.of_nat (length p)) (Some i).

Record wf_arp_input (w : world) (i : nat) (x : interface) (eth tmac smac pad : list Z) (tip sip : Z)
  : Prop := {
  ai_cache : wf_cache (arp_cache (w_router w));
  ai_interface : interfaces (w_router w) !! i = Some x;
  ai_imac : length (if_mac x) = 6%nat;
  ai_eth : length eth = 14%nat;
  ai_tmac : length tmac = 6%nat;
  ai_smac : wf_mac smac;
  ai_tip : is_u32 tip;
  ai_sip : is_u32 sip;
  ai_pad : Z.of_nat (length pad) < 65536
}.

Lemma process_empty ip w :
  parked_of w = [] → size (iparp_buffer (w_router w)) = 0 → process_arpipqueue ip w = Ok tt w.
Proof.
  intros _ H. unfold process_arpipqueue. mrun. cbn [serve_loop]. mrun. by rewrite H.
Qed.

Lemma cache_changed_same w w' :
  cache_changed w w' →
  w_out w' = w_out w ∧ interfaces (w_router w') = interfaces (w_router w) ∧
  iparp_buffer (w_router w') = iparp_buffer (w_router w) ∧
  ip_table (w_router w') = ip_table (w_router w).
Proof. intros (q & t & ->). done. Qed.

(** The answer goes out in the buffer of the request; the queue is then served
    for the sender address found there, that of the router. *)
Lemma arp_request_run w i x eth tip tmac sip smac pad :
  wf_arp_input w i x eth tmac smac pad tip sip → if_ip x = tip →
  ∃ w', arp_onreceive (arp_packet i eth ARP_OPCODE_REQUEST tip tmac sip smac pad) w
          = process_arpipqueue tip w' ∧
        w_out w' = w_out w ++ [arp_frame i ARP_OP_REPLY sip smac smac tip (if_mac x) pad] ∧
        cache_of w' = put_list sip smac (deadline ARP_CACHE_TIMEOUT_REQUEST
                                           (w_clock w (w_ticks w))) (cache_of w) ∧
        interfaces (w_router w') = interfaces (w_router w) ∧
        iparp_buffer (w_router w') = iparp_buffer (w_router w) ∧
        ip_table (w_router w') = ip_table (w_router w) ∧ wf_cache (arp_cache (w_router w')).
Proof.
  intros [Hc Hx Hm He Ht [Hs _] Htip Hsip Hpad] Hip. unfold arp_onreceive, arp_packet.
  cbn [pi_packet pi_len pi_interface].
  destruct (arp_fields_ok eth ARP_OPCODE_REQUEST tip tmac sip smac pad) as [F1 F2 F3 F4 F5 F6 F7 F8 F9];
    [done..|unfold ARP_OPCODE_REQUEST; lia|].
  mstep F1. mstep F2. mstep F3. mstep F4. cbn [andb].
  change (ntohs (htons ARP_HTYPE_ETH) =? ARP_HTYPE_ETH) with true.
  change (ntohs (htons ARP_PTYPE_IP) =? ARP_PTYPE_IP) with true. cbn [andb Z.eqb Pos.eqb].
  mstep F5. mstep F7. mstep F6. mstep F9. mstep F8.
  change (ntohs (htons ARP_OPCODE_REQUEST) =? ARP_OPCODE_REQUEST) with true. cbv iota.
  unfold deref_interface, get_interface. cbn [from_option_M]. mrun. mstep Hx.
  rewrite (proj2 (Z.eqb_eq tip (if_ip x))) by done.
  destruct (arp_putincache_spec sip smac ARP_CACHE_TIMEOUT_REQUEST w Hc) as (w1 & E1 & Hch & Hc1 & Hp1).
  rewrite bind_assoc. mstep E1. destruct (cache_changed_same _ _ Hch) as (Ho & Hif & Hib & Htb).
  set (p := eth ++ _ ++ pad).
  assert (length p = 42 + length pad)%nat as Hlp.
  { unfold p, arp_bytes. rewrite !length_app, !length_le_split, He, Ht, Hs. done. }
  assert (drop 42 p = pad) as Hd.
  { unfold p. rewrite app_assoc. apply drop_app_length'. unfold arp_bytes.
    rewrite !length_app, !length_le_split, He, Ht, Hs. done. }
  destruct (arp_send_ok i (PacketInfo p (Z.of_nat (length p)) (Some i)) ARP_OP_REPLY sip smac
    (if_ip x) (if_mac x) w1) as (pi' & E2 & Hpp & _);
    [cbn [pi_packet pi_len]; unfold ARP_OP_REPLY; lia || done..|].
  mstep E2. cbn [pi_packet] in Hpp. rewrite Hd in Hpp. cbn [pi_packet]. rewrite Hd.
  destruct (arp_fields_ok (smac ++ if_mac x ++ [8; 6]) ARP_OP_REPLY sip smac (if_ip x) (if_mac x) pad)
    as [_ _ _ _ _ _ Hv _ _];
    [rewrite !length_app, Hs, Hm; done|done|done|done|by rewrite Hip|unfold ARP_OP_REPLY; lia|].
  rewrite <-!app_assoc in Hv. unfold arp_frame in Hpp. cbn [fr_bytes] in Hpp. rewrite <-Hpp in Hv.
  mstep Hv. rewrite Hip. eexists. split_and!; [done| |exact Hp1|exact Hif|exact Hib|exact Htb|exact Hc1].
  cbn. by rewrite Ho.
Qed.

(** * Release of parked packets *)

Lemma forwarded_after_fill p p1 p2 ttl :
  length p1 = length p → take IP_BASE p1 = take IP_BASE p → drop L4_BASE p1 = drop L4_BASE p →
  ip_fields_kept p p1 → forwarded p1 p2 ttl → forwarded p p2 ttl.
Proof.
  intros Hl Hb Ha Hf [L B A T F C]. split; [congruence..|done| |done].
  unfold ip_fields_kept in *. rewrite Forall_forall in *. intros f Hin. by rewrite (F f Hin), Hf.
Qed.

Lemma wf_world_parked q w : wf_world w → wf_world (set_w_router (set_iparp_buffer q (w_router w)) w).
Proof. intros [H1 H2 H3 H4 H5]. by split. Qed.

(** The fields [ip_onreceive] looks at survive a refill of the checksum. *)
Lemma transit_filled pi p1 w dst ttl :
  transit pi w dst ttl → ip_checksum p1 = Some 0 → ip_get "ttl" p1 = ip_get "ttl" (pi_packet pi) →
  ip_fields_kept (pi_packet pi) p1 → transit (with_packet p1 pi) w dst ttl.
Proof.
  intros [Hok Hd Ht Ho Hw] Hc Htt Hf. unfold ip_fields_kept in Hf. rewrite Forall_forall in Hf.
  assert (∀ f, f ∈ ["ihl_version"; "dscp_ecn"; "total_length"; "id"; "flags_fragmentoffset";
     "protocol"; "src_ip"; "dst_ip"] → ip_get f p1 = ip_get f (pi_packet pi)) as Hk by done.
  split; cbn [pi_packet with_packet].
  - unfold ip_accepted, ip_header_check in *.
    rewrite (Hk "ihl_version"), (Hk "total_length"), (Hk "flags_fragmentoffset"), Hc
      by (repeat (constructor || by left || right)).
    destruct (ip_get "ihl_version" (pi_packet pi)); [|done]. cbn [mbind option_bind] in *.
    repeat (case_match; [done|]).
    destruct (ip_get "total_length" (pi_packet pi)); [|done]. cbn [mbind option_bind] in *.
    repeat (case_match; [done|]). destruct (ip_checksum (pi_packet pi)); [|done].
    cbn [mbind option_bind] in *. by repeat (case_match; [done|]).
  - by rewrite Hk by (repeat (constructor || right)).
  - congruence.
  - by rewrite Hk by (repeat (constructor || right)).
  - done.
Qed.

(** An entry of the queue of waiting packets whose packet still has the route
    it had when it was parked: the recorded interface and next hop are those of
    the longest matching route. *)
Record waits_via (w : world) (ent : iparp_buffer_entry) (dst ttl : Z) (j : nat) (e : rtable_entry)
  : Prop := {
  wv_len : ib_len ent = pi_len (ib_pi ent) + sizeof_packet_info;
  wv_packet : wf_packet (ib_pi ent);
  wv_transit : transit (ib_pi ent) w dst ttl;
  wv_ttl : 1 < ttl;
  wv_route : best_match dst (table_of w) (Some (j, e));
  wv_intf : ib_intf ent = Some (rt_interface e);
  wv_dest : ib_dest ent = next_hop_of e dst
}.

Definition waits (w : world) (ent : iparp_buffer_entry) : Prop :=
  ∃ dst ttl j e, waits_via w ent dst ttl j e.

Definition waits_for (ip : Z) (ent : iparp_buffer_entry) : bool := ib_dest ent =? ip.

(** The frame in which a waiting packet leaves for the station [mac]. *)
Definition released (w : world) (mac : addr_mac) (ent : iparp_buffer_entry) (fr : frame) : Prop :=
  ∃ i x ttl p', ib_intf ent = Some i ∧ interfaces_of w !! i = Some x ∧
    ip_get "ttl" (pi_packet (ib_pi ent)) = Some ttl ∧ forwarded (pi_packet (ib_pi ent)) p' ttl ∧
    fr = ip_frame i mac (if_mac x) p'.

(** The elements a removal loop takes out; the others are
    [Spec.remove_skip]. *)
Fixpoint taken_out {A} (p : A → bool) (l : list A) : list A :=
  match l with
  | [] => []
  | x :: rest =>
      if p x then x :: match rest with [] => [] | _ :: rest' => taken_out p rest' end
      else taken_out p rest
  end.

(** Only the last element is concerned. *)
Lemma remove_skip_last {A} (p : A → bool) l x :
  Forall (λ y, p y = false) l → p x = true → Spec.remove_skip p (l ++ [x]) = l.
Proof.
  intros Hl Hx. induction Hl as [|y l Hy Hl IH]; simpl; [by rewrite Hx|]. by rewrite Hy, IH.
Qed.

Lemma taken_out_last {A} (p : A → bool) l x :
  Forall (λ y, p y = false) l → p x = true → taken_out p (l ++ [x]) = [x].
Proof.
  intros Hl Hx. induction Hl as [|y l Hy Hl IH]; simpl; [by rewrite Hx|]. by rewrite Hy, IH.
Qed.

Definition with_parked (q : dataqueue iparp_buffer_entry) (w : world) : world :=
  set_w_router (set_iparp_buffer q (w_router w)) w.

(** The entry of the queue of waiting packets. *)
Definition waiting (pi : packet_info) (intf : nat) (next : Z) (now : timeval) : iparp_buffer_entry :=
  IparpEntry pi now 1 (sizeof_packet_info + pi_len pi) (Some intf) next.

Lemma park_run pi i x dest w :
  pi_len pi = Z.of_nat (length (pi_packet pi)) → interfaces (w_router w) !! i = Some x →
  length (if_mac x) = 6%nat →
  arp_queue_ippacket_for_send_on_arp_request_response pi (Some i) dest w
  = Ok tt (set_w_out (w_out w ++ [arp_frame i ARP_OPCODE_REQUEST dest MAC_BROADCAST MAC_BROADCAST
                                    (if_ip x) (if_mac x) []])
             (set_w_ticks (S (w_ticks w)) (with_parked (queue_add (iparp_buffer (w_router w))
                (waiting pi i dest (w_clock w (w_ticks w))) sizeof_iparp_buffer_entry) w))).
Proof.
  intros Hl Hx Hm. unfold arp_queue_ippacket_for_send_on_arp_request_response.
  assert (get_bytes (pi_packet pi) 0 (Z.to_nat (pi_len pi)) = Some (pi_packet pi)) as Hg.
  { rewrite Hl, Nat2Z.id, get_bytes_Some by lia. by rewrite drop_0, firstn_all. }
  mstep Hg. mrun. replace (PacketInfo (pi_packet pi) (pi_len pi) (pi_interface pi)) with pi by by destruct pi.
  by erewrite arp_send_request_ok.
Qed.

#[global] Instance with_parked_proper q : Proper ((≡) ==> (≡)) (with_parked q).
Proof.
  intros w w' H. unfold equiv, world_equiv in *. exact (f_equal (with_parked (erase_queue q)) H).
Qed.

Lemma with_parked_same q w :
  erase_queue q = erase_queue (iparp_buffer (w_router w)) → with_parked q w ≡ w.
Proof.
  intros H. unfold equiv, world_equiv, erase_world, erase_router, with_parked. simpl. by rewrite H.
Qed.

Lemma waits_ext w w' ent :
  interfaces_of w' = interfaces_of w → table_of w' = table_of w → waits w ent → waits w' ent.
Proof.
  intros Hi Ht (dst & ttl & j & e & [H1 H2 [T1 T2 T3 T4 T5] H4 H5 H6 H7]). exists dst, ttl, j, e.
  split; [done..| |done|by rewrite Ht|done|done]. split; [done..|].
  assert (Forall (λ x, if_ip x ≠ dst) (interfaces_of w')) as H
    by (rewrite Hi; unfold interfaces_of; by apply Forall_fmap).
  unfold interfaces_of in H. rewrite Forall_fmap in H. exact H.
Qed.

Lemma serve_marshall pi :
  wf_packet pi → PACKET_CAN_MARSHALL packet_ip4_t (Z.of_nat IP_BASE) (pi_len pi) = true.
Proof.
  intros [_ Hl Hh]. unfold PACKET_CAN_MARSHALL. rewrite u64_small by (cbn; lia). apply Z.leb_le.
  cbn. lia.
Qed.

(** Serving an entry: up to the comparison of its next hop. *)
Lemma serve_entry_lookup q i ent ip w dst ttl j e :
  wf_table (ip_table (w_router w)) → waits_via w ent dst ttl j e →
  ∃ w1, w1 ≡ w ∧ serve_entry q i ent ip w =
    (if ip =? ib_dest ent then
       put_parked (queue_unlockidandremove q (Z.of_nat i));;
       p ← in_bounds (ip_fill_checksum (pi_packet (ib_pi ent)));
       ip_onreceive (with_packet p (ib_pi ent))
     else put_parked (queue_unlockid q (Z.of_nat i))) w1.
Proof.
  intros Hw [Hlen Hwp [_ Hd _ _ _] _ Hbest _ Hdest]. unfold serve_entry, parked_packet.
  rewrite Hlen, Z.eqb_refl. unfold assert_M. mrun. rewrite serve_marshall by done. mstep Hd.
  destruct (lookup_route_equiv dst w Hw) as (r & w1 & E1 & H1 & Hb1).
  mstep E1. rewrite (best_match_unique _ _ _ _ Hb1 Hbest). cbv beta iota zeta. rewrite Hdest.
  by exists w1.
Qed.

Lemma serve_entry_kept q i ent ip w :
  wf_table (ip_table (w_router w)) → waits w ent → waits_for ip ent = false →
  erase_queue q = erase_queue (iparp_buffer (w_router w)) →
  ∃ w', serve_entry q i ent ip w = Ok tt w' ∧ w' ≡ w.
Proof.
  intros Hw (dst & ttl & j & e & Hv) Hne Hq.
  destruct (serve_entry_lookup q i ent ip w dst ttl j e Hw Hv) as (w1 & H1 & ->).
  unfold waits_for in Hne. rewrite Z.eqb_sym in Hne. rewrite Hne.
  exists (with_parked (queue_unlockid q (Z.of_nat i)) w1). split; [done|].
  rewrite H1. by apply with_parked_same.
Qed.

(** The packet goes through [ip_onreceive] again, with its checksum refilled. *)
Lemma serve_entry_released q i ent ip w k a :
  wf_world w → waits w ent → waits_for ip ent = true →
  Spec.find_from (by_ip ip) 0 (cache_of w) = Some (k, a) →
  ∃ fr w', serve_entry q i ent ip w = Ok tt w' ∧ released w (arp_mac a) ent fr ∧
    w' ≡ set_w_out (w_out w ++ [fr]) (with_parked (queue_unlockidandremove q (Z.of_nat i)) w).
Proof.
  intros Hw (dst & ttl & j & e & Hv) Heq Harp. apply Z.eqb_eq in Heq.
  destruct (serve_entry_lookup q i ent ip w dst ttl j e (ww_table _ Hw) Hv) as (w1 & H1 & ->).
  destruct Hv as [_ [Hb Hl Hh] Htr Hgt Hbest Hin Hdest]. rewrite Heq, Z.eqb_refl. unfold put_parked. mrun.
  set (q' := queue_unlockidandremove q _).
  change (set_w_router _ w1) with (with_parked q' w1). set (w2 := with_parked q' w1).
  assert (w2 ≡ with_parked q' w) as H2 by (unfold w2; by rewrite H1).
  destruct (ip_fill_checksum_ok (pi_packet (ib_pi ent)))
    as (p1 & Ep & L1 & B1 & Hbf & Haf & Hc & Htt & Hf); [done|lia|]. mstep Ep.
  assert (wf_world w2) as Hw2 by (rewrite H2; by apply wf_world_parked).
  assert (transit (with_packet p1 (ib_pi ent)) w2 dst ttl) as Htr2.
  { apply transit_filled; [|done..]. destruct Htr as [? ? ? ? Hown]. split; [done..|].
    pose proof (interfaces_of_proper _ _ H2 : interfaces_of w2 = interfaces_of w) as Hifs.
    assert (Forall (λ x, if_ip x ≠ dst) (interfaces_of w2)) as Hall
      by (rewrite Hifs; by apply Forall_fmap).
    unfold interfaces_of in Hall. rewrite Forall_fmap in Hall. exact Hall. }
  destruct (ip_forward_known (ip_onreceive_fuel 1) (with_packet p1 (ib_pi ent)) w2 dst ttl j e k a)
    as (x & p' & w3 & Hx & Hfw & E3 & H3); [done|split; cbn; [done|congruence|done]|done|done| | |].
  { by rewrite (table_of_proper _ _ H2 : table_of w2 = table_of w). }
  { rewrite (cache_of_proper _ _ H2 : cache_of w2 = cache_of w), <-Harp, <-Heq. by rewrite Hdest. }
  change (ip_onreceive ?pi ?w) with (ip_onreceive_body (ip_onreceive_fuel 1) pi w).
  rewrite (ip_onreceive_transit _ _ _ dst ttl); [|split; cbn; [done|congruence|done]|done].
  eexists _, w3. split_and!; [exact E3| |].
  - exists (rt_interface e), (plain_interface x), ttl, p'. split_and!; [done| |apply Htr| |reflexivity].
    + rewrite <-(interfaces_of_proper _ _ H2 : interfaces_of w2 = interfaces_of w).
      unfold interfaces_of. by rewrite list_lookup_fmap, Hx.
    + by eapply forwarded_after_fill; [..|exact Hfw].
  - by rewrite H3, H2.
Qed.

Lemma serve_loop_S fuel i ip :
  serve_loop (S fuel) i ip =
    (r ← get_router;
     if Z.of_nat i <? size (iparp_buffer r) then
       match queue_getidandlock (iparp_buffer r) (Z.of_nat i) with
       | (q, Some (entry, sz)) =>
           assert_M (sz =? sizeof_iparp_buffer_entry);;
           serve_entry q i entry ip;;
           serve_loop fuel (S i) ip
       | (q, None) => put_parked q;; serve_loop fuel (S i) ip
       end
     else mret tt).
Proof. done. Qed.

Lemma serve_loop_step fuel i ip w ent :
  wf_queue sizeof_iparp_buffer_entry (iparp_buffer (w_router w)) → parked_of w !! i = Some ent →
  serve_loop (S fuel) i ip w
  = (serve_entry (iparp_buffer (w_router w)) i ent ip;; serve_loop fuel (S i) ip) w.
Proof.
  intros Hq Hi. rewrite serve_loop_S. mrun. pose proof (lookup_lt_Some _ _ _ Hi) as Hlt.
  unfold parked_of in *. rewrite (wf_size _ _ Hq).
  rewrite (proj2 (Z.ltb_lt _ _)) by lia.
  pose proof (queue_getidandlock_spec _ _ i Hq) as Hg. rewrite Hi in Hg. rewrite Hg by done. done.
Qed.

Lemma serve_loop_end fuel i ip w :
  wf_queue sizeof_iparp_buffer_entry (iparp_buffer (w_router w)) → (length (parked_of w) <= i)%nat →
  serve_loop (S fuel) i ip w = Ok tt w.
Proof.
  intros Hq Hi. rewrite serve_loop_S. mrun. unfold parked_of in *. rewrite (wf_size _ _ Hq).
  by rewrite (proj2 (Z.ltb_ge _ _)) by lia.
Qed.

(** What the loop relies on when it serves the entries [rest] for the address
    [ip] of the station [mac]. *)
Record serving (ip : Z) (mac : addr_mac) (w : world) (rest : list iparp_buffer_entry) : Prop := {
  sv_world : wf_world w;
  sv_queue : wf_queue sizeof_iparp_buffer_entry (iparp_buffer (w_router w));
  sv_waits : Forall (waits w) rest;
  sv_known : Exists (λ ent, ib_dest ent = ip) rest →
             ∃ k a, Spec.find_from (by_ip ip) 0 (cache_of w) = Some (k, a) ∧ arp_mac a = mac
}.

(** It is kept by every step. *)
Lemma serving_step ip mac w w1 q out rest rest' :
  w1 ≡ set_w_out out (with_parked q w) → wf_queue sizeof_iparp_buffer_entry q →
  rest' ⊆ rest → serving ip mac w rest → serving ip mac w1 rest'.
Proof.
  intros H1 Hq Hsub [Hw _ Hwt Hk]. split.
  - rewrite H1. destruct Hw as [? ? ? ? ?]. by split.
  - eapply wf_erase; [|exact Hq]. symmetry. exact (f_equal iparp_buffer (erase_router_eq _ _ H1)).
  - rewrite Forall_forall in Hwt |- *. intros x Hx. apply (waits_ext w).
    + exact (interfaces_of_proper _ _ H1).
    + exact (table_of_proper _ _ H1).
    + by apply Hwt, Hsub.
  - intros (x & Hx & Hd)%Exists_exists. rewrite (cache_of_proper _ _ H1).
    apply Hk, Exists_exists. exists x. split; [by apply Hsub|done].
Qed.

Lemma set_out_parked_id w : set_w_out (w_out w) (with_parked (iparp_buffer (w_router w)) w) = w.
Proof. by destruct w as [[] ? ? ? ? ? ? ? ? ?]. Qed.

(** One entry that waits for [ip]: it is sent and leaves the queue. *)
Lemma serving_sent pre ent rest ip mac w :
  serving ip mac w (ent :: rest) → parked_of w = pre ++ ent :: rest → waits_for ip ent = true →
  ∃ fr w1, serve_entry (iparp_buffer (w_router w)) (length pre) ent ip w = Ok tt w1 ∧
    released w mac ent fr ∧ parked_of w1 = pre ++ rest ∧ w_out w1 = w_out w ++ [fr] ∧
    interfaces_of w1 = interfaces_of w ∧ cache_of w1 = cache_of w ∧
    ∀ rest', rest' ⊆ rest → serving ip mac w1 rest'.
Proof.
  intros Hsv Hp Hwf. pose proof Hsv as [Hw Hq Hwt Hk]. inversion_clear Hwt as [|? ? Hent Hrest].
  destruct Hk as (k & a & Hfind & <-); [left; by apply Z.eqb_eq|].
  destruct (serve_entry_released (iparp_buffer (w_router w)) (length pre) ent ip w k a)
    as (fr & w1 & E & Hrel & H1); [done..|].
  destruct (queue_unlockidandremove_spec _ (iparp_buffer (w_router w)) (length pre) Hq)
    as [Hq1 Hp1]; [change (packet _) with (parked_of w); rewrite Hp, length_app; cbn; lia|].
  change (packet (iparp_buffer (w_router w))) with (parked_of w) in Hp1.
  rewrite Hp, delete_middle in Hp1. exists fr, w1. split_and!; [done|done| | | | |].
  - etrans; [exact (parked_of_proper _ _ H1)|done].
  - exact (w_out_proper _ _ H1).
  - exact (interfaces_of_proper _ _ H1).
  - exact (cache_of_proper _ _ H1).
  - intros rest' Hs. eapply serving_step; [exact H1|done| |exact Hsv].
    by apply list_subseteq_cons.
Qed.

(** One that waits for another address stays. *)
Lemma serving_kept pre ent rest ip mac w :
  serving ip mac w (ent :: rest) → parked_of w = pre ++ ent :: rest → waits_for ip ent = false →
  ∃ w1, serve_entry (iparp_buffer (w_router w)) (length pre) ent ip w = Ok tt w1 ∧ w1 ≡ w ∧
    serving ip mac w1 rest.
Proof.
  intros Hsv Hp Hwf. pose proof Hsv as [Hw Hq Hwt _]. inversion_clear Hwt as [|? ? Hent Hrest].
  destruct (serve_entry_kept (iparp_buffer (w_router w)) (length pre) ent ip w)
    as (w1 & E & H1); [apply Hw|done..|]. exists w1. split_and!; [done..|].
  eapply serving_step; [|exact Hq| |exact Hsv]; [by rewrite set_out_parked_id|].
  by apply list_subseteq_cons.
Qed.

(** The whole queue: entries that wait for [ip] are sent, save those right
    behind one that was sent, which the loop skips. *)
Lemma serve_loop_run fuel pre rest ip mac w :
  serving ip mac w rest → parked_of w = pre ++ rest → (length rest < fuel)%nat →
  ∃ frames w', serve_loop fuel (length pre) ip w = Ok tt w' ∧
    parked_of w' = pre ++ Spec.remove_skip (waits_for ip) rest ∧
    w_out w' = w_out w ++ frames ∧ Forall2 (released w mac) (taken_out (waits_for ip) rest) frames ∧
    cache_of w' = cache_of w.
Proof.
  revert pre rest w. induction fuel as [|fuel IH]; intros pre rest w Hsv Hp Hf; [lia|].
  pose proof (sv_queue _ _ _ _ Hsv) as Hq. destruct rest as [|ent rest].
  { rewrite app_nil_r in Hp. rewrite serve_loop_end by (done || by rewrite Hp). exists [], w.
    rewrite !app_nil_r. split_and!; [done..|constructor|done]. }
  cbn [length] in Hf.
  rewrite (serve_loop_step _ _ _ _ ent Hq) by (rewrite Hp; by apply list_lookup_middle).
  cbn [Spec.remove_skip taken_out]. destruct (waits_for ip ent) eqn:Hwf.
  - destruct (serving_sent pre ent rest ip mac w Hsv Hp Hwf)
      as (fr & w1 & E & Hrel & Hpw & Ho & Hifs & Hcs & Hsv1). mstep E. destruct rest as [|y rest].
    + destruct fuel as [|fuel]; [cbn in Hf; lia|].
      rewrite serve_loop_end; [|exact (sv_queue _ _ _ _ (Hsv1 [] ltac:(done)))
        |rewrite Hpw, length_app; cbn; lia].
      exists [fr], w1. rewrite Hpw. split_and!; [done..|by repeat constructor|done].
    + destruct (IH (pre ++ [y]) rest w1) as (frames & w' & E' & P1 & P2 & P3 & P4).
      { apply Hsv1. by apply list_subseteq_cons. }
      { by rewrite <-app_assoc. } { cbn [length] in Hf. lia. }
      rewrite length_app, Nat.add_1_r in E'. exists (fr :: frames), w'.
      split_and!; [done|by rewrite P1, <-app_assoc|by rewrite P2, Ho, <-app_assoc| |congruence].
      constructor; [done|]. unfold released in *. by rewrite Hifs in P3.
  - destruct (serving_kept pre ent rest ip mac w Hsv Hp Hwf) as (w1 & E & H1 & Hsv1). mstep E.
    destruct (IH (pre ++ [ent]) rest w1) as (frames & w' & E' & P1 & P2 & P3 & P4);
      [done|rewrite <-app_assoc; by rewrite (parked_of_proper _ _ H1)|lia|].
    rewrite length_app, Nat.add_1_r in E'. exists frames, w'. rewrite (w_out_proper _ _ H1) in P2.
    rewrite (cache_of_proper _ _ H1) in P4. unfold released in P3 |- *.
    rewrite (interfaces_of_proper _ _ H1) in P3. rewrite <-app_assoc in P1. done.
Qed.

Lemma process_run ip mac w :
  serving ip mac w (parked_of w) →
  ∃ frames w', process_arpipqueue ip w = Ok tt w' ∧
    parked_of w' = Spec.remove_skip (waits_for ip) (parked_of w) ∧ w_out w' = w_out w ++ frames ∧
    Forall2 (released w mac) (taken_out (waits_for ip) (parked_of w)) frames ∧
    cache_of w' = cache_of w.
Proof.
  intros Hsv. unfold process_arpipqueue. mrun.
  rewrite (wf_size _ _ (sv_queue _ _ _ _ Hsv)), Nat2Z.id.
  apply (serve_loop_run _ [] (parked_of w) ip mac w Hsv); [done|]. unfold parked_of. lia.
Qed.

(** A valid reply is recorded, then the queue is served for its sender. *)
Lemma arp_reply_run w i x eth tip sip smac pad :
  wf_arp_input w i x eth (if_mac x) smac pad tip sip → if_ip x = tip →
  ∃ w1, arp_onreceive (arp_packet i eth ARP_OPCODE_REPLAY tip (if_mac x) sip smac pad) w
        = process_arpipqueue sip w1 ∧ cache_changed w w1 ∧
        wf_cache (arp_cache (w_router w1)) ∧
        cache_of w1 = put_list sip smac (deadline ARP_CACHE_TIMEOUT_REQUEST
                                           (w_clock w (w_ticks w))) (cache_of w).
Proof.
  intros [Hc Hx Hm He Ht [Hs _] Htip Hsip Hpad] Hip. unfold arp_onreceive, arp_packet.
  cbn [pi_packet pi_len pi_interface].
  destruct (arp_fields_ok eth ARP_OPCODE_REPLAY tip (if_mac x) sip smac pad)
    as [F1 F2 F3 F4 F5 F6 F7 F8 F9]; [done..|unfold ARP_OPCODE_REPLAY; lia|].
  mstep F1. mstep F2. mstep F3. mstep F4. cbn [andb].
  change (ntohs (htons ARP_HTYPE_ETH) =? ARP_HTYPE_ETH) with true.
  change (ntohs (htons ARP_PTYPE_IP) =? ARP_PTYPE_IP) with true. cbn [andb Z.eqb Pos.eqb].
  mstep F5. mstep F7. mstep F6. mstep F9. mstep F8.
  change (ntohs (htons ARP_OPCODE_REPLAY) =? ARP_OPCODE_REQUEST) with false. cbv iota.
  change (ntohs (htons ARP_OPCODE_REPLAY) =? ARP_OPCODE_REPLAY) with true. cbv iota.
  unfold deref_interface, get_interface. cbn [from_option_M]. mrun. mstep Hx.
  rewrite (proj2 (Z.eqb_eq tip (if_ip x))) by done. rewrite match_mac_refl. cbn [andb].
  destruct (arp_putincache_spec sip smac ARP_CACHE_TIMEOUT_REQUEST w Hc)
    as (w1 & E1 & Hch & Hc1 & Hp1).
  mrun. mstep E1. mrun. cbn [pi_packet]. mstep F7. by exists w1.
Qed.

(** A learnt pair keeps the state well formed. *)
Lemma wf_world_learnt w w1 ip mac tv :
  wf_cache (arp_cache (w_router w1)) → ip_table (w_router w1) = ip_table (w_router w) →
  interfaces_of w1 = interfaces_of w → wf_mac mac → wf_world w →
  cache_of w1 = put_list ip mac tv (cache_of w) → wf_world w1.
Proof.
  intros Hc Ht Hi Hm [_ H2 H3 H4 H5] Hp. unfold table_of in *.
  split; [done| |by rewrite Ht|unfold table_of; by rewrite Hi, Ht|by rewrite Hi].
  rewrite Hp. by apply put_list_wf_macs.
Qed.

Lemma remove_none {A} (p : A → bool) l :
  Forall (λ x, p x = false) l → Spec.remove_skip p l = l ∧ taken_out p l = [].
Proof.
  induction 1 as [|x l Hx _ [IH1 IH2]]; [done|]. cbn. rewrite Hx. by rewrite IH1, IH2.
Qed.

(** Waiting packets leave the router when the reply of their next hop comes
    in. *)
Lemma arp_reply_releases w i x eth tip sip smac pad :
  wf_world w → wf_arp_input w i x eth (if_mac x) smac pad tip sip → if_ip x = tip →
  (smac ∈ arp_mac <$> cache_of w → Forall (λ c, arp_ip c = sip → arp_mac c = smac) (cache_of w)) →
  wf_queue sizeof_iparp_buffer_entry (iparp_buffer (w_router w)) → Forall (waits w) (parked_of w) →
  ∃ frames w',
    arp_onreceive (arp_packet i eth ARP_OPCODE_REPLAY tip (if_mac x) sip smac pad) w = Ok tt w' ∧
    parked_of w' = Spec.remove_skip (waits_for sip) (parked_of w) ∧ w_out w' = w_out w ++ frames ∧
    Forall2 (released w smac) (taken_out (waits_for sip) (parked_of w)) frames.
Proof.
  intros Hw Hai Hip Hun Hq Hwt.
  destruct (arp_reply_run w i x eth tip sip smac pad Hai Hip) as (w1 & -> & Hch & Hc1 & Hp1).
  destruct (cache_changed_same _ _ Hch) as (Ho & Hif & Hib & Htb).
  assert (interfaces_of w1 = interfaces_of w) as Hifs by (unfold interfaces_of; by rewrite Hif).
  assert (table_of w1 = table_of w) as Hts by (unfold table_of; by rewrite Htb).
  assert (parked_of w1 = parked_of w) as Hps by (unfold parked_of; by rewrite Hib).
  assert (serving sip smac w1 (parked_of w1)) as Hsv.
  { rewrite Hps. split.
    - eapply wf_world_learnt; [..|exact Hw|exact Hp1]; [done..|apply Hai].
    - by rewrite Hib.
    - eapply Forall_impl; [exact Hwt|]. intros ent. by apply waits_ext.
    - intros _. rewrite Hp1. apply put_list_find; [apply Hai|apply Hw|done]. }
  destruct (process_run sip smac w1 Hsv) as (frames & w' & E & P1 & P2 & P3 & _).
  exists frames, w'. rewrite Hps in P1, P3. rewrite Ho in P2. unfold released in *.
  by rewrite Hifs in P3.
Qed.

(** An own request is served for the router's own address: nothing leaves. *)
Lemma arp_request_keeps w i x eth tip tmac sip smac pad :
  wf_world w → wf_arp_input w i x eth tmac smac pad tip sip → if_ip x = tip →
  wf_queue sizeof_iparp_buffer_entry (iparp_buffer (w_router w)) → Forall (waits w) (parked_of w) →
  Forall (λ ent, ib_dest ent ≠ tip) (parked_of w) →
  ∃ w', arp_onreceive (arp_packet i eth ARP_OPCODE_REQUEST tip tmac sip smac pad) w = Ok tt w' ∧
    w_out w' = w_out w ++ [arp_frame i ARP_OP_REPLY sip smac smac tip (if_mac x) pad] ∧
    parked_of w' = parked_of w ∧
    cache_of w' = put_list sip smac (deadline ARP_CACHE_TIMEOUT_REQUEST (w_clock w (w_ticks w)))
                    (cache_of w).
Proof.
  intros Hw Hai Hip Hq Hwt Hne.
  destruct (arp_request_run w i x eth tip tmac sip smac pad Hai Hip)
    as (w1 & -> & Ho & Hc & Hif & Hib & Htb & Hwc).
  assert (interfaces_of w1 = interfaces_of w) as Hifs by (unfold interfaces_of; by rewrite Hif).
  assert (table_of w1 = table_of w) as Hts by (unfold table_of; by rewrite Htb).
  assert (parked_of w1 = parked_of w) as Hps by (unfold parked_of; by rewrite Hib).
  assert (serving tip [] w1 (parked_of w1)) as Hsv.
  { rewrite Hps. split.
    - eapply wf_world_learnt; [..|exact Hw|exact Hc]; [done..|apply Hai].
    - by rewrite Hib.
    - eapply Forall_impl; [exact Hwt|]. intros ent. by apply waits_ext.
    - intros (ent & Hin & Hd)%Exists_exists. rewrite Forall_forall in Hne. by apply Hne in Hin. }
  destruct (process_run tip [] w1 Hsv) as (frames & w' & E & P1 & P2 & P3 & P4).
  assert (Forall (λ ent, waits_for tip ent = false) (parked_of w)) as Hno.
  { eapply Forall_impl; [exact Hne|]. intros ent. by apply Z.eqb_neq. }
  rewrite Hps in P1, P3. destruct (remove_none (waits_for tip) _ Hno) as [R1 R2].
  rewrite R1 in P1. rewrite R2 in P3. inversion P3; subst. rewrite app_nil_r in P2.
  exists w'. split_and!; congruence.
Qed.
