(* ===== verification/IcmpSpec.v ===== *)
(** Theorems on ICMP (file Ip): the recursion between [ip_onreceive] and the
    error messages ends after one level, error messages are well formed, echo
    requests are answered. *)

From stdpp Require Import base tactics list numbers strings.
From Stdlib Require Import ZArith Lia.
From S2P Require Import Prelude Dataqueue Common Packets State Loops Ethernet Arp Routing.
From S2P Require Import IpHeader Ping Dijkstra Pwospf PwospfInput Dns Ip IpSpec.

Local Open Scope Z_scope.

(** * Header checks see the header alone *)

Lemma get_bytes_take p p' k o n :
  take k p = take k p' → (o + n <= k)%nat → get_bytes p o n = get_bytes p' o n.
Proof.
  intros H Hk. pose proof (f_equal length H) as Hl. rewrite !length_take in Hl.
  unfold get_bytes. do 2 case_decide; [|lia..|done]. f_equal.
  transitivity (take n (drop o (take k p))).
  { rewrite skipn_firstn_comm, take_take. f_equal. lia. }
  rewrite H, skipn_firstn_comm, take_take. f_equal. lia.
Qed.

Lemma ip_get_take f p p' :
  take L4_BASE p = take L4_BASE p' → (foff packet_ip4_t f + flen packet_ip4_t f <= 20)%nat →
  ip_get f p = ip_get f p'.
Proof.
  intros H Hf. unfold ip_get, getf, load. f_equal. eapply get_bytes_take; [exact H|].
  change L4_BASE with 34%nat. change IP_BASE with 14%nat. lia.
Qed.

Lemma ip_checksum_take p p' :
  bytes p → bytes p' → (34 <= length p)%nat → take L4_BASE p = take L4_BASE p' →
  ip_checksum p = ip_checksum p'.
Proof.
  intros Hb Hb' Hl H. change L4_BASE with 34%nat in H.
  pose proof (f_equal length H) as Hl'. rewrite !length_take in Hl'.
  unfold ip_checksum. change IP_BASE with 14%nat.
  rewrite !generatechecksum_sum by (try (by apply Forall_drop); rewrite ?length_drop; lia).
  change (Z.to_nat 20) with 20%nat. do 5 f_equal.
  transitivity (drop 14 (take 34 p)); [by rewrite skipn_firstn_comm|].
  by rewrite H, skipn_firstn_comm.
Qed.

Lemma ip_accepted_take p p' :
  bytes p → bytes p' → (34 <= length p)%nat → take L4_BASE p = take L4_BASE p' →
  ip_accepted p → ip_accepted p'.
Proof.
  intros Hb Hb' Hl H Ha. unfold ip_accepted, ip_header_check in *.
  rewrite <-(ip_checksum_take p p') by done.
  rewrite <-!(ip_get_take _ p p' H) by (cbn; lia). done.
Qed.

(** * Messages that provoke no further message *)

Lemma bind_cong {A B} (m : M A) (f g : A → M B) w :
  (∀ a w', m w = Ok a w' → f a w' = g a w') → (m ≫= f) w = (m ≫= g) w.
Proof. intros H. unfold mbind, M_bind. destruct (m w); [by apply H|done]. Qed.

(** An ICMP message that is no echo reply, with time to live, to a destination
    with a route. *)
Record quiet (pi : packet_info) (w : world) : Prop := {
  qu_ok : ip_accepted (pi_packet pi);
  qu_ttl : ip_get "ttl" (pi_packet pi) = Some 65;
  qu_proto : ip_get "protocol" (pi_packet pi) = Some IP_TYPE_ICMP;
  qu_dst : ∃ dst r, ip_get "dst_ip" (pi_packet pi) = Some dst ∧
                    best_match dst (table_of w) (Some r);
  qu_type : ∃ t, icmp_get "type" (pi_packet pi) = Some t ∧ t ≠ ICMP_TYPE_REPLAY
}.

(** A step common to both sides of an equation. *)
Tactic Notation "mboth" constr(H) := mstep H; try mstep H.

Lemma quiet_same r1 r2 pi w :
  wf_table (ip_table (w_router w)) → quiet pi w →
  ip_onreceive_body r1 pi w = ip_onreceive_body r2 pi w.
Proof.
  intros Hw [Hok Httl Hp (dst & r & Hd & Hr) (t & Ht & Hne)]. unfold ip_onreceive_body.
  mboth Hok. cbn [negb]. mboth Hd. mboth Hp.
  change (IP_TYPE_ICMP =? IP_TYPE_OSPF) with false. rewrite andb_false_r. cbv iota. mrun.
  destruct (own_address _ dst) as [[i x]|].
  - unfold ip_local. mboth Httl.
    change (65 <=? 0) with false. cbv iota. mboth Hp.
    rewrite Z.eqb_refl. cbv iota. unfold ip_local_icmp. mboth Ht.
    destruct (t =? ICMP_TYPE_REQUEST); [done|]. by rewrite (proj2 (Z.eqb_neq _ _) Hne).
  - unfold ip_forward. mboth Httl. change (65 <=? 1) with false. cbv iota. mboth Hd.
    destruct (lookup_route_equiv dst w Hw) as (r' & w1 & E1 & _ & Hb).
    mboth E1. by rewrite (best_match_unique _ _ _ _ Hb Hr).
Qed.

(** Writes behind the IPv4 header leave it alone. *)
Lemma icmp_set_header f p v p' : icmp_set f p v = Some p' → take L4_BASE p' = take L4_BASE p.
Proof. intros H. eapply setf_take; [exact H|done]. Qed.

Lemma icmp_set_keeps_type f p v p' :
  icmp_set f p v = Some p' → (1 <= foff packet_icmp_t f)%nat →
  icmp_get "type" p' = icmp_get "type" p.
Proof.
  intros H Hf. eapply getf_setf_other; [exact H|]. unfold disjoint. apply orb_true_iff. right.
  apply Nat.leb_le. change (foff packet_icmp_t "type") with 0%nat.
  change (flen packet_icmp_t "type") with 1%nat. lia.
Qed.

(** The message [icmp_allocate_and_send] builds on an allocated packet. *)
Record icmp_message (g : packet_info) (p : list Z) (type : Z) : Prop := {
  im_bytes : bytes p;
  im_header : take L4_BASE p = take L4_BASE (pi_packet g);
  im_type : icmp_get "type" p = Some type
}.

Lemma message_quiet g p type len w dst r size src :
  (34 <= Z.to_nat size)%nat → generated g size dst src IP_TYPE_ICMP → icmp_message g p type →
  type ≠ ICMP_TYPE_REPLAY →
  best_match dst (table_of w) (Some r) → quiet (PacketInfo p len (pi_interface g)) w.
Proof.
  intros Hs [Hl Hb Ha Hd Hsr Ht Hp] [Hpb Hh Hty] Hne Hr. split; cbn [pi_packet].
  - eapply ip_accepted_take; [exact Hb|done|lia|by symmetry|done].
  - rewrite (ip_get_take _ _ _ Hh); [done|cbn; lia].
  - rewrite (ip_get_take _ _ _ Hh); [done|cbn; lia].
  - exists dst, r. split; [|done]. rewrite (ip_get_take _ _ _ Hh); [done|cbn; lia].
  - by exists type.
Qed.

Lemma bind_in_bounds_cong {A B} (o : option A) (f g : A → M B) w :
  (∀ a, o = Some a → f a w = g a w) → (in_bounds o ≫= f) w = (in_bounds o ≫= g) w.
Proof. intros H. destruct o as [a|]; [exact (H a eq_refl)|done]. Qed.

Ltac cong_step :=
  let a := fresh "q" in let E := fresh "Eq" in
  apply bind_in_bounds_cong; intros a E; cbv beta.

Lemma icmp_allocate_same r1 r2 ip code type id count data size src w :
  wf_world w → is_u32 ip → is_u32 src → bytes data → 0 <= size <= 56 →
  u8 type ≠ ICMP_TYPE_REPLAY →
  icmp_allocate_and_send (ip_onreceive_body r1) ip code type id count data size src w
  = icmp_allocate_and_send (ip_onreceive_body r2) ip code type id count data size src w.
Proof.
  intros Hw Hip Hsrc Hdata Hsz Hty. unfold icmp_allocate_and_send.
  destruct (packetinfo_ip_allocate_ok 98 ip src IP_TYPE_ICMP (20 + 8 + size) w) as (r & w1 & Hr & H1 & Hres);
    [done|lia|done|done|lia|].
  destruct r as [[j e]|]; [|mboth Hres; done].
  destruct Hres as (p0 & x & Hx & E & Hg). mboth E.
  set (g := PacketInfo p0 98 (Some (rt_interface e))) in *.
  do 4 cong_step.
  apply bind_cong. intros q3 w2 Hq3.
  assert (w2 = w1 ∧ take L4_BASE q3 = take L4_BASE q2 ∧ icmp_get "type" q3 = icmp_get "type" q2
          ∧ (bytes q2 → bytes q3)) as (-> & Hh3 & Ht3 & Hb3).
  { destruct (0 <? size); [|injection Hq3 as <- <-; by split_and!].
    apply bind_Ok_inv in Hq3 as (d & w' & (Hd & ->)%from_option_Ok & (Hp & ->)%from_option_Ok).
    split_and!; [done|eapply put_bytes_take; [exact Hp|lia]| |].
    - unfold icmp_get, getf, load. f_equal. eapply get_put_other; [exact Hp|]. cbn. lia.
    - intros Hb. eapply put_bytes_bytes; [exact Hp|done|]. unfold get_bytes in Hd.
      case_decide; [|done]. injection Hd as <-. by apply Forall_take, Forall_drop. }
  cong_step. cong_step. cong_step.
  apply (f_equal (λ o, match o with Ok _ w => (mret 1 : M Z) w | Fault f => Fault f end)).
  assert (wf_world w1) as Hw1 by by rewrite H1.
  apply quiet_same; [apply Hw1|].
  eapply (message_quiet g); [|exact Hg| |exact Hty|by rewrite H1]; [lia|].
  destruct Hg as [_ Hgb _ _ _ _ _]. split.
  - eapply setf_bytes; [exact Eq5|]. eapply setf_bytes; [exact Eq3|]. apply Hb3.
    eapply setf_bytes; [exact Eq2|]. eapply setf_bytes; [exact Eq1|].
    eapply setf_bytes; [exact Eq0|]. eapply setf_bytes; [exact Eq|]. done.
  - rewrite (icmp_set_header _ _ _ _ Eq5), (icmp_set_header _ _ _ _ Eq3), Hh3.
    by rewrite (icmp_set_header _ _ _ _ Eq2), (icmp_set_header _ _ _ _ Eq1),
      (icmp_set_header _ _ _ _ Eq0), (icmp_set_header _ _ _ _ Eq).
  - rewrite (icmp_set_keeps_type _ _ _ _ Eq5), (icmp_set_keeps_type _ _ _ _ Eq3), Ht3 by (cbn; lia).
    rewrite (icmp_set_keeps_type _ _ _ _ Eq2) by (cbn; lia).
    eapply getf_setf_same; [exact Eq1|]. apply u8_range.
Qed.

(** * The recursion ends after one level *)

Lemma get_bytes_bytes p o n d : bytes p → get_bytes p o n = Some d → bytes d.
Proof.
  intros Hp Hd. unfold get_bytes in Hd. case_decide; [|done]. injection Hd as <-.
  by apply Forall_take, Forall_drop.
Qed.

Lemma error_data_inv p w d w' :
  bytes p → error_data p w = Ok d w' →
  w' = w ∧ bytes d ∧
  ∃ ip icmp, get_bytes p IP_BASE 20 = Some ip ∧ get_bytes p L4_BASE 8 = Some icmp ∧
             d = ip ++ icmp ++ junk_bytes w 28.
Proof.
  intros Hb H. unfold error_data in H. run_inv.
  match goal with H : junk _ _ = Ok _ _ |- _ => injection H as <- <- end.
  split_and!; [done| |by eexists _, _].
  apply Forall_app_2; [by eapply get_bytes_bytes|].
  apply Forall_app_2; [by eapply get_bytes_bytes|apply junk_bytes_bytes].
Qed.

Lemma ip_get_u32 f p v : bytes p → flen packet_ip4_t f = 4%nat → ip_get f p = Some v → is_u32 v.
Proof.
  intros Hb Hf Hv. pose proof (getf_range _ _ _ _ _ Hb Hv) as Hr. rewrite Hf in Hr. exact Hr.
Qed.

Lemma icmp_send_same r1 r2 p src type code w :
  wf_world w → bytes p → is_u32 src → u8 type ≠ ICMP_TYPE_REPLAY →
  icmp_send (ip_onreceive_body r1) p src type code w
  = icmp_send (ip_onreceive_body r2) p src type code w.
Proof.
  intros Hw Hb Hs Ht. unfold icmp_send. apply bind_cong. intros d w' E.
  apply error_data_inv in E as (-> & Hd & _); [|done]. cong_step.
  unfold mbind at 1 2, M_bind at 1 2. rewrite (icmp_allocate_same r1 r2);
    [done|done|by apply (ip_get_u32 "src_ip" p)|done|done|lia|done].
Qed.

Lemma time_exceeded_same r1 r2 p src w :
  wf_world w → bytes p → is_u32 src →
  icmp_type_time_exceeded (ip_onreceive_body r1) p src w
  = icmp_type_time_exceeded (ip_onreceive_body r2) p src w.
Proof.
  intros Hw Hb Hs. unfold icmp_type_time_exceeded. apply bind_cong. intros d w' E.
  apply error_data_inv in E as (-> & Hd & _); [|done]. cong_step.
  unfold mbind at 1 2, M_bind at 1 2. rewrite (icmp_allocate_same r1 r2);
    [done|done|by apply (ip_get_u32 "src_ip" p)|done|done|lia|done].
Qed.

Lemma ping_reply_router ip seq w a w' :
  cli_ping_handle_reply ip seq w = Ok a w' → w_router w' = w_router w.
Proof.
  unfold cli_ping_handle_reply, get_cli, modify_cli, cli_ping_feedback. intros H. run_inv.
  repeat case_match; run_inv; simplify_eq/=; try done.
  all: repeat match goal with H : _ = Ok _ _ |- _ => injection H as <- <- end; try done.
Qed.

Lemma wf_world_router w w' : w_router w' = w_router w → wf_world w → wf_world w'.
Proof.
  intros E [H1 H2 H3 H4 H5]. unfold interfaces_of, cache_of, table_of in *.
  split; unfold interfaces_of, cache_of, table_of; by rewrite E.
Qed.

Lemma ip_local_same r1 r2 pi my_ip w :
  wf_world w → bytes (pi_packet pi) → is_u32 my_ip →
  ip_local (ip_onreceive_body r1) pi my_ip w = ip_local (ip_onreceive_body r2) pi my_ip w.
Proof.
  intros Hw Hb Hmy. unfold ip_local. cong_step.
  destruct (q <=? 0); [by apply time_exceeded_same|]. cong_step.
  destruct (q0 =? IP_TYPE_ICMP).
  { unfold ip_local_icmp. cong_step. destruct (q1 =? ICMP_TYPE_REQUEST); [done|].
    destruct (q1 =? ICMP_TYPE_REPLAY); [|done]. do 2 cong_step. apply bind_cong.
    intros a w' E%ping_reply_router. destruct (a =? 0); [|done].
    apply icmp_send_same; [by eapply wf_world_router|done..]. }
  destruct (q0 =? IP_TYPE_TCP); [done|]. destruct (q0 =? IP_TYPE_OSPF); [done|].
  destruct (q0 =? IP_TYPE_UDP); [|by apply icmp_send_same].
  unfold ip_local_udp. destruct (PACKET_CAN_MARSHALL _ _ _); [|by apply icmp_send_same].
  do 2 cong_step. apply bind_cong. intros c w' Hc.
  assert (w' = w) as -> by (destruct (negb _) in Hc; [by apply from_option_Ok in Hc as [_ ->]
    |by injection Hc]).
  destruct (negb (c =? 0)); [by apply icmp_send_same|]. cong_step.
  destruct (ntohs q3 =? PORT_DNS); [done|by apply icmp_send_same].
Qed.

Lemma ip_forward_same r1 r2 pi w :
  wf_world w → bytes (pi_packet pi) →
  ip_forward (ip_onreceive_body r1) pi w = ip_forward (ip_onreceive_body r2) pi w.
Proof.
  intros Hw Hb. unfold ip_forward. cong_step.
  destruct (q <=? 1); [by apply time_exceeded_same|]. cong_step.
  destruct (lookup_route_equiv q0 w (ww_table _ Hw)) as (r & w1 & E1 & H1 & _). mboth E1.
  destruct r as [[j e]|]; [done|]. mrun.
  assert (wf_world w1) as Hw1 by by rewrite H1.
  destruct (interface_slot_u32 (length (interfaces (w_router w1))) w1 Hw1) as (v & Ev & Hv).
  mboth Ev. by apply icmp_send_same.
Qed.

Lemma own_address_u32 w dst i x :
  wf_world w → own_address (w_router w) dst = Some (i, x) → is_u32 (if_ip x).
Proof.
  intros Hw (Hi & Hx & _)%find_from_lt.
  destruct (interface_at w i Hw) as (y & Hy & _ & ?); [|by simplify_eq].
  unfold interfaces_of. by rewrite length_fmap.
Qed.

Lemma ip_onreceive_depth r1 r2 pi w :
  wf_world w → bytes (pi_packet pi) →
  ip_onreceive_body (ip_onreceive_body r1) pi w = ip_onreceive_body (ip_onreceive_body r2) pi w.
Proof.
  intros Hw Hb. unfold ip_onreceive_body at 1 3. cong_step. destruct (negb _); [done|].
  do 2 cong_step. destruct (_ && _); [done|]. mrun.
  destruct (own_address _ _) as [[i x]|] eqn:Ho; [|by apply ip_forward_same].
  apply ip_local_same; [done..|by eapply own_address_u32].
Qed.

(** C3: the mutual recursion of [ip_onreceive] and [icmp_allocate_and_send]
    ends after one level.  From any state the packet path keeps, on any packet,
    the result is the same whatever the inner reception of a generated message
    does with the messages it would itself generate: it generates none.  The
    two levels of fuel of [ip_onreceive] are therefore enough. *)
Theorem ip_onreceive_recursion_bounded rec pi w :
  wf_world w → bytes (pi_packet pi) →
  ip_onreceive_body (ip_onreceive_body rec) pi w = ip_onreceive pi w.
Proof. apply ip_onreceive_depth. Qed.

(** * Responses *)

Lemma getf_drop l f p p' b k :
  length p' = length p → drop k p' = drop k p → (k <= b)%nat →
  (b + foff l f + flen l f <= length p)%nat → getf l f p' b = getf l f p b.
Proof.
  intros Hl Hd Hk Hb. unfold getf, load. f_equal.
  rewrite <-(drop_get_bytes p' _ _ k), <-(drop_get_bytes p _ _ k) by lia. by rewrite Hd.
Qed.

Lemma ip_checksum_drop p p' : drop IP_BASE p' = drop IP_BASE p → ip_checksum p' = ip_checksum p.
Proof. intros H. unfold ip_checksum. by rewrite H. Qed.

(** What [update_ip_packet_response] makes of a packet: back to the sender of
    the frame, with new addresses and a new identification. *)
Record ip_response (p p' : list Z) (dst src ttl id : Z) : Prop := {
  ir_length : length p' = length p;
  ir_ethernet : take IP_BASE p' = take 6 (drop 6 p) ++ take 6 p ++ [8; 0];
  ir_payload : drop L4_BASE p' = drop L4_BASE p;
  ir_kept : Forall (λ f, ip_get f p' = ip_get f p)
              ["ihl_version"; "dscp_ecn"; "total_length"; "protocol"];
  ir_dst : ip_get "dst_ip" p' = Some dst;
  ir_src : ip_get "src_ip" p' = Some src;
  ir_ttl : ip_get "ttl" p' = Some ttl;
  ir_flags : ip_get "flags_fragmentoffset" p' = Some 0;
  ir_id : ip_get "id" p' = Some (htons id);
  ir_checksum : ip_checksum p' = Some 0
}.

(** The fields of the IPv4 header it writes. *)
Definition response_fields (p : list Z) (dst src ttl id : Z) : option (list Z) :=
  p ← ip_set "dst_ip" p dst;
  p ← ip_set "src_ip" p src;
  p ← ip_set "ttl" p (u8 ttl);
  p ← ip_set "flags_fragmentoffset" p 0;
  p ← ip_set "id" p (htons id);
  ip_fill_checksum p.

Lemma response_fields_ok p dst src ttl id :
  bytes p → (34 <= length p)%nat → is_u32 dst → is_u32 src → is_byte ttl →
  ∃ q, response_fields p dst src ttl id = Some q ∧ bytes q ∧ length q = length p ∧
    take IP_BASE q = take IP_BASE p ∧ drop L4_BASE q = drop L4_BASE p ∧
    Forall (λ f, ip_get f q = ip_get f p) ["ihl_version"; "dscp_ecn"; "total_length"; "protocol"] ∧
    ip_get "dst_ip" q = Some dst ∧ ip_get "src_ip" q = Some src ∧ ip_get "ttl" q = Some ttl ∧
    ip_get "flags_fragmentoffset" q = Some 0 ∧ ip_get "id" q = Some (htons id) ∧
    ip_checksum q = Some 0.
Proof.
  intros Hb Hl Hd Hs Ht. unfold response_fields, ip_set. rewrite u8_small by done.
  do 5 write_step.
  destruct (ip_fill_checksum_ok p4) as (q & E & Lq & Bq & Hbe & Haf & Hc & Htt & Hk);
    [set_bytes; done|lia|].
  unfold ip_fields_kept in Hk. rewrite !Forall_cons in Hk.
  destruct Hk as (K1 & K2 & K3 & K4 & K5 & K6 & K7 & K8 & _).
  assert (is_u16 (htons id)) as Hid by apply swap16_range.
  unfold is_u32, is_u16, is_byte in *.
  exists q. split_and!; [done|done|congruence| | | | | | | | |done].
  - rewrite Hbe. by set_outside.
  - rewrite Haf. by set_outside.
  - repeat constructor; [rewrite K1|rewrite K2|rewrite K3|rewrite K6]; unfold ip_get; by read_through.
  - rewrite K8. unfold ip_get. read_back; cbn; lia.
  - rewrite K7. unfold ip_get. read_back; cbn; lia.
  - rewrite Htt. unfold ip_get. read_back; cbn; lia.
  - rewrite K5. unfold ip_get. read_back; cbn; lia.
  - rewrite K4. unfold ip_get. read_back; cbn; lia.
Qed.

Lemma response_fields_run p dst src ttl w q (k : list Z → M packet_info) :
  response_fields p dst src ttl (w_ip_id w) = Some q →
  (p ← in_bounds (ip_set "dst_ip" p dst);
   p ← in_bounds (ip_set "src_ip" p src);
   p ← in_bounds (ip_set "ttl" p (u8 ttl));
   p ← in_bounds (ip_set "flags_fragmentoffset" p 0);
   w ← get_world;
   p ← in_bounds (ip_set "id" p (htons (w_ip_id w)));
   put_world (set_w_ip_id (u16 (w_ip_id w + 1)) w);;
   p ← in_bounds (ip_fill_checksum p);
   k p) w = k q (set_w_ip_id (u16 (w_ip_id w + 1)) w).
Proof.
  unfold response_fields. intros H.
  repeat match type of H with
  | (?o ≫= _) = _ =>
      let q := fresh "q" in mrun; destruct o as [q|];
      cbn [mbind option_bind] in H; [|discriminate H];
      rewrite (bind_in_bounds (Some q) _ _ q eq_refl); cbv beta
  end. mrun. by mstep H.
Qed.

(** A packet behind a new Ethernet header. *)
Definition reframed (dm sm : addr_mac) (q : list Z) : list Z := dm ++ sm ++ [8; 0] ++ drop IP_BASE q.

Section reframed.
Context (dm sm : addr_mac) (q : list Z).
Hypotheses (Hdm : length dm = 6%nat) (Hsm : length sm = 6%nat) (Hq : (34 <= length q)%nat).

Lemma reframed_length : length (reframed dm sm q) = length q.
Proof using All.
  unfold reframed. rewrite !length_app, length_drop, Hdm, Hsm. change IP_BASE with 14%nat.
  simpl. lia.
Qed.

Lemma reframed_take : take IP_BASE (reframed dm sm q) = dm ++ sm ++ [8; 0].
Proof using All.
  unfold reframed. rewrite !app_assoc. rewrite take_app_length' by (rewrite !length_app, Hdm, Hsm; done).
  by rewrite <-app_assoc.
Qed.

Lemma reframed_drop : drop IP_BASE (reframed dm sm q) = drop IP_BASE q.
Proof using All.
  unfold reframed. rewrite !app_assoc. apply drop_app_length'. by rewrite !length_app, Hdm, Hsm.
Qed.

Lemma reframed_payload : drop L4_BASE (reframed dm sm q) = drop L4_BASE q.
Proof using All.
  change L4_BASE with (IP_BASE + 20)%nat. by rewrite <-!drop_drop, reframed_drop.
Qed.

Lemma reframed_ip_get f :
  (foff packet_ip4_t f + flen packet_ip4_t f <= 20)%nat →
  ip_get f (reframed dm sm q) = ip_get f q.
Proof using All.
  intros Hf. eapply getf_drop; [apply reframed_length|apply reframed_drop|done|].
  change IP_BASE with 14%nat. lia.
Qed.
End reframed.

Lemma update_ethernet_header_ok pi i dm sm w :
  length dm = 6%nat → length sm = 6%nat → pi_interface pi = Some i → wf_packet pi →
  ∃ pi', update_ethernet_header pi dm sm w
         = Ok pi' (set_w_out (w_out w ++ [Frame i (reframed dm sm (pi_packet pi))]) w).
Proof.
  intros L1 L2 Hi [Hb Hlen Hh]. unfold update_ethernet_header.
  destruct (setb_ok packet_ethernet_t "dest_mac" (pi_packet pi) 0 dm) as (q1 & E1 & Lq1); [cbn; lia|].
  mstep E1.
  destruct (setb_ok packet_ethernet_t "source_mac" q1 0 sm) as (q2 & E2 & Lq2); [cbn; lia|]. mstep E2.
  assert (getb packet_ethernet_t "dest_mac" q2 0 = Some dm) as G1.
  { unfold getb. change (flen packet_ethernet_t "dest_mac") with 6%nat.
    rewrite (get_put_other _ _ _ _ _ _ E2) by (cbn; lia). rewrite <-L1. exact (get_put_same _ _ _ _ E1). }
  assert (getb packet_ethernet_t "source_mac" q2 0 = Some sm) as G2.
  { unfold getb. change (flen packet_ethernet_t "source_mac") with 6%nat. rewrite <-L2.
    exact (get_put_same _ _ _ _ E2). }
  mstep G1. mstep G2. rewrite Hi.
  assert (drop 14 q2 = drop 14 (pi_packet pi)) as Hd2.
  { rewrite (put_bytes_drop _ _ _ _ 14 E2) by (cbn; lia). apply (put_bytes_drop _ _ _ _ 14 E1). cbn; lia. }
  destruct (ethernet_packet_send_spec i dm sm (htons ETH_IP_TYPE) (with_packet q2 pi) w)
    as (pi' & E3 & _); [done|done| |].
  { split; cbn [pi_len pi_packet with_packet]; lia. }
  mstep E3. eexists. unfold sent. rewrite frame_of_whole;
    [|done|done|cbn [pi_packet with_packet]; lia|cbn [pi_packet pi_len with_packet]; congruence].
  cbn [pi_packet with_packet]. change IP_BASE with 14%nat. by rewrite Hd2.
Qed.

Lemma take_ethernet (p q : list Z) : take IP_BASE q = take IP_BASE p → (34 <= length p)%nat →
  take 6 (drop 6 q) = take 6 (drop 6 p) ∧ take 6 q = take 6 p.
Proof.
  intros H _. change IP_BASE with 14%nat in H. split.
  - transitivity (take 6 (drop 6 (take 14 q))); [by rewrite skipn_firstn_comm, take_take|].
    by rewrite H, skipn_firstn_comm, take_take.
  - transitivity (take 6 (take 14 q)); [by rewrite take_take|]. by rewrite H, take_take.
Qed.

Lemma update_ip_packet_response_ok pi i dst src ttl w :
  wf_packet pi → pi_interface pi = Some i → is_u32 dst → is_u32 src → is_byte ttl →
  ∃ pi' p', update_ip_packet_response pi dst src ttl w
    = Ok pi' (set_w_out (w_out w ++ [Frame i p']) (set_w_ip_id (u16 (w_ip_id w + 1)) w)) ∧
    ip_response (pi_packet pi) p' dst src ttl (w_ip_id w).
Proof.
  intros [Hb Hlen Hh] Hi Hd Hs Ht. unfold update_ip_packet_response.
  destruct (response_fields_ok (pi_packet pi) dst src ttl (w_ip_id w))
    as (q & E & Bq & Lq & Hbe & Haf & Hk & K1 & K2 & K3 & K4 & K5 & K6); [done|lia|done..|].
  rewrite (response_fields_run _ _ _ _ _ q _ E).
  assert (getb packet_ethernet_t "source_mac" q 0 = Some (take 6 (drop 6 q))) as Es.
  { unfold getb. apply get_bytes_Some. cbn. lia. }
  assert (getb packet_ethernet_t "dest_mac" q 0 = Some (take 6 q)) as Ed.
  { unfold getb. rewrite get_bytes_Some; [done|cbn; lia]. }
  mstep Es. mstep Ed.
  destruct (take_ethernet (pi_packet pi) q Hbe ltac:(lia)) as [-> ->].
  set (dm := take 6 (drop 6 (pi_packet pi))). set (sm := take 6 (pi_packet pi)).
  assert (length dm = 6%nat) as L1 by (unfold dm; rewrite length_take, length_drop; lia).
  assert (length sm = 6%nat) as L2 by (unfold sm; rewrite length_take; lia).
  destruct (update_ethernet_header_ok (with_packet q pi) i dm sm (set_w_ip_id (u16 (w_ip_id w + 1)) w))
    as (pi' & E3); [done..|split; cbn [pi_packet pi_len with_packet]; [done|congruence|lia]|].
  exists pi'. eexists. split; [exact E3|]. cbn [pi_packet with_packet].
  assert (34 <= length q)%nat as Hq by lia. rewrite !Forall_cons in Hk.
  destruct Hk as (F1 & F2 & F3 & F4 & _). split.
  - by rewrite reframed_length.
  - by rewrite reframed_take.
  - by rewrite reframed_payload.
  - repeat constructor; by rewrite reframed_ip_get by (done || cbn; lia).
  - by rewrite reframed_ip_get by (done || cbn; lia).
  - by rewrite reframed_ip_get by (done || cbn; lia).
  - by rewrite reframed_ip_get by (done || cbn; lia).
  - by rewrite reframed_ip_get by (done || cbn; lia).
  - by rewrite reframed_ip_get by (done || cbn; lia).
  - by rewrite (ip_checksum_drop q) by by apply reframed_drop.
Qed.

(** * Echo requests *)

Lemma icmp_fill_ok p c p' :
  bytes p → (98 <= length p)%nat → icmp_get "header_checksum" p = Some 0 →
  generatechecksum (drop L4_BASE p) 64 = Some c → icmp_set "header_checksum" p c = Some p' →
  generatechecksum (drop L4_BASE p') 64 = Some 0.
Proof.
  intros Hb Hl Hz Hc Hs. eapply (checksum_fill (drop L4_BASE p) 64 2 c).
  - by apply Forall_drop.
  - lia.
  - rewrite length_drop. change L4_BASE with 34%nat. lia.
  - done.
  - lia.
  - rewrite <-Hz. unfold icmp_get, getf, load. f_equal.
    exact (drop_get_bytes p 36 2 34 ltac:(lia) ltac:(lia)).
  - exact Hc.
  - apply (drop_put_bytes _ 36 (le_split 2 c) p' 34) in Hs; [exact Hs|lia].
Qed.

(** The answer to the echo request [p]. *)
Record echo_answer (p p' : list Z) (id : Z) : Prop := {
  ea_length : length p' = length p;
  ea_ethernet : take IP_BASE p' = take 6 (drop 6 p) ++ take 6 p ++ [8; 0];
  ea_accepted : ip_accepted p';
  ea_dst : ip_get "dst_ip" p' = ip_get "src_ip" p;
  ea_src : ip_get "src_ip" p' = ip_get "dst_ip" p;
  ea_ttl : ip_get "ttl" p' = Some 64;
  ea_id : ip_get "id" p' = Some (htons id);
  ea_proto : ip_get "protocol" p' = Some IP_TYPE_ICMP;
  ea_type : icmp_get "type" p' = Some ICMP_TYPE_REPLAY;
  ea_rest : Forall (λ f, icmp_get f p' = icmp_get f p) ["code"; "id"; "seq_num"];
  ea_data : drop (L4_BASE + 8) p' = drop (L4_BASE + 8) p;
  ea_checksum : generatechecksum (drop L4_BASE p') 64 = Some 0
}.

(** The header of a packet that is accepted. *)
Lemma ip_accepted_inv p :
  ip_accepted p →
  ∃ b tl, ip_get "ihl_version" p = Some b ∧ ip_version b = 4 ∧ ip_ihl b = 5 ∧
          ip_get "total_length" p = Some tl ∧ 0 < tl ∧ ip_checksum p = Some 0.
Proof.
  unfold ip_accepted, ip_header_check. intros H.
  destruct (ip_get "ihl_version" p) as [b|]; [|done]. cbn [mbind option_bind] in H.
  destruct (Z.eqb_spec (ip_version b) 4); [|done].
  destruct (Z.eqb_spec (ip_ihl b) 5); [|done]. cbn [negb] in H.
  destruct (ip_get "total_length" p) as [tl|]; [|done]. cbn [mbind option_bind] in H.
  destruct (Z.ltb_spec tl 1); [done|]. destruct (ip_checksum p) as [c|]; [|done].
  cbn [mbind option_bind] in H. destruct (Z.eqb_spec c 0) as [Hc|]; [|done].
  exists b, tl. split_and!; [done|done|done|done|lia|by rewrite Hc].
Qed.

Lemma ip_accepted_same p p' :
  ip_accepted p → ip_get "ihl_version" p' = ip_get "ihl_version" p →
  ip_get "total_length" p' = ip_get "total_length" p →
  ip_get "flags_fragmentoffset" p' = Some 0 → ip_checksum p' = Some 0 → ip_accepted p'.
Proof.
  intros (b & tl & Hb & Hv & Hi & Ht & Hp & _)%ip_accepted_inv H1 H2 H3 H4.
  unfold ip_accepted, ip_header_check. rewrite H1, Hb. cbn [mbind option_bind].
  rewrite Hv, Hi, H2, Ht. cbn. destruct (Z.ltb_spec tl 1); [lia|]. rewrite H4. cbn. by rewrite H3.
Qed.

Lemma icmp_get_payload f p p' :
  length p' = length p → drop L4_BASE p' = drop L4_BASE p →
  (34 + foff packet_icmp_t f + flen packet_icmp_t f <= length p)%nat →
  icmp_get f p' = icmp_get f p.
Proof. intros Hl Hd Hf. eapply getf_drop; [done|exact Hd|done|done]. Qed.

(** The packet with its ICMP part turned into that of a reply. *)
Record echo_turned (p q : list Z) : Prop := {
  et_length : length q = length p;
  et_bytes : bytes q;
  et_header : take L4_BASE q = take L4_BASE p;
  et_type : icmp_get "type" q = Some ICMP_TYPE_REPLAY;
  et_rest : Forall (λ f, icmp_get f q = icmp_get f p) ["code"; "id"; "seq_num"];
  et_data : drop (L4_BASE + 8) q = drop (L4_BASE + 8) p;
  et_checksum : generatechecksum (drop L4_BASE q) 64 = Some 0
}.

Lemma echo_turned_ok pi w :
  bytes (pi_packet pi) → (98 <= length (pi_packet pi))%nat →
  ∃ q, echo_turned (pi_packet pi) q ∧
    icmp_type_echo_replay pi w
    = (src_ip ← in_bounds (ip_get "src_ip" q);
       dst_ip ← in_bounds (ip_get "dst_ip" q);
       update_ip_packet_response (with_packet q pi) src_ip dst_ip 64;;
       mret tt) w.
Proof.
  intros Hb Hl. unfold icmp_type_echo_replay, icmp_set. set (p := pi_packet pi) in *.
  do 2 write_stepM.
  assert (∃ c, generatechecksum (drop L4_BASE p1) 64 = Some c) as [c Hc].
  { eexists. apply generatechecksum_sum; [apply Forall_drop; change (bytes p1); set_bytes; done|lia|].
    rewrite length_drop. change L4_BASE with 34%nat. lia. }
  mstep Hc. write_stepM. exists p2. split; [|done]. split.
  - lia.
  - set_bytes; done.
  - by set_outside.
  - unfold icmp_get. read_back; cbn; unfold ICMP_TYPE_REPLAY; lia.
  - unfold icmp_get. repeat constructor; by read_through.
  - by set_outside.
  - eapply icmp_fill_ok; [| | |exact Hc|exact Ew1]; [set_bytes; done|lia|]. unfold icmp_get.
    read_back; cbn; lia.
Qed.

Lemma echo_answer_intro p q p' src dst id :
  echo_turned p q → ip_response q p' src dst 64 id → (98 <= length p)%nat → ip_accepted p →
  ip_get "protocol" p = Some IP_TYPE_ICMP → ip_get "src_ip" p = Some src →
  ip_get "dst_ip" p = Some dst → echo_answer p p' id.
Proof.
  intros [Hlq _ Hhd Hty Hrest Hdt Hck] [R1 R2 R3 R4 R5 R6 R7 R8 R9 R10] Hl Hacc Hpr Hsrc Hdst.
  rewrite !Forall_cons in R4. destruct R4 as (K1 & K2 & K3 & K4 & _).
  assert (∀ f, (foff packet_ip4_t f + flen packet_ip4_t f <= 20)%nat → ip_get f q = ip_get f p) as Hg.
  { intros f Hf. by apply ip_get_take. }
  assert (take IP_BASE q = take IP_BASE p) as Het.
  { transitivity (take IP_BASE (take L4_BASE q)); [by rewrite take_take|by rewrite Hhd, take_take]. }
  destruct (take_ethernet p q Het ltac:(lia)) as [Hm1 Hm2]. split.
  - lia.
  - by rewrite R2, Hm1, Hm2.
  - apply (ip_accepted_same p); [done|rewrite K1; apply Hg; cbn; lia
      |rewrite K3; apply Hg; cbn; lia|done|done].
  - by rewrite Hsrc, R5.
  - by rewrite Hdst, R6.
  - done.
  - done.
  - by rewrite K4, Hg by (cbn; lia).
  - rewrite (icmp_get_payload _ q); [done|done|done|cbn; lia].
  - rewrite !Forall_cons in *. destruct Hrest as (<- & <- & <- & _).
    split_and!; [by apply icmp_get_payload; [..|cbn; lia]..|done].
  - rewrite <-!drop_drop in *. by rewrite R3.
  - by rewrite R3.
Qed.

Lemma echo_replay_ok pi i w src dst :
  wf_packet pi → 98 <= pi_len pi → pi_interface pi = Some i → ip_accepted (pi_packet pi) →
  ip_get "protocol" (pi_packet pi) = Some IP_TYPE_ICMP →
  ip_get "src_ip" (pi_packet pi) = Some src → ip_get "dst_ip" (pi_packet pi) = Some dst →
  ∃ p', icmp_type_echo_replay pi w
    = Ok tt (set_w_out (w_out w ++ [Frame i p']) (set_w_ip_id (u16 (w_ip_id w + 1)) w)) ∧
    echo_answer (pi_packet pi) p' (w_ip_id w).
Proof.
  intros [Hb Hlen Hh] H98 Hi Hacc Hpr Hsrc Hdst.
  destruct (echo_turned_ok pi w Hb ltac:(lia)) as (q & Ht & ->). pose proof Ht as [Hlq Hbq Hhd _ _ _ _].
  assert (∀ f, (foff packet_ip4_t f + flen packet_ip4_t f <= 20)%nat →
    ip_get f q = ip_get f (pi_packet pi)) as Hg by (intros f Hf; by apply ip_get_take).
  assert (ip_get "src_ip" q = Some src) as Hs by (rewrite Hg; [done|cbn; lia]).
  assert (ip_get "dst_ip" q = Some dst) as Hd by (rewrite Hg; [done|cbn; lia]).
  mstep Hs. mstep Hd.
  destruct (update_ip_packet_response_ok (with_packet q pi) i src dst 64 w) as (pi' & p' & E & Hr);
    [split; cbn [pi_packet pi_len with_packet]; [done|lia|lia]|done
    |by apply (ip_get_u32 "src_ip" q)|by apply (ip_get_u32 "dst_ip" q)|unfold is_byte; lia|].
  mstep E. exists p'. split; [done|]. eapply echo_answer_intro; [done|exact Hr|lia|done..].
Qed.

Lemma own_address_some r dst :
  dst ∈ if_ip <$> interfaces r → ∃ i x, own_address r dst = Some (i, x) ∧ if_ip x = dst.
Proof.
  intros (x & -> & Hx)%list_elem_of_fmap. unfold own_address.
  destruct (Spec.find_from _ 0 _) as [[i y]|] eqn:E.
  - exists i, y. split; [done|]. apply find_from_lt in E as (_ & _ & ?%Z.eqb_eq). done.
  - apply find_from_None in E. rewrite Forall_forall in E. specialize (E x Hx). simpl in E. lia.
Qed.

(** C8: an echo request that reaches an address of the router, with an ICMP
    part of at least the 64 bytes of [packet_icmp_t], is answered by exactly
    one frame, on the interface it came in on: the Ethernet and the IPv4
    addresses are exchanged, the type is echo reply, code, identifier, sequence
    number and data are those of the request, time to live is 64, the IPv4
    header is again acceptable and the ICMP checksum over those 64 bytes
    verifies.  Nothing else of the state changes but the identification
    counter. *)
Theorem ip_onreceive_answers_echo pi i w src dst ttl :
  wf_packet pi → 98 <= pi_len pi → pi_interface pi = Some i → ip_accepted (pi_packet pi) →
  dst ∈ if_ip <$> interfaces (w_router w) →
  ip_get "src_ip" (pi_packet pi) = Some src → ip_get "dst_ip" (pi_packet pi) = Some dst →
  ip_get "ttl" (pi_packet pi) = Some ttl → 0 < ttl →
  ip_get "protocol" (pi_packet pi) = Some IP_TYPE_ICMP →
  icmp_get "type" (pi_packet pi) = Some ICMP_TYPE_REQUEST →
  ∃ p', ip_onreceive pi w
    = Ok tt (set_w_out (w_out w ++ [Frame i p']) (set_w_ip_id (u16 (w_ip_id w + 1)) w)) ∧
    echo_answer (pi_packet pi) p' (w_ip_id w).
Proof.
  intros Hwf H98 Hi Hacc Hown Hsrc Hdst Httl Hpos Hpr Hty.
  destruct (echo_replay_ok pi i w src dst) as (p' & E & Ha); [done..|].
  exists p'. split; [|done]. unfold ip_onreceive. cbn [ip_onreceive_fuel]. unfold ip_onreceive_body.
  mstep Hacc. cbn [negb]. mstep Hdst. mstep Hpr.
  change (IP_TYPE_ICMP =? IP_TYPE_OSPF) with false. rewrite andb_false_r. cbv iota. mrun.
  destruct (own_address_some _ _ Hown) as (k & x & -> & _). unfold ip_local. mstep Httl.
  destruct (Z.leb_spec ttl 0); [lia|]. mstep Hpr. rewrite Z.eqb_refl. cbv iota.
  unfold ip_local_icmp. mstep Hty. exact E.
Qed.

(** * Error messages *)

(** The fields of the ICMP part, as one pure chain. *)
Definition icmp_fill (p : list Z) (code type id count : Z) (data : list Z) : option (list Z) :=
  p ← icmp_set "code" p (u8 code);
  p ← icmp_set "id" p (htons (u16 id));
  p ← icmp_set "type" p (u8 type);
  p ← icmp_set "seq_num" p (htons (u16 count));
  d ← get_bytes data 0 56;
  p ← put_bytes p (L4_BASE + 8) d;
  p ← icmp_set "header_checksum" p 0;
  c ← generatechecksum (drop L4_BASE p) 64;
  icmp_set "header_checksum" p c.

Record icmp_error (g p : list Z) (type code : Z) (data : list Z) : Prop := {
  ie_length : length p = length g;
  ie_bytes : bytes p;
  ie_header : take L4_BASE p = take L4_BASE g;
  ie_type : icmp_get "type" p = Some type;
  ie_code : icmp_get "code" p = Some code;
  ie_data : get_bytes p (L4_BASE + 8) 56 = Some (take 56 data);
  ie_checksum : generatechecksum (drop L4_BASE p) 64 = Some 0
}.

Lemma icmp_fill_spec g code type id count data :
  bytes g → (98 <= length g)%nat → bytes data → (56 <= length data)%nat → is_byte code → is_byte type →
  ∃ p, icmp_fill g code type id count data = Some p ∧ icmp_error g p type code data.
Proof.
  intros Hb Hl Hd Hdl Hc Ht. unfold icmp_fill, icmp_set. rewrite !u8_small by done.
  do 4 write_step. rewrite get_bytes_Some by lia. cbn [mbind option_bind]. rewrite drop_0.
  assert (length (take 56 data) = 56%nat) as L56 by (rewrite length_take; lia).
  destruct (put_bytes p2 (L4_BASE + 8) (take 56 data)) as [p3|] eqn:Ep; last first.
  { unfold put_bytes in Ep. rewrite L56 in Ep. case_decide as Hn; [done|]. exfalso. apply Hn.
    change L4_BASE with 34%nat. lia. }
  pose proof (put_bytes_length _ _ _ _ Ep) as L3. cbn [mbind option_bind]. write_step.
  assert (bytes p3) as Hb3.
  { eapply put_bytes_bytes; [exact Ep|set_bytes; done|by apply Forall_take]. }
  assert (bytes p4) as Hb4 by (set_bytes; done).
  assert (∃ c, generatechecksum (drop L4_BASE p4) 64 = Some c) as [c Hck].
  { eexists. apply generatechecksum_sum; [by apply Forall_drop|lia|].
    rewrite length_drop. change L4_BASE with 34%nat. lia. }
  rewrite Hck. cbn [mbind option_bind].
  destruct (setf_ok packet_icmp_t "header_checksum" p4 L4_BASE c) as (p' & E' & L'); [cbn; lia|].
  assert (∀ f, disjoint 42 56 (34 + foff packet_icmp_t f) (flen packet_icmp_t f) = true →
    icmp_get f p3 = icmp_get f p2) as Hput.
  { intros f Hf. unfold icmp_get, getf, load. f_equal. eapply put_bytes_get_other; [exact Ep|].
    by rewrite L56. }
  assert (∀ f, disjoint 36 2 (34 + foff packet_icmp_t f) (flen packet_icmp_t f) = true →
    icmp_get f p' = icmp_get f p3) as Hck'.
  { intros f Hf. unfold icmp_get. rewrite (getf_setf_other _ _ _ _ _ L4_BASE _ _ _ E') by exact Hf.
    exact (getf_setf_other _ _ _ _ _ L4_BASE _ _ _ Ew3 Hf). }
  exists p'. split; [exact E'|]. unfold is_byte in *. split.
  - lia.
  - set_bytes. done.
  - rewrite (icmp_set_header _ _ _ _ E'), (icmp_set_header _ _ _ _ Ew3).
    rewrite (put_bytes_take _ _ _ _ _ Ep) by lia. by set_outside.
  - rewrite Hck', Hput by reflexivity. unfold icmp_get. read_back; cbn; lia.
  - rewrite Hck', Hput by reflexivity. unfold icmp_get. read_back; cbn; lia.
  - rewrite <-L56. rewrite (put_bytes_get_other _ _ _ _ _ _ E') by (rewrite L56; reflexivity).
    rewrite (put_bytes_get_other _ _ _ _ _ _ Ew3) by (rewrite L56; reflexivity).
    rewrite (get_put_same _ _ _ _ Ep). by rewrite L56.
  - eapply icmp_fill_ok; [| | |exact Hck|exact E']; [done|lia|]. unfold icmp_get. read_back; cbn; lia.
Qed.

Lemma icmp_fill_run g code type id count data p w (k : list Z → M Z) :
  icmp_fill g code type id count data = Some p →
  (p ← in_bounds (icmp_set "code" g (u8 code));
   p ← in_bounds (icmp_set "id" p (htons (u16 id)));
   p ← in_bounds (icmp_set "type" p (u8 type));
   p ← in_bounds (icmp_set "seq_num" p (htons (u16 count)));
   p ← (if 0 <? 56 then
          d ← in_bounds (get_bytes data 0 (Z.to_nat 56));
          in_bounds (put_bytes p (L4_BASE + 8) d)
        else mret p);
   p ← in_bounds (icmp_set "header_checksum" p 0);
   c ← in_bounds (generatechecksum (drop L4_BASE p) (8 + 56));
   p ← in_bounds (icmp_set "header_checksum" p c);
   k p) w = k p w.
Proof.
  unfold icmp_fill. intros H. change (0 <? 56) with true. cbv iota.
  change (Z.to_nat 56) with 56%nat. change (8 + 56) with 64.
  repeat match type of H with
  | (?o ≫= _) = _ =>
      let q := fresh "q" in mrun; destruct o as [q|];
      cbn [mbind option_bind] in H; [|discriminate H];
      rewrite (bind_in_bounds (Some q) _ _ q eq_refl); cbv beta
  end. by rewrite (bind_in_bounds _ _ _ _ H).
Qed.

(** An error message about a received packet reaches the link layer: the
    packet's source has a route and its next hop a known hardware address. *)
Record answerable (w : world) (src : Z) (j : nat) (e : rtable_entry) (x : interface)
    (k : nat) (a : arp_cache_entry) : Prop := {
  an_route : best_match src (table_of w) (Some (j, e));
  an_interface : interfaces (w_router w) !! rt_interface e = Some x;
  an_arp : Spec.find_from (by_ip (if router_ip e =? 0 then src else router_ip e)) 0 (cache_of w)
           = Some (k, a);
  an_remote : Forall (λ y, if_ip y ≠ src) (interfaces (w_router w))
}.

(** The message that leaves: a generated IPv4 header, the ICMP type and code,
    a valid ICMP checksum, and a quote of the header of [p] and of the 8 bytes
    behind it. *)
Record error_message (p q : list Z) (type code src dst : Z) : Prop := {
  em_accepted : ip_accepted q;
  em_length : length q = 98%nat;
  em_proto : ip_get "protocol" q = Some IP_TYPE_ICMP;
  em_src : ip_get "src_ip" q = Some src;
  em_dst : ip_get "dst_ip" q = Some dst;
  em_type : icmp_get "type" q = Some type;
  em_code : icmp_get "code" q = Some code;
  em_checksum : generatechecksum (drop L4_BASE q) 64 = Some 0;
  em_quote : get_bytes q (L4_BASE + 8) 28 = get_bytes p IP_BASE 28
}.

Lemma ip_accepted_kept p p' :
  ip_accepted p → ip_fields_kept p p' → ip_checksum p' = Some 0 → ip_accepted p'.
Proof.
  unfold ip_fields_kept. rewrite !Forall_cons. intros Ha (K1 & _ & K3 & _ & K5 & _) Hc.
  unfold ip_accepted, ip_header_check in *. rewrite K1, K3, K5, Hc.
  destruct (ip_get "ihl_version" p); [|done]. cbn [mbind option_bind] in *.
  repeat (case_match; [done|]).
  destruct (ip_get "total_length" p); [|done]. cbn [mbind option_bind] in *.
  repeat (case_match; [done|]). destruct (ip_checksum p); [|done].
  cbn [mbind option_bind] in *. by repeat (case_match; [done|]).
Qed.

Lemma error_message_forwarded p q q' type code src dst ttl :
  error_message p q type code src dst → forwarded q q' ttl → error_message p q' type code src dst.
Proof.
  intros [A L P S D T C K Q] [Fl Fb Fp Ft Ff Fc].
  assert (∀ f, (34 + foff packet_icmp_t f + flen packet_icmp_t f <= 98)%nat →
               icmp_get f q' = icmp_get f q) as Hg.
  { intros f Hf. apply icmp_get_payload; [done|done|lia]. }
  pose proof Ff as Ff'. unfold ip_fields_kept in Ff'. rewrite !Forall_cons in Ff'.
  destruct Ff' as (K1 & K2 & K3 & K4 & K5 & K6 & K7 & K8 & _). split.
  - by apply (ip_accepted_kept q).
  - congruence.
  - by rewrite K6.
  - by rewrite K7.
  - by rewrite K8.
  - rewrite Hg; [done|cbn; lia].
  - rewrite Hg; [done|cbn; lia].
  - by rewrite Fp.
  - rewrite <-Q. rewrite <-(drop_get_bytes q' _ _ 34), <-(drop_get_bytes q _ _ 34)
      by (change L4_BASE with 34%nat; lia).
    change (drop 34 q') with (drop L4_BASE q'). by rewrite Fp.
Qed.

(** The first 28 bytes of the data of an error message. *)
Lemma error_data_ok p w :
  bytes p → (42 <= length p)%nat →
  ∃ d, error_data p w = Ok d w ∧ bytes d ∧ length d = 56%nat ∧
       Some (take 28 d) = get_bytes p IP_BASE 28.
Proof.
  intros Hb Hl. unfold error_data. change IP_BASE with 14%nat. change L4_BASE with 34%nat.
  mstep (get_bytes_Some p 14 20 ltac:(lia)). mstep (get_bytes_Some p 34 8 ltac:(lia)). mrun.
  eexists. split_and!; [reflexivity| | |].
  - repeat apply Forall_app_2; [by apply Forall_take, Forall_drop..|apply junk_bytes_bytes].
  - rewrite !length_app, !length_take, !length_drop, length_junk_bytes. lia.
  - rewrite get_bytes_Some by lia. f_equal. rewrite app_assoc.
    rewrite take_app_length' by (rewrite !length_app, !length_take, !length_drop; lia).
    change 28%nat with (20 + 8)%nat. rewrite <-take_take_drop, drop_drop. done.
Qed.

Lemma generated_message g q src dst type code data p x0 :
  generated g 98 dst src IP_TYPE_ICMP → icmp_error (pi_packet g) q type code data →
  Some (take 28 data) = get_bytes p IP_BASE 28 → (56 <= length data)%nat → x0 = src →
  error_message p q type code x0 dst ∧ ip_get "ttl" q = Some 65.
Proof.
  intros [Hl Hb Ha Hd Hs Ht Hp] [Il Ib Ih It Ic Id Ik] Hq Hdl ->.
  assert (∀ f, (foff packet_ip4_t f + flen packet_ip4_t f <= 20)%nat →
               ip_get f q = ip_get f (pi_packet g)) as Hg by (intros f Hf; by apply ip_get_take).
  change (Z.to_nat 98) with 98%nat in Hl.
  split; [split|rewrite Hg; [done|cbn; lia]].
  - eapply ip_accepted_take; [exact Hb|done|lia|by symmetry|done].
  - congruence.
  - rewrite Hg; [done|cbn; lia].
  - rewrite Hg; [done|cbn; lia].
  - rewrite Hg; [done|cbn; lia].
  - done.
  - done.
  - done.
  - rewrite <-Hq. change L4_BASE with 34%nat in *. rewrite !get_bytes_Some in * by lia.
    injection Id as Id. f_equal.
    transitivity (take 28 (take 56 (drop 42 q))); [by rewrite take_take|].
    by rewrite Id, take_take.
Qed.

(** A message the router generates reaches the link layer. *)
Lemma icmp_allocate_delivers recv p d src0 type code w src j e x k a :
  wf_world w → is_u32 src → is_u32 src0 → is_byte code → is_byte type → answerable w src j e x k a →
  bytes d → length d = 56%nat → Some (take 28 d) = get_bytes p IP_BASE 28 →
  ∃ q w', error_message p q type code (if src0 =? NO_SRC then if_ip x else src0) src ∧
    ip_get "ttl" q = Some 64 ∧
    icmp_allocate_and_send (ip_onreceive_body recv) src code type 0 0 d 56 src0 w = Ok 1 w' ∧
    w' ≡ set_w_out (w_out w ++ [ip_frame (rt_interface e) (arp_mac a) (if_mac x) q]) w.
Proof.
  intros Hw Hsu Hs0 Hc Ht [Hr Hx Ha Hrem] Hdb Hdl Hdq. unfold icmp_allocate_and_send.
  destruct (packetinfo_ip_allocate_ok 98 src src0 IP_TYPE_ICMP (20 + 8 + 56) w)
    as (r & w1 & Hb1 & H1 & Hres); [done|lia|done|done|lia|].
  rewrite (best_match_unique _ _ _ _ Hb1 Hr) in Hres. cbv beta iota in Hres.
  destruct Hres as (p0 & y & Hy & E & Hg). rewrite Hx in Hy. injection Hy as <-.
  mstep E. pose proof Hg as [Gl Gb _ _ _ _ _]. cbn [pi_packet] in Gl, Gb.
  destruct (icmp_fill_spec p0 code type 0 0 d) as (q & Ef & Hie); [done|lia|done|lia|done|done|].
  cbn [pi_packet]. rewrite (icmp_fill_run _ _ _ _ _ _ _ _ _ Ef). cbn [pi_interface].
  change (42 + 56) with 98.
  destruct (generated_message _ q _ _ type code d p _ Hg Hie Hdq ltac:(lia) eq_refl) as [Hem Httl].
  set (pi := PacketInfo q 98 (Some (rt_interface e))).
  assert (wf_packet pi) as Hwp.
  { split; cbn; [apply Hie|rewrite (em_length _ _ _ _ _ _ Hem); done|lia]. }
  assert (wf_world w1) as Hw1 by by rewrite H1.
  assert (transit pi w1 src 65) as Htr.
  { split; cbn [pi_packet]; [apply Hem|apply Hem|done| |].
    - intros [_ Hp]. change (pi_packet pi) with q in Hp. rewrite (em_proto _ _ _ _ _ _ Hem) in Hp. discriminate Hp.
    - assert (Forall (λ y, if_ip y ≠ src) (interfaces_of w1)) as Hall
        by (rewrite (interfaces_of_proper _ _ H1); by apply Forall_fmap).
      unfold interfaces_of in Hall. rewrite Forall_fmap in Hall. exact Hall. }
  destruct (ip_forward_known recv pi w1 src 65 j e k a) as (x1 & q' & w2 & Hx1 & Hfw & E2 & H2);
    [done|done|done|lia|by rewrite H1|by rewrite (cache_of_proper _ _ H1)|].
  assert (ip_onreceive_body recv pi w1 = Ok tt w2) as Er
    by (by rewrite (ip_onreceive_transit _ _ _ src 65)).
  mstep Er. exists q', w2. split_and!; [by eapply error_message_forwarded|apply Hfw|done|].
  destruct (interface_equiv w w1 _ _ (symmetry H1) Hx) as (x2 & Hx2 & Hpl).
  rewrite Hx1 in Hx2. injection Hx2 as <-.
  apply plain_fields in Hpl as (_ & Hm & _). by rewrite H2, Hm, (w_out_proper _ _ H1), H1.
Qed.

Lemma icmp_send_delivers recv p src0 type code w src j e x k a :
  wf_world w → bytes p → (42 <= length p)%nat → ip_get "src_ip" p = Some src →
  is_u32 src0 → is_byte code → is_byte type → answerable w src j e x k a →
  ∃ q w', error_message p q type code (if src0 =? NO_SRC then if_ip x else src0) src ∧
    ip_get "ttl" q = Some 64 ∧
    icmp_send (ip_onreceive_body recv) p src0 type code w = Ok tt w' ∧
    w' ≡ set_w_out (w_out w ++ [ip_frame (rt_interface e) (arp_mac a) (if_mac x) q]) w.
Proof.
  intros Hw Hb Hl Hsrc Hs0 Hc Ht Han. unfold icmp_send.
  destruct (error_data_ok p w Hb Hl) as (d & Ed & Hdb & Hdl & Hdq). mstep Ed. mstep Hsrc.
  destruct (icmp_allocate_delivers recv p d src0 type code w src j e x k a)
    as (q & w' & Hem & Httl & E & H'); [done|by apply (ip_get_u32 "src_ip" p)|done..|].
  exists q, w'. mstep E. done.
Qed.
