(* ===== verification/Samples.v ===== *)
(** A concrete router with two interfaces, two routes and one known neighbour,
    and packets for it.  The theorems of the development are instantiated on
    them. *)

From stdpp Require Import base tactics list numbers strings.
From Stdlib Require Import ZArith Lia.
From S2P Require Import Prelude Dataqueue Common Packets State Loops Ethernet Arp Routing.
From S2P Require Import IpHeader Ping Dijkstra Pwospf PwospfInput Dns Ip ArpInput Router IpSpec.
From S2P Require Import IcmpSpec.

Local Open Scope Z_scope.

Definition queue_of {A} (sz : Z) (l : list A) : dataqueue A :=
  Dataqueue l (replicate (length l) sz) pthread_mutex_init (Z.of_nat (length l)).

Lemma queue_of_wf {A} sz (l : list A) : wf_queue sz (queue_of sz l).
Proof. done. Qed.

Definition mac0 : addr_mac := [2; 0; 0; 0; 0; 1].
Definition mac1 : addr_mac := [2; 0; 0; 0; 0; 2].
Definition mac_peer : addr_mac := [2; 0; 0; 0; 1; 9].
Definition mac_host : addr_mac := [2; 0; 0; 0; 0; 9].

Definition ip0 : Z := IP_CONVERT 10 0 0 1.
Definition ip1 : Z := IP_CONVERT 10 0 1 1.
Definition ip_host : Z := IP_CONVERT 10 0 0 9.
Definition ip_peer : Z := IP_CONVERT 10 0 1 9.
Definition ip_far : Z := IP_CONVERT 10 0 7 7.
Definition mask24 : Z := IP_CONVERT 255 255 255 0.

Definition eth0 : interface := Interface "eth0" mac0 ip0 true mask24 HELLOINT queue_init.
Definition eth1 : interface := Interface "eth1" mac1 ip1 true mask24 HELLOINT queue_init.

Definition route0 : rtable_entry := RtEntry 0 (IP_CONVERT 10 0 0 0) mask24 0 0 false 0.
Definition route1 : rtable_entry := RtEntry 0 (IP_CONVERT 10 0 1 0) mask24 1 0 false 0.

Definition known_peer : arp_cache_entry := ArpEntry ip_peer mac_peer (Timeval 1000 0).

Definition sample_router (cache : list arp_cache_entry) (routes : list rtable_entry)
    (parked : list iparp_buffer_entry) : router :=
  Router [eth0; eth1] (queue_of sizeof_arp_cache_entry cache) (queue_of sizeof_rtable_entry routes)
    (queue_of sizeof_iparp_buffer_entry parked) queue_init (Timeval 0 0) (PwospfRouter ip0 0 LSUINT)
    true true.

Definition sample_cli : cli := Cli [] 0 false [].

Definition sample_world (cache : list arp_cache_entry) (parked : list iparp_buffer_entry) : world :=
  World (sample_router cache [route0; route1] parked) 7 0 sample_cli [] [] (λ n, Timeval 500 0) 0
    (λ n, 0) 0.

Lemma sample_wf cache parked : wf_macs cache → wf_world (sample_world cache parked).
Proof.
  intros Hc. split; [apply queue_of_wf|exact Hc| | |].
  - split; [apply queue_of_wf|]. repeat constructor; vm_compute; done.
  - repeat constructor; vm_compute; lia.
  - repeat constructor; vm_compute; done.
Qed.

(** An Ethernet header and an IPv4 header in front of [body]. *)
Definition sample_packet (src dst proto : Z) (body : list Z) : list Z :=
  default [] (new_header (mac0 ++ mac_host ++ [8; 0] ++ replicate 20 0 ++ body) dst src proto
                (20 + Z.of_nat (length body))).

Definition received (i : nat) (p : list Z) : packet_info :=
  PacketInfo p (Z.of_nat (length p)) (Some i).

Definition udp_body : list Z := replicate 26 1.
Definition transit_packet : list Z := sample_packet ip_host ip_peer 17 udp_body.
Definition ping_packet : list Z :=
  sample_packet ip_host ip0 IP_TYPE_ICMP ([ICMP_TYPE_REQUEST; 0; 0; 0; 0; 3; 0; 1] ++ replicate 56 5).

Lemma wf_packet_check i p :
  forallb (λ b, (0 <=? b) && (b <? 256)) p = true → 34 <= Z.of_nat (length p) < 65536 →
  wf_packet (received i p).
Proof.
  intros Hb Hl. split; [|done|exact Hl]. apply Forall_forall. intros x Hx.
  rewrite forallb_forall in Hb. apply list_elem_of_In in Hx. specialize (Hb x Hx).
  unfold is_byte. lia.
Qed.

Lemma transit_packet_wf : wf_packet (received 0 transit_packet).
Proof. apply wf_packet_check; vm_compute; [done|split; done]. Qed.

Lemma ping_packet_wf : wf_packet (received 0 ping_packet).
Proof. apply wf_packet_check; vm_compute; [done|split; done]. Qed.

Lemma transit_packet_transit cache parked :
  transit (received 0 transit_packet) (sample_world cache parked) ip_peer 65.
Proof.
  split; [by vm_compute..| |].
  - intros [H _]. vm_compute in H. discriminate H.
  - repeat constructor; vm_compute; discriminate.
Qed.
