(* ===== verification/TableProps.v ===== *)
(** Properties of the routing table and of the ARP cache. *)

From stdpp Require Import base tactics list numbers strings.
From Stdlib Require Import ZArith Lia.
From S2P Require Import Prelude Dataqueue Common Packets State Loops Ethernet Arp Routing.
From S2P Require Import IpHeader Ping Dijkstra Pwospf PwospfInput Dns Ip ArpInput Router IpSpec.
From S2P Require Import IcmpSpec Samples.

Local Open Scope Z_scope.

(** * Routing table *)

(** The entry routes a prefix of [n] bits. *)
Definition has_prefix (e : rtable_entry) (n : nat) : Prop :=
  (n <= 32)%nat ∧ netmask e = prefix_mask n.

(** C6: the lookup of a route in a table of prefixes finds the longest
    matching prefix, which has a positive length, the first of several equally
    long ones, and finds nothing exactly when no prefix of positive length
    matches.  It changes nothing but
    the state of the mutex. *)
Theorem lookup_route_longest_prefix ip w :
  wf_table (ip_table (w_router w)) → Forall (λ e, ∃ n, has_prefix e n) (table_of w) →
  ∃ r w', lookup_route ip w = Ok r w' ∧ w' ≡ w ∧
    match r with
    | Some (i, e) =>
        table_of w !! i = Some e ∧ matches ip e = true ∧
        ∃ n, has_prefix e n ∧ (0 < n)%nat ∧
          ∀ j e' n', table_of w !! j = Some e' → matches ip e' = true → has_prefix e' n' →
                     (n' <= n)%nat ∧ ((j < i)%nat → (n' < n)%nat)
    | None => ∀ j e' n', table_of w !! j = Some e' → matches ip e' = true → has_prefix e' n' →
                         n' = 0%nat
    end.
Proof.
  intros Hw Hp. destruct (lookup_route_equiv ip w Hw) as (r & w' & E & Heq & Hb).
  exists r, w'. split_and!; [done..|]. destruct r as [[i e]|].
  - destruct Hb as (Hi & Hm & Hpos & Hmax). split_and!; [done..|].
    destruct (Forall_lookup_1 _ _ _ _ Hp Hi) as [n [Hn Hen]]. exists n. split; [by split|].
    split; [destruct n; [rewrite Hen in Hpos; by vm_compute in Hpos|lia]|].
    intros j e' n' Hj Hm' [Hn' Hen']. destruct (Hmax j e' Hj Hm') as [Hle Hlt].
    rewrite Hen, Hen' in *. split; [|intros Hji; apply prefix_mask_lt; auto].
    destruct (decide (n < n')%nat) as [Hgt|]; [|lia].
    apply (prefix_mask_lt n n') in Hgt; lia.
  - intros j e' n' Hj Hm [Hn' Hen]. apply prefix_mask_zero; [done|]. rewrite <-Hen. by eapply Hb.
Qed.

Lemma lookup_route_longest_prefix_witness :
  ∃ w', lookup_route ip_peer (sample_world [] []) = Ok (Some (1%nat, route1)) w'.
Proof.
  destruct (lookup_route_longest_prefix ip_peer (sample_world [] [])) as (r & w' & E & _).
  - split; [apply queue_of_wf|]. repeat constructor; vm_compute; done.
  - repeat constructor; exists 24%nat; (split; [lia|reflexivity]).
  - exists w'. rewrite E. f_equal. vm_compute in E. injection E as <- _. reflexivity.
Defined.

(** a route with netmask 0 (the entry for the default route) is never
    returned by a lookup, whatever the table and the address. *)
Theorem default_route_never_used ip w i e w' :
  wf_table (ip_table (w_router w)) → lookup_route ip w = Ok (Some (i, e)) w' → netmask e ≠ 0.
Proof.
  intros Hw E. destruct (lookup_route_equiv ip w Hw) as (r & w1 & E1 & _ & Hb).
  rewrite E in E1. injection E1 as <- <-. destruct Hb as (_ & _ & Hpos & _). lia.
Qed.

Lemma default_route_never_used_witness : netmask route1 ≠ 0.
Proof.
  destruct (lookup_route ip_peer (sample_world [] [])) as [r w'|] eqn:E; [|discriminate E].
  apply (default_route_never_used ip_peer (sample_world [] []) 1 route1 w').
  - split; [apply queue_of_wf|]. repeat constructor; vm_compute; done.
  - rewrite E. f_equal. vm_compute in E. injection E as <- _. reflexivity.
Defined.

(** What [ip_putintable] makes of the table. *)
Definition put_route (e : rtable_entry) (l : list rtable_entry) : list rtable_entry :=
  match Spec.find_from (λ x, subnet x =? subnet e) 0 l with
  | Some (_, x) =>
      if bool_decide (rt_interface x = rt_interface e) then l
      else l ++ [RtEntry (router_ip e) (subnet e) (netmask e) (rt_interface e) (metric e) (dynamic e)
                   (rt_pad x)]
  | None => l ++ [e]
  end.

Definition table_changed (w w' : world) : Prop :=
  ∃ q, w' = set_w_router (set_ip_table q (w_router w)) w.

Lemma ip_putintable_run sn intf mask dyn met ip w :
  wf_table (ip_table (w_router w)) → is_u32 mask →
  ∃ w', ip_putintable sn intf mask dyn met ip w = Ok tt w' ∧ table_changed w w' ∧
    wf_table (ip_table (w_router w')) ∧
    table_of w' = put_route (RtEntry ip sn mask intf met dyn (u32 (w_junk w 0))) (table_of w).
Proof.
  intros [Hq Hm] Hmask. unfold ip_putintable, put_route, table_of. mrun.
  cbn [subnet rt_interface router_ip netmask metric dynamic].
  destruct (search_spec _ (λ e, subnet e =? sn) _ Hq) as (q1 & E1 & Hq1 & Hp1).
  change (queue_foreach _ _ _ _) with (ip_directmatch (ip_table (w_router w)) sn) in E1.
  mstep E1. mrun. set (w1 := set_w_router _ w).
  assert (junk32 w1 = Ok (u32 (w_junk w 0)) w1) as Ej by done. mstep Ej.
  assert (∀ e, is_u32 (netmask e) → wf_table (queue_add q1 e sizeof_rtable_entry) ∧
     packet (queue_add q1 e sizeof_rtable_entry) = packet (ip_table (w_router w)) ++ [e]) as Hadd.
  { intros e He. destruct (queue_add_spec _ q1 e Hq1) as [? Hp]. rewrite <-Hp1. split; [|done].
    split; [done|]. rewrite Hp, Hp1. apply Forall_app_2; [done|by constructor]. }
  destruct (Spec.find_from _ 0 (packet (ip_table (w_router w)))) as [[i x]|]; cbn [fst snd].
  - case_bool_decide.
    + eexists. split_and!; [reflexivity|by exists q1| |exact Hp1].
      split; [done|]. cbn. by rewrite Hp1.
    + eexists. split_and!; [reflexivity|by eexists|apply Hadd; done|apply Hadd; done].
  - eexists. split_and!; [reflexivity|by eexists|apply Hadd; done|apply Hadd; done].
Qed.

(** [ip_putintable] on every branch: a table without the subnet gets the
    new route at its end; a table whose first route for the subnet leaves by
    the same interface stays as it is; one that leaves by another interface
    gets the new route as well.  The table stays well formed and nothing else
    changes. *)
Theorem ip_putintable_spec sn intf mask dyn met ip w :
  wf_table (ip_table (w_router w)) → is_u32 mask →
  ∃ w', ip_putintable sn intf mask dyn met ip w = Ok tt w' ∧ table_changed w w' ∧
    wf_table (ip_table (w_router w')) ∧
    table_of w' = put_route (RtEntry ip sn mask intf met dyn (u32 (w_junk w 0))) (table_of w).
Proof. apply ip_putintable_run. Qed.

Lemma ip_putintable_spec_witness :
  ∃ w', ip_putintable (IP_CONVERT 10 0 7 0) 1 mask24 false 0 ip_peer (sample_world [] []) = Ok tt w' ∧
    table_of w' = [route0; route1; RtEntry ip_peer (IP_CONVERT 10 0 7 0) mask24 1 0 false 0].
Proof.
  destruct (ip_putintable_spec (IP_CONVERT 10 0 7 0) 1 mask24 false 0 ip_peer (sample_world [] []))
    as (w' & E & _ & _ & Ht).
  - split; [apply queue_of_wf|]. repeat constructor; vm_compute; done.
  - vm_compute. done.
  - exists w'. split; [exact E|]. rewrite Ht. reflexivity.
Defined.

(** The route of interface [k]. *)
Definition interface_route (pad : Z) (k : nat) (x : interface) : rtable_entry :=
  RtEntry 0 (Z.land (if_ip x) (if_subnet_mask x)) (if_subnet_mask x) k 0 false pad.

Definition subnet_of (x : interface) : Z := Z.land (if_ip x) (if_subnet_mask x).

Lemma put_route_new e l : subnet e ∉ subnet <$> l → put_route e l = l ++ [e].
Proof.
  intros H. unfold put_route. destruct (Spec.find_from _ 0 l) as [[i x]|] eqn:E; [|done].
  apply find_from_lt in E as (_ & Hx & Hs%Z.eqb_eq). exfalso. apply H. rewrite <-Hs.
  apply list_elem_of_fmap. exists x. split; [done|]. by eapply list_elem_of_lookup_2.
Qed.

(** Adding the routes of the interfaces [l], numbered from [k] on. *)
Lemma setup_routes_run l k w :
  wf_table (ip_table (w_router w)) → Forall (λ x, is_u32 (if_subnet_mask x)) l →
  NoDup (subnet_of <$> l) → (∀ x, x ∈ l → subnet_of x ∉ subnet <$> table_of w) →
  ∃ w', foldr (λ p rest,
           ip_putintable (Z.land (if_ip p.2) (if_subnet_mask p.2)) p.1 (if_subnet_mask p.2)
             false 0 0;; rest) (mret tt) (zip (seq k (length l)) l) w = Ok tt w' ∧
    table_changed w w' ∧ wf_table (ip_table (w_router w')) ∧
    table_of w' = table_of w ++ imap (λ n, interface_route (u32 (w_junk w 0)) (k + n)%nat) l.
Proof.
  revert k w. induction l as [|x l IH]; intros k w Hw Hl Hnd Hfresh.
  - exists w. split_and!; [done| |done|by rewrite app_nil_r]. exists (ip_table (w_router w)).
    by destruct w as [[]].
  - cbn [length seq zip foldr fst snd]. rewrite Forall_cons in Hl. destruct Hl as [Hx Hl].
    rewrite fmap_cons, NoDup_cons in Hnd. destruct Hnd as [Hnx Hnd].
    destruct (ip_putintable_run (subnet_of x) k (if_subnet_mask x) false 0 0 w Hw Hx)
      as (w1 & E1 & (q1 & Hq1) & Hw1 & Ht1). mstep E1.
    rewrite put_route_new in Ht1 by (cbn [subnet]; apply Hfresh; left).
    destruct (IH (S k) w1 Hw1 Hl Hnd) as (w' & E & (q2 & Hq2) & Hw' & Ht).
    { intros y Hy. rewrite Ht1, fmap_app, elem_of_app. intros [Hin|Hin].
      - by apply (Hfresh y); [right|].
      - cbn in Hin. apply list_elem_of_singleton in Hin. apply Hnx. rewrite <-Hin.
        apply list_elem_of_fmap. by exists y. }
    exists w'. split_and!; [done|exists q2; by rewrite Hq2, Hq1|done|].
    rewrite Ht, Ht1, <-app_assoc. f_equal. rewrite imap_cons. cbn [app]. f_equal.
    + unfold interface_route. by rewrite Nat.add_0_r.
    + rewrite Hq1. cbn [w_junk set_w_router]. apply imap_ext. intros i y _. cbn. f_equal. lia.
Qed.

(** the start-up of the router gives every interface its route: on an
    empty table and interfaces on different subnets, the table becomes the list
    of the directly connected subnets, in the order of the interfaces, each
    with its own netmask, its interface and no next hop. *)
Theorem setup_routes_connects_interfaces w :
  wf_table (ip_table (w_router w)) → table_of w = [] →
  Forall (λ x, is_u32 (if_subnet_mask x)) (interfaces (w_router w)) →
  NoDup (subnet_of <$> interfaces (w_router w)) →
  ∃ w', sr_integ_hw_setup_routes w = Ok tt w' ∧ table_changed w w' ∧
    wf_table (ip_table (w_router w')) ∧
    table_of w' = imap (interface_route (u32 (w_junk w 0))) (interfaces (w_router w)).
Proof.
  intros Hw Hem Hm Hnd. unfold sr_integ_hw_setup_routes. mrun.
  destruct (setup_routes_run (interfaces (w_router w)) 0 w Hw Hm Hnd) as (w' & E & Hc & Hw' & Ht).
  { intros x _. rewrite Hem. apply not_elem_of_nil. }
  exists w'. by rewrite Ht, Hem.
Qed.

Lemma setup_routes_connects_interfaces_witness :
  ∃ w', sr_integ_hw_setup_routes
      (set_w_router (set_ip_table queue_init (sample_router [] [] [])) (sample_world [] [])) = Ok tt w' ∧
    table_of w' = [route0; route1].
Proof.
  destruct (setup_routes_connects_interfaces
    (set_w_router (set_ip_table queue_init (sample_router [] [] [])) (sample_world [] [])))
    as (w' & E & _ & _ & Ht).
  - split; [apply wf_queue_init|constructor].
  - reflexivity.
  - repeat constructor; vm_compute; done.
  - apply (bool_decide_eq_true_1 _). reflexivity.
  - exists w'. split; [exact E|]. rewrite Ht. reflexivity.
Defined.

(** * ARP cache *)

(** C34: [arp_putincache] keeps the cache well formed and keeps hardware
    addresses unique in it: a known station gets the new protocol address and
    a new deadline, a known protocol address moves to the new station, anything
    else is appended.  Nothing but the cache and the clock changes. *)
Theorem arp_putincache_keeps_cache ip mac timeout w :
  wf_cache (arp_cache (w_router w)) → wf_mac mac → wf_macs (cache_of w) →
  NoDup (arp_mac <$> cache_of w) →
  ∃ w', arp_putincache ip mac timeout w = Ok tt w' ∧ cache_changed w w' ∧
    wf_cache (arp_cache (w_router w')) ∧ wf_macs (cache_of w') ∧ NoDup (arp_mac <$> cache_of w') ∧
    cache_of w' = put_list ip mac (deadline timeout (w_clock w (w_ticks w))) (cache_of w).
Proof.
  intros Hw Hm Hms Hnd. destruct (arp_putincache_spec ip mac timeout w Hw) as (w' & E & Hc & Hw' & Hp).
  exists w'. rewrite Hp. split_and!; [done..| | |done].
  - by apply put_list_wf_macs.
  - by apply put_list_macs_unique.
Qed.

Lemma known_peer_wf : wf_macs [known_peer].
Proof. repeat constructor; done. Qed.

Lemma mac_host_wf : wf_mac mac_host.
Proof. split; [done|repeat constructor; done]. Qed.

Lemma arp_putincache_keeps_cache_witness :
  ∃ w', arp_putincache ip_host mac_host 15 (sample_world [known_peer] []) = Ok tt w' ∧
    cache_of w' = [known_peer; ArpEntry ip_host mac_host (Timeval 515 0)].
Proof.
  destruct (arp_putincache_keeps_cache ip_host mac_host 15 (sample_world [known_peer] []))
    as (w' & E & _ & _ & _ & _ & Hc).
  - apply queue_of_wf.
  - apply mac_host_wf.
  - apply known_peer_wf.
  - apply (bool_decide_eq_true_1 _). reflexivity.
  - exists w'. split; [exact E|]. rewrite Hc. reflexivity.
Defined.

(** an address that was recorded is found: after [arp_putincache] a lookup
    of the protocol address gives the hardware address, provided the cache
    does not bind the protocol address to a second station while the station
    itself is already known. *)
Theorem arp_put_then_lookup ip mac timeout w w1 r w2 :
  wf_cache (arp_cache (w_router w)) → wf_mac mac → wf_macs (cache_of w) →
  (mac ∈ arp_mac <$> cache_of w → Forall (λ e, arp_ip e = ip → arp_mac e = mac) (cache_of w)) →
  arp_putincache ip mac timeout w = Ok tt w1 → lookup_arp_ip ip w1 = Ok r w2 →
  ∃ i e, r = Some (i, e) ∧ arp_ip e = ip ∧ arp_mac e = mac.
Proof.
  intros Hw Hm Hms Hone E1 E2.
  destruct (arp_putincache_spec ip mac timeout w Hw) as (w' & E & _ & Hw' & Hp).
  rewrite E1 in E. injection E as <-.
  destruct (lookup_arp_ip_spec ip w1 Hw') as (q & _ & _ & E'). rewrite E2 in E'. injection E' as -> _.
  rewrite Hp.
  destruct (put_list_find ip mac (deadline timeout (w_clock w (w_ticks w))) (cache_of w))
    as (i & e & Hf & Hmac); [done..|]. exists i, e. split_and!; [done| |done].
  apply find_from_lt in Hf as (_ & _ & Hip). by apply Z.eqb_eq.
Qed.

Lemma arp_put_then_lookup_witness :
  ∃ w1 w2 i e, arp_putincache ip_host mac_host 15 (sample_world [known_peer] []) = Ok tt w1 ∧
    lookup_arp_ip ip_host w1 = Ok (Some (i, e)) w2 ∧ arp_mac e = mac_host.
Proof.
  destruct (arp_putincache ip_host mac_host 15 (sample_world [known_peer] [])) as [[] w1|f] eqn:E1;
    [|discriminate E1].
  destruct (lookup_arp_ip ip_host w1) as [r w2|f] eqn:E2;
    [|vm_compute in E1; injection E1 as <-; discriminate E2].
  destruct (arp_put_then_lookup ip_host mac_host 15 (sample_world [known_peer] []) w1 r w2)
    as (i & e & Hr & _ & Hm).
  - apply queue_of_wf.
  - apply mac_host_wf.
  - apply known_peer_wf.
  - intros H. exfalso. revert H. apply (bool_decide_eq_true_1 _). reflexivity.
  - exact E1.
  - exact E2.
  - exists w1, w2, i, e. rewrite Hr in E2. split; [reflexivity|]. split; [exact E2|exact Hm].
Defined.

(** a moved address may stay stale.  When the cache holds the protocol
    address at an earlier position, bound to another station, and the station
    is known under some other address, recording the new binding leaves the
    old one in front of it: a lookup still gives the old hardware address. *)
Theorem arp_put_leaves_stale_binding ip mac timeout w i j e1 e2 :
  wf_cache (arp_cache (w_router w)) →
  Spec.find_from (by_ip ip) 0 (cache_of w) = Some (i, e1) →
  Spec.find_from (by_mac mac) 0 (cache_of w) = Some (j, e2) → (i < j)%nat →
  ∃ w1 w2, arp_putincache ip mac timeout w = Ok tt w1 ∧
    cache_of w1 !! j = Some (ArpEntry ip (arp_mac e2) (deadline timeout (w_clock w (w_ticks w)))) ∧
    lookup_arp_ip ip w1 = Ok (Some (i, e1)) w2.
Proof.
  intros Hw Hi Hj Hij.
  destruct (arp_putincache_spec ip mac timeout w Hw) as (w1 & E & _ & Hw1 & Hp).
  destruct (lookup_arp_ip_spec ip w1 Hw1) as (q & _ & _ & E'). exists w1. eexists.
  unfold put_list in Hp. rewrite Hj in Hp. split_and!; [done| |].
  - rewrite Hp. apply list_lookup_insert_eq. by apply find_from_lt in Hj as [? _].
  - rewrite E', Hp. f_equal. apply find_from_Some in Hi as (k & -> & Hk & Hip & Hmin).
    apply find_from_Some. exists k. split_and!; [done| |done|].
    + rewrite list_lookup_insert_ne by lia. done.
    + intros k' y Hlt Hy. rewrite list_lookup_insert_ne in Hy by lia. by eapply Hmin.
Qed.

Lemma arp_put_leaves_stale_binding_witness :
  ∃ w1 w2,
    arp_putincache ip_peer mac_host 15
      (sample_world [known_peer; ArpEntry ip_host mac_host (Timeval 900 0)] []) = Ok tt w1 ∧
    lookup_arp_ip ip_peer w1 = Ok (Some (0%nat, known_peer)) w2.
Proof.
  destruct (arp_put_leaves_stale_binding ip_peer mac_host 15
    (sample_world [known_peer; ArpEntry ip_host mac_host (Timeval 900 0)] []) 0 1 known_peer
    (ArpEntry ip_host mac_host (Timeval 900 0))) as (w1 & w2 & E & _ & L).
  - apply queue_of_wf.
  - reflexivity.
  - reflexivity.
  - lia.
  - exists w1, w2. split; [exact E|exact L].
Defined.

(** a round of the aging thread, at a time of day that does not change
    during the round, never removes a static entry or one whose deadline lies
    ahead; when no two neighbours in the cache are both overdue it removes
    exactly the overdue ones; and, whatever the size of the cache, nothing
    else is removed: the loop that should prune a cache above [ARP_THRESHOLD]
    never runs. *)
Theorem arp_maintain_cache_ages now w :
  wf_cache (arp_cache (w_router w)) → (∀ n, tv_sec (w_clock w n) = now) →
  ∃ w', arp_maintain_cache_round w = Ok tt w' ∧ cache_changed w w' ∧
    wf_cache (arp_cache (w_router w')) ∧
    filter (λ e, expired now e = false) (cache_of w') = filter (λ e, expired now e = false) (cache_of w) ∧
    (no_adjacent (expired now) (cache_of w) = true →
     cache_of w' = filter (λ e, expired now e = false) (cache_of w)).
Proof.
  intros Hw Hnow. destruct (arp_maintain_cache_round_spec now w Hw Hnow) as (w' & E & Hc & Hw' & Hp).
  exists w'. rewrite Hp. split_and!; [done..| |].
  - apply remove_skip_keeps.
  - apply remove_skip_filter.
Qed.

Lemma arp_maintain_cache_ages_witness :
  ∃ w', arp_maintain_cache_round (sample_world
      [ArpEntry ip_host mac_host (Timeval 400 0); known_peer; ArpEntry ip0 mac0 (Timeval (-1) 0)] [])
    = Ok tt w' ∧ cache_of w' = [known_peer; ArpEntry ip0 mac0 (Timeval (-1) 0)].
Proof.
  destruct (arp_maintain_cache_ages 500 (sample_world
      [ArpEntry ip_host mac_host (Timeval 400 0); known_peer; ArpEntry ip0 mac0 (Timeval (-1) 0)] []))
    as (w' & E & _ & _ & _ & H).
  - apply queue_of_wf.
  - intros n. reflexivity.
  - exists w'. split; [exact E|]. rewrite H by reflexivity. reflexivity.
Defined.

Lemma remove_skip_ext {A} (p q : A → bool) l :
  (∀ x, p x = q x) → Spec.remove_skip p l = Spec.remove_skip q l.
Proof.
  intros H. induction l as [l IH] using (induction_ltof1 _ length).
  destruct l as [|x l]; [done|]. simpl. rewrite H. destruct (q x).
  - destruct l as [|y l]; [done|]. f_equal. apply IH. unfold ltof. simpl. lia.
  - f_equal. apply IH. unfold ltof. simpl. lia.
Qed.

(** The commands that clear part of the cache. *)
Definition is_static (e : arp_cache_entry) : bool := tv_sec (arp_tv e) =? -1.

(** [arp_clear_static] and [arp_clear_dynamic] walk over the cache with a
    removal loop: entries of the other kind all stay, in their order; the loop
    removes every entry of its kind only when no two of them are neighbours. *)
Theorem arp_clear_kind (static : bool) w :
  wf_cache (arp_cache (w_router w)) →
  let cmd := if static then arp_clear_static else arp_clear_dynamic in
  let p e := Bool.eqb (is_static e) static in
  ∃ w', cmd w = Ok tt w' ∧ cache_changed w w' ∧ wf_cache (arp_cache (w_router w')) ∧
    filter (λ e, p e = false) (cache_of w') = filter (λ e, p e = false) (cache_of w) ∧
    (no_adjacent p (cache_of w) = true → cache_of w' = filter (λ e, p e = false) (cache_of w)) ∧
    (∀ x y l, cache_of w = x :: y :: l → p x = true → p y = true → y ∈ cache_of w').
Proof.
  intros Hw cmd p.
  assert (cmd = update_cache (remove_body (if static then is_static else λ e, negb (is_static e))))
    as -> by (by destruct static).
  destruct (update_cache_remove (if static then is_static else λ e, negb (is_static e)) w Hw)
    as (w' & E & Hc & Hw' & Hp). exists w'.
  assert (cache_of w' = Spec.remove_skip p (cache_of w)) as ->.
  { rewrite Hp. apply remove_skip_ext. intros e. unfold p. by destruct static, (is_static e). }
  split_and!; [done..| | |].
  - apply remove_skip_keeps.
  - apply remove_skip_filter.
  - intros x y l -> Hx _. rewrite remove_skip_adjacent by done. left.
Qed.

Lemma arp_clear_kind_witness :
  ∃ w', arp_clear_static (sample_world
      [ArpEntry ip0 mac0 (Timeval (-1) 0); ArpEntry ip1 mac1 (Timeval (-1) 0)] []) = Ok tt w' ∧
    ArpEntry ip1 mac1 (Timeval (-1) 0) ∈ cache_of w'.
Proof.
  destruct (arp_clear_kind true (sample_world
      [ArpEntry ip0 mac0 (Timeval (-1) 0); ArpEntry ip1 mac1 (Timeval (-1) 0)] []))
    as (w' & E & _ & _ & _ & _ & H).
  - apply queue_of_wf.
  - exists w'. split; [exact E|]. by eapply H.
Defined.
