(* ===== verification/PacketProps.v ===== *)
(** Properties of the packet path, from the reception of a frame to the frames
    that leave. *)

From stdpp Require Import base tactics list numbers strings.
From Stdlib Require Import ZArith Lia.
From S2P Require Import Prelude Dataqueue Common Packets State Loops Ethernet Arp Routing.
From S2P Require Import IpHeader Ping Dijkstra Pwospf PwospfInput Dns Ip ArpInput Router IpSpec.
From S2P Require Import ArpSpec IcmpSpec Samples TableProps.

Local Open Scope Z_scope.

(** * Dispatch *)

Definition eth_type (p : list Z) : option Z := getf packet_ethernet_t "type" p 0.

Lemma can_marshall l base len :
  0 <= base + Z.of_nat (sizeof l) <= len → len < 4294967296 →
  0 <= base → PACKET_CAN_MARSHALL l base len = true.
Proof.
  intros H1 H2 H3. unfold PACKET_CAN_MARSHALL. rewrite u64_small by lia. apply Z.leb_le. lia.
Qed.

Lemma handle_ip pi w :
  wf_packet pi → eth_type (pi_packet pi) = Some (htons ETH_IP_TYPE) →
  router_handle_packet pi w = ip_onreceive pi w.
Proof.
  intros [Hb Hl Hh] Ht. unfold router_handle_packet. rewrite can_marshall by (cbn; lia). mstep Ht.
  change (ntohs (htons ETH_IP_TYPE) =? ETH_ARP_TYPE) with false.
  change (ntohs (htons ETH_IP_TYPE) =? ETH_IP_TYPE) with true. cbv iota.
  by rewrite can_marshall by (cbn; lia).
Qed.

(** C1: a received IPv4 packet in transit, with time to live, a route and a
    known hardware address of its next hop, leaves by the interface of the
    longest matching route in exactly one frame: the Ethernet addresses are
    those of the next hop and of that interface, the time to live is one less,
    the header checksum verifies again, every other header field and the
    payload are unchanged.  Nothing else of the state changes but mutexes. *)
Theorem router_forwards_packet pi w dst ttl j e k a :
  wf_world w → wf_packet pi → eth_type (pi_packet pi) = Some (htons ETH_IP_TYPE) →
  transit pi w dst ttl → 1 < ttl →
  best_match dst (table_of w) (Some (j, e)) →
  Spec.find_from (by_ip (next_hop_of e dst)) 0 (cache_of w) = Some (k, a) →
  ∃ x p' w', interfaces (w_router w) !! rt_interface e = Some x ∧
    forwarded (pi_packet pi) p' ttl ∧ router_handle_packet pi w = Ok tt w' ∧
    w' ≡ set_w_out (w_out w ++ [ip_frame (rt_interface e) (arp_mac a) (if_mac x) p']) w.
Proof.
  intros Hw Hp Ht Htr Httl Hb Ha. rewrite handle_ip by done.
  destruct (ip_forward_known (ip_onreceive_fuel 1) pi w dst ttl j e k a)
    as (x & p' & w' & Hx & Hf & E & Hq); [done..|].
  exists x, p', w'. split_and!; [done..| |done].
  change (ip_onreceive_body (ip_onreceive_fuel 1) pi w = Ok tt w').
  by rewrite (ip_onreceive_transit _ _ _ dst ttl).
Qed.

Lemma route1_best cache parked :
  best_match ip_peer (table_of (sample_world cache parked)) (Some (1%nat, route1)).
Proof.
  split_and!; [done|done|by vm_compute|].
  intros [|[|j]] e' He Hm; vm_compute in He; [injection He as <-..|discriminate He].
  - vm_compute in Hm. discriminate Hm.
  - split; [done|lia].
Qed.

Lemma router_forwards_packet_witness :
  ∃ p' w', router_handle_packet (received 0 transit_packet) (sample_world [known_peer] []) = Ok tt w' ∧
    w_out w' = [ip_frame 1 mac_peer mac1 p'] ∧ ip_get "ttl" p' = Some 64.
Proof.
  destruct (router_forwards_packet (received 0 transit_packet) (sample_world [known_peer] []) ip_peer 65
    1 route1 0 known_peer) as (x & p' & w' & Hx & Hf & E & Hw).
  - apply sample_wf, known_peer_wf.
  - apply transit_packet_wf.
  - vm_compute. reflexivity.
  - apply transit_packet_transit.
  - lia.
  - apply route1_best.
  - reflexivity.
  - exists p', w'. split; [exact E|]. rewrite (w_out_proper _ _ Hw). vm_compute in Hx.
    injection Hx as <-. split; [reflexivity|]. exact (fw_ttl _ _ _ Hf).
Defined.

(** * Packets whose next hop is not known yet *)

Lemma router_parks pi w dst ttl j e :
  wf_world w → wf_packet pi → eth_type (pi_packet pi) = Some (htons ETH_IP_TYPE) →
  transit pi w dst ttl → 1 < ttl →
  best_match dst (table_of w) (Some (j, e)) →
  Spec.find_from (by_ip (next_hop_of e dst)) 0 (cache_of w) = None →
  wf_queue sizeof_iparp_buffer_entry (iparp_buffer (w_router w)) →
  ∃ x q w', interfaces (w_router w) !! rt_interface e = Some x ∧
    router_handle_packet pi w = Ok tt w' ∧ wf_queue sizeof_iparp_buffer_entry q ∧
    packet q = parked_of w ++ [waiting pi (rt_interface e) (next_hop_of e dst)
                                 (w_clock w (w_ticks w))] ∧
    w' ≡ set_w_out (w_out w ++ [arp_frame (rt_interface e) ARP_OPCODE_REQUEST (next_hop_of e dst)
                                  MAC_BROADCAST MAC_BROADCAST (if_ip x) (if_mac x) []])
           (set_w_ticks (S (w_ticks w)) (with_parked q w)).
Proof.
  intros Hw Hp Ht Htr Httl Hb Ha Hq. rewrite handle_ip by done.
  change (ip_onreceive pi w) with (ip_onreceive_body (ip_onreceive_fuel 1) pi w).
  rewrite (ip_onreceive_transit _ _ _ dst ttl) by done. destruct Hp as [Hby Hl Hh].
  destruct (ip_forward_lookups (ip_onreceive_fuel 1) pi w dst ttl j e Hw Htr Httl Hb)
    as (x & x2 & w2 & Hx & Hx2 & Hmac2 & Hip2 & [Hmac _] & H12 & ->).
  change (if router_ip e =? 0 then dst else router_ip e) with (next_hop_of e dst). rewrite Ha.
  rewrite (park_run pi (rt_interface e) x2 _ w2 Hl Hx2) by congruence.
  assert (wf_queue sizeof_iparp_buffer_entry (iparp_buffer (w_router w2))) as Hq2.
  { eapply wf_erase; [|exact Hq]. symmetry. exact (f_equal iparp_buffer (erase_router_eq _ _ H12)). }
  destruct (queue_add_spec _ (iparp_buffer (w_router w2))
    (waiting pi (rt_interface e) (next_hop_of e dst) (w_clock w2 (w_ticks w2))) Hq2) as [Hwq Hadd].
  change (packet (iparp_buffer (w_router w2))) with (parked_of w2) in Hadd.
  rewrite (parked_of_proper _ _ H12), (w_clock_proper _ _ H12), (w_ticks_proper _ _ H12) in Hadd.
  eexists x, _, _. split_and!; [done|reflexivity|exact Hwq| |].
  - by rewrite (w_clock_proper _ _ H12), (w_ticks_proper _ _ H12).
  - rewrite Hmac2, Hip2, <-(w_out_proper _ _ H12), <-(w_ticks_proper _ _ H12).
    apply (set_w_out_proper _ _ eq_refl).
    exact (set_w_ticks_proper _ _ eq_refl _ _ (with_parked_proper _ _ _ H12)).
Qed.

(** A parked packet waits for its next hop, and the others still do. *)
Lemma parked_waits pi w w' dst ttl j e now :
  wf_packet pi → transit pi w dst ttl → 1 < ttl → best_match dst (table_of w) (Some (j, e)) →
  interfaces_of w' = interfaces_of w → table_of w' = table_of w → Forall (waits w) (parked_of w) →
  Forall (waits w') (parked_of w ++ [waiting pi (rt_interface e) (next_hop_of e dst) now]).
Proof.
  intros Hp Htr Ht Hb Hi Htab Hw. apply Forall_app. split.
  - eapply Forall_impl; [exact Hw|]. intros ent. by apply waits_ext.
  - constructor; [|constructor]. apply (waits_ext w); [done..|]. exists dst, ttl, j, e.
    split; [cbn; lia|done..].
Qed.

(** a packet in transit whose next hop has no known hardware address is
    kept unchanged, at the end of the queue of waiting packets, with the time of
    its reception and the count of one request, and one broadcast ARP request
    for the next hop, with the addresses of the outgoing interface as sender,
    leaves by that interface.  Every packet in the queue waits for the next hop
    of its route if that was so before; nothing else changes but the clock and
    mutexes. *)
Theorem router_parks_packet pi w dst ttl j e :
  wf_world w → wf_packet pi → eth_type (pi_packet pi) = Some (htons ETH_IP_TYPE) →
  transit pi w dst ttl → 1 < ttl →
  best_match dst (table_of w) (Some (j, e)) →
  Spec.find_from (by_ip (next_hop_of e dst)) 0 (cache_of w) = None →
  wf_queue sizeof_iparp_buffer_entry (iparp_buffer (w_router w)) → Forall (waits w) (parked_of w) →
  ∃ x q w', interfaces (w_router w) !! rt_interface e = Some x ∧
    router_handle_packet pi w = Ok tt w' ∧ wf_queue sizeof_iparp_buffer_entry q ∧
    packet q = parked_of w ++ [waiting pi (rt_interface e) (next_hop_of e dst)
                                 (w_clock w (w_ticks w))] ∧
    w' ≡ set_w_out (w_out w ++ [arp_frame (rt_interface e) ARP_OPCODE_REQUEST (next_hop_of e dst)
                                  MAC_BROADCAST MAC_BROADCAST (if_ip x) (if_mac x) []])
           (set_w_ticks (S (w_ticks w)) (with_parked q w)) ∧
    Forall (waits w') (parked_of w').
Proof.
  intros Hw Hp Ht Htr Httl Hb Ha Hq Hwt.
  destruct (router_parks pi w dst ttl j e) as (x & q & w' & Hx & E & Hwq & Hpq & H'); [done..|].
  exists x, q, w'. split_and!; [done..|].
  rewrite (parked_of_proper _ _ H' : parked_of w' = packet q), Hpq.
  eapply parked_waits; [done..|exact (interfaces_of_proper _ _ H')|exact (table_of_proper _ _ H')|done].
Qed.

Lemma router_parks_packet_witness :
  ∃ w', router_handle_packet (received 0 transit_packet) (sample_world [] []) = Ok tt w' ∧
    parked_of w' = [waiting (received 0 transit_packet) 1 ip_peer (Timeval 500 0)].
Proof.
  destruct (router_parks_packet (received 0 transit_packet) (sample_world [] []) ip_peer 65 1 route1)
    as (x & q & w' & Hx & E & _ & Hpk & Hw & _).
  - apply sample_wf. constructor.
  - apply transit_packet_wf.
  - vm_compute. reflexivity.
  - apply transit_packet_transit.
  - lia.
  - apply route1_best.
  - reflexivity.
  - apply queue_of_wf.
  - constructor.
  - exists w'. split; [exact E|]. etrans; [exact (parked_of_proper _ _ Hw)|exact Hpk].
Defined.

(** * Error reports *)

(** C11: a packet in transit of at least 42 bytes whose time to live is used up,
    and whose source the router can reach (a route back over which the next hop
    has a known hardware address), is not forwarded: the source gets one ICMP time-exceeded message instead, sent from the
    address of the interface towards it, with a header that verifies, a valid
    ICMP checksum and a quote of the IPv4 header and the 8 bytes behind it. *)
Theorem router_reports_expired_ttl pi w dst ttl src j e x k a :
  wf_world w → wf_packet pi → 42 <= pi_len pi → eth_type (pi_packet pi) = Some (htons ETH_IP_TYPE) →
  transit pi w dst ttl → ttl <= 1 → ip_get "src_ip" (pi_packet pi) = Some src →
  answerable w src j e x k a →
  ∃ q w', router_handle_packet pi w = Ok tt w' ∧
    error_message (pi_packet pi) q ICMP_TYPE_TIME_EXCEEDED 0 (if_ip x) src ∧
    w' ≡ set_w_out (w_out w ++ [ip_frame (rt_interface e) (arp_mac a) (if_mac x) q]) w.
Proof.
  intros Hw Hp H42 Ht Htr Httl Hsrc Han. rewrite handle_ip by done.
  change (ip_onreceive pi w) with (ip_onreceive_body (ip_onreceive_fuel 1) pi w).
  rewrite (ip_onreceive_transit _ _ _ dst ttl) by done. unfold ip_forward.
  mstep (tr_ttl _ _ _ _ Htr). destruct (Z.leb_spec ttl 1); [|lia].
  destruct Hp as [Hb Hl _].
  destruct (icmp_send_delivers (ip_onreceive_fuel 0) (pi_packet pi) NO_SRC ICMP_TYPE_TIME_EXCEEDED 0 w
    src j e x k a) as (q & w' & Hem & _ & E & Hq); [done|done|lia|done|by vm_compute..|done|].
  by exists q, w'.
Qed.

(** a packet without a route is not forwarded either: its source gets one
    ICMP host-unreachable message.  The address the message claims to come from
    is the one stored behind the last interface, memory the router never
    initialised, unless it happens to be all ones. *)
Theorem router_reports_no_route pi w dst ttl src j e x k a :
  wf_world w → wf_packet pi → 42 <= pi_len pi → eth_type (pi_packet pi) = Some (htons ETH_IP_TYPE) →
  transit pi w dst ttl → 1 < ttl → best_match dst (table_of w) None →
  ip_get "src_ip" (pi_packet pi) = Some src → answerable w src j e x k a →
  ∃ q w', router_handle_packet pi w = Ok tt w' ∧
    error_message (pi_packet pi) q ICMP_TYPE_DST_UNREACH ICMP_CODE_HOST_UNREACH
      (if u32 (w_junk w 0) =? NO_SRC then if_ip x else u32 (w_junk w 0)) src ∧
    w' ≡ set_w_out (w_out w ++ [ip_frame (rt_interface e) (arp_mac a) (if_mac x) q]) w.
Proof.
  intros Hw Hp H42 Ht Htr Httl Hno Hsrc Han. rewrite handle_ip by done.
  change (ip_onreceive pi w) with (ip_onreceive_body (ip_onreceive_fuel 1) pi w).
  rewrite (ip_onreceive_transit _ _ _ dst ttl) by done. unfold ip_forward.
  mstep (tr_ttl _ _ _ _ Htr). destruct (Z.leb_spec ttl 1); [lia|]. mstep (tr_dst _ _ _ _ Htr).
  destruct (lookup_route_equiv dst w) as (r & w1 & E1 & H1 & Hb1); [by apply ww_table|].
  mstep E1. rewrite (best_match_unique _ _ _ _ Hb1 Hno). mrun.
  assert (interface_slot_ip (length (interfaces (w_router w1))) w1 = Ok (u32 (w_junk w 0)) w1) as Es.
  { unfold interface_slot_ip. mrun. rewrite lookup_ge_None_2 by lia.
    unfold junk32. by rewrite (w_junk_proper _ _ H1). }
  mstep Es. destruct Hp as [Hb Hl _]. destruct Han as [A1 A2 A3 A4].
  destruct (interface_equiv w w1 _ _ (symmetry H1) A2) as (x1 & Hx1 & Hpl).
  apply plain_fields in Hpl as (_ & Hm & Hi & _).
  destruct (icmp_send_delivers (ip_onreceive_fuel 0) (pi_packet pi) (u32 (w_junk w 0))
    ICMP_TYPE_DST_UNREACH ICMP_CODE_HOST_UNREACH w1 src j e x1 k a) as (q & w' & Hem & _ & E & Hq);
    [by rewrite H1|done|lia|done|apply u32_range|done|done| |].
  { split; [by rewrite H1|done|by rewrite (cache_of_proper _ _ H1)|].
    assert (Forall (λ y, if_ip y ≠ src) (interfaces_of w1)) as Hall
      by (rewrite (interfaces_of_proper _ _ H1); by apply Forall_fmap).
    unfold interfaces_of in Hall. rewrite Forall_fmap in Hall. exact Hall. }
  exists q, w'. rewrite Hi in Hem. split_and!; [done..|].
  by rewrite Hq, Hm, (w_out_proper _ _ H1), H1.
Qed.

(** The host of the samples can be told about errors. *)
Definition known_host : arp_cache_entry := ArpEntry ip_host mac_host (Timeval 1000 0).

Lemma known_host_wf : wf_macs [known_host].
Proof. repeat constructor; done. Qed.

Lemma host_answerable : answerable (sample_world [known_host] []) ip_host 0 route0 eth0 0 known_host.
Proof.
  split; [|done|done|repeat constructor; vm_compute; discriminate].
  split_and!; [done|done|by vm_compute|].
  intros [|[|j]] e' He Hm; vm_compute in He; [injection He as <-..|discriminate He].
  - split; [done|lia].
  - vm_compute in Hm. discriminate Hm.
Qed.

Definition far_packet : list Z := sample_packet ip_host ip_far 17 udp_body.
Definition old_packet : list Z :=
  default [] (p ← ip_set "ttl" transit_packet 1; ip_fill_checksum p).

Lemma router_reports_expired_ttl_witness :
  ∃ q w', router_handle_packet (received 0 old_packet) (sample_world [known_host] []) = Ok tt w' ∧
    w_out w' = [ip_frame 0 mac_host mac0 q] ∧ icmp_get "type" q = Some ICMP_TYPE_TIME_EXCEEDED.
Proof.
  destruct (router_reports_expired_ttl (received 0 old_packet) (sample_world [known_host] []) ip_peer 1
    ip_host 0 route0 eth0 0 known_host) as (q & w' & E & Hem & Hw).
  - apply sample_wf, known_host_wf.
  - apply wf_packet_check; vm_compute; [reflexivity|split; [discriminate|reflexivity]].
  - vm_compute. discriminate.
  - vm_compute. reflexivity.
  - split; [by vm_compute..| |].
    + intros [H _]. vm_compute in H. discriminate H.
    + repeat constructor; vm_compute; discriminate.
  - lia.
  - vm_compute. reflexivity.
  - apply host_answerable.
  - exists q, w'. rewrite (w_out_proper _ _ Hw). split; [exact E|]. split; [reflexivity|apply Hem].
Defined.

Lemma router_reports_no_route_witness :
  ∃ q w', router_handle_packet (received 0 far_packet) (sample_world [known_host] []) = Ok tt w' ∧
    w_out w' = [ip_frame 0 mac_host mac0 q] ∧ ip_get "src_ip" q = Some 0.
Proof.
  destruct (router_reports_no_route (received 0 far_packet) (sample_world [known_host] []) ip_far 65
    ip_host 0 route0 eth0 0 known_host) as (q & w' & E & Hem & Hw).
  - apply sample_wf, known_host_wf.
  - apply wf_packet_check; vm_compute; [reflexivity|split; [discriminate|reflexivity]].
  - vm_compute. discriminate.
  - vm_compute. reflexivity.
  - split; [by vm_compute..| |].
    + intros [H _]. vm_compute in H. discriminate H.
    + repeat constructor; vm_compute; discriminate.
  - lia.
  - intros [|[|j]] e' He Hm; vm_compute in He; [injection He as <-..|discriminate He];
      vm_compute in Hm; discriminate Hm.
  - vm_compute. reflexivity.
  - apply host_answerable.
  - exists q, w'. rewrite (w_out_proper _ _ Hw). split; [exact E|]. split; [reflexivity|apply Hem].
Defined.

(** * ARP *)

(** An Ethernet header of type ARP. *)
Definition arp_eth (eth : list Z) : Prop := length eth = 14%nat ∧ drop 12 eth = [8; 6].

Lemma handle_arp i eth opcode tip tmac sip smac pad w :
  arp_eth eth → length tmac = 6%nat → length smac = 6%nat → Z.of_nat (length pad) < 65536 →
  router_handle_packet (arp_packet i eth opcode tip tmac sip smac pad) w
  = arp_onreceive (arp_packet i eth opcode tip tmac sip smac pad) w.
Proof.
  intros [He Hty] Ht Hs Hp. unfold router_handle_packet. set (pi := arp_packet _ _ _ _ _ _ _ _).
  assert (pi_len pi = 42 + Z.of_nat (length pad)) as Hl.
  { unfold pi, arp_packet, arp_bytes. cbn [pi_len].
    rewrite !length_app, !length_le_split, He, Ht, Hs. simpl. lia. }
  rewrite Hl. rewrite can_marshall by (simpl; lia).
  assert (eth_type (pi_packet pi) = Some (htons ETH_ARP_TYPE)) as Hety.
  { unfold pi, arp_packet, eth_type. cbn [pi_packet].
    rewrite <-(take_drop 12 eth), Hty, <-app_assoc.
    apply (getf_app packet_ethernet_t "type" (take 12 eth) [8; 6]); [|done|done].
    by rewrite length_take, He. }
  mstep Hety. change (ntohs (htons ETH_ARP_TYPE) =? ETH_ARP_TYPE) with true. cbv iota.
  by rewrite can_marshall by (cbn; lia).
Qed.

(** an ARP request for the address of the interface it came in on is
    answered by exactly one frame on that interface, a reply addressed to the
    sender that carries the address pair of the interface; the pair of the
    sender is recorded in the cache.  No waiting packet leaves, not even one
    that waits for the sender: the reply is written over the request before the
    sender address is read, so the queue is served for the router's own
    address. *)
Theorem router_answers_arp_request w i x eth tip tmac sip smac pad :
  wf_world w → arp_eth eth → wf_arp_input w i x eth tmac smac pad tip sip → if_ip x = tip →
  wf_queue sizeof_iparp_buffer_entry (iparp_buffer (w_router w)) → Forall (waits w) (parked_of w) →
  Forall (λ ent, ib_dest ent ≠ tip) (parked_of w) →
  ∃ w', router_handle_packet (arp_packet i eth ARP_OPCODE_REQUEST tip tmac sip smac pad) w = Ok tt w' ∧
    w_out w' = w_out w ++ [arp_frame i ARP_OP_REPLY sip smac smac tip (if_mac x) pad] ∧
    parked_of w' = parked_of w ∧
    cache_of w' = put_list sip smac (deadline ARP_CACHE_TIMEOUT_REQUEST (w_clock w (w_ticks w)))
                    (cache_of w).
Proof.
  intros Hw He Hai Hip Hq Hwt Hne. rewrite handle_arp by (done || apply Hai).
  by apply arp_request_keeps.
Qed.

Definition eth_header : list Z := MAC_BROADCAST ++ mac_host ++ [8; 6].

Lemma sample_arp_input w i x tmac smac tip sip :
  wf_cache (arp_cache (w_router w)) → interfaces (w_router w) !! i = Some x →
  length (if_mac x) = 6%nat → length tmac = 6%nat → wf_mac smac → is_u32 tip → is_u32 sip →
  wf_arp_input w i x eth_header tmac smac [] tip sip.
Proof. intros. by split. Qed.

(** Two packets that wait for the same next hop. *)
Definition waiting_packet : iparp_buffer_entry :=
  waiting (received 0 transit_packet) 1 ip_peer (Timeval 500 0).
Definition second_packet : iparp_buffer_entry :=
  waiting (received 0 transit_packet) 1 ip_peer (Timeval 501 0).

Lemma waiting_packets_wait cache parked :
  Forall (waits (sample_world cache parked)) [waiting_packet; second_packet].
Proof.
  assert (∀ now, waits (sample_world cache parked) (waiting (received 0 transit_packet) 1 ip_peer now))
    as H; [|repeat constructor; apply H].
  intros now. exists ip_peer, 65, 1%nat, route1.
  split; [reflexivity|apply transit_packet_wf|apply transit_packet_transit|lia|apply route1_best
    |reflexivity..].
Qed.

Lemma mac_peer_wf : wf_mac mac_peer.
Proof. split; [done|repeat constructor; done]. Qed.

Lemma router_answers_arp_request_witness :
  ∃ w', router_handle_packet
      (arp_packet 1 eth_header ARP_OPCODE_REQUEST ip1 MAC_ZERO ip_peer mac_peer [])
      (sample_world [] [waiting_packet; second_packet]) = Ok tt w' ∧
    w_out w' = [arp_frame 1 ARP_OP_REPLY ip_peer mac_peer mac_peer ip1 mac1 []] ∧
    parked_of w' = [waiting_packet; second_packet].
Proof.
  destruct (router_answers_arp_request (sample_world [] [waiting_packet; second_packet]) 1 eth1
    eth_header ip1 MAC_ZERO ip_peer mac_peer []) as (w' & E & Ho & Hp & _).
  - apply (sample_wf [] [waiting_packet; second_packet]). constructor.
  - split; reflexivity.
  - apply sample_arp_input; [apply queue_of_wf|reflexivity|reflexivity|reflexivity|apply mac_peer_wf
      |vm_compute; split; discriminate || reflexivity..].
  - reflexivity.
  - apply queue_of_wf.
  - apply waiting_packets_wait.
  - repeat constructor; vm_compute; discriminate.
  - exists w'. split; [exact E|]. split; [exact Ho|exact Hp].
Defined.

(** C9: packets that wait for a next hop leave when its ARP reply comes in.  On
    any queue of waiting packets, those that wait for the replying station go
    out, in their order, by the interface of their route and to the hardware
    address in the reply, with the time to live decremented and the header
    otherwise as it was received; they leave the queue, the others stay.  The
    loop passes over the packet behind one that was sent, which stays even if
    it waits for the same station.  The cache must not bind the replying
    address to another station. *)
Theorem arp_reply_releases_packets w i x eth tip sip smac pad :
  wf_world w → arp_eth eth → wf_arp_input w i x eth (if_mac x) smac pad tip sip → if_ip x = tip →
  (smac ∈ arp_mac <$> cache_of w → Forall (λ c, arp_ip c = sip → arp_mac c = smac) (cache_of w)) →
  wf_queue sizeof_iparp_buffer_entry (iparp_buffer (w_router w)) → Forall (waits w) (parked_of w) →
  ∃ frames w',
    router_handle_packet (arp_packet i eth ARP_OPCODE_REPLAY tip (if_mac x) sip smac pad) w = Ok tt w' ∧
    parked_of w' = Spec.remove_skip (waits_for sip) (parked_of w) ∧ w_out w' = w_out w ++ frames ∧
    Forall2 (released w smac) (taken_out (waits_for sip) (parked_of w)) frames.
Proof.
  intros Hw He Hai Hip Hun Hq Hwt. rewrite handle_arp by (done || apply Hai).
  by apply arp_reply_releases.
Qed.

Lemma arp_reply_releases_packets_witness :
  ∃ fr w', router_handle_packet
      (arp_packet 1 eth_header ARP_OPCODE_REPLAY ip1 mac1 ip_peer mac_peer [])
      (sample_world [] [waiting_packet; second_packet]) = Ok tt w' ∧
    parked_of w' = [second_packet] ∧ w_out w' = [fr].
Proof.
  destruct (arp_reply_releases_packets (sample_world [] [waiting_packet; second_packet]) 1 eth1
    eth_header ip1 ip_peer mac_peer []) as (frames & w' & E & Hp & Ho & Hf).
  - apply (sample_wf [] [waiting_packet; second_packet]). constructor.
  - split; reflexivity.
  - apply sample_arp_input; [apply queue_of_wf|reflexivity|reflexivity|reflexivity|apply mac_peer_wf
      |vm_compute; split; discriminate || reflexivity..].
  - reflexivity.
  - intros _. constructor.
  - apply queue_of_wf.
  - apply waiting_packets_wait.
  - change (taken_out (waits_for ip_peer) _) with [waiting_packet] in Hf.
    inversion Hf as [|? fr ? ? _ Hnil]; subst. inversion Hnil; subst. exists fr, w'.
    split; [exact E|]. split; [exact Hp|exact Ho].
Defined.

(** C10: address resolution from end to end.  A packet in transit whose next hop
    has no known hardware address, and for which no other packet is waiting
    yet, makes the router send one ARP request; when the next hop answers it on
    the outgoing interface, the packet, one hop further, goes to the hardware
    address of the answer, and the packets that wait for other stations are
    waiting as before. *)
Theorem packet_resolved_and_sent pi w dst ttl j e x eth smac pad :
  wf_world w → wf_packet pi → eth_type (pi_packet pi) = Some (htons ETH_IP_TYPE) →
  transit pi w dst ttl → 1 < ttl → best_match dst (table_of w) (Some (j, e)) →
  Spec.find_from (by_ip (next_hop_of e dst)) 0 (cache_of w) = None →
  wf_queue sizeof_iparp_buffer_entry (iparp_buffer (w_router w)) → Forall (waits w) (parked_of w) →
  Forall (λ ent, ib_dest ent ≠ next_hop_of e dst) (parked_of w) →
  interfaces (w_router w) !! rt_interface e = Some x → arp_eth eth →
  wf_arp_input w (rt_interface e) x eth (if_mac x) smac pad (if_ip x) (next_hop_of e dst) →
  ∃ w1 w2 p', router_handle_packet pi w = Ok tt w1 ∧
    router_handle_packet (arp_packet (rt_interface e) eth ARP_OPCODE_REPLAY (if_ip x) (if_mac x)
                            (next_hop_of e dst) smac pad) w1 = Ok tt w2 ∧
    forwarded (pi_packet pi) p' ttl ∧ parked_of w2 = parked_of w ∧
    w_out w2 = w_out w ++
      [arp_frame (rt_interface e) ARP_OPCODE_REQUEST (next_hop_of e dst) MAC_BROADCAST MAC_BROADCAST
         (if_ip x) (if_mac x) []; ip_frame (rt_interface e) smac (if_mac x) p'].
Proof.
  intros Hw Hp Ht Htr Httl Hb Ha Hq Hwt Hpk Hx He Hai.
  destruct (router_parks pi w dst ttl j e) as (x0 & q & w1 & Hx0 & E & Hwq & Hpq & H1); [done..|].
  rewrite Hx in Hx0. injection Hx0 as <-.
  assert (interfaces_of w1 = interfaces_of w) as Hifs by exact (interfaces_of_proper _ _ H1).
  assert (parked_of w1 = packet q) as Hp1 by exact (parked_of_proper _ _ H1).
  rewrite Hpq in Hp1.
  destruct (interface_same w w1 (rt_interface e) x Hifs Hx) as (x1 & Hx1 & Hpl).
  apply plain_fields in Hpl as (_ & Hm1 & Hi1 & _).
  destruct (arp_reply_releases w1 (rt_interface e) x1 eth (if_ip x) (next_hop_of e dst) smac pad)
    as (frames & w2 & E2 & P1 & P2 & P3).
  - rewrite H1. destruct Hw as [? ? ? ? ?]. by split.
  - rewrite Hm1. destruct Hai. split; [|done|congruence|done..].
    eapply wf_erase; [|exact (ww_cache _ Hw)]. symmetry.
    exact (f_equal arp_cache (erase_router_eq _ _ H1)).
  - done.
  - intros _. apply find_from_None in Ha. rewrite (cache_of_proper _ _ H1 : cache_of w1 = cache_of w).
    eapply Forall_impl; [exact Ha|]. intros c Hc ?. exfalso. by apply Z.eqb_neq in Hc.
  - eapply wf_erase; [|exact Hwq]. symmetry. exact (f_equal iparp_buffer (erase_router_eq _ _ H1)).
  - rewrite Hp1. by eapply parked_waits; [done..|exact (table_of_proper _ _ H1)|].
  - assert (Forall (λ ent, waits_for (next_hop_of e dst) ent = false) (parked_of w)) as Hno.
    { eapply Forall_impl; [exact Hpk|]. intros ent. apply Z.eqb_neq. }
    rewrite Hp1 in P1, P3. rewrite remove_skip_last in P1 by (done || apply Z.eqb_refl).
    rewrite taken_out_last in P3 by (done || apply Z.eqb_refl).
    inversion P3 as [|? fr ? ? (i & y & t & p' & Hin & Hy & Hty & Hf & ->) Hnil]; subst.
    inversion Hnil; subst. injection Hin as <-. exists w1, w2, p'.
    rewrite Hifs in Hy. unfold interfaces_of in Hy. rewrite list_lookup_fmap, Hx in Hy.
    injection Hy as <-. cbn [ib_pi waiting] in Hty, Hf. rewrite (tr_ttl _ _ _ _ Htr) in Hty. injection Hty as <-.
    rewrite Hm1 in E2. rewrite handle_arp by (done || apply Hai). split_and!; [done..|].
    rewrite P2, (w_out_proper _ _ H1). cbn [w_out set_w_out]. by rewrite <-app_assoc.
Qed.

(** A packet for another station of the same subnet, in the queue. *)
Definition other_dst : Z := IP_CONVERT 10 0 1 77.
Definition other_packet : iparp_buffer_entry :=
  waiting (received 0 (sample_packet ip_host other_dst 17 udp_body)) 1 other_dst (Timeval 500 0).

Lemma other_packet_waits : Forall (waits (sample_world [] [other_packet])) [other_packet].
Proof.
  repeat constructor. exists other_dst, 65, 1%nat, route1. split.
  - reflexivity.
  - apply wf_packet_check; vm_compute; [reflexivity|split; [discriminate|reflexivity]].
  - split; [by vm_compute..| |].
    + intros [H _]. vm_compute in H. discriminate H.
    + repeat constructor; vm_compute; discriminate.
  - lia.
  - split_and!; [done|done|by vm_compute|].
    intros [|[|j]] e' He Hm; vm_compute in He; [injection He as <-..|discriminate He].
    + vm_compute in Hm. discriminate Hm.
    + split; [done|lia].
  - reflexivity.
  - reflexivity.
Qed.

Lemma packet_resolved_and_sent_witness :
  ∃ w1 w2 p', router_handle_packet (received 0 transit_packet) (sample_world [] [other_packet]) = Ok tt w1 ∧
    router_handle_packet (arp_packet 1 eth_header ARP_OPCODE_REPLAY ip1 mac1 ip_peer mac_peer []) w1
    = Ok tt w2 ∧ w_out w2 !! 1%nat = Some (ip_frame 1 mac_peer mac1 p') ∧ parked_of w2 = [other_packet].
Proof.
  destruct (packet_resolved_and_sent (received 0 transit_packet) (sample_world [] [other_packet]) ip_peer
    65 1 route1 eth1 eth_header mac_peer []) as (w1 & w2 & p' & E1 & E2 & _ & Hpk & Ho).
  - apply (sample_wf [] [other_packet]). constructor.
  - apply transit_packet_wf.
  - vm_compute. reflexivity.
  - apply transit_packet_transit.
  - lia.
  - apply route1_best.
  - reflexivity.
  - apply queue_of_wf.
  - apply other_packet_waits.
  - repeat constructor; vm_compute; discriminate.
  - reflexivity.
  - split; reflexivity.
  - apply sample_arp_input; [apply queue_of_wf|reflexivity|reflexivity|reflexivity|apply mac_peer_wf
      |vm_compute; split; discriminate || reflexivity..].
  - exists w1, w2, p'. split; [exact E1|]. split; [exact E2|]. rewrite Ho, Hpk. split; reflexivity.
Defined.

(** * Instances of the theorems on ICMP *)

Lemma ip_onreceive_answers_echo_witness :
  ∃ p', ip_onreceive (received 0 ping_packet) (sample_world [] [])
    = Ok tt (set_w_out [Frame 0 p'] (set_w_ip_id 8 (sample_world [] []))) ∧
    icmp_get "type" p' = Some ICMP_TYPE_REPLAY.
Proof.
  destruct (ip_onreceive_answers_echo (received 0 ping_packet) 0 (sample_world [] []) ip_host ip0 65)
    as (p' & E & Ha).
  - apply ping_packet_wf.
  - vm_compute. discriminate.
  - reflexivity.
  - vm_compute. reflexivity.
  - left.
  - vm_compute. reflexivity.
  - vm_compute. reflexivity.
  - vm_compute. reflexivity.
  - lia.
  - vm_compute. reflexivity.
  - vm_compute. reflexivity.
  - exists p'. split; [exact E|apply Ha].
Defined.

Lemma ip_onreceive_recursion_bounded_witness :
  ip_onreceive_body (ip_onreceive_body (λ _, throw Die)) (received 0 far_packet)
    (sample_world [known_host] [])
  = ip_onreceive (received 0 far_packet) (sample_world [known_host] []).
Proof.
  apply ip_onreceive_recursion_bounded.
  - apply sample_wf, known_host_wf.
  - apply wp_bytes, wf_packet_check; vm_compute; [reflexivity|split; [discriminate|reflexivity]].
Defined.
