(* ===== verification/DijkstraProps.v ===== *)
(** Properties of the shortest-path computation and of the rebuilt routing
    table. *)

From stdpp Require Import base tactics list numbers strings.
From Stdlib Require Import ZArith Lia.
From S2P Require Import Prelude Dataqueue Common Packets State Loops Ethernet Arp Routing.
From S2P Require Import IpHeader Ping Dijkstra ShortestPath DijkstraSpec Pwospf PwospfInput Dns.
From S2P Require Import Ip ArpInput Router IpSpec IcmpSpec Samples.

Local Open Scope Z_scope.

(** C7: on the adjacency matrix of a graph the algorithm always ends with a
    distance for every vertex: the length of a shortest walk from the source,
    or [INT_MAX] exactly when the vertex cannot be reached.  In particular
    [minDistance] always finds a vertex, so the index it returns is never read
    uninitialised, and no addition overflows. *)
Theorem dijkstra_computes_distances graph V s :
  (s < V)%nat → unit_graph graph → Z.of_nat V + 1 < INT_MAX →
  ∃ dist, dijkstra_from graph V s = Some dist ∧ length dist = V ∧
    ∀ v, (v < V)%nat → is_distance graph V s v (nth v dist 0).
Proof. intros Hs Hu HV. by apply dijkstra_from_correct. Qed.

Lemma dijkstra_computes_distances_witness :
  ∃ dist, dijkstra_from [[0; 1; 0; 0]; [1; 0; 1; 0]; [0; 1; 0; 0]; [0; 0; 0; 0]] 4 0 = Some dist ∧
    dist = [0; 1; 2; INT_MAX] ∧
    is_distance [[0; 1; 0; 0]; [1; 0; 1; 0]; [0; 1; 0; 0]; [0; 0; 0; 0]] 4 0 2 2.
Proof.
  destruct (dijkstra_computes_distances [[0; 1; 0; 0]; [1; 0; 1; 0]; [0; 1; 0; 0]; [0; 0; 0; 0]] 4 0)
    as (dist & E & _ & H).
  - lia.
  - intros [|[|[|[|[|u]]]]] [|[|[|[|[|v]]]]]; first [left; reflexivity|right; reflexivity].
  - vm_compute. reflexivity.
  - exists dist. vm_compute in E. injection E as <-. split; [reflexivity|]. split; [reflexivity|].
    exact (H 2%nat ltac:(lia)).
Defined.

(** C2: the rebuilt routing table.  From any consistent link state database,
    with at least one static route, [djikstra_recompute] succeeds and leaves a
    table that is sorted by netmask and free of duplicates, keeps every static
    route, and otherwise consists of dynamic routes: each leads to a known
    subnet over the first of the interfaces from which the number of hops is
    least, its metric is that number, and its next hop is a neighbour on that
    interface in direct reach that has advertised links (the last such one in
    the interface's list, 0 when there is none).  Every known subnet that can
    be reached has a nearest interface, and a dynamic route over it unless its
    number, whatever its netmask, is that of the subnet of this interface.  All
    routes name an existing interface, and outside the table nothing changes
    but mutexes. *)
Theorem djikstra_recompute_correct w :
  wf_topology (w_router w) → route_interfaces_ok (w_router w) →
  static_of (packet (ip_table (w_router w))) ≠ [] →
  ∃ q, djikstra_recompute w = Ok tt (after_recompute q w) ∧ wf_table q ∧
       routes_bound (length (interfaces (w_router w))) (packet q) ∧
       recomputed (w_router w) (packet (ip_table (w_router w))) (packet q).
Proof. apply djikstra_recompute_run. Qed.

(** A neighbour on the second interface that advertises a third subnet. *)
Definition far_subnet : Z := IP_CONVERT 10 0 7 0.

Definition neighbour_router : pwospf_list_entry :=
  ListEntry ip_peer ip_peer 5 (Timeval 500 0) 1 1
    (LsaArray [Lsa (IP_CONVERT 10 0 1 0) mask24 ip_peer; Lsa far_subnet mask24 ip_peer]) 2 (Timeval 500 0).

Definition ospf_world : world :=
  set_w_router
    (set_interfaces [eth0; set_if_neighbours (queue_of sizeof_pwospf_list_entry [neighbour_router]) eth1]
       (sample_router [] [route0; route1] [])) (sample_world [] []).

Lemma djikstra_recompute_correct_witness :
  ∃ q, djikstra_recompute ospf_world = Ok tt (after_recompute q ospf_world) ∧
    RtEntry ip_peer far_subnet mask24 1 1 true 0 ∈ packet q.
Proof.
  destruct (djikstra_recompute_correct ospf_world) as (q & E & _ & _ & _).
  - split_and!; [|by vm_compute..]. repeat constructor; vm_compute; done.
  - split; [split; [apply queue_of_wf|repeat constructor; vm_compute; done]|].
    repeat constructor; vm_compute; lia.
  - discriminate.
  - exists q. split; [exact E|].
    apply (f_equal (λ o, match o with Ok _ w => packet (ip_table (w_router w)) | Fault _ => [] end)) in E.
    change (packet q) with (packet (ip_table (w_router (after_recompute q ospf_world)))).
    cbv beta iota in E. rewrite <-E. apply (bool_decide_eq_true_1 _). vm_compute. reflexivity.
Defined.

(** Two neighbours on one interface: the route to the subnet that only the
    first of them has advertised goes through the second. *)
Definition ip_second : Z := IP_CONVERT 10 0 1 3.

Definition second_router : pwospf_list_entry :=
  ListEntry ip_second ip_second 5 (Timeval 500 0) 1 1
    (LsaArray [Lsa (IP_CONVERT 10 0 1 0) mask24 ip_second; Lsa (IP_CONVERT 10 0 8 0) mask24 ip_second])
    2 (Timeval 500 0).

Definition shared_world : world :=
  set_w_router
    (set_interfaces [eth0; set_if_neighbours
                             (queue_of sizeof_pwospf_list_entry [neighbour_router; second_router]) eth1]
       (sample_router [] [route0; route1] [])) (sample_world [] []).

Example recompute_takes_last_neighbour :
  (far_subnet ∉ lsa_subnet <$> lsas_of second_router) ∧
  match djikstra_recompute shared_world with
  | Ok _ w => filter (λ e, subnet e = far_subnet) (packet (ip_table (w_router w)))
              = [RtEntry ip_second far_subnet mask24 1 1 true 0]
  | Fault _ => False
  end.
Proof. split; [apply (bool_decide_eq_true_1 _)|]; by vm_compute. Qed.

(** A subnet with the number of the nearest interface's own and another
    netmask gets no route, though it can be reached. *)
Definition wider_router : pwospf_list_entry :=
  ListEntry ip_peer ip_peer 5 (Timeval 500 0) 1 1
    (LsaArray [Lsa (IP_CONVERT 10 0 1 0) mask24 ip_peer; Lsa far_subnet mask24 ip_peer;
               Lsa (IP_CONVERT 10 0 1 0) (IP_CONVERT 255 255 0 0) ip_peer]) 3 (Timeval 500 0).

Definition wider_world : world :=
  set_w_router
    (set_interfaces [eth0; set_if_neighbours (queue_of sizeof_pwospf_list_entry [wider_router]) eth1]
       (sample_router [] [route0; route1] [])) (sample_world [] []).

Example recompute_ignores_netmask :
  DLink (IP_CONVERT 10 0 1 0) (IP_CONVERT 255 255 0 0) ∈ known_subnets (w_router wider_world) ∧
  match djikstra_recompute wider_world with
  | Ok _ w => filter (λ e, netmask e = IP_CONVERT 255 255 0 0) (packet (ip_table (w_router w))) = []
  | Fault _ => False
  end.
Proof. split; [apply (bool_decide_eq_true_1 _)|]; by vm_compute. Qed.
