(* ===== verification/PingProps.v ===== *)
(** Properties of the pings of the command line. *)

From stdpp Require Import base tactics list numbers strings.
From Stdlib Require Import ZArith Lia Sorted.
From S2P Require Import Prelude Dataqueue Common Packets State Loops Ethernet Arp Routing.
From S2P Require Import IpHeader Ping Dijkstra Pwospf PwospfInput Dns Ip ArpInput Router IpSpec.
From S2P Require Import IcmpSpec Samples TableProps PacketProps.

Local Open Scope Z_scope.

Definition pings_of (w : world) : list ping := ping_list (w_cli w).

(** an echo request that was sent is remembered once, with the current
    sequence number in network order and a deadline one second ahead, at its
    place in the list, which stays sorted by deadline; the sequence number
    advances modulo 2^16. *)
Theorem enqueue_ping_keeps_order fd ip w :
  pings_sorted (pings_of w) →
  ∃ w' p, enqueue_ping fd ip w = Ok tt w' ∧ pings_sorted (pings_of w') ∧
    pings_of w' ≡ₚ p :: pings_of w ∧
    p = Ping fd ip (htons (ping_count (w_cli w))) (w_clock w (w_ticks w))
          (time_add_usec (w_clock w (S (w_ticks w))) PING_MAX_WAIT_FOR_REPLY_USEC) ∧
    ping_count (w_cli w') = u16 (ping_count (w_cli w) + 1) ∧ w_out w' = w_out w.
Proof.
  intros Hs. unfold enqueue_ping, get_cli, modify_cli, gettimeofday, mbind, M_bind. cbv beta iota zeta.
  eexists _, _. split; [reflexivity|]. split_and!.
  - by apply insert_ping_sorted.
  - apply insert_ping_Permutation.
  - reflexivity.
  - reflexivity.
  - reflexivity.
Qed.

Definition first_ping : ping := Ping 3 ip_host (htons 0) (Timeval 500 0) (Timeval 501 0).
Definition second_ping : ping := Ping 3 ip_peer (htons 1) (Timeval 502 0) (Timeval 503 0).

Definition ping_world (l : list ping) (now : timeval) : world :=
  World (sample_router [known_host] [route0; route1] []) 7 0 (Cli l 2 false []) [] [] (λ n, now) 0
    (λ n, 0) 0.

Lemma pings_sorted_two : pings_sorted [first_ping; second_ping].
Proof. repeat constructor. Qed.

Lemma enqueue_ping_keeps_order_witness :
  ∃ w', enqueue_ping 3 ip_far (ping_world [first_ping; second_ping] (Timeval 501 0)) = Ok tt w' ∧
    pings_of w' = [first_ping; Ping 3 ip_far (htons 2) (Timeval 501 0) (Timeval 502 0); second_ping].
Proof.
  destruct (enqueue_ping_keeps_order 3 ip_far (ping_world [first_ping; second_ping] (Timeval 501 0)))
    as (w' & p & E & _).
  - apply pings_sorted_two.
  - exists w'. split; [exact E|]. vm_compute in E. injection E as <-. reflexivity.
Defined.

(** a round of the scrubber removes exactly the requests whose deadline
    has passed and reports each of them as timed out, in the order of their
    deadlines; the others stay. *)
Theorem scrubber_removes_expired w :
  pings_sorted (pings_of w) → pings_of w ≠ [] → router_shutdown (w_cli w) = false →
  let now := w_clock w (w_ticks w) in
  let late p := is_later now (expire_time p) in
  ∃ t w', cli_ping_scrubber_round w = Ok t w' ∧
    pings_of w' = filter (λ p, late p = false) (pings_of w) ∧
    feedback (w_cli w') = feedback (w_cli w)
      ++ (PingTimeout <$> filter (λ p, late p = true) (pings_of w)).
Proof.
  intros Hs Hne Hsd now late. unfold cli_ping_scrubber_round, get_cli.
  unfold mbind at 1, M_bind at 1. unfold pings_of in *.
  destruct (ping_list (w_cli w)) as [|p l] eqn:El; [done|]. rewrite Hsd.
  mrun. fold now. set (w1 := set_w_ticks _ w).
  mstep (scrub_expired_spec now (p :: l) w1). set (w2 := cli_after _ _ _ _).
  unfold mbind, M_bind. eexists _, _. split; [reflexivity|].
  unfold w2, cli_after, late. cbn -[drop_expired]. by rewrite drop_expired_filter_live, drop_expired_filter_late.
Qed.

Lemma scrubber_removes_expired_witness :
  ∃ t w', cli_ping_scrubber_round (ping_world [first_ping; second_ping] (Timeval 502 0)) = Ok t w' ∧
    pings_of w' = [second_ping] ∧ feedback (w_cli w') = [PingTimeout first_ping].
Proof.
  destruct (scrubber_removes_expired (ping_world [first_ping; second_ping] (Timeval 502 0)))
    as (t & w' & E & Hp & Hf).
  - apply pings_sorted_two.
  - discriminate.
  - reflexivity.
  - exists t, w'. split; [exact E|]. split; [exact Hp|exact Hf].
Defined.

Lemma handle_reply_run ip seq w p rest :
  router_shutdown (w_cli w) = false → unlink_ping ip seq (pings_of w) = Some (p, rest) →
  ∃ w', cli_ping_handle_reply ip seq w = Ok (match rest with [] => 0 | _ :: _ => 1 end) w' ∧
    pings_of w' = rest ∧ feedback (w_cli w') = feedback (w_cli w) ++ [PingReply p] ∧
    w_router w' = w_router w ∧ w_out w' = w_out w.
Proof.
  intros Hsd Hu. unfold cli_ping_handle_reply, cli_ping_feedback, get_cli, modify_cli, gettimeofday,
    mbind, M_bind. cbv beta iota zeta. unfold pings_of in Hu. rewrite Hsd, Hu.
  eexists. split; [reflexivity|]. done.
Qed.

(** an echo reply is matched to the first outstanding request with its
    source address and sequence number: that one leaves the list, all others
    stay in their order, and its client is told.  The result is 0 not only
    when nothing matched but also when the matched request was the last one. *)
Theorem ping_reply_matches_request ip seq w :
  router_shutdown (w_cli w) = false →
  match unlink_ping ip seq (pings_of w) with
  | Some (p, rest) =>
      ping_dst_ip p = ip ∧ ping_seq p = seq ∧
      (∃ l1 l2, pings_of w = l1 ++ p :: l2 ∧ rest = l1 ++ l2 ∧
         Forall (λ q, ¬ (ping_dst_ip q = ip ∧ ping_seq q = seq)) l1) ∧
      ∃ w', cli_ping_handle_reply ip seq w = Ok (match rest with [] => 0 | _ :: _ => 1 end) w' ∧
        pings_of w' = rest ∧ feedback (w_cli w') = feedback (w_cli w) ++ [PingReply p]
  | None =>
      Forall (λ q, ¬ (ping_dst_ip q = ip ∧ ping_seq q = seq)) (pings_of w) ∧
      cli_ping_handle_reply ip seq w = Ok 0 w
  end.
Proof.
  intros Hsd. destruct (unlink_ping ip seq (pings_of w)) as [[p rest]|] eqn:Hu.
  - destruct (unlink_ping_Some _ _ _ _ _ Hu) as (Hip & Hseq & Hl). split_and!; [done..|].
    destruct (handle_reply_run ip seq w p rest Hsd Hu) as (w' & E & ? & ? & _). by exists w'.
  - split; [by apply unlink_ping_None|]. unfold cli_ping_handle_reply, get_cli, mbind, M_bind.
    unfold pings_of in Hu. by rewrite Hsd, Hu.
Qed.

Lemma ping_reply_matches_request_witness :
  ∃ w', cli_ping_handle_reply ip_host (htons 0) (ping_world [first_ping; second_ping] (Timeval 501 0))
    = Ok 1 w' ∧ pings_of w' = [second_ping].
Proof.
  pose proof (ping_reply_matches_request ip_host (htons 0)
    (ping_world [first_ping; second_ping] (Timeval 501 0)) eq_refl) as H.
  destruct H as (_ & _ & _ & w' & E & Hp & _). exists w'. split; [exact E|exact Hp].
Defined.

(** the reply to the last outstanding request is answered by an error.
    The client is told of the reply, but the router also sends an ICMP port
    unreachable message to the host that replied. *)
Theorem last_ping_reply_is_rejected pi w dst ttl src seq p j e x k a :
  wf_world w → wf_packet pi → 42 <= pi_len pi → ip_accepted (pi_packet pi) →
  ip_get "dst_ip" (pi_packet pi) = Some dst → dst ∈ if_ip <$> interfaces (w_router w) →
  ip_get "ttl" (pi_packet pi) = Some ttl → 0 < ttl →
  ip_get "protocol" (pi_packet pi) = Some IP_TYPE_ICMP →
  icmp_get "type" (pi_packet pi) = Some ICMP_TYPE_REPLAY →
  ip_get "src_ip" (pi_packet pi) = Some src → icmp_get "seq_num" (pi_packet pi) = Some seq →
  router_shutdown (w_cli w) = false → pings_of w = [p] → ping_dst_ip p = src → ping_seq p = seq →
  answerable w src j e x k a → dst ≠ NO_SRC →
  ∃ q w', ip_onreceive pi w = Ok tt w' ∧ pings_of w' = [] ∧
    feedback (w_cli w') = feedback (w_cli w) ++ [PingReply p] ∧
    error_message (pi_packet pi) q ICMP_TYPE_DST_UNREACH ICMP_CODE_PORT_UNREACH dst src ∧
    w_out w' = w_out w ++ [ip_frame (rt_interface e) (arp_mac a) (if_mac x) q].
Proof.
  intros Hw [Hb Hl Hh] H42 Hacc Hdst Hown Httl Hpos Hpr Hty Hsrc Hseq Hsd Hps Hpd Hpq Han Hno.
  change (ip_onreceive pi w) with (ip_onreceive_body (ip_onreceive_body (ip_onreceive_fuel 0)) pi w).
  unfold ip_onreceive_body at 1. mstep Hacc. cbn [negb]. mstep Hdst. mstep Hpr.
  change (IP_TYPE_ICMP =? IP_TYPE_OSPF) with false. rewrite andb_false_r. cbv iota. mrun.
  destruct (own_address_some _ _ Hown) as (i & y & Hy & Hyip). rewrite Hy, Hyip.
  unfold ip_local. mstep Httl. destruct (Z.leb_spec ttl 0); [lia|]. mstep Hpr. rewrite Z.eqb_refl.
  cbv iota. unfold ip_local_icmp. mstep Hty.
  change (ICMP_TYPE_REPLAY =? ICMP_TYPE_REQUEST) with false. rewrite Z.eqb_refl. cbv iota.
  mstep Hsrc. mstep Hseq.
  assert (unlink_ping src seq (pings_of w) = Some (p, [])) as Hu.
  { rewrite Hps. cbn [unlink_ping]. by rewrite Hpd, Hpq, !Z.eqb_refl. }
  destruct (handle_reply_run src seq w p [] Hsd Hu) as (w1 & E1 & Hp1 & Hf1 & Hr1 & Ho1).
  mstep E1. cbn [Z.eqb]. unfold port_unreach.
  assert (wf_world w1) as Hw1 by by eapply wf_world_router.
  assert (answerable w1 src j e x k a) as Han1.
  { destruct Han as [A1 A2 A3 A4]. unfold table_of, cache_of in *.
    split; unfold table_of, cache_of; by rewrite Hr1. }
  destruct (icmp_send_delivers (ip_onreceive_fuel 0) (pi_packet pi) dst ICMP_TYPE_DST_UNREACH
    ICMP_CODE_PORT_UNREACH w1 src j e x k a) as (q & w2 & Hem & _ & E2 & H2);
    [done|done|lia|done|by apply (ip_get_u32 "dst_ip" (pi_packet pi))|done|done|done|].
  rewrite (proj2 (Z.eqb_neq dst NO_SRC)) in Hem by done. exists q, w2.
  unfold pings_of in *. split_and!; [done| | |done|].
  - by rewrite (w_cli_proper _ _ H2).
  - by rewrite (w_cli_proper _ _ H2).
  - rewrite (w_out_proper _ _ H2). cbn. by rewrite Ho1.
Qed.

Definition reply_packet : list Z :=
  sample_packet ip_host ip0 IP_TYPE_ICMP ([ICMP_TYPE_REPLAY; 0; 0; 0; 0; 3; 0; 0] ++ replicate 56 5).

Lemma last_ping_reply_is_rejected_witness :
  ∃ q w', ip_onreceive (received 0 reply_packet) (ping_world [first_ping] (Timeval 501 0)) = Ok tt w' ∧
    feedback (w_cli w') = [PingReply first_ping] ∧
    icmp_get "type" q = Some ICMP_TYPE_DST_UNREACH ∧ w_out w' = [ip_frame 0 mac_host mac0 q].
Proof.
  destruct (last_ping_reply_is_rejected (received 0 reply_packet) (ping_world [first_ping] (Timeval 501 0))
    ip0 65 ip_host (htons 0) first_ping 0 route0 eth0 0 known_host) as (q & w' & E & _ & Hf & Hem & Ho).
  - apply (wf_world_router (sample_world [known_host] [])); [reflexivity|].
    apply sample_wf, known_host_wf.
  - apply wf_packet_check; vm_compute; [reflexivity|split; [discriminate|reflexivity]].
  - vm_compute. discriminate.
  - vm_compute. reflexivity.
  - vm_compute. reflexivity.
  - left.
  - vm_compute. reflexivity.
  - lia.
  - vm_compute. reflexivity.
  - vm_compute. reflexivity.
  - vm_compute. reflexivity.
  - vm_compute. reflexivity.
  - reflexivity.
  - reflexivity.
  - reflexivity.
  - reflexivity.
  - destruct host_answerable as [A1 A2 A3 A4]. split; [exact A1|exact A2|exact A3|exact A4].
  - vm_compute. discriminate.
  - exists q, w'. split; [exact E|]. split; [exact Hf|]. split; [apply Hem|exact Ho].
Defined.
