(* ===== verification/Trace.v ===== *)
(** The echo requests of the command [traceroute] (cli/cli_trace.c).

    The file is a copy of cli_ping.c with a list, a counter and a thread of its
    own; they are explicit here, beside the state of the router.  [tr_told] is
    what the clients were told, and [tr_sent] every request that was sent, in
    order.  The handler of replies has no caller: the call in ip.c is commented
    out, so that no step of the program below takes a request off the list but
    its deadline. *)

From stdpp Require Import base tactics relations list numbers strings.
From Stdlib Require Import ZArith Lia Sorted.
From S2P Require Import Prelude Dataqueue Common Packets State IpHeader Ping Ip Router IcmpSpec Samples PacketProps PingProps.

Local Open Scope Z_scope.

Record trace := Trace {
  tr_list : list ping;
  tr_count : Z;
  tr_told : list ping_event;
  tr_sent : list ping
}.

Definition set_tr_list (v : list ping) (t : trace) : trace := Trace v (tr_count t) (tr_told t) (tr_sent t).

Definition tell (e : ping_event) (t : trace) : trace :=
  Trace (tr_list t) (tr_count t) (tr_told t ++ [e]) (tr_sent t).

(** The static variables are zero when the program starts. *)
Definition trace_start : trace := Trace [] 0 [] [].

Definition cli_traceroute_init (t : trace) : trace := set_tr_list [] t.
Definition cli_traceroute_destroy (t : trace) : trace := set_tr_list [] t.

Definition cli_traceroute_request (fd ip : Z) (t : trace) : M trace :=
  sent ← icmp_allocate_and_send ip_onreceive ip 0 ICMP_TYPE_REQUEST PING_ID (tr_count t) [] 0 NO_SRC;
  if sent =? 0 then mret (tell (PingNoRoute fd ip) t)
  else
    send ← gettimeofday;
    expire ← gettimeofday;
    let p_new := Ping fd ip (htons (tr_count t)) send
                   (time_add_usec expire PING_MAX_WAIT_FOR_REPLY_USEC) in
    mret (Trace (insert_ping p_new (tr_list t)) (u16 (tr_count t + 1)) (tr_told t) (tr_sent t ++ [p_new])).

(** The message states the time that passed, for which the clock is read. *)
Definition cli_traceroute_feedback (p : ping) (worked : bool) (t : trace) : M trace :=
  gettimeofday;; mret (tell (if worked then PingReply p else PingTimeout p) t).

(** Called by no one; the sequence number of the message is converted, that of
    the request is not. *)
Definition cli_traceroute_handle_reply (ip seq_num : Z) (t : trace) : M trace :=
  let seq := ntohs seq_num in
  c ← get_cli;
  if router_shutdown c then mret t
  else
    match unlink_ping ip seq (tr_list t) with
    | Some (p, rest) => cli_traceroute_feedback p true (set_tr_list rest t)
    | None => mret t
    end.

(** [while (is_later(&now, &ping_list->expire_time))]. *)
Fixpoint traceroute_scrub (now : timeval) (l : list ping) (t : trace) : M trace :=
  match l with
  | [] => mret (set_tr_list [] t)
  | p :: rest =>
      if is_later now (expire_time p)
      then t ← cli_traceroute_feedback p false t; traceroute_scrub now rest t
      else mret (set_tr_list (p :: rest) t)
  end.

(** One round of the inner loop of [cli_traceroute_scrubber_main], with the
    timeout of the [select] at its end, [None] when it waits for new requests. *)
Definition cli_traceroute_scrubber_round (t : trace) : M (option timeval * trace) :=
  c ← get_cli;
  match tr_list t with
  | [] => mret (None, t)
  | l =>
      if router_shutdown c then mret (None, t)
      else
        now ← gettimeofday;
        t ← traceroute_scrub now l t;
        mret (match tr_list t with
              | [] => None
              | p :: _ => Some (scrub_timeout now (expire_time p))
              end, t)
  end.

(** What the program does with the list: a command, a round of the thread, and
    anything the rest of the router does meanwhile. *)
Inductive trace_step : trace * world → trace * world → Prop :=
  | step_request fd ip t t' w w' :
      cli_traceroute_request fd ip t w = Ok t' w' → trace_step (t, w) (t', w')
  | step_scrub o t t' w w' :
      cli_traceroute_scrubber_round t w = Ok (o, t') w' → trace_step (t, w) (t', w')
  | step_router t w w' : trace_step (t, w) (t, w').

(** * Theory *)

Definition timeouts (l : list ping_event) : list ping :=
  omap (λ e, match e with PingTimeout p => Some p | _ => None end) l.

Lemma timeouts_app l1 l2 : timeouts (l1 ++ l2) = timeouts l1 ++ timeouts l2.
Proof. apply omap_app. Qed.

Lemma timeouts_fmap l : timeouts (PingTimeout <$> l) = l.
Proof. induction l as [|p l IH]; [done|]. cbn. by f_equal. Qed.

(** Every request sent waits or has been reported late; none has been answered. *)
Record trace_ok (t : trace) : Prop := {
  tok_sorted : pings_sorted (tr_list t);
  tok_sent : tr_sent t ≡ₚ tr_list t ++ timeouts (tr_told t);
  tok_told : ∀ p, PingReply p ∉ tr_told t
}.

Definition trace_after (t : trace) (late rest : list ping) : trace :=
  Trace rest (tr_count t) (tr_told t ++ (PingTimeout <$> late)) (tr_sent t).

Lemma traceroute_scrub_spec now l t w :
  traceroute_scrub now l t w
  = Ok (trace_after t (drop_expired now l).1 (drop_expired now l).2)
      (set_w_ticks (w_ticks w + length (drop_expired now l).1)%nat w).
Proof.
  revert t w. induction l as [|p l IH]; intros t w; cbn [traceroute_scrub drop_expired].
  - unfold trace_after. destruct t, w. cbn. by rewrite app_nil_r, Nat.add_0_r.
  - destruct (is_later _ _).
    + unfold cli_traceroute_feedback, gettimeofday, mbind, M_bind. cbn [mret M_ret]. rewrite IH.
      unfold trace_after, tell. destruct t, w. cbn. by rewrite <-app_assoc, Nat.add_succ_r.
    + unfold trace_after. destruct t, w. cbn. by rewrite app_nil_r, Nat.add_0_r.
Qed.

Lemma trace_after_ok t now :
  trace_ok t → trace_ok (trace_after t (drop_expired now (tr_list t)).1 (drop_expired now (tr_list t)).2).
Proof.
  intros [Hs Hp Ht]. pose proof (drop_expired_app now (tr_list t)) as Happ.
  destruct (drop_expired now (tr_list t)) as [a b]. cbn [fst snd] in *. split; cbn.
  - rewrite <-Happ in Hs. clear -Hs. induction a as [|x a IH]; [done|]. apply IH. by inversion Hs.
  - rewrite Hp, <-Happ, timeouts_app, timeouts_fmap. solve_Permutation.
  - intros p. rewrite elem_of_app, list_elem_of_fmap. intros [H|(q & [=] & _)]. by apply (Ht p).
Qed.

Lemma scrubber_round_run t w :
  router_shutdown (w_cli w) = false → tr_list t ≠ [] →
  let d := drop_expired (w_clock w (w_ticks w)) (tr_list t) in
  ∃ o w', cli_traceroute_scrubber_round t w = Ok (o, trace_after t d.1 d.2) w'.
Proof.
  intros Hsd Hne d. unfold cli_traceroute_scrubber_round, get_cli, mbind, M_bind.
  destruct (tr_list t) as [|p l] eqn:E; [done|]. rewrite Hsd. unfold gettimeofday.
  rewrite traceroute_scrub_spec. cbn [mret M_ret]. by eexists _, _.
Qed.

Lemma request_ok fd ip t t' w w' :
  cli_traceroute_request fd ip t w = Ok t' w' → trace_ok t → trace_ok t'.
Proof.
  intros E [Hs Hp Ht]. unfold cli_traceroute_request, mbind, M_bind in E.
  destruct (icmp_allocate_and_send _ _ _ _ _ _ _ _ _ w) as [sent w1|]; [|done].
  destruct (sent =? 0).
  - injection E as <- <-. split; cbn; [done| |].
    + by rewrite timeouts_app, app_nil_r.
    + intros p [H|H%list_elem_of_singleton]%elem_of_app; [by apply (Ht p)|done].
  - unfold gettimeofday in E. injection E as <- <-. split; cbn; [by apply insert_ping_sorted| |done].
    rewrite insert_ping_Permutation, Hp. solve_Permutation.
Qed.

Lemma step_ok s s' : trace_step s s' → trace_ok s.1 → trace_ok s'.1.
Proof.
  intros [fd ip t t' w w' E|o t t' w w' E|t w w'] Hok; cbn [fst] in *; [by eapply request_ok| |done].
  unfold cli_traceroute_scrubber_round, get_cli, mbind, M_bind in E.
  destruct (tr_list t) as [|p l] eqn:El; [by injection E as <- <- <-|].
  destruct (router_shutdown (w_cli w)); [by injection E as <- <- <-|].
  unfold gettimeofday in E. rewrite traceroute_scrub_spec in E. injection E as <- <- <-.
  pose proof (trace_after_ok t (w_clock w (w_ticks w)) Hok) as H. by rewrite El in H.
Qed.

Lemma rtc_ok s s' : rtc trace_step s s' → trace_ok s.1 → trace_ok s'.1.
Proof. induction 1; [done|]. eauto using step_ok. Qed.

Lemma trace_start_ok : trace_ok (cli_traceroute_init trace_start).
Proof. split; [constructor|done|]. intros p. apply not_elem_of_nil. Qed.

(** in every run of the command line no traceroute request is ever
    answered.  Every request that was sent waits on the list, which is sorted by
    deadline, or its client was told that it timed out; and a round of the thread
    reports, in the order of their deadlines, exactly the requests whose deadline
    has passed. *)
Theorem traceroute_only_times_out w0 t w :
  rtc trace_step (cli_traceroute_init trace_start, w0) (t, w) →
  pings_sorted (tr_list t) ∧ tr_sent t ≡ₚ tr_list t ++ timeouts (tr_told t) ∧
  (∀ p, PingReply p ∉ tr_told t) ∧
  (router_shutdown (w_cli w) = false → tr_list t ≠ [] →
   let late p := is_later (w_clock w (w_ticks w)) (expire_time p) in
   ∃ o t' w', cli_traceroute_scrubber_round t w = Ok (o, t') w' ∧
     tr_list t' = filter (λ p, late p = false) (tr_list t) ∧
     tr_told t' = tr_told t ++ (PingTimeout <$> filter (λ p, late p = true) (tr_list t))).
Proof.
  intros Hr. assert (trace_ok t) as Hok.
  { by apply (rtc_ok _ _ Hr), trace_start_ok. }
  destruct Hok as [Hs Hp Ht]. split_and!; [done..|]. intros Hsd Hne late.
  destruct (scrubber_round_run t w Hsd Hne) as (o & w' & E). eexists _, _, w'. split; [exact E|].
  split; cbn; [by apply drop_expired_filter_live|by rewrite drop_expired_filter_late].
Qed.

(** A request to a known host, and its deadline. *)
Definition trace_world : world :=
  World (sample_router [known_host] [route0; route1] []) 7 0 (Cli [] 0 false []) [] []
    (λ n, Timeval (500 + Z.of_nat n) 0) 0 (λ n, 0) 0.

Lemma traceroute_only_times_out_witness :
  ∃ t w o t' w', cli_traceroute_request 3 ip_host trace_start trace_world = Ok t w ∧
    length (tr_sent t) = 1%nat ∧ length (w_out w) = 1%nat ∧
    cli_traceroute_scrubber_round t (set_w_ticks 9 w) = Ok (o, t') w' ∧
    tr_told t' = PingTimeout <$> tr_sent t.
Proof.
  destruct (cli_traceroute_request 3 ip_host trace_start trace_world) as [t w|] eqn:E; [|vm_compute in E; discriminate].
  destruct (traceroute_only_times_out trace_world t (set_w_ticks 9 w)) as (_ & _ & _ & H).
  { eapply rtc_l; [apply (step_request 3 ip_host); exact E|]. apply rtc_once, step_router. }
  vm_compute in E. injection E as <- <-.
  destruct H as (o & t' & w' & E & _ & Ht); [reflexivity|discriminate|].
  eexists _, _, o, t', w'. split; [reflexivity|]. split; [reflexivity|]. split; [reflexivity|].
  split; [exact E|]. rewrite Ht. reflexivity.
Defined.

(** The handler would not find most requests if it were called: the reply to the
    request [p] carries its sequence number as it is on the list, and matches
    only if its two bytes are equal. *)
Theorem traceroute_handler_misses ip fd n send expire t w :
  is_u16 n → tr_list t = [Ping fd ip (htons n) send expire] → router_shutdown (w_cli w) = false →
  ∃ t' w', cli_traceroute_handle_reply ip (htons n) t w = Ok t' w' ∧
    (tr_list t' = [] ↔ n / 256 = n mod 256) ∧ (n / 256 ≠ n mod 256 → t' = t ∧ w' = w).
Proof.
  intros Hn Hl Hsd. unfold cli_traceroute_handle_reply, get_cli, mbind, M_bind. rewrite Hsd, Hl.
  cbn [unlink_ping ping_dst_ip ping_seq]. rewrite Z.eqb_refl. cbn [andb].
  destruct (Z.eqb_spec (htons n) (ntohs (htons n))) as [E|E].
  - eexists _, _. split; [reflexivity|]. cbn. assert (n / 256 = n mod 256) by width_lia. done.
  - exists t, w. split; [reflexivity|]. split; [|done]. rewrite Hl. split; [done|]. intros H. exfalso. apply E. width_lia.
Qed.
