(* ===== verification/PwospfSpec.v ===== *)
(** Theorems on PWOSPF (files Pwospf and PwospfInput): HELLO packets, the
    payload of link state updates, the advertised topology. *)

From stdpp Require Import base tactics list numbers strings.
From Stdlib Require Import ZArith Lia.
From S2P Require Import Prelude Dataqueue Common Packets State Loops Ethernet Arp Routing.
From S2P Require Import IpHeader Ping Dijkstra ShortestPath DijkstraSpec Pwospf PwospfInput Dns.
From S2P Require Import Ip ArpInput Router IpSpec ArpSpec IcmpSpec Samples TableProps PacketProps.

Local Open Scope Z_scope.

(** * HELLO packets *)

(** The PWOSPF part of a HELLO packet. *)
Record hello_fields (p : list Z) (rid mask : Z) : Prop := {
  hf_version : getf pwospf_packet_t "version" p L4_BASE = Some OSPF_VERSION;
  hf_type : getf pwospf_packet_t "type" p L4_BASE = Some OSPF_TYPE_HELLO;
  hf_area : getf pwospf_packet_t "area_id" p L4_BASE = Some 0;
  hf_auth : getf pwospf_packet_t "auth_type" p L4_BASE = Some 0;
  hf_rid : hello_get "router_id" p = Some rid;
  hf_mask : hello_get "netmask" p = Some mask;
  hf_helloint : hello_get "helloint" p = Some (htons HELLOINT);
  hf_checksum : generatechecksum (drop L4_BASE p) 32 = Some 0
}.

Lemma pwospf_fill_ok p c p' :
  bytes p → (66 <= length p)%nat → hello_get "checksum" p = Some 0 →
  generatechecksum (drop L4_BASE p) 32 = Some c → hello_set "checksum" p c = Some p' →
  generatechecksum (drop L4_BASE p') 32 = Some 0.
Proof.
  intros Hb Hl Hz Hc Hs. eapply (checksum_fill (drop L4_BASE p) 32 12 c).
  - by apply Forall_drop.
  - lia.
  - rewrite length_drop. change L4_BASE with 34%nat. lia.
  - done.
  - lia.
  - rewrite <-Hz. unfold hello_get, getf, load. f_equal.
    exact (drop_get_bytes p 46 2 34 ltac:(lia) ltac:(lia)).
  - exact Hc.
  - apply (drop_put_bytes _ 46 (le_split 2 c) p' 34) in Hs; [exact Hs|lia].
Qed.

Lemma hello_header_ok rid mask p :
  bytes p → (66 <= length p)%nat → is_u32 rid → is_u32 mask →
  ∃ p', generate_pwospf_hello_header rid 0 mask p = Some p' ∧ bytes p' ∧ length p' = length p ∧
        take L4_BASE p' = take L4_BASE p ∧ hello_fields p' rid mask.
Proof.
  intros Hb Hl Hr Hm. unfold generate_pwospf_hello_header, hello_set. do 12 write_step.
  assert (bytes p11) as Hb11 by (set_bytes; done).
  assert (∃ c, generatechecksum (drop L4_BASE p11) 32 = Some c ∧ is_u16 c) as (c & Hc & Hcr).
  { eexists. split; [apply generatechecksum_sum; [by apply Forall_drop|lia|]|apply swap16_range].
    rewrite length_drop. change L4_BASE with 34%nat. lia. }
  rewrite Hc. cbn [mbind option_bind].
  destruct (setf_ok pwospf_packet_hello_t "checksum" p11 L4_BASE c) as (p' & Ep & Lp); [cbn; lia|].
  exists p'. unfold is_u32 in *. split_and!; [exact Ep|set_bytes; done|congruence|by set_outside|].
  assert (is_u16 (htons HELLOINT)) as Hh by apply swap16_range. unfold is_u16 in Hh.
  split; try (match goal with |- getf pwospf_packet_t ?f ?p ?b = _ =>
    change (getf pwospf_packet_t f p b) with (getf pwospf_packet_hello_t f p b) end);
    unfold hello_get.
  1-7: read_back; unfold OSPF_VERSION, OSPF_TYPE_HELLO; cbn; lia.
  eapply pwospf_fill_ok; [| | |exact Hc|exact Ep]; [done|lia|]. unfold hello_get. read_back; cbn; lia.
Qed.

(** A HELLO frame of a router, ready to be received. *)
Record hello_frame (f : list Z) (smac : addr_mac) (src rid mask : Z) : Prop := {
  hl_length : length f = 66%nat;
  hl_bytes : bytes f;
  hl_eth : take IP_BASE f = MAC_BROADCAST ++ smac ++ [8; 0];
  hl_ip : ip_accepted f;
  hl_dst : ip_get "dst_ip" f = Some ALLSPFRouters;
  hl_proto : ip_get "protocol" f = Some IP_TYPE_OSPF;
  hl_src : ip_get "src_ip" f = Some src;
  hl_fields : hello_fields f rid mask
}.

(** Fields behind the Ethernet header do not see a new Ethernet header. *)
Lemma reframed_getf dm sm q l f b :
  length dm = 6%nat → length sm = 6%nat → (34 <= length q)%nat → (14 <= b)%nat →
  (b + foff l f + flen l f <= length q)%nat → getf l f (reframed dm sm q) b = getf l f q b.
Proof.
  intros Hd Hs Hq Hb Hf. eapply getf_drop; [by apply reframed_length|by apply reframed_drop|done|done].
Qed.

Lemma reframed_bytes dm sm q : bytes dm → bytes sm → bytes q → bytes (reframed dm sm q).
Proof.
  intros Hd Hs Hq. unfold reframed. repeat apply Forall_app_2; try done; [|by apply Forall_drop].
  repeat constructor; done.
Qed.

Lemma hello_fields_reframed dm sm q rid mask :
  length dm = 6%nat → length sm = 6%nat → length q = 66%nat →
  hello_fields q rid mask → hello_fields (reframed dm sm q) rid mask.
Proof.
  intros Hd Hs Hq [F1 F2 F3 F4 F5 F6 F7 F8]. unfold hello_get in *.
  split; unfold hello_get; try (rewrite reframed_getf; [done|done|done|lia|cbn; lia|cbn; lia]).
  by rewrite reframed_payload by (done || lia).
Qed.

Lemma ip_accepted_reframed dm sm q :
  length dm = 6%nat → length sm = 6%nat → (34 <= length q)%nat → ip_accepted q →
  ip_accepted (reframed dm sm q).
Proof.
  intros Hd Hs Hq. unfold ip_accepted, ip_header_check.
  rewrite (ip_checksum_drop q (reframed dm sm q)) by by apply reframed_drop.
  by rewrite !reframed_ip_get by (done || cbn; lia).
Qed.

(** The frame built for one interface. *)
Lemma hello_built rid smac ip mask p :
  bytes p → length p = 66%nat → is_u32 rid → is_u32 mask → is_u32 ip → wf_mac smac →
  ∃ p1 p2, generate_ipv4_header ip 32 p IP_TYPE_OSPF ALLSPFRouters = Some p1 ∧
    generate_pwospf_hello_header rid 0 mask p1 = Some p2 ∧ bytes p2 ∧ length p2 = 66%nat ∧
    hello_frame (reframed MAC_BROADCAST smac p2) smac ip rid mask.
Proof.
  intros Hb Hl Hr Hm Hip [Hs6 Hsb].
  destruct (generate_ipv4_header_spec ip 32 p IP_TYPE_OSPF ALLSPFRouters) as (p1 & E1 & W);
    [done|lia|done|by vm_compute|].
  pose proof (ip_written_accepted _ _ 52 _ _ _ _ ltac:(lia) W) as Hacc.
  destruct W as [L1 B1 _ _ _ _ _ _ Wp Ws Wd _].
  destruct (hello_header_ok rid mask p1) as (p2 & E2 & B2 & L2 & T2 & F); [done|lia|done|done|].
  assert (length p2 = 66%nat) as L66 by lia.
  assert (ip_accepted p2) as Hacc2.
  { eapply ip_accepted_take; [exact B1|done|lia|by symmetry|done]. }
  exists p1, p2. split_and!; [done..|]. split.
  - rewrite reframed_length; [done|done|done|lia].
  - apply reframed_bytes; [repeat constructor; done|done|done].
  - rewrite reframed_take; [done|done|done|lia].
  - apply ip_accepted_reframed; [done|done|lia|done].
  - rewrite reframed_ip_get; [|done|done|lia|cbn; lia]. rewrite (ip_get_take _ _ _ T2); [done|cbn; lia].
  - rewrite reframed_ip_get; [|done|done|lia|cbn; lia]. rewrite (ip_get_take _ _ _ T2); [done|cbn; lia].
  - rewrite reframed_ip_get; [|done|done|lia|cbn; lia]. rewrite (ip_get_take _ _ _ T2); [done|cbn; lia].
  - by apply hello_fields_reframed.
Qed.

(** What [send_pwospf_hello_packet] relies on. *)
Record wf_speaker (w : world) : Prop := {
  sp_interfaces : Forall (λ i, wf_mac (if_mac i) ∧ is_u32 (if_ip i) ∧ is_u32 (if_subnet_mask i))
                    (interfaces (w_router w));
  sp_rid : is_u32 (pw_router_id (pw_router (w_router w)))
}.

(** Frame [fr] is the HELLO of interface [k]. *)
Definition hello_of (rid : Z) (k : nat) (x : interface) (fr : frame) : Prop :=
  ∃ f, fr = Frame k f ∧ hello_frame f (if_mac x) (if_ip x) rid (if_subnet_mask x).

Definition hello_loop_inv (w : world) (k : nat) (pi : packet_info) (w' : world) : Prop :=
  bytes (pi_packet pi) ∧ length (pi_packet pi) = 66%nat ∧
  ∃ frames, w' = set_w_out (w_out w ++ frames) w ∧ length frames = k ∧
    ∀ j x fr, interfaces (w_router w) !! j = Some x → frames !! j = Some fr →
              hello_of (pw_router_id (pw_router (w_router w))) j x fr.

Lemma hello_step w k x pi w1 :
  wf_speaker w → interfaces (w_router w) !! k = Some x → hello_loop_inv w k pi w1 →
  ∃ pi' w2,
    (p ← in_bounds (generate_ipv4_header (if_ip x) 32 (pi_packet pi) IP_TYPE_OSPF ALLSPFRouters);
     p ← in_bounds (generate_pwospf_hello_header (pw_router_id (pw_router (w_router w))) 0
                      (if_subnet_mask x) p);
     res ← ethernet_packet_send (Some k) MAC_BROADCAST (if_mac x) (htons ETH_IP_TYPE)
             (PacketInfo p (34 + 32) (Some k));
     mret res.1) w1 = Ok pi' w2 ∧ hello_loop_inv w (k + 1) pi' w2.
Proof.
  intros [Hi Hr] Hx (Hb & Hl & frames & -> & Hlen & Hfr).
  destruct (Forall_lookup_1 _ _ _ _ Hi Hx) as (Hmac & Hip & Hmask).
  destruct (hello_built (pw_router_id (pw_router (w_router w))) (if_mac x) (if_ip x) (if_subnet_mask x)
    (pi_packet pi)) as (p1 & p2 & E1 & E2 & B2 & L2 & Hh); [done..|].
  mstep E1. mstep E2.
  destruct (ethernet_packet_send_spec k MAC_BROADCAST (if_mac x) (htons ETH_IP_TYPE)
    (PacketInfo p2 (34 + 32) (Some k)) (set_w_out (w_out w ++ frames) w))
    as (pi' & E3 & Hpk & _); [done|apply Hmac|split; cbn [pi_len pi_packet]; lia|].
  mstep E3. cbn [fst]. eexists _, _. split; [reflexivity|].
  assert (pi_packet pi' = reframed MAC_BROADCAST (if_mac x) p2) as Hre by exact Hpk.
  unfold sent. rewrite frame_of_whole;
    [|done|apply Hmac|cbn [pi_packet]; lia|cbn [pi_packet pi_len]; lia].
  split_and!; [rewrite Hre; apply Hh|rewrite Hre; apply Hh|].
  exists (frames ++ [Frame k (reframed MAC_BROADCAST (if_mac x) p2)]). split_and!.
  - cbn. by rewrite app_assoc.
  - rewrite length_app. cbn. lia.
  - intros j y fr Hj Hfj. destruct (decide (j < k)%nat) as [Hlt|Hge].
    + apply Hfr; [done|]. by rewrite lookup_app_l in Hfj by lia.
    + rewrite lookup_app_r in Hfj by lia.
      destruct (j - length frames)%nat as [|n] eqn:En; [|discriminate Hfj].
      injection Hfj as <-. assert (j = k) as -> by lia. simplify_eq. by eexists.
Qed.

Lemma send_hello_run w :
  wf_speaker w →
  ∃ frames, send_pwospf_hello_packet w = Ok tt (set_w_out (w_out w ++ frames) w) ∧
    length frames = length (interfaces (w_router w)) ∧
    ∀ k x fr, interfaces (w_router w) !! k = Some x → frames !! k = Some fr →
              hello_of (pw_router_id (pw_router (w_router w))) k x fr.
Proof.
  intros Hw. unfold send_pwospf_hello_packet. mrun. change (34 + 32) with 66.
  destruct (for_array_inv (hello_loop_inv w)
    (λ i intf pi,
      p ← in_bounds (generate_ipv4_header (if_ip intf) 32 (pi_packet pi) IP_TYPE_OSPF ALLSPFRouters);
      p ← in_bounds (generate_pwospf_hello_header (pw_router_id (pw_router (w_router w))) 0
                       (if_subnet_mask intf) p);
      res ← ethernet_packet_send (Some i) MAC_BROADCAST (if_mac intf) (htons ETH_IP_TYPE)
              (PacketInfo p 66 (Some i));
      mret res.1) (interfaces (w_router w)) 0 (PacketInfo (junk_bytes w (Z.to_nat 66)) 66 None) w)
    as (pi & w' & E & (_ & _ & frames & Hw' & Hlen & Hfr)).
  - split_and!; [apply junk_bytes_bytes|cbn [pi_packet]; by rewrite length_junk_bytes|]. exists [].
    split_and!; [|done|done]. rewrite app_nil_r. by destruct w.
  - intros k x pi w1 Hx Hinv. cbn [Nat.add] in *. by apply hello_step.
  - mstep E. exists frames. rewrite Hw'. split_and!; [done|exact Hlen|done].
Qed.

(** * Reception of HELLO packets *)

(** A loop that updates the first element that passes the test. *)
Lemma visit_update {A T} (p : A → bool) (f : A → T → A) (g : A → T → T) body i (l : list A) (s : T) :
  (∀ i x s, body i x s = if p x then (Return (f x s), g x s) else (Unlock x, s)) →
  Spec.visit body i l s =
    match Spec.find_from p i l with
    | Some (j, x) => (<[(j - i)%nat := f x s]> l, g x s)
    | None => (l, s)
    end.
Proof.
  intros Hb. revert i. induction l as [|x l IH]; intros i; [done|]. cbn [Spec.visit Spec.find_from].
  rewrite Hb. destruct (p x) eqn:Hp.
  - by rewrite Nat.sub_diag.
  - rewrite IH. destruct (Spec.find_from p (S i) l) as [[j y]|] eqn:Hf; [|done].
    apply find_from_Some in Hf as (k & -> & _). cbn [fst snd].
    replace (S i + k - i)%nat with (S k) by lia. by replace (S i + k - S i)%nat with k by lia.
Qed.

(** The entry of a neighbour after a HELLO. *)
Definition refreshed (rid : Z) (now : timeval) (e : pwospf_list_entry) : pwospf_list_entry :=
  ListEntry rid (neighbour_ip e) HELLOINT now 1 (lsu_lastseq e) (lsu_lastcontents e)
    (lsu_lastcontents_count e) (lsu_timestamp e).

Definition heard_packet (i : nat) (f : list Z) : packet_info := PacketInfo f 66 (Some i).

Lemma framed_eth_type f dm sm :
  take IP_BASE f = dm ++ sm ++ [8; 0] → length dm = 6%nat → length sm = 6%nat →
  eth_type f = Some (htons ETH_IP_TYPE).
Proof.
  intros H Hd Hs. unfold eth_type, getf, load. rewrite (get_bytes_take f (dm ++ sm ++ [8; 0]) 14).
  - rewrite app_assoc, <-(app_nil_r [8; 0]).
    rewrite (get_bytes_app (dm ++ sm) [8; 0] []); [done| |done]. by rewrite length_app, Hd, Hs.
  - rewrite <-H. change IP_BASE with 14%nat. by rewrite take_take.
  - cbn. lia.
Qed.

Lemma hello_eth_type f smac src rid mask :
  hello_frame f smac src rid mask → length smac = 6%nat → eth_type f = Some (htons ETH_IP_TYPE).
Proof. intros H Hs. exact (framed_eth_type f MAC_BROADCAST smac (hl_eth _ _ _ _ _ H) eq_refl Hs). Qed.

Lemma hello_dispatch i f smac src rid mask w :
  hello_frame f smac src rid mask → length smac = 6%nat → pw_area_id (pw_router (w_router w)) = 0 →
  router_handle_packet (heard_packet i f) w = pwospf_onreceive_hello (heard_packet i f) w.
Proof.
  intros H Hs Ha. pose proof H as [L B E A D P S F].
  rewrite handle_ip; [|split; cbn [pi_packet pi_len heard_packet]; [done|lia|lia]
    |by eapply hello_eth_type].
  change (ip_onreceive (heard_packet i f) w)
    with (ip_onreceive_body (ip_onreceive_fuel 1) (heard_packet i f) w).
  unfold ip_onreceive_body. cbn [pi_packet heard_packet]. mstep A. cbn [negb]. mstep D. mstep P.
  rewrite !Z.eqb_refl. cbn [andb]. unfold ip_local_ospf. rewrite can_marshall by (cbn; lia).
  unfold pwospf_onreceive. cbn [pi_packet heard_packet]. destruct F as [F1 F2 F3 F4 _ _ _ _].
  mstep F1. cbn [negb]. change (OSPF_VERSION =? 2) with true. cbn [negb]. mstep F3. mrun. rewrite Ha.
  change (ntohl 0 =? 0) with true. cbn [negb]. mstep F4. cbn [negb Z.eqb]. mstep F2.
  change (OSPF_TYPE_HELLO =? OSPF_TYPE_HELLO) with true. cbv iota.
  by rewrite can_marshall by (cbn; lia).
Qed.

(** The handler after its checks: the entry of the sender is refreshed, when
    there is one. *)
Lemma hello_heard i f smac src rid mask x w :
  hello_frame f smac src rid mask → interfaces (w_router w) !! i = Some x →
  if_subnet_mask x = mask → if_helloint x = HELLOINT → wf_list_queue (if_neighbours x) →
  let found := Spec.find_from (λ e, neighbour_ip e =? src) 0 (packet (if_neighbours x)) in
  let now := w_clock w (w_ticks w) in
  let heard ticks q := set_w_ticks ticks (set_w_router (put_neighbours i q (w_router w)) w) in
  ∃ q, wf_list_queue q ∧
    match found with
    | Some (n, e) =>
        packet q = <[n := refreshed rid now e]> (packet (if_neighbours x)) ∧
        pwospf_onreceive_hello (heard_packet i f) w
        = (if immediate_neighbour e =? 0 then recompute_and_tell else mret tt) (heard (S (w_ticks w)) q)
    | None =>
        packet q = packet (if_neighbours x) ∧
        pwospf_onreceive_hello (heard_packet i f) w
        = (modify_neighbours i (λ q, queue_add q
             (ListEntry rid src HELLOINT now 1 (u16 (w_junk w 0)) LsaNull 0
                (Timeval (w_junk w 0) (w_junk w 1))) sizeof_pwospf_list_entry);;
           recompute_and_tell) (heard (S (w_ticks w)) q)
    end.
Proof.
  intros H Hx Hm Hh Hq found now heard. destruct H as [L B _ A D P S [F1 F2 F3 F4 F5 F6 F7 F8]].
  unfold pwospf_onreceive_hello. cbn [pi_packet pi_interface heard_packet from_option_M]. mrun.
  unfold get_interface. mrun. mstep Hx. mstep F8. cbn [negb Z.eqb]. mstep F6.
  rewrite Hm, Z.eqb_refl. cbn [negb]. mstep F7. rewrite Hh.
  change (ntohs (htons HELLOINT)) with HELLOINT. rewrite Z.eqb_refl. cbn [negb]. mstep F5. mstep S.
  mrun.
  destruct (queue_foreach_visit _ (hello_body (w_clock w) src rid HELLOINT) (if_neighbours x)
    (w_ticks w, None) Hq) as (q & Eq & Hq' & Hp).
  rewrite (visit_update (λ e, neighbour_ip e =? src)
    (λ e s, ListEntry rid (neighbour_ip e) HELLOINT (w_clock w s.1) 1 (lsu_lastseq e)
              (lsu_lastcontents e) (lsu_lastcontents_count e) (lsu_timestamp e))
    (λ e s, (Datatypes.S s.1, Some (immediate_neighbour e =? 0)))) in Eq, Hp by done.
  fold found in Eq, Hp. exists q. split; [done|].
  destruct found as [[n e]|]; cbn [fst snd] in Eq, Hp; mstep Eq; cbn [fst snd]; mrun; [|done].
  split; [by rewrite Hp, Nat.sub_0_r|]. by destruct (immediate_neighbour e =? 0).
Qed.

Lemma hello_refreshes i f smac src rid mask x n e w :
  hello_frame f smac src rid mask → interfaces (w_router w) !! i = Some x →
  if_subnet_mask x = mask → if_helloint x = HELLOINT → wf_list_queue (if_neighbours x) →
  Spec.find_from (λ e, neighbour_ip e =? src) 0 (packet (if_neighbours x)) = Some (n, e) →
  immediate_neighbour e ≠ 0 →
  ∃ q, pwospf_onreceive_hello (heard_packet i f) w
    = Ok tt (set_w_ticks (S (w_ticks w)) (set_w_router (put_neighbours i q (w_router w)) w)) ∧
    wf_list_queue q ∧
    packet q = <[n := refreshed rid (w_clock w (w_ticks w)) e]> (packet (if_neighbours x)).
Proof.
  intros H Hx Hm Hh Hq Hf Him. destruct (hello_heard i f smac src rid mask x w) as (q & Hq' & Hr);
    [done..|]. rewrite Hf in Hr. destruct Hr as [Hp E]. rewrite (proj2 (Z.eqb_neq _ _) Him) in E.
  exists q. by rewrite E.
Qed.

(** * The payload of link state updates *)

Definition wf_lsa (a : pwospf_lsa) : Prop :=
  is_u32 (lsa_subnet a) ∧ is_u32 (lsa_netmask a) ∧ is_u32 (lsa_router_id a).

Lemma encode_lsa_length a : length (encode_lsa a) = 12%nat.
Proof. unfold encode_lsa. by rewrite !length_app, !length_le_split. Qed.

(** An advertisement is read back from where it was written. *)
Lemma payload_get_at p g a :
  get_bytes p (payload_base g) 12 = Some (encode_lsa a) → wf_lsa a → payload_get p g = Some a.
Proof.
  intros Hg (H1 & H2 & H3). unfold get_bytes in Hg. case_decide as Hl; [|done].
  assert (∀ o n, (o + n <= 12)%nat →
    get_bytes p (payload_base g + o) n = get_bytes (encode_lsa a) o n) as Hsub.
  { intros o n Hn. rewrite !get_bytes_Some by (rewrite ?encode_lsa_length; lia). f_equal.
    injection Hg as <-. rewrite skipn_firstn_comm, take_take, drop_drop. f_equal. lia. }
  unfold payload_get, getf, load.
  change (foff pwospf_lsa_layout "subnet") with 0%nat.
  change (foff pwospf_lsa_layout "netmask") with 4%nat.
  change (foff pwospf_lsa_layout "router_id") with 8%nat.
  change (flen pwospf_lsa_layout "subnet") with 4%nat.
  change (flen pwospf_lsa_layout "netmask") with 4%nat.
  change (flen pwospf_lsa_layout "router_id") with 4%nat.
  assert (get_bytes (encode_lsa a) 0 4 = Some (le_split 4 (lsa_subnet a))) as G1.
  { apply (get_bytes_app []); [done|apply length_le_split]. }
  assert (get_bytes (encode_lsa a) 4 4 = Some (le_split 4 (lsa_netmask a))) as G2.
  { apply get_bytes_app; apply length_le_split. }
  assert (get_bytes (encode_lsa a) 8 4 = Some (le_split 4 (lsa_router_id a))) as G3.
  { unfold encode_lsa. rewrite app_assoc, <-(app_nil_r (_ ++ le_split 4 (lsa_router_id a))), <-app_assoc.
    apply get_bytes_app; [by rewrite length_app, !length_le_split|apply length_le_split]. }
  rewrite !Hsub, G1, G2, G3 by lia.
  cbn [fmap option_fmap option_map mbind option_bind].
  rewrite !le_combine_split_small by (unfold is_u32 in *; cbn; lia). by destruct a.
Qed.

(** The writing loop, on lists. *)
Fixpoint write_lsas (g : nat) (l : list pwospf_lsa) (p : list Z) : option (list Z) :=
  match l with
  | [] => Some p
  | a :: rest => p ← put_bytes p (payload_base g) (encode_lsa a); write_lsas (S g) rest p
  end.

Lemma write_lsas_before g l p p' o n :
  write_lsas g l p = Some p' → (o + n <= payload_base g)%nat → get_bytes p' o n = get_bytes p o n.
Proof.
  revert g p. induction l as [|a l IH]; intros g p H Ho; cbn [write_lsas] in H; [by simplify_eq|].
  destruct (put_bytes p (payload_base g) (encode_lsa a)) as [q|] eqn:E; [|done].
  cbn [mbind option_bind] in H. rewrite (IH (S g) q H).
  - by apply (get_put_other _ _ _ _ _ _ E); left.
  - unfold payload_base in *. lia.
Qed.

Lemma write_lsas_length g l p p' : write_lsas g l p = Some p' → length p' = length p.
Proof.
  revert g p. induction l as [|a l IH]; intros g p H; cbn [write_lsas] in H; [by simplify_eq|].
  destruct (put_bytes p (payload_base g) (encode_lsa a)) as [q|] eqn:E; [|done].
  rewrite (IH (S g) q H). by eapply put_bytes_length.
Qed.

Lemma write_lsas_read g l p p' :
  Forall wf_lsa l → write_lsas g l p = Some p' → payload_read (length l) g p' = Some l.
Proof.
  revert g p. induction l as [|a l IH]; intros g p Hl H; cbn [write_lsas] in H; [done|].
  rewrite Forall_cons in Hl. destruct Hl as [Ha Hl].
  destruct (put_bytes p (payload_base g) (encode_lsa a)) as [q|] eqn:E; [|done].
  cbn [mbind option_bind] in H. cbn [payload_read length].
  rewrite (payload_get_at p' g a); [|rewrite <-(encode_lsa_length a)|done].
  - cbn [mbind option_bind]. by rewrite (IH (S g) q Hl H).
  - rewrite (write_lsas_before (S g) l q p' _ _ H).
    + by apply (get_put_same _ _ _ _ E).
    + rewrite encode_lsa_length. unfold payload_base. cbn. lia.
Qed.

Lemma write_lsas_ok g l p :
  (payload_base (g + length l) <= length p)%nat → is_Some (write_lsas g l p).
Proof.
  revert g p. induction l as [|a l IH]; intros g p H; cbn [write_lsas]; [done|].
  cbn [length] in H.
  destruct (proj2 (put_bytes_is_Some p (payload_base g) (encode_lsa a))) as [q E].
  { rewrite encode_lsa_length. unfold payload_base in *. cbn in *. lia. }
  rewrite E. cbn [mbind option_bind]. apply IH. rewrite (put_bytes_length _ _ _ _ E).
  by replace (S g + length l)%nat with (g + S (length l))%nat by lia.
Qed.

Lemma write_topology_run q p w :
  wf_queue sizeof_pwospf_lsa q →
  write_topology q p w = in_bounds (write_lsas 0 (packet q) p) w.
Proof.
  intros Hq. unfold write_topology. rewrite for_unsafe_spec by done. clear Hq.
  generalize 0%nat. revert p. induction (packet q) as [|a l IH]; intros p g; [done|].
  cbn [for_array write_lsas]. destruct (put_bytes p (payload_base g) (encode_lsa a)) as [p1|]; [|done].
  rewrite (bind_in_bounds (Some p1) _ _ p1 eq_refl). apply IH.
Qed.

(** * The advertised topology *)

(** What the router advertises about an interface: the subnet without a router,
    and the subnet once for every immediate neighbour. *)
Definition advertises (x : interface) : list pwospf_lsa :=
  let lsa := Lsa (Z.land (if_subnet_mask x) (if_ip x)) (if_subnet_mask x) in
  lsa 0 :: ((λ e, lsa (neighbour_id e)) <$>
              filter (λ e, immediate_neighbour e ≠ 0) (packet (if_neighbours x))).

Lemma put_neighbours_equiv i q x w :
  interfaces (w_router w) !! i = Some x → erase_queue q = erase_queue (if_neighbours x) →
  set_w_router (put_neighbours i q (w_router w)) w ≡ w.
Proof.
  intros Hx Hq.
  assert (erase_router (put_neighbours i q (w_router w)) = erase_router (w_router w)) as He.
  { unfold erase_router. cbn. f_equal. apply list_eq. intros k. rewrite !list_lookup_fmap.
    destruct (decide (k = i)) as [->|Hne].
    - rewrite list_lookup_alter_eq, Hx. cbn. by rewrite Hq.
    - by rewrite list_lookup_alter_ne by done. }
  unfold equiv, world_equiv, erase_world. cbn [w_router set_w_router]. by rewrite He.
Qed.

Lemma wf_erase_eq {A} sz (q q' : dataqueue A) :
  wf_queue sz q → wf_queue sz q' → packet q = packet q' → erase_queue q = erase_queue q'.
Proof.
  intros H1 H2 Hp. destruct (wf_same_sizes sz q q' H1 H2 Hp) as [Hs Hz]. unfold erase_queue.
  by rewrite Hp, Hs, Hz.
Qed.

(** The queue and the counter after some advertisements. *)
Definition topology_ok (l : list pwospf_lsa) (s : dataqueue pwospf_lsa * Z) : Prop :=
  wf_queue sizeof_pwospf_lsa s.1 ∧ packet s.1 = distinct l ∧ s.2 = Z.of_nat (length (distinct l)).

(** [if (queue_existsunsafe(...) == -1) { queue_add(...); count++; }]. *)
Lemma topology_add l s a :
  topology_ok l s →
  topology_ok (l ++ [a]) (if queue_existsunsafe s.1 a =? -1
                          then (queue_add s.1 a sizeof_pwospf_lsa, s.2 + 1) else s).
Proof.
  intros (Hw & Hp & Hn). unfold topology_ok. rewrite distinct_snoc. unfold snoc_new.
  pose proof (queue_existsunsafe_none _ s.1 a Hw) as Hex. rewrite Hp in Hex.
  destruct (decide (a ∈ distinct l)) as [Hin|Hin].
  - rewrite (proj2 (Z.eqb_neq _ _)); [done|]. intros E. by apply Hex in E.
  - rewrite (proj2 (Z.eqb_eq _ _)) by (by apply Hex). cbn [fst snd].
    destruct (queue_add_spec _ s.1 a Hw) as [? Hp']. split_and!; [done|by rewrite Hp', Hp|].
    rewrite length_app. cbn. lia.
Qed.

Lemma topology_neighbours x l es s i w :
  topology_ok l s →
  ∃ s', for_array (topology_neighbour x) i es s w = Ok s' w ∧
    topology_ok (l ++ ((λ e, Lsa (Z.land (if_subnet_mask x) (if_ip x)) (if_subnet_mask x)
                              (neighbour_id e)) <$>
                        filter (λ e, immediate_neighbour e ≠ 0) es)) s'.
Proof.
  revert l s i. induction es as [|e es IH]; intros l s i Hs.
  { exists s. split; [done|]. by rewrite app_nil_r. }
  set (a := Lsa (Z.land (if_subnet_mask x) (if_ip x)) (if_subnet_mask x) (neighbour_id e)).
  set (s1 := if queue_existsunsafe s.1 a =? -1
             then (queue_add s.1 a sizeof_pwospf_lsa, s.2 + 1) else s).
  assert (topology_neighbour x i e s w = Ok (if immediate_neighbour e =? 0 then s else s1) w) as E.
  { unfold topology_neighbour. fold a. unfold s1. destruct (immediate_neighbour e =? 0); [done|].
    by destruct (queue_existsunsafe s.1 a =? -1). }
  cbn [for_array]. mstep E. rewrite filter_cons.
  destruct (Z.eqb_spec (immediate_neighbour e) 0) as [Hz|Hz].
  - rewrite decide_False by tauto. by apply IH.
  - rewrite decide_True, fmap_cons, cons_middle, app_assoc by done. apply IH. by apply topology_add.
Qed.

Lemma get_topology_run w :
  Forall (λ x, wf_list_queue (if_neighbours x)) (interfaces (w_router w)) →
  ∃ s w', get_topology queue_init w = Ok s w' ∧ w' ≡ w ∧
    topology_ok (interfaces (w_router w) ≫= advertises) s.
Proof.
  intros Hwf. unfold get_topology. mrun. set (ifs := interfaces (w_router w)) in *.
  match goal with |- context [for_array ?body 0 ifs ?s0 w] =>
    destruct (for_array_inv (λ k s w', w' ≡ w ∧ topology_ok (take k ifs ≫= advertises) s)
      body ifs 0 s0 w) as (s' & w' & E & Hw' & Hs') end.
  - by split; [|split; [apply wf_queue_init|]].
  - intros k x s w1 Hx [H1 Hs]. cbn [Nat.add] in *.
    set (s1 := if queue_existsunsafe s.1 _ =? -1 then _ else s).
    assert (topology_ok ((take k ifs ≫= advertises)
      ++ [Lsa (Z.land (if_subnet_mask x) (if_ip x)) (if_subnet_mask x) 0]) s1) as Hs1
      by by apply topology_add.
    destruct (interface_equiv w w1 k x (symmetry H1) Hx) as (x1 & Hx1 & Hpl).
    unfold get_neighbours, get_interface. mrun. mstep Hx1. mrun.
    assert (erase_queue (if_neighbours x1) = erase_queue (if_neighbours x)) as Hq
      by exact (f_equal if_neighbours Hpl).
    pose proof (Forall_lookup_1 _ _ _ _ Hwf Hx) as Hqx.
    assert (wf_list_queue (if_neighbours x1)) as Hqx1 by (by eapply wf_erase).
    destruct (for_locked_M_spec _ (topology_neighbour x) (if_neighbours x1) s1 w1 Hqx1)
      as (q' & Hq' & Hp' & E).
    destruct (topology_neighbours x _ (packet (if_neighbours x1)) s1 0 w1 Hs1) as (s2 & E2 & Hs2).
    rewrite E2 in E. mstep E. mrun. cbn [fst snd]. eexists s2, _. split; [reflexivity|]. split.
    + rewrite (put_neighbours_equiv k q' x1) by (done || by eapply wf_erase_eq). done.
    + assert (packet (if_neighbours x1) = packet (if_neighbours x)) as Hpk
        by exact (f_equal packet Hq).
      rewrite Hpk in Hs2. rewrite Nat.add_1_r, (take_S_r _ _ x) by done.
      rewrite bind_app. cbn [mbind list_bind]. rewrite app_nil_r. unfold advertises.
      rewrite cons_middle, app_assoc. exact Hs2.
  - exists s', w'. split_and!; [done..|]. cbn [Nat.add] in Hs'. by rewrite firstn_all in Hs'.
Qed.

(** * Malformed link state updates *)

Lemma getneighbour_spec q rid :
  wf_list_queue q →
  getneighbourfromidunsafe q rid = Some (Spec.find_from (λ e, neighbour_id e =? rid) 0 (packet q)).
Proof.
  intros Hq. unfold getneighbourfromidunsafe. rewrite (wf_size _ _ Hq), Nat2Z.id.
  assert (∀ l pre, packet q = pre ++ l →
    getneighbour_loop (length l) (length pre) q rid
    = Some (Spec.find_from (λ e, neighbour_id e =? rid) (length pre) l)) as H; [|by apply (H _ [])].
  induction l as [|e l IH]; intros pre Hp; [done|].
  assert (packet q !! length pre = Some e) as He by (rewrite Hp; by apply list_lookup_middle).
  cbn [getneighbour_loop Spec.find_from length]. rewrite (wf_size _ _ Hq), Hp, length_app.
  rewrite (proj2 (Z.ltb_lt _ _)) by (cbn; lia).
  rewrite (queue_getidunsafe_spec _ _ _ Hq), He. cbn [fmap option_fmap option_map].
  rewrite Z.eqb_refl. destruct (neighbour_id e =? rid); [done|].
  rewrite cons_middle, app_assoc in Hp. specialize (IH _ Hp). rewrite length_app in IH.
  cbn in IH. by rewrite Nat.add_1_r in IH.
Qed.

Lemma modify_neighbours_run i f x w :
  interfaces (w_router w) !! i = Some x →
  modify_neighbours i f w
  = Ok tt (set_w_router (put_neighbours i (f (if_neighbours x)) (w_router w)) w).
Proof. intros Hx. unfold modify_neighbours, get_neighbours, get_interface. mrun. by mstep Hx. Qed.

Lemma put_neighbours_lookup i q x w :
  interfaces (w_router w) !! i = Some x →
  interfaces (w_router (set_w_router (put_neighbours i q (w_router w)) w)) !! i
  = Some (set_if_neighbours q x).
Proof. intros Hx. cbn. by rewrite list_lookup_alter_eq, Hx. Qed.

(** A negative count makes the length test pass, and then the copy fails. *)
Lemma negative_advert_crashes pi i x w rid seq src :
  wf_packet pi → 66 <= pi_len pi → pi_interface pi = Some i → interfaces (w_router w) !! i = Some x →
  wf_list_queue (if_neighbours x) →
  link_get "advert" (pi_packet pi) = Some (htonl (u32 (-1))) →
  generatechecksum (drop L4_BASE (pi_packet pi)) 20 = Some 0 →
  link_get "router_id" (pi_packet pi) = Some rid → link_get "seq" (pi_packet pi) = Some seq →
  ip_get "src_ip" (pi_packet pi) = Some src → rid ≠ pw_router_id (pw_router (w_router w)) →
  Forall (λ e, neighbour_id e ≠ rid) (packet (if_neighbours x)) →
  pwospf_onreceive_link pi w = Fault NullDeref.
Proof.
  intros [Hb Hl Hh] H66 Hi Hx Hq Hadv Hck Hrid Hseq Hsrc Hne Hunk.
  unfold pwospf_onreceive_link. mstep Hadv.
  change (s32 (ntohl (htonl (u32 (-1))))) with (-1). change (u64 (66 + -1 * 12)) with 54.
  destruct (Z.ltb_spec (pi_len pi) 54); [lia|].
  change (s32 (32 + -1 * 12)) with 20. mstep Hck. cbn [negb Z.eqb]. mstep Hrid. mstep Hseq. mstep Hsrc.
  mrun. mstep Hi. rewrite (proj2 (Z.eqb_neq _ _) Hne).
  mstep (modify_neighbours_run i queue_lockall x w Hx). set (w1 := set_w_router _ w).
  pose proof (put_neighbours_lookup i (queue_lockall (if_neighbours x)) x w Hx) as Hx1. fold w1 in Hx1.
  unfold get_neighbours at 1, get_interface at 1. mrun. mstep Hx1. mrun. cbn [if_neighbours set_if_neighbours].
  assert (getneighbourfromidunsafe (queue_lockall (if_neighbours x)) rid = Some None) as Hg.
  { rewrite getneighbour_spec by (by apply wf_lock). f_equal. apply find_from_None.
    eapply Forall_impl; [exact Hunk|]. intros e He. by apply Z.eqb_neq. }
  mstep Hg. mstep (modify_neighbours_run i queue_unlockall _ w1 Hx1). done.
Qed.
