(* ===== verification/LsuSpec.v ===== *)
(** Theorems on the link state updates a router sends (file Pwospf): the frame
    built for a neighbour, the round over all neighbours, and the reaction to a
    new neighbour. *)

From stdpp Require Import base tactics list numbers strings.
From Stdlib Require Import ZArith Lia.
From S2P Require Import Prelude Dataqueue Common Packets State Loops Ethernet Arp Routing.
From S2P Require Import IpHeader Ping Dijkstra ShortestPath DijkstraSpec Pwospf PwospfInput Dns.
From S2P Require Import Ip ArpInput Router IpSpec ArpSpec IcmpSpec Samples TableProps PacketProps.
From S2P Require Import PwospfSpec.

Local Open Scope Z_scope.

(** * The frame for one neighbour *)

(** The PWOSPF part of an update that carries [lsas]. *)
Record link_fields (p : list Z) (rid seq : Z) (lsas : list pwospf_lsa) : Prop := {
  lf_version : getf pwospf_packet_t "version" p L4_BASE = Some OSPF_VERSION;
  lf_type : getf pwospf_packet_t "type" p L4_BASE = Some OSPF_TYPE_LINK;
  lf_area : getf pwospf_packet_t "area_id" p L4_BASE = Some 0;
  lf_auth : getf pwospf_packet_t "auth_type" p L4_BASE = Some 0;
  lf_rid : link_get "router_id" p = Some rid;
  lf_seq : link_get "seq" p = Some (htons seq);
  lf_advert : link_get "advert" p = Some (htonl (Z.of_nat (length lsas)));
  lf_checksum : generatechecksum (drop L4_BASE p) (32 + Z.of_nat (length lsas) * 12) = Some 0;
  lf_payload : payload_read (length lsas) 0 p = Some lsas
}.

(** The pure part of [generate_pwospf_link_header]. *)
Definition link_header (rid advert len seq : Z) (p : list Z) : option (list Z) :=
  p ← link_set "version" p OSPF_VERSION;
  p ← link_set "type" p OSPF_TYPE_LINK;
  p ← link_set "len" p (htons (u16 len));
  p ← link_set "router_id" p rid;
  p ← link_set "area_id" p 0;
  p ← link_set "autotype" p 0;
  p ← link_set "auth_type" p 0;
  p ← link_set "auth_data" p 0;
  p ← link_set "seq" p (htons seq);
  p ← link_set "ttl" p (htons 64);
  p ← link_set "advert" p (htonl advert);
  p ← link_set "checksum" p 0;
  c ← generatechecksum (drop L4_BASE p) (s32 (32 + advert * 12));
  link_set "checksum" p c.

Lemma link_header_run rid advert len p p' w :
  link_header rid advert len (w_hid w) p = Some p' →
  generate_pwospf_link_header rid 0 advert len p w
  = Ok p' (set_w_hid (u16 (w_hid w + 1)) w).
Proof.
  unfold link_header, generate_pwospf_link_header. intros H.
  repeat match type of H with
  | (?o ≫= _) = _ =>
      mrun; let q := fresh "q" in destruct o as [q|]; cbn [mbind option_bind] in H; [|discriminate H];
      rewrite (bind_in_bounds (Some q) _ _ q eq_refl); cbv beta
  end. mrun. by rewrite H.
Qed.

(** A checksum over the header and the payload. *)
Lemma link_fill_ok p n c p' :
  bytes p → 32 <= n <= 65536 → 34 + n <= Z.of_nat (length p) → link_get "checksum" p = Some 0 →
  generatechecksum (drop L4_BASE p) n = Some c → link_set "checksum" p c = Some p' →
  generatechecksum (drop L4_BASE p') n = Some 0.
Proof.
  intros Hb Hn Hl Hz Hc Hs. eapply (checksum_fill (drop L4_BASE p) n 12 c).
  - by apply Forall_drop.
  - lia.
  - rewrite length_drop. change L4_BASE with 34%nat. lia.
  - done.
  - lia.
  - rewrite <-Hz. unfold link_get, getf, load. f_equal.
    exact (drop_get_bytes p 46 2 34 ltac:(lia) ltac:(lia)).
  - exact Hc.
  - apply (drop_put_bytes _ 46 (le_split 2 c) p' 34) in Hs; [exact Hs|lia].
Qed.

Lemma payload_base_eq g : payload_base g = (66 + g * 12)%nat.
Proof. done. Qed.

(** The entries from [g] on are behind their first byte. *)
Lemma payload_read_same p p' n g :
  length p' = length p → drop (payload_base g) p' = drop (payload_base g) p →
  (payload_base (g + n) <= length p)%nat → payload_read n g p' = payload_read n g p.
Proof.
  intros Hl. revert g. induction n as [|n IH]; intros g Hd Hn; [done|]. cbn [payload_read].
  assert (∀ f, (foff pwospf_lsa_layout f + flen pwospf_lsa_layout f <= 12)%nat →
    getf pwospf_lsa_layout f p' (payload_base g) = getf pwospf_lsa_layout f p (payload_base g)) as Hg.
  { intros f Hf. eapply getf_drop; [done|exact Hd|done|]. rewrite !payload_base_eq in *. lia. }
  assert (payload_get p' g = payload_get p g) as ->.
  { unfold payload_get. by rewrite !Hg by (cbn; lia). }
  rewrite IH; [done| |by replace (S g + n)%nat with (g + S n)%nat by lia].
  rewrite !payload_base_eq in *. replace (66 + S g * 12)%nat with (66 + g * 12 + 12)%nat by lia.
  rewrite <-(drop_drop p'), <-(drop_drop p). by rewrite Hd.
Qed.

(** A buffer whose payload is [lsas]; small enough for one packet. *)
Record lsu_buffer (p : list Z) (lsas : list pwospf_lsa) : Prop := {
  lb_bytes : bytes p;
  lb_length : length p = payload_base (length lsas);
  lb_payload : payload_read (length lsas) 0 p = Some lsas;
  lb_small : 66 + Z.of_nat (length lsas) * 12 < 65536
}.

Lemma link_header_ok rid seq lsas p :
  lsu_buffer p lsas → is_u32 rid → is_u16 seq →
  let n := Z.of_nat (length lsas) in
  ∃ p', link_header rid n (32 + n * 12) seq p = Some p' ∧ lsu_buffer p' lsas ∧
        take L4_BASE p' = take L4_BASE p ∧ link_fields p' rid seq lsas.
Proof.
  intros [Hb Hl Hp Hs] Hr Hq n. unfold link_header, link_set.
  assert (66 + length lsas * 12 = length p)%nat as Hlen by (rewrite Hl, payload_base_eq; lia).
  do 12 write_step. rewrite (s32_small (32 + n * 12)) by (unfold n; lia).
  assert (bytes p11) as Hb11 by (set_bytes; done).
  assert (∃ c, generatechecksum (drop L4_BASE p11) (32 + n * 12) = Some c ∧ is_u16 c)
    as (c & Hc & Hcr).
  { eexists. split; [apply generatechecksum_sum; [by apply Forall_drop|unfold n; lia|]
      |apply swap16_range]. rewrite length_drop. change L4_BASE with 34%nat. unfold n. lia. }
  rewrite Hc. cbn [mbind option_bind].
  destruct (setf_ok pwospf_packet_link_t "checksum" p11 L4_BASE c) as (p' & Ep & Lp); [cbn; lia|].
  assert (length p' = length p) as Hlp by congruence.
  assert (payload_read (length lsas) 0 p' = Some lsas) as Hpay.
  { rewrite <-Hp. apply payload_read_same; [done| |by rewrite Hl].
    change (payload_base 0) with 66%nat. by set_outside. }
  exists p'. split_and!; [exact Ep|split; [set_bytes; done|congruence|done|done]|by set_outside|].
  assert (0 <= htonl n < 4294967296) as Hn by apply swap32_range.
  assert (is_u16 (htons seq)) as Hsq by apply swap16_range. unfold is_u16, is_u32 in *.
  split; try (match goal with |- getf pwospf_packet_t ?f ?p ?b = _ =>
    change (getf pwospf_packet_t f p b) with (getf pwospf_packet_link_t f p b) end);
    unfold link_get; [read_back; unfold OSPF_VERSION, OSPF_TYPE_LINK; cbn; lia..| |done].
  eapply link_fill_ok; [done|unfold n in *; lia|lia| |exact Hc|exact Ep].
  unfold link_get. read_back; cbn; lia.
Qed.

(** The parts of an update that do not change on its way. *)
Record lsu_body (p : list Z) (rid seq : Z) (lsas : list pwospf_lsa) : Prop := {
  lo_buffer : lsu_buffer p lsas;
  lo_vihl : ip_get "ihl_version" p = Some 69;
  lo_tl : ∃ tl, ip_get "total_length" p = Some tl ∧ 0 < tl;
  lo_flags : ip_get "flags_fragmentoffset" p = Some 0;
  lo_proto : ip_get "protocol" p = Some IP_TYPE_OSPF;
  lo_ttl : ip_get "ttl" p = Some 65;
  lo_fields : link_fields p rid seq lsas
}.

(** An update on its way from [src] to [dst]. *)
Record lsu_packet (p : list Z) (src dst rid seq : Z) (lsas : list pwospf_lsa) : Prop := {
  lp_body : lsu_body p rid seq lsas;
  lp_src : ip_get "src_ip" p = Some src;
  lp_dst : ip_get "dst_ip" p = Some dst;
  lp_checksum : ip_checksum p = Some 0
}.

Lemma lsu_accepted p src dst rid seq lsas : lsu_packet p src dst rid seq lsas → ip_accepted p.
Proof. intros [[_ Hv (tl & Htl & Hp) Hf _ _ _] _ _ Hc]. by eapply ip_accepted_intro. Qed.

(** An update as it leaves by an interface, ready to be received. *)
Record lsu_frame (f : list Z) (smac : addr_mac) (src dst rid seq : Z) (lsas : list pwospf_lsa)
  : Prop := {
  lu_eth : take IP_BASE f = MAC_BROADCAST ++ smac ++ [8; 0];
  lu_packet : lsu_packet f src dst rid seq lsas
}.

Lemma lsu_buffer_same p p' lsas :
  lsu_buffer p lsas → bytes p' → length p' = length p → drop L4_BASE p' = drop L4_BASE p →
  lsu_buffer p' lsas.
Proof.
  intros [Hb Hl Hp Hs] Hb' Hl' Hd. split; [done|congruence| |done].
  rewrite <-Hp. apply payload_read_same; [done| |by rewrite Hl].
  change (payload_base 0) with (L4_BASE + 32)%nat. by rewrite <-!drop_drop, Hd.
Qed.

Lemma link_fields_same p p' rid seq lsas :
  (66 <= length p)%nat → length p' = length p → drop L4_BASE p' = drop L4_BASE p →
  lsu_buffer p' lsas → link_fields p rid seq lsas → link_fields p' rid seq lsas.
Proof.
  intros H66 Hl Hd [_ _ Hp _] [F1 F2 F3 F4 F5 F6 F7 F8 F9]. unfold link_get in *.
  split; unfold link_get; [(etrans; [eapply getf_drop; [exact Hl|exact Hd|done|]|done]); cbn; lia..
    |by rewrite Hd|done].
Qed.

Lemma lsu_buffer_size p lsas : lsu_buffer p lsas → (66 <= length p)%nat ∧ Z.of_nat (length p) < 65536.
Proof. intros [_ -> _ Hs]. rewrite payload_base_eq. lia. Qed.

Lemma lsu_body_same p p' rid seq lsas :
  bytes p' → length p' = length p → drop L4_BASE p' = drop L4_BASE p →
  Forall (λ f, ip_get f p' = ip_get f p)
    ["ihl_version"; "total_length"; "flags_fragmentoffset"; "protocol"; "ttl"] →
  lsu_body p rid seq lsas → lsu_body p' rid seq lsas.
Proof.
  intros Hb Hl Hd Hk [Hbuf H1 H2 H3 H4 H5 Hf]. inversion_clear Hk as [|? ? K1 Hk1].
  inversion_clear Hk1 as [|? ? K2 Hk2]. inversion_clear Hk2 as [|? ? K3 Hk3].
  inversion_clear Hk3 as [|? ? K4 Hk4]. inversion_clear Hk4 as [|? ? K5 _].
  assert (lsu_buffer p' lsas) as Hbuf' by by eapply lsu_buffer_same.
  split; [done|by rewrite K1|by rewrite K2|by rewrite K3|by rewrite K4|by rewrite K5|].
  apply (link_fields_same p); [apply (lsu_buffer_size _ _ Hbuf)|done..].
Qed.

(** The Ethernet header is in front of it. *)
Lemma lsu_packet_reframed dm sm p src dst rid seq lsas :
  wf_mac dm → wf_mac sm → lsu_packet p src dst rid seq lsas →
  lsu_packet (reframed dm sm p) src dst rid seq lsas.
Proof.
  intros [Hd Hdb] [Hs Hsb] H. pose proof H as [Hbody Hsrc Hdst _].
  pose proof (lsu_buffer_size _ _ (lo_buffer _ _ _ _ Hbody)) as [H66 _].
  assert (∀ f, (foff packet_ip4_t f + flen packet_ip4_t f <= 20)%nat →
    ip_get f (reframed dm sm p) = ip_get f p) as Hg by (intros f Hf; apply reframed_ip_get; done || lia).
  split; [|rewrite Hg; [done|cbn; lia]..|].
  - eapply lsu_body_same; [..|exact Hbody].
    + apply reframed_bytes; [done|done|apply Hbody].
    + apply reframed_length; [done|done|lia].
    + apply reframed_payload; [done|done|lia].
    + repeat constructor; apply Hg; cbn; lia.
  - assert (ip_accepted (reframed dm sm p)) as Ha
      by (apply ip_accepted_reframed; [done|done|lia|by eapply lsu_accepted]).
    by apply ip_accepted_inv in Ha as (? & ? & _ & _ & _ & _ & _ & ?).
Qed.

Lemma broadcast_wf : wf_mac MAC_BROADCAST.
Proof. split; [done|]. repeat constructor; done. Qed.

Lemma lsu_built rid seq smac src dst p lsas :
  lsu_buffer p lsas → is_u32 rid → is_u16 seq → is_u32 src → is_u32 dst → wf_mac smac →
  let n := Z.of_nat (length lsas) in
  ∃ p1 p2, generate_ipv4_header src (32 + n * 12) p IP_TYPE_OSPF dst = Some p1 ∧
    link_header rid n (32 + n * 12) seq p1 = Some p2 ∧ lsu_buffer p2 lsas ∧
    lsu_frame (reframed MAC_BROADCAST smac p2) smac src dst rid seq lsas.
Proof.
  intros Hbuf Hr Hq Hsrc Hdst Hmac n. pose proof (lsu_buffer_size _ _ Hbuf) as [Hl Hl'].
  destruct (generate_ipv4_header_spec src (32 + n * 12) p IP_TYPE_OSPF dst) as (p1 & E1 & W);
    [apply Hbuf|lia|done|done|].
  rewrite u16_small in W by (pose proof (lb_small _ _ Hbuf); unfold is_u16, n; lia).
  pose proof (ip_written_accepted _ _ (20 + (32 + n * 12)) _ _ _ _
    ltac:(pose proof (lb_small _ _ Hbuf); unfold n; lia) W) as Hacc.
  destruct W as [L1 B1 _ A1 Wv Wl Wf Wt Wp Ws Wd _].
  assert (lsu_buffer p1 lsas) as Hbuf1 by by eapply lsu_buffer_same.
  destruct (link_header_ok rid seq lsas p1 Hbuf1 Hr Hq) as (p2 & E2 & Hbuf2 & T2 & F).
  pose proof (lsu_buffer_size _ _ Hbuf2) as [H66 _].
  assert (ip_accepted p2) as Hacc2.
  { eapply ip_accepted_take; [exact B1|apply Hbuf2|lia|by symmetry|done]. }
  assert (∀ f, (foff packet_ip4_t f + flen packet_ip4_t f <= 20)%nat →
    ip_get f p2 = ip_get f p1) as Hg by (intros f Hf; by apply ip_get_take).
  assert (lsu_packet p2 src dst rid seq lsas) as Hpk.
  { split; [|rewrite Hg; [done|cbn; lia]..|].
    - split; [done|rewrite Hg; [done|cbn; lia]| |rewrite Hg; [done|cbn; lia]..|done].
      eexists. split; [rewrite Hg; [exact Wl|cbn; lia]|]. apply ip_accepted_inv in Hacc as
        (_ & tl & _ & _ & _ & Htl & Hpos & _). rewrite Wl in Htl. by injection Htl as ->.
    - by apply ip_accepted_inv in Hacc2 as (? & ? & _ & _ & _ & _ & _ & ?). }
  exists p1, p2. split_and!; [done..|]. split.
  - apply reframed_take; [done|apply Hmac|lia].
  - apply lsu_packet_reframed; [apply broadcast_wf|done|done].
Qed.

(** * The round over all neighbours *)

(** A neighbour an update goes to: the interface, its addresses, and the address
    of the neighbour. *)
Record target := Target {
  tg_interface : nat;
  tg_mac : addr_mac;
  tg_ip : Z;
  tg_dest : Z
}.

Definition targets_at (i : nat) (x : interface) : list target :=
  (λ e, Target i (if_mac x) (if_ip x) (neighbour_ip e)) <$>
    filter (λ e, immediate_neighbour e = 1) (packet (if_neighbours x)).

(** All immediate neighbours, in the order of the interfaces. *)
Definition targets (l : list interface) : list target := concat (imap targets_at l).

(** The [k]-th update of a round. *)
Definition lsu_of (rid hid : Z) (lsas : list pwospf_lsa) (k : nat) (t : target) (fr : frame) : Prop :=
  ∃ f, fr = Frame (tg_interface t) f ∧
       lsu_frame f (tg_mac t) (tg_ip t) (tg_dest t) rid (u16 (hid + Z.of_nat k)) lsas.

(** The frames of a round that has reached the targets [l]. *)
Definition lsus_of (rid hid : Z) (lsas : list pwospf_lsa) (l : list target) (frames : list frame)
  : Prop :=
  length frames = length l ∧
  ∀ k t fr, l !! k = Some t → frames !! k = Some fr → lsu_of rid hid lsas k t fr.

Lemma lsus_of_snoc rid hid lsas l frames t fr :
  lsus_of rid hid lsas l frames → lsu_of rid hid lsas (length l) t fr →
  lsus_of rid hid lsas (l ++ [t]) (frames ++ [fr]).
Proof.
  intros [Hlen H] Ht. split; [rewrite !length_app, Hlen; done|]. intros k t' fr' Hk Hf.
  destruct (decide (k < length l)%nat) as [Hlt|Hge].
  - rewrite lookup_app_l in Hk by lia. rewrite lookup_app_l in Hf by lia. by apply H.
  - rewrite lookup_app_r in Hk by lia. rewrite lookup_app_r, Hlen in Hf by lia.
    destruct (k - length l)%nat as [|m] eqn:Em; [|discriminate Hk].
    injection Hk as <-. injection Hf as <-. by replace k with (length l) by lia.
Qed.

(** The world after the frames of a round. *)
Definition after_lsus (w : world) (frames : list frame) : world :=
  set_w_hid (u16 (w_hid w + Z.of_nat (length frames))) (set_w_out (w_out w ++ frames) w).

Lemma after_lsus_snoc w frames fr :
  set_w_out (w_out (after_lsus w frames) ++ [fr])
    (set_w_hid (u16 (w_hid (after_lsus w frames) + 1)) (after_lsus w frames))
  = after_lsus w (frames ++ [fr]).
Proof.
  unfold after_lsus. cbn. rewrite length_app, <-app_assoc. unfold u16. rewrite Zplus_mod_idemp_l.
  cbn. by replace (w_hid w + Z.of_nat (length frames) + 1)
    with (w_hid w + Z.of_nat (length frames + 1)) by lia.
Qed.

(** The state of the loops: the packet buffer and the frames sent so far. *)
Definition lsu_loop (w : world) (lsas : list pwospf_lsa) (l : list target) (pi : packet_info)
    (w' : world) : Prop :=
  lsu_buffer (pi_packet pi) lsas ∧ pi_len pi = Z.of_nat (length (pi_packet pi)) ∧
  ∃ frames, w' = after_lsus w frames ∧
            lsus_of (pw_router_id (pw_router (w_router w))) (w_hid w) lsas l frames.

Lemma send_lsa_step w lsas l pi w1 i x k e :
  lsu_loop w lsas l pi w1 → is_u32 (pw_router_id (pw_router (w_router w))) → is_u16 (w_hid w) →
  wf_mac (if_mac x) → is_u32 (if_ip x) → is_u32 (neighbour_ip e) → immediate_neighbour e = 1 →
  let n := Z.of_nat (length lsas) in
  ∃ pi' w2, send_lsa_to n (32 + n * 12) i x k e pi w1 = Ok pi' w2 ∧
    lsu_loop w lsas (l ++ [Target i (if_mac x) (if_ip x) (neighbour_ip e)]) pi' w2.
Proof.
  intros (Hbuf & Hlen & frames & -> & Hfr) Hr Hh Hm Hip Hd Him n. unfold send_lsa_to.
  rewrite Him. cbn [Z.eqb Pos.eqb].
  set (hid := w_hid (after_lsus w frames)).
  assert (hid = u16 (w_hid w + Z.of_nat (length l))) as Hhid
    by (unfold hid; cbn; by rewrite (proj1 Hfr)).
  destruct (lsu_built (pw_router_id (pw_router (w_router w))) hid (if_mac x) (if_ip x) (neighbour_ip e)
    (pi_packet pi) lsas) as (p1 & p2 & E1 & E2 & Hbuf2 & Hf); [done|done|apply u16_range|done..|].
  mstep E1. mrun. change (w_router (after_lsus w frames)) with (w_router w).
  mstep (link_header_run _ _ _ _ _ (after_lsus w frames) E2).
  pose proof (lsu_buffer_size _ _ Hbuf2) as [H66 Hsm].
  assert (length p2 = length (pi_packet pi)) as Hl2
    by (rewrite (lb_length _ _ Hbuf2), (lb_length _ _ Hbuf); done).
  destruct (ethernet_packet_send_spec i MAC_BROADCAST (if_mac x) (htons ETH_IP_TYPE)
    (with_packet p2 pi) (set_w_hid (u16 (hid + 1)) (after_lsus w frames)))
    as (pi' & E3 & Hpk & Hln & _); [done|apply Hm|split; cbn [pi_len pi_packet with_packet]; lia|].
  mstep E3. cbn [fst]. eexists _, _. split; [reflexivity|].
  assert (pi_packet pi' = reframed MAC_BROADCAST (if_mac x) p2) as Hre by exact Hpk.
  unfold sent. rewrite frame_of_whole;
    [|done|apply Hm|cbn [pi_packet with_packet]; lia|cbn [pi_packet pi_len with_packet]; lia].
  split_and!; [rewrite Hre; apply Hf|rewrite Hln, Hre; cbn [pi_len with_packet];
    rewrite reframed_length; [lia|done|apply Hm|lia]|].
  exists (frames ++ [Frame i (reframed MAC_BROADCAST (if_mac x) p2)]). split.
  - rewrite <-after_lsus_snoc. done.
  - apply lsus_of_snoc; [done|]. eexists. split; [reflexivity|]. cbn. by rewrite <-Hhid.
Qed.

(** What sending updates relies on. *)
Definition wf_advertised (x : interface) : Prop :=
  (wf_mac (if_mac x) ∧ is_u32 (if_ip x) ∧ is_u32 (if_subnet_mask x)) ∧
  wf_list_queue (if_neighbours x) ∧
  Forall (λ e, is_u32 (neighbour_id e) ∧ is_u32 (neighbour_ip e)) (packet (if_neighbours x)).

(** The advertisements of the router. *)
Definition own_lsas (w : world) : list pwospf_lsa := distinct (interfaces_of w ≫= advertises).

Record wf_advertiser (w : world) : Prop := {
  wa_interfaces : Forall wf_advertised (interfaces_of w);
  wa_some : interfaces_of w ≠ [];
  wa_rid : is_u32 (pw_router_id (pw_router (w_router w)));
  wa_hid : is_u16 (w_hid w);
  wa_small : 66 + Z.of_nat (length (own_lsas w)) * 12 < 65536
}.

Lemma send_lsas_at w lsas l pi w1 i x es k :
  lsu_loop w lsas l pi w1 → is_u32 (pw_router_id (pw_router (w_router w))) → is_u16 (w_hid w) →
  wf_mac (if_mac x) → is_u32 (if_ip x) → Forall (λ e, is_u32 (neighbour_ip e)) es →
  let n := Z.of_nat (length lsas) in
  ∃ pi' w2, for_array (send_lsa_to n (32 + n * 12) i x) k es pi w1 = Ok pi' w2 ∧
    lsu_loop w lsas (l ++ ((λ e, Target i (if_mac x) (if_ip x) (neighbour_ip e)) <$>
                             filter (λ e, immediate_neighbour e = 1) es)) pi' w2.
Proof.
  intros Hl Hr Hh Hm Hip Hes n. revert l pi w1 k Hl.
  induction Hes as [|e es He Hes IH]; intros l pi w1 k Hl; cbn [for_array].
  { exists pi, w1. split; [done|]. by rewrite app_nil_r. }
  rewrite filter_cons. destruct (decide (immediate_neighbour e = 1)) as [Him|Him].
  - destruct (send_lsa_step w lsas l pi w1 i x k e) as (pi' & w2 & E & Hl'); [done..|]. mstep E.
    rewrite fmap_cons, cons_middle, app_assoc. by apply IH.
  - assert (send_lsa_to n (32 + n * 12) i x k e pi w1 = Ok pi w1) as E.
    { unfold send_lsa_to. by rewrite (proj2 (Z.eqb_neq _ _) Him). }
    mstep E. by apply IH.
Qed.

Lemma send_lsas_all w lsas l pi w1 s ifs :
  lsu_loop w lsas l pi w1 → is_u32 (pw_router_id (pw_router (w_router w))) → is_u16 (w_hid w) →
  Forall wf_advertised ifs →
  let n := Z.of_nat (length lsas) in
  ∃ pi' w2,
    for_array (λ i intf pi,
      let pi := PacketInfo (pi_packet pi) (pi_len pi) (Some i) in
      for_unsafe sizeof_pwospf_list_entry (send_lsa_to n (32 + n * 12) i intf)
        (if_neighbours intf) pi) s ifs pi w1 = Ok pi' w2 ∧
    lsu_loop w lsas (l ++ concat (imap (λ j, targets_at (s + j)) ifs)) pi' w2.
Proof.
  intros Hl Hr Hh Hifs n. revert l pi w1 s Hl.
  induction Hifs as [|x ifs ((Hm & Hip & _) & Hq & Hnb) _ IH]; intros l pi w1 s Hl; cbn [for_array].
  { exists pi, w1. split; [done|]. by rewrite app_nil_r. }
  destruct (send_lsas_at w lsas l (PacketInfo (pi_packet pi) (pi_len pi) (Some s)) w1 s x
    (packet (if_neighbours x)) 0) as (pi' & w2 & E & Hl'); [done..| |].
  { eapply Forall_impl; [exact Hnb|]. by intros e [_ ?]. }
  rewrite <-(for_unsafe_spec sizeof_pwospf_list_entry) in E by done. mstep E.
  destruct (IH _ pi' w2 (S s) Hl') as (pi'' & w3 & E' & Hl''). exists pi'', w3. split; [exact E'|].
  cbn [imap concat]. rewrite Nat.add_0_r, app_assoc.
  rewrite (imap_ext _ (λ j, targets_at (S s + j))); [done|]. intros j y _. cbn.
  by rewrite Nat.add_succ_r.
Qed.

Lemma write_lsas_bytes g l p p' : bytes p → write_lsas g l p = Some p' → bytes p'.
Proof.
  revert g p. induction l as [|a l IH]; intros g p Hb H; cbn [write_lsas] in H; [by simplify_eq|].
  destruct (put_bytes p (payload_base g) (encode_lsa a)) as [q|] eqn:E; [|done].
  apply (IH (S g) q); [|done]. eapply put_bytes_bytes; [exact E|done|].
  unfold encode_lsa. repeat apply Forall_app_2; apply le_split_bytes.
Qed.

Lemma land_u32 a b : is_u32 a → is_u32 b → is_u32 (Z.land a b).
Proof.
  unfold is_u32. intros Ha Hb. split; [apply Z.land_nonneg; lia|].
  destruct (Z.eq_dec (Z.land a b) 0) as [->|Hne]; [lia|].
  assert (0 < Z.land a b) as Hp by (pose proof (proj2 (Z.land_nonneg a b)); lia).
  apply (Z.log2_lt_pow2 _ 32 Hp). eapply Z.le_lt_trans; [apply Z.log2_land; lia|].
  apply Z.min_lt_iff. left. destruct (Z.eq_dec a 0) as [->|]; [done|]. apply Z.log2_lt_pow2; lia.
Qed.

(** The advertisements are well formed and not none. *)
Lemma own_lsas_wf w : wf_advertiser w → Forall wf_lsa (own_lsas w) ∧ (0 < length (own_lsas w))%nat.
Proof.
  intros [Hi Hs _ _ _]. split.
  - apply Forall_forall. intros a Ha. unfold own_lsas in Ha. rewrite elem_of_distinct in Ha.
    apply list_elem_of_bind in Ha as (x & Ha & Hx). rewrite Forall_forall in Hi.
    destruct (Hi x Hx) as ((_ & Hip & Hm) & _ & Hnb).
    assert (∀ r, is_u32 r → wf_lsa (Lsa (Z.land (if_subnet_mask x) (if_ip x)) (if_subnet_mask x) r))
      as Hlsa by (intros r Hr; split_and!; [by apply land_u32|done..]).
    unfold advertises in Ha. apply elem_of_cons in Ha as [->|Ha]; [by apply Hlsa|].
    apply list_elem_of_fmap in Ha as (e & -> & [_ He]%list_elem_of_filter).
    rewrite Forall_forall in Hnb. by apply Hlsa, Hnb.
  - destruct (interfaces_of w) as [|x l] eqn:E; [done|].
    assert (Lsa (Z.land (if_subnet_mask x) (if_ip x)) (if_subnet_mask x) 0 ∈ own_lsas w) as Hin.
    { unfold own_lsas. rewrite elem_of_distinct, E. apply list_elem_of_bind. exists x.
      split; [left|left]. }
    destruct (own_lsas w); [by apply elem_of_nil in Hin|cbn; lia].
Qed.

(** Mutexes do not matter. *)
Lemma targets_plain l : targets (plain_interface <$> l) = targets l.
Proof. unfold targets. by rewrite imap_fmap. Qed.

Lemma advertises_plain l : (plain_interface <$> l) ≫= advertises = l ≫= advertises.
Proof. by rewrite list_fmap_bind. Qed.

Lemma wf_advertised_plain x : wf_advertised (plain_interface x) ↔ wf_advertised x.
Proof.
  unfold wf_advertised, plain_interface. cbn.
  assert (wf_list_queue (erase_queue (if_neighbours x)) ↔ wf_list_queue (if_neighbours x)) as ->; [|done].
  split; by apply wf_erase.
Qed.

(** The buffer of a round. *)
Lemma lsu_buffer_written w lsas q w1 :
  Forall wf_lsa lsas → 66 + Z.of_nat (length lsas) * 12 < 65536 →
  wf_queue sizeof_pwospf_lsa q → packet q = lsas →
  let len := 34 + (32 + Z.of_nat (length lsas) * 12) in
  ∃ p, write_topology q (junk_bytes w (Z.to_nat len)) w1 = Ok p w1 ∧ lsu_buffer p lsas ∧
       len = Z.of_nat (length p).
Proof.
  intros Hl Hs Hq Hp len. rewrite write_topology_run, Hp by done.
  assert (length (junk_bytes w (Z.to_nat len)) = payload_base (length lsas)) as Hj.
  { rewrite length_junk_bytes, payload_base_eq. unfold len. lia. }
  destruct (write_lsas_ok 0 lsas (junk_bytes w (Z.to_nat len))) as [p E]; [by rewrite Hj|].
  pose proof (write_lsas_length _ _ _ _ E) as Hlp. rewrite Hj in Hlp.
  exists p. rewrite E. split_and!; [done| |rewrite Hlp, payload_base_eq; unfold len; lia].
  split; [eapply write_lsas_bytes; [|exact E]; apply junk_bytes_bytes|done
    |by eapply write_lsas_read|done].
Qed.

(** The world after a round: the frames are sent and the time is noted. *)
Definition after_round (w : world) (frames : list frame) : world :=
  set_w_router (set_last_lsu (w_clock w (w_ticks w)) (w_router w))
    (set_w_ticks (S (w_ticks w)) (after_lsus w frames)).

#[global] Instance after_round_proper : Proper ((≡) ==> (=) ==> (≡)) after_round.
Proof.
  intros w w' Hw frames _ <-.
  assert (∀ v, erase_world (after_round v frames) = after_round (erase_world v) frames) as E by done.
  unfold equiv, world_equiv in *. by rewrite !E, Hw.
Qed.

Lemma wf_advertiser_queues w :
  wf_advertiser w → Forall (λ x, wf_list_queue (if_neighbours x)) (interfaces (w_router w)).
Proof.
  intros [H _ _ _ _]. unfold interfaces_of in H. rewrite Forall_fmap in H.
  eapply Forall_impl; [exact H|]. intros x Hx. apply (wf_advertised_plain x), Hx.
Qed.

(** One round of link state updates. *)
Lemma send_lsa_run w :
  wf_advertiser w →
  ∃ frames w', send_pwospf_lsa_packet w = Ok tt w' ∧ w' ≡ after_round w frames ∧
    lsus_of (pw_router_id (pw_router (w_router w))) (w_hid w) (own_lsas w)
      (targets (interfaces_of w)) frames.
Proof.
  intros Hwf. destruct (own_lsas_wf w Hwf) as [Hlsas Hsome].
  destruct (get_topology_run w (wf_advertiser_queues w Hwf)) as ([q n] & w1 & E1 & H1 & Hq & Hp & Hn).
  cbn [fst snd] in *. rewrite <-advertises_plain in Hp, Hn.
  change (packet q = own_lsas w) in Hp. change (n = Z.of_nat (length (own_lsas w))) in Hn.
  unfold send_pwospf_lsa_packet. mstep E1. cbn [fst snd]. rewrite Hn.
  rewrite (proj2 (Z.eqb_neq _ _)) by lia.
  destruct (lsu_buffer_written w1 (own_lsas w) q w1) as (p & E2 & Hbuf & Hlen);
    [done|apply Hwf|done|done|].
  mrun. mstep E2. mrun.
  destruct Hwf as [Hifs _ Hrid Hhid _].
  assert (pw_router (w_router w1) = pw_router (w_router w)) as Hpw
    by exact (f_equal pw_router (erase_router_eq _ _ H1)).
  assert (interfaces_of w1 = interfaces_of w) as Hif by exact (interfaces_of_proper _ _ H1).
  destruct (send_lsas_all w1 (own_lsas w) [] (PacketInfo p
    (34 + (32 + Z.of_nat (length (own_lsas w)) * 12)) None) w1 0 (interfaces (w_router w1)))
    as (pi' & w2 & E3 & _ & _ & frames & -> & Hfr).
  - split_and!; [done|done|]. exists []. split; [|by split].
    unfold after_lsus. cbn. rewrite app_nil_r, Z.add_0_r, (w_hid_proper _ _ H1), u16_small by done.
    rewrite <-(w_hid_proper _ _ H1). by destruct w1.
  - by rewrite Hpw.
  - by rewrite (w_hid_proper _ _ H1).
  - rewrite <-Hif in Hifs. unfold interfaces_of in Hifs. rewrite Forall_fmap in Hifs.
    eapply Forall_impl; [exact Hifs|]. intros x. apply wf_advertised_plain.
  - mstep E3. unfold gettimeofday. mrun. exists frames. eexists. split; [reflexivity|]. split.
    + rewrite <-H1. done.
    + rewrite Hpw, (w_hid_proper _ _ H1) in Hfr. rewrite <-Hif. unfold interfaces_of.
      rewrite targets_plain. exact Hfr.
Qed.

(** * Recomputation followed by a round of updates *)

Lemma wf_advertiser_same w w' :
  interfaces_of w' = interfaces_of w → pw_router (w_router w') = pw_router (w_router w) →
  w_hid w' = w_hid w → wf_advertiser w → wf_advertiser w'.
Proof.
  intros Hi Hp Hh [H1 H2 H3 H4 H5]. unfold own_lsas in H5.
  split; unfold own_lsas; by rewrite ?Hi, ?Hp, ?Hh.
Qed.

(** What rebuilding the table and telling the neighbours relies on. *)
Record wf_speaking (w : world) : Prop := {
  ws_topology : wf_topology (w_router w);
  ws_table : route_interfaces_ok (w_router w);
  ws_static : static_of (table_of w) ≠ [];
  ws_advertiser : wf_advertiser w
}.

Lemma after_recompute_equiv q w :
  after_recompute q w ≡ set_w_router (set_ip_table q (w_router w)) w.
Proof.
  unfold equiv, world_equiv, erase_world, after_recompute. cbn [w_router set_w_router].
  assert (∀ r, erase_router (map_neighbours (λ nb, queue_unlockall (queue_lockall nb)) r)
    = erase_router r) as He.
  { intros r. unfold erase_router, map_neighbours. cbn. f_equal. by rewrite <-list_fmap_compose. }
  by rewrite He.
Qed.

(** The state after a recomputation: a new table, the frames of a round. *)
Record informed (w w' : world) : Prop := {
  in_interfaces : interfaces_of w' = interfaces_of w;
  in_cache : cache_of w' = cache_of w;
  in_parked : parked_of w' = parked_of w;
  in_pw : pw_router (w_router w') = pw_router (w_router w);
  in_table : recomputed (w_router w) (table_of w) (table_of w');
  in_out : ∃ frames, w_out w' = w_out w ++ frames ∧
    lsus_of (pw_router_id (pw_router (w_router w))) (w_hid w) (own_lsas w)
      (targets (interfaces_of w)) frames
}.

Lemma recompute_and_tell_run w :
  wf_speaking w → ∃ w', recompute_and_tell w = Ok tt w' ∧ informed w w'.
Proof.
  intros [Ht Hr Hs Ha]. unfold recompute_and_tell.
  destruct (djikstra_recompute_run w Ht Hr Hs) as (q & E & Hq & _ & Hrec). mstep E.
  pose proof (after_recompute_equiv q w) as H1.
  assert (interfaces_of (after_recompute q w) = interfaces_of w) as Hif
    by exact (interfaces_of_proper _ _ H1).
  destruct (send_lsa_run (after_recompute q w)) as (frames & w' & E' & H' & Hf).
  { by eapply wf_advertiser_same; [exact Hif|..|exact Ha]. }
  exists w'. split; [exact E'|].
  assert (w' ≡ after_round (set_w_router (set_ip_table q (w_router w)) w) frames) as H2
    by (by rewrite <-H1).
  split.
  - exact (interfaces_of_proper _ _ H2).
  - exact (cache_of_proper _ _ H2).
  - exact (parked_of_proper _ _ H2).
  - exact (f_equal pw_router (erase_router_eq _ _ H2)).
  - by rewrite (table_of_proper _ _ H2 : table_of w' = packet q).
  - exists frames. split; [exact (w_out_proper _ _ H2)|]. unfold own_lsas in *. by rewrite Hif in Hf.
Qed.

(** * A new neighbour *)

(** The entry of a neighbour that was heard for the first time; what the code
    does not initialise is arbitrary. *)
Definition newcomer (rid src : Z) (w : world) : pwospf_list_entry :=
  ListEntry rid src HELLOINT (w_clock w (w_ticks w)) 1 (u16 (w_junk w 0)) LsaNull 0
    (Timeval (w_junk w 0) (w_junk w 1)).

(** The world in which interface [i] has the neighbours [q]. *)
Definition with_neighbours (i : nat) (q : dataqueue pwospf_list_entry) (w : world) : world :=
  set_w_ticks (S (w_ticks w)) (set_w_router (put_neighbours i q (w_router w)) w).

(** A change of one element that a function does not see. *)
Lemma bind_alter_same {A B} (f : A → list B) (g : A → A) i x l :
  l !! i = Some x → f (g x) = f x → alter g i l ≫= f = l ≫= f.
Proof.
  intros Hx Hf. revert i Hx. induction l as [|y l IH]; intros [|i] Hx; [done..| |].
  - injection Hx as ->. cbn [alter list_alter mbind list_bind]. by rewrite Hf.
  - cbn [alter list_alter mbind list_bind]. f_equal. by apply IH.
Qed.

Section newcomer.
Context (i : nat) (x : interface) (e : pwospf_list_entry) (q : dataqueue pwospf_list_entry) (w : world).
Context (Hx : interfaces (w_router w) !! i = Some x).
Context (Hq : wf_list_queue q) (Hp : packet q = packet (if_neighbours x) ++ [e]).
Context (Hnull : lsu_lastcontents e = LsaNull).

Lemma newcomer_interfaces (P : interface → Prop) :
  (P x → P (set_if_neighbours q x)) → Forall P (interfaces (w_router w)) →
  Forall P (interfaces (w_router (with_neighbours i q w))).
Proof using Hx.
  intros HP H. apply Forall_lookup. intros j y Hy. cbn in Hy. rewrite Forall_lookup in H.
  destruct (decide (j = i)) as [->|Hne].
  - rewrite list_lookup_alter_eq, Hx in Hy. injection Hy as <-. by apply HP, (H i).
  - rewrite list_lookup_alter_ne in Hy by done. by apply (H j).
Qed.

(** The newcomer has advertised nothing yet. *)
Lemma newcomer_advertised : advertised (w_router (with_neighbours i q w)) = advertised (w_router w).
Proof using Hx Hp Hnull.
  unfold advertised. cbn [w_router with_neighbours set_w_ticks set_w_router put_neighbours interfaces
    set_interfaces pw_router].
  apply (bind_alter_same _ _ i x); [done|]. unfold advertised_at. cbn [if_neighbours set_if_neighbours].
  rewrite Hp, bind_app. cbn. unfold advertised_by, lsas_of. by rewrite Hnull, app_nil_r.
Qed.

Lemma newcomer_topology :
  wf_topology (w_router w) → wf_topology (w_router (with_neighbours i q w)).
Proof using Hx Hq Hp Hnull.
  intros (Hi & Hs & Hl). split_and!.
  - apply newcomer_interfaces; [|done]. intros (_ & Hn & Hm). split_and!; [done| |done].
    cbn. rewrite Hp. apply Forall_app_2; [done|]. constructor; [|done].
    unfold wf_neighbour. by rewrite Hnull.
  - unfold known_subnets. by rewrite newcomer_advertised.
  - cbn. by rewrite length_alter.
Qed.

(** At most one more advertisement. *)
Lemma newcomer_lsas : (length (own_lsas (with_neighbours i q w)) <= S (length (own_lsas w)))%nat.
Proof using Hx Hp.
  set (a := Lsa (Z.land (if_subnet_mask x) (if_ip x)) (if_subnet_mask x) (neighbour_id e)).
  change (S (length (own_lsas w))) with (length (a :: own_lsas w)).
  apply submseteq_length, NoDup_submseteq; [apply NoDup_distinct|]. intros b Hb.
  unfold own_lsas, interfaces_of in *. rewrite advertises_plain in *.
  rewrite elem_of_cons, elem_of_distinct in *. apply list_elem_of_bind in Hb as (y & Hb & Hy).
  apply list_elem_of_lookup in Hy as [j Hy]. cbn in Hy.
  destruct (decide (j = i)) as [->|Hne].
  - rewrite list_lookup_alter_eq, Hx in Hy. injection Hy as <-. unfold advertises in Hb.
    cbn [if_neighbours set_if_neighbours if_subnet_mask if_ip] in Hb.
    rewrite Hp, filter_app, fmap_app, app_comm_cons in Hb. apply elem_of_app in Hb as [Hb|Hb].
    + right. apply list_elem_of_bind. exists x. split; [exact Hb|by eapply list_elem_of_lookup_2].
    + left. apply list_elem_of_fmap in Hb as (e' & -> & [_ He']%list_elem_of_filter).
      apply list_elem_of_singleton in He' as ->. done.
  - rewrite list_lookup_alter_ne in Hy by done. right. apply list_elem_of_bind. exists y.
    split; [done|by eapply list_elem_of_lookup_2].
Qed.

Lemma newcomer_speaking :
  wf_speaking w → is_u32 (neighbour_id e) → is_u32 (neighbour_ip e) →
  78 + Z.of_nat (length (own_lsas w)) * 12 < 65536 → wf_speaking (with_neighbours i q w).
Proof using All.
  intros [Ht [Hr Hb] Hs [Hi Hn Hid Hh Hsm]] He1 He2 Hsmall. split; [by apply newcomer_topology| |done|].
  - split; [done|]. cbn. by rewrite length_alter.
  - split; [| |done..|pose proof newcomer_lsas; lia].
    + unfold interfaces_of in *. rewrite Forall_fmap in *.
      apply (newcomer_interfaces (wf_advertised ∘ plain_interface)); [|done]. unfold compose.
      rewrite !wf_advertised_plain. intros (Hf & _ & Hnb).
      split; [exact Hf|]. split; [exact Hq|].
      cbn. rewrite Hp. apply Forall_app_2; [done|]. constructor; [done|constructor].
    + intros E. apply Hn. unfold interfaces_of in *. apply fmap_nil_inv in E. cbn in E.
      apply (f_equal length) in E. rewrite length_alter in E. by destruct (interfaces (w_router w)).
Qed.
End newcomer.

Lemma put_neighbours_twice i q q' r : put_neighbours i q (put_neighbours i q' r) = put_neighbours i q r.
Proof.
  unfold put_neighbours. cbn [interfaces set_interfaces].
  change (set_interfaces (alter (set_if_neighbours q) i (alter (set_if_neighbours q') i (interfaces r))) r
    = set_interfaces (alter (set_if_neighbours q) i (interfaces r)) r).
  by rewrite list_alter_alter_eq.
Qed.

(** A HELLO of a router that is not in the queue of the interface. *)
Lemma hello_joins i f smac src rid mask x w :
  hello_frame f smac src rid mask → interfaces (w_router w) !! i = Some x →
  if_subnet_mask x = mask → if_helloint x = HELLOINT → wf_list_queue (if_neighbours x) →
  Forall (λ e, neighbour_ip e ≠ src) (packet (if_neighbours x)) →
  ∃ q, wf_list_queue q ∧ packet q = packet (if_neighbours x) ++ [newcomer rid src w] ∧
       pwospf_onreceive_hello (heard_packet i f) w = recompute_and_tell (with_neighbours i q w).
Proof.
  intros H Hx Hm Hh Hq Hnew. destruct (hello_heard i f smac src rid mask x w) as (q & Hq' & Hr);
    [done..|].
  assert (Spec.find_from (λ e, neighbour_ip e =? src) 0 (packet (if_neighbours x)) = None) as Hf.
  { apply find_from_None. eapply Forall_impl; [exact Hnew|]. intros e He. by apply Z.eqb_neq. }
  rewrite Hf in Hr. destruct Hr as [Hp E]. fold (newcomer rid src w) in E.
  destruct (queue_add_spec _ q (newcomer rid src w) Hq') as [Hqa Hpa]. rewrite Hp in Hpa.
  exists (queue_add q (newcomer rid src w) sizeof_pwospf_list_entry). split_and!; [done|done|].
  rewrite E. set (w1 := set_w_ticks _ _).
  assert (interfaces (w_router w1) !! i = Some (set_if_neighbours q x)) as Hx1
    by (by apply put_neighbours_lookup).
  mstep (modify_neighbours_run i
    (λ q, queue_add q (newcomer rid src w) sizeof_pwospf_list_entry) _ w1 Hx1).
  f_equal. unfold w1, with_neighbours. cbn. by rewrite put_neighbours_twice.
Qed.

Lemma hello_from_newcomer i f smac src rid mask x w :
  hello_frame f smac src rid mask → length smac = 6%nat → pw_area_id (pw_router (w_router w)) = 0 →
  interfaces (w_router w) !! i = Some x → if_subnet_mask x = mask → if_helloint x = HELLOINT →
  Forall (λ e, neighbour_ip e ≠ src) (packet (if_neighbours x)) →
  wf_speaking w → is_u32 rid → is_u32 src → 78 + Z.of_nat (length (own_lsas w)) * 12 < 65536 →
  ∃ q w', router_handle_packet (heard_packet i f) w = Ok tt w' ∧
    wf_list_queue q ∧ packet q = packet (if_neighbours x) ++ [newcomer rid src w] ∧
    informed (with_neighbours i q w) w'.
Proof.
  intros H Hs Ha Hx Hm Hh Hnew Hwf Hr Hsrc Hsm.
  pose proof (Forall_lookup_1 _ _ _ _ (wf_advertiser_queues w (ws_advertiser _ Hwf)) Hx) as Hq.
  destruct (hello_joins i f smac src rid mask x w) as (q & Hq' & Hp & E); [done..|].
  destruct (recompute_and_tell_run (with_neighbours i q w)) as (w' & E' & Hi).
  { by apply (newcomer_speaking i x (newcomer rid src w)). }
  exists q, w'. split_and!; [|done..]. by rewrite (hello_dispatch i f smac src rid mask), E.
Qed.
