(* ===== verification/LinkSpec.v ===== *)
(** Theorems on the reception of link state updates (files Pwospf and
    PwospfInput): flooding an update to the other neighbours, storing it in the
    link state database, and rebuilding the routes. *)

From stdpp Require Import base tactics list numbers strings.
From Stdlib Require Import ZArith Lia.
From S2P Require Import Prelude Dataqueue Common Packets State Loops Ethernet Arp Routing.
From S2P Require Import IpHeader Ping Dijkstra ShortestPath DijkstraSpec Pwospf PwospfInput Dns.
From S2P Require Import Ip ArpInput Router IpSpec ArpSpec IcmpSpec Samples TableProps PacketProps.
From S2P Require Import PwospfSpec LsuSpec.

Local Open Scope Z_scope.

(** * Flooding *)

(** The world without what flooding changes. *)
Definition quiet (w : world) : world := with_parked queue_init (set_w_out [] (set_w_ticks 0 w)).

#[global] Instance quiet_proper : Proper ((≡) ==> (≡)) quiet.
Proof.
  intros w w' H. unfold quiet. apply with_parked_proper, set_w_out_proper; [done|].
  by apply set_w_ticks_proper.
Qed.

Lemma quiet_interfaces w w' : quiet w' ≡ quiet w → interfaces_of w' = interfaces_of w.
Proof. intros H. exact (interfaces_of_proper _ _ H). Qed.

Lemma quiet_cache w w' : quiet w' ≡ quiet w → cache_of w' = cache_of w.
Proof. intros H. exact (cache_of_proper _ _ H). Qed.

Lemma quiet_wf_cache w w' :
  quiet w' ≡ quiet w → wf_cache (arp_cache (w_router w)) → wf_cache (arp_cache (w_router w')).
Proof.
  intros H. apply wf_erase. symmetry. exact (f_equal arp_cache (erase_router_eq _ _ H)).
Qed.

(** An update without the addresses of its hop, and with them. *)
Lemma flood_addressed p rid seq lsas src dst :
  lsu_body p rid seq lsas → is_u32 src → is_u32 dst →
  ∃ p1 p2, ip_set "dst_ip" p dst = Some p1 ∧ ip_set "src_ip" p1 src = Some p2 ∧
    length p2 = length p ∧ lsu_body p2 rid seq lsas ∧
    ip_get "dst_ip" p2 = Some dst ∧ ip_get "src_ip" p2 = Some src.
Proof.
  intros H Hs Hd. pose proof (lo_buffer _ _ _ _ H) as Hbuf.
  pose proof (lsu_buffer_size _ _ Hbuf) as [H66 _]. pose proof (lb_bytes _ _ Hbuf) as Hb.
  unfold is_u32 in *. unfold ip_set.
  destruct (setf_ok packet_ip4_t "dst_ip" p IP_BASE dst) as (p1 & E1 & L1); [cbn; lia|].
  destruct (setf_ok packet_ip4_t "src_ip" p1 IP_BASE src) as (p2 & E2 & L2); [cbn; lia|].
  exists p1, p2. split_and!; [done|done|congruence| |unfold ip_get; read_back; cbn; lia..].
  apply (lsu_body_same p); [set_bytes; done|congruence|by set_outside| |exact H].
  unfold ip_get. repeat constructor; by read_through.
Qed.

Lemma flood_filled p rid seq lsas src dst :
  lsu_body p rid seq lsas → ip_get "dst_ip" p = Some dst → ip_get "src_ip" p = Some src →
  ∃ p', ip_fill_checksum p = Some p' ∧ length p' = length p ∧ lsu_packet p' src dst rid seq lsas.
Proof.
  intros H Hd Hs. pose proof (lo_buffer _ _ _ _ H) as Hbuf.
  pose proof (lsu_buffer_size _ _ Hbuf) as [H66 _].
  destruct (ip_fill_checksum_ok p) as (p' & E & L & B & _ & Haf & Hc & Htt & Hk); [apply Hbuf|lia|].
  unfold ip_fields_kept in Hk. rewrite Forall_forall in Hk.
  assert (∀ f, f ∈ ["ihl_version"; "dscp_ecn"; "total_length"; "id"; "flags_fragmentoffset"; "protocol";
    "src_ip"; "dst_ip"] → ip_get f p' = ip_get f p) as Hg by exact Hk.
  exists p'. split_and!; [done|done|]. split; [|rewrite Hg; [done|by repeat constructor]..|done].
  apply (lsu_body_same p); [done|done|done| |exact H].
  repeat constructor; try done; apply Hg; by repeat constructor.
Qed.

(** Where an update is flooded to, and what leaves for a target: the update,
    or a request for its hardware address. *)
Definition flood_of (w : world) (rid seq : Z) (lsas : list pwospf_lsa) (t : target) (fr : frame)
  : Prop :=
  match Spec.find_from (by_ip (tg_dest t)) 0 (cache_of w) with
  | Some (_, a) =>
      ∃ f, fr = Frame (tg_interface t) f ∧ take IP_BASE f = arp_mac a ++ tg_mac t ++ [8; 0] ∧
           lsu_packet f (tg_ip t) (tg_dest t) rid seq lsas
  | None =>
      fr = arp_frame (tg_interface t) ARP_OPCODE_REQUEST (tg_dest t) MAC_BROADCAST MAC_BROADCAST
             (tg_ip t) (tg_mac t) []
  end.

Definition unresolved (w : world) (t : target) : bool :=
  bool_decide (Spec.find_from (by_ip (tg_dest t)) 0 (cache_of w) = None).

(** The update parked for a target whose hardware address is not known. *)
Definition kept_of (rid seq : Z) (lsas : list pwospf_lsa) (t : target) (ent : iparp_buffer_entry)
  : Prop :=
  ∃ pi now, ent = waiting pi (tg_interface t) (tg_dest t) now ∧
    lsu_body (pi_packet pi) rid seq lsas ∧ pi_len pi = Z.of_nat (length (pi_packet pi)) ∧
    ip_get "dst_ip" (pi_packet pi) = Some (tg_dest t) ∧ ip_get "src_ip" (pi_packet pi) = Some (tg_ip t).

(** The worlds after flooding to the targets [l]. *)
Record flooded (w : world) (rid seq : Z) (lsas : list pwospf_lsa) (l : list target) (w' : world)
  : Prop := {
  fl_rest : quiet w' ≡ quiet w;
  fl_parked_wf : wf_queue sizeof_iparp_buffer_entry (iparp_buffer (w_router w'));
  fl_out : ∃ frames, w_out w' = w_out w ++ frames ∧ Forall2 (flood_of w rid seq lsas) l frames;
  fl_parked : ∃ parked, parked_of w' = parked_of w ++ parked ∧
                Forall2 (kept_of rid seq lsas) (filter (unresolved w) l) parked
}.

Definition flood_inv (w : world) (rid seq : Z) (lsas : list pwospf_lsa) (l : list target)
    (pi : packet_info) (w' : world) : Prop :=
  lsu_body (pi_packet pi) rid seq lsas ∧ pi_len pi = Z.of_nat (length (pi_packet pi)) ∧
  flooded w rid seq lsas l w'.

Lemma filter_snoc {A} (p : A → bool) l x :
  filter p (l ++ [x]) = filter p l ++ (if p x then [x] else []).
Proof.
  rewrite filter_app, filter_cons. f_equal. destruct (p x); [by rewrite decide_True|].
  by rewrite decide_False by (intros []).
Qed.

Lemma filter_every {A} (l : list A) : filter (λ _, true) l = l.
Proof. induction l as [|x l IH]; [done|]. by rewrite filter_cons, decide_True, IH. Qed.

(** One more target, whose hardware address is known. *)
Lemma flooded_sent w rid seq lsas l w1 t k a f :
  flooded w rid seq lsas l w1 → Spec.find_from (by_ip (tg_dest t)) 0 (cache_of w) = Some (k, a) →
  take IP_BASE f = arp_mac a ++ tg_mac t ++ [8; 0] →
  lsu_packet f (tg_ip t) (tg_dest t) rid seq lsas →
  flooded w rid seq lsas (l ++ [t]) (sent (tg_interface t) f w1).
Proof.
  intros [Hr Hq (frames & Ho & Hf) (parked & Hp & Hk)] Ha He Hpk. split; [done|done| |].
  - exists (frames ++ [Frame (tg_interface t) f]). split; [unfold sent; cbn; by rewrite Ho, app_assoc|].
    apply Forall2_app; [done|]. constructor; [|constructor]. unfold flood_of. rewrite Ha. by exists f.
  - exists parked. split; [done|]. rewrite filter_snoc.
    assert (unresolved w t = false) as -> by (unfold unresolved; by rewrite Ha).
    by rewrite app_nil_r.
Qed.

(** One more target, whose hardware address is asked for. *)
Lemma flooded_parked w rid seq lsas l w1 t pi now :
  flooded w rid seq lsas l w1 → Spec.find_from (by_ip (tg_dest t)) 0 (cache_of w) = None →
  kept_of rid seq lsas t (waiting pi (tg_interface t) (tg_dest t) now) →
  flooded w rid seq lsas (l ++ [t])
    (set_w_out (w_out w1 ++ [arp_frame (tg_interface t) ARP_OPCODE_REQUEST (tg_dest t) MAC_BROADCAST
                               MAC_BROADCAST (tg_ip t) (tg_mac t) []])
      (set_w_ticks (S (w_ticks w1)) (with_parked (queue_add (iparp_buffer (w_router w1))
         (waiting pi (tg_interface t) (tg_dest t) now) sizeof_iparp_buffer_entry) w1))).
Proof.
  intros [Hr Hq (frames & Ho & Hf) (parked & Hp & Hk)] Ha Hpk.
  destruct (queue_add_spec _ _ (waiting pi (tg_interface t) (tg_dest t) now) Hq) as [Hq' Hadd].
  split; [done|done| |].
  - eexists. split; [cbn; rewrite Ho, <-app_assoc; reflexivity|]. apply Forall2_app; [done|].
    constructor; [|constructor]. unfold flood_of. by rewrite Ha.
  - eexists. split.
    { change (packet (iparp_buffer (w_router w1))) with (parked_of w1) in Hadd.
      rewrite Hp, <-app_assoc in Hadd. exact Hadd. }
    rewrite filter_snoc.
    assert (unresolved w t = true) as -> by (unfold unresolved; by rewrite Ha).
    apply Forall2_app; [done|]. by repeat constructor.
Qed.

Lemma flooded_equiv w rid seq lsas l w1 w2 :
  flooded w rid seq lsas l w1 → w2 ≡ w1 → flooded w rid seq lsas l w2.
Proof.
  intros [Hr Hq Ho Hp] H. split.
  - by rewrite H.
  - eapply wf_erase; [|exact Hq]. symmetry. exact (f_equal iparp_buffer (erase_router_eq _ _ H)).
  - by rewrite (w_out_proper _ _ H).
  - by rewrite (parked_of_proper _ _ H).
Qed.

Lemma flood_step w rid seq lsas l pi w1 j x dest :
  wf_cache (arp_cache (w_router w)) → wf_macs (cache_of w) → interfaces_of w !! j = Some x →
  wf_mac (if_mac x) → is_u32 (if_ip x) → is_u32 dest → flood_inv w rid seq lsas l pi w1 →
  ∃ pi' w2, pwospf_reflood_to pi j dest w1 = Ok pi' w2 ∧
    flood_inv w rid seq lsas (l ++ [Target j (if_mac x) (if_ip x) dest]) pi' w2.
Proof.
  intros Hc Hms Hx Hm Hip Hd (Hbody & Hlen & Hfl). set (t := Target j (if_mac x) (if_ip x) dest).
  rewrite <-(quiet_interfaces _ _ (fl_rest _ _ _ _ _ _ Hfl)) in Hx. unfold interfaces_of in Hx.
  rewrite list_lookup_fmap in Hx. destruct (interfaces (w_router w1) !! j) as [x1|] eqn:Hx1; [|done].
  injection Hx as Hx. assert (if_mac x1 = if_mac x) as Em by by rewrite <-Hx.
  assert (if_ip x1 = if_ip x) as Ei by by rewrite <-Hx.
  unfold pwospf_reflood_to, get_interface. mrun. mstep Hx1. rewrite Em, Ei.
  destruct (flood_addressed _ rid seq lsas (if_ip x) dest Hbody Hip Hd)
    as (p1 & p2 & E1 & E2 & L2 & Hbody2 & Hdst & Hsrc). mstep E1. mstep E2.
  destruct (lookup_arp_ip_equiv dest w1) as (w2 & E3 & H2).
  { eapply quiet_wf_cache; [apply Hfl|done]. } mstep E3.
  rewrite (quiet_cache _ _ (fl_rest _ _ _ _ _ _ Hfl)).
  assert (flooded w rid seq lsas l w2) as Hfl2 by by eapply flooded_equiv.
  pose proof (lsu_buffer_size _ _ (lo_buffer _ _ _ _ Hbody2)) as [H66 Hsm].
  destruct (Spec.find_from (by_ip dest) 0 (cache_of w)) as [[k a]|] eqn:Ha.
  - destruct (flood_filled p2 rid seq lsas (if_ip x) dest) as (p3 & E4 & L3 & Hpk); [done..|]. mstep E4.
    pose proof (lo_ttl _ _ _ _ (lp_body _ _ _ _ _ _ Hpk)) as Ht. mstep Ht.
    change (65 <? 1) with false. cbv iota.
    assert (wf_mac (arp_mac a)) as Hma.
    { apply find_from_lt in Ha as (_ & Ha & _). exact (Forall_lookup_1 _ _ _ _ Hms Ha). }
    destruct (ethernet_packet_send_spec j (arp_mac a) (if_mac x) (htons ETH_IP_TYPE)
      (with_packet p3 pi) w2) as (pi' & E5 & Hp' & Hl' & _);
      [apply Hma|apply Hm|split; cbn [pi_len pi_packet with_packet]; lia|].
    mstep E5. cbn [fst]. eexists _, _. split; [reflexivity|].
    rewrite frame_of_whole; [|apply Hma|apply Hm|cbn [pi_packet with_packet]; lia
      |cbn [pi_packet pi_len with_packet]; lia].
    change (_ ++ _ ++ le_split 2 (htons ETH_IP_TYPE) ++ _) with (reframed (arp_mac a) (if_mac x) p3) in *.
    pose proof (lsu_packet_reframed _ _ _ _ _ _ _ _ Hma Hm Hpk) as Hre.
    split_and!; [rewrite Hp'; apply Hre| |].
    + rewrite Hl', Hp'. cbn [pi_len with_packet]. rewrite reframed_length; [lia|apply Hma|apply Hm|lia].
    + apply (flooded_sent _ _ _ _ _ _ t k a); [done|done| |done].
      apply reframed_take; [apply Hma|apply Hm|lia].
  - assert (interfaces_of w2 = interfaces_of w1) as Hif by exact (interfaces_of_proper _ _ H2).
    destruct (interface_same w1 w2 j x1 Hif Hx1) as (x2 & Hx2 & Hpl).
    destruct (plain_fields _ _ Hpl) as (_ & Em2 & Ei2 & _).
    rewrite Em in Em2. rewrite Ei in Ei2.
    pose proof (park_run (with_packet p2 pi) j x2 dest w2 ltac:(cbn; lia) Hx2
      ltac:(rewrite Em2; apply Hm)) as E4. rewrite Em2, Ei2 in E4. mstep E4.
    eexists _, _. split; [reflexivity|]. split_and!; [done|cbn; lia|].
    apply (flooded_parked _ _ _ _ _ _ t); [done|done|]. eexists _, _. split_and!; [done..|cbn; lia|done|done].
Qed.

(** The targets of interface [j]; the sender is left out on the interface the
    update came from. *)
Definition flood_at (locked : nat) (sender : Z) (j : nat) (x : interface) : list target :=
  (λ e, Target j (if_mac x) (if_ip x) (neighbour_ip e)) <$>
    (if decide (j = locked) then filter (λ e, neighbour_ip e ≠ sender) (packet (if_neighbours x))
     else packet (if_neighbours x)).

Definition flood_targets (locked : nat) (sender : Z) (l : list interface) : list target :=
  concat (imap (flood_at locked sender) l).

(** What flooding relies on. *)
Record wf_flooder (w : world) : Prop := {
  wl_cache : wf_cache (arp_cache (w_router w));
  wl_macs : wf_macs (cache_of w);
  wl_parked : wf_queue sizeof_iparp_buffer_entry (iparp_buffer (w_router w));
  wl_interfaces : Forall wf_advertised (interfaces_of w)
}.

Lemma flood_entries w rid seq lsas l pi w1 j x (P : pwospf_list_entry → bool) es k :
  wf_flooder w → interfaces_of w !! j = Some x → wf_mac (if_mac x) → is_u32 (if_ip x) →
  Forall (λ e, is_u32 (neighbour_ip e)) es → flood_inv w rid seq lsas l pi w1 →
  ∃ pi' w2,
    for_array (λ n entry pi, if P entry then pwospf_reflood_to pi j (neighbour_ip entry) else mret pi)
      k es pi w1 = Ok pi' w2 ∧
    flood_inv w rid seq lsas
      (l ++ ((λ e, Target j (if_mac x) (if_ip x) (neighbour_ip e)) <$> filter P es)) pi' w2.
Proof.
  intros Hwf Hx Hm Hip Hes. revert l pi w1 k.
  induction Hes as [|e es He Hes IH]; intros l pi w1 k Hinv; cbn [for_array].
  { exists pi, w1. split; [done|]. by rewrite app_nil_r. }
  rewrite filter_cons. destruct (P e) eqn:Hp.
  - rewrite decide_True, fmap_cons, cons_middle, app_assoc by done.
    destruct (flood_step w rid seq lsas l pi w1 j x (neighbour_ip e)) as (pi' & w2 & E & Hinv');
      [apply Hwf..|done|done|done|done|done|]. mstep E. by apply IH.
  - rewrite decide_False by (intros []). mrun. by apply IH.
Qed.

Lemma flood_inv_put w rid seq lsas l pi w1 j q x1 :
  interfaces (w_router w1) !! j = Some x1 → erase_queue q = erase_queue (if_neighbours x1) →
  flood_inv w rid seq lsas l pi w1 →
  flood_inv w rid seq lsas l pi (set_w_router (put_neighbours j q (w_router w1)) w1).
Proof.
  intros Hx Hq (H1 & H2 & H3). split_and!; [done|done|]. eapply flooded_equiv; [exact H3|].
  by eapply put_neighbours_equiv.
Qed.

(** The neighbours of interface [j], seen after some flooding. *)
Lemma flood_neighbours w rid seq lsas l pi w1 j x :
  flood_inv w rid seq lsas l pi w1 → interfaces_of w !! j = Some x →
  ∃ x1, interfaces (w_router w1) !! j = Some x1 ∧ plain_interface x1 = x.
Proof.
  intros (_ & _ & Hfl) Hx. rewrite <-(quiet_interfaces _ _ (fl_rest _ _ _ _ _ _ Hfl)) in Hx.
  unfold interfaces_of in Hx. rewrite list_lookup_fmap in Hx.
  destruct (interfaces (w_router w1) !! j) as [x1|]; [|done]. exists x1. by injection Hx as ->.
Qed.

Lemma reflood_interface w rid seq lsas l pi w1 j x locked sender :
  wf_flooder w → interfaces_of w !! j = Some x → flood_inv w rid seq lsas l pi w1 →
  ∃ pi' w2,
    (neighbours ← get_neighbours j;
     if bool_decide (j = locked) then
       for_unsafe sizeof_pwospf_list_entry
         (λ n entry pi,
            if negb (neighbour_ip entry =? sender)
            then pwospf_reflood_to pi j (neighbour_ip entry) else mret pi) neighbours pi
     else
       res ← for_locked_M sizeof_pwospf_list_entry
         (λ n entry pi, pwospf_reflood_to pi j (neighbour_ip entry)) neighbours pi;
       modify_router (put_neighbours j res.1);;
       mret res.2) w1 = Ok pi' w2 ∧
    flood_inv w rid seq lsas (l ++ flood_at locked sender j x) pi' w2.
Proof.
  intros Hwf Hx Hinv.
  destruct (Forall_lookup_1 _ _ _ _ (wl_interfaces _ Hwf) Hx) as ((Hm & Hip & _) & Hq & Hnb).
  assert (Forall (λ e, is_u32 (neighbour_ip e)) (packet (if_neighbours x))) as Hes
    by (eapply Forall_impl; [exact Hnb|]; by intros e [_ ?]).
  destruct (flood_neighbours _ _ _ _ _ _ _ _ _ Hinv Hx) as (x1 & Hx1 & Hpl).
  assert (wf_list_queue (if_neighbours x1)) as Hq1
    by (eapply wf_erase; [|exact Hq]; by rewrite <-Hpl).
  assert (packet (if_neighbours x1) = packet (if_neighbours x)) as Hp1 by by rewrite <-Hpl.
  unfold get_neighbours at 1, get_interface at 1. mrun. mstep Hx1. mrun. unfold flood_at.
  destruct (decide (j = locked)) as [Hj|Hj].
  - rewrite bool_decide_eq_true_2 by done. rewrite for_unsafe_spec, Hp1 by done.
    destruct (flood_entries w rid seq lsas l pi w1 j x (λ e, negb (neighbour_ip e =? sender))
      (packet (if_neighbours x)) 0) as (pi' & w2 & E & H2); [done..|].
    exists pi', w2. split; [exact E|].
    rewrite (list_filter_iff _ (λ e, neighbour_ip e ≠ sender)) in H2; [done|].
    intros e. destruct (Z.eqb_spec (neighbour_ip e) sender); cbn; split; done || tauto.
  - rewrite bool_decide_eq_false_2 by done.
    destruct (for_locked_M_spec _ (λ n entry pi, pwospf_reflood_to pi j (neighbour_ip entry))
      (if_neighbours x1) pi w1 Hq1) as (q' & Hq' & Hp' & E). rewrite Hp1 in E.
    destruct (flood_entries w rid seq lsas l pi w1 j x (λ e, true)
      (packet (if_neighbours x)) 0) as (pi' & w2 & E2 & H2); [done..|]. rewrite E2 in E.
    mstep E. mrun. eexists _, _. split; [reflexivity|]. cbn [fst snd].
    rewrite filter_every in H2.
    destruct (flood_neighbours _ _ _ _ _ _ _ _ _ H2 Hx) as (x2 & Hx2 & Hpl2).
    eapply flood_inv_put; [exact Hx2| |exact H2].
    etrans; [by apply (wf_erase_eq _ _ _ Hq' Hq1)|].
    exact (f_equal if_neighbours (eq_trans Hpl (eq_sym Hpl2))).
Qed.

Lemma reflood_run pi rid seq lsas locked sender w :
  wf_flooder w → lsu_body (pi_packet pi) rid seq lsas →
  pi_len pi = Z.of_nat (length (pi_packet pi)) →
  ∃ pi' w', pwospf_reflood_packetpartiallyunsafe pi sender locked w = Ok pi' w' ∧
    flood_inv w rid seq lsas (flood_targets locked sender (interfaces_of w)) pi' w'.
Proof.
  intros Hwf Hb Hl. unfold pwospf_reflood_packetpartiallyunsafe. mrun.
  match goal with |- context [for_array ?body 0 ?ifs pi w] =>
    destruct (for_array_inv (λ k pi' w',
      flood_inv w rid seq lsas (flood_targets locked sender (take k (interfaces_of w))) pi' w')
      body ifs 0 pi w) as (pi' & w' & E & Hinv) end.
  - split_and!; [done|done|]. split; [done|apply Hwf|exists []; by rewrite app_nil_r
      |exists []; by rewrite app_nil_r].
  - intros k x0 pi1 w1 Hx Hinv. cbn [Nat.add] in *.
    assert (interfaces_of w !! k = Some (plain_interface x0)) as Hx'
      by (unfold interfaces_of; by rewrite list_lookup_fmap, Hx).
    destruct (reflood_interface w rid seq lsas _ pi1 w1 k _ locked sender Hwf Hx' Hinv)
      as (pi2 & w2 & E & H2). exists pi2, w2. split; [exact E|].
    rewrite Nat.add_1_r, (take_S_r _ _ _ Hx'). unfold flood_targets in *.
    rewrite imap_app, concat_app. cbn [imap concat]. rewrite app_nil_r, length_take, Nat.add_0_r.
    rewrite Nat.min_l by (apply lookup_lt_Some in Hx'; lia). exact H2.
  - exists pi', w'. split; [exact E|]. cbn [Nat.add] in Hinv.
    rewrite firstn_all2 in Hinv; [done|]. unfold interfaces_of. by rewrite length_fmap.
Qed.

(** * Naming the originator *)

(** Entries without a router are those of the originator itself. *)
Definition renamed (from to : Z) (l : list pwospf_lsa) : list pwospf_lsa :=
  (λ a, if lsa_router_id a =? from then Lsa (lsa_subnet a) (lsa_netmask a) to else a) <$> l.

Lemma payload_get_inv p g a :
  payload_get p g = Some a →
  getf pwospf_lsa_layout "subnet" p (payload_base g) = Some (lsa_subnet a) ∧
  getf pwospf_lsa_layout "netmask" p (payload_base g) = Some (lsa_netmask a) ∧
  getf pwospf_lsa_layout "router_id" p (payload_base g) = Some (lsa_router_id a).
Proof.
  unfold payload_get.
  destruct (getf pwospf_lsa_layout "subnet" p (payload_base g)); [|done].
  destruct (getf pwospf_lsa_layout "netmask" p (payload_base g)); [|done].
  destruct (getf pwospf_lsa_layout "router_id" p (payload_base g)); [|done]. by intros [= <-].
Qed.

(** One entry renamed in place. *)
Lemma rename_entry p g a from to :
  payload_get p g = Some a → is_u32 to → bytes p → (payload_base (S g) <= length p)%nat →
  ∃ p', (if lsa_router_id a =? from then setf pwospf_lsa_layout "router_id" p (payload_base g) to
         else Some p) = Some p' ∧ length p' = length p ∧ bytes p' ∧
    payload_get p' g = Some (if lsa_router_id a =? from then Lsa (lsa_subnet a) (lsa_netmask a) to else a) ∧
    take (payload_base g) p' = take (payload_base g) p ∧
    drop (payload_base (S g)) p' = drop (payload_base (S g)) p.
Proof.
  intros Ha Ht Hb Hl. destruct (lsa_router_id a =? from); [|by exists p].
  destruct (payload_get_inv _ _ _ Ha) as (H1 & H2 & _). rewrite payload_base_eq in Hl.
  destruct (setf_ok pwospf_lsa_layout "router_id" p (payload_base g) to) as (p' & E & L).
  { rewrite payload_base_eq. cbn. lia. }
  exists p'. split_and!; [done|done|by eapply setf_bytes| |by eapply setf_take|].
  - unfold payload_get.
    rewrite (getf_setf_other _ "subnet" _ _ _ (payload_base g) _ _ _ E), H1.
    2: { apply orb_true_iff. right. apply Nat.leb_le. cbn. lia. }
    rewrite (getf_setf_other _ "netmask" _ _ _ (payload_base g) _ _ _ E), H2.
    2: { apply orb_true_iff. right. apply Nat.leb_le. cbn. lia. }
    rewrite (getf_setf_same _ _ _ _ _ _ E); [done|]. cbn. unfold is_u32 in Ht. lia.
  - eapply setf_drop; [exact E|]. rewrite !payload_base_eq. cbn. lia.
Qed.

Lemma payload_get_take p p' g k :
  take k p' = take k p → (payload_base (S g) <= k)%nat → payload_get p' g = payload_get p g.
Proof.
  intros Hk Hl. unfold payload_get, getf, load. rewrite payload_base_eq in Hl.
  by rewrite !(get_bytes_take p' p k) by (done || (rewrite payload_base_eq; cbn; lia)).
Qed.

Lemma payload_rename_ok n g from to p l :
  payload_read n g p = Some l → is_u32 to → bytes p → (payload_base (g + n) <= length p)%nat →
  ∃ p', payload_rename n g from to p = Some p' ∧ length p' = length p ∧ bytes p' ∧
    payload_read n g p' = Some (renamed from to l) ∧
    take (payload_base g) p' = take (payload_base g) p.
Proof.
  intros Hr Ht. revert g p l Hr. induction n as [|n IH]; intros g p l Hr Hb Hl.
  { injection Hr as <-. by exists p. }
  cbn [payload_read] in Hr. destruct (payload_get p g) as [a|] eqn:Ha; [|done]. cbn in Hr.
  destruct (payload_read n (S g) p) as [l'|] eqn:Hr'; [|done]. injection Hr as <-.
  assert (payload_base (S g + n) <= length p)%nat as Hl'
    by (by replace (S g + n)%nat with (g + S n)%nat by lia).
  destruct (rename_entry p g a from to) as (p1 & E1 & L1 & B1 & G1 & T1 & D1); [done..| |].
  { rewrite payload_base_eq in *. lia. }
  destruct (IH (S g) p1 l') as (p2 & E2 & L2 & B2 & R2 & T2); [|done|by rewrite L1|].
  { rewrite <-Hr'. by apply payload_read_same. }
  exists p2. cbn [payload_rename payload_read]. rewrite (proj2 (proj2 (payload_get_inv _ _ _ Ha))).
  cbn [mbind option_bind]. rewrite E1. cbn [mbind option_bind]. split_and!; [done|congruence|done| |].
  - rewrite (payload_get_take p1 p2 g (payload_base (S g))), G1 by done. cbn. by rewrite R2.
  - transitivity (take (payload_base g) p1); [|done].
    assert (∀ q : list Z, take (payload_base g) q = take (payload_base g) (take (payload_base (S g)) q))
      as Htt by (intros q; rewrite take_take; f_equal; rewrite !payload_base_eq; lia).
    by rewrite (Htt p2), T2, <-Htt.
Qed.

(** ** Renaming back and forth *)

Lemma take_more (p p' : list Z) o n :
  take o p = take o p' → get_bytes p o n = get_bytes p' o n → (o + n <= length p)%nat →
  (o + n <= length p')%nat → take (o + n) p = take (o + n) p'.
Proof.
  intros Ht Hg H1 H2. rewrite !get_bytes_Some in Hg by done. injection Hg as Hg.
  rewrite <-!take_take_drop. by rewrite Ht, Hg.
Qed.

Lemma getf_bytes_eq l f p p' b v :
  bytes p → bytes p' → getf l f p b = Some v → getf l f p' b = Some v →
  get_bytes p (b + foff l f) (flen l f) = get_bytes p' (b + foff l f) (flen l f).
Proof.
  intros Hb Hb' H H'. unfold getf, load in *.
  destruct (get_bytes p _ _) as [d|] eqn:E; [|done]. destruct (get_bytes p' _ _) as [d'|] eqn:E'; [|done].
  injection H as H. injection H' as H'. f_equal.
  rewrite <-(le_split_combine d (get_bytes_bytes _ _ _ _ Hb E)).
  rewrite <-(le_split_combine d' (get_bytes_bytes _ _ _ _ Hb' E')).
  by rewrite (get_bytes_length _ _ _ _ E), (get_bytes_length _ _ _ _ E'), H, H'.
Qed.

Lemma payload_entry_eq p p' g a :
  bytes p → bytes p' → length p' = length p → payload_get p g = Some a → payload_get p' g = Some a →
  (payload_base (S g) <= length p)%nat → take (payload_base g) p = take (payload_base g) p' →
  take (payload_base (S g)) p = take (payload_base (S g)) p'.
Proof.
  intros Hb Hb' Hl (H1 & H2 & H3)%payload_get_inv (H1' & H2' & H3')%payload_get_inv Hlen Ht.
  pose proof (getf_bytes_eq _ _ _ _ _ _ Hb Hb' H1 H1') as E1.
  pose proof (getf_bytes_eq _ _ _ _ _ _ Hb Hb' H2 H2') as E2.
  pose proof (getf_bytes_eq _ _ _ _ _ _ Hb Hb' H3 H3') as E3.
  rewrite payload_base_eq in *. cbn [foff flen] in E1, E2, E3.
  replace (66 + S g * 12)%nat with (66 + g * 12 + 4 + 4 + 4)%nat in * by lia.
  apply take_more; [|replace (66 + g * 12 + 4 + 4)%nat with (66 + g * 12 + 8)%nat by lia; exact E3|lia|lia].
  apply take_more; [|exact E2|lia|lia].
  apply take_more; [done| |lia|lia]. replace (66 + g * 12)%nat with (66 + g * 12 + 0)%nat by lia. exact E1.
Qed.

(** A packet is its header and its payload. *)
Lemma payload_inj n g p p' l :
  bytes p → bytes p' → length p' = length p → length p = payload_base (g + n) →
  payload_read n g p = Some l → payload_read n g p' = Some l →
  take (payload_base g) p = take (payload_base g) p' → p = p'.
Proof.
  intros Hb Hb' Hl. revert g l. induction n as [|n IH]; intros g l Hlen H H' Ht.
  { rewrite Nat.add_0_r in Hlen. rewrite !firstn_all2 in Ht by lia. done. }
  cbn [payload_read] in *. destruct (payload_get p g) as [a|] eqn:Ea; [|done].
  destruct (payload_get p' g) as [a'|] eqn:Ea'; [|done]. cbn in H, H'.
  destruct (payload_read n (S g) p) as [r|] eqn:Er; [|done].
  destruct (payload_read n (S g) p') as [r'|] eqn:Er'; [|done].
  cbn in H, H'. rewrite <-H in H'. injection H' as -> ->. apply (IH (S g) r); [|done|done|].
  - by replace (S g + n)%nat with (g + S n)%nat by lia.
  - apply (payload_entry_eq _ _ _ a); try done. rewrite Hlen, !payload_base_eq. lia.
Qed.

Lemma renamed_back rid l :
  Forall (λ a, lsa_router_id a ≠ rid) l → renamed rid 0 (renamed 0 rid l) = l.
Proof.
  intros H. induction H as [|a l Ha _ IH]; [done|]. cbn. f_equal; [|exact IH].
  destruct (Z.eqb_spec (lsa_router_id a) 0) as [E|E].
  - cbn. rewrite Z.eqb_refl. rewrite <-E. by destruct a.
  - by rewrite (proj2 (Z.eqb_neq _ _) Ha).
Qed.

(** [payload_rename] undone. *)
Lemma payload_renamed_back p rid lsas :
  lsu_buffer p lsas → is_u32 rid → Forall (λ a, lsa_router_id a ≠ rid) lsas →
  let n := length lsas in
  ∃ p1, payload_rename n 0 0 rid p = Some p1 ∧ payload_read n 0 p1 = Some (renamed 0 rid lsas) ∧
        payload_rename n 0 rid 0 p1 = Some p.
Proof.
  intros [Hb Hl Hp _] Hr Hne n.
  destruct (payload_rename_ok n 0 0 rid p lsas) as (p1 & E1 & L1 & B1 & R1 & T1);
    [done|done|done|by rewrite Hl|].
  destruct (payload_rename_ok n 0 rid 0 p1 (renamed 0 rid lsas)) as (p2 & E2 & L2 & B2 & R2 & T2);
    [done|done|done|by rewrite L1, Hl|].
  rewrite renamed_back in R2 by done. exists p1. split_and!; [done|done|]. rewrite E2. f_equal. symmetry.
  apply (payload_inj n 0 p p2 lsas); [done|done|congruence|done|done|done|]. by rewrite T2, T1.
Qed.
