(* ===== verification/PwospfProps.v ===== *)
(** Properties of the PWOSPF protocol. *)

From stdpp Require Import base tactics list numbers strings.
From Stdlib Require Import ZArith Lia.
From S2P Require Import Prelude Dataqueue Common Packets State Loops Ethernet Arp Routing.
From S2P Require Import IpHeader Ping Dijkstra ShortestPath DijkstraSpec Pwospf PwospfInput Dns.
From S2P Require Import Ip ArpInput Router IpSpec ArpSpec IcmpSpec Samples TableProps PacketProps.
From S2P Require Import DijkstraProps PwospfSpec LsuSpec.

Local Open Scope Z_scope.

(** a HELLO round sends exactly one frame per interface, in the order of
    the interfaces and nothing else changes: a broadcast frame with the
    hardware address of the interface, an IPv4 header that verifies, from the
    address of the interface to AllSPFRouters, and a version 2 HELLO with the
    router id, the netmask of the interface, the HELLO interval and a checksum
    that verifies. *)
Theorem hello_round_sends_hellos w :
  wf_speaker w →
  ∃ frames, send_pwospf_hello_packet w = Ok tt (set_w_out (w_out w ++ frames) w) ∧
    length frames = length (interfaces (w_router w)) ∧
    ∀ k x fr, interfaces (w_router w) !! k = Some x → frames !! k = Some fr →
              hello_of (pw_router_id (pw_router (w_router w))) k x fr.
Proof. apply send_hello_run. Qed.

Lemma sample_speaker : wf_speaker (sample_world [] []).
Proof. split; [repeat constructor; vm_compute; done|vm_compute; done]. Qed.

Lemma hello_round_sends_hellos_witness :
  ∃ f g, send_pwospf_hello_packet (sample_world [] [])
    = Ok tt (set_w_out [Frame 0 f; Frame 1 g] (sample_world [] [])) ∧ hello_frame g mac1 ip1 ip0 mask24.
Proof.
  destruct (hello_round_sends_hellos (sample_world [] []) sample_speaker) as (frames & E & Hl & Hf).
  destruct frames as [|fr0 [|fr1 [|]]]; try discriminate Hl.
  destruct (Hf 0%nat eth0 fr0 eq_refl eq_refl) as (f & -> & _).
  destruct (Hf 1%nat eth1 fr1 eq_refl eq_refl) as (g & -> & Hg).
  exists f, g. split; [exact E|exact Hg].
Defined.

(** a HELLO of a known immediate neighbour, received on an interface with
    the same netmask and HELLO interval, is accepted and refreshes the entry of
    the neighbour: router id, interval and time of the last HELLO are updated,
    its link state stays, no other entry of the queue changes and no frame is
    sent. *)
Theorem hello_refreshes_neighbour i f smac src rid mask x n e w :
  hello_frame f smac src rid mask → length smac = 6%nat → pw_area_id (pw_router (w_router w)) = 0 →
  interfaces (w_router w) !! i = Some x → if_subnet_mask x = mask → if_helloint x = HELLOINT →
  wf_list_queue (if_neighbours x) →
  Spec.find_from (λ e, neighbour_ip e =? src) 0 (packet (if_neighbours x)) = Some (n, e) →
  immediate_neighbour e ≠ 0 →
  ∃ q, router_handle_packet (heard_packet i f) w
    = Ok tt (set_w_ticks (S (w_ticks w)) (set_w_router (put_neighbours i q (w_router w)) w)) ∧
    wf_list_queue q ∧
    packet q = <[n := refreshed rid (w_clock w (w_ticks w)) e]> (packet (if_neighbours x)).
Proof.
  intros H Hs Ha Hx Hm Hh Hq Hf Him. rewrite (hello_dispatch i f smac src rid mask w) by done.
  by eapply hello_refreshes.
Qed.

(** A neighbour with the address of the first sample interface. *)
Definition heard_before : pwospf_list_entry :=
  ListEntry 9 ip0 5 (Timeval 100 0) 1 0 LsaNull 0 (Timeval 0 0).

Definition listening_world : world :=
  set_w_router
    (set_interfaces [set_if_neighbours (queue_of sizeof_pwospf_list_entry [heard_before]) eth0]
       (sample_router [] [route0; route1] [])) (sample_world [] []).

Lemma hello_refreshes_neighbour_witness :
  ∃ f q w', router_handle_packet (heard_packet 0 f) listening_world = Ok tt w' ∧
    interfaces (w_router w') = [set_if_neighbours q eth0] ∧
    packet q = [refreshed ip0 (Timeval 500 0) heard_before].
Proof.
  destruct (send_hello_run (sample_world [] []) sample_speaker) as (frames & _ & Hl & Hf).
  destruct frames as [|fr0 [|fr1 [|]]]; try discriminate Hl.
  destruct (Hf 0%nat eth0 fr0 eq_refl eq_refl) as (f & _ & Hfr).
  destruct (hello_refreshes_neighbour 0 f mac0 ip0 ip0 mask24
    (set_if_neighbours (queue_of sizeof_pwospf_list_entry [heard_before]) eth0) 0 heard_before
    listening_world) as (q & E & _ & Hp).
  - exact Hfr.
  - reflexivity.
  - reflexivity.
  - reflexivity.
  - reflexivity.
  - reflexivity.
  - apply queue_of_wf.
  - reflexivity.
  - discriminate.
  - exists f, q. eexists. split; [exact E|]. split; [reflexivity|exact Hp].
Defined.

(** the payload of a link state update survives the wire: what
    [write_topology] writes behind the headers is what the receiver copies out
    of the packet into its database, entry by entry, and the bytes in front of
    the payload are untouched. *)
Theorem link_payload_roundtrip q p w :
  wf_queue sizeof_pwospf_lsa q → Forall wf_lsa (packet q) →
  (payload_base (length (packet q)) <= length p)%nat →
  ∃ p', write_topology q p w = Ok p' w ∧ length p' = length p ∧
    get_bytes p' 0 (payload_base 0) = get_bytes p 0 (payload_base 0) ∧
    ∀ w', copy_payload (Z.of_nat (length (packet q))) p' w' = Ok (LsaArray (packet q)) w'.
Proof.
  intros Hq Hl Hp. destruct (write_lsas_ok 0 (packet q) p Hp) as [p' E].
  exists p'. rewrite write_topology_run, E by done. split_and!; [done| | |].
  - by eapply write_lsas_length.
  - eapply write_lsas_before; [exact E|lia].
  - intros w'. unfold copy_payload. rewrite (proj2 (Z.ltb_ge _ _)), Nat2Z.id by lia.
    by rewrite (write_lsas_read 0 _ _ _ Hl E).
Qed.

Definition sample_lsas : list pwospf_lsa := [Lsa far_subnet mask24 ip_peer; Lsa far_subnet mask24 0].

Lemma link_payload_roundtrip_witness :
  ∃ p', write_topology (queue_of sizeof_pwospf_lsa sample_lsas) (replicate 90 0) (sample_world [] [])
      = Ok p' (sample_world [] []) ∧
    copy_payload 2 p' (sample_world [] []) = Ok (LsaArray sample_lsas) (sample_world [] []).
Proof.
  destruct (link_payload_roundtrip (queue_of sizeof_pwospf_lsa sample_lsas) (replicate 90 0)
    (sample_world [] [])) as (p' & E & _ & _ & H).
  - apply queue_of_wf.
  - repeat constructor; vm_compute; done.
  - vm_compute. lia.
  - exists p'. split; [exact E|]. apply H.
Defined.

(** the topology a router advertises consists of its own subnets and, for
    every immediate neighbour, the subnet together with the neighbour's id, in
    the order of the interfaces and without duplicates; the count it returns is
    their number.  Collecting it changes nothing but mutexes. *)
Theorem get_topology_lists_links w :
  Forall (λ x, wf_list_queue (if_neighbours x)) (interfaces (w_router w)) →
  ∃ q n w', get_topology queue_init w = Ok (q, n) w' ∧ w' ≡ w ∧ wf_queue sizeof_pwospf_lsa q ∧
    NoDup (packet q) ∧ n = Z.of_nat (length (packet q)) ∧
    packet q = distinct (interfaces (w_router w) ≫= advertises).
Proof.
  intros Hw. destruct (get_topology_run w Hw) as ([q n] & w' & E & Hw' & Hq & Hp & Hn).
  exists q, n, w'. cbn [fst snd] in *. rewrite Hp. split_and!; [done..|apply NoDup_distinct|done|done].
Qed.

Lemma get_topology_lists_links_witness :
  ∃ q n w', get_topology queue_init ospf_world = Ok (q, n) w' ∧
    packet q = [Lsa (IP_CONVERT 10 0 0 0) mask24 0; Lsa (IP_CONVERT 10 0 1 0) mask24 0;
                Lsa (IP_CONVERT 10 0 1 0) mask24 ip_peer].
Proof.
  destruct (get_topology_lists_links ospf_world) as (q & n & w' & E & _ & _ & _ & _ & Hp).
  - repeat constructor; apply wf_queue_init || apply queue_of_wf.
  - exists q, n, w'. split; [exact E|]. rewrite Hp. vm_compute. reflexivity.
Defined.

(** C24: a round of link state updates sends exactly one frame to every
    immediate neighbour, in the order of the interfaces and of their neighbour
    queues, and notes the time; nothing else changes but the sequence counter.
    The [k]-th frame leaves by the interface of its neighbour with a broadcast
    hardware address, has an IPv4 header that verifies from the address of the
    interface to the neighbour, and carries the router id, the sequence number
    [hid + k], a PWOSPF checksum that verifies, and a payload that reads back as
    the advertised topology. *)
Theorem lsu_round_sends_updates w :
  wf_advertiser w →
  ∃ frames w', send_pwospf_lsa_packet w = Ok tt w' ∧ w' ≡ after_round w frames ∧
    lsus_of (pw_router_id (pw_router (w_router w))) (w_hid w) (own_lsas w)
      (targets (interfaces_of w)) frames.
Proof. apply send_lsa_run. Qed.

Lemma lsu_round_sends_updates_witness :
  ∃ f w', send_pwospf_lsa_packet ospf_world = Ok tt w' ∧ w_out w' = [Frame 1 f] ∧
    lsu_frame f mac1 ip1 ip_peer ip0 0
      [Lsa (IP_CONVERT 10 0 0 0) mask24 0; Lsa (IP_CONVERT 10 0 1 0) mask24 0;
       Lsa (IP_CONVERT 10 0 1 0) mask24 ip_peer].
Proof.
  destruct (lsu_round_sends_updates ospf_world) as (frames & w' & E & H & Hl & Hf).
  - split; [|discriminate|split; vm_compute; done..|vm_compute; reflexivity].
    repeat constructor; try apply wf_queue_init; try apply queue_of_wf; vm_compute; done.
  - destruct frames as [|fr0 [|]]; try discriminate Hl.
    destruct (Hf 0%nat (Target 1 mac1 ip1 ip_peer) fr0 eq_refl eq_refl) as (f & -> & Hfr).
    exists f, w'. split; [exact E|]. split; [exact (w_out_proper _ _ H)|exact Hfr].
Defined.

(** a HELLO of a router that is not known on the interface, received with
    the same netmask and HELLO interval, makes it an immediate neighbour: its
    entry is appended to the queue of the interface, with an empty link state;
    then the routing table is rebuilt from the link state database and every
    immediate neighbour, the new one included, is sent an update that
    advertises the new link.  The ARP cache and the parked packets stay. *)
Theorem hello_adds_neighbour i f smac src rid mask x w :
  hello_frame f smac src rid mask → length smac = 6%nat → pw_area_id (pw_router (w_router w)) = 0 →
  interfaces (w_router w) !! i = Some x → if_subnet_mask x = mask → if_helloint x = HELLOINT →
  Forall (λ e, neighbour_ip e ≠ src) (packet (if_neighbours x)) →
  wf_speaking w → is_u32 rid → is_u32 src → 78 + Z.of_nat (length (own_lsas w)) * 12 < 65536 →
  ∃ q w', router_handle_packet (heard_packet i f) w = Ok tt w' ∧
    wf_list_queue q ∧ packet q = packet (if_neighbours x) ++ [newcomer rid src w] ∧
    informed (with_neighbours i q w) w'.
Proof. apply hello_from_newcomer. Qed.

(** A router with the first sample interface and a static route. *)
Definition alone_world : world :=
  set_w_router (set_interfaces [eth0] (sample_router [] [route0] [])) (sample_world [] []).

Lemma alone_speaking : wf_speaking alone_world.
Proof.
  split.
  - split_and!; [|by vm_compute..]. repeat constructor; try apply wf_queue_init; vm_compute; done.
  - split; [split; [apply queue_of_wf|repeat constructor; vm_compute; done]|].
    repeat constructor; vm_compute; lia.
  - discriminate.
  - split; [|discriminate|split; vm_compute; done..|vm_compute; reflexivity].
    repeat constructor; try apply wf_queue_init; vm_compute; done.
Qed.

Lemma hello_adds_neighbour_witness :
  ∃ f g w', router_handle_packet (heard_packet 0 f) alone_world = Ok tt w' ∧
    w_out w' = [Frame 0 g] ∧
    lsu_frame g mac0 ip0 ip0 ip0 0 [Lsa (IP_CONVERT 10 0 0 0) mask24 0; Lsa (IP_CONVERT 10 0 0 0) mask24 ip0].
Proof.
  destruct (send_hello_run (sample_world [] []) sample_speaker) as (frames & _ & Hl & Hf).
  destruct frames as [|fr0 [|fr1 [|]]]; try discriminate Hl.
  destruct (Hf 0%nat eth0 fr0 eq_refl eq_refl) as (f & _ & Hfr).
  destruct (hello_adds_neighbour 0 f mac0 ip0 ip0 mask24 eth0 alone_world)
    as (q & w' & E & _ & Hp & [_ _ _ _ _ (out & Hout & Hlen & Hlsu)]).
  - exact Hfr.
  - reflexivity.
  - reflexivity.
  - reflexivity.
  - reflexivity.
  - reflexivity.
  - constructor.
  - exact alone_speaking.
  - split; vm_compute; done.
  - split; vm_compute; done.
  - vm_compute. reflexivity.
  - unfold own_lsas, targets, targets_at, advertises, interfaces_of in Hlen, Hlsu.
    cbn in Hlen, Hlsu. rewrite Hp in Hlen, Hlsu.
    destruct out as [|o [|]]; try discriminate Hlen.
    destruct (Hlsu 0%nat _ o eq_refl eq_refl) as (g & -> & Hg).
    exists f, g, w'. split; [exact E|]. split; [exact Hout|exact Hg].
Defined.

(** C40: a link state update whose advertisement count is 0xFFFFFFFF crashes the
    router.  The count is read as -1, the length it announces is then smaller
    than the packet, the checksum is taken over 20 bytes only, and the copy of
    -1 entries writes through a null pointer. *)
Theorem negative_link_count_crashes pi i x w rid seq src :
  wf_packet pi → 66 <= pi_len pi → pi_interface pi = Some i → interfaces (w_router w) !! i = Some x →
  wf_list_queue (if_neighbours x) →
  link_get "advert" (pi_packet pi) = Some (htonl (u32 (-1))) →
  generatechecksum (drop L4_BASE (pi_packet pi)) 20 = Some 0 →
  link_get "router_id" (pi_packet pi) = Some rid → link_get "seq" (pi_packet pi) = Some seq →
  ip_get "src_ip" (pi_packet pi) = Some src → rid ≠ pw_router_id (pw_router (w_router w)) →
  Forall (λ e, neighbour_id e ≠ rid) (packet (if_neighbours x)) →
  pwospf_onreceive_link pi w = Fault NullDeref.
Proof. apply negative_advert_crashes. Qed.

Definition bad_update : list Z :=
  sample_packet ip_host ALLSPFRouters IP_TYPE_OSPF
    ([2; 4; 0; 32; 9; 9; 9; 9; 0; 0; 0; 0; 235; 201; 0; 0] ++ replicate 12 0 ++ [255; 255; 255; 255]).

Lemma negative_link_count_crashes_witness :
  pwospf_onreceive_link (received 0 bad_update) (sample_world [] []) = Fault NullDeref.
Proof.
  apply (negative_link_count_crashes (received 0 bad_update) 0 eth0 (sample_world [] []) 151587081 0 ip_host).
  - apply wf_packet_check; vm_compute; [reflexivity|split; [discriminate|reflexivity]].
  - vm_compute. discriminate.
  - reflexivity.
  - reflexivity.
  - apply wf_queue_init.
  - vm_compute. reflexivity.
  - vm_compute. reflexivity.
  - vm_compute. reflexivity.
  - vm_compute. reflexivity.
  - vm_compute. reflexivity.
  - vm_compute. discriminate.
  - constructor.
Defined.
