(* ===== verification/DnsSpec.v ===== *)
(** Theorems on the DNS server (file Dns): the encoding of names and the
    search of the database. *)

From stdpp Require Import base tactics list numbers strings.
From Stdlib Require Import ZArith Lia.
From S2P Require Import Prelude Dataqueue Common Packets State Loops Ethernet Arp Routing.
From S2P Require Import IpHeader Ping Dijkstra Pwospf PwospfInput Dns Ip ArpInput Router IpSpec.
From S2P Require Import IcmpSpec Samples.

Local Open Scope Z_scope.

(** * Names on the wire *)

(** A label: 1 to 255 bytes, none of them zero. *)
Definition wf_label (s : list Z) : Prop :=
  (0 < length s < 256)%nat ∧ Forall (λ b, 0 < b < 256) s.

Lemma cstr_label s : Forall (λ b, 0 < b < 256) s → cstr s = s.
Proof.
  induction 1 as [|b s Hb Hs IH]; [done|]. cbn [cstr]. rewrite (proj2 (Z.eqb_neq b 0)) by lia.
  by rewrite IH.
Qed.

(** The encoding of a list of labels, without its final zero. *)
Definition wire (l : list (list Z)) : list Z := l ≫= λ s, Z.of_nat (length s) :: s.

Lemma wire_cons s l : wire (s :: l) = Z.of_nat (length s) :: s ++ wire l.
Proof. done. Qed.

Lemma encode_labels_wire pre l :
  Forall wf_label l → encode_labels (length l) (length pre) (pre ++ l) = Some (wire l).
Proof.
  revert pre. induction l as [|s l IH]; intros pre Hl; [done|].
  rewrite Forall_cons in Hl. destruct Hl as [[Hs Hb] Hl]. cbn [encode_labels length].
  unfold name_at. rewrite list_lookup_middle by done. cbn [mbind option_bind].
  specialize (IH (pre ++ [s]) Hl). rewrite length_app, Nat.add_1_r, <-app_assoc in IH.
  cbn [app] in IH. rewrite IH. cbn [mbind option_bind]. unfold strlen. rewrite cstr_label by done.
  rewrite u8_small by (unfold is_byte; lia). done.
Qed.

Lemma encode_dns_string_wire l :
  Forall wf_label l → encode_dns_string l (Z.of_nat (length l)) = Some (wire l ++ [0]).
Proof.
  intros Hl. unfold encode_dns_string. rewrite Nat2Z.id.
  by rewrite (encode_labels_wire [] l Hl : encode_labels (length l) 0 l = _).
Qed.

Lemma encoding_size_wire pre l total :
  Forall wf_label l →
  encoding_size (length l) (length pre) (pre ++ l) total
  = Some (total + Z.of_nat (length (wire l)) + 1).
Proof.
  revert pre total. induction l as [|s l IH]; intros pre total Hl.
  { cbn. f_equal. lia. }
  rewrite Forall_cons in Hl. destruct Hl as [[Hs Hb] Hl]. cbn [encoding_size length].
  unfold name_at. rewrite list_lookup_middle by done. cbn [mbind option_bind].
  specialize (IH (pre ++ [s]) (total + strlen s + 1) Hl).
  rewrite length_app, Nat.add_1_r, <-app_assoc in IH. cbn [app] in IH. rewrite IH.
  f_equal. unfold strlen. rewrite wire_cons, cstr_label by done. cbn [length].
  rewrite length_app. lia.
Qed.

Lemma calctotalsize_wire l :
  Forall wf_label l →
  calctotalsizeofencoding l (Z.of_nat (length l)) = Some (Z.of_nat (length (wire l ++ [0]))).
Proof.
  intros Hl. unfold calctotalsizeofencoding. rewrite Nat2Z.id.
  rewrite (encoding_size_wire [] l 0 Hl : encoding_size (length l) 0 l 0 = _).
  f_equal. rewrite length_app. cbn. lia.
Qed.

Lemma parse_labels_wire l rest fuel :
  Forall wf_label l → (length l < fuel)%nat →
  parse_labels fuel (wire l ++ 0 :: rest) = Some (l, rest).
Proof.
  revert fuel. induction l as [|s l IH]; intros fuel Hl Hf; (destruct fuel as [|fuel]; [lia|]).
  { done. }
  rewrite Forall_cons in Hl. destruct Hl as [[Hs Hb] Hl]. cbn [length] in Hf.
  rewrite wire_cons. cbn [app parse_labels]. rewrite <-app_assoc.
  rewrite (proj2 (Z.eqb_neq _ 0)) by lia. rewrite Nat2Z.id.
  rewrite get_bytes_Some by (rewrite length_app; lia).
  rewrite drop_0, take_app_length, drop_app_length. cbn [mbind option_bind].
  rewrite (IH fuel Hl) by lia. done.
Qed.

(** * Search by name *)

Definition wf_db_entry (e : dns_db_entry) : Prop := db_count e = Z.of_nat (length (db_names e)).

Definition same_name (dn : list (list Z)) (e : dns_db_entry) : bool :=
  bool_decide (cstr <$> dn = cstr <$> db_names e).

Lemma names_equal_spec l1 l2 pre1 pre2 b :
  length l1 = length l2 → length pre1 = length pre2 →
  names_equal (length l1) (length pre1) (pre1 ++ l1) (pre2 ++ l2) b
  = Some (b && bool_decide (cstr <$> l1 = cstr <$> l2)).
Proof.
  revert l2 pre1 pre2 b. induction l1 as [|x l1 IH]; intros [|y l2] pre1 pre2 b Hl Hp; try done.
  { cbn. by rewrite andb_true_r. }
  cbn [names_equal length]. unfold name_at. rewrite list_lookup_middle by done.
  rewrite Hp, list_lookup_middle by done. cbn [mbind option_bind].
  specialize (IH l2 (pre1 ++ [x]) (pre2 ++ [y]) (b && strcmp_eq x y)).
  rewrite !length_app, !Nat.add_1_r, <-!app_assoc in IH. cbn [app] in IH.
  rewrite <-Hp, IH by (simpl in Hl; congruence). rewrite <-andb_assoc. unfold strcmp_eq.
  rewrite <-bool_decide_and. do 2 f_equal. apply bool_decide_ext. rewrite !fmap_cons.
  split; [intros [-> ->]; done|intros [= H1 H2]; by split].
Qed.

Lemma find_same_name dn i l :
  Forall wf_db_entry l →
  Spec.visit (domainname_body dn (Z.of_nat (length dn))) i l None
  = (l, (λ e, Found e.2) <$> Spec.find_from (same_name dn) i l).
Proof.
  revert i. induction l as [|e l IH]; intros i Hl; [done|]. rewrite Forall_cons in Hl.
  destruct Hl as [He Hl]. cbn [Spec.visit Spec.find_from]. unfold domainname_body at 1. rewrite He.
  destruct (Z.eqb_spec (Z.of_nat (length dn)) (Z.of_nat (length (db_names e)))) as [Hlen|Hlen].
  - rewrite Nat2Z.id. 
    rewrite (names_equal_spec dn (db_names e) [] [] true ltac:(lia) eq_refl
      : names_equal (length dn) 0 dn (db_names e) true = _).
    cbn [andb]. unfold same_name at 1. case_bool_decide; [done|]. by rewrite IH.
  - assert (same_name dn e = false) as ->.
    { unfold same_name. apply bool_decide_eq_false. intros E%(f_equal length).
      rewrite !length_fmap in E. lia. }
    by rewrite IH.
Qed.

Lemma domainname_search dn w :
  wf_queue sizeof_dns_db_entry (dns_db (w_router w)) →
  Forall wf_db_entry (packet (dns_db (w_router w))) →
  ∃ w', get_by_domainname_array_safe dn (Z.of_nat (length dn)) w
        = Ok (snd <$> Spec.find_from (same_name dn) 0 (packet (dns_db (w_router w)))) w' ∧ w' ≡ w.
Proof.
  intros Hq Hl. unfold get_by_domainname_array_safe, run_search. mrun.
  destruct (queue_foreach_visit _ (domainname_body dn (Z.of_nat (length dn))) _ None Hq)
    as (q & E & Hq' & Hp).
  rewrite find_same_name in E, Hp by done. cbn [fst snd] in E, Hp. mstep E. mrun. cbn [fst snd].
  eexists. split; [destruct (Spec.find_from _ 0 _) as [[i e]|]; reflexivity|].
  destruct (wf_same_sizes _ _ _ Hq' Hq Hp) as [Hs Hz].
  unfold equiv, world_equiv, erase_world, erase_router, erase_queue. cbn. by rewrite Hp, Hs, Hz.
Qed.

(** * Properties *)

(** a domain name survives the wire: what [encode_dns_string] writes for
    labels of 1 to 255 non-zero bytes has exactly the length that
    [calctotalsizeofencoding] announces (so the record never outgrows the
    buffer allocated for it), and parsing it gives the labels back and leaves
    the bytes behind the name. *)
Theorem dns_name_roundtrip l rest :
  Forall wf_label l →
  ∃ enc, encode_dns_string l (Z.of_nat (length l)) = Some enc ∧
    calctotalsizeofencoding l (Z.of_nat (length l)) = Some (Z.of_nat (length enc)) ∧
    parse_labels (S (length (enc ++ rest))) (enc ++ rest) = Some (l, rest).
Proof.
  intros Hl. exists (wire l ++ [0]). split_and!.
  - by apply encode_dns_string_wire.
  - by apply calctotalsize_wire.
  - rewrite <-app_assoc. apply parse_labels_wire; [done|].
    assert (length l <= length (wire l))%nat.
    { clear Hl. induction l as [|s l IH]; [done|]. rewrite wire_cons. cbn [length].
      rewrite length_app. lia. }
    rewrite length_app. lia.
Qed.

Definition sample_name : list (list Z) := [[110; 115]; [108; 97; 110]].

Lemma dns_name_roundtrip_witness :
  ∃ enc, encode_dns_string sample_name 2 = Some enc ∧ enc = [2; 110; 115; 3; 108; 97; 110; 0] ∧
    parse_labels (S (length (enc ++ [0; 1]))) (enc ++ [0; 1]) = Some (sample_name, [0; 1]).
Proof.
  destruct (dns_name_roundtrip sample_name [0; 1]) as (enc & E & _ & P).
  - repeat constructor; cbn; lia.
  - exists enc. split; [exact E|]. split; [|exact P]. vm_compute in E. injection E as <-. reflexivity.
Defined.

(** the search of the database by name finds the first entry whose labels
    are those of the question (compared as C strings), and fails exactly when
    there is none; the database is unchanged. *)
Theorem dns_search_by_name dn w :
  wf_queue sizeof_dns_db_entry (dns_db (w_router w)) →
  Forall wf_db_entry (packet (dns_db (w_router w))) →
  ∃ r w', get_by_domainname_array_safe dn (Z.of_nat (length dn)) w = Ok r w' ∧ w' ≡ w ∧
    match r with
    | Some e => ∃ i, packet (dns_db (w_router w)) !! i = Some e ∧ cstr <$> dn = cstr <$> db_names e ∧
                     ∀ j e', (j < i)%nat → packet (dns_db (w_router w)) !! j = Some e' →
                             cstr <$> dn ≠ cstr <$> db_names e'
    | None => ∀ e, e ∈ packet (dns_db (w_router w)) → cstr <$> dn ≠ cstr <$> db_names e
    end.
Proof.
  intros Hq Hl. destruct (domainname_search dn w Hq Hl) as (w' & E & Hw').
  eexists _, w'. split_and!; [exact E|done|].
  destruct (Spec.find_from (same_name dn) 0 (packet (dns_db (w_router w)))) as [[i e]|] eqn:Hf.
  - apply find_from_Some in Hf as (k & -> & Hk & Hp & Hmin). cbn. exists k.
    unfold same_name in *. apply bool_decide_eq_true in Hp. split_and!; [done..|].
    intros j e' Hj He'. exact (bool_decide_eq_false_1 _ (Hmin j e' Hj He')).
  - apply find_from_None in Hf. rewrite Forall_forall in Hf. intros e He.
    exact (bool_decide_eq_false_1 _ (Hf e He)).
Qed.

Definition dns_entry : dns_db_entry := DnsEntry sample_name 2 1 1 ip0.

Definition dns_world : world :=
  set_w_router (set_dns_db (queue_of sizeof_dns_db_entry [dns_entry]) (sample_router [] [] []))
    (sample_world [] []).

Lemma dns_search_by_name_witness :
  ∃ w', get_by_domainname_array_safe sample_name 2 dns_world = Ok (Some dns_entry) w'.
Proof.
  destruct (dns_search_by_name sample_name dns_world) as (r & w' & E & _).
  - apply queue_of_wf.
  - repeat constructor.
  - exists w'. rewrite (E : get_by_domainname_array_safe sample_name 2 dns_world = _). f_equal.
    vm_compute in E. injection E as <- _. reflexivity.
Defined.
