(* ===== verification/LinkInput.v ===== *)
(** Theorems on the handler of link state updates (file PwospfInput): updates
    seen before are dropped, new ones are flooded, stored under the name of their
    originator, and the routes are rebuilt from them. *)

From stdpp Require Import base tactics list numbers strings.
From Stdlib Require Import ZArith Lia.
From S2P Require Import Prelude Dataqueue Common Packets State Loops Ethernet Arp Routing.
From S2P Require Import IpHeader Ping Dijkstra ShortestPath DijkstraSpec Pwospf PwospfInput Dns.
From S2P Require Import Ip ArpInput Router IpSpec ArpSpec IcmpSpec Samples TableProps PacketProps.
From S2P Require Import PwospfSpec LsuSpec LinkSpec.

Local Open Scope Z_scope.

(** * The stored and the received advertisements *)

Lemma lsa_discovered_ok n j a b l :
  payload_read n j b = Some l → lsa_discovered n j a b = Some (bool_decide (a ∈ l)).
Proof.
  revert j l. induction n as [|n IH]; intros j l H; cbn [payload_read lsa_discovered] in *.
  { injection H as <-. by rewrite bool_decide_eq_false_2 by apply not_elem_of_nil. }
  destruct (payload_get b j) as [a'|]; [|done]. cbn [mbind option_bind] in *.
  destruct (payload_read n (S j) b) as [l'|] eqn:Hl; [|done]. injection H as <-.
  rewrite memcmp_decide. case_bool_decide as Ha.
  - by rewrite bool_decide_eq_true_2 by (rewrite Ha; left).
  - rewrite (IH (S j) l' Hl). f_equal. apply bool_decide_ext. rewrite elem_of_cons. tauto.
Qed.

Lemma compare_loop_ok pre l n b lsas w :
  payload_read n 0 b = Some lsas →
  compare_lsus_loop (length l) (length pre) n (LsaArray (pre ++ l)) b w
  = Ok (forallb (λ a, bool_decide (a ∈ lsas)) l) w.
Proof.
  intros Hb. revert pre. induction l as [|a l IH]; intros pre; [done|].
  cbn [compare_lsus_loop length lsa_read forallb].
  assert ((pre ++ a :: l) !! length pre = Some a) as Ha by by apply list_lookup_middle. mstep Ha.
  mstep (lsa_discovered_ok n 0 a b lsas Hb). destruct (bool_decide (a ∈ lsas)); [|done].
  specialize (IH (pre ++ [a])). rewrite <-app_assoc, length_app, Nat.add_1_r in IH. exact IH.
Qed.

(** Whether an update says what is stored already. *)
Definition same_lsas (stored : lsa_array) (lsas : list pwospf_lsa) : bool :=
  match stored with
  | LsaArray l => (length l =? length lsas)%nat && forallb (λ a, bool_decide (a ∈ lsas)) l
  | _ => false
  end.

(** The test of the handler. *)
Lemma compare_contents e b lsas w :
  wf_neighbour e → payload_read (length lsas) 0 b = Some lsas →
  let n := Z.of_nat (length lsas) in
  (if negb (bool_decide (lsu_lastcontents e = LsaNull)) && (lsu_lastcontents_count e =? n)
   then compare_lsus (lsu_lastcontents e) b (lsu_lastcontents_count e) else mret false) w
  = Ok (same_lsas (lsu_lastcontents e) lsas) w.
Proof.
  intros Hwf Hb n. unfold wf_neighbour in Hwf.
  destruct (lsu_lastcontents e) as [|l|] eqn:E; [done| |done]. destruct Hwf as [Hc _]. rewrite Hc.
  cbn [bool_decide negb andb same_lsas]. destruct (Nat.eqb_spec (length l) (length lsas)) as [Hl|Hl].
  - unfold n. rewrite Hl, Z.eqb_refl. cbn. unfold compare_lsus. rewrite Nat2Z.id.
    pose proof (compare_loop_ok [] l (length lsas) b lsas w Hb) as H. rewrite <-Hl in H at 1.
    cbn [length app] in H. rewrite Hl in H. exact H.
  - unfold n. rewrite (proj2 (Z.eqb_neq _ _)) by lia. done.
Qed.

Lemma copy_payload_ok b lsas n w :
  payload_read n 0 b = Some lsas → copy_payload (Z.of_nat n) b w = Ok (LsaArray lsas) w.
Proof. intros Hb. unfold copy_payload. rewrite (proj2 (Z.ltb_ge _ _)), Nat2Z.id by lia. by mstep Hb. Qed.

(** What is stored of an update that says something else. *)
Lemma store_payload_ok e b lsas w :
  wf_neighbour e → lsas ≠ [] → payload_read (length lsas) 0 b = Some lsas →
  store_payload e (Z.of_nat (length lsas)) b w = Ok (LsaArray lsas) w.
Proof.
  intros Hwf Hne Hb. unfold store_payload, wf_neighbour in *.
  assert (copy_payload (Z.of_nat (length lsas)) b w = Ok (LsaArray lsas) w) as Hcopy
    by by apply copy_payload_ok.
  destruct (lsu_lastcontents e); [done| |done].
  rewrite (proj2 (Z.eqb_neq (Z.of_nat (length lsas)) 0)) by (destruct lsas; [done|cbn; lia]).
  by rewrite andb_false_r.
Qed.

(** * The way to the handler *)

Lemma lsu_dispatch i f src dst rid seq lsas w :
  lsu_packet f src dst rid seq lsas → eth_type f = Some (htons ETH_IP_TYPE) →
  dst ∈ (if_ip <$> interfaces (w_router w)) → pw_area_id (pw_router (w_router w)) = 0 →
  router_handle_packet (received i f) w = pwospf_onreceive_link (received i f) w.
Proof.
  intros H He Hd Ha. pose proof (lsu_accepted _ _ _ _ _ _ H) as Hacc.
  destruct H as [[Hbuf _ _ _ Hpr Htt F] _ Hdst _].
  pose proof (lsu_buffer_size _ _ Hbuf) as [H66 Hsm].
  rewrite handle_ip; [|split; cbn [pi_packet pi_len received]; [apply Hbuf|done|lia]|done].
  change (ip_onreceive (received i f) w)
    with (ip_onreceive_body (ip_onreceive_fuel 1) (received i f) w).
  unfold ip_onreceive_body. cbn [pi_packet received]. mstep Hacc. cbn [negb]. mstep Hdst. mstep Hpr.
  assert (ip_local_ospf (received i f) w = pwospf_onreceive_link (received i f) w) as Hl.
  { unfold ip_local_ospf. cbn [pi_len received]. rewrite can_marshall by (cbn; lia).
    unfold pwospf_onreceive. cbn [pi_packet received]. destruct F as [F1 F2 F3 F4 _ _ _ _ _].
    mstep F1. cbn [negb]. change (OSPF_VERSION =? 2) with true. cbn [negb]. mstep F3. mrun. rewrite Ha.
    change (ntohl 0 =? 0) with true. cbn [negb]. mstep F4. cbn [negb Z.eqb]. mstep F2.
    change (OSPF_TYPE_LINK =? OSPF_TYPE_HELLO) with false.
    change (OSPF_TYPE_LINK =? OSPF_TYPE_LINK) with true. cbv iota. cbn [pi_len received].
    by rewrite can_marshall by (cbn; lia). }
  destruct ((dst =? ALLSPFRouters) && (IP_TYPE_OSPF =? IP_TYPE_OSPF)); [done|]. mrun.
  destruct (own_address_some _ _ Hd) as (j & y & E & _). rewrite E. unfold ip_local.
  cbn [pi_packet received]. mstep Htt. cbn. mstep Hpr. exact Hl.
Qed.

(** * The checks of the handler *)

(** The world in which the neighbours of interface [i] are locked. *)
Definition locked_world (i : nat) (x : interface) (w : world) : world :=
  set_w_router (put_neighbours i (queue_lockall (if_neighbours x)) (w_router w)) w.

Lemma locked_equiv i x w : interfaces (w_router w) !! i = Some x → locked_world i x w ≡ w.
Proof. intros Hx. by apply (put_neighbours_equiv i _ x). Qed.

Lemma ntohl_htonl_small n : 0 <= n < 65536 → s32 (ntohl (htonl n)) = n.
Proof.
  intros Hn. unfold ntohl, htonl. rewrite swap32_involutive by (unfold is_u32; lia). apply s32_small. lia.
Qed.

Lemma link_checked i f src dst rid seq lsas x w :
  lsu_packet f src dst rid seq lsas → interfaces (w_router w) !! i = Some x →
  wf_list_queue (if_neighbours x) →
  let n := Z.of_nat (length lsas) in
  let w1 := locked_world i x w in
  pwospf_onreceive_link (received i f) w =
    if rid =? pw_router_id (pw_router (w_router w)) then Ok tt w else
    match Spec.find_from (λ e, neighbour_id e =? rid) 0 (packet (if_neighbours x)) with
    | Some (k, e) => link_known (received i f) i k e rid (htons seq) n w1
    | None =>
        (modify_neighbours i queue_unlockall;; link_new (received i f) i rid (htons seq) src n) w1
    end.
Proof.
  intros [[Hbuf _ _ _ _ _ F] Hsrc _ _] Hx Hq n w1. unfold pwospf_onreceive_link.
  destruct F as [_ _ _ _ F5 F6 F7 F8 _]. cbn [pi_packet pi_len received].
  destruct Hbuf as [Hb Hl _ Hs]. mstep F7. rewrite ntohl_htonl_small by lia. fold n.
  rewrite payload_base_eq in Hl. rewrite u64_small by lia.
  rewrite (proj2 (Z.ltb_ge _ _)) by (rewrite Hl; unfold n; lia).
  rewrite s32_small by (unfold n; lia). mstep F8. cbn [negb Z.eqb]. mstep F5. mstep F6. mstep Hsrc. mrun.
  cbn [pi_interface received from_option_M]. mrun.
  destruct (rid =? pw_router_id (pw_router (w_router w))); [done|].
  mstep (modify_neighbours_run i queue_lockall x w Hx). change (set_w_router _ w) with w1.
  pose proof (put_neighbours_lookup i (queue_lockall (if_neighbours x)) x w Hx) as Hx1.
  change (set_w_router _ w) with w1 in Hx1.
  unfold get_neighbours at 1, get_interface at 1. mrun. mstep Hx1. mrun.
  cbn [if_neighbours set_if_neighbours].
  pose proof (getneighbour_spec (queue_lockall (if_neighbours x)) rid (wf_lock _ _ Hq)) as Hg. mstep Hg.
  change (packet (queue_lockall (if_neighbours x))) with (packet (if_neighbours x)).
  by destruct (Spec.find_from _ 0 (packet (if_neighbours x))) as [[k e]|].
Qed.

(** The last update of a router. *)
Definition seen_before (e : pwospf_list_entry) (seq : Z) : Prop :=
  lsu_lastcontents e ≠ LsaNull ∧ lsu_lastseq e = htons seq.

Lemma unlock_equiv i x w :
  interfaces (w_router w) !! i = Some x →
  ∃ w', modify_neighbours i queue_unlockall w = Ok tt w' ∧ w' ≡ w.
Proof.
  intros Hx. eexists. split; [by apply modify_neighbours_run|]. by apply (put_neighbours_equiv i _ x).
Qed.

Lemma locked_lookup i x w :
  interfaces (w_router w) !! i = Some x →
  interfaces (w_router (locked_world i x w)) !! i
  = Some (set_if_neighbours (queue_lockall (if_neighbours x)) x).
Proof. apply put_neighbours_lookup. Qed.

Lemma seen_link_dropped i f src dst rid seq lsas x k e w :
  lsu_packet f src dst rid seq lsas → interfaces (w_router w) !! i = Some x →
  wf_list_queue (if_neighbours x) → rid ≠ pw_router_id (pw_router (w_router w)) →
  Spec.find_from (λ e, neighbour_id e =? rid) 0 (packet (if_neighbours x)) = Some (k, e) →
  seen_before e seq → ∃ w', pwospf_onreceive_link (received i f) w = Ok tt w' ∧ w' ≡ w.
Proof.
  intros H Hx Hq Hne Hf [Hk Hs]. rewrite (link_checked i f src dst rid seq lsas x w) by done.
  rewrite (proj2 (Z.eqb_neq _ _) Hne), Hf. unfold link_known. rewrite bool_decide_eq_false_2, Hs, Z.eqb_refl by done.
  cbn [negb andb]. destruct (unlock_equiv i _ _ (locked_lookup i x w Hx)) as (w' & E & Hw').
  exists w'. split; [exact E|]. by rewrite Hw', locked_equiv.
Qed.

(** * An update of a known router *)

Lemma wf_flooder_equiv w w' : w' ≡ w → wf_flooder w → wf_flooder w'.
Proof.
  intros H [H1 H2 H3 H4]. pose proof (erase_router_eq _ _ H) as Hr. split.
  - eapply wf_erase; [|exact H1]. symmetry. exact (f_equal arp_cache Hr).
  - by rewrite (cache_of_proper _ _ H).
  - eapply wf_erase; [|exact H3]. symmetry. exact (f_equal iparp_buffer Hr).
  - by rewrite (interfaces_of_proper _ _ H).
Qed.

Lemma flooded_from_equiv w w1 rid seq lsas l w' :
  w1 ≡ w → flooded w1 rid seq lsas l w' → flooded w rid seq lsas l w'.
Proof.
  intros H [Hr Hq Ho Hp].
  assert (∀ t, flood_of w1 rid seq lsas t = flood_of w rid seq lsas t) as Hf
    by (intros t; unfold flood_of; by rewrite (cache_of_proper _ _ H)).
  assert (∀ t, unresolved w1 t = unresolved w t) as Hu
    by (intros t; unfold unresolved; by rewrite (cache_of_proper _ _ H)).
  split; [by rewrite Hr, H|done| |].
  - rewrite (w_out_proper _ _ H) in Ho. destruct Ho as (frames & Ho & H2). exists frames.
    split; [done|]. eapply Forall2_impl; [exact H2|]. intros t fr. by rewrite Hf.
  - rewrite (parked_of_proper _ _ H) in Hp. destruct Hp as (parked & Hp & H2). exists parked.
    split; [done|]. rewrite (list_filter_iff _ (λ t, unresolved w1 t)); [done|].
    intros t. by rewrite Hu.
Qed.

(** The entry after an update. *)
Definition stored (e : pwospf_list_entry) (rid seq : Z) (lsas : list pwospf_lsa) (now : timeval)
  : pwospf_list_entry :=
  let named := renamed 0 rid lsas in
  set_lsu (if same_lsas (lsu_lastcontents e) named then lsu_lastcontents e else LsaArray named)
    (Z.of_nat (length lsas)) (htons seq) now e.

Lemma renamed_length from to l : length (renamed from to l) = length l.
Proof. apply length_fmap. Qed.

Lemma same_lsas_count e lsas :
  wf_neighbour e → same_lsas (lsu_lastcontents e) lsas = true →
  lsu_lastcontents_count e = Z.of_nat (length lsas).
Proof.
  unfold wf_neighbour, same_lsas. destruct (lsu_lastcontents e) as [|l|]; [done| |done].
  intros [-> _] [Hl _]%andb_true_iff. apply Nat.eqb_eq in Hl. by rewrite Hl.
Qed.

Lemma rid_range p rid seq lsas : bytes p → link_fields p rid seq lsas → is_u32 rid.
Proof.
  intros Hb F. pose proof (getf_range _ _ _ _ _ Hb (lf_rid _ _ _ _ F)) as H.
  change (256 ^ Z.of_nat _) with 4294967296 in H. exact H.
Qed.

Lemma link_known_run i f src dst rid seq lsas x k e w :
  lsu_packet f src dst rid seq lsas → interfaces (w_router w) !! i = Some x →
  wf_list_queue (if_neighbours x) → wf_flooder w → wf_neighbour e → lsas ≠ [] →
  ¬ seen_before e seq →
  let named := renamed 0 rid lsas in
  ∃ w1 q, flooded w rid seq lsas (flood_targets i (neighbour_ip e) (interfaces_of w)) w1 ∧
    wf_list_queue q ∧
    packet q = <[k := stored e rid seq lsas (w_clock w (w_ticks w1))]> (packet (if_neighbours x)) ∧
    link_known (received i f) i k e rid (htons seq) (Z.of_nat (length lsas)) (locked_world i x w)
    = (if same_lsas (lsu_lastcontents e) named then mret tt else recompute_and_tell)
        (with_neighbours i q w1).
Proof.
  intros [Hbody _ _ _] Hx Hq Hwf He Hne Hseen named. pose proof (locked_equiv i x w Hx) as Hlk.
  assert (negb (bool_decide (lsu_lastcontents e = LsaNull)) && (lsu_lastseq e =? htons seq) = false) as Hns.
  { apply not_true_iff_false. rewrite andb_true_iff, negb_true_iff, bool_decide_eq_false, Z.eqb_eq.
    exact Hseen. }
  unfold link_known. rewrite Hns.
  destruct (reflood_run (received i f) rid seq lsas i (neighbour_ip e) (locked_world i x w))
    as (pi' & w1 & E1 & Hinv); [by eapply wf_flooder_equiv|done|done|]. mstep E1.
  destruct (flood_neighbours _ _ _ _ _ _ _ i (plain_interface x) Hinv) as (x1 & Hx1 & Hpl).
  { unfold interfaces_of. by rewrite list_lookup_fmap, locked_lookup. }
  destruct Hinv as (Hb & Hlen & Hfl). rewrite (interfaces_of_proper _ _ Hlk) in Hfl.
  apply (flooded_from_equiv w) in Hfl; [|done].
  destruct (lo_buffer _ _ _ _ Hb) as [Hby Hln Hpay _]. rewrite Nat2Z.id.
  destruct (payload_rename_ok (length lsas) 0 0 rid (pi_packet pi') lsas)
    as (p & E2 & _ & _ & Hpay' & _); [done|by eapply rid_range, Hb|done|by rewrite Hln|]. mstep E2.
  fold named in Hpay'.
  assert (length named = length lsas) as Hlnm by apply renamed_length. rewrite <-Hlnm in *.
  rewrite (bind_ok _ _ _ _ _ (compare_contents e p named w1 He Hpay')).
  assert (w_clock w1 = w_clock w) as Hck by exact (w_clock_proper _ _ (fl_rest _ _ _ _ _ _ Hfl)).
  set (now := w_clock w (w_ticks w1)).
  set (q := queue_unlockall (queue_write (if_neighbours x1) k (stored e rid seq lsas now))).
  exists w1, q. split; [exact Hfl|]. assert (wf_list_queue (if_neighbours x1)) as Hq1
    by (eapply wf_erase; [|exact Hq]; symmetry; exact (f_equal if_neighbours Hpl)).
  split; [by apply wf_unlock, wf_write|]. split.
  { unfold q. cbn. by rewrite (f_equal (λ y, packet (if_neighbours y)) Hpl : packet (if_neighbours x1) = _). }
  unfold q, stored. fold named. destruct (same_lsas (lsu_lastcontents e) named) eqn:Hsame.
  - mrun. rewrite Hck, (same_lsas_count e named He Hsame), Hlnm.
    by rewrite (modify_neighbours_run i _ x1 (set_w_ticks (S (w_ticks w1)) w1) Hx1).
  - assert (named ≠ []) as Hnn by (intros E; apply Hne, nil_length_inv; by rewrite <-Hlnm, E).
    rewrite (bind_ok _ _ _ _ _ (store_payload_ok e p named w1 He Hnn Hpay')). mrun.
    rewrite Hck, Hlnm. mstep (modify_neighbours_run i
      (λ q, queue_unlockall (queue_write q k (set_lsu (LsaArray named) (Z.of_nat (length lsas)) (htons seq)
         now e))) x1 (set_w_ticks (S (w_ticks w1)) w1) Hx1). done.
Qed.

(** * The state after the update *)

Lemma advertised_plain w :
  advertised (w_router w) = interfaces_of w ≫= advertised_at (pw_router_id (pw_router (w_router w))).
Proof. unfold advertised, interfaces_of. by rewrite list_fmap_bind. Qed.

Lemma wf_interface_plain x : wf_interface (plain_interface x) ↔ wf_interface x.
Proof.
  unfold wf_interface, plain_interface. cbn.
  assert (wf_list_queue (erase_queue (if_neighbours x)) ↔ wf_list_queue (if_neighbours x)) as ->; [|done].
  split; by apply wf_erase.
Qed.

Lemma wf_speaking_same w w' :
  interfaces_of w' = interfaces_of w → pw_router (w_router w') = pw_router (w_router w) →
  erase_queue (ip_table (w_router w')) = erase_queue (ip_table (w_router w)) → w_hid w' = w_hid w →
  wf_speaking w → wf_speaking w'.
Proof.
  intros Hi Hp Ht Hh [(Hwi & Hk & Hn) [[Hq Hm] Hb] Hs Ha].
  assert (length (interfaces (w_router w')) = length (interfaces (w_router w))) as Hl.
  { apply (f_equal length) in Hi. unfold interfaces_of in Hi. by rewrite !length_fmap in Hi. }
  assert (packet (ip_table (w_router w')) = packet (ip_table (w_router w))) as Hpt
    by exact (f_equal packet Ht).
  split.
  - split_and!; [|unfold known_subnets in *; by rewrite advertised_plain, Hi, Hp, <-advertised_plain
      |by rewrite Hl].
    assert (Forall wf_interface (interfaces_of w')) as H.
    { rewrite Hi. unfold interfaces_of. rewrite Forall_fmap. eapply Forall_impl; [exact Hwi|].
      intros x Hx. by apply wf_interface_plain. }
    unfold interfaces_of in H. rewrite Forall_fmap in H. eapply Forall_impl; [exact H|].
    intros x Hx. by apply wf_interface_plain.
  - split; [split; [by eapply wf_erase|by rewrite Hpt]|by rewrite Hl, Hpt].
  - unfold table_of. by rewrite Hpt.
  - by eapply wf_advertiser_same.
Qed.

Lemma wf_speaking_quiet w w' : quiet w' ≡ quiet w → wf_speaking w → wf_speaking w'.
Proof.
  intros H. pose proof (erase_router_eq _ _ H) as Hr. apply wf_speaking_same.
  - by apply quiet_interfaces.
  - exact (f_equal pw_router Hr).
  - exact (f_equal ip_table Hr).
  - exact (w_hid_proper _ _ H).
Qed.

(** What is read from a packet fits its fields. *)
Lemma payload_read_wf n g p l : bytes p → payload_read n g p = Some l → Forall wf_lsa l.
Proof.
  intros Hb. revert g l. induction n as [|n IH]; intros g l H; cbn [payload_read] in H; [by simplify_eq|].
  destruct (payload_get p g) as [a|] eqn:Ha; [|done]. cbn in H.
  destruct (payload_read n (S g) p) as [l'|] eqn:Hl; [|done]. injection H as <-.
  constructor; [|by eapply IH]. destruct (payload_get_inv _ _ _ Ha) as (H1 & H2 & H3).
  split_and!; [exact (getf_range _ _ _ _ _ Hb H1)|exact (getf_range _ _ _ _ _ Hb H2)
    |exact (getf_range _ _ _ _ _ Hb H3)].
Qed.

(** Another entry in the queue of interface [i], or one that replaces another;
    what the router advertises of its own links stays. *)
Section updated.
Context (i : nat) (x : interface) (e : pwospf_list_entry) (q : dataqueue pwospf_list_entry).
Context (w : world) (lsas : list pwospf_lsa).
Context (Hx : interfaces (w_router w) !! i = Some x) (Hq : wf_list_queue q).
Context (Hin : ∀ e0, e0 ∈ packet q → e0 = e ∨ e0 ∈ packet (if_neighbours x)).
Context (Hadv : advertises (set_if_neighbours q x) = advertises x).
Context (Hid : is_u32 (neighbour_id e)) (Hip : is_u32 (neighbour_ip e)).
Context (Hc : lsu_lastcontents e = LsaArray lsas).
Context (Hn : lsu_lastcontents_count e = Z.of_nat (length lsas)).
Context (Hm : Forall (λ a, is_u32 (lsa_netmask a)) lsas).

Lemma updated_own_lsas : own_lsas (with_neighbours i q w) = own_lsas w.
Proof using Hx Hadv.
  unfold own_lsas, interfaces_of. rewrite !advertises_plain. f_equal.
  by apply (bind_alter_same _ _ i x).
Qed.

(** A property of all entries. *)
Lemma updated_entries (P : pwospf_list_entry → Prop) :
  P e → Forall P (packet (if_neighbours x)) → Forall P (packet q).
Proof using Hin.
  intros He H. apply Forall_forall. intros e0 [->|He0]%Hin; [done|]. by eapply Forall_forall in H.
Qed.

(** The subnets known after the update: those known before and those it names. *)
Lemma updated_subnets :
  (length (known_subnets (w_router (with_neighbours i q w)))
   <= length (known_subnets (w_router w)) + length lsas)%nat.
Proof using Hx Hin Hc.
  rewrite <-(length_fmap (λ a, lsa_link (LsaDj a (neighbour_ip e))) lsas), <-length_app.
  apply submseteq_length, NoDup_submseteq; [apply NoDup_distinct|]. intros b Hb.
  unfold known_subnets in *. rewrite elem_of_app, elem_of_distinct in *.
  apply list_elem_of_fmap in Hb as (a & -> & Ha). unfold advertised in Ha.
  apply list_elem_of_bind in Ha as (y & Ha & [j Hy]%list_elem_of_lookup). cbn in Hy.
  assert (∀ y, a ∈ advertised_at (pw_router_id (pw_router (w_router w))) y → y ∈ interfaces (w_router w) →
    lsa_link a ∈ lsa_link <$> advertised (w_router w)) as Hold.
  { intros z Hz Hz'. apply list_elem_of_fmap. exists a. split; [done|]. apply list_elem_of_bind.
    by exists z. }
  destruct (decide (j = i)) as [->|Hne].
  - rewrite list_lookup_alter_eq, Hx in Hy. injection Hy as <-. unfold advertised_at in Ha.
    cbn [if_neighbours set_if_neighbours] in Ha. apply elem_of_cons in Ha as [->|Ha].
    { left. apply (Hold x); [left|by eapply list_elem_of_lookup_2]. }
    apply list_elem_of_bind in Ha as (e0 & Ha & [->|He0]%Hin).
    + right. unfold advertised_by, lsas_of in Ha. rewrite Hc in Ha.
      apply list_elem_of_fmap in Ha as (b & -> & Hb). apply list_elem_of_fmap. by exists b.
    + left. apply (Hold x); [|by eapply list_elem_of_lookup_2]. right.
      apply list_elem_of_bind. by exists e0.
  - rewrite list_lookup_alter_ne in Hy by done. left.
    apply (Hold y); [done|by eapply list_elem_of_lookup_2].
Qed.

Lemma updated_topology :
  wf_topology (w_router w) →
  Z.of_nat (length (known_subnets (w_router w)) + length lsas) + 1 < INT_MAX →
  wf_topology (w_router (with_neighbours i q w)).
Proof using Hx Hq Hin Hc Hn Hm.
  intros (Hi & _ & Hl) Hk. split_and!.
  - apply (newcomer_interfaces i x); [done| |done]. intros (_ & Hnb & Hmk). split_and!; [done| |done].
    cbn. apply updated_entries; [|done]. unfold wf_neighbour. by rewrite Hc.
  - pose proof updated_subnets. lia.
  - cbn. by rewrite length_alter.
Qed.

Lemma updated_advertised :
  Forall wf_advertised (interfaces_of w) → Forall wf_advertised (interfaces_of (with_neighbours i q w)).
Proof using Hx Hq Hin Hid Hip.
  intros H. unfold interfaces_of in *. rewrite Forall_fmap in *.
  apply (newcomer_interfaces i x _ _ Hx (wf_advertised ∘ plain_interface)); [|done]. unfold compose.
  rewrite !wf_advertised_plain. intros (Hf & _ & Hnb).
  split; [exact Hf|]. split; [exact Hq|]. by apply updated_entries.
Qed.

Lemma updated_speaking :
  wf_speaking w → Z.of_nat (length (known_subnets (w_router w)) + length lsas) + 1 < INT_MAX →
  wf_speaking (with_neighbours i q w).
Proof using All.
  intros [Ht [Hr Hb] Hs [Hi Hnn Hrid Hh Hsm]] Hk. split; [by apply updated_topology| |done|].
  - split; [done|]. cbn. by rewrite length_alter.
  - split; [by apply updated_advertised| |done..|by rewrite updated_own_lsas].
    intros E. apply Hnn. unfold interfaces_of in *. apply fmap_nil_inv in E. cbn in E.
    apply (f_equal length) in E. rewrite length_alter in E. by destruct (interfaces (w_router w)).
Qed.
End updated.

(** The entry of a router replaced by one of the same router. *)
Lemma advertises_insert q x k e e' :
  packet (if_neighbours x) !! k = Some e → packet q = <[k := e']> (packet (if_neighbours x)) →
  neighbour_id e' = neighbour_id e → immediate_neighbour e' = immediate_neighbour e →
  advertises (set_if_neighbours q x) = advertises x.
Proof.
  intros He Hp Hid Him.
  unfold advertises. cbn [if_neighbours set_if_neighbours if_subnet_mask if_ip]. f_equal. rewrite Hp.
  clear Hp. revert k He. induction (packet (if_neighbours x)) as [|y l IH]; intros [|j] Hj; [done..| |].
  - injection Hj as ->. cbn [insert list_insert]. rewrite !filter_cons, Him.
    destruct (decide _); [|done]. cbn. by rewrite Hid.
  - cbn [insert list_insert]. rewrite !filter_cons. cbn in Hj.
    destruct (decide _); [cbn; f_equal|]; by apply IH.
Qed.

Lemma elem_of_inserted {A} (k : nat) (x y : A) (l : list A) : y ∈ <[k := x]> l → y = x ∨ y ∈ l.
Proof.
  intros [m Hm]%list_elem_of_lookup. apply list_lookup_insert_Some in Hm as [(_ & <- & _)|[_ Hm]].
  - by left.
  - right. by eapply list_elem_of_lookup_2.
Qed.

Lemma renamed_masks from to l :
  Forall (λ a, is_u32 (lsa_netmask a)) l → Forall (λ a, is_u32 (lsa_netmask a)) (renamed from to l).
Proof.
  intros H. unfold renamed. rewrite Forall_fmap. eapply Forall_impl; [exact H|].
  intros a Ha. cbn. by destruct (lsa_router_id a =? from).
Qed.

(** The updates a router accepts for an entry of its database. *)
Record link_heard (w : world) (i : nat) (x : interface) (f : list Z) (src dst rid seq : Z)
    (lsas : list pwospf_lsa) : Prop := {
  lh_packet : lsu_packet f src dst rid seq lsas;
  lh_eth : eth_type f = Some (htons ETH_IP_TYPE);
  lh_dst : dst ∈ (if_ip <$> interfaces (w_router w));
  lh_area : pw_area_id (pw_router (w_router w)) = 0;
  lh_interface : interfaces (w_router w) !! i = Some x;
  lh_rid : rid ≠ pw_router_id (pw_router (w_router w));
  lh_some : lsas ≠ [];
  lh_small : Z.of_nat (length (known_subnets (w_router w)) + length lsas) + 1 < INT_MAX
}.

Lemma link_queue w i x : wf_speaking w → interfaces (w_router w) !! i = Some x → wf_interface x.
Proof. intros [(Hi & _) _ _ _] Hx. exact (Forall_lookup_1 _ _ _ _ Hi Hx). Qed.

Lemma link_update_run i x f src dst rid seq lsas k e w :
  link_heard w i x f src dst rid seq lsas → wf_speaking w → wf_flooder w →
  Spec.find_from (λ e, neighbour_id e =? rid) 0 (packet (if_neighbours x)) = Some (k, e) →
  ¬ seen_before e seq →
  ∃ w1 q w', router_handle_packet (received i f) w = Ok tt w' ∧
    flooded w rid seq lsas (flood_targets i (neighbour_ip e) (interfaces_of w)) w1 ∧
    wf_list_queue q ∧
    packet q = <[k := stored e rid seq lsas (w_clock w (w_ticks w1))]> (packet (if_neighbours x)) ∧
    if same_lsas (lsu_lastcontents e) (renamed 0 rid lsas) then w' = with_neighbours i q w1
    else informed (with_neighbours i q w1) w'.
Proof.
  intros [Hpk He Hd Ha Hx Hrid Hne Hsm] Hsp Hfl Hf Hs. rewrite (lsu_dispatch i f src dst rid seq lsas) by done.
  destruct (link_queue w i x Hsp Hx) as (Hq & Hnb & _).
  rewrite (link_checked i f src dst rid seq lsas x w), (proj2 (Z.eqb_neq _ _) Hrid), Hf by done.
  destruct (find_from_lt _ _ _ _ Hf) as (_ & Hk & _).
  destruct (link_known_run i f src dst rid seq lsas x k e w) as (w1 & q & H1 & Hq' & Hp & ->);
    [done..|exact (Forall_lookup_1 _ _ _ _ Hnb Hk)|done|done|].
  destruct (same_lsas _ _) eqn:Hsame; [by eexists w1, q, _|].
  pose proof (fl_rest _ _ _ _ _ _ H1) as Hr.
  destruct (interface_same w w1 i x (quiet_interfaces _ _ Hr) Hx) as (x1 & Hx1 & Hpl).
  assert (packet (if_neighbours x1) = packet (if_neighbours x)) as Hpx
    by exact (f_equal (λ y, packet (if_neighbours y)) Hpl).
  assert (known_subnets (w_router w1) = known_subnets (w_router w)) as Hks.
  { unfold known_subnets. rewrite !advertised_plain, (quiet_interfaces _ _ Hr).
    by rewrite (f_equal pw_router (erase_router_eq _ _ Hr) : pw_router (w_router w1) = _). }
  assert (is_u32 (neighbour_id e) ∧ is_u32 (neighbour_ip e)) as [Hu1 Hu2].
  { destruct Hfl as [_ _ _ Hi].
    assert (interfaces_of w !! i = Some (plain_interface x)) as Hx'
      by (unfold interfaces_of; by rewrite list_lookup_fmap, Hx).
    destruct (Forall_lookup_1 _ _ _ _ Hi Hx') as (_ & _ & Hall). exact (Forall_lookup_1 _ _ _ _ Hall Hk). }
  destruct (recompute_and_tell_run (with_neighbours i q w1)) as (w' & E & Hi).
  { rewrite <-Hpx in Hk, Hp.
    apply (updated_speaking i x1 (stored e rid seq lsas (w_clock w (w_ticks w1))) q w1
      (renamed 0 rid lsas)); [done|done| |by eapply advertises_insert|done|done| | | | |].
    - intros e0. rewrite Hp. apply elem_of_inserted.
    - unfold stored. cbn. by rewrite Hsame.
    - cbn. by rewrite renamed_length.
    - apply renamed_masks. destruct Hpk as [[[Hb _ Hpay _] _ _ _ _ _ _] _ _ _].
      eapply Forall_impl; [exact (payload_read_wf _ _ _ _ Hb Hpay)|]. by intros a (_ & ? & _).
    - by eapply wf_speaking_quiet.
    - by rewrite Hks, renamed_length. }
  by exists w1, q, w'.
Qed.

(** * An update of a router that is not in the queue yet *)

(** Its entry; what the code does not initialise is arbitrary. *)
Definition arrival (rid src seq : Z) (lsas : list pwospf_lsa) (w : world) : pwospf_list_entry :=
  ListEntry rid src (u16 (w_junk w 0)) (Timeval (w_junk w 0) (w_junk w 1)) 0 (htons seq)
    (LsaArray (renamed 0 rid lsas)) (Z.of_nat (length lsas)) (w_clock w (w_ticks w)).

Lemma find_from_last {A} (p : A → bool) i l x :
  Spec.find_from p i l = None → p x = true → Spec.find_from p i (l ++ [x]) = Some ((i + length l)%nat, x).
Proof.
  revert i. induction l as [|y l IH]; intros i Hn Hx; cbn in *.
  - by rewrite Hx, Nat.add_0_r.
  - destruct (p y); [done|]. rewrite (IH (S i)) by done. do 2 f_equal. lia.
Qed.

(** Flooding leaves the sender out, so its new entry makes no difference. *)
Lemma flood_targets_arrival i x e q w :
  interfaces (w_router w) !! i = Some x → packet q = packet (if_neighbours x) ++ [e] →
  flood_targets i (neighbour_ip e) (interfaces_of (with_neighbours i q w))
  = flood_targets i (neighbour_ip e) (interfaces_of w).
Proof.
  intros Hx Hp. unfold flood_targets. f_equal. apply list_eq. intros j.
  rewrite !list_lookup_imap. unfold interfaces_of. rewrite !list_lookup_fmap. cbn.
  destruct (decide (j = i)) as [->|Hne]; [|by rewrite list_lookup_alter_ne].
  rewrite list_lookup_alter_eq, Hx. cbn [fmap option_fmap option_map]. f_equal. unfold flood_at.
  rewrite !decide_True by done. cbn [plain_interface if_mac if_ip if_neighbours set_if_neighbours].
  f_equal. change (packet (erase_queue ?q)) with (packet q).
  rewrite Hp, filter_app, filter_cons, decide_False by tauto. by rewrite app_nil_r.
Qed.

Lemma wf_flooder_updated i q w :
  Forall wf_advertised (interfaces_of (with_neighbours i q w)) → wf_flooder w →
  wf_flooder (with_neighbours i q w).
Proof. intros H [H1 H2 H3 _]. by split. Qed.

(** The handler up to the flooding. *)
Lemma link_new_added i f src dst rid seq lsas x w :
  lsu_packet f src dst rid seq lsas → interfaces (w_router w) !! i = Some x →
  wf_list_queue (if_neighbours x) →
  Spec.find_from (λ e, neighbour_id e =? rid) 0 (packet (if_neighbours x)) = None →
  Forall (λ a, lsa_router_id a ≠ rid) lsas →
  ∃ q, wf_list_queue q ∧ packet q = packet (if_neighbours x) ++ [arrival rid src seq lsas w] ∧
    (modify_neighbours i queue_unlockall;;
     link_new (received i f) i rid (htons seq) src (Z.of_nat (length lsas))) (locked_world i x w)
    = (pwospf_reflood_packetpartiallyunsafe (received i f) src i;;
       modify_neighbours i queue_unlockall;; recompute_and_tell) (with_neighbours i q w).
Proof.
  intros [Hbody _ _ _] Hx Hq Hf Hne. pose proof (lo_buffer _ _ _ _ Hbody) as Hbuf.
  assert (is_u32 rid) as Hrid by (eapply rid_range; [apply Hbuf|apply Hbody]).
  mstep (modify_neighbours_run i queue_unlockall _ _ (locked_lookup i x w Hx)).
  cbn [if_neighbours set_if_neighbours]. unfold locked_world. cbn [w_router set_w_router].
  rewrite put_neighbours_twice. change (set_w_router ?r (set_w_router _ w)) with (set_w_router r w).
  set (q0 := queue_unlockall (queue_lockall (if_neighbours x))).
  set (w0 := set_w_router (put_neighbours i q0 (w_router w)) w).
  assert (interfaces (w_router w0) !! i = Some (set_if_neighbours q0 x)) as Hx0
    by by apply put_neighbours_lookup.
  destruct (payload_renamed_back f rid lsas Hbuf Hrid Hne) as (p1 & E1 & R1 & E2).
  unfold link_new. rewrite Nat2Z.id. cbn [pi_packet received]. mstep E1.
  rewrite (bind_ok _ _ _ _ _ (copy_payload_ok p1 _ _ w0 R1)). mrun.
  set (wt := set_w_ticks (S (w_ticks w0)) w0). set (e := arrival rid src seq lsas w).
  rewrite (bind_ok junk16 _ wt (u16 (w_junk w 0)) wt eq_refl).
  rewrite (bind_ok junk_time _ wt (Timeval (w_junk w 0) (w_junk w 1)) wt eq_refl).
  set (q := queue_lockall (queue_add q0 e sizeof_pwospf_list_entry)).
  destruct (queue_add_spec sizeof_pwospf_list_entry q0 e) as [Hqa Hpa]; [by apply wf_unlock, wf_lock|].
  change (packet q0) with (packet (if_neighbours x)) in Hpa.
  mstep (modify_neighbours_run i (λ q, queue_lockall (queue_add q e sizeof_pwospf_list_entry)) _
    wt Hx0). cbn [if_neighbours set_if_neighbours]. unfold wt, w0.
  cbn [w_router set_w_router set_w_ticks]. rewrite put_neighbours_twice. fold q.
  set (w2 := with_neighbours i q w). change (set_w_router _ (set_w_ticks _ _)) with w2.
  assert (interfaces (w_router w2) !! i = Some (set_if_neighbours q x)) as Hx2
    by by apply put_neighbours_lookup.
  unfold get_neighbours at 1, get_interface at 1. mrun. mstep Hx2. mrun.
  cbn [if_neighbours set_if_neighbours]. assert (wf_list_queue q) as Hwq by by apply wf_lock.
  assert (packet q = packet (if_neighbours x) ++ [e]) as Hpq by exact Hpa.
  rewrite getneighbour_spec, Hpq by done.
  rewrite (find_from_last _ 0 _ e Hf) by apply Z.eqb_refl. cbn [from_option_M]. mrun. mstep E2.
  by exists q; mrun.
Qed.

Lemma link_new_run i f src dst rid seq lsas x w :
  lsu_packet f src dst rid seq lsas → interfaces (w_router w) !! i = Some x →
  wf_list_queue (if_neighbours x) → wf_flooder w → is_u32 src →
  Spec.find_from (λ e, neighbour_id e =? rid) 0 (packet (if_neighbours x)) = None →
  Forall (λ a, lsa_router_id a ≠ rid) lsas →
  ∃ q w1, wf_list_queue q ∧ packet q = packet (if_neighbours x) ++ [arrival rid src seq lsas w] ∧
    flooded (with_neighbours i q w) rid seq lsas (flood_targets i src (interfaces_of w)) w1 ∧
    (modify_neighbours i queue_unlockall;;
     link_new (received i f) i rid (htons seq) src (Z.of_nat (length lsas))) (locked_world i x w)
    = recompute_and_tell w1.
Proof.
  intros Hpk Hx Hq Hwf Hsrc Hf Hne. pose proof (lp_body _ _ _ _ _ _ Hpk) as Hbody.
  destruct (link_new_added i f src dst rid seq lsas x w) as (q & Hwq & Hpq & ->); [done..|].
  set (e := arrival rid src seq lsas w) in *. set (w2 := with_neighbours i q w).
  assert (interfaces (w_router w2) !! i = Some (set_if_neighbours q x)) as Hx2
    by by apply put_neighbours_lookup.
  destruct (reflood_run (received i f) rid seq lsas i src w2) as (pi' & w3 & E3 & Hinv).
  { apply wf_flooder_updated; [|done].
    apply (updated_advertised i x e q w); [done|done| | |done|apply Hwf].
    - intros e0. rewrite Hpq. intros [?|?%list_elem_of_singleton]%elem_of_app; auto.
    - eapply rid_range; [apply Hbody|apply Hbody]. }
  { done. }
  { done. }
  mstep E3.
  destruct (flood_neighbours _ _ _ _ _ _ _ i (plain_interface (set_if_neighbours q x)) Hinv)
    as (x3 & Hx3 & _).
  { unfold interfaces_of. by rewrite list_lookup_fmap, Hx2. }
  destruct (unlock_equiv i x3 w3 Hx3) as (w4 & E4 & H4). mstep E4.
  exists q, w4. split_and!; [done|done| |done].
  destruct Hinv as (_ & _ & Hfl). eapply flooded_equiv; [|exact H4].
  rewrite (flood_targets_arrival i x e q w Hx Hpq : flood_targets i src (interfaces_of w2) = _) in Hfl.
  exact Hfl.
Qed.

(** A router that is not an immediate neighbour is not advertised. *)
Lemma advertises_snoc q x e :
  packet q = packet (if_neighbours x) ++ [e] → immediate_neighbour e = 0 →
  advertises (set_if_neighbours q x) = advertises x.
Proof.
  intros Hp He. unfold advertises. cbn [if_neighbours set_if_neighbours if_subnet_mask if_ip].
  rewrite Hp, filter_app, filter_cons, decide_False by tauto. by rewrite app_nil_r.
Qed.

Lemma link_arrival_run i x f src dst rid seq lsas w :
  link_heard w i x f src dst rid seq lsas → wf_speaking w → wf_flooder w →
  Forall (λ e, neighbour_id e ≠ rid) (packet (if_neighbours x)) →
  Forall (λ a, lsa_router_id a ≠ rid) lsas →
  ∃ q w1 w', router_handle_packet (received i f) w = Ok tt w' ∧
    wf_list_queue q ∧ packet q = packet (if_neighbours x) ++ [arrival rid src seq lsas w] ∧
    flooded (with_neighbours i q w) rid seq lsas (flood_targets i src (interfaces_of w)) w1 ∧
    informed w1 w'.
Proof.
  intros [Hpk He Hd Ha Hx Hrid Hne Hsm] Hsp Hfl Hnew Hids.
  rewrite (lsu_dispatch i f src dst rid seq lsas) by done.
  destruct (link_queue w i x Hsp Hx) as (Hq & Hnb & _).
  assert (Spec.find_from (λ e, neighbour_id e =? rid) 0 (packet (if_neighbours x)) = None) as Hf.
  { apply find_from_None. eapply Forall_impl; [exact Hnew|]. intros e Hn. by apply Z.eqb_neq. }
  rewrite (link_checked i f src dst rid seq lsas x w), (proj2 (Z.eqb_neq _ _) Hrid), Hf by done.
  pose proof Hpk as [[[Hb _ Hpay _] _ _ _ _ _ F] Hs _ _].
  assert (is_u32 src) as Hsrc by exact (getf_range _ _ _ _ _ Hb Hs).
  destruct (link_new_run i f src dst rid seq lsas x w) as (q & w1 & Hq' & Hp & H1 & ->); [done..|].
  destruct (recompute_and_tell_run w1) as (w' & E & Hi); [|by exists q, w1, w'].
  eapply wf_speaking_quiet; [exact (fl_rest _ _ _ _ _ _ H1)|].
  apply (updated_speaking i x (arrival rid src seq lsas w) q w (renamed 0 rid lsas));
    [done|done| |by eapply advertises_snoc|by eapply rid_range|done|done| | |done|].
  - intros e0. rewrite Hp. intros [?|?%list_elem_of_singleton]%elem_of_app; auto.
  - cbn. by rewrite renamed_length.
  - apply renamed_masks. eapply Forall_impl; [exact (payload_read_wf _ _ _ _ Hb Hpay)|].
    by intros a (_ & ? & _).
  - by rewrite renamed_length.
Qed.

(** Updates that are dropped. *)
Lemma link_dropped_run i x f src dst rid seq lsas w :
  lsu_packet f src dst rid seq lsas → eth_type f = Some (htons ETH_IP_TYPE) →
  dst ∈ (if_ip <$> interfaces (w_router w)) → pw_area_id (pw_router (w_router w)) = 0 →
  interfaces (w_router w) !! i = Some x → wf_list_queue (if_neighbours x) →
  (rid = pw_router_id (pw_router (w_router w)) ∨
   ∃ k e, Spec.find_from (λ e, neighbour_id e =? rid) 0 (packet (if_neighbours x)) = Some (k, e) ∧
          seen_before e seq) →
  ∃ w', router_handle_packet (received i f) w = Ok tt w' ∧ w' ≡ w.
Proof.
  intros Hpk He Hd Ha Hx Hq Hs. rewrite (lsu_dispatch i f src dst rid seq lsas) by done.
  destruct (decide (rid = pw_router_id (pw_router (w_router w)))) as [Hr|Hr].
  - exists w. split; [|done]. rewrite (link_checked i f src dst rid seq lsas x w) by done.
    by rewrite (proj2 (Z.eqb_eq _ _) Hr).
  - destruct Hs as [?|(k & e & Hf & Hseen)]; [done|].
    by apply (seen_link_dropped i f src dst rid seq lsas x k e).
Qed.

(** * The same update again *)

Lemma find_from_insert {A} (p : A → bool) l k x y :
  Spec.find_from p 0 l = Some (k, x) → p y = true → Spec.find_from p 0 (<[k := y]> l) = Some (k, y).
Proof.
  intros (j & -> & Hj & Hp & Hbefore)%find_from_Some Hy. apply find_from_Some. exists j.
  split; [done|]. cbn [Nat.add]. split; [apply list_lookup_insert_eq; by eapply lookup_lt_Some|].
  split; [done|]. intros j' z Hlt Hz. rewrite list_lookup_insert_ne in Hz by lia. by eapply Hbefore.
Qed.

Lemma own_ips w : if_ip <$> interfaces (w_router w) = if_ip <$> interfaces_of w.
Proof. unfold interfaces_of. by rewrite <-list_fmap_compose. Qed.

Lemma stored_ips i q w : if_ip <$> interfaces_of (with_neighbours i q w) = if_ip <$> interfaces_of w.
Proof.
  apply list_eq. intros j. unfold interfaces_of. rewrite !list_lookup_fmap. cbn.
  destruct (decide (j = i)) as [->|Hne]; [|by rewrite list_lookup_alter_ne].
  rewrite list_lookup_alter_eq. by destruct (interfaces (w_router w) !! i).
Qed.

(** The state after an update was stored knows it. *)
Lemma link_seen_again i x f src dst rid seq lsas k e q w w1 w' now :
  link_heard w i x f src dst rid seq lsas → wf_list_queue (if_neighbours x) → quiet w1 ≡ quiet w →
  Spec.find_from (λ e, neighbour_id e =? rid) 0 (packet (if_neighbours x)) = Some (k, e) →
  wf_list_queue q → packet q = <[k := stored e rid seq lsas now]> (packet (if_neighbours x)) →
  interfaces_of w' = interfaces_of (with_neighbours i q w1) →
  pw_router (w_router w') = pw_router (w_router w) →
  ∃ w'', router_handle_packet (received i f) w' = Ok tt w'' ∧ w'' ≡ w'.
Proof.
  intros [Hpk He Hd Ha Hx Hrid Hne Hsm] Hq Hr Hf Hq' Hp Hi Hpw.
  destruct (interface_same w w1 i x (quiet_interfaces _ _ Hr) Hx) as (x1 & Hx1 & _).
  destruct (interface_same (with_neighbours i q w1) w' i (set_if_neighbours q x1)) as (x' & Hx' & Hpl).
  { done. } { by apply put_neighbours_lookup. }
  assert (erase_queue (if_neighbours x') = erase_queue q) as Heq by exact (f_equal if_neighbours Hpl).
  eapply (link_dropped_run i x'); [exact Hpk|done| | |exact Hx'| |].
  - rewrite own_ips, Hi, stored_ips, (quiet_interfaces _ _ Hr), <-own_ips. exact Hd.
  - by rewrite Hpw.
  - by eapply wf_erase.
  - right. exists k, (stored e rid seq lsas now). split.
    + rewrite (f_equal packet Heq : packet (if_neighbours x') = packet q), Hp.
      eapply find_from_insert; [exact Hf|]. by destruct (find_from_lt _ _ _ _ Hf) as (_ & _ & ?).
    + unfold seen_before, stored. cbn. split; [|done].
      destruct (same_lsas (lsu_lastcontents e) (renamed 0 rid lsas)) eqn:E; [|done].
      by destruct (lsu_lastcontents e).
Qed.

Lemma link_update_twice i x f src dst rid seq lsas k e w :
  link_heard w i x f src dst rid seq lsas → wf_speaking w → wf_flooder w →
  Spec.find_from (λ e, neighbour_id e =? rid) 0 (packet (if_neighbours x)) = Some (k, e) →
  ∃ w' w'', router_handle_packet (received i f) w = Ok tt w' ∧
    router_handle_packet (received i f) w' = Ok tt w'' ∧ w'' ≡ w'.
Proof.
  intros Hh Hsp Hfl Hf. pose proof Hh as [Hpk He Hd Ha Hx Hrid Hne Hsm].
  destruct (link_queue w i x Hsp Hx) as (Hq & _ & _).
  destruct (decide (lsu_lastcontents e ≠ LsaNull ∧ lsu_lastseq e = htons seq)) as [Hs|Hs].
  - destruct (link_dropped_run i x f src dst rid seq lsas w) as (w' & E & H'); [done..|by right; eauto|].
    assert (interfaces_of w' = interfaces_of w) as Hi by exact (interfaces_of_proper _ _ H').
    destruct (interface_same w w' i x Hi Hx) as (x' & Hx' & Hpl).
    assert (erase_queue (if_neighbours x') = erase_queue (if_neighbours x)) as Heq
      by exact (f_equal if_neighbours Hpl).
    assert (pw_router (w_router w') = pw_router (w_router w)) as Hpw
      by exact (f_equal pw_router (erase_router_eq _ _ H')).
    destruct (link_dropped_run i x' f src dst rid seq lsas w') as (w'' & E' & H''); [done|done| | |done| | |].
    + rewrite own_ips, Hi, <-own_ips. exact Hd.
    + by rewrite Hpw.
    + by eapply wf_erase.
    + right. exists k, e. split; [|exact Hs].
      by rewrite (f_equal packet Heq : packet (if_neighbours x') = _).
    + by exists w', w''.
  - destruct (link_update_run i x f src dst rid seq lsas k e w) as (w1 & q & w' & E & H1 & Hq' & Hp & Hw');
      [done..|].
    assert (pw_router (w_router w1) = pw_router (w_router w)) as Hpw
      by exact (f_equal pw_router (erase_router_eq _ _ (fl_rest _ _ _ _ _ _ H1))).
    destruct (link_seen_again i x f src dst rid seq lsas k e q w w1 w' (w_clock w (w_ticks w1)))
      as (w'' & E' & H''); [done|done|apply H1|done|done|done| | |by exists w', w''].
    + destruct (same_lsas _ _); [by rewrite Hw'|apply Hw'].
    + destruct (same_lsas _ _); [by rewrite Hw'|]. by rewrite (in_pw _ _ Hw').
Qed.
