(* ===== verification/LinkProps.v ===== *)
(** Properties of the reception of link state updates. *)

From stdpp Require Import base tactics list numbers strings.
From Stdlib Require Import ZArith Lia.
From S2P Require Import Prelude Dataqueue Common Packets State Loops Ethernet Arp Routing.
From S2P Require Import IpHeader Ping Dijkstra ShortestPath DijkstraSpec Pwospf PwospfInput Dns.
From S2P Require Import Ip ArpInput Router IpSpec ArpSpec IcmpSpec Samples TableProps PacketProps.
From S2P Require Import DijkstraProps PwospfSpec LsuSpec LinkSpec LinkInput.

Local Open Scope Z_scope.

(** C23: a link state update of a known router, with a sequence number that is
    not the last one, is accepted.  First it is flooded: for every neighbour
    except the one it came from, either the update leaves with the addresses of
    that hop and a correct header checksum, or, when the hardware address is not
    known, it is parked and the address is asked for.  Then the entry of the
    router holds the sequence number, the time and the advertisements, with the
    router's own subnets under its id.  When they differ from what was stored
    the routing table is rebuilt from the new database and all immediate
    neighbours are sent an update; otherwise nothing more happens. *)
Theorem link_update_installed i x f src dst rid seq lsas k e w :
  link_heard w i x f src dst rid seq lsas → wf_speaking w → wf_flooder w →
  Spec.find_from (λ e, neighbour_id e =? rid) 0 (packet (if_neighbours x)) = Some (k, e) →
  ¬ seen_before e seq →
  ∃ w1 q w', router_handle_packet (received i f) w = Ok tt w' ∧
    flooded w rid seq lsas (flood_targets i (neighbour_ip e) (interfaces_of w)) w1 ∧
    wf_list_queue q ∧
    packet q = <[k := stored e rid seq lsas (w_clock w (w_ticks w1))]> (packet (if_neighbours x)) ∧
    if same_lsas (lsu_lastcontents e) (renamed 0 rid lsas) then w' = with_neighbours i q w1
    else informed (with_neighbours i q w1) w'.
Proof. apply link_update_run. Qed.

(** The router at the other end of the second sample interface. *)
Definition peer_intf : interface := Interface "eth0" mac_peer ip_peer true mask24 HELLOINT queue_init.

Definition sender_entry : pwospf_list_entry :=
  ListEntry ip0 ip1 5 (Timeval 490 0) 1 7 LsaNull 0 (Timeval 0 0).

Definition peer_route : rtable_entry := RtEntry 0 (IP_CONVERT 10 0 1 0) mask24 0 0 false 0.

Definition peer_world (neighbours : list pwospf_list_entry) : world :=
  set_w_router
    (Router [set_if_neighbours (queue_of sizeof_pwospf_list_entry neighbours) peer_intf] queue_init
       (queue_of sizeof_rtable_entry [peer_route]) queue_init queue_init (Timeval 0 0)
       (PwospfRouter ip_peer 0 LSUINT) true true) (sample_world [] []).

Definition sender_lsas : list pwospf_lsa :=
  [Lsa (IP_CONVERT 10 0 0 0) mask24 0; Lsa (IP_CONVERT 10 0 1 0) mask24 0;
   Lsa (IP_CONVERT 10 0 1 0) mask24 ip_peer].

(** The update the sample router sends to it. *)
Lemma sender_update : ∃ f, lsu_frame f mac1 ip1 ip_peer ip0 0 sender_lsas.
Proof.
  destruct (send_lsa_run ospf_world) as (frames & w' & _ & _ & Hl & Hf).
  - split; [|discriminate|split; vm_compute; done..|vm_compute; reflexivity].
    repeat constructor; try apply wf_queue_init; try apply queue_of_wf; vm_compute; done.
  - destruct frames as [|fr0 [|]]; try discriminate Hl.
    destruct (Hf 0%nat (Target 1 mac1 ip1 ip_peer) fr0 eq_refl eq_refl) as (f & _ & Hfr). by exists f.
Qed.

Definition peer_neighbours : list (list pwospf_list_entry) := [[]; [sender_entry]].

Lemma peer_speaking l : l ∈ peer_neighbours → wf_speaking (peer_world l).
Proof.
  intros Hl. assert (l = [] ∨ l = [sender_entry]) as [->| ->].
  { apply elem_of_cons in Hl as [->|Hl]; [by left|]. apply list_elem_of_singleton in Hl as ->. by right. }
  all: split;
    [split_and!; [repeat constructor; try apply queue_of_wf; vm_compute; done|by vm_compute..]
    |split; [split; [apply queue_of_wf|repeat constructor; vm_compute; done]|]; repeat constructor;
      vm_compute; lia
    |discriminate
    |split; [|discriminate|split; vm_compute; done..|vm_compute; reflexivity];
      repeat constructor; try apply queue_of_wf; vm_compute; done].
Qed.

Lemma peer_flooder l : l ∈ peer_neighbours → wf_flooder (peer_world l).
Proof.
  intros Hl. split; [apply wf_queue_init|constructor|apply wf_queue_init|].
  destruct (peer_speaking l Hl) as [_ _ _ [H _ _ _ _]]. exact H.
Qed.

Lemma peer_hears l f :
  lsu_frame f mac1 ip1 ip_peer ip0 0 sender_lsas → l ∈ peer_neighbours →
  link_heard (peer_world l) 0
    (set_if_neighbours (queue_of sizeof_pwospf_list_entry l) peer_intf) f ip1 ip_peer ip0 0 sender_lsas.
Proof.
  intros [He Hp] Hl. split; [done|by eapply framed_eth_type|by left|done|done|done|done|].
  apply elem_of_cons in Hl as [->|Hl]; [vm_compute; reflexivity|].
  apply list_elem_of_singleton in Hl as ->. vm_compute. reflexivity.
Qed.

Lemma link_update_installed_witness :
  ∃ f q w1 w', router_handle_packet (received 0 f) (peer_world [sender_entry]) = Ok tt w' ∧
    packet q = [stored sender_entry ip0 0 sender_lsas (Timeval 500 0)] ∧
    informed (with_neighbours 0 q w1) w'.
Proof.
  destruct sender_update as [f Hf].
  destruct (link_update_installed 0 _ f ip1 ip_peer ip0 0 sender_lsas 0 sender_entry
    (peer_world [sender_entry]) (peer_hears [sender_entry] f Hf ltac:(right; left)))
    as (w1 & q & w' & E & _ & _ & Hp & Hw').
  - apply peer_speaking. right. left.
  - apply peer_flooder. right. left.
  - vm_compute. reflexivity.
  - intros [H _]. by apply H.
  - exists f, q, w1, w'. split; [exact E|]. split; [exact Hp|exact Hw'].
Defined.

(** a link state update of a router that is not in the queue of the
    interface is accepted: an entry for its originator is appended, with the
    advertisements under its id and not as an immediate neighbour; the update
    is flooded unchanged, except to the router it came from; then the routing
    table is rebuilt from the new database and all immediate neighbours are
    sent an update. *)
Theorem link_update_of_new_router i x f src dst rid seq lsas w :
  link_heard w i x f src dst rid seq lsas → wf_speaking w → wf_flooder w →
  Forall (λ e, neighbour_id e ≠ rid) (packet (if_neighbours x)) →
  Forall (λ a, lsa_router_id a ≠ rid) lsas →
  ∃ q w1 w', router_handle_packet (received i f) w = Ok tt w' ∧
    wf_list_queue q ∧ packet q = packet (if_neighbours x) ++ [arrival rid src seq lsas w] ∧
    flooded (with_neighbours i q w) rid seq lsas (flood_targets i src (interfaces_of w)) w1 ∧
    informed w1 w'.
Proof. apply link_arrival_run. Qed.

Lemma link_update_of_new_router_witness :
  ∃ f q w1 w', router_handle_packet (received 0 f) (peer_world []) = Ok tt w' ∧
    packet q = [arrival ip0 ip1 0 sender_lsas (peer_world [])] ∧ informed w1 w'.
Proof.
  destruct sender_update as [f Hf].
  destruct (link_update_of_new_router 0 _ f ip1 ip_peer ip0 0 sender_lsas (peer_world [])
    (peer_hears [] f Hf ltac:(left))) as (q & w1 & w' & E & _ & Hp & _ & Hw').
  - apply peer_speaking. left.
  - apply peer_flooder. left.
  - constructor.
  - repeat constructor; vm_compute; discriminate.
  - exists f, q, w1, w'. split; [exact E|]. split; [exact Hp|exact Hw'].
Defined.

(** flooding ends: whatever the database holds for its originator, an
    update that arrives a second time on the same interface is dropped without
    a frame and without a change. *)
Theorem link_update_floods_once i x f src dst rid seq lsas k e w :
  link_heard w i x f src dst rid seq lsas → wf_speaking w → wf_flooder w →
  Spec.find_from (λ e, neighbour_id e =? rid) 0 (packet (if_neighbours x)) = Some (k, e) →
  ∃ w' w'', router_handle_packet (received i f) w = Ok tt w' ∧
    router_handle_packet (received i f) w' = Ok tt w'' ∧ w'' ≡ w'.
Proof. apply link_update_twice. Qed.

Lemma link_update_floods_once_witness :
  ∃ f w' w'', router_handle_packet (received 0 f) (peer_world [sender_entry]) = Ok tt w' ∧
    router_handle_packet (received 0 f) w' = Ok tt w'' ∧ w_out w'' = w_out w'.
Proof.
  destruct sender_update as [f Hf].
  destruct (link_update_floods_once 0 _ f ip1 ip_peer ip0 0 sender_lsas 0 sender_entry
    (peer_world [sender_entry]) (peer_hears [sender_entry] f Hf ltac:(right; left)))
    as (w' & w'' & E & E' & H).
  - apply peer_speaking. right. left.
  - apply peer_flooder. right. left.
  - vm_compute. reflexivity.
  - exists f, w', w''. split; [exact E|]. split; [exact E'|exact (w_out_proper _ _ H)].
Defined.
