(* ===== verification/Inet.v ===== *)
(** The Internet checksums of the TCP stack (lwtcp/inet.c).

    The stack sums 16-bit words in host order, over one block or over a chain of
    buffers; the router sums them in network order (file Common).  The theorems
    show that both compute the same checksum, also over the pseudo header of TCP
    and UDP and however the data is cut into buffers; the sum over a chain that
    the stack uses for ICMP does so only for buffers of even length. *)

From stdpp Require Import base tactics list numbers.
From Stdlib Require Import ZArith Lia.
From S2P Require Import Prelude Common.

Local Open Scope Z_scope.

(** The part of a [struct pbuf] that is read here: the memory from [payload]
    on, and [len].  A chain is the list of its buffers. *)
Record pbuf := Pbuf { pb_payload : list Z; pb_len : Z }.

(** [for(acc = 0; len > 1; len -= 2) acc += *short_ptr++]. *)
Fixpoint add_shorts (n : nat) (data : list Z) (acc : Z) : option (Z * list Z) :=
  match n with
  | O => Some (acc, data)
  | S n' =>
      match data with
      | b0 :: b1 :: data' => add_shorts n' data' (u32 (acc + (b0 + 256 * b1)))
      | _ => None
      end
  end.

Definition chksum (data : list Z) (len : Z) : option Z :=
  '(acc, rest) ← add_shorts (Z.to_nat (Z.quot len 2)) data 0;
  if Z.odd len then
    match rest with
    | b :: _ => Some (u32 (acc + htons (u16 (Z.shiftl (Z.land b 255) 8))))
    | [] => None
    end
  else Some acc.

(** [while(acc >> 16) acc = (acc & 0xffff) + (acc >> 16)]; [None] is a loop
    that goes on. *)
Fixpoint fold_loop (fuel : nat) (acc : Z) : option Z :=
  match fuel with
  | O => None
  | S fuel' =>
      if Z.shiftr acc 16 =? 0 then Some acc
      else fold_loop fuel' (u32 (Z.land acc 65535 + Z.shiftr acc 16))
  end.

(** Two rounds are enough; the third call sees the end. *)
Definition fold_acc (acc : Z) : option Z := fold_loop 3 acc.

(** [((acc & 0xff) << 8) | ((acc & 0xff00) >> 8)]. *)
Definition swap_acc (acc : Z) : Z :=
  Z.lor (u32 (Z.shiftl (Z.land acc 255) 8)) (Z.shiftr (Z.land acc 65280) 8).

(** [(acc & 0xff << 8) | (acc & 0xff00 >> 8)]: the shifts bind tighter. *)
Definition swap_acc_pbuf (acc : Z) : Z :=
  Z.lor (Z.land acc (Z.shiftl 255 8)) (Z.land acc (Z.shiftr 65280 8)).

(** One buffer of a chain; the state is [acc] and [swapped]. *)
Definition chain_step (swap : Z → Z) (s : Z * bool) (q : pbuf) : option (Z * bool) :=
  c ← chksum (pb_payload q) (pb_len q);
  acc ← fold_acc (u32 (s.1 + c));
  if negb (Z.rem (pb_len q) 2 =? 0) then Some (swap acc, negb s.2) else Some (acc, s.2).

Fixpoint chain_sum (swap : Z → Z) (s : Z * bool) (chain : list pbuf) : option (Z * bool) :=
  match chain with
  | [] => Some s
  | q :: chain' => s' ← chain_step swap s q; chain_sum swap s' chain'
  end.

Definition inet_chksum_pseudo (p : list pbuf) (src dest proto proto_len : Z) : option Z :=
  '(acc, swapped) ← chain_sum swap_acc (0, false) p;
  let acc := if swapped : bool then swap_acc acc else acc in
  let acc := u32 (acc + Z.land src 65535) in
  let acc := u32 (acc + Z.land (Z.shiftr src 16) 65535) in
  let acc := u32 (acc + Z.land dest 65535) in
  let acc := u32 (acc + Z.land (Z.shiftr dest 16) 65535) in
  let acc := u32 (acc + htons (u16 proto)) in
  let acc := u32 (acc + htons proto_len) in
  acc ← fold_acc acc;
  Some (u16 (Z.lnot (Z.land acc 65535))).

Definition inet_chksum (data : list Z) (len : Z) : option Z :=
  acc ← chksum data len;
  acc ← fold_acc acc;
  Some (u16 (Z.lnot (Z.land acc 65535))).

Definition inet_chksum_pbuf (p : list pbuf) : option Z :=
  '(acc, swapped) ← chain_sum swap_acc_pbuf (0, false) p;
  let acc := if swapped : bool then swap_acc acc else acc in
  Some (u16 (Z.lnot (Z.land acc 65535))).

(** * Sums in ones' complement *)

(** [x] is the 16-bit sum that stands for [s]: congruent modulo 65535, and zero
    only for zero. *)
Definition folds_to (s x : Z) : Prop :=
  0 <= s ∧ is_u16 x ∧ (∃ k, s = x + 65535 * k) ∧ (x = 0 ↔ s = 0).

Lemma folds_to_unique s x y : folds_to s x → folds_to s y → x = y.
Proof. intros (_ & Hx & [k Hk] & Hx0) (_ & Hy & [l Hl] & Hy0). unfold is_u16 in *. lia. Qed.

(** Sums that agree modulo 65535 and in being zero fold alike. *)
Lemma folds_to_congr s s' x k :
  folds_to s x → 0 <= s' → s' = s + 65535 * k → (s = 0 ↔ s' = 0) → folds_to s' x.
Proof.
  intros (_ & Hx & [j Hj] & Hx0) Hs' -> H0. split; [done|]. split; [done|].
  split; [exists (j + k); lia|by rewrite Hx0].
Qed.

Lemma fold16_folds s : is_u32 s → folds_to s (fold16 s).
Proof.
  intros Hs. pose proof (fold16_range s) as Hr.
  destruct (fold16_spec s Hs) as [[-> ->]|(k & H1 & H2 & H3)].
  - split; [done|]. split; [done|]. split; [by exists 0|done].
  - unfold is_u32 in Hs. split; [lia|]. split; [exact Hr|]. split; [by exists k|lia].
Qed.

Lemma swap16_zero x : is_u16 x → swap16 x = 0 ↔ x = 0.
Proof. intros Hx. split; width_lia. Qed.

(** Exchanging the bytes multiplies by 256. *)
Lemma folds_to_swap s x : folds_to s x → folds_to (256 * s) (swap16 x).
Proof.
  intros (Hs & Hx & [k Hk] & H0). pose proof (swap16_range x) as Hr.
  split; [lia|]. split; [exact Hr|]. split.
  - exists (256 * k + x / 256). unfold swap16. width_lia.
  - rewrite swap16_zero by done. lia.
Qed.

Lemma swap_acc_swap16 x : is_u16 x → swap_acc x = swap16 x.
Proof.
  intros Hx. unfold swap_acc.
  change 255 with (Z.ones 8). rewrite Z.land_ones by lia. rewrite Z.shiftl_mul_pow2 by lia.
  change (2 ^ 8) with 256.
  assert (Z.shiftr (Z.land x 65280) 8 = x / 256) as ->.
  { change 65280 with (Z.shiftl (Z.ones 8) 8). rewrite Z.shiftr_land, Z.shiftr_shiftl_l by lia.
    rewrite Z.sub_diag, Z.shiftl_0_r, Z.land_ones, Z.shiftr_div_pow2 by lia.
    change (2 ^ 8) with 256. width_lia. }
  rewrite u32_small by width_lia. rewrite lor_bytes by width_lia. width_lia.
Qed.

(** The other exchange does nothing. *)
Lemma swap_acc_pbuf_id x : is_u16 x → swap_acc_pbuf x = x.
Proof.
  intros Hx. unfold swap_acc_pbuf. rewrite <-Z.land_lor_distr_r.
  change (Z.lor (Z.shiftl 255 8) (Z.shiftr 65280 8)) with (Z.ones 16).
  rewrite Z.land_ones by lia. apply Z.mod_small. exact Hx.
Qed.

(** The loop ends, with the sum folded twice. *)
Lemma fold_acc_fold16 acc : is_u32 acc → fold_acc acc = Some (fold16 acc).
Proof.
  intros Ha. unfold fold_acc, fold16. cbn [fold_loop].
  rewrite !Z.shiftr_div_pow2 by lia. change (2 ^ 16) with 65536.
  change 65535 with (Z.ones 16). rewrite !Z.land_ones by lia. change (2 ^ 16) with 65536.
  assert (is_u32 (acc mod 65536 + acc / 65536)) as H1 by width_lia.
  rewrite !(u32_small (acc mod 65536 + acc / 65536)) by done.
  destruct (Z.eqb_spec (acc / 65536) 0); [f_equal; width_lia|].
  destruct (Z.eqb_spec ((acc mod 65536 + acc / 65536) / 65536) 0); [f_equal; width_lia|].
  set (a1 := acc mod 65536 + acc / 65536) in *.
  assert (a1 < 131072) by (subst a1; width_lia).
  rewrite !(u32_small (a1 mod 65536 + a1 / 65536)) by width_lia.
  destruct (Z.eqb_spec ((a1 mod 65536 + a1 / 65536) / 65536) 0); [|width_lia].
  f_equal. replace (acc / 65536 + acc mod 65536) with a1 by (subst a1; lia). width_lia.
Qed.

(** * The sum of the words of a block, in host order *)

Fixpoint short_sum (l : list Z) : Z :=
  match l with
  | b0 :: b1 :: l' => b0 + 256 * b1 + short_sum l'
  | [b] => b
  | [] => 0
  end.

Lemma short_sum_range l : bytes l → 0 <= short_sum l <= 65535 * ((Z.of_nat (length l) + 1) / 2).
Proof.
  induction l as [|b|b0 b1 l IH] using list_ind2; intros Hb; simpl length.
  - simpl. done.
  - inversion_clear Hb as [|? ? Hb0]. simpl. width_lia.
  - inversion_clear Hb as [|? ? Hb0 Hb']. inversion_clear Hb' as [|? ? Hb1 Hl].
    specialize (IH Hl). cbn [short_sum].
    replace ((Z.of_nat (S (S (length l))) + 1) / 2) with ((Z.of_nat (length l) + 1) / 2 + 1)
      by (rewrite <-Z.div_add by lia; f_equal; lia).
    unfold is_byte in *. lia.
Qed.

Lemma short_sum_small l : bytes l → Z.of_nat (length l) <= 65536 → 0 <= short_sum l <= 2147450880.
Proof. intros Hb Hl. pose proof (short_sum_range l Hb). width_lia. Qed.

Lemma short_sum_even l1 l2 :
  Nat.even (length l1) = true → short_sum (l1 ++ l2) = short_sum l1 + short_sum l2.
Proof.
  induction l1 as [|b|b0 b1 l IH] using list_ind2; intros He; simpl in *; [done..|].
  rewrite IH by done. lia.
Qed.

(** The words of network order are 256 times those of host order. *)
Lemma word_sum_short l : ∃ k, word_sum l = 256 * short_sum l + 65535 * k.
Proof.
  induction l as [|b|b0 b1 l [k IH]] using list_ind2.
  - by exists 0.
  - exists 0. cbn. lia.
  - exists (k - b1). cbn [word_sum short_sum]. lia.
Qed.

Lemma word_sum_zero l : bytes l → word_sum l = 0 ↔ short_sum l = 0.
Proof.
  induction l as [|b|b0 b1 l IH] using list_ind2; intros Hb; [done| |].
  - cbn. lia.
  - inversion_clear Hb as [|? ? Hb0 Hb']. inversion_clear Hb' as [|? ? Hb1 Hl].
    specialize (IH Hl). pose proof (short_sum_range l Hl). pose proof (word_sum_range l Hl).
    cbn [word_sum short_sum]. unfold is_byte in *. lia.
Qed.

(** Behind an odd number of bytes every word is exchanged. *)
Lemma short_sum_odd l1 l2 :
  Nat.even (length l1) = false →
  ∃ k, short_sum (l1 ++ l2) = short_sum l1 + 256 * short_sum l2 + 65535 * k.
Proof.
  induction l1 as [|b|b0 b1 l IH] using list_ind2; intros He; [done| |].
  - cbn [app]. clear He. revert b. induction l2 as [|c|c0 c1 l2 IH2] using list_ind2; intros b.
    + exists 0. cbn. lia.
    + exists 0. cbn. lia.
    + cbn [short_sum]. destruct (IH2 c1) as [k Hk]. exists (k - c1). cbn [short_sum] in *. lia.
  - cbn [length Nat.even] in He. destruct (IH He) as [k Hk]. exists k. cbn [app short_sum]. lia.
Qed.

Lemma short_sum_app_zero l1 l2 :
  bytes l1 → bytes l2 → short_sum (l1 ++ l2) = 0 ↔ short_sum l1 + short_sum l2 = 0.
Proof.
  intros H1 H2. revert H1.
  assert (∀ b, is_byte b → short_sum (b :: l2) = 0 ↔ b + short_sum l2 = 0) as Hb.
  { clear l1. induction l2 as [|c|c0 c1 l2 IH] using list_ind2; intros b Hb; cbn; [lia| |].
    - inversion_clear H2 as [|? ? Hc]. unfold is_byte in *. lia.
    - inversion_clear H2 as [|? ? Hc0 Hc']. inversion_clear Hc' as [|? ? Hc1 Hl].
      specialize (IH Hl c1 Hc1). cbn [short_sum] in IH.
      pose proof (short_sum_range l2 Hl). pose proof (short_sum_range (c1 :: l2) ltac:(by constructor)).
      cbn [short_sum] in *. unfold is_byte in *. lia. }
  induction l1 as [|b|b0 b1 l IH] using list_ind2; intros H1; [cbn; lia| |].
  - inversion_clear H1 as [|? ? Hb0]. cbn [app short_sum]. by apply Hb.
  - inversion_clear H1 as [|? ? Hb0 Hb']. inversion_clear Hb' as [|? ? Hb1 Hl]. specialize (IH Hl).
    cbn [app short_sum]. pose proof (short_sum_range l Hl). pose proof (short_sum_range l2 H2).
    pose proof (short_sum_range (l ++ l2) ltac:(by apply Forall_app_2)). unfold is_byte in *. lia.
Qed.

Lemma add_shorts_spec n data acc :
  bytes data → 0 <= acc → (2 * n <= length data)%nat →
  acc + short_sum (take (2 * n) data) < 4294967296 →
  add_shorts n data acc = Some (acc + short_sum (take (2 * n) data), drop (2 * n) data).
Proof.
  revert data acc. induction n as [|n IH]; intros data acc Hb Hs Hlen Hov.
  { simpl. by rewrite Z.add_0_r. }
  destruct data as [|b0 [|b1 data]]; simpl in Hlen; [lia..|].
  replace (2 * S n)%nat with (S (S (2 * n))) in * by lia.
  inversion_clear Hb as [|? ? Hb0 Hb']. inversion_clear Hb' as [|? ? Hb1 Hl].
  pose proof (short_sum_range (take (2 * n) data) (Forall_take _ _ _ Hl)) as Hr.
  cbn [take short_sum drop] in *. cbn [add_shorts].
  rewrite u32_small by (unfold is_u32, is_byte in *; lia).
  rewrite IH by (unfold is_byte in *; try done; lia). do 2 f_equal. lia.
Qed.

Lemma chksum_spec data len :
  bytes data → 0 <= len <= 65536 → len <= Z.of_nat (length data) →
  chksum data len = Some (short_sum (take (Z.to_nat len) data)).
Proof.
  intros Hb Hlen Hl. set (n := Z.to_nat (len / 2)).
  assert (Z.to_nat len = 2 * n + (if Z.odd len then 1 else 0))%nat as Hn.
  { subst n. pose proof (Zmod_odd len). destruct (Z.odd len); width_lia. }
  assert (2 * n <= Z.to_nat len)%nat as Hn2 by (destruct (Z.odd len); lia).
  pose proof (short_sum_small (take (Z.to_nat len) data) (Forall_take _ _ _ Hb)
    ltac:(rewrite length_take; lia)) as Hr.
  pose proof (short_sum_small (take (2 * n) data) (Forall_take _ _ _ Hb)
    ltac:(rewrite length_take; lia)) as Hr2.
  unfold chksum. rewrite Z.quot_div_nonneg by lia. fold n.
  rewrite add_shorts_spec by (done || lia). cbn [mbind option_bind].
  destruct (Z.odd len); [|by rewrite Hn, Nat.add_0_r].
  destruct (drop (2 * n) data) as [|b r] eqn:Hd.
  { apply (f_equal length) in Hd. rewrite length_drop in Hd. simpl in Hd. lia. }
  rewrite Hn, <-take_take_drop, Hd in *. cbn [take] in *.
  rewrite short_sum_even in * by (rewrite length_take, Nat.min_l by lia; by rewrite Nat.even_even).
  assert (is_byte b) as Hbb.
  { apply (Forall_drop _ (2 * n)) in Hb. rewrite Hd in Hb. by inversion Hb. }
  cbn [short_sum] in *. f_equal. change 255 with (Z.ones 8). rewrite Z.land_ones, Z.shiftl_mul_pow2 by lia.
  change (2 ^ 8) with 256. rewrite (Z.mod_small b) by done.
  replace (htons (u16 (b * 256))) with b by width_lia. apply u32_small. unfold is_u32. lia.
Qed.

(** * Chains of buffers *)

Definition wf_pbuf (q : pbuf) : Prop :=
  bytes (pb_payload q) ∧ is_u16 (pb_len q) ∧ pb_len q <= Z.of_nat (length (pb_payload q)).

Definition pbuf_data (q : pbuf) : list Z := take (Z.to_nat (pb_len q)) (pb_payload q).

(** The bytes of a chain. *)
Definition chain_data (chain : list pbuf) : list Z := chain ≫= pbuf_data.

Lemma pbuf_data_length q : wf_pbuf q → Z.of_nat (length (pbuf_data q)) = pb_len q.
Proof. intros (_ & Hl & Hle). unfold pbuf_data, is_u16 in *. rewrite length_take. lia. Qed.

Lemma pbuf_data_bytes q : wf_pbuf q → bytes (pbuf_data q).
Proof. intros (Hb & _). by apply Forall_take. Qed.

Lemma chain_data_bytes chain : Forall wf_pbuf chain → bytes (chain_data chain).
Proof.
  induction 1 as [|q chain Hq _ IH]; [constructor|]. apply Forall_app_2; [by apply pbuf_data_bytes|done].
Qed.

Lemma folds_to_add s x t :
  folds_to s x → 0 <= t → is_u32 (x + t) → folds_to (s + t) (fold16 (x + t)).
Proof.
  intros (Hs & Hx & [k Hk] & H0) Ht Hu. eapply (folds_to_congr (x + t) _ _ k).
  - by apply fold16_folds.
  - lia.
  - lia.
  - unfold is_u16 in Hx. lia.
Qed.

(** What the loop has computed after the bytes [pre]. *)
Definition chain_inv (pre : list Z) (s : Z * bool) : Prop :=
  s.2 = negb (Nat.even (length pre)) ∧ folds_to ((if s.2 then 256 else 1) * short_sum pre) s.1.

Lemma rem2_even len d :
  Z.of_nat (length d) = len → negb (Z.rem len 2 =? 0) = negb (Nat.even (length (d : list Z))).
Proof.
  intros <-. f_equal. rewrite Z.rem_mod_nonneg by lia.
  destruct (Nat.even (length d)) eqn:E.
  - apply Nat.even_spec in E as [m ->]. apply Z.eqb_eq. width_lia.
  - assert (Nat.odd (length d) = true) as Ho by (by rewrite <-Nat.negb_even, E).
    apply Nat.odd_spec in Ho as [m ->]. apply Z.eqb_neq. width_lia.
Qed.

Lemma chain_step_ok pre s q :
  bytes pre → wf_pbuf q → chain_inv pre s →
  ∃ s', chain_step swap_acc s q = Some s' ∧ chain_inv (pre ++ pbuf_data q) s'.
Proof.
  destruct s as [acc sw]. intros Hpre Hq [Hsw Hf]. cbn [fst snd] in *.
  pose proof (pbuf_data_length q Hq) as Hlen. pose proof (pbuf_data_bytes q Hq) as Hd.
  destruct Hq as (Hb & Hl & Hle). unfold is_u16 in Hl.
  unfold chain_step. rewrite chksum_spec by (done || lia). cbn [mbind option_bind fst snd].
  fold (pbuf_data q). set (d := pbuf_data q) in *. set (t := short_sum d).
  assert (0 <= t <= 2147450880) as Ht by (apply short_sum_small; [done|lia]).
  assert (is_u16 acc) as Ha by apply Hf. unfold is_u16 in Ha.
  rewrite u32_small, fold_acc_fold16 by (unfold is_u32; lia). cbn [mbind option_bind].
  rewrite (rem2_even _ d) by done.
  pose proof (folds_to_add _ _ t Hf ltac:(lia) ltac:(unfold is_u32; lia)) as Hadd.
  set (x := fold16 (acc + t)) in *.
  assert (swap_acc x = swap16 x) as Hx by apply swap_acc_swap16, Hadd. rewrite Hx.
  pose proof (folds_to_swap _ _ Hadd) as Hswap.
  pose proof (short_sum_app_zero pre d Hpre Hd) as H0. pose proof (short_sum_range pre Hpre) as Hp.
  pose proof (short_sum_range (pre ++ d) ltac:(by apply Forall_app_2)) as Hpd.
  exists (if Nat.even (length d) then (x, sw) else (swap16 x, negb sw)).
  split; [by destruct (Nat.even (length d))|]. unfold chain_inv.
  rewrite length_app, Nat.even_add. subst sw.
  destruct (Nat.even (length pre)) eqn:Ep; cbn [negb] in *.
  - rewrite short_sum_even in * by done. fold t in H0, Hpd |- *.
    destruct (Nat.even (length d)); cbn [negb fst snd eqb]; split; try done.
    + by rewrite Z.mul_1_l in *.
    + by rewrite Z.mul_1_l in *.
  - destruct (short_sum_odd pre d Ep) as [k Hk]. fold t in Hk, H0.
    destruct (Nat.even (length d)); cbn [negb fst snd eqb]; split; try done.
    + eapply (folds_to_congr _ _ _ (t + 256 * k)); [exact Hadd|lia|lia|lia].
    + rewrite Z.mul_1_l. eapply (folds_to_congr _ _ _ (k - short_sum pre)); [exact Hswap|lia|lia|lia].
Qed.

Lemma chain_sum_ok chain pre s :
  bytes pre → Forall wf_pbuf chain → chain_inv pre s →
  ∃ s', chain_sum swap_acc s chain = Some s' ∧ chain_inv (pre ++ chain_data chain) s'.
Proof.
  intros Hpre Hc. revert pre s Hpre. induction Hc as [|q chain Hq _ IH]; intros pre s Hpre Hs.
  { exists s. by rewrite app_nil_r. }
  destruct (chain_step_ok pre s q Hpre Hq Hs) as (s1 & E1 & H1). cbn [chain_sum].
  rewrite E1. cbn [mbind option_bind].
  destruct (IH (pre ++ pbuf_data q) s1) as (s' & E & H'); [|done|].
  { apply Forall_app_2; [done|by apply pbuf_data_bytes]. }
  exists s'. split; [done|]. by rewrite <-app_assoc in H'.
Qed.

(** The sum of a chain is the sum of its bytes. *)
Lemma chain_total chain :
  Forall wf_pbuf chain →
  ∃ acc sw, chain_sum swap_acc (0, false) chain = Some (acc, sw) ∧
    folds_to (short_sum (chain_data chain)) (if sw then swap_acc acc else acc).
Proof.
  intros Hc. destruct (chain_sum_ok chain [] (0, false)) as ([acc sw] & E & Hsw & Hf);
    [constructor|done| |].
  { split; [done|]. cbn. split; [done|]. split; [by split|]. split; [by exists 0|done]. }
  exists acc, sw. split; [done|]. cbn [fst snd app] in *. destruct sw; [|by rewrite Z.mul_1_l in Hf].
  rewrite swap_acc_swap16 by apply Hf. pose proof (folds_to_swap _ _ Hf) as H.
  pose proof (short_sum_range _ (chain_data_bytes chain Hc)).
  eapply (folds_to_congr _ _ _ (- short_sum (chain_data chain))); [exact H|lia|lia|lia].
Qed.

Lemma lnot_acc acc : is_u16 acc → u16 (Z.lnot (Z.land acc 65535)) = 65535 - acc.
Proof.
  intros Ha. change 65535 with (Z.ones 16) at 1. rewrite Z.land_ones by lia. change (2 ^ 16) with 65536.
  unfold Z.lnot. width_lia.
Qed.

(** Two ways to the checksum of a block. *)
Lemma checksum_agrees l x :
  bytes l → Z.of_nat (length l) <= 65536 → folds_to (short_sum l) x →
  generatechecksum l (Z.of_nat (length l)) = Some (65535 - x).
Proof.
  intros Hb Hl Hf. rewrite generatechecksum_sum, Nat2Z.id, firstn_all by (done || lia).
  destruct (word_sum_short l) as [k Hk]. pose proof (word_sum_range l Hb) as Hr.
  assert (folds_to (word_sum l) (swap16 x)) as Hw.
  { eapply (folds_to_congr _ _ _ k); [exact (folds_to_swap _ _ Hf)|lia|done|].
    rewrite word_sum_zero by done. lia. }
  rewrite (folds_to_unique _ _ _ (fold16_folds (word_sum l) ltac:(width_lia)) Hw).
  assert (is_u16 x) as Hx by apply Hf. f_equal. width_lia.
Qed.

(** * The checksums *)

(** The bytes in front of the data in a TCP or UDP checksum; addresses are in
    network order, as they are kept. *)
Definition pseudo_header (src dest proto proto_len : Z) : list Z :=
  le_split 4 src ++ le_split 4 dest ++ [0; proto] ++ le_split 2 (htons proto_len).

Lemma short_sum_split4 v l :
  is_u32 v → short_sum (le_split 4 v ++ l) = Z.land v 65535 + Z.land (Z.shiftr v 16) 65535 + short_sum l.
Proof.
  intros Hv. cbn [le_split app short_sum]. change 65535 with (Z.ones 16). rewrite !Z.land_ones by lia.
  rewrite Z.shiftr_div_pow2 by lia. change (2 ^ 16) with 65536. width_lia.
Qed.

Lemma pseudo_header_sum src dest proto plen :
  is_u32 src → is_u32 dest → is_byte proto →
  short_sum (pseudo_header src dest proto plen)
  = Z.land src 65535 + Z.land (Z.shiftr src 16) 65535 + Z.land dest 65535
    + Z.land (Z.shiftr dest 16) 65535 + htons (u16 proto) + htons plen.
Proof.
  intros Hs Hd Hp. unfold pseudo_header. rewrite !short_sum_split4 by done.
  pose proof (swap16_range plen). cbn [le_split app short_sum]. unfold htons in *. width_lia.
Qed.

Lemma pseudo_header_bytes src dest proto plen :
  is_byte proto → bytes (pseudo_header src dest proto plen).
Proof.
  intros Hp. unfold pseudo_header. apply Forall_app_2; [apply le_split_bytes|].
  apply Forall_app_2; [apply le_split_bytes|]. apply Forall_app_2; [|apply le_split_bytes].
  constructor; [done|]. by constructor.
Qed.

Lemma pseudo_words_range v : is_u32 v → 0 <= Z.land v 65535 < 65536 ∧ 0 <= Z.land (Z.shiftr v 16) 65535 < 65536.
Proof.
  intros Hv. change 65535 with (Z.ones 16). rewrite !Z.land_ones by lia. change (2 ^ 16) with 65536. width_lia.
Qed.

Lemma u32_add_l x y : u32 (u32 x + y) = u32 (x + y).
Proof. apply Zplus_mod_idemp_l. Qed.

(** The checksum over the pseudo header is that of its bytes and the data. *)
Lemma inet_chksum_pseudo_run chain src dest proto plen :
  Forall wf_pbuf chain → is_u32 src → is_u32 dest → is_byte proto →
  let l := pseudo_header src dest proto plen ++ chain_data chain in
  Z.of_nat (length l) <= 65536 →
  inet_chksum_pseudo chain src dest proto plen = generatechecksum l (Z.of_nat (length l)).
Proof.
  intros Hc Hs Hd Hp l Hl. destruct (chain_total chain Hc) as (acc & sw & E & Hf).
  assert (bytes l) as Hb by (apply Forall_app_2; [by apply pseudo_header_bytes|by apply chain_data_bytes]).
  unfold inet_chksum_pseudo. rewrite E. cbn [mbind option_bind].
  set (a := if sw then swap_acc acc else acc) in *. assert (is_u16 a) as Ha by apply Hf.
  destruct (pseudo_words_range src Hs) as [S1 S2]. destruct (pseudo_words_range dest Hd) as [D1 D2].
  assert (is_u16 (htons (u16 proto))) as P1 by apply swap16_range.
  assert (is_u16 (htons plen)) as P2 by apply swap16_range. unfold is_u16 in Ha, P1, P2.
  rewrite !u32_add_l. do 3 (rewrite (u32_small (a + _ + _)) || rewrite (u32_small (a + _ + _ + _ + _))
    || rewrite u32_small; [|unfold is_u32; lia]).
  assert (short_sum l = short_sum (chain_data chain) + (Z.land src 65535
    + Z.land (Z.shiftr src 16) 65535 + Z.land dest 65535 + Z.land (Z.shiftr dest 16) 65535
    + htons (u16 proto) + htons plen)) as Hsum.
  { unfold l. rewrite short_sum_even by done. rewrite pseudo_header_sum by done. lia. }
  pose proof (folds_to_add _ _ (Z.land src 65535
    + Z.land (Z.shiftr src 16) 65535 + Z.land dest 65535 + Z.land (Z.shiftr dest 16) 65535
    + htons (u16 proto) + htons plen) Hf ltac:(lia) ltac:(unfold is_u32; lia)) as Hadd.
  rewrite <-Hsum, !Z.add_assoc in Hadd. rewrite fold_acc_fold16 by (unfold is_u32; lia).
  cbn [mbind option_bind]. rewrite lnot_acc by apply Hadd. symmetry. by apply checksum_agrees.
Qed.

Lemma chain_sum_swap f g chain s :
  Forall (λ q, Z.rem (pb_len q) 2 = 0) chain → chain_sum f s chain = chain_sum g s chain.
Proof.
  intros Hc. revert s. induction Hc as [|q chain Hq _ IH]; intros s; [done|]. cbn [chain_sum].
  assert (chain_step f s q = chain_step g s q) as ->.
  { unfold chain_step. by rewrite Hq. }
  destruct (chain_step g s q); [apply IH|done].
Qed.

Lemma chain_sum_even f chain acc sw :
  Forall (λ q, Z.rem (pb_len q) 2 = 0) chain → ∀ s, chain_sum f s chain = Some (acc, sw) → sw = s.2.
Proof.
  intros Hc. induction Hc as [|q chain Hq _ IH]; intros s E; [by injection E as ->|].
  cbn [chain_sum] in E. unfold chain_step in E.
  destruct (chksum _ _) as [c|]; [|done]. cbn [mbind option_bind] in E.
  destruct (fold_acc _) as [a|]; [|done]. cbn [mbind option_bind] in E.
  rewrite Hq in E. cbn [negb Z.eqb mbind option_bind] in E. exact (IH _ E).
Qed.

(** C37: the two Internet checksums of the program agree: [inet_chksum] of the
    TCP stack, which adds words in host order and folds in a loop, gives the same
    16 bits as [generatechecksum] of the router, which adds them in network order
    and folds twice, on every block of up to 65535 bytes, of even or odd
    length. *)
Theorem inet_chksum_agrees data len :
  bytes data → is_u16 len → len <= Z.of_nat (length data) →
  inet_chksum data len = generatechecksum data len.
Proof.
  intros Hb Hl Hle. unfold is_u16 in Hl. set (l := take (Z.to_nat len) data).
  assert (bytes l) as Hbl by by apply Forall_take.
  assert (Z.of_nat (length l) = len) as Hll by (unfold l; rewrite length_take; lia).
  assert (generatechecksum data len = generatechecksum l (Z.of_nat (length l))) as ->.
  { rewrite !generatechecksum_sum by (done || lia). by rewrite Nat2Z.id, firstn_all. }
  pose proof (short_sum_small l Hbl ltac:(lia)) as Hr.
  unfold inet_chksum. rewrite chksum_spec by (done || lia). cbn [mbind option_bind]. fold l.
  rewrite fold_acc_fold16 by (unfold is_u32; lia). cbn [mbind option_bind].
  pose proof (fold16_folds (short_sum l) ltac:(unfold is_u32; lia)) as Hf.
  rewrite lnot_acc by apply Hf. symmetry. apply checksum_agrees; [done|lia|done].
Qed.

Lemma inet_chksum_agrees_witness :
  inet_chksum [69; 0; 0; 3; 7] 5 = generatechecksum [69; 0; 0; 3; 7] 5 ∧
  inet_chksum [69; 0; 0; 3; 7] 5 = Some 64691.
Proof.
  split; [|vm_compute; reflexivity].
  apply inet_chksum_agrees; [repeat constructor; vm_compute; done|split; vm_compute; done|vm_compute; done].
Defined.

(** the checksum of a TCP or UDP segment does not depend on how it is cut
    into buffers, odd cuts included, and what the sender fills in verifies at the
    receiver: when the checksum computed over a chain, with a zero checksum
    field, is stored in that field, the checksum over any chain of the resulting
    bytes is zero. *)
Theorem segment_checksum_verifies sent received_ src dest proto plen off c data' :
  Forall wf_pbuf sent → Forall wf_pbuf received_ → is_u32 src → is_u32 dest → is_byte proto →
  12 + Z.of_nat (length (chain_data sent)) <= 65536 → Nat.even off = true →
  load 2 (chain_data sent) off = Some 0 →
  inet_chksum_pseudo sent src dest proto plen = Some c →
  store 2 (chain_data sent) off c = Some data' → chain_data received_ = data' →
  inet_chksum_pseudo received_ src dest proto plen = Some 0.
Proof.
  intros Hs Hr Hsrc Hdst Hp Hl He Hz Hc Hst Hd.
  set (h := pseudo_header src dest proto plen). set (data := chain_data sent) in *.
  assert (length h = 12%nat) as Hh by done.
  assert (length data' = length data) as Hl' by (eapply put_bytes_length; exact Hst).
  assert (off + 2 <= length data)%nat as Ho.
  { unfold load, get_bytes in Hz. destruct (decide _) as [|]; [lia|done]. }
  rewrite inet_chksum_pseudo_run in Hc by (done || (rewrite length_app; fold h; fold data; lia)).
  rewrite inet_chksum_pseudo_run by (done || (rewrite Hd, length_app; fold h; lia)).
  fold data h in Hc. rewrite Hd. fold h.
  replace (length (h ++ data')) with (length (h ++ data)) by (rewrite !length_app; lia).
  eapply (checksum_fill (h ++ data) (Z.of_nat (length (h ++ data))) (12 + off) c).
  - apply Forall_app_2; [by apply pseudo_header_bytes|by apply chain_data_bytes].
  - rewrite length_app. lia.
  - lia.
  - by rewrite Nat.even_add, He.
  - rewrite length_app. lia.
  - unfold load in *. rewrite <-Hz. f_equal. unfold get_bytes.
    rewrite length_app, Hh. case_decide; case_decide; [|lia..|done].
    rewrite drop_app_ge by lia. do 3 f_equal. lia.
  - exact Hc.
  - unfold store, put_bytes in *. rewrite length_app, Hh. cbn [le_split length] in *.
    case_decide; [|done]. rewrite decide_True by lia. injection Hst as <-.
    rewrite take_app_ge, drop_app_ge, Hh, <-app_assoc by lia.
    replace (12 + off - 12)%nat with off by lia.
    by replace (12 + off + 2 - 12)%nat with (off + 2)%nat by lia.
Qed.

(** A segment of nine bytes, in two buffers and in three. *)
Definition sent_chain : list pbuf := [Pbuf [17; 34; 51; 68; 0; 0] 6; Pbuf [85; 102; 119] 3].

Lemma segment_checksum_verifies_witness :
  ∃ c, inet_chksum_pseudo sent_chain 167772161 167772162 6 9 = Some c ∧ c ≠ 0 ∧
    ∀ r, r = [Pbuf [17] 1; Pbuf ([34; 51; 68] ++ le_split 2 c) 5; Pbuf [85; 102; 119; 0; 9] 3] →
      inet_chksum_pseudo r 167772161 167772162 6 9 = Some 0.
Proof.
  eexists. split; [vm_compute; reflexivity|]. split; [discriminate|]. intros r ->.
  eapply (segment_checksum_verifies sent_chain _ _ _ _ _ 4).
  - repeat constructor; vm_compute; done.
  - repeat constructor; vm_compute; done.
  - split; vm_compute; done.
  - split; vm_compute; done.
  - split; vm_compute; done.
  - vm_compute. done.
  - reflexivity.
  - vm_compute. reflexivity.
  - vm_compute. reflexivity.
  - vm_compute. reflexivity.
  - vm_compute. reflexivity.
Defined.

(** [inet_chksum_pbuf], which the stack uses to verify ICMP messages, is the
    checksum of the bytes of a chain of buffers of even length; for a single
    buffer of odd length it is the checksum with its bytes exchanged, because
    the shifts in its exchange of bytes bind tighter than the masks. *)
Theorem inet_chksum_pbuf_parity chain :
  Forall wf_pbuf chain → Z.of_nat (length (chain_data chain)) <= 65536 →
  (Forall (λ q, Z.rem (pb_len q) 2 = 0) chain →
   inet_chksum_pbuf chain = generatechecksum (chain_data chain) (Z.of_nat (length (chain_data chain)))) ∧
  (∀ q, chain = [q] → Z.rem (pb_len q) 2 ≠ 0 →
   inet_chksum_pbuf chain
   = swap16 <$> generatechecksum (chain_data chain) (Z.of_nat (length (chain_data chain)))).
Proof.
  intros Hc Hl. pose proof (chain_data_bytes chain Hc) as Hb. split.
  - intros He. unfold inet_chksum_pbuf. rewrite (chain_sum_swap _ swap_acc) by done.
    destruct (chain_total chain Hc) as (acc & sw & E & Hf). rewrite E. cbn [mbind option_bind].
    pose proof (chain_sum_even _ _ _ _ He _ E) as Hsw. cbn in Hsw. subst sw.
    rewrite lnot_acc by apply Hf. symmetry. by apply checksum_agrees.
  - intros q -> Ho. unfold chain_data in *. cbn [mbind list_bind] in *. rewrite app_nil_r in *.
    inversion_clear Hc as [|? ? Hq _]. pose proof (pbuf_data_length q Hq) as Hlen.
    destruct Hq as (Hqb & Hql & Hqle). unfold is_u16 in Hql.
    unfold inet_chksum_pbuf. cbn [chain_sum]. unfold chain_step.
    rewrite chksum_spec by (done || lia). cbn [mbind option_bind fst snd]. fold (pbuf_data q).
    pose proof (short_sum_small _ Hb Hl) as Hr.
    rewrite Z.add_0_l, u32_small, fold_acc_fold16 by (unfold is_u32; lia). cbn [mbind option_bind].
    rewrite (proj2 (Z.eqb_neq _ _) Ho). cbn [negb mbind option_bind].
    pose proof (fold16_folds (short_sum (pbuf_data q)) ltac:(unfold is_u32; lia)) as Hf.
    rewrite swap_acc_pbuf_id, swap_acc_swap16 by apply Hf.
    rewrite (checksum_agrees _ _ Hb Hl Hf). cbn [fmap option_fmap option_map].
    rewrite lnot_acc by apply swap16_range. assert (is_u16 (fold16 (short_sum (pbuf_data q)))) by apply Hf.
    f_equal. width_lia.
Qed.

Lemma inet_chksum_pbuf_parity_witness :
  inet_chksum_pbuf [Pbuf [8; 0; 247] 3] = swap16 <$> generatechecksum [8; 0; 247] 3 ∧
  generatechecksum [8; 0; 247] 3 = Some 65280.
Proof.
  split; [|vm_compute; reflexivity].
  destruct (inet_chksum_pbuf_parity [Pbuf [8; 0; 247] 3]) as [_ H].
  - repeat constructor; vm_compute; done.
  - vm_compute. done.
  - exact (H _ eq_refl ltac:(vm_compute; discriminate)).
Defined.
