(* ===== verification/Mem.v ===== *)
(** The memory manager of the TCP stack (lwtcp/mem.c): a first-fit heap in one
    static array, with a header in front of every block.

    The array is a function from offsets to bytes, and a block is named by the
    offset of its header; pointers into the array are offsets too, and the null
    pointer of a list of reclaimers is 0, where no data lies.  Access outside the array, waiting for a semaphore that
    is not available and a loop without end are faults.  [ASSERT] expands to
    nothing, as [LWIP_DEBUG] is not defined; the structure is that of an LP64
    machine, on which [sizeof] is 64 bits wide and [mem_size_t] 32. *)

From stdpp Require Import base tactics list numbers.
From Stdlib Require Import ZArith Lia.
From S2P Require Import Prelude.

Local Open Scope Z_scope.

Definition MEM_SIZE : Z := 5120000.
Definition MEM_ALIGNMENT : Z := 4.
Definition MIN_SIZE : Z := 12.

Definition MEM_ALIGN_SIZE (size : Z) : Z :=
  size + (if size mod MEM_ALIGNMENT =? 0 then 0 else MEM_ALIGNMENT - size mod MEM_ALIGNMENT).

(** [next] and [prev] are words, [used] a byte, and the size is aligned. *)
Definition sizeof_mem : Z := 12.
Definition SIZEOF_STRUCT_MEM : Z := MEM_ALIGN_SIZE sizeof_mem.
Definition RAM_LEN : Z := MEM_ALIGN_SIZE (MEM_SIZE + sizeof_mem).

(** * The state *)

(** [stats.mem]: 16-bit counters. *)
Record stats_mem := StatsMem { st_avail : Z; st_used : Z; st_max : Z; st_err : Z }.

Record heap := Heap {
  ram : Z → Z;
  lfree : Z;
  mem_sem : Z;
  mrlist : Z;
  mem_stats : stats_mem
}.

Definition set_ram (m : Z → Z) (h : heap) : heap := Heap m (lfree h) (mem_sem h) (mrlist h) (mem_stats h).
Definition set_lfree (p : Z) (h : heap) : heap := Heap (ram h) p (mem_sem h) (mrlist h) (mem_stats h).
Definition set_sem (s : Z) (h : heap) : heap := Heap (ram h) (lfree h) s (mrlist h) (mem_stats h).
Definition set_stats (s : stats_mem) (h : heap) : heap := Heap (ram h) (lfree h) (mem_sem h) (mrlist h) s.
Definition set_mrlist (p : Z) (h : heap) : heap := Heap (ram h) (lfree h) (mem_sem h) p (mem_stats h).

Definition count_used (d : Z) (s : stats_mem) : stats_mem :=
  StatsMem (st_avail s) (u16 (st_used s + d)) (st_max s) (st_err s).
Definition count_max (m : Z) (s : stats_mem) : stats_mem :=
  StatsMem (st_avail s) (st_used s) (if st_max s <? m then u16 m else st_max s) (st_err s).
Definition count_err (s : stats_mem) : stats_mem :=
  StatsMem (st_avail s) (st_used s) (st_max s) (u16 (st_err s + 1)).

Inductive mem_fault := OutOfRam | SemBlocked | EndlessLoop.

Inductive outcome (A : Type) :=
  | Done (a : A) (h : heap)
  | Crash (f : mem_fault).
Arguments Done {A} _ _.
Arguments Crash {A} _.

Definition HM (A : Type) : Type := heap → outcome A.

#[global] Instance hm_ret : MRet HM := λ A a h, Done a h.
#[global] Instance hm_bind : MBind HM := λ A B f m h,
  match m h with Done a h' => f a h' | Crash e => Crash e end.

Definition get_heap : HM heap := λ h, Done h h.
Definition modify_heap (f : heap → heap) : HM unit := λ h, Done tt (f h).
Definition crash {A} (e : mem_fault) : HM A := λ h, Crash e.

(** * Bytes *)

Definition ram_get (m : Z → Z) (off : Z) (n : nat) : Z :=
  le_combine (map (λ k, m (off + Z.of_nat k)) (seq 0 n)).

Definition ram_put (m : Z → Z) (off : Z) (n : nat) (v : Z) : Z → Z :=
  λ o, if (off <=? o) && (o <? off + Z.of_nat n) then nth (Z.to_nat (o - off)) (le_split n v) 0
       else m o.

Definition in_ram (off : Z) (n : nat) : bool := (0 <=? off) && (off + Z.of_nat n <=? RAM_LEN).

Definition mem_load (off : Z) (n : nat) : HM Z :=
  if in_ram off n then h ← get_heap; mret (ram_get (ram h) off n) else crash OutOfRam.
Definition mem_store (off : Z) (n : nat) (v : Z) : HM unit :=
  if in_ram off n then modify_heap (λ h, set_ram (ram_put (ram h) off n v) h) else crash OutOfRam.

(** The fields of the header at [mem]. *)
Definition get_next (mem : Z) : HM Z := mem_load mem 4.
Definition get_prev (mem : Z) : HM Z := mem_load (mem + 4) 4.
Definition get_used (mem : Z) : HM Z := mem_load (mem + 8) 1.
Definition set_next (mem v : Z) : HM unit := mem_store mem 4 (u32 v).
Definition set_prev (mem v : Z) : HM unit := mem_store (mem + 4) 4 (u32 v).
Definition set_used (mem v : Z) : HM unit := mem_store (mem + 8) 1 v.

(** The counter of [mem_sem]; a signal leaves it at 1 at most.  The wait is that
    of a thread none of whose timers has run out. *)
Definition sys_sem_wait : HM unit :=
  h ← get_heap; if mem_sem h <=? 0 then crash SemBlocked else modify_heap (set_sem (mem_sem h - 1)).
Definition sys_sem_signal : HM unit :=
  modify_heap (λ h, let c := mem_sem h + 1 in set_sem (if 1 <? c then 1 else c) h).

(** * Operations *)

Definition move_lfree (from to : Z) : HM unit :=
  modify_heap (λ h, if lfree h =? from then set_lfree to h else h).

Definition plug_forward (mem : Z) : HM unit :=
  nmem ← get_next mem;
  if mem =? nmem then mret tt
  else
    used ← get_used nmem;
    if (used =? 0) && negb (nmem =? MEM_SIZE) then
      move_lfree nmem mem;;
      next ← get_next nmem;
      set_next mem next;;
      next ← get_next nmem;
      set_prev next mem
    else mret tt.

Definition plug_backward (mem : Z) : HM unit :=
  pmem ← get_prev mem;
  if pmem =? mem then mret tt
  else
    used ← get_used pmem;
    if used =? 0 then
      move_lfree mem pmem;;
      next ← get_next mem;
      set_next pmem next;;
      next ← get_next mem;
      set_prev next pmem
    else mret tt.

Definition plug_holes (mem : Z) : HM unit := plug_forward mem;; plug_backward mem.

Definition mem_init (h : heap) : outcome unit :=
  (modify_heap (λ h, set_ram (λ o, if (0 <=? o) && (o <? MEM_SIZE) then 0 else ram h o) h);;
   set_next 0 MEM_SIZE;;
   set_prev 0 0;;
   set_used 0 0;;
   set_used MEM_SIZE 1;;
   set_next MEM_SIZE MEM_SIZE;;
   set_prev MEM_SIZE MEM_SIZE;;
   modify_heap (set_sem 1);;
   modify_heap (set_lfree 0);;
   modify_heap (set_mrlist 0);;
   modify_heap (λ h, set_stats (StatsMem (u16 MEM_SIZE) (st_used (mem_stats h)) (st_max (mem_stats h))
                                  (st_err (mem_stats h))) h)) h.

(** [while(lfree->used && lfree != ram_end) lfree = &ram[lfree->next]]. *)
Fixpoint advance_lfree (fuel : nat) : HM unit :=
  match fuel with
  | O => crash EndlessLoop
  | S fuel' =>
      h ← get_heap;
      used ← get_used (lfree h);
      if negb (used =? 0) && negb (lfree h =? MEM_SIZE) then
        next ← get_next (lfree h);
        modify_heap (set_lfree next);;
        advance_lfree fuel'
      else mret tt
  end.

(** A block has at least a header, so no walk over the blocks is longer. *)
Definition walk_fuel : nat := S (Z.to_nat (MEM_SIZE / SIZEOF_STRUCT_MEM)).

(** Split the block [ptr] and return the address behind its header. *)
Definition take_block (ptr next size : Z) : HM (option Z) :=
  let ptr2 := u32 (ptr + SIZEOF_STRUCT_MEM + size) in
  set_prev ptr2 ptr;;
  set_next ptr2 next;;
  set_next ptr ptr2;;
  next2 ← get_next ptr2;
  (if negb (next2 =? MEM_SIZE) then set_prev next2 ptr2 else mret tt);;
  set_used ptr2 0;;
  set_used ptr 1;;
  modify_heap (λ h, set_stats (count_max ptr2 (count_used size (mem_stats h))) h);;
  h ← get_heap;
  (if ptr =? lfree h then advance_lfree walk_fuel else mret tt);;
  sys_sem_signal;;
  mret (Some (ptr + SIZEOF_STRUCT_MEM)).

Fixpoint find_block (fuel : nat) (ptr size : Z) : HM (option Z) :=
  match fuel with
  | O => crash EndlessLoop
  | S fuel' =>
      if ptr <? MEM_SIZE then
        used ← get_used ptr;
        next ← get_next ptr;
        if (used =? 0) && (u64 (size + SIZEOF_STRUCT_MEM) <=? u64 (next - (ptr + SIZEOF_STRUCT_MEM)))
        then take_block ptr next size
        else find_block fuel' next size
      else
        modify_heap (λ h, set_stats (count_err (mem_stats h)) h);;
        sys_sem_signal;;
        mret None
  end.

(** The rounding of a requested size. *)
Definition round_size (size : Z) : Z :=
  if negb (size mod MEM_ALIGNMENT =? 0)
  then u32 (size + (MEM_ALIGNMENT - u64 (size + SIZEOF_STRUCT_MEM) mod MEM_ALIGNMENT))
  else size.

Definition mem_malloc (size : Z) : HM (option Z) :=
  if size =? 0 then mret None
  else
    let size := round_size size in
    if MEM_SIZE <? size then mret None
    else
      sys_sem_wait;;
      h ← get_heap;
      find_block walk_fuel (lfree h) size.

(** [None] is the null pointer; other pointers may lie outside of the array. *)
Definition mem_free (rmem : option Z) : HM unit :=
  match rmem with
  | None => mret tt
  | Some rmem =>
      sys_sem_wait;;
      if (rmem <? 0) || (MEM_SIZE <=? rmem) then
        modify_heap (λ h, set_stats (count_err (mem_stats h)) h)
      else
        let mem := rmem - SIZEOF_STRUCT_MEM in
        set_used mem 0;;
        modify_heap (λ h, if mem <? lfree h then set_lfree mem h else h);;
        next ← get_next mem;
        modify_heap (λ h, set_stats (count_used (- (next - mem - SIZEOF_STRUCT_MEM)) (mem_stats h)) h);;
        plug_holes mem;;
        sys_sem_signal
  end.

(** Cut the block [mem] to [newsize] bytes; the rest becomes a free block. *)
Definition cut_block (mem newsize : Z) : HM unit :=
  let ptr := u32 mem in
  let ptr2 := u32 (ptr + SIZEOF_STRUCT_MEM + newsize) in
  set_used ptr2 0;;
  next ← get_next mem;
  set_next ptr2 next;;
  set_prev ptr2 ptr;;
  set_next mem ptr2;;
  next2 ← get_next ptr2;
  (if negb (next2 =? MEM_SIZE) then set_prev next2 ptr2 else mret tt);;
  plug_holes ptr2.

Definition mem_realloc (rmem newsize : Z) : HM Z :=
  sys_sem_wait;;
  if (rmem <? 0) || (MEM_SIZE <=? rmem) then mret rmem
  else
    let mem := rmem - SIZEOF_STRUCT_MEM in
    let ptr := u32 mem in
    next ← get_next mem;
    let size := u32 (next - ptr - SIZEOF_STRUCT_MEM) in
    modify_heap (λ h, set_stats (count_used (- u32 (size - newsize)) (mem_stats h)) h);;
    (if u64 (newsize + SIZEOF_STRUCT_MEM + MIN_SIZE) <? size then cut_block mem newsize else mret tt);;
    sys_sem_signal;;
    mret rmem.

(** [bcopy] inside the array. *)
Definition mem_bcopy (src dst n : Z) : HM unit :=
  if in_ram src (Z.to_nat n) && in_ram dst (Z.to_nat n) then
    modify_heap (λ h, set_ram (λ o, if (dst <=? o) && (o <? dst + n) then ram h (src + (o - dst))
                                    else ram h o) h)
  else crash OutOfRam.

Definition mem_reallocm (rmem newsize : Z) : HM Z :=
  nmem ← mem_malloc newsize;
  match nmem with
  | None => mem_realloc rmem newsize
  | Some nmem => mem_bcopy rmem nmem newsize;; mem_free (Some rmem);; mret nmem
  end.

(** ** Reclaimers: [next], [f] and [arg] are pointers in a block of the heap. *)

Definition sizeof_mem_reclaim : Z := 24.

Definition mem_register_reclaim (f arg : Z) : HM unit :=
  mr ← mem_malloc sizeof_mem_reclaim;
  match mr with
  | None => mret tt
  | Some mr =>
      h ← get_heap;
      mem_store mr 8 (mrlist h);;
      modify_heap (set_mrlist mr);;
      mem_store (mr + 8) 8 f;;
      mem_store (mr + 16) 8 arg
  end.

Section reclaim.
(** A call of the registered function [f] with its argument and the size. *)
Context (call : Z → Z → Z → HM Z).

Fixpoint reclaim_loop (fuel : nat) (mr size rec : Z) : HM Z :=
  match fuel with
  | O => crash EndlessLoop
  | S fuel' =>
      if mr =? 0 then mret rec
      else
        f ← mem_load (mr + 8) 8;
        arg ← mem_load (mr + 16) 8;
        r ← call f arg size;
        next ← mem_load mr 8;
        reclaim_loop fuel' next size (s32 (rec + r))
  end.

(** [stats.mem.reclaimed] is not read by the program. *)
Definition mem_reclaim (size : Z) : HM unit :=
  h ← get_heap;
  reclaim_loop walk_fuel (mrlist h) size 0;;
  mret tt.

Definition mem_malloc2 (size : Z) : HM (option Z) :=
  mem ← mem_malloc size;
  match mem with
  | None => mem_reclaim size;; mem_malloc size
  | Some p => mret (Some p)
  end.
End reclaim.
