(* ===== verification/MemSpec.v ===== *)
(** The memory manager (file Mem) refines a tiling of its array: a list of
    blocks, each with its size and whether it is in use. *)

From stdpp Require Import base tactics list numbers.
From Stdlib Require Import ZArith Lia.
From S2P Require Import Prelude Mem.

Local Open Scope Z_scope.

#[local] Arguments ram_get : simpl never.
#[local] Arguments ram_put : simpl never.

(** * Bytes *)

Lemma ram_get_ext m m' off n :
  (∀ a, off <= a < off + Z.of_nat n → m' a = m a) → ram_get m' off n = ram_get m off n.
Proof.
  intros H. unfold ram_get. f_equal. apply map_ext_in. intros k Hk%in_seq. apply H. lia.
Qed.

Lemma ram_put_out m off n v a : a < off ∨ off + Z.of_nat n <= a → ram_put m off n v a = m a.
Proof.
  intros H. unfold ram_put. destruct (Z.leb_spec off a); [|done].
  destruct (Z.ltb_spec a (off + Z.of_nat n)); [lia|done].
Qed.

Lemma ram_get_put_other m off n v off' n' :
  off' + Z.of_nat n' <= off ∨ off + Z.of_nat n <= off' →
  ram_get (ram_put m off n v) off' n' = ram_get m off' n'.
Proof. intros H. apply ram_get_ext. intros a Ha. apply ram_put_out. lia. Qed.

Lemma ram_get_put_same m off n v :
  ram_get (ram_put m off n v) off n = v mod 256 ^ Z.of_nat n.
Proof.
  unfold ram_get. rewrite <-le_combine_split. f_equal. apply list_eq. intros k.
  rewrite list_lookup_fmap. destruct (decide (k < n)%nat) as [Hk|Hk].
  - rewrite lookup_seq_lt by done. cbn. unfold ram_put.
    rewrite (proj2 (Z.leb_le _ _)), (proj2 (Z.ltb_lt _ _)) by lia. cbn.
    replace (Z.to_nat (off + Z.of_nat k - off)) with k by lia.
    rewrite nth_lookup. destruct (le_split n v !! k) eqn:E; [done|].
    apply lookup_ge_None in E. rewrite length_le_split in E. lia.
  - rewrite lookup_seq_ge, (lookup_ge_None_2 (le_split n v)); [done| |lia].
    rewrite length_le_split. lia.
Qed.

(** * Running the operations *)

Lemma hm_bind_done {A B} (m : HM A) (f : A → HM B) h a h' :
  m h = Done a h' → (m ≫= f) h = f a h'.
Proof. intros E. unfold mbind, hm_bind. by rewrite E. Qed.

Lemma mem_load_run off n h :
  0 <= off → off + Z.of_nat n <= RAM_LEN → mem_load off n h = Done (ram_get (ram h) off n) h.
Proof.
  intros H1 H2. unfold mem_load, in_ram.
  by rewrite (proj2 (Z.leb_le _ _) H1), (proj2 (Z.leb_le _ _) H2).
Qed.

Lemma mem_store_run off n v h :
  0 <= off → off + Z.of_nat n <= RAM_LEN →
  mem_store off n v h = Done tt (set_ram (ram_put (ram h) off n v) h).
Proof.
  intros H1 H2. unfold mem_store, in_ram.
  by rewrite (proj2 (Z.leb_le _ _) H1), (proj2 (Z.leb_le _ _) H2).
Qed.

Lemma set_ram_same h : set_ram (ram h) h = h.
Proof. by destruct h. Qed.

Lemma cond_store_run (b : bool) off n v h {B} (f : unit → HM B) :
  0 <= off → off + Z.of_nat n <= RAM_LEN →
  ((if negb b then mem_store off n v else mret tt) ≫= f) h =
  f tt (set_ram (if b then ram h else ram_put (ram h) off n v) h).
Proof.
  intros H1 H2. destruct b; cbn [negb]; [by rewrite set_ram_same|].
  apply hm_bind_done. by apply mem_store_run.
Qed.

(** Constants for [lia]. *)
Ltac mem_lia := unfold SIZEOF_STRUCT_MEM, sizeof_mem, MIN_SIZE, is_u32 in *;
  change (MEM_ALIGN_SIZE 12) with 12 in *; change RAM_LEN with 5120012 in *;
  change MEM_SIZE with 5120000 in *; lia.

(** Step through loads and stores inside the array. *)
Ltac hstep :=
  lazymatch goal with
  | |- context [(mem_load ?o ?n ≫= ?f) ?h] =>
      rewrite (hm_bind_done _ f h _ _ (mem_load_run o n h ltac:(mem_lia) ltac:(mem_lia)))
  | |- context [(mem_store ?o ?n ?v ≫= ?f) ?h] =>
      rewrite (hm_bind_done _ f h _ _ (mem_store_run o n v h ltac:(mem_lia) ltac:(mem_lia)))
  | |- context [(modify_heap ?g ≫= ?f) ?h] => change ((modify_heap g ≫= f) h) with (f tt (g h))
  | |- context [(get_heap ≫= ?f) ?h] => change ((get_heap ≫= f) h) with (f h h)
  | |- context [(mret ?x ≫= ?f) ?h] => change ((mret x ≫= f) h) with (f x h)
  end; cbv beta.

Ltac hfields := unfold get_next, get_prev, get_used, set_next, set_prev, set_used.

(** Read through the stores of a memory. *)
Ltac ram_simp :=
  repeat (rewrite ram_get_put_same || (rewrite ram_get_put_other by mem_lia));
  change (256 ^ Z.of_nat 4) with 4294967296; change (256 ^ Z.of_nat 1) with 256;
  unfold u32; rewrite ?(Z.mod_small (_ mod _)) by (apply Z.mod_pos_bound; lia);
  rewrite ?Z.mod_small by mem_lia.

(** Values that fit their width. *)
Ltac drop_wraps :=
  change SIZEOF_STRUCT_MEM with 12 in *; change MIN_SIZE with 12 in *;
  repeat match goal with
  | |- context [u32 ?x] => rewrite (u32_small x) by mem_lia
  | |- context [u64 ?x] => rewrite (u64_small x) by mem_lia
  end.

(** * Tilings *)

Definition tile : Type := Z * bool.

Fixpoint tsum (l : list tile) : Z := match l with [] => 0 | t :: l' => t.1 + tsum l' end.

Lemma tsum_app l1 l2 : tsum (l1 ++ l2) = tsum l1 + tsum l2.
Proof. induction l1 as [|t l1 IH]; cbn; [done|]. rewrite IH. lia. Qed.

Definition header (m : Z → Z) (o next prev : Z) (used : bool) : Prop :=
  ram_get m o 4 = next ∧ ram_get m (o + 4) 4 = prev ∧ ram_get m (o + 8) 1 = Z.b2z used.

(** The blocks [l] lie one behind the other from offset [o] to [o'], where [p]
    is the offset of the block in front of them and [p'] that of the last. *)
Fixpoint seg (m : Z → Z) (p o : Z) (l : list tile) (p' o' : Z) : Prop :=
  match l with
  | [] => p' = p ∧ o' = o
  | (n, used) :: l' => header m o (o + n) p used ∧ 12 <= n ∧ seg m o (o + n) l' p' o'
  end.

Lemma seg_app m p o l1 l2 p'' o'' :
  seg m p o (l1 ++ l2) p'' o'' ↔ ∃ p' o', seg m p o l1 p' o' ∧ seg m p' o' l2 p'' o''.
Proof.
  revert p o. induction l1 as [|[n u] l1 IH]; intros p o; cbn [app seg].
  - split; [intros H; by exists p, o|]. by intros (p' & o' & [-> ->] & H).
  - rewrite IH. naive_solver.
Qed.

Lemma seg_sum m p o l p' o' : seg m p o l p' o' → o' = o + tsum l ∧ 0 <= tsum l.
Proof.
  revert p o. induction l as [|[n u] l IH]; intros p o; cbn [seg].
  - intros [-> ->]. cbn. lia.
  - intros (_ & Hn & H). destruct (IH _ _ H). cbn. lia.
Qed.

Lemma header_ext m m' o next prev used :
  (∀ a, o <= a < o + 9 → m' a = m a) → header m o next prev used → header m' o next prev used.
Proof.
  intros H (H1 & H2 & H3). split_and!; (etrans; [apply ram_get_ext|done]); intros a Ha; apply H; lia.
Qed.

(** Blocks do not see writes elsewhere. *)
Lemma seg_ext m m' p o l p' o' :
  (∀ a, o <= a < o' → m' a = m a) → seg m p o l p' o' → seg m' p o l p' o'.
Proof.
  revert p o. induction l as [|[n u] l IH]; intros p o H; cbn [seg]; [done|].
  intros (Hh & Hn & Hs). pose proof (seg_sum _ _ _ _ _ _ Hs) as [Ho Hpos]. split_and!; [|done|].
  - eapply header_ext; [|exact Hh]. intros a Ha. apply H. lia.
  - apply IH; [|done]. intros a Ha. apply H. lia.
Qed.

(** No two free blocks are neighbours. *)
Fixpoint coalesced (l : list tile) : Prop :=
  match l with
  | (_, u) :: (((_, v) :: _) as l') => u || v = true ∧ coalesced l'
  | _ => True
  end.

Lemma coalesced_split l1 x l2 :
  coalesced (l1 ++ x :: l2) ↔ coalesced (l1 ++ [x]) ∧ coalesced (x :: l2).
Proof.
  induction l1 as [|[n u] l1 IH]; cbn [app]; [destruct x; cbn; tauto|].
  destruct l1 as [|[m v] l1]; cbn [app coalesced] in *; [destruct x; cbn; tauto|]. tauto.
Qed.

(** The array holds the tiling [l]. *)
Record holds (m : Z → Z) (l : list tile) : Prop := {
  hd_seg : ∃ p, seg m 0 0 l p MEM_SIZE;
  hd_end : ram_get m MEM_SIZE 4 = MEM_SIZE ∧ ram_get m (MEM_SIZE + 8) 1 = 1
}.

(** The block [t] lies at offset [o]. *)
Definition tile_at (l : list tile) (o : Z) (t : tile) : Prop :=
  ∃ pre post, l = pre ++ t :: post ∧ o = tsum pre.

(** The offset of a free block. *)
Definition free_at (l : list tile) (o : Z) : Prop := ∃ n, tile_at l o (n, false).

(** The last block is free: no block in use reaches the end of the array. *)
Fixpoint ends_free (l : list tile) : Prop :=
  match l with
  | [] => False
  | [(_, u)] => u = false
  | _ :: l' => ends_free l'
  end.

Lemma ends_free_app l1 x l2 : ends_free (l1 ++ x :: l2) ↔ ends_free (x :: l2).
Proof.
  induction l1 as [|[n u] l1 IH]; [done|]. rewrite <-IH. by destruct l1.
Qed.

Lemma ends_free_size n k u l : ends_free ((n, u) :: l) ↔ ends_free ((k, u) :: l).
Proof. by destruct l. Qed.

Record heap_ok (h : heap) (l : list tile) : Prop := {
  ho_holds : holds (ram h) l;
  ho_coalesced : coalesced l;
  ho_last : ends_free l;
  ho_lfree : free_at l (lfree h);
  ho_sem : mem_sem h = 1
}.

Lemma seg_sizes m p o l p' o' : seg m p o l p' o' → Forall (λ t, 12 <= t.1) l.
Proof.
  revert p o. induction l as [|[n u] l IH]; intros p o; cbn [seg]; [constructor|].
  intros (_ & Hn & Hs). constructor; [done|by eapply IH].
Qed.

Lemma holds_sizes m l : holds m l → Forall (λ t, 12 <= t.1) l.
Proof. intros [[p H] _]. by eapply seg_sizes. Qed.

Lemma holds_sum m l : holds m l → tsum l = MEM_SIZE.
Proof. intros [[p H] _]. apply seg_sum in H. lia. Qed.

Lemma tsum_nonneg l : Forall (λ t, 12 <= t.1) l → 0 <= tsum l.
Proof. induction 1; cbn; lia. Qed.

(** A block of the tiling, and its header. *)
Lemma holds_block m pre n u post :
  holds m (pre ++ (n, u) :: post) →
  ∃ p q, seg m 0 0 pre p (tsum pre) ∧ header m (tsum pre) (tsum pre + n) p u ∧ 12 <= n ∧
    seg m (tsum pre) (tsum pre + n) post q MEM_SIZE ∧ 0 <= tsum pre ∧ tsum pre + n <= MEM_SIZE.
Proof.
  intros [[q H] _]. apply seg_app in H as (p & o & H1 & Hh & Hn & H2).
  destruct (seg_sum _ _ _ _ _ _ H1) as [-> Hp]. destruct (seg_sum _ _ _ _ _ _ H2) as [He Hq].
  exists p, q. cbn in *. split_and!; done || lia.
Qed.

Lemma tile_at_nil o t : tile_at [] o t ↔ False.
Proof. split; [|done]. by intros ([|? ?] & post & [=] & _). Qed.

Lemma tile_at_cons x l o t : tile_at (x :: l) o t ↔ (x = t ∧ o = 0) ∨ tile_at l (o - x.1) t.
Proof.
  split.
  - intros ([|y pre] & post & E & Ho); injection E as -> ->; [by left|right].
    exists pre, post. cbn in Ho. split; [done|lia].
  - intros [[-> ->]|(pre & post & -> & E)]; [by exists [], l|].
    exists (x :: pre), post. cbn. split; [done|lia].
Qed.

Lemma tile_at_app l1 l2 o t : tile_at (l1 ++ l2) o t ↔ tile_at l1 o t ∨ tile_at l2 (o - tsum l1) t.
Proof.
  revert o. induction l1 as [|x l1 IH]; intros o; cbn [app tsum].
  - rewrite Z.sub_0_r, tile_at_nil. tauto.
  - rewrite !tile_at_cons, IH. replace (o - (x.1 + tsum l1)) with (o - x.1 - tsum l1) by lia. tauto.
Qed.

Lemma tile_at_range l o t :
  Forall (λ t : tile, 12 <= t.1) l → tile_at l o t → 0 <= o ∧ 12 <= t.1 ∧ o + t.1 <= tsum l.
Proof.
  intros Hl. revert o. induction Hl as [|x l Hx Hl IH]; intros o; [by rewrite tile_at_nil|].
  rewrite tile_at_cons. pose proof (tsum_nonneg l Hl). intros [[<- ->]|H'%IH]; cbn; lia.
Qed.

(** Two blocks of a tiling are the same or lie apart. *)
Lemma tiles_apart l o t o' t' :
  Forall (λ t : tile, 12 <= t.1) l → tile_at l o t → tile_at l o' t' →
  (o = o' ∧ t = t') ∨ o + t.1 <= o' ∨ o' + t'.1 <= o.
Proof.
  intros Hl. revert o o'. induction Hl as [|x l Hx Hl IH]; intros o o'; [by rewrite tile_at_nil|].
  rewrite !tile_at_cons. intros [[<- ->]|H1] [[<- ->]|H2].
  - by left.
  - pose proof (tile_at_range _ _ _ Hl H2). lia.
  - pose proof (tile_at_range _ _ _ Hl H1). lia.
  - destruct (IH _ _ H1 H2) as [[E ->]|H]; [left; split; [lia|done]|lia].
Qed.

Lemma tile_at_mid pre t post : tile_at (pre ++ t :: post) (tsum pre) t.
Proof. by exists pre, post. Qed.

(** The memory of the blocks in use is the same. *)
Definition same_data (l : list tile) (m m' : Z → Z) : Prop :=
  ∀ o n, tile_at l o (n, true) → ∀ a, o + 12 <= a < o + n → m' a = m a.

(** Writes to a free block, its header and the header behind it are not in
    the data of a block in use. *)
Lemma same_data_free pre n post m m' :
  Forall (λ t : tile, 12 <= t.1) (pre ++ (n, false) :: post) →
  (∀ a, a < tsum pre ∨ tsum pre + n + 12 <= a → m' a = m a) →
  same_data (pre ++ (n, false) :: post) m m'.
Proof.
  intros (H1 & [Hn H2]%List.Forall_cons_iff)%Forall_app Hm o k Ht a Ha. apply Hm.
  rewrite tile_at_app, tile_at_cons in Ht. cbn in *. destruct Ht as [Ht|[[[=] _]|Ht]].
  - pose proof (tile_at_range _ _ _ H1 Ht). cbn in *. lia.
  - pose proof (tile_at_range _ _ _ H2 Ht). cbn in *. lia.
Qed.

(** ** Replacing some blocks by others *)

Lemma holds_splice m m' pre mid mid' post p2 :
  holds m (pre ++ mid ++ post) → mid ≠ [] →
  let o := tsum pre in let o' := o + tsum mid in
  (∀ a, a < o ∨ o' <= a < o' + 4 ∨ o' + 8 <= a → m' a = m a) →
  (post = [] ∨ ram_get m' (o' + 4) 4 = p2) →
  seg m' (ram_get m (o + 4) 4) o mid' p2 o' → holds m' (pre ++ mid' ++ post).
Proof.
  intros [[q H] [He1 He2]] Hne o o' Hm Hp2 Hmid.
  apply seg_app in H as (p & o1 & Hpre & H). destruct (seg_sum _ _ _ _ _ _ Hpre) as [-> Hpos].
  change (0 + tsum pre) with o in *. apply seg_app in H as (p1 & o2 & Hold & Hpost).
  destruct (seg_sum _ _ _ _ _ _ Hold) as [-> Hpos1]. fold o' in Hpost.
  destruct (seg_sum _ _ _ _ _ _ Hpost) as [Hend Hpos2].
  assert (ram_get m (o + 4) 4 = p) as Hp.
  { destruct mid as [|[n u] mid]; [done|]. by destruct Hold as ((_ & ? & _) & _). }
  rewrite Hp in Hmid. split.
  - destruct post as [|[k v] post].
    + exists p2. apply seg_app. exists p, o. split; [|cbn in Hpost; rewrite app_nil_r; by destruct Hpost as [_ ->]].
      eapply seg_ext; [|exact Hpre]. intros a Ha. apply Hm. lia.
    + destruct Hp2 as [?|Hp2]; [done|]. exists q. apply seg_app. exists p, o. split.
      { eapply seg_ext; [|exact Hpre]. intros a Ha. apply Hm. lia. }
      apply seg_app. exists p2, o'. split; [done|]. destruct Hpost as ((H1 & _ & H3) & Hk & Hrest).
      split_and!; [split_and!; [|done|]|done|].
      * rewrite <-H1. apply ram_get_ext. intros a Ha. apply Hm. lia.
      * rewrite <-H3. apply ram_get_ext. intros a Ha. apply Hm. lia.
      * eapply seg_ext; [|exact Hrest]. intros a Ha. apply Hm. lia.
  - assert (o' = MEM_SIZE ∨ o' + 12 <= MEM_SIZE) as Hcase.
    { destruct post as [|[k v] post]; [left; by destruct Hpost|right].
      destruct Hpost as (_ & Hk & Hrest). destruct (seg_sum _ _ _ _ _ _ Hrest). lia. }
    split; (etrans; [apply ram_get_ext|done]); intros a Ha; apply Hm; lia.
Qed.

(** The block at [tsum pre] becomes one in use and a free one. *)
Lemma split_holds m m' pre n u post size p :
  holds m (pre ++ (n, u) :: post) → 0 <= size → size + 24 <= n →
  let o := tsum pre in let p2 := o + 12 + size in
  ram_get m (o + 4) 4 = p →
  (∀ a, a < o ∨ o + n <= a < o + n + 4 ∨ o + n + 8 <= a → m' a = m a) →
  header m' o p2 p true → header m' p2 (o + n) o false →
  (o + n ≠ MEM_SIZE → ram_get m' (o + n + 4) 4 = p2) →
  holds m' (pre ++ (12 + size, true) :: (n - 12 - size, false) :: post).
Proof.
  intros Hh Hs Hn o p2 <- Hm H1 H2 H3.
  apply (holds_splice m m' pre [(n, u)] [(12 + size, true); (n - 12 - size, false)] post p2 Hh);
    cbn [tsum fst seg]; fold o; rewrite ?Z.add_0_r; [done|done| |].
  - destruct post as [|[k v] post]; [by left|right]. apply H3.
    destruct (holds_block _ _ _ _ _ Hh) as (_ & q & _ & _ & _ & (_ & Hk & Hrest) & _ & _).
    destruct (seg_sum _ _ _ _ _ _ Hrest). subst o. lia.
  - replace (o + (12 + size)) with p2 by (subst p2; lia).
    replace (p2 + (n - 12 - size)) with (o + n) by (subst p2; lia). split_and!; done || lia.
Qed.

(** Two free neighbours become one: the writes of both directions of [plug_holes]. *)
Definition merge_ram (m : Z → Z) (o next : Z) : Z → Z := ram_put (ram_put m o 4 next) (next + 4) 4 o.

Lemma merge_holds m pre j k post :
  let o := tsum pre in let m' := merge_ram m o (o + j + k) in
  holds m (pre ++ (j, false) :: (k, false) :: post) →
  holds m' (pre ++ (j + k, false) :: post) ∧ (∀ a, a < o ∨ o + 4 <= a < o + j + k ∨ o + j + k + 12 <= a → m' a = m a).
Proof.
  intros o m' Hh. destruct (holds_block _ _ _ _ _ Hh) as (p & q & _ & Hhd & Hj & Hpost & Ho & He).
  destruct Hpost as (_ & Hk & Hpost). fold o in Hhd, Ho, He, Hpost |- *.
  destruct (seg_sum _ _ _ _ _ _ Hpost) as [Hend Hpos].
  assert (∀ a, a < o ∨ o + 4 <= a < o + j + k + 4 ∨ o + j + k + 8 <= a → m' a = m a) as Hm.
  { intros a Ha. subst m'. unfold merge_ram. by rewrite !ram_put_out by lia. }
  split; [|intros a Ha; apply Hm; lia].
  apply (holds_splice m m' pre [(j, false); (k, false)] [(j + k, false)] post o Hh); cbn [tsum fst seg]; fold o.
  - done.
  - intros a Ha. apply Hm. lia.
  - right. subst m'. unfold merge_ram. replace (o + (j + (k + 0))) with (o + j + k) by lia. by ram_simp.
  - destruct Hhd as (_ & H2 & H3). rewrite H2. split_and!; [split_and!|lia|done|lia].
    + subst m'. unfold merge_ram. ram_simp. lia.
    + rewrite <-H2. apply ram_get_ext. intros a Ha. apply Hm. lia.
    + rewrite <-H3. apply ram_get_ext. intros a Ha. apply Hm. lia.
Qed.

(** * Taking a block *)

(** The array after the block at [o] of size [n] was split. *)
Definition split_ram (m : Z → Z) (o n size : Z) : Z → Z :=
  let p2 := o + 12 + size in
  let m := ram_put m (p2 + 4) 4 o in
  let m := ram_put m p2 4 (o + n) in
  let m := ram_put m o 4 p2 in
  let m := if o + n =? MEM_SIZE then m else ram_put m (o + n + 4) 4 p2 in
  let m := ram_put m (p2 + 8) 1 0 in
  ram_put m (o + 8) 1 1.

Lemma split_ram_out m o n size a :
  0 <= size → size + 24 <= n → a < o ∨ o + n <= a < o + n + 4 ∨ o + n + 8 <= a →
  split_ram m o n size a = m a.
Proof.
  intros Hs Hn Ha. unfold split_ram. destruct (o + n =? MEM_SIZE); by rewrite !ram_put_out by lia.
Qed.

Lemma split_ram_holds m pre n post size :
  holds m (pre ++ (n, false) :: post) → 0 <= size → size + 24 <= n →
  holds (split_ram m (tsum pre) n size) (pre ++ (12 + size, true) :: (n - 12 - size, false) :: post).
Proof.
  intros Hh Hs Hn. destruct (holds_block _ _ _ _ _ Hh) as (p & q & _ & (_ & Hp & _) & _ & _ & Ho & He).
  eapply split_holds; [done..| | | |]; [intros a Ha; by apply split_ram_out| | |];
    unfold header, split_ram; destruct (Z.eqb_spec (tsum pre + n) MEM_SIZE); intros; split_and?;
    by ram_simp.
Qed.

(** Every walk is shorter than its fuel. *)
Lemma walk_fuel_val : Z.of_nat walk_fuel = 426667.
Proof. unfold walk_fuel. rewrite Nat2Z.inj_succ, Z2Nat.id by done. reflexivity. Qed.

#[local] Opaque walk_fuel.

(** The lowest free block is behind the one that was split. *)
Lemma advance_lfree_run h pre n k post :
  holds (ram h) (pre ++ (n, true) :: (k, false) :: post) → lfree h = tsum pre →
  advance_lfree walk_fuel h = Done tt (set_lfree (tsum pre + n) h).
Proof.
  intros Hh Hl. pose proof walk_fuel_val as Hf. destruct walk_fuel as [|[|f]]; [lia|lia|clear Hf].
  destruct (holds_block _ _ _ _ _ Hh) as (p & q & _ & (H1 & _ & H3) & Hn & (H4 & Hk & H5) & Ho & He).
  destruct H4 as (_ & _ & H6). destruct (seg_sum _ _ _ _ _ _ H5) as [H7 H8].
  cbn [advance_lfree]. hfields. do 2 hstep. rewrite Hl in *. rewrite H3. cbn [Z.b2z Z.eqb negb andb].
  rewrite (proj2 (Z.eqb_neq _ _)) by lia. cbn [negb]. hstep. rewrite H1. do 2 hstep.
  cbn [lfree ram set_lfree]. hstep. cbn [lfree ram set_lfree]. by rewrite H6.
Qed.

Lemma take_block_run h pre n post size :
  holds (ram h) (pre ++ (n, false) :: post) → mem_sem h = 0 →
  0 <= size → size + 24 <= n →
  ∃ h', take_block (tsum pre) (tsum pre + n) size h = Done (Some (tsum pre + 12)) h' ∧
    ram h' = split_ram (ram h) (tsum pre) n size ∧ mem_sem h' = 1 ∧ mrlist h' = mrlist h ∧
    lfree h' = (if lfree h =? tsum pre then tsum pre + 12 + size else lfree h).
Proof.
  intros Hh Hsem Hs Hn. pose proof (split_ram_holds _ _ _ _ _ Hh Hs Hn) as Hh'.
  destruct (holds_block _ _ _ _ _ Hh) as (p & q & _ & _ & _ & _ & Ho & He).
  unfold take_block. hfields.
  drop_wraps.
  do 4 hstep. cbn [ram set_ram]. ram_simp. rewrite cond_store_run by mem_lia.
  do 4 hstep. cbn [ram set_ram set_stats lfree]. rewrite (Z.eqb_sym (tsum pre)).
  match goal with |- context [set_stats _ ?x] => change (ram x) with (split_ram (ram h) (tsum pre) n size) end.
  set (h1 := set_stats _ _). assert (ram h1 = split_ram (ram h) (tsum pre) n size) as Hram by done.
  assert (lfree h1 = lfree h) as Hlf by done.
  destruct (Z.eqb_spec (lfree h) (tsum pre)) as [E|E].
  - rewrite (hm_bind_done _ _ _ _ _ (advance_lfree_run h1 pre (12 + size) (n - 12 - size) post
      ltac:(by rewrite Hram) ltac:(by rewrite Hlf))).
    eexists. split; [done|]. cbn. rewrite Hsem. split_and!; try done. lia.
  - eexists. split; [done|]. cbn. rewrite Hsem. by split_and!.
Qed.

(** ** First fit *)

(** The first free block with room for [size] bytes and another header. *)
Fixpoint first_fit (size : Z) (l : list tile) : option (list tile * Z * list tile) :=
  match l with
  | [] => None
  | (n, u) :: l' =>
      if negb u && (size + 24 <=? n) then Some ([], n, l')
      else '(pre, k, post) ← first_fit size l'; Some ((n, u) :: pre, k, post)
  end.

Lemma first_fit_some size l pre k post :
  first_fit size l = Some (pre, k, post) →
  l = pre ++ (k, false) :: post ∧ size + 24 <= k ∧ Forall (λ t, t.2 = true ∨ t.1 < size + 24) pre.
Proof.
  revert pre. induction l as [|[n u] l IH]; intros pre; cbn [first_fit]; [done|].
  destruct (negb u && (size + 24 <=? n)) eqn:E.
  - intros [= <- <- <-]. apply andb_true_iff in E as [Hu%negb_true_iff Hn%Z.leb_le]. subst u.
    split_and!; [done|done|constructor].
  - destruct (first_fit size l) as [[[pre' k'] post']|]; [|done]. intros [= <- <- <-].
    destruct (IH pre' eq_refl) as (-> & Hk & Hpre). split_and!; [done|done|]. constructor; [|done].
    destruct u; [by left|right]. cbn in *. by apply Z.leb_gt in E.
Qed.

Lemma first_fit_none size l :
  first_fit size l = None ↔ Forall (λ t, t.2 = true ∨ t.1 < size + 24) l.
Proof.
  induction l as [|[n u] l IH]; cbn [first_fit]; [split; constructor|].
  rewrite List.Forall_cons_iff. cbn [fst snd]. destruct u; cbn [negb andb].
  - destruct (first_fit size l) as [[[pre k] post]|] eqn:E; cbn; [|tauto]. split; [done|].
    intros [_ H%IH]. done.
  - destruct (Z.leb_spec (size + 24) n); [split; [done|]; intros [[?|?] _]; [done|lia]|].
    destruct (first_fit size l) as [[[pre k] post]|] eqn:E; cbn; [|split; [|tauto]].
    + split; [done|]. intros [_ H'%IH]. done.
    + intros _. split; [by right|by apply IH].
Qed.

(** The walk of [mem_malloc] takes the first block that fits. *)
Lemma find_block_run fuel h pre suf size :
  holds (ram h) (pre ++ suf) → mem_sem h = 0 → 0 <= size <= MEM_SIZE → (length suf < fuel)%nat →
  find_block fuel (tsum pre) size h =
  match first_fit size suf with
  | Some (mid, n, _) => take_block (tsum (pre ++ mid)) (tsum (pre ++ mid) + n) size h
  | None => Done None (set_sem 1 (set_stats (count_err (mem_stats h)) h))
  end.
Proof.
  intros Hh Hsem Hs. revert pre fuel Hh. induction suf as [|[n u] suf IH]; intros pre [|fuel] Hh Hf;
    try (cbn in Hf; lia); cbn [find_block first_fit].
  - pose proof (holds_sum _ _ Hh) as Hsum. rewrite app_nil_r in Hsum. rewrite Hsum.
    destruct h as [m lf sem mr st]. cbn in Hsem. by subst sem.
  - destruct (holds_block _ _ _ _ _ Hh) as (p & q & _ & (H1 & _ & H3) & Hn & _ & Ho & He).
    rewrite (proj2 (Z.ltb_lt _ _)) by lia. hfields. do 2 hstep. rewrite H1, H3.
    replace (u64 (size + SIZEOF_STRUCT_MEM)) with (size + 12) by (unfold u64; rewrite Z.mod_small; mem_lia).
    replace (u64 (tsum pre + n - (tsum pre + SIZEOF_STRUCT_MEM))) with (n - 12)
      by (unfold u64; rewrite Z.mod_small; mem_lia).
    replace (size + 12 <=? n - 12) with (size + 24 <=? n) by (apply eq_true_iff_eq; rewrite !Z.leb_le; lia).
    replace (Z.b2z u =? 0) with (negb u) by (by destruct u).
    destruct (negb u && (size + 24 <=? n)); [by rewrite app_nil_r|].
    specialize (IH (pre ++ [(n, u)]) fuel). rewrite <-app_assoc, tsum_app in IH. cbn [tsum fst] in IH.
    rewrite Z.add_0_r in IH. rewrite IH; [|done|cbn in Hf; lia].
    destruct (first_fit size suf) as [[[mid k] post]|]; cbn; [by rewrite <-app_assoc|done].
Qed.

Lemma tiles_length l : Forall (λ t : tile, 12 <= t.1) l → 12 * Z.of_nat (length l) <= tsum l.
Proof. induction 1; cbn [tsum length]; lia. Qed.

(** * Free blocks *)

Lemma free_at_nil o : free_at [] o ↔ False.
Proof. unfold free_at. setoid_rewrite tile_at_nil. naive_solver. Qed.

Lemma free_at_cons t l o : free_at (t :: l) o ↔ (t.2 = false ∧ o = 0) ∨ free_at l (o - t.1).
Proof.
  unfold free_at. setoid_rewrite tile_at_cons. destruct t as [n u]. cbn. naive_solver.
Qed.

Lemma free_at_app l1 l2 o : free_at (l1 ++ l2) o ↔ free_at l1 o ∨ free_at l2 (o - tsum l1).
Proof. unfold free_at. setoid_rewrite tile_at_app. naive_solver. Qed.

Lemma free_at_range l o : Forall (λ t : tile, 12 <= t.1) l → free_at l o → 0 <= o ∧ o + 12 <= tsum l.
Proof. intros Hl [n H]. pose proof (tile_at_range _ _ _ Hl H). cbn in *. lia. Qed.

Lemma free_at_split pre n post o a b :
  Forall (λ t : tile, 12 <= t.1) (pre ++ (n, false) :: post) → a + b = n →
  free_at (pre ++ (n, false) :: post) o →
  free_at (pre ++ (a, true) :: (b, false) :: post) (if o =? tsum pre then tsum pre + a else o).
Proof.
  intros (H1 & [Hn H2]%List.Forall_cons_iff)%Forall_app Hab. cbn in Hn.
  rewrite !free_at_app, !free_at_cons. cbn [fst snd].
  intros [H|[[_ H]|H]].
  - pose proof (free_at_range _ _ H1 H). rewrite (proj2 (Z.eqb_neq _ _)) by lia. by left.
  - rewrite (proj2 (Z.eqb_eq _ _)) by lia. right. right. left. split; [done|lia].
  - pose proof (free_at_range _ _ H2 H). rewrite (proj2 (Z.eqb_neq _ _)) by lia. right. right. right.
    by replace (o - tsum pre - a - b) with (o - tsum pre - n) by lia.
Qed.

Lemma coalesced_used l n u k : coalesced (l ++ [(n, u)]) → coalesced (l ++ [(k, true)]).
Proof.
  induction l as [|[m v] l IH]; [done|]. destruct l as [|[m' v'] l]; cbn [app coalesced] in *.
  - intros _. by rewrite orb_true_r.
  - intros [H1 H2]. split; [done|]. by apply IH.
Qed.

Lemma coalesced_first n k u l : coalesced ((n, u) :: l) → coalesced ((k, u) :: l).
Proof. by destruct l as [|[m v] l]. Qed.

Lemma coalesced_take pre n a b post :
  coalesced (pre ++ (n, false) :: post) → coalesced (pre ++ (a, true) :: (b, false) :: post).
Proof.
  intros [H1 H2]%coalesced_split. apply coalesced_split. split; [by eapply coalesced_used|].
  split; [done|]. by eapply coalesced_first.
Qed.

Lemma ends_free_take pre n a b post :
  ends_free (pre ++ (n, false) :: post) → ends_free (pre ++ (a, true) :: (b, false) :: post).
Proof. rewrite !ends_free_app. intros H. by apply (ends_free_size n). Qed.

(** * Sizes *)

Lemma round_size_bounds size : is_u32 size → is_u32 (round_size size).
Proof.
  intros H. unfold round_size. destruct (negb _); [|done]. unfold u32, is_u32. apply Z.mod_pos_bound. lia.
Qed.

Lemma round_size_val size :
  is_u32 size → size <= 2 ^ 32 - 4 →
  size <= round_size size < size + 4 ∧ round_size size mod 4 = 0.
Proof.
  intros [H0 H1] H2. unfold round_size, u32, u64, MEM_ALIGNMENT.
  change SIZEOF_STRUCT_MEM with 12. destruct (Z.eqb_spec (size mod 4) 0) as [E|E]; cbn [negb]; [lia|].
  rewrite (Z.mod_small (size + 12)) by lia.
  replace (size + (4 - (size + 12) mod 4)) with (4 * (size / 4 + 1)).
  - rewrite Z.mod_small by (Z.to_euclidean_division_equations; lia). Z.to_euclidean_division_equations; lia.
  - Z.to_euclidean_division_equations; lia.
Qed.

(** * The operations *)

Lemma sys_sem_wait_run h {B} (f : unit → HM B) :
  mem_sem h = 1 → (sys_sem_wait ≫= f) h = f tt (set_sem 0 h).
Proof. intros H. unfold sys_sem_wait, mbind, hm_bind. cbn. by rewrite H. Qed.

Lemma heap_ok_fuel h l : heap_ok h l → (length l < walk_fuel)%nat.
Proof.
  intros H. pose proof (tiles_length _ (holds_sizes _ _ (ho_holds _ _ H))).
  pose proof (holds_sum _ _ (ho_holds _ _ H)). pose proof walk_fuel_val. mem_lia.
Qed.

(** [mem_malloc] splits the first free block, from the lowest on, that fits. *)
Lemma mem_malloc_takes h pre suf size mid n post :
  heap_ok h (pre ++ suf) → lfree h = tsum pre → is_u32 size → size ≠ 0 → round_size size <= MEM_SIZE →
  first_fit (round_size size) suf = Some (mid, n, post) →
  let s := round_size size in
  ∃ h', mem_malloc size h = Done (Some (tsum (pre ++ mid) + 12)) h' ∧
    heap_ok h' ((pre ++ mid) ++ (12 + s, true) :: (n - 12 - s, false) :: post) ∧
    same_data (pre ++ suf) (ram h) (ram h') ∧ mrlist h' = mrlist h.
Proof.
  intros Hok Hl Hu Hz Hs Hfit s. destruct (round_size_bounds _ Hu) as [Hs0 _]. fold s in Hs0, Hs, Hfit.
  unfold mem_malloc. fold s. rewrite (proj2 (Z.eqb_neq _ _)), (proj2 (Z.ltb_ge _ _)) by done.
  destruct (first_fit_some _ _ _ _ _ Hfit) as (-> & Hn & _). destruct Hok as [Hh Hc He Hf Hsem].
  rewrite sys_sem_wait_run by done. hstep. cbn [lfree set_sem]. rewrite Hl.
  rewrite (find_block_run _ (set_sem 0 h) pre (mid ++ (n, false) :: post)); [|done|done|lia|].
  2:{ pose proof (heap_ok_fuel _ _ (Build_heap_ok _ _ Hh Hc He Hf Hsem)) as Hlen.
      rewrite length_app in Hlen. lia. }
  rewrite Hfit. rewrite app_assoc in Hh, Hc, He, Hf |- *.
  destruct (take_block_run (set_sem 0 h) (pre ++ mid) n post s Hh eq_refl Hs0 Hn) as (h' & -> & E1 & E2 & E3 & E4).
  exists h'. cbn [ram lfree mem_sem mrlist set_sem] in *. split_and!; [done| | |done].
  - split; [rewrite E1; by apply split_ram_holds|by eapply coalesced_take|by eapply ends_free_take| |done].
    rewrite E4, <-Z.add_assoc. eapply free_at_split; [by eapply holds_sizes|lia|done].
  - rewrite E1. apply same_data_free; [by eapply holds_sizes|]. intros a Ha. apply split_ram_out; lia.
Qed.

(** It fails when none fits, and then only counts the error. *)
Lemma mem_malloc_fails h pre suf size :
  heap_ok h (pre ++ suf) → lfree h = tsum pre → is_u32 size → size ≠ 0 → round_size size <= MEM_SIZE →
  first_fit (round_size size) suf = None →
  mem_malloc size h = Done None (set_stats (count_err (mem_stats h)) h).
Proof.
  intros Hok Hl Hu Hz Hs Hfit. destruct (round_size_bounds _ Hu) as [Hs0 _].
  unfold mem_malloc. rewrite (proj2 (Z.eqb_neq _ _)), (proj2 (Z.ltb_ge _ _)) by done.
  pose proof (heap_ok_fuel _ _ Hok) as Hlen. rewrite length_app in Hlen. destruct Hok as [Hh Hc _ Hf Hsem].
  rewrite sys_sem_wait_run by done. hstep. cbn [lfree set_sem]. rewrite Hl.
  rewrite (find_block_run _ (set_sem 0 h) pre suf), Hfit by (done || lia).
  destruct h. cbn in *. by rewrite Hsem.
Qed.

(** ** Joining neighbours *)

(** What is left of a heap whose block in use became free: the array holds
    [l'], the data of its blocks in use is as before. *)
Record plugged (h h' : heap) (l' : list tile) : Prop := {
  pl_holds : holds (ram h') l';
  pl_free : free_at l' (lfree h');
  pl_data : same_data l' (ram h) (ram h');
  pl_rest : mem_sem h' = mem_sem h ∧ mrlist h' = mrlist h
}.

Definition merge_next (n : Z) (post : list tile) : Z * list tile :=
  match post with (k, false) :: post' => (n + k, post') | _ => (n, post) end.

Fixpoint merge_prev (pre : list tile) (n : Z) (post : list tile) : list tile :=
  match pre with
  | [] => (n, false) :: post
  | [(j, false)] => (j + n, false) :: post
  | t :: pre' => t :: merge_prev pre' n post
  end.

Lemma merge_prev_free pre j n post : merge_prev (pre ++ [(j, false)]) n post = pre ++ (j + n, false) :: post.
Proof.
  induction pre as [|[k []] pre IH]; [done|cbn; by f_equal|].
  destruct pre; [done|]. cbn in *. by f_equal.
Qed.

Lemma merge_prev_used pre j n post :
  merge_prev (pre ++ [(j, true)]) n post = pre ++ (j, true) :: (n, false) :: post.
Proof.
  induction pre as [|[k []] pre IH]; [done|cbn; by f_equal|].
  destruct pre; [done|]. cbn in *. by f_equal.
Qed.

Lemma plugged_refl h l : holds (ram h) l → free_at l (lfree h) → plugged h h l.
Proof. by split. Qed.

Lemma free_at_merge pre j k post o :
  Forall (λ t : tile, 12 <= t.1) (pre ++ (j, false) :: (k, false) :: post) →
  free_at (pre ++ (j, false) :: (k, false) :: post) o →
  free_at (pre ++ (j + k, false) :: post) (if o =? tsum pre + j then tsum pre else o).
Proof.
  intros (H1 & [Hj [Hk H2]%List.Forall_cons_iff]%List.Forall_cons_iff)%Forall_app. cbn in Hj, Hk.
  rewrite !free_at_app, !free_at_cons. cbn [fst snd]. intros [H|[[_ H]|[[_ H]|H]]].
  - pose proof (free_at_range _ _ H1 H). rewrite (proj2 (Z.eqb_neq _ _)) by lia. by left.
  - rewrite (proj2 (Z.eqb_neq _ _)) by lia. right. left. split; [done|lia].
  - rewrite (proj2 (Z.eqb_eq _ _)) by lia. right. left. split; [done|lia].
  - pose proof (free_at_range _ _ H2 H). rewrite (proj2 (Z.eqb_neq _ _)) by lia. right. right.
    by replace (o - tsum pre - (j + k)) with (o - tsum pre - j - k) by lia.
Qed.

Lemma move_lfree_run from to h {B} (f : unit → HM B) :
  (move_lfree from to ≫= f) h = f tt (set_lfree (if lfree h =? from then to else lfree h) h).
Proof. unfold move_lfree, mbind, hm_bind. cbn. destruct (lfree h =? from); by destruct h. Qed.

(** The joined heap, whichever direction the join came from. *)
Lemma merge_plugged h pre j k post :
  let o := tsum pre in
  holds (ram h) (pre ++ (j, false) :: (k, false) :: post) →
  free_at (pre ++ (j, false) :: (k, false) :: post) (lfree h) →
  plugged h (set_ram (merge_ram (ram h) o (o + j + k))
    (set_lfree (if lfree h =? o + j then o else lfree h) h)) (pre ++ (j + k, false) :: post).
Proof.
  intros o Hh Hf. destruct (merge_holds _ _ _ _ _ Hh) as [Hm Hout]. split; cbn; [done| | |done].
  - apply free_at_merge; [by eapply holds_sizes|done].
  - apply same_data_free; [by eapply holds_sizes|]. intros a Ha. apply Hout. lia.
Qed.

Lemma plug_forward_run h pre n post :
  holds (ram h) (pre ++ (n, false) :: post) → free_at (pre ++ (n, false) :: post) (lfree h) →
  let '(n', post') := merge_next n post in
  ∃ h', plug_forward (tsum pre) h = Done tt h' ∧ plugged h h' (pre ++ (n', false) :: post').
Proof.
  intros Hh Hf. destruct (holds_block _ _ _ _ _ Hh) as (p & q & _ & (H1 & _) & Hn & Hpost & Ho & He).
  unfold plug_forward. hfields. hstep. rewrite H1, (proj2 (Z.eqb_neq _ _)) by lia.
  destruct post as [|[k v] post].
  - hstep. destruct Hpost as [_ <-]. rewrite (proj2 (hd_end _ _ Hh)). eexists. split; [done|].
    by apply plugged_refl.
  - destruct Hpost as ((H4 & _ & H6) & Hk & Hpost). destruct (seg_sum _ _ _ _ _ _ Hpost) as [Hend Hpos].
    hstep. rewrite H6. destruct v; cbn [Z.b2z Z.eqb andb merge_next].
    { eexists. split; [done|]. by apply plugged_refl. }
    rewrite (proj2 (Z.eqb_neq _ _)) by lia. cbn [negb]. rewrite move_lfree_run. hstep.
    cbn [ram set_lfree]. rewrite H4. unfold u32. rewrite !Z.mod_small by mem_lia. hstep. hstep.
    cbn [ram set_ram]. rewrite ram_get_put_other by mem_lia. cbn [ram set_lfree]. rewrite H4.
    rewrite mem_store_run by mem_lia. eexists. split; [done|]. by apply merge_plugged.
Qed.

Lemma seg_last m p o l j u p' o' : seg m p o (l ++ [(j, u)]) p' o' → p' = o' - j.
Proof. intros (q & o1 & _ & _ & _ & -> & ->)%seg_app. lia. Qed.

Lemma plug_backward_run h pre n post :
  holds (ram h) (pre ++ (n, false) :: post) → free_at (pre ++ (n, false) :: post) (lfree h) →
  ∃ h', plug_backward (tsum pre) h = Done tt h' ∧ plugged h h' (merge_prev pre n post).
Proof.
  intros Hh Hf. destruct (holds_block _ _ _ _ _ Hh) as (p & q & Hpre & (H1 & H2 & _) & Hn & Hpost & Ho & He).
  unfold plug_backward. hfields. hstep. rewrite H2.
  destruct pre as [|[j v] pre _] using rev_ind.
  { destruct Hpre as [-> _]. eexists. split; [done|]. by apply plugged_refl. }
  pose proof (seg_last _ _ _ _ _ _ _ _ Hpre) as Hp.
  rewrite <-app_assoc in Hh, Hf. cbn [app] in Hh, Hf.
  destruct (holds_block _ _ _ _ _ Hh) as (p' & q' & _ & (_ & _ & H3) & Hj & _ & Ho' & He').
  rewrite tsum_app in *. cbn [tsum fst] in *. rewrite Z.add_0_r in *.
  replace p with (tsum pre) by lia. rewrite (proj2 (Z.eqb_neq _ _)) by lia. hstep. rewrite H3.
  destruct v; cbn [Z.b2z Z.eqb].
  { rewrite merge_prev_used. eexists. split; [done|]. by apply plugged_refl. }
  rewrite merge_prev_free, move_lfree_run. hstep.
  cbn [ram set_lfree]. rewrite H1. unfold u32. rewrite !Z.mod_small by mem_lia. hstep. hstep.
  cbn [ram set_ram]. rewrite ram_get_put_other by mem_lia. cbn [ram set_lfree]. rewrite H1.
  rewrite mem_store_run by mem_lia. eexists. split; [done|]. by apply merge_plugged.
Qed.

(** ** The blocks in use after each change *)

Lemma used_split pre n post a b o k :
  a + b = n →
  tile_at (pre ++ (a, true) :: (b, false) :: post) o (k, true) ↔
  (o = tsum pre ∧ k = a) ∨ tile_at (pre ++ (n, false) :: post) o (k, true).
Proof.
  intros <-. rewrite !tile_at_app, !tile_at_cons. cbn [fst].
  replace (o - tsum pre - (a + b)) with (o - tsum pre - a - b) by lia. split.
  - intros [?|[[[= ->] ?]|[[[=] _]|?]]]; [tauto|left; split; [lia|done]|tauto].
  - intros [[-> ->]|[?|[[[=] _]|?]]]; [right; left; split; [done|lia]|tauto|tauto].
Qed.

Lemma used_merge pre j k post o x :
  tile_at (pre ++ (j + k, false) :: post) o (x, true) ↔
  tile_at (pre ++ (j, false) :: (k, false) :: post) o (x, true).
Proof.
  rewrite !tile_at_app, !tile_at_cons. cbn [fst].
  replace (o - tsum pre - (j + k)) with (o - tsum pre - j - k) by lia.
  split; [|naive_solver]. intros [?|[[[=] _]|?]]; tauto.
Qed.

Lemma used_freed pre n post o k :
  Forall (λ t : tile, 12 <= t.1) (pre ++ (n, true) :: post) →
  tile_at (pre ++ (n, false) :: post) o (k, true) ↔
  o ≠ tsum pre ∧ tile_at (pre ++ (n, true) :: post) o (k, true).
Proof.
  intros (H1 & [Hn H2]%List.Forall_cons_iff)%Forall_app. cbn in Hn.
  rewrite !tile_at_app, !tile_at_cons. cbn [fst]. split.
  - intros [H|[[[=] _]|H]].
    + pose proof (tile_at_range _ _ _ H1 H). cbn in *. split; [lia|by left].
    + pose proof (tile_at_range _ _ _ H2 H). cbn in *. split; [lia|by right; right].
  - intros [Hne [H|[[_ ?]|H]]]; [tauto|lia|tauto].
Qed.

Lemma used_next pre n post o k :
  let '(n', post') := merge_next n post in
  tile_at (pre ++ (n', false) :: post') o (k, true) ↔ tile_at (pre ++ (n, false) :: post) o (k, true).
Proof. destruct post as [|[m []] post]; cbn; [done|done|]. apply used_merge. Qed.

Lemma used_prev pre n post o k :
  tile_at (merge_prev pre n post) o (k, true) ↔ tile_at (pre ++ (n, false) :: post) o (k, true).
Proof.
  destruct pre as [|[j []] pre _] using rev_ind; [done| |];
    rewrite ?merge_prev_used, ?merge_prev_free, <-?app_assoc; [done|]. apply used_merge.
Qed.

(** A free block joined with the free neighbours on both sides. *)
Definition release (pre : list tile) (n : Z) (post : list tile) : list tile :=
  let '(n', post') := merge_next n post in merge_prev pre n' post'.

Lemma used_release pre n post o k :
  tile_at (release pre n post) o (k, true) ↔ tile_at (pre ++ (n, false) :: post) o (k, true).
Proof.
  unfold release. pose proof (used_next pre n post o k) as H. destruct (merge_next n post) as [n' post'].
  by rewrite used_prev.
Qed.

Lemma coalesced_last_size l n k u : coalesced (l ++ [(n, u)]) → coalesced (l ++ [(k, u)]).
Proof.
  induction l as [|[m v] l IH]; [done|]. destruct l as [|[m' v'] l]; cbn [app coalesced] in *; [done|].
  intros [H1 H2]. split; [done|]. by apply IH.
Qed.

Lemma coalesced_release pre n post : coalesced (pre ++ (n, true) :: post) → coalesced (release pre n post).
Proof.
  intros [H1 H2]%coalesced_split. unfold release.
  assert (let '(n', post') := merge_next n post in coalesced ((n', false) :: post')) as H3.
  { destruct post as [|[k []] post]; cbn [merge_next]; [done| |].
    - by destruct H2.
    - eapply coalesced_first. by destruct H2. }
  destruct (merge_next n post) as [n' post'].
  destruct pre as [|[j []] pre _] using rev_ind; [done| |].
  - rewrite merge_prev_used. rewrite <-app_assoc in H1. apply coalesced_split in H1 as [H1 _].
    apply coalesced_split. split; [done|]. split; [done|done].
  - rewrite merge_prev_free. rewrite <-app_assoc in H1. apply coalesced_split in H1 as [H1 _].
    apply coalesced_split. split; [by eapply coalesced_last_size|by eapply coalesced_first].
Qed.

Lemma plug_holes_run h pre n post :
  holds (ram h) (pre ++ (n, false) :: post) → free_at (pre ++ (n, false) :: post) (lfree h) →
  ∃ h', plug_holes (tsum pre) h = Done tt h' ∧ plugged h h' (release pre n post).
Proof.
  intros Hh Hf. unfold plug_holes, release. pose proof (plug_forward_run h pre n post Hh Hf) as Hfw.
  destruct (merge_next n post) as [n' post'] eqn:E. destruct Hfw as (h1 & Hrun & [Hh1 Hf1 Hd1 [Hs1 Hm1]]).
  destruct (plug_backward_run h1 pre n' post' Hh1 Hf1) as (h2 & Hrun2 & [Hh2 Hf2 Hd2 [Hs2 Hm2]]).
  exists h2. rewrite (hm_bind_done _ _ _ _ _ Hrun), Hrun2. split; [done|]. split; [done|done| |split; congruence].
  intros o k Ht a Ha. rewrite (Hd2 o k Ht a Ha). apply (Hd1 o k); [|done]. by apply used_prev.
Qed.

(** ** Giving a block back *)

Lemma flag_holds m pre n u v post :
  holds m (pre ++ (n, u) :: post) → holds (ram_put m (tsum pre + 8) 1 (Z.b2z v)) (pre ++ (n, v) :: post).
Proof.
  intros Hh. destruct (holds_block _ _ _ _ _ Hh) as (p & q & Hpre & (H1 & H2 & H3) & Hn & Hpost & Ho & He).
  eapply (holds_splice m _ pre [(n, u)] [(n, v)] post (tsum pre)); [done|done| | |];
    cbn [tsum fst seg]; rewrite ?Z.add_0_r.
  - intros a Ha. apply ram_put_out. lia.
  - destruct post as [|[k w] post]; [by left|right]. destruct Hpost as ((_ & H5 & _) & _).
    by rewrite ram_get_put_other by lia.
  - rewrite H2. split_and!; [split_and!| |done|done]; [by rewrite ram_get_put_other by lia..| |done].
    rewrite ram_get_put_same. by destruct v.
Qed.

Lemma free_at_flag pre n post o :
  Forall (λ t : tile, 12 <= t.1) (pre ++ (n, true) :: post) → free_at (pre ++ (n, true) :: post) o →
  free_at (pre ++ (n, false) :: post) (if tsum pre <? o then tsum pre else o).
Proof.
  intros Hl. rewrite !free_at_app, !free_at_cons. cbn [fst snd].
  destruct (Z.ltb_spec (tsum pre) o); [right; left; split; [done|lia]|naive_solver].
Qed.

Lemma ends_free_release pre n post :
  ends_free (pre ++ (n, true) :: post) → ends_free (release pre n post).
Proof.
  rewrite ends_free_app. intros H. unfold release.
  assert (let '(n', post') := merge_next n post in ends_free ((n', false) :: post')) as H3.
  { destruct post as [|[k []] post]; cbn [merge_next]; [done|done|by apply (ends_free_size k)]. }
  destruct (merge_next n post) as [n' post'].
  destruct pre as [|[j []] pre _] using rev_ind; [done| |].
  - rewrite merge_prev_used, ends_free_app. done.
  - rewrite merge_prev_free, ends_free_app. by apply (ends_free_size n').
Qed.

(** The data of a block in use lies below the end. *)
Lemma used_below h pre n post :
  heap_ok h (pre ++ (n, true) :: post) →
  0 <= tsum pre ∧ 12 <= n ∧ tsum pre + n + 12 <= MEM_SIZE.
Proof.
  intros Hok. destruct (holds_block _ _ _ _ _ (ho_holds _ _ Hok)) as (p & q & _ & _ & Hn & Hpost & Ho & He).
  pose proof (ho_last _ _ Hok) as Hlast. rewrite ends_free_app in Hlast.
  destruct post as [|[k v] post]; [done|]. destruct Hpost as (_ & Hk & Hpost).
  destruct (seg_sum _ _ _ _ _ _ Hpost). lia.
Qed.

(** [mem_free] of a block in use makes it free and joins it with its neighbours. *)
Lemma mem_free_run h pre n post :
  heap_ok h (pre ++ (n, true) :: post) →
  ∃ h', mem_free (Some (tsum pre + 12)) h = Done tt h' ∧ heap_ok h' (release pre n post) ∧
    same_data (release pre n post) (ram h) (ram h') ∧ mrlist h' = mrlist h.
Proof.
  intros Hok. destruct (used_below _ _ _ _ Hok) as (Ho & Hn & He). destruct Hok as [Hh Hc Hlast Hf Hsem].
  pose proof (holds_sizes _ _ Hh) as Hl. unfold mem_free. hfields. rewrite sys_sem_wait_run by done.
  rewrite (proj2 (Z.ltb_ge _ _)), (proj2 (Z.leb_gt _ _)) by lia. cbn [orb].
  replace (tsum pre + 12 - SIZEOF_STRUCT_MEM) with (tsum pre) by mem_lia.
  do 4 hstep. set (h1 := set_stats _ _).
  assert (holds (ram h1) (pre ++ (n, false) :: post)) as Hh1.
  { destruct h as [m lf ? ? ?]. subst h1. cbn in Hh |- *. destruct (tsum pre <? lf); by apply (flag_holds m pre n true false). }
  assert (free_at (pre ++ (n, false) :: post) (lfree h1)) as Hf1.
  { destruct h as [m lf ? ? ?]. subst h1. cbn in Hf |- *. pose proof (free_at_flag _ _ _ _ Hl Hf) as H.
    by destruct (tsum pre <? lf). }
  assert (mem_sem h1 = 0 ∧ mrlist h1 = mrlist h) as [Hs1 Hm1].
  { destruct h as [m lf ? ? ?]. subst h1. cbn. by destruct (tsum pre <? lf). }
  assert (∀ a, a ≠ tsum pre + 8 → ram h1 a = ram h a) as Hr1.
  { intros a Ha. destruct h as [m lf ? ? ?]. subst h1. cbn. destruct (tsum pre <? lf); apply ram_put_out; lia. }
  clearbody h1. destruct (plug_holes_run h1 pre n post Hh1 Hf1) as (h2 & Hrun & [Hh2 Hf2 Hd2 [Hs2 Hm2]]).
  rewrite (hm_bind_done _ _ _ _ _ Hrun). eexists. split; [done|]. split_and!; cbn; [split; cbn| |congruence].
  - done.
  - by apply coalesced_release.
  - by apply ends_free_release.
  - done.
  - by rewrite Hs2, Hs1.
  - intros o k Ht a Ha. rewrite (Hd2 o k Ht a Ha). apply Hr1. apply used_release in Ht.
    apply (used_freed _ _ _ _ _ Hl) in Ht as [Hne Ht]. 
    destruct (tiles_apart _ _ _ _ _ Hl Ht (tile_at_mid pre (n, true) post)) as [[? _]|H]; cbn in *; lia.
Qed.

(** ** Shrinking a block *)

(** The array after the block at [o] of size [n] was cut to [size] bytes of data. *)
Definition cut_ram (m : Z → Z) (o n size : Z) : Z → Z :=
  let p2 := o + 12 + size in
  let m := ram_put m (p2 + 8) 1 0 in
  let m := ram_put m p2 4 (o + n) in
  let m := ram_put m (p2 + 4) 4 o in
  let m := ram_put m o 4 p2 in
  if o + n =? MEM_SIZE then m else ram_put m (o + n + 4) 4 p2.

Lemma cut_ram_out m o n size a :
  0 <= size → size + 24 <= n →
  a < o ∨ o + 4 <= a < o + 12 + size ∨ o + n <= a < o + n + 4 ∨ o + n + 8 <= a →
  cut_ram m o n size a = m a.
Proof.
  intros Hs Hn Ha. unfold cut_ram. destruct (o + n =? MEM_SIZE); by rewrite !ram_put_out by lia.
Qed.

Lemma cut_ram_holds m pre n post size :
  holds m (pre ++ (n, true) :: post) → 0 <= size → size + 24 <= n →
  holds (cut_ram m (tsum pre) n size) (pre ++ (12 + size, true) :: (n - 12 - size, false) :: post).
Proof.
  intros Hh Hs Hn. destruct (holds_block _ _ _ _ _ Hh) as (p & q & _ & (_ & Hp & Hu) & _ & _ & Ho & He).
  eapply split_holds; [done..| | | |]; [intros a Ha; apply cut_ram_out; lia| | |];
    unfold header, cut_ram; destruct (Z.eqb_spec (tsum pre + n) MEM_SIZE); intros; split_and?;
    by ram_simp.
Qed.

Lemma cut_block_run h pre n post newsize :
  holds (ram h) (pre ++ (n, true) :: post) → 0 <= newsize → newsize + 24 <= n →
  cut_block (tsum pre) newsize h =
  plug_holes (tsum pre + 12 + newsize) (set_ram (cut_ram (ram h) (tsum pre) n newsize) h).
Proof.
  intros Hh Hs Hn. destruct (holds_block _ _ _ _ _ Hh) as (p & q & _ & (H1 & _) & _ & _ & Ho & He).
  unfold cut_block. hfields. drop_wraps.
  do 2 hstep. cbn [ram set_ram]. rewrite ram_get_put_other, H1 by lia. drop_wraps.
  do 4 hstep. cbn [ram set_ram]. rewrite !ram_get_put_other, ram_get_put_same, Z.mod_small by mem_lia.
  rewrite cond_store_run by mem_lia. done.
Qed.

Lemma free_at_cut pre n post a b o :
  a + b = n → free_at (pre ++ (n, true) :: post) o → free_at (pre ++ (a, true) :: (b, false) :: post) o.
Proof.
  intros <-. rewrite !free_at_app, !free_at_cons. cbn [fst snd].
  replace (o - tsum pre - a - b) with (o - tsum pre - (a + b)) by lia.
  intros [?|[[[=] _]|?]]; [by left|by right; right; right].
Qed.

Lemma mem_realloc_cuts h pre n post newsize :
  heap_ok h (pre ++ (n, true) :: post) → 0 <= newsize → newsize + 36 < n →
  let l' := release (pre ++ [(12 + newsize, true)]) (n - 12 - newsize) post in
  ∃ h', mem_realloc (tsum pre + 12) newsize h = Done (tsum pre + 12) h' ∧ heap_ok h' l' ∧
    same_data l' (ram h) (ram h') ∧ mrlist h' = mrlist h.
Proof.
  intros Hok Hs Hcut l'. destruct (used_below _ _ _ _ Hok) as (Ho & Hn & He).
  destruct Hok as [Hh Hc Hlast Hf Hsem].
  destruct (holds_block _ _ _ _ _ Hh) as (p & q & _ & (H1 & _) & _ & _ & _ & _).
  unfold mem_realloc. hfields. rewrite sys_sem_wait_run by done.
  rewrite (proj2 (Z.ltb_ge _ _)), (proj2 (Z.leb_gt _ _)) by lia. cbn [orb].
  replace (tsum pre + 12 - SIZEOF_STRUCT_MEM) with (tsum pre) by mem_lia.
  do 2 hstep. cbn [ram set_sem]. rewrite H1. drop_wraps. rewrite (proj2 (Z.ltb_lt _ _)) by mem_lia.
  set (h1 := set_stats _ _). 
  set (h2 := set_ram (cut_ram (ram h) (tsum pre) n newsize) h1).
  assert (cut_block (tsum pre) newsize h1 = plug_holes (tsum pre + 12 + newsize) h2) as Hcb
    by (eapply (cut_block_run h1); [exact Hh|lia|lia]).
  pose proof (cut_ram_holds _ _ _ _ newsize Hh ltac:(lia) ltac:(lia)) as Hh2.
  assert (free_at (pre ++ (12 + newsize, true) :: (n - 12 - newsize, false) :: post) (lfree h2)) as Hf2
    by (eapply free_at_cut; [|exact Hf]; lia).
  change (cut_ram (ram h) (tsum pre) n newsize) with (ram h2) in Hh2. rewrite cons_middle, app_assoc in Hh2, Hf2.
  destruct (plug_holes_run _ _ _ _ Hh2 Hf2) as (h3 & Hrun & [Hh3 Hf3 Hd3 [Hs3 Hm3]]).
  rewrite tsum_app in Hrun. cbn [tsum fst] in Hrun. rewrite Z.add_0_r, Z.add_assoc in Hrun.
  rewrite (hm_bind_done _ _ _ tt h3) by (by rewrite Hcb).
  eexists. split; [done|]. split_and!; cbn; [split; cbn| |done].
  - done.
  - apply coalesced_release. rewrite <-app_assoc. apply coalesced_split in Hc as [Hc1 Hc2].
    apply coalesced_split. split; [by eapply coalesced_used|]. split; [done|by eapply coalesced_first].
  - apply ends_free_release. rewrite !ends_free_app in *. by apply (ends_free_size n).
  - done.
  - rewrite Hs3. done.
  - intros o k Ht a Ha. rewrite (Hd3 o k Ht a Ha). apply used_release in Ht.
    rewrite <-app_assoc in Ht. cbn [app] in Ht. apply (used_split _ n) in Ht; [|lia]. 
    apply cut_ram_out; [lia|lia|]. destruct Ht as [[-> ->]|Ht]; [lia|].
    apply (used_freed _ _ _ _ _ (holds_sizes _ _ Hh)) in Ht as [Hne Ht].
    destruct (tiles_apart _ _ _ _ _ (holds_sizes _ _ Hh) Ht (tile_at_mid pre (n, true) post)) as [[? _]|H];
      cbn in *; lia.
Qed.

(** A request that would leave too little for another block changes nothing. *)
Lemma mem_realloc_keeps h pre n post newsize :
  heap_ok h (pre ++ (n, true) :: post) → is_u32 newsize → n <= newsize + 36 →
  ∃ h', mem_realloc (tsum pre + 12) newsize h = Done (tsum pre + 12) h' ∧
    heap_ok h' (pre ++ (n, true) :: post) ∧ ram h' = ram h ∧ lfree h' = lfree h ∧ mrlist h' = mrlist h.
Proof.
  intros Hok Hs Hcut. destruct (used_below _ _ _ _ Hok) as (Ho & Hn & He).
  destruct Hok as [Hh Hc Hlast Hf Hsem].
  destruct (holds_block _ _ _ _ _ Hh) as (p & q & _ & (H1 & _) & _ & _ & _ & _).
  unfold mem_realloc. hfields. rewrite sys_sem_wait_run by done.
  rewrite (proj2 (Z.ltb_ge _ _)), (proj2 (Z.leb_gt _ _)) by lia. cbn [orb].
  replace (tsum pre + 12 - SIZEOF_STRUCT_MEM) with (tsum pre) by mem_lia.
  do 2 hstep. cbn [ram set_sem]. rewrite H1. rewrite (u32_small (tsum pre)) by mem_lia.
  rewrite (u32_small (tsum pre + n - tsum pre - _)) by mem_lia.
  rewrite u64_small by mem_lia. rewrite (proj2 (Z.ltb_ge _ _)) by mem_lia.
  eexists. split; [done|]. by split_and!.
Qed.

(** ** The empty heap *)

Lemma mem_init_run h :
  ∃ h', mem_init h = Done tt h' ∧ heap_ok h' [(MEM_SIZE, false)] ∧ lfree h' = 0 ∧ mrlist h' = 0.
Proof.
  unfold mem_init. hfields. drop_wraps. change (0 + 4) with 4. change (0 + 8) with 8.
  do 10 hstep. cbn [ram set_ram set_sem set_lfree set_mrlist set_stats].
  eexists. split; [done|]. split_and!; [split; cbn [ram lfree mem_sem]|done|done].
  - split.
    + exists 0. cbn [seg header]. rewrite Z.add_0_l. split_and!; try done; unfold header; split_and!; by ram_simp.
    + split; by ram_simp.
  - done.
  - done.
  - exists MEM_SIZE. by apply tile_at_cons; left.
  - done.
Qed.

(** The walk starts at a block of the tiling. *)
Lemma lfree_split h l : heap_ok h l → ∃ pre n post, l = pre ++ (n, false) :: post ∧ lfree h = tsum pre.
Proof. intros [_ _ _ (n & pre & post & -> & H) _]. by exists pre, n, post. Qed.

(** With no block in use there is one block. *)
Lemma no_block_in_use h l :
  heap_ok h l → (∀ o n, ¬ tile_at l o (n, true)) → l = [(MEM_SIZE, false)].
Proof.
  intros [Hh Hc Hlast Hf Hsem] Hnone. pose proof (holds_sum _ _ Hh) as Hsum.
  destruct l as [|[n [|]] l]; [done| |].
  - exfalso. apply (Hnone 0 n). by apply tile_at_cons; left.
  - destruct l as [|[k [|]] l].
    + cbn in Hsum. rewrite Z.add_0_r in Hsum. by subst n.
    + exfalso. apply (Hnone n k). apply tile_at_cons. right. apply tile_at_cons. left. cbn. split; [done|lia].
    + by destruct Hc.
Qed.

(** Writes to the data of a block keep the tiling. *)
Lemma data_holds m m' pre n u post :
  holds m (pre ++ (n, u) :: post) →
  (∀ a, a < tsum pre + 12 ∨ tsum pre + n <= a → m' a = m a) → holds m' (pre ++ (n, u) :: post).
Proof.
  intros Hh Hm. destruct (holds_block _ _ _ _ _ Hh) as (p & q & _ & Hhd & Hn & Hpost & Ho & He).
  eapply (holds_splice m m' pre [(n, u)] [(n, u)] post (tsum pre)); [done|done| | |];
    cbn [tsum fst seg]; rewrite ?Z.add_0_r.
  - intros a Ha. apply Hm. lia.
  - destruct post as [|[k w] post]; [by left|right]. destruct Hpost as ((_ & H5 & _) & _).
    etrans; [apply ram_get_ext|exact H5]. intros a Ha. apply Hm. lia.
  - destruct Hhd as (H1 & H2 & H3). rewrite H2. split_and!; [|done|done|done].
    eapply header_ext; [|by split_and!]. intros a Ha. apply Hm. lia.
Qed.
