(* ===== verification/MemProps.v ===== *)
(** What the memory manager promises its clients: blocks that are apart from
    each other and keep their contents until they are freed.

    [blocks] is the client's view, a map from the pointers it was given to the
    bytes behind them; [blocks_step] says what each operation may do to it, and
    the heap refines it from [mem_init] on. *)

From stdpp Require Import base tactics list numbers gmap.
From Stdlib Require Import ZArith Lia.
From S2P Require Import Prelude Mem MemSpec.

Local Open Scope Z_scope.

(** * The client's view *)

Abbreviation blocks := (gmap Z (list Z)).

Inductive mem_op :=
  | Malloc (size : Z)
  | Free (p : Z)
  | Realloc (p newsize : Z)
  | Write (p : Z) (i : nat) (v : Z).

Definition run_op (op : mem_op) : HM (option Z) :=
  match op with
  | Malloc size => mem_malloc size
  | Free p => mem_free (Some p);; mret None
  | Realloc p newsize => q ← mem_realloc p newsize; mret (Some q)
  | Write p i v => mem_store (p + Z.of_nat i) 1 v;; mret None
  end.

(** What a client may ask for: it frees, shrinks and writes its own blocks. *)
Definition allowed (b : blocks) (op : mem_op) : Prop :=
  match op with
  | Malloc size => is_u32 size
  | Free p => is_Some (b !! p)
  | Realloc p newsize => is_Some (b !! p) ∧ is_u32 newsize
  | Write p i v => is_byte v ∧ (i < length (default [] (b !! p)))%nat
  end.

(** The bytes of a new block are whatever the array holds. *)
Definition contents (m : Z → Z) (p n : Z) : list Z := map (λ k, m (p + Z.of_nat k)) (seq 0 (Z.to_nat n)).

(** The view after an operation that returned [r] and left the array [m]. *)
Definition track (op : mem_op) (r : option Z) (m : Z → Z) (b : blocks) : blocks :=
  match op with
  | Malloc size => match r with Some p => <[p := contents m p (round_size size)]> b | None => b end
  | Free p => delete p b
  | Realloc p newsize => alter (take (Z.to_nat newsize)) p b
  | Write p i v => alter (λ d, <[i := v]> d) p b
  end.

Definition apart (p n q k : Z) : Prop := p + n + 12 <= q ∨ q + k + 12 <= p.

(** The promise: [mem_malloc] returns nothing, or a new block inside the array,
    apart from the others; [mem_realloc] returns its argument. *)
Definition promised (op : mem_op) (b : blocks) (r : option Z) : Prop :=
  match op with
  | Malloc size =>
      match r with
      | None => True
      | Some p => b !! p = None ∧ 12 <= p ∧ p + round_size size + 12 <= MEM_SIZE ∧
          ∀ q d, b !! q = Some d → apart p (round_size size) q (Z.of_nat (length d))
      end
  | Realloc p _ => r = Some p
  | _ => r = None
  end.

(** * The relation between array and view *)

Record rep (l : list tile) (m : Z → Z) (b : blocks) : Prop := {
  rep_used : ∀ p n, tile_at l (p - 12) (n, true) → is_Some (b !! p);
  rep_data : ∀ p d, b !! p = Some d →
    ∃ n, tile_at l (p - 12) (n, true) ∧ Z.of_nat (length d) + 12 <= n ∧
      ∀ i x, d !! i = Some x → m (p + Z.of_nat i) = x
}.

Definition refines (h : heap) (b : blocks) : Prop := ∃ l, heap_ok h l ∧ rep l (ram h) b.

Lemma length_contents m p n : length (contents m p n) = Z.to_nat n.
Proof. unfold contents. by rewrite length_map, length_seq. Qed.

Lemma contents_lookup m p n i x : contents m p n !! i = Some x → m (p + Z.of_nat i) = x.
Proof.
  unfold contents. rewrite list_lookup_fmap. intros (k & Hk & ->)%fmap_Some.
  apply lookup_seq in Hk as [-> _]. done.
Qed.

Lemma rep_same l m m' b : same_data l m m' → rep l m b → rep l m' b.
Proof.
  intros Hs [H1 H2]. split; [done|]. intros p d Hd. destruct (H2 p d Hd) as (n & Ht & Hn & Hx).
  exists n. split_and!; [done|done|]. intros i x Hi. rewrite <-(Hx i x Hi).
  apply (Hs _ _ Ht). apply lookup_lt_Some in Hi. lia.
Qed.

(** The pointer of a block in use names its tile. *)
Lemma rep_block l m b p d :
  rep l m b → b !! p = Some d → ∃ pre n post, l = pre ++ (n, true) :: post ∧ p = tsum pre + 12 ∧
    Z.of_nat (length d) + 12 <= n.
Proof.
  intros [_ H] Hd. destruct (H p d Hd) as (n & (pre & post & -> & E) & Hn & _).
  exists pre, n, post. split_and!; [done|lia|done].
Qed.

Lemma rep_take pre n post s m b :
  let l := pre ++ (n, false) :: post in let p := tsum pre + 12 in
  Forall (λ t : tile, 12 <= t.1) l → 0 <= s → s + 24 <= n → rep l m b →
  rep (pre ++ (12 + s, true) :: (n - 12 - s, false) :: post) m (<[p := contents m p s]> b) ∧
  b !! p = None ∧ ∀ q d, b !! q = Some d → apart p s q (Z.of_nat (length d)).
Proof.
  intros l p Hl Hs Hn [H1 H2]. assert (tile_at l (tsum pre) (n, false)) as Hfree by apply tile_at_mid.
  assert (∀ q d, b !! q = Some d → q ≠ p ∧ apart p s q (Z.of_nat (length d))) as Hapart.
  { intros q d Hd. destruct (H2 q d Hd) as (k & Ht & Hk & _).
    destruct (tiles_apart _ _ _ _ _ Hl Ht Hfree) as [[_ [=]]|Hor]. unfold apart. cbn in *. lia. }
  split_and!.
  - split.
    + intros q k Ht. apply (used_split _ n) in Ht as [[E ->]|Ht]; [|apply lookup_insert_is_Some'; right; by eapply H1|lia].
      replace q with p by (subst p; lia). rewrite lookup_insert_eq. by eexists.
    + intros q d. rewrite lookup_insert_Some. intros [[<- <-]|[Hne Hd]].
      * exists (12 + s). split_and!; [apply (used_split _ n); [lia|left; subst p; lia]|rewrite length_contents; lia|].
        intros i x. apply contents_lookup.
      * destruct (H2 q d Hd) as (k & Ht & Hk). exists k. split; [|done]. apply (used_split _ n); [lia|by right].
  - destruct (b !! p) as [d|] eqn:E; [|done]. by destruct (Hapart p d E).
  - intros q d Hd. by apply Hapart.
Qed.

Lemma rep_free pre n post m b :
  Forall (λ t : tile, 12 <= t.1) (pre ++ (n, true) :: post) → rep (pre ++ (n, true) :: post) m b →
  rep (release pre n post) m (delete (tsum pre + 12) b).
Proof.
  intros Hl [H1 H2]. split.
  - intros q k Ht. apply used_release, (used_freed _ _ _ _ _ Hl) in Ht as [Hne Ht].
    rewrite lookup_delete_ne by lia. by eapply H1.
  - intros q d [Hne Hd]%lookup_delete_Some. destruct (H2 q d Hd) as (k & Ht & Hk).
    exists k. split; [|done]. apply used_release, (used_freed _ _ _ _ _ Hl). split; [lia|done].
Qed.

Lemma rep_cut pre n post m b newsize :
  let p := tsum pre + 12 in
  Forall (λ t : tile, 12 <= t.1) (pre ++ (n, true) :: post) → 0 <= newsize → newsize + 12 < n →
  rep (pre ++ (n, true) :: post) m b →
  rep (release (pre ++ [(12 + newsize, true)]) (n - 12 - newsize) post) m
    (alter (take (Z.to_nat newsize)) p b).
Proof.
  intros p Hl Hs Hn [H1 H2].
  assert (∀ o k, tile_at (release (pre ++ [(12 + newsize, true)]) (n - 12 - newsize) post) o (k, true) ↔
    (o = tsum pre ∧ k = 12 + newsize) ∨ (o ≠ tsum pre ∧ tile_at (pre ++ (n, true) :: post) o (k, true))) as Hused.
  { intros o k. rewrite used_release, <-app_assoc. cbn [app]. rewrite (used_split _ n) by lia.
    by rewrite (used_freed _ _ _ _ _ Hl). }
  split.
  - intros q k Ht. apply Hused in Ht as [[E _]|[Hne Ht]].
    + replace q with p by (subst p; lia). rewrite lookup_alter_eq, fmap_is_Some. eapply H1.
      replace (p - 12) with (tsum pre) by (subst p; lia). apply tile_at_mid.
    + rewrite lookup_alter_ne by (subst p; lia). by eapply H1.
  - intros q d. destruct (decide (q = p)) as [->|Hne].
    + rewrite lookup_alter_eq. intros (d' & Hd & ->)%fmap_Some. destruct (H2 p d' Hd) as (k & Ht & Hk & Hx).
      exists (12 + newsize). split_and!; [apply Hused; left; subst p; lia|rewrite length_take; lia|].
      intros i x Hi. apply Hx. by apply lookup_take_Some in Hi as [? _].
    + rewrite lookup_alter_ne by done. intros Hd. destruct (H2 q d Hd) as (k & Ht & Hk).
      exists k. split; [|done]. apply Hused. right. split; [subst p; lia|done].
Qed.

(** A view that forgets the end of a block is still right. *)
Lemma rep_forget l m b p k : rep l m b → rep l m (alter (take k) p b).
Proof.
  intros [H1 H2]. split.
  - intros q n Ht. apply H1 in Ht. destruct (decide (q = p)) as [->|Hne];
      [by rewrite lookup_alter_eq, fmap_is_Some|by rewrite lookup_alter_ne].
  - intros q d. destruct (decide (q = p)) as [->|Hne]; [|rewrite lookup_alter_ne by done; apply H2].
    rewrite lookup_alter_eq. intros (d' & Hd & ->)%fmap_Some. destruct (H2 p d' Hd) as (n & Ht & Hn & Hx).
    exists n. split_and!; [done|rewrite length_take; lia|]. intros i x Hi. apply Hx.
    by apply lookup_take_Some in Hi as [? _].
Qed.

Lemma ram_put_byte m a v : is_byte v → ram_put m a 1 v a = v.
Proof.
  intros Hv. unfold ram_put. rewrite Z.leb_refl, (proj2 (Z.ltb_lt _ _)) by lia. cbn.
  rewrite Z.sub_diag. cbn. unfold is_byte in Hv. apply Z.mod_small. lia.
Qed.

Lemma rep_write l m b p i v d :
  Forall (λ t : tile, 12 <= t.1) l → is_byte v → b !! p = Some d → (i < length d)%nat →
  rep l m b → rep l (ram_put m (p + Z.of_nat i) 1 v) (alter (λ d, <[i := v]> d) p b).
Proof.
  intros Hl Hv Hd Hi [H1 H2]. split.
  - intros q n Ht. apply H1 in Ht. destruct (decide (q = p)) as [->|Hne];
      [by rewrite lookup_alter_eq, fmap_is_Some|by rewrite lookup_alter_ne].
  - destruct (H2 p d Hd) as (n & Ht & Hn & Hx).
    intros q d'. destruct (decide (q = p)) as [->|Hne].
    + rewrite lookup_alter_eq, Hd. intros [= <-]. exists n. split_and!; [done|by rewrite length_insert|].
      intros j x. rewrite list_lookup_insert_Some. intros [(-> & -> & _)|(Hj & Hlook)]; [by apply ram_put_byte|].
      rewrite ram_put_out by lia. by apply Hx.
    + rewrite lookup_alter_ne by done. intros Hd'. destruct (H2 q d' Hd') as (k & Ht' & Hk & Hx').
      exists k. split_and!; [done|done|]. intros j x Hj. rewrite ram_put_out; [by apply Hx'|].
      destruct (tiles_apart _ _ _ _ _ Hl Ht Ht') as [[? _]|H]; [lia|].
      apply lookup_lt_Some in Hj. cbn in H. lia.
Qed.

(** * Every operation keeps the relation *)

Lemma malloc_refines h b size :
  refines h b → is_u32 size →
  ∃ r h', mem_malloc size h = Done r h' ∧ refines h' (track (Malloc size) r (ram h') b) ∧
    promised (Malloc size) b r.
Proof.
  intros (l & Hok & Hrep) Hs. destruct (lfree_split _ _ Hok) as (pre & n & post & -> & Hlf).
  destruct (Z.eq_dec size 0) as [->|Hz].
  { exists None, h. split; [done|]. split; [by eexists|done]. }
  destruct (Z_lt_le_dec MEM_SIZE (round_size size)) as [Hbig|Hfits].
  { exists None, h. unfold mem_malloc. rewrite (proj2 (Z.eqb_neq _ _)), (proj2 (Z.ltb_lt _ _)) by done.
    split; [done|]. split; [by eexists|done]. }
  destruct (first_fit (round_size size) ((n, false) :: post)) as [[[mid k] post']|] eqn:Hfit.
  - destruct (mem_malloc_takes _ _ _ _ _ _ _ Hok Hlf Hs Hz Hfits Hfit) as (h' & Hrun & Hok' & Hd & _).
    destruct (first_fit_some _ _ _ _ _ Hfit) as (E & Hk & _). rewrite E, app_assoc in Hok, Hrep, Hd.
    destruct (round_size_bounds _ Hs) as [Hs0 _].
    destruct (rep_take _ _ _ _ _ _ (holds_sizes _ _ (ho_holds _ _ Hok)) Hs0 Hk (rep_same _ _ _ _ Hd Hrep))
      as (Hrep' & Hnone & Hap).
    pose proof (used_below _ _ _ _ Hok'). 
    eexists _, h'. split; [done|]. split; [by eexists|]. cbn. split_and!; [done|lia|lia|done].
  - exists None, (set_stats (count_err (mem_stats h)) h). split; [by eapply mem_malloc_fails|].
    split; [|done]. exists (pre ++ (n, false) :: post). split; [|done]. by destruct Hok.
Qed.

Lemma op_refines h b op :
  refines h b → allowed b op →
  ∃ r h', run_op op h = Done r h' ∧ refines h' (track op r (ram h') b) ∧ promised op b r.
Proof.
  intros Hr Ha. destruct op as [size|p|p newsize|p i v]; [by apply malloc_refines|..];
    destruct Hr as (l & Hok & Hrep); pose proof (holds_sizes _ _ (ho_holds _ _ Hok)) as Hl.
  - destruct Ha as [d Hd]. destruct (rep_block _ _ _ _ _ Hrep Hd) as (pre & n & post & -> & -> & Hn).
    destruct (mem_free_run _ _ _ _ Hok) as (h' & Hrun & Hok' & Hd' & _).
    exists None, h'. cbn [run_op]. rewrite (hm_bind_done _ _ _ _ _ Hrun). split; [done|]. split; [|done].
    eexists. split; [done|]. eapply rep_same; [done|]. by apply rep_free.
  - destruct Ha as [[d Hd] Hs]. destruct (rep_block _ _ _ _ _ Hrep Hd) as (pre & n & post & -> & -> & Hn).
    destruct (Z_lt_le_dec (newsize + 36) n) as [Hcut|Hkeep].
    + destruct (mem_realloc_cuts _ _ _ _ newsize Hok) as (h' & Hrun & Hok' & Hd' & _); [unfold is_u32 in *; lia|lia|].
      exists (Some (tsum pre + 12)), h'. cbn [run_op]. rewrite (hm_bind_done _ _ _ _ _ Hrun).
      split; [done|]. split; [|done]. eexists. split; [done|]. eapply rep_same; [done|].
      apply rep_cut; [done|unfold is_u32 in *; lia|lia|done].
    + destruct (mem_realloc_keeps _ _ _ _ newsize Hok) as (h' & Hrun & Hok' & Hram & _); [done|lia|].
      exists (Some (tsum pre + 12)), h'. cbn [run_op]. rewrite (hm_bind_done _ _ _ _ _ Hrun).
      split; [done|]. split; [|done]. eexists. split; [done|]. rewrite Hram. by apply rep_forget.
  - destruct Ha as (Hv & Hi). destruct (b !! p) as [d|] eqn:Hd; [cbn in Hi|cbn in Hi; lia].
    pose proof (rep_write _ _ _ _ _ _ _ Hl Hv Hd Hi Hrep) as Hrep'.
    destruct (rep_block _ _ _ _ _ Hrep Hd) as (pre & n & post & -> & -> & Hn).
    pose proof (used_below _ _ _ _ Hok) as (Ho & _ & He). eexists None, _. cbn [run_op].
    rewrite (hm_bind_done _ _ _ _ _ (mem_store_run (tsum pre + 12 + Z.of_nat i) 1 v h ltac:(mem_lia) ltac:(mem_lia))).
    split; [done|]. split; [|done]. eexists. split; [|exact Hrep']. destruct Hok as [Hh ? ? ? ?].
    split; try done. eapply data_holds; [done|]. intros a Ha. apply ram_put_out. lia.
Qed.

(** * Runs *)

(** The heaps a client can reach, with its view of them. *)
Inductive reachable : heap → blocks → Prop :=
  | reach_init h0 h : mem_init h0 = Done tt h → reachable h ∅
  | reach_op h b op r h' :
      reachable h b → allowed b op → run_op op h = Done r h' → reachable h' (track op r (ram h') b).

Lemma reachable_refines h b : reachable h b → refines h b.
Proof.
  induction 1 as [h0 h Hinit|h b op r h' _ IH Ha Hrun].
  - destruct (mem_init_run h0) as (h1 & Hrun & Hok & _). rewrite Hrun in Hinit. injection Hinit as ->.
    eexists. split; [done|]. split; [|done]. intros p n Ht.
    apply tile_at_cons in Ht as [[[=] _]|Ht]. by apply tile_at_nil in Ht.
  - destruct (op_refines _ _ _ IH Ha) as (r' & h'' & Hrun' & Hr & _). rewrite Hrun in Hrun'.
    by injection Hrun' as <- <-.
Qed.

(** The zeroed statics of the program before [mem_init]. *)
Definition statics : heap := Heap (λ _, 0) 0 0 0 (StatsMem 0 0 0 0).

#[global] Instance allowed_dec b op : Decision (allowed b op).
Proof. destruct op; cbn; apply _. Defined.

(** Runs a client; [None] when it breaks a rule or the heap faults. *)
Definition client_step (s : heap * blocks) (op : mem_op) : option (heap * blocks) :=
  let '(h, b) := s in
  if decide (allowed b op) then
    match run_op op h with Done r h' => Some (h', track op r (ram h') b) | Crash _ => None end
  else None.

Definition client_run (ops : list mem_op) : option (heap * blocks) :=
  foldl (λ s op, s ← s; client_step s op)
    (match mem_init statics with Done _ h => Some (h, ∅) | Crash _ => None end) ops.

Lemma client_run_reachable ops h b : client_run ops = Some (h, b) → reachable h b.
Proof.
  unfold client_run. revert h b. induction ops as [|op ops IH] using rev_ind; intros h b.
  - cbn [foldl]. destruct (mem_init statics) as [[] h0|] eqn:E; [|done]. intros [= <- <-].
    by eapply reach_init.
  - rewrite foldl_app. cbn [foldl]. destruct (foldl _ _ ops) as [[h0 b0]|]; [|done].
    cbn [mbind option_bind client_step]. destruct (decide (allowed b0 op)) as [Ha|]; [|done].
    destruct (run_op op h0) as [r h1|] eqn:E; [|done]. intros [= <- <-]. by eapply reach_op; [apply IH|..].
Qed.

(** The state of a client after some operations. *)
Definition after (ops : list mem_op) : heap * blocks := default (statics, ∅) (client_run ops).

Lemma after_reachable ops b :
  bool_decide (is_Some (client_run ops)) = true → bool_decide ((after ops).2 = b) = true →
  reachable (after ops).1 b.
Proof.
  unfold after. intros [[h b'] E]%bool_decide_eq_true ?%bool_decide_eq_true. rewrite E in *. cbn in *. subst b'.
  by eapply client_run_reachable.
Qed.

(** A heap without blocks in use serves every request that fits at its start. *)
Lemma whole_heap_takes h size :
  reachable h ∅ → is_u32 size → size ≠ 0 → round_size size + 24 <= MEM_SIZE →
  ∃ h', mem_malloc size h = Done (Some 12) h' ∧
    heap_ok h' [(12 + round_size size, true); (MEM_SIZE - 12 - round_size size, false)].
Proof.
  intros (l & Hok & Hrep)%reachable_refines Hu Hz Hs.
  assert (l = [(MEM_SIZE, false)]) as ->.
  { eapply no_block_in_use; [done|]. intros o n Ht.
    destruct (rep_used _ _ _ Hrep (o + 12) n) as [x Hx]; [|done]. by replace (o + 12 - 12) with o by lia. }
  destruct (lfree_split _ _ Hok) as (pre & n & post & E & Hlf).
  destruct pre as [|x pre]; [|by destruct pre]. cbn in Hlf.
  destruct (mem_malloc_takes h [] [(MEM_SIZE, false)] size [] MEM_SIZE []) as (h' & Hrun & Hok' & _);
    [done|done|done|done|lia| |by exists h'].
  cbn [first_fit negb andb]. by rewrite (proj2 (Z.leb_le _ _)).
Qed.

(** C12: Whatever a client does with its own blocks, starting from [mem_init],
    each of [mem_malloc], [mem_free], [mem_realloc] and a write to a block
    returns: no loop is endless, no access leaves the array and the semaphore
    is never left taken.  [mem_malloc] returns null or the pointer of a block
    that is new, lies inside the array, has room for the rounded size, and is
    apart from every block the client has. *)
Theorem mem_refines_blocks h b op :
  reachable h b → allowed b op →
  ∃ r h', run_op op h = Done r h' ∧ promised op b r ∧ reachable h' (track op r (ram h') b).
Proof.
  intros Hr Ha. destruct (op_refines _ _ _ (reachable_refines _ _ Hr) Ha) as (r & h' & Hrun & _ & Hp).
  exists r, h'. split_and!; [done|done|]. by eapply reach_op.
Qed.

Lemma mem_refines_blocks_witness :
  let '(h, b) := after [Malloc 100; Malloc 7; Write 124 3 5; Realloc 12 40] in
  ∃ r h', run_op (Malloc 20) h = Done r h' ∧ promised (Malloc 20) b r ∧
    reachable h' (track (Malloc 20) r (ram h') b).
Proof.
  destruct (after _) as [h b] eqn:E. apply mem_refines_blocks; [|cbn; unfold is_u32; lia].
  change h with (h, b).1. rewrite <-E. apply after_reachable; [vm_compute; reflexivity|].
  rewrite E. apply bool_decide_eq_true. reflexivity.
Defined.

(** In every heap a client reaches, each of its blocks lies inside the
    array, holds the bytes last written to it, and is apart from every other
    block by at least a header. *)
Theorem mem_blocks_kept h b p d :
  reachable h b → b !! p = Some d →
  12 <= p ∧ p + Z.of_nat (length d) + 12 <= MEM_SIZE ∧
  (∀ i x, d !! i = Some x → ram h (p + Z.of_nat i) = x) ∧
  (∀ q e, b !! q = Some e → q ≠ p → apart p (Z.of_nat (length d)) q (Z.of_nat (length e))).
Proof.
  intros (l & Hok & Hrep)%reachable_refines Hd.
  pose proof (holds_sizes _ _ (ho_holds _ _ Hok)) as Hl.
  destruct (rep_data _ _ _ Hrep p d Hd) as (n & Ht & Hn & Hx).
  destruct (rep_block _ _ _ _ _ Hrep Hd) as (pre & n' & post & -> & -> & Hn').
  pose proof (used_below _ _ _ _ Hok) as (Ho & _ & He).
  split_and!; [lia| |done|]; [lia|].
  intros q e He' Hne. destruct (rep_data _ _ _ Hrep q e He') as (k & Ht' & Hk & _).
  destruct (tiles_apart _ _ _ _ _ Hl Ht Ht') as [[? _]|H]; [lia|]. unfold apart. cbn in *. lia.
Qed.

Lemma mem_blocks_kept_witness :
  let h := (after [Malloc 2; Write 12 0 7; Malloc 4; Write 28 3 9; Free 12]).1 in ram h 31 = 9.
Proof.
  apply (mem_blocks_kept _ {[28 := [0; 0; 0; 9]]} 28 [0; 0; 0; 9]) with (i := 3%nat); [|reflexivity|reflexivity].
  apply after_reachable; vm_compute; reflexivity.
Defined.

(** When a client has freed all of its blocks, the array is one free block
    again, however the blocks were allocated, cut and freed: any request up to
    the size of the array less two headers gets the block at its start. *)
Theorem mem_freed_heap_is_whole h size :
  reachable h ∅ → 0 < size → size + 24 <= MEM_SIZE → ∃ h', mem_malloc size h = Done (Some 12) h'.
Proof.
  intros Hr H0 Hs. destruct (round_size_val size) as [Hrs Hmod]; [mem_lia|mem_lia|].
  destruct (whole_heap_takes _ size Hr) as (h' & Hrun & _); [mem_lia|lia| |by exists h'].
  change MEM_SIZE with 5120000 in *. Z.to_euclidean_division_equations. lia.
Qed.

Lemma mem_freed_heap_is_whole_witness :
  ∃ h', mem_malloc 5119976 (after [Malloc 100; Malloc 7; Realloc 12 40; Malloc 20; Free 124; Free 12; Free 144]).1
        = Done (Some 12) h'.
Proof.
  apply mem_freed_heap_is_whole; [|lia|vm_compute; done].
  apply after_reachable; vm_compute; reflexivity.
Defined.

(** [mem_malloc] is first fit from the lowest free block on: it cuts the
    block off the first free block that has room for it and for the header of
    the rest, and the data of the other blocks stays; when there is none, it
    returns null and changes nothing but a counter. *)
Theorem mem_malloc_first_fit h pre suf size :
  heap_ok h (pre ++ suf) → lfree h = tsum pre → is_u32 size → size ≠ 0 →
  let s := round_size size in
  match first_fit s suf with
  | Some (mid, n, post) =>
      ∃ h', mem_malloc size h = Done (Some (tsum (pre ++ mid) + 12)) h' ∧
        heap_ok h' (pre ++ mid ++ (12 + s, true) :: (n - 12 - s, false) :: post) ∧
        same_data (pre ++ suf) (ram h) (ram h')
  | None =>
      ∃ h', mem_malloc size h = Done None h' ∧ heap_ok h' (pre ++ suf) ∧ ram h' = ram h ∧ lfree h' = lfree h
  end.
Proof.
  intros Hok Hl Hu Hz s. destruct (Z_lt_le_dec MEM_SIZE s) as [Hbig|Hfits].
  - pose proof (holds_sum _ _ (ho_holds _ _ Hok)) as Hsum.
    pose proof (holds_sizes _ _ (ho_holds _ _ Hok)) as Hsz.
    assert (first_fit s suf = None) as ->.
    { apply first_fit_none, Forall_forall. intros [n u] (mid & post & ->)%list_elem_of_split. right. cbn.
      rewrite app_assoc in Hsz, Hsum. pose proof (tile_at_range _ _ _ Hsz (tile_at_mid _ (n, u) _)).
      cbn in *. lia. }
    exists h. unfold mem_malloc. fold s. by rewrite (proj2 (Z.eqb_neq _ _)), (proj2 (Z.ltb_lt _ _)).
  - destruct (first_fit s suf) as [[[mid n] post]|] eqn:E.
    + destruct (mem_malloc_takes _ _ _ _ _ _ _ Hok Hl Hu Hz Hfits E) as (h' & Hrun & Hok' & Hd & _).
      exists h'. rewrite app_assoc. done.
    + rewrite (mem_malloc_fails _ _ _ _ Hok Hl Hu Hz Hfits E). eexists. split; [done|].
      by destruct Hok.
Qed.

Lemma mem_malloc_first_fit_witness :
  ∃ h h', mem_init statics = Done tt h ∧ mem_malloc 5 h = Done (Some 12) h' ∧
    heap_ok h' [(20, true); (5119980, false)].
Proof.
  destruct (mem_init_run statics) as (h & Hi & Hok & Hl & _).
  destruct (mem_malloc_first_fit h [] [(MEM_SIZE, false)] 5 Hok Hl) as (h' & Hrun & Hok' & _);
    [unfold is_u32; lia|lia|]. by exists h, h'.
Defined.

(** [mem_free] of a block in use clears its mark and joins it with the
    free blocks beside it, so that no two free blocks are ever neighbours; the
    data of the blocks that stay is kept. *)
Theorem mem_free_joins_neighbours h pre n post :
  heap_ok h (pre ++ (n, true) :: post) →
  ∃ h', mem_free (Some (tsum pre + 12)) h = Done tt h' ∧ heap_ok h' (release pre n post) ∧
    same_data (release pre n post) (ram h) (ram h').
Proof.
  intros Hok. destruct (mem_free_run _ _ _ _ Hok) as (h' & Hrun & Hok' & Hd & _). by exists h'.
Qed.

Lemma mem_free_joins_neighbours_witness :
  ∃ h h' h'', mem_init statics = Done tt h ∧ mem_malloc 5 h = Done (Some 12) h' ∧
    mem_free (Some 12) h' = Done tt h'' ∧ heap_ok h'' [(5120000, false)].
Proof.
  destruct (mem_init_run statics) as (h & Hi & Hok & Hl & _).
  destruct (mem_malloc_takes h [] [(MEM_SIZE, false)] 5 [] MEM_SIZE []) as (h' & Hrun & Hok' & _);
    [done|done|unfold is_u32; lia|lia|vm_compute; done|reflexivity|].
  destruct (mem_free_joins_neighbours h' [] 20 [(5119980, false)] Hok') as (h'' & Hf & Hok'' & _).
  by exists h, h', h''.
Defined.

(** A pointer outside of the array makes [mem_free] and [mem_realloc]
    return with the semaphore taken: the next call of any of the operations
    waits for it without end. *)
Theorem mem_illegal_pointer_locks_heap h rmem newsize :
  mem_sem h = 1 → rmem < 0 ∨ MEM_SIZE <= rmem →
  ∃ h1 h2, mem_free (Some rmem) h = Done tt h1 ∧ mem_realloc rmem newsize h = Done rmem h2 ∧
  Forall (λ h', (∀ size, 0 < size <= MEM_SIZE → mem_malloc size h' = Crash SemBlocked) ∧
                (∀ p, mem_free (Some p) h' = Crash SemBlocked) ∧
                (∀ p n, mem_realloc p n h' = Crash SemBlocked)) [h1; h2].
Proof.
  intros Hs Hr. assert ((rmem <? 0) || (MEM_SIZE <=? rmem) = true) as Hill.
  { apply orb_true_iff. rewrite Z.ltb_lt, Z.leb_le. done. }
  unfold mem_free, mem_realloc. rewrite !sys_sem_wait_run, Hill by done.
  eexists _, _. split; [done|]. split; [done|].
  assert (∀ h' A (f : unit → HM A), mem_sem h' = 0 → (sys_sem_wait ≫= f) h' = Crash SemBlocked) as Hblock.
  { intros h' A f E. unfold sys_sem_wait, mbind, hm_bind. cbn. by rewrite E. }
  repeat constructor; intros; try (by apply Hblock); unfold mem_malloc;
    rewrite (proj2 (Z.eqb_neq _ _)) by lia; (rewrite (proj2 (Z.ltb_ge _ _)); [by apply Hblock|]);
    destruct (round_size_val size) as [H1 H2]; mem_lia ||
    (change MEM_SIZE with 5120000 in *; Z.to_euclidean_division_equations; lia).
Qed.

Lemma mem_illegal_pointer_locks_heap_witness :
  ∃ h1, mem_free (Some MEM_SIZE) (after [Malloc 8]).1 = Done tt h1 ∧ mem_malloc 8 h1 = Crash SemBlocked.
Proof.
  destruct (mem_illegal_pointer_locks_heap (after [Malloc 8]).1 MEM_SIZE 0) as (h1 & h2 & H1 & _ & H3);
    [vm_compute; reflexivity|right; reflexivity|].
  exists h1. split; [done|]. inversion H3 as [|x y [Hm _] _]. apply Hm. vm_compute. done.
Defined.

(** The rounding of a request close to the largest size wraps to 0: instead
    of null the caller gets a block without a byte of data. *)
Theorem mem_malloc_size_wraps h size :
  reachable h ∅ → 2 ^ 32 - 4 < size < 2 ^ 32 →
  round_size size = 0 ∧
  ∃ h', mem_malloc size h = Done (Some 12) h' ∧ heap_ok h' [(12, true); (MEM_SIZE - 12, false)].
Proof.
  intros Hr Hs. assert (round_size size = 0) as E.
  { assert (size = 4294967293 ∨ size = 4294967294 ∨ size = 4294967295) as [->|[->| ->]] by lia; reflexivity. }
  split; [done|]. destruct (whole_heap_takes h size Hr) as (h' & Hrun & Hok);
    [unfold is_u32; lia|lia|rewrite E; vm_compute; done|].
  exists h'. rewrite E in Hok. done.
Qed.

Lemma mem_malloc_size_wraps_witness :
  ∃ h', mem_malloc 4294967293 (after []).1 = Done (Some 12) h' ∧
    heap_ok h' [(12, true); (MEM_SIZE - 12, false)].
Proof.
  apply mem_malloc_size_wraps; [apply after_reachable; vm_compute; reflexivity|lia].
Defined.

(** [mem_malloc] aligns sizes, [mem_realloc] does not: after a block was cut
    to a size that is not a multiple of 4, the next block is not aligned. *)
Theorem mem_realloc_breaks_alignment h size k :
  reachable h ∅ → is_u32 size → size mod 4 = 0 → size + 48 <= MEM_SIZE → 0 <= k → k + 24 < size → k mod 4 ≠ 0 →
  ∃ h1 h2 h3, mem_malloc size h = Done (Some 12) h1 ∧ mem_realloc 12 k h1 = Done 12 h2 ∧
    mem_malloc 4 h2 = Done (Some (24 + k)) h3 ∧ (24 + k) mod MEM_ALIGNMENT ≠ 0.
Proof.
  intros Hr Hu Hal Hs Hk Hcut Hodd.
  assert (round_size size = size) as Hrs by (unfold round_size, MEM_ALIGNMENT; by rewrite Hal).
  destruct (whole_heap_takes h size Hr) as (h1 & Hrun1 & Hok1); [done|lia|lia|]. rewrite Hrs in Hok1.
  destruct (mem_realloc_cuts h1 [] (12 + size) [(MEM_SIZE - 12 - size, false)] k Hok1)
    as (h2 & Hrun2 & Hok2 & _); [lia|lia|]. unfold release in Hok2. cbn [app merge_next merge_prev] in Hok2.
  replace (12 + size - 12 - k + (MEM_SIZE - 12 - size)) with (MEM_SIZE - 12 - k) in Hok2 by lia.
  destruct (lfree_split _ _ Hok2) as (pre & n & post & E & Hlf).
  destruct pre as [|x [|y pre]]; [done| |by destruct pre]. injection E as <- <- <-.
  destruct (mem_malloc_takes h2 [(12 + k, true)] [(MEM_SIZE - 12 - k, false)] 4 [] (MEM_SIZE - 12 - k) [] Hok2 Hlf) as (h3 & Hrun3 & _);
    [unfold is_u32; lia|lia|vm_compute; done| |].
  { cbn [first_fit negb andb]. change (round_size 4) with 4. by rewrite (proj2 (Z.leb_le _ _)) by lia. }
  exists h1, h2, h3. split_and!; [done|done| |].
  - rewrite Hrun3. cbn. do 2 f_equal. lia.
  - unfold MEM_ALIGNMENT. Z.to_euclidean_division_equations. lia.
Qed.

Lemma mem_realloc_breaks_alignment_witness :
  ∃ h1 h2 h3, mem_malloc 100 (after []).1 = Done (Some 12) h1 ∧ mem_realloc 12 5 h1 = Done 12 h2 ∧
    mem_malloc 4 h2 = Done (Some 29) h3.
Proof.
  destruct (mem_realloc_breaks_alignment (after []).1 100 5) as (h1 & h2 & h3 & H1 & H2 & H3 & _);
    [apply after_reachable; vm_compute; reflexivity|unfold is_u32; lia|done|vm_compute; done|lia|lia|done|].
  exists h1, h2, h3. split; [exact H1|split; [exact H2|exact H3]].
Defined.

(** [mem_realloc] does not lower [lfree], "the lowest free block": the space
    it gives back in front of it is not found, and [mem_malloc] of 100 bytes
    fails with a hole of 900. *)
Theorem mem_realloc_hides_space :
  ∃ h1 h2 h3 h4 h5, mem_init statics = Done tt h1 ∧ mem_malloc 1000 h1 = Done (Some 12) h2 ∧
    mem_malloc 5118964 h2 = Done (Some 1024) h3 ∧ mem_realloc 12 100 h3 = Done 12 h4 ∧
    heap_ok h4 [(112, true); (900, false); (5118976, true); (12, false)] ∧
    mem_malloc 100 h4 = Done None h5.
Proof.
  assert (match (mem_init ≫= λ _, mem_malloc 1000 ≫= λ _, mem_malloc 5118964 ≫= λ _,
                 mem_realloc 12 100 ≫= λ _, mem_malloc 100) statics with
          | Done None _ => True | _ => False end) as Hrun by (vm_compute; exact I).
  destruct (mem_init_run statics) as (h1 & R1 & Hok1 & Hl1 & _). rewrite (hm_bind_done _ _ _ _ _ R1) in Hrun.
  destruct (mem_malloc_takes h1 [] [(MEM_SIZE, false)] 1000 [] MEM_SIZE [] Hok1 Hl1) as (h2 & R2 & Hok2 & _);
    [unfold is_u32; lia|lia|vm_compute; done|reflexivity|]. rewrite (hm_bind_done _ _ _ _ _ R2) in Hrun.
  destruct (lfree_split _ _ Hok2) as (pre & n & post & E & Hlf).
  destruct pre as [|x [|y pre]]; [done| |by destruct pre]. injection E as <- <- <-.
  destruct (mem_malloc_takes h2 [(1012, true)] [(5118988, false)] 5118964 [] 5118988 [] Hok2 Hlf)
    as (h3 & R3 & Hok3 & _); [unfold is_u32; lia|lia|vm_compute; done|reflexivity|].
  rewrite (hm_bind_done _ _ _ _ _ R3) in Hrun.
  destruct (mem_realloc_cuts h3 [] 1012 [(5118976, true); (12, false)] 100 Hok3) as (h4 & R4 & Hok4 & _); [lia|lia|].
  rewrite (hm_bind_done _ _ _ _ _ R4) in Hrun. destruct (mem_malloc 100 h4) as [[p|] h5|] eqn:R5; [done| |done].
  by exists h1, h2, h3, h4, h5.
Qed.
