(* ===== verification/Linked.v ===== *)
(** Singly linked lists in memory, as the allocators of the TCP stack build
    them: a partial function gives the next pointer of every element, and [lseg]
    says which elements a walk from one pointer to another meets. *)

From stdpp Require Import base tactics list numbers.
From S2P Require Import Prelude.

Section linked.
Context {A : Type}.
Implicit Types (nxt : A → option (option A)) (h t : option A) (l : list A).

(** A walk from [h] to [t] meets the elements [l]; the null pointer is [None]. *)
Fixpoint lseg nxt h l t : Prop :=
  match l with
  | [] => h = t
  | a :: l => h = Some a ∧ ∃ n, nxt a = Some n ∧ lseg nxt n l t
  end.

(** The whole list from [h]. *)
Definition linked nxt h l : Prop := lseg nxt h l None.

Lemma lseg_frame nxt nxt' h l t :
  (∀ a, a ∈ l → nxt' a = nxt a) → lseg nxt h l t → lseg nxt' h l t.
Proof.
  revert h. induction l as [|a l IH]; [done|]. intros h Hf [-> (n & Hn & Hl)]. split; [done|].
  exists n. rewrite (Hf a) by constructor. split; [done|]. apply IH; [|done]. intros b Hb. apply Hf. by constructor.
Qed.

Lemma lseg_app nxt h l1 l2 t : lseg nxt h (l1 ++ l2) t ↔ ∃ m, lseg nxt h l1 m ∧ lseg nxt m l2 t.
Proof.
  revert h. induction l1 as [|a l1 IH]; intros h; cbn.
  - split; [by exists h|]. by intros (m & -> & ?).
  - split.
    + intros [-> (n & Hn & Hl)]. apply IH in Hl as (m & ? & ?). exists m. eauto.
    + intros (m & [-> (n & Hn & Hl)] & ?). split; [done|]. exists n. split; [done|]. apply IH. eauto.
Qed.

(** An element is met once: a walk to the null pointer determines its elements. *)
Lemma linked_unique nxt h l1 l2 : linked nxt h l1 → linked nxt h l2 → l1 = l2.
Proof.
  unfold linked. revert h l2. induction l1 as [|a l1 IH]; intros h [|b l2]; cbn; [done| | |].
  - by intros -> [? _].
  - by intros [-> _] ?.
  - intros [-> (n & Hn & H1)] [[= <-] (n' & Hn' & H2)]. rewrite Hn in Hn'. injection Hn' as <-.
    f_equal. by eapply IH.
Qed.

Lemma linked_suffix nxt h l1 l2 : linked nxt h (l1 ++ l2) → ∃ m, linked nxt m l2.
Proof. unfold linked. rewrite lseg_app. intros (m & _ & H). by exists m. Qed.

Lemma linked_NoDup nxt h l : linked nxt h l → NoDup l.
Proof.
  intros H. apply NoDup_alt. intros i j x Hi Hj.
  enough (∀ i j, (i < j)%nat → l !! i = Some x → l !! j = Some x → False) as Hlt.
  { destruct (lt_eq_lt_dec i j) as [[Hij| ->]|Hji]; [|done|]; exfalso; by eapply Hlt. }
  clear i j Hi Hj. intros i j Hij Hi Hj.
  assert (∀ k, l !! k = Some x → ∃ m, linked nxt m (drop k l) ∧ m = Some x) as Hm.
  { intros k Hk. rewrite <-(take_drop k l) in H. apply linked_suffix in H as [m Hm]. exists m. split; [done|].
    rewrite (drop_S l x k Hk) in Hm. by destruct Hm. }
  destruct (Hm i Hi) as (m & H1 & ->). destruct (Hm j Hj) as (? & H2 & ->).
  pose proof (linked_unique _ _ _ _ H1 H2) as E. apply (f_equal length) in E. rewrite !length_drop in E.
  apply lookup_lt_Some in Hi. apply lookup_lt_Some in Hj. lia.
Qed.

(** The last element points to what follows the walk. *)
Lemma lseg_snoc nxt h l a t : lseg nxt h (l ++ [a]) t ↔ lseg nxt h l (Some a) ∧ nxt a = Some t.
Proof.
  rewrite lseg_app. cbn. split.
  - intros (m & Hl & -> & n & Hn & ->). done.
  - intros [Hl Hn]. exists (Some a). split; [done|]. split; [done|]. by exists t.
Qed.

Lemma lseg_lookup nxt h l t a : lseg nxt h l t → a ∈ l → is_Some (nxt a).
Proof.
  revert h. induction l as [|b l IH]; intros h; [by intros _ ?%elem_of_nil|].
  intros [-> (n & Hn & Hl)] [->|Ha]%elem_of_cons; [by exists n|by eapply IH].
Qed.

Lemma lseg_nil_inv nxt l t : lseg nxt None l t → l = [] ∧ t = None.
Proof. destruct l; [by intros <-|by intros [? _]]. Qed.

Lemma linked_head nxt a l : linked nxt (Some a) l → ∃ n l', l = a :: l' ∧ nxt a = Some n ∧ linked nxt n l'.
Proof. destruct l as [|b l]; [by intros [=]|]. intros [[= <-] (n & Hn & Hl)]. by exists n, l. Qed.
End linked.
