(* ===== verification/Memp.v ===== *)
(** The pools of fixed-size blocks of the TCP stack (lwtcp/memp.c).

    The static array is cut into one pool per type of block; the free blocks of
    a pool are linked through their headers.  A header is named by its address,
    and the block behind it by the address 8 bytes later; the null pointer is
    [None].  The sizes of the structures depend on the compiler and are a
    parameter, as is the address of the array, which lies below 2^32: the macro
    [MEM_ALIGN] casts an address to 32 bits.  Following a pointer to where there
    is no header and waiting for the semaphore while it is taken are the result
    [None] of an operation. *)

From stdpp Require Import base tactics numbers gmap option list.
From Stdlib Require Import ZArith Lia.
From S2P Require Import Prelude Mem Linked.

Local Open Scope Z_scope.

Inductive memp_t :=
  | MEMP_PBUF | MEMP_UDP_PCB | MEMP_TCP_PCB | MEMP_TCP_PCB_LISTEN | MEMP_TCP_SEG
  | MEMP_NETBUF | MEMP_NETCONN | MEMP_API_MSG | MEMP_TCP_MSG | MEMP_SYS_TIMEOUT.

#[global] Instance memp_t_eq_dec : EqDecision memp_t.
Proof. solve_decision. Defined.

(** The types in the order of the tables. *)
Definition memp_types : list memp_t :=
  [MEMP_PBUF; MEMP_UDP_PCB; MEMP_TCP_PCB; MEMP_TCP_PCB_LISTEN; MEMP_TCP_SEG;
   MEMP_NETBUF; MEMP_NETCONN; MEMP_API_MSG; MEMP_TCP_MSG; MEMP_SYS_TIMEOUT].

Definition memp_num (t : memp_t) : Z :=
  match t with
  | MEMP_PBUF => 512
  | MEMP_UDP_PCB => 4
  | MEMP_TCP_PCB => 12
  | MEMP_TCP_PCB_LISTEN => 8
  | MEMP_TCP_SEG => 8
  | MEMP_NETBUF => 32
  | MEMP_NETCONN => 32
  | MEMP_API_MSG => 8
  | MEMP_TCP_MSG => 8
  | MEMP_SYS_TIMEOUT => 3
  end.

(** [struct memp] is one pointer. *)
Definition sizeof_memp : Z := 8.

Definition MEM_ALIGN (addr : Z) : Z := MEM_ALIGN_SIZE (u32 addr).

(** [stats.memp[t]]: 16-bit counters. *)
Record stats_memp := StatsMemp { ms_avail : Z; ms_used : Z; ms_max : Z; ms_err : Z; ms_reclaimed : Z }.

Record pools := Pools {
  memp_tab : memp_t → option Z;
  memp_next : gmap Z (option Z);
  memp_bytes : Z → Z;
  memp_mutex : Z;
  memp_reclaim_funcs : memp_t → list (Z * Z);
  memp_stats : memp_t → stats_memp
}.

(** An entry of a table indexed by the type. *)
Definition set_at {A} (t : memp_t) (v : A) (f : memp_t → A) : memp_t → A :=
  λ t', if decide (t' = t) then v else f t'.

Definition set_tab (t : memp_t) (v : option Z) (m : pools) : pools :=
  Pools (set_at t v (memp_tab m)) (memp_next m) (memp_bytes m) (memp_mutex m) (memp_reclaim_funcs m) (memp_stats m).
Definition set_header (h : Z) (v : option Z) (m : pools) : pools :=
  Pools (memp_tab m) (<[h := v]> (memp_next m)) (memp_bytes m) (memp_mutex m) (memp_reclaim_funcs m) (memp_stats m).
Definition set_bytes (b : Z → Z) (m : pools) : pools :=
  Pools (memp_tab m) (memp_next m) b (memp_mutex m) (memp_reclaim_funcs m) (memp_stats m).
Definition set_mutex (v : Z) (m : pools) : pools :=
  Pools (memp_tab m) (memp_next m) (memp_bytes m) v (memp_reclaim_funcs m) (memp_stats m).
Definition set_reclaimers (t : memp_t) (l : list (Z * Z)) (m : pools) : pools :=
  Pools (memp_tab m) (memp_next m) (memp_bytes m) (memp_mutex m) (set_at t l (memp_reclaim_funcs m)) (memp_stats m).
Definition set_count (t : memp_t) (f : stats_memp → stats_memp) (m : pools) : pools :=
  Pools (memp_tab m) (memp_next m) (memp_bytes m) (memp_mutex m) (memp_reclaim_funcs m)
    (set_at t (f (memp_stats m t)) (memp_stats m)).

Definition count_taken (s : stats_memp) : stats_memp :=
  let used := u16 (ms_used s + 1) in
  StatsMemp (ms_avail s) used (if ms_max s <? used then used else ms_max s) (ms_err s) (ms_reclaimed s).
Definition count_failed (s : stats_memp) : stats_memp :=
  StatsMemp (ms_avail s) (ms_used s) (ms_max s) (u16 (ms_err s + 1)) (ms_reclaimed s).
Definition count_freed (s : stats_memp) : stats_memp :=
  StatsMemp (ms_avail s) (u16 (ms_used s - 1)) (ms_max s) (ms_err s) (ms_reclaimed s).
Definition count_reclaimed (s : stats_memp) : stats_memp :=
  StatsMemp (ms_avail s) (ms_used s) (ms_max s) (ms_err s) (u16 (ms_reclaimed s + 1)).

Section pools.
(** [memp_sizes] and the address of [memp_memory]. *)
Context (memp_sizes : memp_t → Z) (memp_memory : Z).

(** The distance of the blocks of a pool, in the 16 bits of [size]. *)
Definition memp_stride (t : memp_t) : Z := u16 (MEM_ALIGN_SIZE (memp_sizes t + sizeof_memp)).

(** The inner loop of [memp_init]: link [n] blocks from [m] on; [memp] is the
    block before. *)
Fixpoint link_blocks (n : nat) (size memp m : Z) (hs : gmap Z (option Z)) : Z * Z * gmap Z (option Z) :=
  match n with
  | O => (memp, m, hs)
  | S n =>
      let next := MEM_ALIGN (m + size) in
      link_blocks n size m next (<[m := Some next]> hs)
  end.

Definition init_pool (st : Z * pools) (t : memp_t) : Z * pools :=
  let '(memp, s) := st in
  if 0 <? memp_num t then
    let '(last, m, hs) := link_blocks (Z.to_nat (memp_num t)) (memp_stride t) memp memp (memp_next s) in
    (m, set_tab t (Some memp)
          (Pools (memp_tab s) (<[last := None]> hs) (memp_bytes s) (memp_mutex s) (memp_reclaim_funcs s) (memp_stats s)))
  else (memp, set_tab t None s).

Definition memp_init (s : pools) : pools :=
  let s := Pools (memp_tab s) (memp_next s) (memp_bytes s) (memp_mutex s) (memp_reclaim_funcs s)
             (λ t, StatsMemp (memp_num t) 0 0 0 0) in
  let '(_, s) := foldl init_pool (memp_memory, s) memp_types in
  let s := set_mutex 1 s in
  Pools (memp_tab s) (memp_next s) (memp_bytes s) (memp_mutex s) (λ _, []) (memp_stats s).

Definition memp_malloc (t : memp_t) (m : pools) : option (option Z * pools) :=
  match memp_tab m t with
  | Some memp =>
      next ← memp_next m !! memp;
      let m := set_header memp None (set_tab t next m) in
      Some (Some (MEM_ALIGN (memp + sizeof_memp)), set_count t count_taken m)
  | None => Some (None, set_count t count_failed m)
  end.

Definition memp_free (t : memp_t) (mem : option Z) (m : pools) : option pools :=
  match mem with
  | None => Some m
  | Some mem =>
      let memp := mem - sizeof_memp in
      let m := set_count t count_freed m in
      _ ← memp_next m !! memp;
      Some (set_tab t (Some memp) (set_header memp (memp_tab m t) m))
  end.

(** [sys_sem_wait] and [sys_sem_signal] on [mutex]. *)
Definition memp_lock (m : pools) : option pools :=
  if memp_mutex m <=? 0 then None else Some (set_mutex (memp_mutex m - 1) m).
Definition memp_unlock (m : pools) : pools :=
  let c := memp_mutex m + 1 in set_mutex (if 1 <? c then 1 else c) m.

Definition memp_mallocp (t : memp_t) (m : pools) : option (option Z * pools) :=
  m ← memp_lock m; '(mem, m) ← memp_malloc t m; Some (mem, memp_unlock m).

Definition memp_freep (t : memp_t) (mem : option Z) (m : pools) : option pools :=
  m ← memp_lock m; m ← memp_free t mem m; Some (memp_unlock m).

Definition memp_bcopy (src dst n : Z) (m : pools) : pools :=
  set_bytes (λ o, if (dst <=? o) && (o <? dst + n) then memp_bytes m (src + (o - dst)) else memp_bytes m o) m.

Definition memp_realloc (fromtype totype : memp_t) (mem : option Z) (m : pools) : option (option Z * pools) :=
  match mem with
  | None => Some (None, m)
  | Some p =>
      '(rmem, m) ← memp_malloc totype m;
      match rmem with
      | None => Some (None, m)
      | Some q =>
          let size := if memp_sizes fromtype <? memp_sizes totype then memp_sizes fromtype else memp_sizes totype in
          m ← memp_free fromtype (Some p) (memp_bcopy p q size m);
          Some (Some q, m)
      end
  end.

(** The node of the list of reclaimers comes from [mem_malloc], with the given
    result. *)
Definition memp_register_reclaim (t : memp_t) (f arg : Z) (mr : bool) (m : pools) : pools :=
  if mr then set_reclaimers t ((f, arg) :: memp_reclaim_funcs m t) m else m.

Section reclaim.
(** A call of a registered function with its argument and the type. *)
Context (call : Z → Z → memp_t → pools → option (Z * pools)).

Fixpoint reclaim_funcs (t : memp_t) (l : list (Z * Z)) (m : pools) : option (Z * pools) :=
  match l with
  | [] => Some (0, m)
  | (f, arg) :: l =>
      '(r, m) ← call f arg t m;
      if negb (r =? 0) then Some (1, set_count t count_reclaimed m) else reclaim_funcs t l m
  end.

Definition memp_reclaim (t : memp_t) (m : pools) : option (Z * pools) :=
  reclaim_funcs t (memp_reclaim_funcs m t) m.

Definition memp_malloc2 (t : memp_t) (m : pools) : option (option Z * pools) :=
  '(mem, m) ← memp_malloc t m;
  match mem with
  | None => '(_, m) ← memp_reclaim t m; memp_malloc t m
  | Some p => Some (Some p, m)
  end.
End reclaim.
End pools.
