(* ===== verification/MempProps.v ===== *)
(** The pools as a client sees them: blocks of each type that are apart from each
    other, as many as the table says, handed out and taken back.

    [held] is the client's view, a map from the pointers it was given to their
    types; the linked lists of free blocks refine it from [memp_init] on. *)

From Stdlib Require Import ZArith Lia.
From stdpp Require Import base tactics numbers gmap option list.
From S2P Require Import Prelude Mem Linked Memp.

Local Open Scope Z_scope.

(** * The layout of the array *)

(** [n] headers at distance [size] from [m] on. *)
Fixpoint row (m size : Z) (n : nat) : list Z :=
  match n with O => [] | S n => m :: row (m + size) size n end.

Lemma elem_of_row m size n h :
  h ∈ row m size n ↔ ∃ i, 0 <= i < Z.of_nat n ∧ h = m + i * size.
Proof.
  revert m. induction n as [|n IH]; intros m; cbn [row].
  - rewrite elem_of_nil. split; [done|]. intros (i & Hi & _). lia.
  - rewrite elem_of_cons, IH. split.
    + intros [->|(i & Hi & ->)]; [exists 0; lia|exists (i + 1); lia].
    + intros (i & Hi & ->). destruct (decide (i = 0)) as [->|Hne]; [left; lia|]. right. exists (i - 1). lia.
Qed.

Lemma row_snoc m size n : row m size (S n) = row m size n ++ [m + Z.of_nat n * size].
Proof.
  revert m. induction n as [|n IH]; intros m; cbn [row].
  - by rewrite Z.mul_0_l, Z.add_0_r.
  - cbn [app]. f_equal. cbn [row] in IH. rewrite IH.
    by replace (m + Z.of_nat (S n) * size) with (m + size + Z.of_nat n * size) by lia.
Qed.

Section layout.
Context (memp_sizes : memp_t → Z) (memp_memory : Z).
Local Abbreviation stride := (memp_stride memp_sizes).
Local Abbreviation link_blocks := Memp.link_blocks.

(** The types and headers of all blocks of the pools [ts] from [m] on. *)
Fixpoint layout (m : Z) (ts : list memp_t) : list (memp_t * Z) :=
  match ts with
  | [] => []
  | t :: ts => ((t,.) <$> row m (stride t) (Z.to_nat (memp_num t))) ++ layout (m + memp_num t * stride t) ts
  end.

Definition memp_blocks : list (memp_t * Z) := layout memp_memory memp_types.

(** The length of [memp_memory]. *)
Fixpoint room (ts : list memp_t) : Z :=
  match ts with [] => 0 | t :: ts => memp_num t * stride t + room ts end.

(** The sizes fit 16 bits, and the array is aligned and lies below 2^32. *)
Class Placed : Prop := {
  sizes_positive : ∀ t, 0 < memp_sizes t <= 65500;
  memory_aligned : memp_memory mod MEM_ALIGNMENT = 0;
  memory_low : 0 < memp_memory ∧ memp_memory + room memp_types < 4294967296
}.

Context `{Placed}.

Lemma memp_num_positive t : 0 < memp_num t.
Proof. by destruct t. Qed.

Lemma align_size n : n <= MEM_ALIGN_SIZE n < n + 4 ∧ MEM_ALIGN_SIZE n mod MEM_ALIGNMENT = 0.
Proof.
  unfold MEM_ALIGN_SIZE, MEM_ALIGNMENT. destruct (n mod 4 =? 0) eqn:E; Z.to_euclidean_division_equations; lia.
Qed.

Lemma stride_ok t : memp_sizes t + sizeof_memp <= stride t ∧ stride t mod MEM_ALIGNMENT = 0.
Proof.
  unfold memp_stride. pose proof (align_size (memp_sizes t + sizeof_memp)) as [? ?].
  pose proof (sizes_positive t). unfold sizeof_memp in *. rewrite u16_small by (unfold is_u16; lia). lia.
Qed.

Lemma room_nonneg ts : 0 <= room ts.
Proof.
  induction ts as [|t ts IH]; cbn [room]; [done|]. pose proof (memp_num_positive t).
  pose proof (stride_ok t) as [? _]. pose proof (sizes_positive t). unfold sizeof_memp in *. nia.
Qed.

Lemma align_aligned a : 0 <= a < 4294967296 → a mod MEM_ALIGNMENT = 0 → MEM_ALIGN a = a.
Proof. intros Ha E. unfold MEM_ALIGN, MEM_ALIGN_SIZE. rewrite u32_small by (unfold is_u32; lia). rewrite E. cbn. lia. Qed.

Lemma aligned_step m t k : m mod MEM_ALIGNMENT = 0 → (m + k * stride t) mod MEM_ALIGNMENT = 0.
Proof.
  unfold MEM_ALIGNMENT. intros. pose proof (stride_ok t) as [_ E]. unfold MEM_ALIGNMENT in E.
  rewrite Z.add_mod, Z.mul_mod, E, Z.mul_0_r by lia. cbn. rewrite Z.add_0_r, Z.mod_mod by lia. done.
Qed.

(** A block lies between the start of its array and the end. *)
Lemma layout_bounds m ts t h :
  (t, h) ∈ layout m ts → m <= h ∧ h + stride t <= m + room ts.
Proof.
  revert m. induction ts as [|t' ts IH]; intros m; cbn [layout room]; [by intros ?%elem_of_nil|].
  pose proof (memp_num_positive t'). pose proof (stride_ok t') as [? _]. pose proof (sizes_positive t').
  pose proof (room_nonneg ts). unfold sizeof_memp in *.
  intros [Hr|Hr]%elem_of_app.
  - apply list_elem_of_fmap in Hr as (h' & [= -> ->] & Hr). apply elem_of_row in Hr as (i & Hi & ->). nia.
  - apply IH in Hr. nia.
Qed.

Lemma layout_aligned m ts t h : m mod MEM_ALIGNMENT = 0 → (t, h) ∈ layout m ts → h mod MEM_ALIGNMENT = 0.
Proof.
  revert m. induction ts as [|t' ts IH]; intros m Hm; cbn [layout]; [by intros ?%elem_of_nil|].
  intros [Hr|Hr]%elem_of_app; [|by eapply IH; [|exact Hr]; apply aligned_step].
  apply list_elem_of_fmap in Hr as (h' & [= -> ->] & Hr). apply elem_of_row in Hr as (i & _ & ->). by apply aligned_step.
Qed.

Lemma layout_apart m ts t1 h1 t2 h2 :
  (t1, h1) ∈ layout m ts → (t2, h2) ∈ layout m ts →
  (t1, h1) = (t2, h2) ∨ h1 + stride t1 <= h2 ∨ h2 + stride t2 <= h1.
Proof.
  revert m. induction ts as [|t ts IH]; intros m; cbn [layout]; [by intros ?%elem_of_nil|].
  assert (∀ t' h', (t', h') ∈ (t,.) <$> row m (stride t) (Z.to_nat (memp_num t)) →
    t' = t ∧ ∃ i, 0 <= i < memp_num t ∧ h' = m + i * stride t) as Hrow.
  { intros t' h' (? & [= -> ->] & Hr)%list_elem_of_fmap. split; [done|].
    apply elem_of_row in Hr as (i & Hi & ->). pose proof (memp_num_positive t). exists i. split; [lia|done]. }
  pose proof (stride_ok t) as [? _]. pose proof (sizes_positive t). unfold sizeof_memp in *.
  intros [Ha|Ha]%elem_of_app [Hb|Hb]%elem_of_app.
  - apply Hrow in Ha as (-> & i & Hi & ->). apply Hrow in Hb as (-> & j & Hj & ->).
    destruct (Z.lt_trichotomy i j) as [|[->|]]; [right; left; nia|by left|right; right; nia].
  - apply Hrow in Ha as (-> & i & Hi & ->). apply layout_bounds in Hb. right. left. nia.
  - apply Hrow in Hb as (-> & i & Hi & ->). apply layout_bounds in Ha. right. right. nia.
  - by eapply IH.
Qed.

(** * Initialisation *)

Lemma link_blocks_ok t n memp m hs :
  m mod MEM_ALIGNMENT = 0 → 0 <= m → m + Z.of_nat n * stride t < 4294967296 →
  ∃ hs', link_blocks n (stride t) memp m hs =
           (match n with O => memp | S n => m + Z.of_nat n * stride t end, m + Z.of_nat n * stride t, hs') ∧
    lseg (λ a, hs' !! a) (Some m) (row m (stride t) n) (Some (m + Z.of_nat n * stride t)) ∧
    ∀ a, a < m ∨ m + Z.of_nat n * stride t <= a → hs' !! a = hs !! a.
Proof.
  revert memp m hs. pose proof (stride_ok t) as [Hst Hal]. pose proof (sizes_positive t) as Hsz. unfold sizeof_memp in Hst.
  induction n as [|n IH]; intros memp m hs Hm H0 Hlt; cbn [Memp.link_blocks row lseg].
  - exists hs. split_and!; [f_equal; f_equal; lia|f_equal; lia|done].
  - assert (MEM_ALIGN (m + stride t) = m + stride t) as ->.
    { apply align_aligned; [nia|]. pose proof (aligned_step m t 1 Hm). by rewrite Z.mul_1_l in *. }
    destruct (IH m (m + stride t) (<[m := Some (m + stride t)]> hs)) as (hs' & -> & Hl & Hf).
    { pose proof (aligned_step m t 1 Hm). by rewrite Z.mul_1_l in *. } { lia. } { nia. }
    exists hs'. split_and!.
    + f_equal. f_equal; [destruct n; lia|lia].
    + done.
    + exists (Some (m + stride t)). rewrite Hf by lia. rewrite lookup_insert_eq. split; [done|].
      by replace (m + Z.of_nat (S n) * stride t) with (m + stride t + Z.of_nat n * stride t) by lia.
    + intros a Ha. rewrite Hf by nia. rewrite lookup_insert_ne by nia. done.
Qed.

(** The headers of a type. *)
Definition headers (m : Z) (ts : list memp_t) (t : memp_t) : list Z :=
  snd <$> filter (λ b, b.1 = t) (layout m ts).

Lemma elem_of_headers m ts t h : h ∈ headers m ts t ↔ (t, h) ∈ layout m ts.
Proof.
  unfold headers. rewrite list_elem_of_fmap. split.
  - intros ([t' h'] & -> & [Ht Hb]%list_elem_of_filter). cbn in *. by subst.
  - intros Hb. exists (t, h). split; [done|]. by apply list_elem_of_filter.
Qed.

Lemma filter_pair_same (t : memp_t) (l : list Z) : snd <$> filter (λ b, b.1 = t) ((t,.) <$> l) = l.
Proof. induction l as [|a l IH]; [done|]. cbn. rewrite decide_True by done. cbn. by f_equal. Qed.

Lemma filter_pair_other (t t' : memp_t) (l : list Z) : t ≠ t' → snd <$> filter (λ b, b.1 = t') ((t,.) <$> l) = [].
Proof. intros Hne. induction l as [|a l IH]; [done|]. cbn. by rewrite decide_False. Qed.

Lemma headers_cons m t ts t' :
  headers m (t :: ts) t' =
    (if decide (t' = t) then row m (stride t) (Z.to_nat (memp_num t)) else []) ++
    headers (m + memp_num t * stride t) ts t'.
Proof.
  unfold headers. cbn [layout]. rewrite filter_app, fmap_app. f_equal.
  case_decide as Hd; [subst; apply filter_pair_same|by apply filter_pair_other].
Qed.

Lemma headers_absent m ts t : t ∉ ts → headers m ts t = [].
Proof.
  revert m. induction ts as [|t' ts IH]; intros m; [done|]. rewrite not_elem_of_cons. intros [Hne Hn].
  rewrite headers_cons, decide_False, IH by done. done.
Qed.

Lemma init_pool_ok t m s :
  m mod MEM_ALIGNMENT = 0 → 0 <= m → m + memp_num t * stride t < 4294967296 →
  ∃ s', init_pool memp_sizes (m, s) t = (m + memp_num t * stride t, s') ∧
    linked (λ a, memp_next s' !! a) (memp_tab s' t) (row m (stride t) (Z.to_nat (memp_num t))) ∧
    (∀ t', t' ≠ t → memp_tab s' t' = memp_tab s t') ∧
    (∀ a, a < m ∨ m + memp_num t * stride t <= a → memp_next s' !! a = memp_next s !! a).
Proof.
  intros Hm H0 Hlt. pose proof (memp_num_positive t) as Hn. unfold init_pool.
  rewrite (proj2 (Z.ltb_lt _ _) Hn). destruct (Z.to_nat (memp_num t)) as [|n] eqn:En; [lia|].
  replace (memp_num t) with (Z.of_nat (S n)) in * by lia.
  destruct (link_blocks_ok t (S n) m m (memp_next s) Hm H0 Hlt) as (hs' & -> & Hl & Hf).
  pose proof (stride_ok t) as [Hst _]. pose proof (sizes_positive t) as Hsz. unfold sizeof_memp in Hst.
  eexists. split; [done|]. unfold set_tab, set_at. cbn [memp_tab memp_next]. rewrite decide_True by done. split_and!.
  - unfold linked. rewrite row_snoc in *. rewrite lseg_snoc in *. destruct Hl as [Hl _].
    split; [|by rewrite lookup_insert_eq]. eapply lseg_frame; [|exact Hl]. intros a Ha.
    apply elem_of_row in Ha as (i & Hi & ->). rewrite lookup_insert_ne by nia. done.
  - intros t' Hne. by rewrite decide_False.
  - intros a Ha. rewrite lookup_insert_ne by nia. by apply Hf.
Qed.

Lemma init_pools_ok ts m s :
  NoDup ts → m mod MEM_ALIGNMENT = 0 → 0 <= m → m + room ts < 4294967296 →
  let '(_, s') := foldl (init_pool memp_sizes) (m, s) ts in
  (∀ t, t ∈ ts → linked (λ a, memp_next s' !! a) (memp_tab s' t) (headers m ts t)) ∧
  (∀ t, t ∉ ts → memp_tab s' t = memp_tab s t) ∧
  (∀ a, a < m → memp_next s' !! a = memp_next s !! a).
Proof.
  revert m s. induction ts as [|t ts IH]; intros m s Hnd Hm H0 Hlt; [cbn; split_and!; [by intros ? ?%elem_of_nil|done|done]|].
  apply NoDup_cons in Hnd as [Hn Hnd]. cbn [room] in Hlt. pose proof (room_nonneg ts) as Hr. cbn [foldl].
  destruct (init_pool_ok t m s) as (s1 & -> & Hl & Htab & Hf); [done|done|lia|].
  pose proof (memp_num_positive t) as Hnum. pose proof (stride_ok t) as [Hst _]. pose proof (sizes_positive t) as Hsz.
  unfold sizeof_memp in Hst.
  specialize (IH (m + memp_num t * stride t) s1 Hnd (aligned_step _ _ _ Hm)).
  destruct (foldl _ _ ts) as [m' s']. destruct IH as (IHl & IHt & IHf); [nia|lia|]. split_and!.
  - intros t' Ht'. rewrite headers_cons. destruct (decide (t' = t)) as [->|Hne].
    + rewrite (headers_absent _ ts t Hn), app_nil_r, (IHt t Hn). eapply lseg_frame; [|exact Hl].
      intros a Ha. apply elem_of_row in Ha as (i & Hi & ->). apply IHf. nia.
    + apply elem_of_cons in Ht' as [->|Ht']; [done|]. by apply IHl.
  - intros t' [Hne Ht']%not_elem_of_cons. rewrite (IHt t' Ht'). by apply Htab.
  - intros a Ha. rewrite IHf by nia. apply Hf. by left.
Qed.

(** * The client's view *)

Local Abbreviation malloc := memp_malloc.
Local Abbreviation block := (headers memp_memory memp_types).

(** The free lists, and what is not on them is held. *)
Record pools_ok (m : pools) (held : gmap Z memp_t) (free : memp_t → list Z) : Prop := {
  ok_linked : ∀ t, linked (λ a, memp_next m !! a) (memp_tab m t) (free t);
  ok_free : ∀ t h, h ∈ free t → h ∈ block t ∧ held !! (h + sizeof_memp) = None;
  ok_held : ∀ t p, held !! p = Some t → p - sizeof_memp ∈ block t ∧ is_Some (memp_next m !! (p - sizeof_memp));
  ok_all : ∀ t h, h ∈ block t → h ∈ free t ∨ held !! (h + sizeof_memp) = Some t;
  ok_mutex : memp_mutex m = 1
}.

Lemma block_facts t h :
  h ∈ block t → memp_memory <= h ∧ h + sizeof_memp + memp_sizes t <= memp_memory + room memp_types ∧
    MEM_ALIGN (h + sizeof_memp) = h + sizeof_memp ∧ (h + sizeof_memp) mod MEM_ALIGNMENT = 0.
Proof.
  intros Hb%elem_of_headers. pose proof (layout_bounds _ _ _ _ Hb) as [? ?]. pose proof (stride_ok t) as [? _].
  pose proof (sizes_positive t). pose proof memory_low as [? ?]. unfold sizeof_memp in *.
  pose proof (layout_aligned _ _ _ _ memory_aligned Hb) as Hal.
  assert ((h + 8) mod MEM_ALIGNMENT = 0) by (unfold MEM_ALIGNMENT in *; Z.to_euclidean_division_equations; lia).
  split_and!; [lia|lia|apply align_aligned; [lia|done]|done].
Qed.

Lemma block_type t1 t2 h : h ∈ block t1 → h ∈ block t2 → t1 = t2.
Proof.
  rewrite !elem_of_headers. intros Ha Hb. destruct (layout_apart _ _ _ _ _ _ Ha Hb) as [[= ->]|Hor]; [done|].
  pose proof (stride_ok t1) as [? _]. pose proof (stride_ok t2) as [? _].
  pose proof (sizes_positive t1). pose proof (sizes_positive t2). unfold sizeof_memp in *. lia.
Qed.

Lemma set_at_eq {A} t (v : A) f : set_at t v f t = v.
Proof. unfold set_at. by rewrite decide_True. Qed.
Lemma set_at_ne {A} t t' (v : A) f : t' ≠ t → set_at t v f t' = f t'.
Proof. intros. unfold set_at. by rewrite decide_False. Qed.

Lemma init_ok s : pools_ok (memp_init memp_sizes memp_memory s) ∅ block.
Proof.
  unfold memp_init. pose proof memory_low as [? ?].
  pose proof (init_pools_ok memp_types memp_memory (Pools (memp_tab s) (memp_next s) (memp_bytes s) (memp_mutex s)
    (memp_reclaim_funcs s) (λ t, StatsMemp (memp_num t) 0 0 0 0))) as Hi.
  destruct (foldl _ _ _) as [m' s']. destruct Hi as (Hl & _); [|apply memory_aligned|lia|done|].
  { unfold memp_types. repeat (apply NoDup_cons; split; [set_solver|]). constructor. }
  split; cbn; [|done|done|by left|done]. intros t. apply Hl. destruct t; repeat constructor.
Qed.

Lemma malloc_ok m held free t :
  pools_ok m held free →
  ∃ r m', memp_malloc t m = Some (r, m') ∧ memp_bytes m' = memp_bytes m ∧
    match r with
    | None => (∀ h, h ∈ block t → held !! (h + sizeof_memp) = Some t) ∧ pools_ok m' held free
    | Some p => p - sizeof_memp ∈ block t ∧ held !! p = None ∧ ∃ free', pools_ok m' (<[p := t]> held) free'
    end.
Proof.
  intros Hok. pose proof (ok_linked _ _ _ Hok t) as Hl. unfold memp_malloc. destruct (memp_tab m t) as [h|] eqn:Et.
  - apply linked_head in Hl as (n & l & Hf & Hn & Hl). rewrite Hn. cbn.
    assert (h ∈ free t) as Hin by (rewrite Hf; constructor).
    destruct (ok_free _ _ _ Hok _ _ Hin) as [Hb Hnone]. destruct (block_facts _ _ Hb) as (_ & _ & -> & _).
    assert (NoDup (free t)) as Hnd by (eapply linked_NoDup; apply (ok_linked _ _ _ Hok)).
    rewrite Hf in Hnd. apply NoDup_cons in Hnd as [Hnin _].
    eexists _, _. split; [done|]. split; [done|]. split_and!; [|done|].
    { by replace (h + sizeof_memp - sizeof_memp) with h by lia. }
    exists (set_at t l free). split; cbn.
    + intros t'. destruct (decide (t' = t)) as [->|Hne].
      * rewrite !set_at_eq. eapply lseg_frame; [|exact Hl]. intros a Ha. rewrite lookup_insert_ne; [done|]. by intros ->.
      * rewrite !set_at_ne by done. eapply lseg_frame; [|apply (ok_linked _ _ _ Hok)]. intros a Ha.
        rewrite lookup_insert_ne; [done|]. intros ->. apply (ok_free _ _ _ Hok) in Ha as [Ha _].
        by destruct Hne; eapply block_type.
    + intros t' a Ha. assert (a ∈ free t' ∧ a ≠ h) as [Ha' Hne].
      { destruct (decide (t' = t)) as [->|Hne]; [rewrite set_at_eq in Ha; rewrite Hf; split; [by constructor|by intros ->]|].
        rewrite set_at_ne in Ha by done. split; [done|]. intros ->. apply (ok_free _ _ _ Hok) in Ha as [Ha _].
        by destruct Hne; eapply block_type. }
      rewrite lookup_insert_ne by lia. by apply (ok_free _ _ _ Hok).
    + intros t' p. rewrite lookup_insert_Some. intros [[<- <-]|[Hne Hp]].
      * replace (h + sizeof_memp - sizeof_memp) with h by lia. rewrite lookup_insert_eq. by split.
      * destruct (ok_held _ _ _ Hok _ _ Hp) as [? ?]. split; [done|]. by rewrite lookup_insert_ne by lia.
    + intros t' a Ha. destruct (decide (a = h)) as [->|Hne].
      * right. rewrite lookup_insert_eq. f_equal. by eapply block_type.
      * rewrite lookup_insert_ne by lia. destruct (ok_all _ _ _ Hok _ _ Ha) as [Hfr|]; [left|by right].
        destruct (decide (t' = t)) as [->|Hnt]; [|by rewrite set_at_ne]. rewrite set_at_eq.
        rewrite Hf in Hfr. by apply elem_of_cons in Hfr as [->|?].
    + apply (ok_mutex _ _ _ Hok).
  - apply lseg_nil_inv in Hl as [Hf _]. eexists _, _. split; [done|]. split; [done|]. split.
    + intros h Hb. destruct (ok_all _ _ _ Hok _ _ Hb) as [Hin|]; [|done]. rewrite Hf in Hin. by apply elem_of_nil in Hin.
    + destruct Hok as [H1 H2 H3 H4 H5]. split; done.
Qed.

Lemma free_ok m held free t p :
  pools_ok m held free → held !! p = Some t →
  ∃ m' free', memp_free t (Some p) m = Some m' ∧ memp_bytes m' = memp_bytes m ∧ pools_ok m' (delete p held) free'.
Proof.
  intros Hok Hp. destruct (ok_held _ _ _ Hok _ _ Hp) as [Hb [n Hn]]. unfold memp_free. cbn. rewrite Hn. cbn.
  set (h := p - sizeof_memp) in *. assert (p = h + sizeof_memp) as Ep by lia.
  assert (∀ t', h ∉ free t') as Hnin.
  { intros t' Hin. apply (ok_free _ _ _ Hok) in Hin as [_ Hin]. rewrite <-Ep in Hin. congruence. }
  eexists _, (set_at t (h :: free t) free). split; [done|]. split; [done|]. split; cbn.
  - intros t'. destruct (decide (t' = t)) as [->|Hne].
    + rewrite !set_at_eq. split; [done|]. exists (memp_tab m t). rewrite lookup_insert_eq. split; [done|].
      eapply lseg_frame; [|apply (ok_linked _ _ _ Hok)]. intros a Ha. rewrite lookup_insert_ne; [done|].
      intros ->. by apply (Hnin t).
    + rewrite !set_at_ne by done. eapply lseg_frame; [|apply (ok_linked _ _ _ Hok)]. intros a Ha.
      rewrite lookup_insert_ne; [done|]. intros ->. by apply (Hnin t').
  - intros t' a Ha. assert (a = h ∧ t' = t ∨ a ∈ free t') as [[-> ->]|Ha'].
    { destruct (decide (t' = t)) as [->|Hne]; [rewrite set_at_eq in Ha|rewrite set_at_ne in Ha by done; by right].
      apply elem_of_cons in Ha as [->|Ha]; [by left|by right]. }
    + split; [done|]. rewrite <-Ep. by rewrite lookup_delete_eq.
    + destruct (ok_free _ _ _ Hok _ _ Ha') as [? ?]. split; [done|]. apply lookup_delete_None. by right.
  - intros t' q [Hne Hq]%lookup_delete_Some. destruct (ok_held _ _ _ Hok _ _ Hq) as [? ?]. split; [done|].
    rewrite lookup_insert_ne by lia. done.
  - intros t' a Ha. destruct (decide (a = h)) as [->|Hne].
    + left. rewrite (block_type _ _ _ Ha Hb), set_at_eq. by constructor.
    + destruct (ok_all _ _ _ Hok _ _ Ha) as [Hfr|Hh]; [left|right; rewrite lookup_delete_ne by lia; done].
      destruct (decide (t' = t)) as [->|Hnt]; [rewrite set_at_eq; by constructor|by rewrite set_at_ne].
  - apply (ok_mutex _ _ _ Hok).
Qed.

Inductive memp_op :=
  | Malloc (t : memp_t)
  | Mallocp (t : memp_t)
  | Free (t : memp_t) (p : Z)
  | Freep (t : memp_t) (p : Z)
  | Realloc (fromtype totype : memp_t) (p : Z).

Definition run_op (op : memp_op) (m : pools) : option (option Z * pools) :=
  match op with
  | Malloc t => memp_malloc t m
  | Mallocp t => memp_mallocp t m
  | Free t p => m ← memp_free t (Some p) m; Some (None, m)
  | Freep t p => m ← memp_freep t (Some p) m; Some (None, m)
  | Realloc fromtype totype p => memp_realloc memp_sizes fromtype totype (Some p) m
  end.

(** A client gives back what it was given, with the right type. *)
Definition allowed (held : gmap Z memp_t) (op : memp_op) : Prop :=
  match op with
  | Malloc _ | Mallocp _ => True
  | Free t p | Freep t p | Realloc t _ p => held !! p = Some t
  end.

Definition track (op : memp_op) (r : option Z) (held : gmap Z memp_t) : gmap Z memp_t :=
  match op, r with
  | (Malloc t | Mallocp t), Some q => <[q := t]> held
  | (Free _ p | Freep _ p), _ => delete p held
  | Realloc _ t p, Some q => delete p (<[q := t]> held)
  | _, None => held
  end.

(** A new block of the type, unless all of them are held. *)
Definition new_block (t : memp_t) (held : gmap Z memp_t) (r : option Z) : Prop :=
  match r with
  | Some q => q - sizeof_memp ∈ block t ∧ held !! q = None
  | None => ∀ h, h ∈ block t → held !! (h + sizeof_memp) = Some t
  end.

Definition promised (op : memp_op) (held : gmap Z memp_t) (r : option Z) (m m' : pools) : Prop :=
  match op with
  | Malloc t | Mallocp t => new_block t held r
  | Free _ _ | Freep _ _ => r = None
  | Realloc fromtype totype p =>
      new_block totype held r ∧
      match r with
      | Some q => ∀ i, 0 <= i < Z.min (memp_sizes fromtype) (memp_sizes totype) →
          memp_bytes m' (q + i) = memp_bytes m (p + i)
      | None => True
      end
  end.

(** The blocks the client has keep their contents. *)
Definition contents_kept (held : gmap Z memp_t) (m m' : pools) : Prop :=
  ∀ p t i, held !! p = Some t → 0 <= i < memp_sizes t → memp_bytes m' (p + i) = memp_bytes m (p + i).

Inductive pools_reach : pools → gmap Z memp_t → Prop :=
  | reach_init s : pools_reach (memp_init memp_sizes memp_memory s) ∅
  | reach_op m held op r m' :
      pools_reach m held → allowed held op → run_op op m = Some (r, m') → pools_reach m' (track op r held)
  | reach_write m held p t i v :
      pools_reach m held → held !! p = Some t → 0 <= i < memp_sizes t →
      pools_reach (set_bytes (λ o, if o =? p + i then v else memp_bytes m o) m) held.

Lemma pools_ok_bytes m held free b : pools_ok m held free → pools_ok (set_bytes b m) held free.
Proof. intros [H1 H2 H3 H4 H5]. by split. Qed.

(** Alone, a call with the semaphore is the call without it. *)
Lemma mallocp_malloc t m : memp_mutex m = 1 → memp_mallocp t m = memp_malloc t m.
Proof.
  destruct m as [tab next bytes mu fs st]. cbn. intros ->. unfold memp_mallocp, memp_malloc. cbn.
  destruct (tab t) as [h|]; [|done]. cbn. by destruct (next !! h).
Qed.
Lemma freep_free t p m : memp_mutex m = 1 → memp_freep t (Some p) m = memp_free t (Some p) m.
Proof.
  destruct m as [tab next bytes mu fs st]. cbn. intros ->. unfold memp_freep, memp_free. cbn.
  by destruct (next !! (p - sizeof_memp)).
Qed.

(** The two ends of a block that is handed out. *)
Lemma held_apart t1 h1 t2 h2 i :
  h1 ∈ block t1 → h2 ∈ block t2 → h1 ≠ h2 → 0 <= i < memp_sizes t1 →
  ¬ (h2 <= h1 + sizeof_memp + i < h2 + sizeof_memp + memp_sizes t2).
Proof.
  rewrite !elem_of_headers. intros Ha Hb Hne Hi. pose proof (layout_apart _ _ _ _ _ _ Ha Hb) as Hor.
  pose proof (stride_ok t1) as [? _]. pose proof (stride_ok t2) as [? _]. unfold sizeof_memp in *.
  destruct Hor as [[= ? ?]|Hor]; [done|]. lia.
Qed.

Lemma malloc_op m held free t :
  pools_ok m held free →
  ∃ r m' free', memp_malloc t m = Some (r, m') ∧ new_block t held r ∧ memp_bytes m' = memp_bytes m ∧
    pools_ok m' (track (Malloc t) r held) free'.
Proof.
  intros Hok. destruct (malloc_ok m held free t Hok) as (r & m' & Hr & Hb & Hm). destruct r as [q|].
  - destruct Hm as (? & ? & free' & ?). by exists (Some q), m', free'.
  - destruct Hm. by exists None, m', free.
Qed.

Lemma realloc_op m held free t1 t2 p :
  pools_ok m held free → held !! p = Some t1 →
  ∃ r m' free', run_op (Realloc t1 t2 p) m = Some (r, m') ∧ promised (Realloc t1 t2 p) held r m m' ∧
    contents_kept held m m' ∧ pools_ok m' (track (Realloc t1 t2 p) r held) free'.
Proof.
  intros Hok Hp. destruct (malloc_op m held free t2 Hok) as (r & m1 & free1 & Hr & Hnew & Hb & Hok1).
  cbn [run_op memp_realloc]. rewrite Hr. cbn [mbind option_bind]. destruct r as [q|].
  2: { exists None, m1, free1. split; [done|]. split; [by split|]. split; [|done]. intros ? ? ? _ _. by rewrite Hb. }
  destruct Hnew as [Hq Hnone]. assert (q ≠ p) as Hqp by congruence.
  set (size := if memp_sizes t1 <? memp_sizes t2 then memp_sizes t1 else memp_sizes t2).
  assert (size = Z.min (memp_sizes t1) (memp_sizes t2)) as Esize by (subst size; case_match; lia).
  destruct (free_ok (memp_bcopy p q size m1) (<[q := t2]> held) free1 t1 p) as (m2 & free2 & -> & Hb2 & Hok2).
  { by apply pools_ok_bytes. } { by rewrite lookup_insert_ne. }
  assert (∀ o, memp_bytes m2 o = if (q <=? o) && (o <? q + size) then memp_bytes m (p + (o - q)) else memp_bytes m o) as Hbytes.
  { intros o. rewrite Hb2. cbn. by rewrite Hb. }
  exists (Some q), m2, free2. split; [done|]. split; [split; [by split|]|split; [|done]].
  - intros i Hi. rewrite Hbytes, (proj2 (Z.leb_le _ _)), (proj2 (Z.ltb_lt _ _)) by lia. cbn. f_equal. lia.
  - intros p' t' i Hp' Hi. rewrite Hbytes. destruct (ok_held _ _ _ Hok _ _ Hp') as [Hblk _].
    assert (p' ≠ q) as Hne by congruence.
    pose proof (held_apart _ _ _ _ i Hblk Hq) as Hap. unfold sizeof_memp in Hap.
    destruct (q <=? p' + i) eqn:E1, (p' + i <? q + size) eqn:E2; cbn; try done. exfalso. apply Hap; lia.
Qed.

Lemma memp_op_ok m held free op :
  pools_ok m held free → allowed held op →
  ∃ r m' free', run_op op m = Some (r, m') ∧ promised op held r m m' ∧ contents_kept held m m' ∧
    pools_ok m' (track op r held) free'.
Proof.
  intros Hok. pose proof (ok_mutex _ _ _ Hok) as Hmu.
  assert (∀ t r m1, memp_bytes m1 = memp_bytes m → contents_kept held m m1 ∧ track (Mallocp t) r held = track (Malloc t) r held) as Hk.
  { intros t r m1 E. split; [intros ? ? ? _ _; by rewrite E|by destruct r]. }
  destruct op as [t|t|t p|t p|t1 t2 p]; cbn [allowed run_op]; [intros _|intros _|intros Ha|intros Ha|by eapply realloc_op].
  - destruct (malloc_op m held free t Hok) as (r & m' & free' & Hr & Hn & Hb & Hok'). exists r, m', free'.
    split_and!; [done|done|by apply (Hk t r)|done].
  - rewrite mallocp_malloc by done. destruct (malloc_op m held free t Hok) as (r & m' & free' & Hr & Hn & Hb & Hok').
    exists r, m', free'. destruct (Hk t r m' Hb) as [? ->]. by split_and!.
  - destruct (free_ok m held free t p Hok Ha) as (m' & free' & -> & Hb & Hok'). exists None, m', free'.
    split_and!; [done|done|by apply (Hk t None)|done].
  - rewrite freep_free by done. destruct (free_ok m held free t p Hok Ha) as (m' & free' & -> & Hb & Hok').
    exists None, m', free'. split_and!; [done|done|by apply (Hk t None)|done].
Qed.

Lemma pools_reach_ok m held : pools_reach m held → ∃ free, pools_ok m held free.
Proof.
  induction 1 as [s|m held op r m' _ [free IH] Ha Hr|m held p t i v _ [free IH] _ _].
  - eexists. apply init_ok.
  - destruct (memp_op_ok _ _ _ _ IH Ha) as (r' & m1 & free' & Hr' & _ & _ & Hok). rewrite Hr in Hr'.
    injection Hr' as <- <-. by exists free'.
  - exists free. by apply pools_ok_bytes.
Qed.

(** C14: Whatever a client does with its own blocks, starting from [memp_init],
    each of [memp_malloc], [memp_mallocp], [memp_free], [memp_freep] and
    [memp_realloc] returns.  An allocation gives a block of the right pool that
    is not in use, and null only when the client holds every block of that pool;
    [memp_realloc] carries the contents over; the blocks the client has keep
    their contents. *)
Theorem memp_refines_pools m held op :
  pools_reach m held → allowed held op →
  ∃ r m', run_op op m = Some (r, m') ∧ promised op held r m m' ∧ contents_kept held m m' ∧
    pools_reach m' (track op r held).
Proof.
  intros Hr Ha. destruct (pools_reach_ok _ _ Hr) as [free Hok].
  destruct (memp_op_ok _ _ _ _ Hok Ha) as (r & m' & free' & Hrun & Hp & Hk & _).
  exists r, m'. split_and!; [done|done|done|]. by eapply reach_op.
Qed.

(** Two blocks that a client holds do not overlap, header and contents; each
    lies inside of the array and is aligned. *)
Theorem memp_blocks_apart m held p1 t1 p2 t2 :
  pools_reach m held → held !! p1 = Some t1 → held !! p2 = Some t2 →
  memp_memory + sizeof_memp <= p1 ∧ p1 + memp_sizes t1 <= memp_memory + room memp_types ∧ p1 mod MEM_ALIGNMENT = 0 ∧
  (p1 = p2 ∨ p1 + memp_sizes t1 <= p2 - sizeof_memp ∨ p2 + memp_sizes t2 <= p1 - sizeof_memp).
Proof.
  intros Hr H1 H2. destruct (pools_reach_ok _ _ Hr) as [free Hok].
  destruct (ok_held _ _ _ Hok _ _ H1) as [B1 _]. destruct (ok_held _ _ _ Hok _ _ H2) as [B2 _].
  destruct (block_facts _ _ B1) as (? & ? & _ & Hal). replace (p1 - sizeof_memp + sizeof_memp) with p1 in Hal by lia.
  split_and!; [lia|lia|done|]. apply elem_of_headers in B1, B2.
  destruct (layout_apart _ _ _ _ _ _ B1 B2) as [[= ? ?]|Hor]; [left; lia|right].
  pose proof (stride_ok t1) as [? _]. pose proof (stride_ok t2) as [? _]. lia.
Qed.
End layout.

(** * An instance *)

(** Sample sizes of the structures. *)
Definition sample_sizes (t : memp_t) : Z :=
  match t with
  | MEMP_PBUF => 32
  | MEMP_UDP_PCB => 48
  | MEMP_TCP_PCB => 256
  | MEMP_TCP_PCB_LISTEN => 40
  | MEMP_TCP_SEG => 40
  | MEMP_NETBUF => 40
  | MEMP_NETCONN => 80
  | MEMP_API_MSG => 64
  | MEMP_TCP_MSG => 40
  | MEMP_SYS_TIMEOUT => 32
  end.

#[global] Instance sample_placed : Placed sample_sizes 6291456.
Proof. split; [by intros []|done|by vm_compute]. Qed.

Definition pools0 : pools := Pools (λ _, None) ∅ (λ _, 0) 0 (λ _, []) (λ _, StatsMemp 0 0 0 0 0).

#[global] Instance memp_allowed_dec held op : Decision (allowed held op).
Proof. destruct op; cbn; apply _. Defined.

(** A client's run from [memp_init]. *)
Definition memp_step (st : pools * gmap Z memp_t) (op : memp_op) : option (pools * gmap Z memp_t) :=
  if decide (allowed st.2 op) then '(r, m) ← run_op sample_sizes op st.1; Some (m, track op r st.2) else None.

Definition memp_start : pools := memp_init sample_sizes 6291456 pools0.

Definition memp_run (ops : list memp_op) : option (pools * gmap Z memp_t) :=
  foldl (λ st op, st ← st; memp_step st op) (Some (memp_start, ∅)) ops.

Lemma memp_run_reach ops st : memp_run ops = Some st → pools_reach sample_sizes 6291456 st.1 st.2.
Proof.
  revert st. induction ops as [|op ops IH] using rev_ind; intros st.
  - intros [= <-]. apply reach_init.
  - unfold memp_run. rewrite foldl_app. cbn. fold (memp_run ops). destruct (memp_run ops) as [[m held]|]; [|done].
    cbn. unfold memp_step. case_decide as Ha; [|done]. cbn in *.
    destruct (run_op sample_sizes op m) as [[r m']|] eqn:Er; [|done]. intros [= <-]. cbn.
    eapply reach_op; [exact (IH (m, held) eq_refl)|done|done].
Qed.

(** All four blocks for UDP are held, one of them is given back. *)
Definition sample_ops : list memp_op :=
  [Malloc MEMP_UDP_PCB; Mallocp MEMP_UDP_PCB; Malloc MEMP_TCP_SEG; Malloc MEMP_UDP_PCB; Malloc MEMP_UDP_PCB;
   Realloc MEMP_TCP_SEG MEMP_NETBUF 6315720].

Lemma memp_refines_pools_witness :
  ∃ m held, pools_reach sample_sizes 6291456 m held ∧
    ∃ r m', run_op sample_sizes (Malloc MEMP_UDP_PCB) m = Some (r, m') ∧
      promised sample_sizes 6291456 (Malloc MEMP_UDP_PCB) held r m m' ∧ r = None.
Proof.
  assert (fst <$> (memp_run sample_ops ≫= λ st, run_op sample_sizes (Malloc MEMP_UDP_PCB) st.1) = Some None) as Hnone
    by (vm_compute; reflexivity).
  destruct (memp_run sample_ops) as [[m held]|] eqn:E; [|discriminate Hnone].
  exists m, held. pose proof (memp_run_reach _ _ E) as Hr. split; [exact Hr|].
  destruct (memp_refines_pools sample_sizes 6291456 m held (Malloc MEMP_UDP_PCB) Hr I) as (r & m' & Hrun & Hp & _).
  exists r, m'. split; [exact Hrun|]. split; [exact Hp|].
  cbn [mbind option_bind fst] in Hnone. rewrite Hrun in Hnone. injection Hnone as Hnone. exact Hnone.
Defined.

Lemma memp_blocks_apart_witness :
  ∃ m held, pools_reach sample_sizes 6291456 m held ∧
    (6311944 = 6315720 ∨ 6311944 + 48 <= 6315720 - 8 ∨ 6315720 + 40 <= 6311944 - 8).
Proof.
  assert ((λ st : pools * gmap Z memp_t, (st.2 !! 6311944, st.2 !! 6315720)) <$>
            memp_run [Malloc MEMP_UDP_PCB; Malloc MEMP_TCP_SEG] = Some (Some MEMP_UDP_PCB, Some MEMP_TCP_SEG)) as Hh
    by (vm_compute; reflexivity).
  destruct (memp_run _) as [[m held]|] eqn:E; [|discriminate Hh]. injection Hh as H1 H2.
  pose proof (memp_run_reach _ _ E) as Hr. exists m, held. split; [exact Hr|].
  apply (memp_blocks_apart sample_sizes 6291456 m held _ _ _ _ Hr H1 H2).
Defined.

(** On a machine where the array lies above 2^32 the first block is not the one
    behind the first header: the address loses its upper half. *)
Example memp_high_array_truncated :
  fst <$> memp_malloc MEMP_PBUF (memp_init sample_sizes 0x555555558000 pools0) = Some (Some 0x55558008).
Proof. vm_compute. reflexivity. Qed.
