(* ===== verification/Store.v ===== *)
(** What the packet buffers need of the allocators below them, as an interface:
    a store hands out blocks that do not overlap and takes them back.  The memory
    manager (lwtcp/mem.c) and the pool of buffer structures (lwtcp/memp.c)
    implement it. *)

From Stdlib Require Import ZArith Lia.
From stdpp Require Import base tactics numbers gmap option list.
From S2P Require Import Prelude Mem MemSpec MemProps Linked Memp MempProps.

Local Open Scope Z_scope.

(** [None] is a call that does not return; a null pointer is [Some (None, _)]. *)
Class Store (S : Type) := {
  store_malloc : Z → S → option (option Z * S);
  store_free : Z → S → option S
}.

Class Shrink (S : Type) := store_shrink : Z → Z → S → option S.

(** The blocks in use, with their sizes, are what the client asked for; sizes up
    to [limit] are served. *)
Class StoreLaws (S : Type) `{Store S} (limit : Z) (holds : S → gmap Z Z → Prop) : Prop := {
  store_malloc_ok s b n :
    holds s b → 0 < n <= limit →
    ∃ r s', store_malloc n s = Some (r, s') ∧
      match r with
      | None => holds s' b
      | Some p => b !! p = None ∧ (∀ q k, b !! q = Some k → p + n <= q ∨ q + k <= p) ∧ holds s' (<[p := n]> b)
      end;
  store_free_ok s b p n :
    holds s b → b !! p = Some n → ∃ s', store_free p s = Some s' ∧ holds s' (delete p b)
}.

Class ShrinkLaws (S : Type) `{Shrink S} (holds : S → gmap Z Z → Prop) : Prop :=
  store_shrink_ok s b p n k :
    holds s b → b !! p = Some n → is_u32 k →
    ∃ s', store_shrink p k s = Some s' ∧ holds s' (<[p := Z.min n k]> b).

(** * The heap *)

Definition done_of {A} (o : Mem.outcome A) : option (A * heap) :=
  match o with Done a h => Some (a, h) | Crash _ => None end.

#[global] Instance heap_store : Store heap := {
  store_malloc n h := done_of (mem_malloc n h);
  store_free p h := snd <$> done_of (mem_free (Some p) h)
}.

#[global] Instance heap_shrink : Shrink heap := λ p k h, snd <$> done_of (mem_realloc p k h).

(** The client's blocks are at least as long as it asked for. *)
Definition heap_holds (h : heap) (b : gmap Z Z) : Prop :=
  ∃ bl, MemProps.refines h bl ∧ (∀ p, is_Some (b !! p) ↔ is_Some (bl !! p)) ∧
    ∀ p n d, b !! p = Some n → bl !! p = Some d → n <= Z.of_nat (length d).

Lemma hm_bind_inv {A B} (m : HM A) (f : A → HM B) h c h' :
  (m ≫= f) h = Done c h' → ∃ a h1, m h = Done a h1 ∧ f a h1 = Done c h'.
Proof. unfold mbind, hm_bind. destruct (m h) as [a h1|]; [by exists a, h1|done]. Qed.

#[global] Instance heap_store_laws : StoreLaws heap 100000 heap_holds.
Proof.
  split.
  - intros h b n (bl & Href & Hdom & Hlen) Hn.
    destruct (op_refines h bl (MemProps.Malloc n) Href) as (r & h' & Hrun & Href' & Hp); [cbn; unfold is_u32; lia|].
    cbn [MemProps.run_op] in Hrun. exists r, h'. cbn. rewrite Hrun. split; [done|]. destruct r as [p|].
    + cbn in Hp. destruct Hp as (Hnone & H12 & Hend & Hap).
      assert (n <= round_size n) as Hr by (destruct (round_size_val n); [unfold is_u32; lia|lia|lia]).
      split; [apply eq_None_not_Some; rewrite Hdom, Hnone; by intros [? ?]|]. split.
      * intros q k Hq. destruct (proj1 (Hdom q)) as [d Hd]; [by eexists|].
        pose proof (Hap q d Hd) as [?|?]; pose proof (Hlen q k d Hq Hd); lia.
      * exists (<[p := contents (ram h') p (round_size n)]> bl). split; [done|]. split.
        -- intros q. rewrite !lookup_insert_is_Some. destruct (decide (p = q)); naive_solver.
        -- intros q m d. rewrite !lookup_insert_Some. intros [[<- <-]|[Hne Hq]] [[? <-]|[? Hd]]; [| |by subst|by eapply Hlen].
           ++ rewrite length_contents. lia.
           ++ done.
    + by exists bl.
  - intros h b p n (bl & Href & Hdom & Hlen) Hp. destruct (proj1 (Hdom p)) as [d Hd]; [by eexists|].
    destruct (op_refines h bl (MemProps.Free p) Href) as (r & h' & Hrun & Href' & _); [by eexists|].
    cbn [MemProps.run_op] in Hrun. apply hm_bind_inv in Hrun as ([] & h1 & E & [= <- <-]). exists h1. cbn [store_free heap_store]. rewrite E. split; [done|].
    exists (delete p bl). split; [done|]. split.
    + intros q. rewrite !lookup_delete_is_Some. naive_solver.
    + intros q k d'. rewrite !lookup_delete_Some. intros [_ ?] [_ ?]. by eapply Hlen.
Qed.

#[global] Instance heap_shrink_laws : ShrinkLaws heap heap_holds.
Proof.
  intros h b p n k (bl & Href & Hdom & Hlen) Hp Hk. destruct (proj1 (Hdom p)) as [d Hd]; [by eexists|].
  destruct (op_refines h bl (MemProps.Realloc p k) Href) as (r & h' & Hrun & Href' & _); [split; [by eexists|done]|].
  cbn [MemProps.run_op] in Hrun. apply hm_bind_inv in Hrun as (q & h1 & E & [= <- <-]).
  exists h1. unfold store_shrink, heap_shrink. rewrite E. split; [done|].
  eexists. split; [done|]. cbn [MemProps.track]. split.
  - intros q'. rewrite lookup_insert_is_Some, lookup_alter_is_Some, <-Hdom. destruct (decide (p = q')) as [<-|]; naive_solver.
  - intros q' m d' [[<- <-]|[Hne Hq]]%lookup_insert_Some.
    + rewrite lookup_alter_eq, Hd. intros [= <-]. rewrite length_take. pose proof (Hlen _ _ _ Hp Hd). unfold is_u32 in *. lia.
    + rewrite lookup_alter_ne by done. by apply Hlen.
Qed.

(** * The pool of buffer structures *)

Section memp_store.
Context (memp_sizes : memp_t → Z) (memp_memory : Z) `{Placed memp_sizes memp_memory}.

(** [memp_mallocp(MEMP_PBUF)]; all blocks have the same size. *)
#[global] Instance memp_store : Store pools := {
  store_malloc n m := memp_mallocp MEMP_PBUF m;
  store_free p m := memp_freep MEMP_PBUF (Some p) m
}.

(** Other clients hold blocks of other types. *)
Definition memp_holds (m : pools) (b : gmap Z Z) : Prop :=
  ∃ held free, pools_ok memp_sizes memp_memory m held free ∧
    (∀ p, is_Some (b !! p) ↔ held !! p = Some MEMP_PBUF) ∧ ∀ p n, b !! p = Some n → n <= memp_sizes MEMP_PBUF.

#[global] Instance memp_store_laws : StoreLaws pools (memp_sizes MEMP_PBUF) memp_holds.
Proof.
  split.
  - intros m b n (held & free & Hok & Hdom & Hlen) Hn.
    destruct (malloc_op memp_sizes memp_memory m held free MEMP_PBUF Hok) as (r & m' & free' & Hr & Hnew & _ & Hok').
    exists r, m'. cbn [store_malloc memp_store]. rewrite mallocp_malloc by apply (ok_mutex _ _ _ _ _ Hok). split; [done|].
    destruct r as [p|]; [|by exists held, free']. destruct Hnew as [Hblk Hnone]. cbn in Hok'. split_and!.
    + apply eq_None_not_Some. rewrite Hdom. congruence.
    + intros q k Hq. pose proof (proj1 (Hdom q) (mk_is_Some _ _ Hq)) as Hq'. pose proof (Hlen _ _ Hq).
      destruct (ok_held _ _ _ _ _ Hok' MEMP_PBUF p) as [B1 _]; [by rewrite lookup_insert_eq|].
      destruct (ok_held _ _ _ _ _ Hok _ _ Hq') as [B2 _].
      apply elem_of_headers in B1, B2. destruct (layout_apart memp_sizes memp_memory _ _ _ _ _ _ B1 B2) as [[= E]|Hor].
      { exfalso. assert (p = q) as -> by lia. congruence. }
      pose proof (stride_ok memp_sizes memp_memory MEMP_PBUF) as [? _]. unfold sizeof_memp in *. lia.
    + exists (<[p := MEMP_PBUF]> held), free'. split_and!; [done| |].
      * intros q. rewrite lookup_insert_is_Some, lookup_insert_Some, Hdom. naive_solver.
      * intros q k [[<- <-]|[_ Hq]]%lookup_insert_Some; [lia|by eapply Hlen].
  - intros m b p n (held & free & Hok & Hdom & Hlen) Hp. pose proof (proj1 (Hdom p) (mk_is_Some _ _ Hp)) as Hp'.
    destruct (free_ok memp_sizes memp_memory m held free _ _ Hok Hp') as (m' & free' & Hr & _ & Hok').
    exists m'. cbn [store_free memp_store]. rewrite freep_free by apply (ok_mutex _ _ _ _ _ Hok). split; [done|].
    exists (delete p held), free'. split_and!; [done| |].
    + intros q. rewrite lookup_delete_is_Some, lookup_delete_Some, Hdom. naive_solver.
    + intros q k [_ Hq]%lookup_delete_Some. by eapply Hlen.
Qed.
End memp_store.
