(* ===== verification/Pbuf.v ===== *)
(** The packet buffers of the TCP stack (lwtcp/pbuf.c, lwip/pbuf.h).

    A packet is a chain of structures, linked by [next]; the structures live in
    the heap, in the pool for buffers that refer to data elsewhere, or in the
    static array of this file.  A pointer is an area with an offset into it;
    every area is aligned and lies below 2^32.  [structs] holds the structures
    that exist: reading one that does not, following the null pointer and
    waiting for the semaphore while it is taken are the result [None].  The two
    allocators are parameters of the model, through the interface of the file
    Store.  [ASSERT] expands to nothing, as [LWIP_DEBUG] is not defined. *)

From Stdlib Require Import ZArith Lia.
From stdpp Require Import base tactics numbers gmap option list.
From S2P Require Import Prelude Mem Store.

Local Open Scope Z_scope.

(** Where a pointer points: into [ram], [memp_memory], [pbuf_pool_memory] or to
    data elsewhere. *)
Inductive area := RAM | MEMP | POOL | ROM.

#[global] Instance area_eq_dec : EqDecision area.
Proof. solve_decision. Defined.
#[global] Instance area_countable : Countable area.
Proof.
  refine (inj_countable' (λ a, match a with RAM => 0 | MEMP => 1 | POOL => 2 | ROM => 3 end)
    (λ n, match n with 0 => RAM | 1 => MEMP | 2 => POOL | _ => ROM end) _).
  by intros [].
Defined.

Abbreviation ptr := (area * Z)%type.

Definition ptr_add (p : ptr) (n : Z) : ptr := (p.1, p.2 + n).
Definition ptr_align (p : ptr) : ptr := (p.1, MEM_ALIGN_SIZE p.2).

Inductive pbuf_layer := PBUF_TRANSPORT | PBUF_IP | PBUF_LINK | PBUF_RAW.
Inductive pbuf_flag := PBUF_RAM | PBUF_ROM | PBUF_POOL.

(** The values of the field [flags]; memory that was never written reads as the
    first. *)
Inductive pbuf_kind := PBUF_FLAG_RAM | PBUF_FLAG_ROM | PBUF_FLAG_POOL.

#[global] Instance pbuf_kind_eq_dec : EqDecision pbuf_kind.
Proof. solve_decision. Defined.

Record pbuf := Pbuf {
  next : option ptr;
  kind : pbuf_kind;
  ref : Z;
  payload : option ptr;
  tot_len : Z;
  len : Z
}.

Definition sizeof_pbuf : Z := 32.
Definition PBUF_TRANSPORT_HLEN : Z := 20.
Definition PBUF_IP_HLEN : Z := 20.
Definition PBUF_LINK_HLEN : Z := 16.
Definition PBUF_POOL_SIZE : Z := 6.
Definition PBUF_POOL_BUFSIZE : Z := 128.

Definition set_next (v : option ptr) (b : pbuf) : pbuf := Pbuf v (kind b) (ref b) (payload b) (tot_len b) (len b).
Definition set_kind (v : pbuf_kind) (b : pbuf) : pbuf := Pbuf (next b) v (ref b) (payload b) (tot_len b) (len b).
Definition set_ref (v : Z) (b : pbuf) : pbuf := Pbuf (next b) (kind b) v (payload b) (tot_len b) (len b).
Definition set_payload (v : option ptr) (b : pbuf) : pbuf := Pbuf (next b) (kind b) (ref b) v (tot_len b) (len b).
Definition set_tot_len (v : Z) (b : pbuf) : pbuf := Pbuf (next b) (kind b) (ref b) (payload b) v (len b).
Definition set_len (v : Z) (b : pbuf) : pbuf := Pbuf (next b) (kind b) (ref b) (payload b) (tot_len b) v.

(** [stats.pbuf]: 16-bit counters. *)
Record stats_pbuf := StatsPbuf {
  pt_avail : Z; pt_used : Z; pt_max : Z; pt_err : Z; pt_alloc_locked : Z; pt_refresh_locked : Z
}.

Definition count_pbuf_used (d : Z) (s : stats_pbuf) : stats_pbuf :=
  StatsPbuf (pt_avail s) (u16 (pt_used s + d)) (pt_max s) (pt_err s) (pt_alloc_locked s) (pt_refresh_locked s).
Definition count_pbuf_taken (s : stats_pbuf) : stats_pbuf :=
  let used := u16 (pt_used s + 1) in
  StatsPbuf (pt_avail s) used (if pt_max s <? used then used else pt_max s) (pt_err s) (pt_alloc_locked s)
    (pt_refresh_locked s).
Definition count_pbuf_err (s : stats_pbuf) : stats_pbuf :=
  StatsPbuf (pt_avail s) (pt_used s) (pt_max s) (u16 (pt_err s + 1)) (pt_alloc_locked s) (pt_refresh_locked s).
Definition count_alloc_locked (s : stats_pbuf) : stats_pbuf :=
  StatsPbuf (pt_avail s) (pt_used s) (pt_max s) (pt_err s) (u16 (pt_alloc_locked s + 1)) (pt_refresh_locked s).
Definition count_refresh_locked (s : stats_pbuf) : stats_pbuf :=
  StatsPbuf (pt_avail s) (pt_used s) (pt_max s) (pt_err s) (pt_alloc_locked s) (u16 (pt_refresh_locked s + 1)).

Section pbufs.
(** The heap, the pool of structures, and the address of each area. *)
Context {R S : Type} `{Store R, Shrink R, Store S} (base : area → Z).

Record bufs := Bufs {
  structs : gmap ptr pbuf;
  pbuf_pool : option ptr;
  pbuf_pool_alloc_cache : option ptr;
  pbuf_pool_free_cache : option ptr;
  pbuf_pool_alloc_lock : Z;
  pbuf_pool_free_lock : Z;
  pbuf_pool_free_sem : Z;
  pbuf_stats : stats_pbuf;
  ram_store : R;
  memp_store : S
}.

(** State with faults. *)
Definition PM (A : Type) : Type := bufs → option (A * bufs).

#[global] Instance pm_ret : MRet PM := λ A a s, Some (a, s).
#[global] Instance pm_bind : MBind PM := λ A B f m s, match m s with Some (a, s) => f a s | None => None end.

Definition gets {A} (f : bufs → A) : PM A := λ s, Some (f s, s).
Definition modify (f : bufs → bufs) : PM unit := λ s, Some (tt, f s).
Definition fault {A} : PM A := λ _, None.

Definition with_structs (m : gmap ptr pbuf) (s : bufs) : bufs :=
  Bufs m (pbuf_pool s) (pbuf_pool_alloc_cache s) (pbuf_pool_free_cache s) (pbuf_pool_alloc_lock s)
    (pbuf_pool_free_lock s) (pbuf_pool_free_sem s) (pbuf_stats s) (ram_store s) (memp_store s).
Definition with_pool (v : option ptr) (s : bufs) : bufs :=
  Bufs (structs s) v (pbuf_pool_alloc_cache s) (pbuf_pool_free_cache s) (pbuf_pool_alloc_lock s)
    (pbuf_pool_free_lock s) (pbuf_pool_free_sem s) (pbuf_stats s) (ram_store s) (memp_store s).
Definition with_alloc_cache (v : option ptr) (s : bufs) : bufs :=
  Bufs (structs s) (pbuf_pool s) v (pbuf_pool_free_cache s) (pbuf_pool_alloc_lock s)
    (pbuf_pool_free_lock s) (pbuf_pool_free_sem s) (pbuf_stats s) (ram_store s) (memp_store s).
Definition with_free_cache (v : option ptr) (s : bufs) : bufs :=
  Bufs (structs s) (pbuf_pool s) (pbuf_pool_alloc_cache s) v (pbuf_pool_alloc_lock s)
    (pbuf_pool_free_lock s) (pbuf_pool_free_sem s) (pbuf_stats s) (ram_store s) (memp_store s).
Definition with_alloc_lock (v : Z) (s : bufs) : bufs :=
  Bufs (structs s) (pbuf_pool s) (pbuf_pool_alloc_cache s) (pbuf_pool_free_cache s) v
    (pbuf_pool_free_lock s) (pbuf_pool_free_sem s) (pbuf_stats s) (ram_store s) (memp_store s).
Definition with_free_lock (v : Z) (s : bufs) : bufs :=
  Bufs (structs s) (pbuf_pool s) (pbuf_pool_alloc_cache s) (pbuf_pool_free_cache s) (pbuf_pool_alloc_lock s)
    v (pbuf_pool_free_sem s) (pbuf_stats s) (ram_store s) (memp_store s).
Definition with_sem (v : Z) (s : bufs) : bufs :=
  Bufs (structs s) (pbuf_pool s) (pbuf_pool_alloc_cache s) (pbuf_pool_free_cache s) (pbuf_pool_alloc_lock s)
    (pbuf_pool_free_lock s) v (pbuf_stats s) (ram_store s) (memp_store s).
Definition count (f : stats_pbuf → stats_pbuf) (s : bufs) : bufs :=
  Bufs (structs s) (pbuf_pool s) (pbuf_pool_alloc_cache s) (pbuf_pool_free_cache s) (pbuf_pool_alloc_lock s)
    (pbuf_pool_free_lock s) (pbuf_pool_free_sem s) (f (pbuf_stats s)) (ram_store s) (memp_store s).
Definition with_ram (v : R) (s : bufs) : bufs :=
  Bufs (structs s) (pbuf_pool s) (pbuf_pool_alloc_cache s) (pbuf_pool_free_cache s) (pbuf_pool_alloc_lock s)
    (pbuf_pool_free_lock s) (pbuf_pool_free_sem s) (pbuf_stats s) v (memp_store s).
Definition with_memp (v : S) (s : bufs) : bufs :=
  Bufs (structs s) (pbuf_pool s) (pbuf_pool_alloc_cache s) (pbuf_pool_free_cache s) (pbuf_pool_alloc_lock s)
    (pbuf_pool_free_lock s) (pbuf_pool_free_sem s) (pbuf_stats s) (ram_store s) v.

(** [*p], and an assignment to fields of it. *)
Definition get (p : ptr) : PM pbuf := λ s, match structs s !! p with Some b => Some (b, s) | None => None end.
Definition put (p : ptr) (f : pbuf → pbuf) : PM unit := λ s,
  match structs s !! p with Some b => Some (tt, with_structs (<[p := f b]> (structs s)) s) | None => None end.

(** A structure comes into being with the memory for it, and goes with it. *)
Definition create (p : ptr) (b : pbuf) : PM unit := modify (λ s, with_structs (<[p := b]> (structs s)) s).
Definition destroy (p : ptr) : PM unit := modify (λ s, with_structs (delete p (structs s)) s).

Definition ram_malloc (n : Z) : PM (option ptr) := λ s,
  match store_malloc n (ram_store s) with Some (r, st) => Some (pair RAM <$> r, with_ram st s) | None => None end.
Definition ram_free (p : ptr) : PM unit := λ s,
  match store_free p.2 (ram_store s) with Some st => Some (tt, with_ram st s) | None => None end.
Definition ram_shrink (p : ptr) (n : Z) : PM unit := λ s,
  match store_shrink p.2 n (ram_store s) with Some st => Some (tt, with_ram st s) | None => None end.
Definition pbuf_malloc : PM (option ptr) := λ s,
  match store_malloc sizeof_pbuf (memp_store s) with
  | Some (r, st) => Some (pair MEMP <$> r, with_memp st s)
  | None => None
  end.
Definition pbuf_mfree (p : ptr) : PM unit := λ s,
  match store_free p.2 (memp_store s) with Some st => Some (tt, with_memp st s) | None => None end.

(** No walk over a chain is longer than there are structures. *)
Definition walk_fuel (s : bufs) : nat := Datatypes.S (size (structs s)).

(** * Initialisation *)

(** The loop of [pbuf_init]: the structure at [p] and those behind it. *)
Fixpoint link_pool (n : nat) (p q : ptr) (m : gmap ptr pbuf) : ptr * gmap ptr pbuf :=
  match n with
  | O => (q, m)
  | Datatypes.S n =>
      let p' := ptr_add p (PBUF_POOL_BUFSIZE + sizeof_pbuf) in
      let old := default (Pbuf None PBUF_FLAG_RAM 0 None 0 0) (m !! p) in
      let b := Pbuf (Some p') (kind old) (ref old) (Some (ptr_align (ptr_add p sizeof_pbuf)))
                 PBUF_POOL_BUFSIZE PBUF_POOL_BUFSIZE in
      link_pool n p' p (<[p := b]> m)
  end.

Definition pbuf_init (s : bufs) : bufs :=
  let pool := (POOL, 0) in
  let '(q, m) := link_pool (Z.to_nat PBUF_POOL_SIZE) pool pool (structs s) in
  let m := alter (set_next None) q m in
  let st := pbuf_stats s in
  Bufs m (Some pool) (pbuf_pool_alloc_cache s) (pbuf_pool_free_cache s) 0 0 1
    (StatsPbuf PBUF_POOL_SIZE (pt_used st) (pt_max st) (pt_err st) (pt_alloc_locked st) (pt_refresh_locked st))
    (ram_store s) (memp_store s).

(** * The pool *)

(** The first buffer of the list [p], whose rest is stored by [rest]. *)
Definition take_first (p : option ptr) (rest : option ptr → bufs → bufs) : PM (option ptr) :=
  match p with
  | None => mret None
  | Some a => b ← get a; modify (rest (next b));; mret (Some a)
  end.

Definition pbuf_pool_alloc : PM (option ptr) :=
  cache ← gets pbuf_pool_alloc_cache;
  locked ← gets pbuf_pool_free_lock;
  p ← (match cache with
       | Some _ => take_first cache with_alloc_cache
       | None =>
           if negb (locked =? 0) then modify (count count_alloc_locked);; mret None
           else
             modify (λ s, with_alloc_lock (u8 (pbuf_pool_alloc_lock s + 1)) s);;
             locked ← gets pbuf_pool_free_lock;
             p ← (if locked =? 0 then pool ← gets pbuf_pool; take_first pool with_pool
                  else modify (count count_alloc_locked);; mret None);
             modify (λ s, with_alloc_lock (u8 (pbuf_pool_alloc_lock s - 1)) s);;
             mret p
       end);
  match p with
  | Some _ => modify (count count_pbuf_taken)
  | None => mret tt
  end;;
  mret p.

(** [for(q = p; q->next != NULL; q = q->next)]. *)
Fixpoint last_of (fuel : nat) (p : ptr) : PM ptr :=
  match fuel with
  | O => fault
  | Datatypes.S fuel =>
      b ← get p;
      match next b with None => mret p | Some q => last_of fuel q end
  end.

(** [for(q = p; q != NULL; q = q->next) n++], which also counts in statistics. *)
Fixpoint chain_length (fuel : nat) (p : option ptr) : PM Z :=
  match p with
  | None => mret 0
  | Some a =>
      match fuel with
      | O => fault
      | Datatypes.S fuel => b ← get a; n ← chain_length fuel (next b); mret (1 + n)
      end
  end.

Definition pbuf_pool_free (p : ptr) : PM unit :=
  fuel ← gets walk_fuel;
  n ← chain_length fuel (Some p);
  modify (count (count_pbuf_used (- n)));;
  cache ← gets pbuf_pool_alloc_cache;
  match cache with
  | None => modify (with_alloc_cache (Some p))
  | Some c => q ← last_of fuel c; put q (set_next (Some p))
  end.

(** [sys_sem_wait] and [sys_sem_signal] on [pbuf_pool_free_sem]. *)
Definition pool_sem_wait : PM unit :=
  v ← gets pbuf_pool_free_sem; if v <=? 0 then fault else modify (with_sem (v - 1)).
Definition pool_sem_signal : PM unit :=
  modify (λ s, let c := pbuf_pool_free_sem s + 1 in with_sem (if 1 <? c then 1 else c) s).

(** The macro [PBUF_POOL_FREE]. *)
Definition PBUF_POOL_FREE (p : ptr) : PM unit :=
  pool_sem_wait;;
  cache ← gets pbuf_pool_free_cache;
  put p (set_next cache);;
  modify (with_free_cache (Some p));;
  pool_sem_signal.

Definition pbuf_refresh : PM unit :=
  pool_sem_wait;;
  cache ← gets pbuf_pool_free_cache;
  match cache with
  | None => mret tt
  | Some _ =>
      modify (λ s, with_free_lock (u8 (pbuf_pool_free_lock s + 1)) s);;
      locked ← gets pbuf_pool_alloc_lock;
      (if locked =? 0 then
         pool ← gets pbuf_pool;
         match pool with
         | None => modify (with_pool cache)
         | Some a => fuel ← gets walk_fuel; p ← last_of fuel a; put p (set_next cache)
         end;;
         modify (with_free_cache None)
       else modify (count count_refresh_locked));;
      modify (λ s, with_free_lock (u8 (pbuf_pool_free_lock s - 1)) s)
  end;;
  pool_sem_signal.

(** * Allocation *)

Definition layer_offset (l : pbuf_layer) : Z :=
  match l with
  | PBUF_TRANSPORT => PBUF_TRANSPORT_HLEN + PBUF_IP_HLEN + PBUF_LINK_HLEN
  | PBUF_IP => PBUF_IP_HLEN + PBUF_LINK_HLEN
  | PBUF_LINK | PBUF_RAW => 0
  end.

(** The tail of a chain from the pool: [p] is its first buffer, [r] the last one
    so far; the boolean is false when the pool is empty. *)
Fixpoint alloc_tail (fuel : nat) (p r : ptr) (rsize : Z) : PM bool :=
  if 0 <? rsize then
    match fuel with
    | O => fault
    | Datatypes.S fuel =>
        q ← pbuf_pool_alloc;
        match q with
        | None =>
            modify (count count_pbuf_err);;
            pbuf_pool_free p;;
            mret false
        | Some q =>
            put q (set_next None);;
            put r (set_next (Some q));;
            put q (set_len (if PBUF_POOL_BUFSIZE <? rsize then PBUF_POOL_BUFSIZE else rsize));;
            put q (set_kind PBUF_FLAG_POOL);;
            put q (set_payload (Some (ptr_add q sizeof_pbuf)));;
            put q (set_ref 1);;
            alloc_tail fuel p q (rsize - PBUF_POOL_BUFSIZE)
        end
    end
  else put r (set_next None);; mret true.

Definition alloc_pool (offset size : Z) : PM (option ptr) :=
  p ← pbuf_pool_alloc;
  match p with
  | None => modify (count count_pbuf_err);; mret None
  | Some p =>
      let n := if PBUF_POOL_BUFSIZE - offset <? size then PBUF_POOL_BUFSIZE - offset else size in
      put p (set_next None);;
      put p (set_payload (Some (ptr_align (ptr_add p (sizeof_pbuf + offset)))));;
      put p (set_tot_len size);;
      put p (set_len n);;
      put p (set_kind PBUF_FLAG_POOL);;
      let rsize := size - n in
      ok ← alloc_tail (Z.to_nat (rsize / PBUF_POOL_BUFSIZE + 1)) p p rsize;
      if ok : bool then put p (set_ref 1);; mret (Some p) else mret None
  end.

Definition alloc_ram (offset size : Z) : PM (option ptr) :=
  p ← ram_malloc (MEM_ALIGN_SIZE (sizeof_pbuf + size + offset));
  match p with
  | None => mret None
  | Some p =>
      create p (Pbuf None PBUF_FLAG_RAM 1 (Some (ptr_align (ptr_add p (sizeof_pbuf + offset)))) size size);;
      mret (Some p)
  end.

Definition alloc_rom (size : Z) : PM (option ptr) :=
  p ← pbuf_malloc;
  match p with
  | None => mret None
  | Some p => create p (Pbuf None PBUF_FLAG_ROM 1 None size size);; mret (Some p)
  end.

Definition pbuf_alloc (l : pbuf_layer) (size : Z) (flag : pbuf_flag) : PM (option ptr) :=
  let offset := layer_offset l in
  match flag with
  | PBUF_POOL => alloc_pool offset size
  | PBUF_RAM => alloc_ram offset size
  | PBUF_ROM => alloc_rom size
  end.

(** * Deallocation *)

(** The loop of [pbuf_free]; it returns the number of buffers. *)
Fixpoint free_chain (fuel : nat) (p : option ptr) (count0 : Z) : PM Z :=
  match p with
  | None => mret count0
  | Some a =>
      match fuel with
      | O => fault
      | Datatypes.S fuel =>
          b ← get a;
          match kind b with
          | PBUF_FLAG_POOL =>
              put a (λ b, set_payload (Some (ptr_add a sizeof_pbuf))
                            (set_len PBUF_POOL_BUFSIZE (set_tot_len PBUF_POOL_BUFSIZE b)));;
              PBUF_POOL_FREE a;;
              modify (count (count_pbuf_used (-1)))
          | PBUF_FLAG_ROM => pbuf_mfree a;; destroy a
          | PBUF_FLAG_RAM => ram_free a;; destroy a
          end;;
          free_chain fuel (next b) (u8 (count0 + 1))
      end
  end.

Definition pbuf_free (p : option ptr) : PM Z :=
  match p with
  | None => mret 0
  | Some a =>
      put a (λ b, set_ref (u8 (ref b - 1)) b);;
      b ← get a;
      if ref b =? 0 then
        fuel ← gets walk_fuel;
        n ← free_chain fuel (Some a) 0;
        pbuf_refresh;;
        mret n
      else mret 0
  end.

Definition pbuf_ref (p : option ptr) : PM unit :=
  match p with None => mret tt | Some a => put a (λ b, set_ref (u8 (ref b + 1)) b) end.

Definition pbuf_clen (p : option ptr) : PM Z :=
  match p with
  | None => mret 0
  | Some _ => fuel ← gets walk_fuel; n ← chain_length fuel p; mret (u8 n)
  end.

(** * Changes of a packet *)

Definition pbuf_chain (h t : ptr) : PM unit :=
  fuel ← gets walk_fuel;
  p ← last_of fuel h;
  put p (set_next (Some t));;
  bt ← get t;
  put h (λ b, set_tot_len (u16 (tot_len b + tot_len bt)) b).

Definition pbuf_dechain (p : ptr) : PM (option ptr) :=
  b ← get p;
  let q := next b in
  match q with
  | None => mret tt
  | Some a => put a (set_tot_len (u16 (tot_len b - len b)))
  end;;
  put p (λ b, set_next None (set_tot_len (len b) b));;
  mret q.

(** The address of a pointer. *)
Definition addr (p : ptr) : Z := base p.1 + p.2.

(** [header_size] has 16 bits with sign; -1 is returned in 8 bits.  Arithmetic
    on a null payload is a fault. *)
Definition pbuf_header (p : ptr) (header_size : Z) : PM Z :=
  b ← get p;
  match payload b with
  | None => fault
  | Some old =>
      let new := ptr_add old (- header_size) in
      put p (set_payload (Some new));;
      if addr new <? addr (ptr_add p sizeof_pbuf) then put p (set_payload (Some old));; mret 255
      else
        put p (λ b, set_tot_len (u16 (tot_len b + header_size)) (set_len (u16 (len b + header_size)) b));;
        mret 0
  end.

(** [while(rsize > q->len)]: the buffer in which the packet will end. *)
Fixpoint find_end (fuel : nat) (q : ptr) (rsize : Z) : PM (ptr * Z) :=
  match fuel with
  | O => fault
  | Datatypes.S fuel =>
      b ← get q;
      if len b <? rsize then
        match next b with
        | None => fault
        | Some q => find_end fuel q (u16 (rsize - len b))
        end
      else mret (q, rsize)
  end.

(** The two loops that deallocate what is left over. *)
Fixpoint free_rest_pool (fuel : nat) (q : option ptr) : PM unit :=
  match q with
  | None => mret tt
  | Some a =>
      match fuel with
      | O => fault
      | Datatypes.S fuel =>
          b ← get a;
          PBUF_POOL_FREE a;;
          modify (count (count_pbuf_used (-1)));;
          free_rest_pool fuel (next b)
      end
  end.

Fixpoint free_rest_ram (fuel : nat) (q : option ptr) : PM unit :=
  match q with
  | None => mret tt
  | Some a =>
      match fuel with
      | O => fault
      | Datatypes.S fuel => b ← get a; pbuf_free (Some a);; free_rest_ram fuel (next b)
      end
  end.

(** [mem_realloc(q, (uint8_t * )q->payload - (uint8_t * )q + rsize)]. *)
Definition shrink_block (q : ptr) (rsize : Z) : PM unit :=
  b ← get q;
  match kind b with
  | PBUF_FLAG_RAM =>
      match payload b with
      | None => fault
      | Some d => ram_shrink q (u32 (addr d - addr q + rsize))
      end
  | _ => mret tt
  end.

(** The chain ends in [q]; what followed it is returned. *)
Definition cut_chain (q : ptr) (rsize : Z) : PM (option ptr) :=
  put q (set_len rsize);;
  b ← get q;
  put q (set_next None);;
  mret (next b).

Definition pbuf_realloc (p : ptr) (size : Z) : PM unit :=
  b ← get p;
  if tot_len b <=? size then mret tt
  else
    fuel ← gets walk_fuel;
    match kind b with
    | PBUF_FLAG_POOL =>
        '(q, rsize) ← find_end fuel p size;
        r ← cut_chain q rsize;
        free_rest_pool fuel r
    | PBUF_FLAG_ROM => put p (set_len size)
    | PBUF_FLAG_RAM =>
        '(q, rsize) ← find_end fuel p size;
        shrink_block q rsize;;
        r ← cut_chain q rsize;
        free_rest_ram fuel r
    end;;
    put p (set_tot_len size);;
    pbuf_refresh.
End pbufs.
