(* ===== verification/PbufSpec.v ===== *)
(** What a packet is, and the lemmas on the operations of the packet buffers.

    A packet is a chain of pieces: where its structure lies, of which kind it is,
    where its bytes start, how many they are, and how often it is referred to.
    The invariant [bufs_ok] says that the three lists of free buffers of the pool
    and the packets of the clients are chains that share no structure, and that
    there are no other structures.  The structures that an operation works on
    are a fourth list. *)

From Stdlib Require Import ZArith Lia.
From stdpp Require Import base tactics numbers gmap option list.
From S2P Require Import Prelude Mem Linked Store Pbuf.

Local Open Scope Z_scope.

Record piece := Piece {
  p_at : ptr;
  p_kind : pbuf_kind;
  p_start : option ptr;
  p_len : Z;
  p_ref : Z
}.

Definition total (c : list piece) : Z := foldr (λ pc n, p_len pc + n) 0 c.
Definition ats (c : list piece) : list ptr := p_at <$> c.

(** The structures of the pool. *)
Definition pool_ptrs : list ptr := (λ i, (POOL, Z.of_nat i * (PBUF_POOL_BUFSIZE + sizeof_pbuf))) <$> seq 0 6.

(** The next pointers of a memory. *)
Definition nxt (m : gmap ptr pbuf) (a : ptr) : option (option ptr) := next <$> m !! a.

(** The structure of a piece. *)
Definition matches (m : gmap ptr pbuf) (pc : piece) : Prop :=
  ∃ b, m !! p_at pc = Some b ∧ kind b = p_kind pc ∧ payload b = p_start pc ∧ len b = p_len pc ∧ ref b = p_ref pc.

(** A packet: only the first structure knows the total length. *)
Definition chain_ok (m : gmap ptr pbuf) (c : list piece) : Prop :=
  ∃ h, p_at <$> head c = Some h ∧ linked (nxt m) (Some h) (ats c) ∧ Forall (matches m) c ∧
    tot_len <$> m !! h = Some (u16 (total c)).

Definition area_kind (a : area) : option pbuf_kind :=
  match a with
  | RAM => Some PBUF_FLAG_RAM
  | MEMP => Some PBUF_FLAG_ROM
  | POOL => Some PBUF_FLAG_POOL
  | ROM => None
  end.

(** A piece has the kind of its area; its bytes lie behind the structure, and in
    the pool inside of the buffer. *)
Definition piece_ok (pc : piece) : Prop :=
  area_kind (p_at pc).1 = Some (p_kind pc) ∧ 1 <= p_ref pc < 256 ∧ 0 <= p_len pc < 65536 ∧
  match p_kind pc, p_start pc with
  | PBUF_FLAG_ROM, _ => True
  | _, None => False
  | PBUF_FLAG_RAM, Some d => d.1 = RAM ∧ (p_at pc).2 + sizeof_pbuf <= d.2
  | PBUF_FLAG_POOL, Some d => d.1 = POOL ∧ (p_at pc).2 + sizeof_pbuf <= d.2 ∧
      d.2 + p_len pc <= (p_at pc).2 + sizeof_pbuf + PBUF_POOL_BUFSIZE
  end.

(** The structures of a list have the kind of their area. *)
Definition kinds_ok (m : gmap ptr pbuf) (l : list ptr) : Prop :=
  Forall (λ a : ptr, ∃ b, m !! a = Some b ∧ area_kind a.1 = Some (kind b)) l.

(** * Lists of structures *)

(** Permutations of lists of pointers, by counting. *)
Lemma perm_count (l l' : list ptr) :
  l ≡ₚ l' ↔ ∀ x, count_occ (decide_rel (=)) l x = count_occ (decide_rel (=)) l' x.
Proof. apply Permutation_count_occ. Qed.

Ltac perm_solve :=
  apply perm_count; let x := fresh "x" in intros x;
  repeat match goal with
         | H : @Permutation ptr ?a ?b |- _ =>
             let H' := fresh "Hx" in pose proof (proj1 (perm_count a b) H x) as H'; clear H
         end;
  repeat match goal with H : context [count_occ _ _ _] |- _ => progress rewrite ?count_occ_app in H; cbn [count_occ] in H end;
  rewrite ?count_occ_app; cbn [count_occ]; rewrite ?count_occ_app; repeat case_match; lia.

Lemma nxt_some m a b : m !! a = Some b → nxt m a = Some (next b).
Proof. intros E. unfold nxt. by rewrite E. Qed.

(** A list of different structures is not longer than there are structures. *)
Lemma length_structs (m : gmap ptr pbuf) l : NoDup l → (∀ a, a ∈ l → is_Some (m !! a)) → (length l <= size m)%nat.
Proof.
  intros Hnd Hin. rewrite <-(size_list_to_set (C := gset ptr) l Hnd). rewrite <-(size_dom (D := gset ptr)).
  apply subseteq_size. intros a Ha%elem_of_list_to_set. apply elem_of_dom. by apply Hin.
Qed.

(** A list or chain away from a change is as it was. *)
Lemma linked_same m m' h l : (∀ a, a ∈ l → m' !! a = m !! a) → linked (nxt m) h l → linked (nxt m') h l.
Proof. intros Hs. apply lseg_frame. intros a Ha. unfold nxt. by rewrite Hs. Qed.

Lemma matches_same m m' c : (∀ a, a ∈ ats c → m' !! a = m !! a) → Forall (matches m) c → Forall (matches m') c.
Proof.
  intros Hs Hm. rewrite Forall_forall in *. intros pc Hpc. destruct (Hm pc Hpc) as (b & Hb & Hr). exists b.
  split; [|done]. rewrite Hs; [done|]. apply list_elem_of_fmap. by exists pc.
Qed.

Lemma chain_head c h : p_at <$> head c = Some h → ∃ pc c', c = pc :: c' ∧ p_at pc = h.
Proof. destruct c as [|pc c']; [done|]. intros [= <-]. by exists pc, c'. Qed.

Lemma chain_ok_same m m' c : (∀ a, a ∈ ats c → m' !! a = m !! a) → chain_ok m c → chain_ok m' c.
Proof.
  intros Hs (h & Hh & Hl & Hm & Ht). exists h. split_and!; [done|by eapply linked_same|by eapply matches_same|].
  rewrite Hs; [done|]. apply chain_head in Hh as (pc & c' & -> & <-). cbn. by left.
Qed.

Lemma kinds_ok_same m m' l : (∀ a, a ∈ l → m' !! a = m !! a) → kinds_ok m l → kinds_ok m' l.
Proof. intros Hs. unfold kinds_ok. rewrite !Forall_forall. intros Hk a Ha. destruct (Hk a Ha) as (b & Hb & ?). exists b. by rewrite Hs. Qed.

Lemma chain_kinds m c : Forall (matches m) c → Forall piece_ok c → kinds_ok m (ats c).
Proof.
  intros Hm Hp. unfold kinds_ok, ats. rewrite Forall_fmap. apply Forall_forall. intros pc Hpc.
  rewrite Forall_forall in Hm, Hp. destruct (Hm pc Hpc) as (b & Hb & Hk & _). destruct (Hp pc Hpc) as [Ha _].
  exists b. cbn. split; [done|]. congruence.
Qed.

(** The last structure of a list is made to point to another list. *)
Lemma linked_join m h l z b h' l' :
  linked (nxt m) h (l ++ [z]) → linked (nxt m) h' l' → NoDup (l ++ [z]) → z ∉ l' → m !! z = Some b →
  linked (nxt (<[z := set_next h' b]> m)) h ((l ++ [z]) ++ l').
Proof.
  unfold linked. intros Hl Hl' Hnd Hz Hb. apply lseg_app. exists h'. split.
  - apply lseg_snoc in Hl as [Hl _]. apply lseg_snoc. split; [|unfold nxt; by rewrite lookup_insert_eq].
    eapply lseg_frame; [|exact Hl]. intros a Ha. unfold nxt.
    rewrite lookup_insert_ne; [done|]. intros ->. apply NoDup_app in Hnd as (_ & Hd & _). apply (Hd _ Ha). by constructor.
  - eapply lseg_frame; [|exact Hl']. intros a Ha. unfold nxt. rewrite lookup_insert_ne; [done|]. by intros ->.
Qed.

(** * The invariant *)

Section spec.
Context {R M : Type} `{!Store R, !Shrink R, !Store M} (base : area → Z).
Context (ram_holds : R → gmap Z Z → Prop) (memp_holds : M → gmap Z Z → Prop).

Local Abbreviation state := (@bufs R M).

(** The structures of an area are the blocks of its allocator. *)
Definition backed {A} (holds : A → gmap Z Z → Prop) (st : A) (ar : area) (m : gmap ptr pbuf) : Prop :=
  ∃ b, holds st b ∧ ∀ o, is_Some (b !! o) ↔ is_Some (m !! (ar, o)).

(** [P], [A] and [F] are the pool and its two caches, [D] what an operation has
    in its hands, [cs] the packets. *)
Record bufs_ok (s : state) (P A F D : list ptr) (cs : list (list piece)) : Prop := {
  bo_pool : linked (nxt (structs s)) (pbuf_pool s) P;
  bo_alloc : linked (nxt (structs s)) (pbuf_pool_alloc_cache s) A;
  bo_free : linked (nxt (structs s)) (pbuf_pool_free_cache s) F;
  bo_chains : Forall (chain_ok (structs s)) cs;
  bo_pieces : Forall piece_ok (concat cs);
  bo_nodup : NoDup (P ++ A ++ F ++ D ++ ats (concat cs));
  bo_dom : ∀ a, is_Some (structs s !! a) ↔ a ∈ P ++ A ++ F ++ D ++ ats (concat cs);
  bo_area : Forall (λ a : ptr, a.1 = POOL) (P ++ A ++ F);
  bo_static : ∀ a : ptr, a.1 = POOL → (is_Some (structs s !! a) ↔ a ∈ pool_ptrs);
  bo_locks : pbuf_pool_alloc_lock s = 0 ∧ pbuf_pool_free_lock s = 0 ∧ pbuf_pool_free_sem s = 1;
  bo_ram : backed ram_holds (ram_store s) RAM (structs s);
  bo_memp : backed memp_holds (Pbuf.memp_store s) MEMP (structs s)
}.

(** The packets are a collection without order. *)
#[global] Instance bufs_ok_proper s P A F :
  Proper ((≡ₚ) ==> (≡ₚ) ==> iff) (bufs_ok s P A F).
Proof.
  assert (∀ D D' cs cs', D ≡ₚ D' → cs ≡ₚ cs' → bufs_ok s P A F D cs → bufs_ok s P A F D' cs') as Hp.
  { intros D D' cs cs' HD Hcs [H1 H2 H3 H4 H5 H6 H7 H8 H9 H10 H11 H12].
    assert (concat cs ≡ₚ concat cs') as Hc by (by rewrite Hcs).
    assert (ats (concat cs) ≡ₚ ats (concat cs')) as Ha by (unfold ats; by rewrite Hc).
    split; try done; [by rewrite <-Hcs|by rewrite <-Hc|by rewrite <-HD, <-Ha|intros a; by rewrite <-HD, <-Ha]. }
  intros D D' HD cs cs' Hcs. split; apply Hp; done.
Qed.

(** ** Fragments of the lists *)

Lemma bo_away s P A F D cs a :
  bufs_ok s P A F D cs → a ∈ D → (a ∉ P) ∧ (a ∉ A) ∧ (a ∉ F) ∧ a ∉ ats (concat cs).
Proof.
  intros Hok Ha. pose proof (bo_nodup _ _ _ _ _ _ Hok) as Hnd. rewrite !NoDup_app in Hnd. set_solver.
Qed.

Lemma ats_concat_elem cs c a : c ∈ cs → a ∈ ats c → a ∈ ats (concat cs).
Proof.
  intros Hc (pc & -> & Hpc)%list_elem_of_fmap. apply list_elem_of_fmap. exists pc. split; [done|].
  apply list_elem_of_In, in_concat. exists c. by rewrite <-!list_elem_of_In.
Qed.

(** A change of structures that an operation has in its hands. *)
Lemma bo_change s P A F D cs m' :
  bufs_ok s P A F D cs → (∀ a, a ∉ D → m' !! a = structs s !! a) → (∀ a, a ∈ D → is_Some (m' !! a)) →
  bufs_ok (with_structs m' s) P A F D cs.
Proof.
  intros Hok Hout Hin. assert (∀ a, a ∈ P ++ A ++ F ++ ats (concat cs) → m' !! a = structs s !! a) as Hsame.
  { intros a Ha. apply Hout. intros HD. apply (bo_away _ _ _ _ _ _ _ Hok) in HD. set_solver. }
  assert (∀ a, is_Some (m' !! a) ↔ is_Some (structs s !! a)) as Hdom.
  { intros a. destruct (decide (a ∈ D)) as [HD|HD]; [|by rewrite Hout]. split; [|by intros _; apply Hin].
    intros _. apply (bo_dom _ _ _ _ _ _ Hok). set_solver. }
  destruct Hok as [H1 H2 H3 H4 H5 H6 H7 H8 H9 H10 (b1 & H11 & H11') (b2 & H12 & H12')]. split; cbn; try done.
  1-3: eapply linked_same; [|done]; set_solver.
  - rewrite Forall_forall in *. intros c Hc. eapply chain_ok_same; [|by apply H4]. intros a Ha. apply Hsame.
    rewrite !elem_of_app. do 3 right. by eapply ats_concat_elem.
  - intros a. by rewrite Hdom.
  - intros a Ha. rewrite Hdom. by apply H9.
  - exists b1. split; [done|]. intros o. by rewrite Hdom.
  - exists b2. split; [done|]. intros o. by rewrite Hdom.
Qed.

Lemma put_run (a : ptr) f (s : state) b :
  structs s !! a = Some b → put a f s = Some (tt, with_structs (<[a := f b]> (structs s)) s).
Proof. intros E. unfold put. by rewrite E. Qed.

Lemma get_run (a : ptr) (s : state) b : structs s !! a = Some b → get a s = Some (b, s).
Proof. intros E. unfold get. by rewrite E. Qed.

Lemma pm_bind_run {X Y} (m : @PM R M X) (f : X → @PM R M Y) (s : state) x s' :
  m s = Some (x, s') → (m ≫= f) s = f x s'.
Proof. intros E. unfold mbind, pm_bind. by rewrite E. Qed.

(** Assignments to fields of one structure are one change of it. *)
Lemma with_structs_twice m m' (s : state) : with_structs m (with_structs m' s) = with_structs m s.
Proof. done. Qed.

Lemma put_put {X} a f g (k : @PM R M X) s : (put a f;; put a g;; k) s = (put a (λ b, g (f b));; k) s.
Proof.
  unfold mbind, pm_bind, put. destruct (structs s !! a) as [b|]; [|done]. cbn [structs with_structs].
  rewrite lookup_insert_eq. by rewrite with_structs_twice, insert_insert_eq.
Qed.

(** Run the statements that only read or write the globals. *)
Ltac pm := unfold mbind, pm_bind, mret, pm_ret, gets, modify, fault; cbv beta iota.

(** A field of a structure in hand is assigned. *)
Lemma put_ok s P A F D cs a f b :
  bufs_ok s P A F D cs → a ∈ D → structs s !! a = Some b →
  bufs_ok (with_structs (<[a := f b]> (structs s)) s) P A F D cs.
Proof.
  intros Hok Ha Hb. apply bo_change; [done| |].
  - intros a' Hn. rewrite lookup_insert_ne; [done|]. by intros ->.
  - intros a' Ha'. destruct (decide (a' = a)) as [->|Hne]; [rewrite lookup_insert_eq; by eexists|].
    rewrite lookup_insert_ne by done. apply (bo_dom _ _ _ _ _ _ Hok). set_solver.
Qed.

(** The statistics do not matter. *)
Lemma count_ok s P A F D cs f : bufs_ok s P A F D cs → bufs_ok (count f s) P A F D cs.
Proof. by intros []. Qed.

(** A finished chain becomes a packet, and a packet is taken in hand. *)
Lemma bo_give s P A F D c cs :
  bufs_ok s P A F (ats c ++ D) cs → chain_ok (structs s) c → Forall piece_ok c → bufs_ok s P A F D (c :: cs).
Proof.
  intros [H1 H2 H3 H4 H5 H6 H7 H8 H9 H10 H11 H12] Hc Hp.
  assert (P ++ A ++ F ++ D ++ ats (concat (c :: cs)) ≡ₚ P ++ A ++ F ++ (ats c ++ D) ++ ats (concat cs)) as E.
  { cbn [concat]. unfold ats. rewrite fmap_app. do 3 apply Permutation_app_head. rewrite !app_assoc.
    apply Permutation_app_tail. by rewrite Permutation_app_comm. }
  split; try done; [by constructor|by apply Forall_app|by rewrite E|intros a; by rewrite E].
Qed.

Lemma bo_take s P A F D c cs :
  bufs_ok s P A F D (c :: cs) →
  bufs_ok s P A F (ats c ++ D) cs ∧ chain_ok (structs s) c ∧ Forall piece_ok c.
Proof.
  intros [H1 H2 H3 H4 H5 H6 H7 H8 H9 H10 H11 H12].
  assert (P ++ A ++ F ++ D ++ ats (concat (c :: cs)) ≡ₚ P ++ A ++ F ++ (ats c ++ D) ++ ats (concat cs)) as E.
  { cbn [concat]. unfold ats. rewrite fmap_app. do 3 apply Permutation_app_head. rewrite !app_assoc.
    apply Permutation_app_tail. by rewrite Permutation_app_comm. }
  apply Forall_cons in H4 as [Hc H4]. cbn [concat] in H5. apply Forall_app in H5 as [Hp H5].
  split_and!; [|done|done]. split; try done; [by rewrite <-E|intros a; by rewrite <-E].
Qed.

(** ** Moves between the lists *)

Ltac forall_solve := rewrite ?Forall_app, ?Forall_cons, ?Forall_nil in *; tauto.

(** The same structures, distributed in another way. *)
Lemma bo_regroup s s' P A F D cs P' A' F' D' :
  bufs_ok s P A F D cs → structs s' = structs s → ram_store s' = ram_store s →
  Pbuf.memp_store s' = Pbuf.memp_store s →
  pbuf_pool_alloc_lock s' = 0 ∧ pbuf_pool_free_lock s' = 0 ∧ pbuf_pool_free_sem s' = 1 →
  P' ++ A' ++ F' ++ D' ≡ₚ P ++ A ++ F ++ D → Forall (λ a : ptr, a.1 = POOL) (P' ++ A' ++ F') →
  linked (nxt (structs s)) (pbuf_pool s') P' →
  linked (nxt (structs s)) (pbuf_pool_alloc_cache s') A' →
  linked (nxt (structs s)) (pbuf_pool_free_cache s') F' →
  bufs_ok s' P' A' F' D' cs.
Proof.
  intros Hok Es Er Em Hlock Hperm Harea HP HA HF.
  assert (P' ++ A' ++ F' ++ D' ++ ats (concat cs) ≡ₚ P ++ A ++ F ++ D ++ ats (concat cs)) as Hp.
  { perm_solve. }
  destruct Hok as [H1 H2 H3 H4 H5 H6 H7 H8 H9 H10 H11 H12].
  split; rewrite ?Es, ?Er, ?Em; try done; [by rewrite Hp|intros a; by rewrite Hp].
Qed.

Lemma bo_get s P A F D cs a :
  bufs_ok s P A F D cs → a ∈ P ++ A ++ F ++ D → ∃ b, structs s !! a = Some b.
Proof. intros Hok Ha. apply (bo_dom _ _ _ _ _ _ Hok). rewrite !elem_of_app in *. tauto. Qed.

(** The first buffer of a list is taken off it. *)
Lemma take_first_run (p : option ptr) rest (s : state) l :
  linked (nxt (structs s)) p l →
  match l with
  | [] => take_first p rest s = Some (None, s)
  | a :: l' => ∃ n, take_first p rest s = Some (Some a, rest n s) ∧ linked (nxt (structs s)) n l'
  end.
Proof.
  destruct l as [|a l']; [by intros ->|]. intros [-> (n & Hn & Hl)]. exists n. unfold nxt in Hn.
  apply fmap_Some in Hn as (b & Hb & ->). cbn [take_first]. by rewrite (pm_bind_run _ _ _ _ _ (get_run _ _ _ Hb)).
Qed.

Lemma pool_alloc_ok s P A F D cs :
  bufs_ok s P A F D cs →
  ∃ r s', pbuf_pool_alloc s = Some (r, s') ∧ structs s' = structs s ∧
    match r with
    | None => P = [] ∧ A = [] ∧ bufs_ok s' P A F D cs
    | Some a => ∃ P' A', P ++ A ≡ₚ a :: P' ++ A' ∧ bufs_ok s' P' A' F (a :: D) cs
    end.
Proof.
  intros Hok. destruct (bo_locks _ _ _ _ _ _ Hok) as (Hl1 & Hl2 & Hl3). unfold pbuf_pool_alloc.
  pm. rewrite Hl2.
  pose proof (bo_alloc _ _ _ _ _ _ Hok) as HA. pose proof (bo_pool _ _ _ _ _ _ Hok) as HP.
  pose proof (bo_area _ _ _ _ _ _ Hok) as Har.
  destruct (pbuf_pool_alloc_cache s) as [c|] eqn:Ec.
  - pose proof HA as (n & A' & -> & _ & _)%linked_head.
    pose proof (take_first_run (Some c) with_alloc_cache s _ HA) as (n' & -> & Hn').
    eexists _, _. split; [done|]. split; [done|]. exists P, A'. split; [by rewrite Permutation_middle|].
    apply count_ok. eapply bo_regroup; [exact Hok|done|done|done|done| | |done|done|apply (bo_free _ _ _ _ _ _ Hok)].
    + perm_solve.
    + forall_solve.
  - destruct (lseg_nil_inv _ _ _ HA) as [-> _].
    cbn [negb Z.eqb with_alloc_lock pbuf_pool_free_lock]. rewrite Hl2. cbn [Z.eqb].
    set (s1 := with_alloc_lock _ s). pose proof (take_first_run (pbuf_pool s) with_pool s1 P HP) as Ht.
    change (pbuf_pool s1) with (pbuf_pool s). destruct P as [|a P'].
    + rewrite Ht. eexists _, _. split; [done|]. split; [done|]. split; [done|]. split; [done|].
      eapply bo_regroup; [exact Hok|done|done|done| |done|done|done|done|apply (bo_free _ _ _ _ _ _ Hok)].
      cbn. by rewrite Hl1.
    + destruct Ht as (n & -> & Hn). eexists _, _. split; [done|]. split; [done|]. exists P', []. split; [done|].
      apply count_ok. eapply bo_regroup; [exact Hok|done|done|done| | | |done|done|apply (bo_free _ _ _ _ _ _ Hok)].
      * cbn. by rewrite Hl1.
      * perm_solve.
      * forall_solve.
Qed.

(** ** Walks *)

Lemma last_of_run fuel (s : state) p l z :
  linked (nxt (structs s)) (Some p) (l ++ [z]) → (length l < fuel)%nat → last_of fuel p s = Some (z, s).
Proof.
  revert fuel p. induction l as [|a l IH]; intros [|fuel] p Hl Hf; try (cbn in Hf; lia); cbn [last_of].
  - destruct Hl as [[= ->] (n & Hn & ->)]. unfold nxt in Hn. apply fmap_Some in Hn as (b & Hb & Hn).
    rewrite (pm_bind_run _ _ _ _ _ (get_run _ _ _ Hb)). by rewrite <-Hn.
  - destruct Hl as [[= ->] (n & Hn & Hl)]. unfold nxt in Hn. apply fmap_Some in Hn as (b & Hb & ->).
    rewrite (pm_bind_run _ _ _ _ _ (get_run _ _ _ Hb)). destruct (next b) as [q|] eqn:En.
    + apply IH; [done|]. cbn in Hf. lia.
    + destruct l; by destruct Hl.
Qed.

Lemma chain_length_run fuel (s : state) p l :
  linked (nxt (structs s)) p l → (length l <= fuel)%nat → chain_length fuel p s = Some (Z.of_nat (length l), s).
Proof.
  revert fuel p. induction l as [|a l IH]; intros fuel p Hl Hf; [by destruct fuel; cbn in Hl; subst|].
  destruct Hl as [-> (n & Hn & Hl)]. destruct fuel as [|fuel]; [cbn in Hf; lia|]. cbn [chain_length].
  unfold nxt in Hn. apply fmap_Some in Hn as (b & Hb & ->). rewrite (pm_bind_run _ _ _ _ _ (get_run _ _ _ Hb)).
  erewrite pm_bind_run by (apply IH; [exact Hl|cbn in Hf; lia]). unfold mret, pm_ret. do 3 f_equal. cbn [length]. lia.
Qed.

(** Lists of the invariant are short enough for every walk. *)
Lemma bo_short s P A F D cs l :
  bufs_ok s P A F D cs → NoDup l → (∀ a, a ∈ l → a ∈ P ++ A ++ F ++ D ++ ats (concat cs)) →
  (length l < walk_fuel s)%nat.
Proof.
  intros Hok Hnd Hin. unfold walk_fuel. apply Nat.lt_succ_r. apply length_structs; [done|].
  intros a Ha. apply (bo_dom _ _ _ _ _ _ Hok). by apply Hin.
Qed.

(** ** Buffers go back to the pool *)

Lemma pool_free_one_ok s P A F D cs a :
  bufs_ok s P A F (a :: D) cs → a.1 = POOL →
  ∃ s', PBUF_POOL_FREE a s = Some (tt, s') ∧ bufs_ok s' P A (a :: F) D cs ∧
    (∀ a', a' ≠ a → structs s' !! a' = structs s !! a').
Proof.
  intros Hok Ha. destruct (bo_locks _ _ _ _ _ _ Hok) as (Hl1 & Hl2 & Hl3).
  destruct (bo_get _ _ _ _ _ _ a Hok) as [b Hb]; [set_solver|].
  unfold PBUF_POOL_FREE, pool_sem_wait, pool_sem_signal. pm. rewrite Hl3. cbn [Z.leb Z.compare].
  unfold put. cbn [with_sem structs pbuf_pool_free_cache]. rewrite Hb. eexists. split; [done|].
  split; [|intros a' Hne; cbn; by rewrite lookup_insert_ne].
  pose proof (put_ok _ _ _ _ _ _ a (set_next (pbuf_pool_free_cache s)) b Hok ltac:(set_solver) Hb) as Hok'.
  eapply bo_regroup; [exact Hok'|done|done|done|cbn; by rewrite ?Hl1, ?Hl2, ?Hl3| | | | |]; cbn.
  - perm_solve.
  - pose proof (bo_area _ _ _ _ _ _ Hok). forall_solve.
  - apply (bo_pool _ _ _ _ _ _ Hok').
  - apply (bo_alloc _ _ _ _ _ _ Hok').
  - split; [done|]. exists (pbuf_pool_free_cache s). unfold nxt at 1. rewrite lookup_insert_eq. split; [done|].
    apply (bo_free _ _ _ _ _ _ Hok').
Qed.

Lemma refresh_ok s P A F D cs :
  bufs_ok s P A F D cs →
  ∃ s', pbuf_refresh s = Some (tt, s') ∧ bufs_ok s' (P ++ F) A [] D cs ∧
    (∀ a, a ∈ D ++ ats (concat cs) → structs s' !! a = structs s !! a).
Proof.
  intros Hok. destruct (bo_locks _ _ _ _ _ _ Hok) as (Hl1 & Hl2 & Hl3).
  pose proof (bo_free _ _ _ _ _ _ Hok) as HF. pose proof (bo_pool _ _ _ _ _ _ Hok) as HP.
  pose proof (bo_alloc _ _ _ _ _ _ Hok) as HA. pose proof (bo_area _ _ _ _ _ _ Hok) as Har.
  unfold pbuf_refresh, pool_sem_wait, pool_sem_signal. pm. rewrite Hl3. cbn [Z.leb Z.compare with_sem pbuf_pool_free_cache].
  destruct (pbuf_pool_free_cache s) as [f|] eqn:Ef.
  2: { destruct (lseg_nil_inv _ _ _ HF) as [-> _]. rewrite app_nil_r. eexists. split; [done|]. split; [|done].
       eapply bo_regroup; [exact Hok|done|done|done|cbn; by rewrite ?Hl1, ?Hl2, ?Hl3|done|done|done|done|cbn; by rewrite Ef]. }
  cbn [with_free_lock with_sem pbuf_pool_alloc_lock]. rewrite Hl1.
  cbn [Z.eqb pbuf_pool with_free_lock with_sem].
  destruct (pbuf_pool s) as [a|] eqn:Ep.
  - assert (∃ P' z, P = P' ++ [z]) as (P' & z & ->).
    { destruct (linked_head _ _ _ HP) as (n & l & -> & _). destruct (exists_last (l := a :: l)) as (P' & z & E); [done|].
      by exists P', z. }
    destruct (bo_get _ _ _ _ _ _ z Hok) as [b Hb]; [set_solver|].
    pose proof (bo_nodup _ _ _ _ _ _ Hok) as Hnd.
    assert (NoDup (P' ++ [z])) as Hnd' by by apply NoDup_app in Hnd as [? _].
    erewrite (last_of_run _ _ a P' z); [|exact HP|].
    2: { change (length P' < walk_fuel s)%nat. pose proof (bo_short _ _ _ _ _ _ _ Hok Hnd') as Hs. rewrite length_app in Hs. cbn in Hs.
         apply Nat.lt_le_trans with (length P' + 1)%nat; [lia|]. apply Nat.lt_le_incl, Hs. set_solver. }
    unfold put. cbn [structs with_free_lock with_sem]. rewrite Hb. eexists. split; [done|].
    assert (z ∉ A ++ F ++ D ++ ats (concat cs)) as Hz.
    { intros Hin. apply NoDup_app in Hnd as (_ & Hd & _). apply (Hd z); set_solver. }
    split; [|intros a' Ha'; cbn; rewrite lookup_insert_ne; [done|]; intros ->; set_solver].
    assert (bufs_ok (with_pool None (with_free_cache None s)) [] A [] ((P' ++ [z]) ++ F ++ D) cs) as Hhand.
    { eapply bo_regroup; [exact Hok|done|done|done|done|perm_solve| |done|done|done]. forall_solve. }
    pose proof (put_ok _ _ _ _ _ _ z (set_next (Some f)) b Hhand ltac:(set_solver) Hb) as Hok'.
    eapply bo_regroup; [exact Hok'|done|done|done|cbn; by rewrite ?Hl1, ?Hl2, ?Hl3|perm_solve| | | |done]; cbn.
    + forall_solve.
    + rewrite Ep. apply linked_join; [done|done|done| |done]. set_solver.
    + apply (bo_alloc _ _ _ _ _ _ Hok').
  - destruct (lseg_nil_inv _ _ _ HP) as [-> _]. eexists. split; [done|]. split; [|done].
    eapply bo_regroup; [exact Hok|done|done|done|cbn; by rewrite ?Hl1, ?Hl2, ?Hl3| | |cbn|done|done].
    + perm_solve.
    + forall_solve.
    + exact HF.
Qed.

(** A chain in hand goes to the allocation cache. *)
Lemma pool_free_ok s P A F D cs p l :
  bufs_ok s P A F (l ++ D) cs → linked (nxt (structs s)) (Some p) l → Forall (λ a : ptr, a.1 = POOL) l →
  ∃ s', pbuf_pool_free p s = Some (tt, s') ∧ bufs_ok s' P (A ++ l) F D cs.
Proof.
  intros Hok Hl Hlp. pose proof (bo_locks _ _ _ _ _ _ Hok) as Hlock. pose proof (bo_free _ _ _ _ _ _ Hok) as HF.
  pose proof (bo_pool _ _ _ _ _ _ Hok) as HP. pose proof (bo_alloc _ _ _ _ _ _ Hok) as HA.
  pose proof (bo_area _ _ _ _ _ _ Hok) as Har. pose proof (bo_nodup _ _ _ _ _ _ Hok) as Hnd.
  assert (NoDup l ∧ NoDup A) as [Hndl HndA] by (split; eapply linked_NoDup; done).
  unfold pbuf_pool_free. pm. erewrite chain_length_run; [|exact Hl|].
  2: { apply Nat.lt_le_incl, (bo_short _ _ _ _ _ _ _ Hok Hndl). set_solver. }
  cbn [count pbuf_pool_alloc_cache]. destruct (pbuf_pool_alloc_cache s) as [c|] eqn:Ec.
  - assert (∃ A' z, A = A' ++ [z]) as (A' & z & ->).
    { destruct (linked_head _ _ _ HA) as (n & l' & -> & _). destruct (exists_last (l := c :: l')) as (A' & z & E); [done|].
      by exists A', z. }
    destruct (bo_get _ _ _ _ _ _ z Hok) as [b Hb]; [set_solver|].
    erewrite (last_of_run _ _ c A' z); [|exact HA|].
    2: { pose proof (bo_short _ _ _ _ _ _ _ Hok HndA) as Hs. rewrite length_app in Hs. cbn in Hs.
         apply Nat.lt_le_trans with (length A' + 1)%nat; [lia|]. apply Nat.lt_le_incl, Hs. set_solver. }
    unfold put. cbn [structs count]. rewrite Hb. eexists. split; [done|].
    assert (bufs_ok (with_alloc_cache None s) P [] F ((A' ++ [z]) ++ l ++ D) cs) as Hhand.
    { eapply bo_regroup; [exact Hok|done|done|done|done|perm_solve|forall_solve|done|done|done]. }
    pose proof (put_ok _ _ _ _ _ _ z (set_next (Some p)) b Hhand ltac:(set_solver) Hb) as Hok'.
    eapply bo_regroup; [exact Hok'|done|done|done|done|perm_solve|forall_solve| | |]; cbn.
    + apply (bo_pool _ _ _ _ _ _ Hok').
    + rewrite Ec. apply linked_join; [done|done|done| |done]. intros Hz.
      apply NoDup_app in Hnd as (_ & _ & Hnd). apply NoDup_app in Hnd as (_ & Hd & _). apply (Hd z); set_solver.
    + apply (bo_free _ _ _ _ _ _ Hok').
  - destruct (lseg_nil_inv _ _ _ HA) as [-> _]. eexists. split; [done|].
    eapply bo_regroup; [exact Hok|done|done|done|done|perm_solve|forall_solve|done|exact Hl|done].
Qed.

(** ** Allocation from the pool *)

(** A chain that is being built: the structures in hand, linked in order. *)
Record building (m : gmap ptr pbuf) (p r : ptr) (c : list piece) : Prop := {
  bd_linked : linked (nxt m) (Some p) (ats c);
  bd_matches : Forall (matches m) c;
  bd_last : ∃ l, ats c = l ++ [r];
  bd_area : Forall (λ a : ptr, a.1 = POOL) (ats c)
}.

(** A new buffer for the tail of the chain. *)
Definition tail_piece (q : ptr) (n : Z) : piece :=
  Piece q PBUF_FLAG_POOL (Some (ptr_add q sizeof_pbuf)) n 1.

Lemma matches_insert_ne m a b c : a ∉ ats c → Forall (matches m) c → Forall (matches (<[a := b]> m)) c.
Proof. intros Hn. apply matches_same. intros a' Ha'. rewrite lookup_insert_ne; [done|]. by intros ->. Qed.

(** Only the link of the last buffer changes, and the new one is set up. *)
Lemma building_snoc m p r c q bq br n :
  building m p r c → q ∉ ats c → m !! q = Some bq → m !! r = Some br → q.1 = POOL →
  building (<[q := Pbuf None PBUF_FLAG_POOL 1 (Some (ptr_add q sizeof_pbuf)) (tot_len bq) n]>
              (<[r := set_next (Some q) br]> m)) p q (c ++ [tail_piece q n]).
Proof.
  intros [Hl Hm (l & El) Ha] Hq Hbq Hbr Hqp. assert (q ≠ r) as Hqr by (intros ->; apply Hq; rewrite El; set_solver).
  pose proof (linked_NoDup _ _ _ Hl) as Hnd.
  unfold ats in *. split.
  - unfold ats. rewrite fmap_app. cbn. rewrite El in *. unfold linked. rewrite lseg_app. exists (Some q). split.
    + apply lseg_snoc in Hl as [Hl _]. apply lseg_snoc. split.
      * eapply lseg_frame; [|exact Hl]. intros a Hin. unfold nxt.
        assert (a ≠ r) by (intros ->; apply NoDup_app in Hnd as (_ & Hd & _); apply (Hd r); set_solver).
        rewrite !lookup_insert_ne; [done|done|]. intros ->. set_solver.
      * unfold nxt. rewrite lookup_insert_ne by done. by rewrite lookup_insert_eq.
    + cbn. split; [done|]. exists None. unfold nxt. by rewrite lookup_insert_eq.
  - apply Forall_app. split; [|constructor; [|done]].
    + apply matches_insert_ne; [done|]. rewrite Forall_forall in *. intros pc Hpc. destruct (Hm pc Hpc) as (b & Hb & ?).
      destruct (decide (p_at pc = r)) as [E|Hne].
      * exists (set_next (Some q) br). rewrite E, lookup_insert_eq. rewrite E, Hbr in Hb. by injection Hb as <-.
      * exists b. by rewrite lookup_insert_ne.
    + eexists. cbn. rewrite lookup_insert_eq. done.
  - exists (ats c). unfold ats. by rewrite fmap_app.
  - unfold ats. rewrite fmap_app, Forall_app. split; [done|]. by repeat constructor.
Qed.

Lemma taken_pool s P A F D cs P' A' a :
  bufs_ok s P A F D cs → P ++ A ≡ₚ a :: P' ++ A' → a.1 = POOL.
Proof.
  intros Hok Hp. pose proof (bo_area _ _ _ _ _ _ Hok) as Har. rewrite app_assoc, Forall_app, Hp, Forall_cons in Har. tauto.
Qed.

Lemma tail_piece_ok q n : q.1 = POOL → 0 <= n <= PBUF_POOL_BUFSIZE → piece_ok (tail_piece q n).
Proof.
  intros Hq Hn. unfold piece_ok. cbn. rewrite Hq. unfold PBUF_POOL_BUFSIZE, sizeof_pbuf in *. split_and!; (done || lia).
Qed.

(** The last buffer of a chain that is being built has no next one. *)
Lemma building_last m p r c : building m p r c → ∃ b, m !! r = Some b ∧ next b = None.
Proof.
  intros [Hl _ (l & El) _]. rewrite El in Hl. apply lseg_snoc in Hl as [_ Hn]. unfold nxt in Hn.
  apply fmap_Some in Hn as (b & Hb & Hn). by exists b.
Qed.

(** One round of the loop: the buffer [q] is set up behind [r]. *)
Lemma tail_round s P A F D cs p r c q br bq n k (rest : @PM R M k) :
  bufs_ok s P A F (q :: ats c ++ D) cs → building (structs s) p r c → structs s !! q = Some bq → structs s !! r = Some br →
  ∃ m', (put q (set_next None);; put r (set_next (Some q));; put q (set_len n);; put q (set_kind PBUF_FLAG_POOL);;
         put q (set_payload (Some (ptr_add q sizeof_pbuf)));; put q (set_ref 1);; rest) s = rest (with_structs m' s) ∧
    m' = <[q := Pbuf None PBUF_FLAG_POOL 1 (Some (ptr_add q sizeof_pbuf)) (tot_len bq) n]>
           (<[r := set_next (Some q) br]> (structs s)) ∧
    bufs_ok (with_structs m' s) P A F (q :: ats c ++ D) cs.
Proof.
  intros Hok Hb Hq Hr. assert (q ∉ ats c) as Hn.
  { pose proof (bo_nodup _ _ _ _ _ _ Hok) as Hnd. rewrite !NoDup_app, NoDup_cons in Hnd. set_solver. }
  assert (r ∈ ats c) as Hrc by (destruct (bd_last _ _ _ _ Hb) as (l & ->); set_solver).
  assert (q ≠ r) as Hqr by by intros ->.
  eexists. split; [|split; [done|]].
  - rewrite (pm_bind_run _ _ _ _ _ (put_run _ _ _ _ Hq)). erewrite pm_bind_run; [|apply put_run; cbn; by rewrite lookup_insert_ne].
    rewrite !put_put. erewrite pm_bind_run; [|apply put_run; cbn; rewrite lookup_insert_ne by done; by rewrite lookup_insert_eq].
    rewrite !with_structs_twice. cbn [structs with_structs].
    by rewrite (insert_insert_ne (structs s) r q), insert_insert_eq by done.
  - apply bo_change; [done| |].
    + intros a Ha. rewrite !lookup_insert_ne; [done| |]; intros ->; apply Ha; [|by left]. right. apply elem_of_app. by left.
    + intros a Ha. rewrite !lookup_insert_is_Some. pose proof (bo_dom _ _ _ _ _ _ Hok a) as Hd.
      destruct (decide (q = a)) as [|]; [by left|]. right. split; [done|]. destruct (decide (r = a)); [by left|].
      right. split; [done|]. apply Hd. rewrite !elem_of_app. tauto.
Qed.

Lemma total_app c c' : total (c ++ c') = total c + total c'.
Proof. induction c as [|pc c IH]; cbn; [done|]. unfold total in *. rewrite IH. lia. Qed.

Lemma ats_app c c' : ats (c ++ c') = ats c ++ ats c'.
Proof. apply fmap_app. Qed.

(** A piece of a new packet. *)
Definition fresh_piece (k : pbuf_kind) (pc : piece) : Prop := p_kind pc = k ∧ p_ref pc = 1.

Lemma alloc_tail_ok fuel s P A F D cs p r c rsize :
  bufs_ok s P A F (ats c ++ D) cs → building (structs s) p r c → rsize <= 128 * Z.of_nat fuel →
  ∃ ok s' P' A', alloc_tail fuel p r rsize s = Some (ok, s') ∧
    if ok : bool then
      ∃ c' r', bufs_ok s' P' A' F (ats (c ++ c') ++ D) cs ∧ building (structs s') p r' (c ++ c') ∧
        Forall piece_ok c' ∧ Forall (fresh_piece PBUF_FLAG_POOL) c' ∧ total c' = Z.max 0 rsize ∧
        (∀ a, a ∈ ats c → tot_len <$> structs s' !! a = tot_len <$> structs s !! a)
    else Z.of_nat (length (P ++ A)) * 128 < rsize ∧ bufs_ok s' P' A' F D cs.
Proof.
  revert s P A r c rsize. induction fuel as [|fuel IH]; intros s P A r c rsize Hok Hb Hfuel; cbn [alloc_tail];
    destruct (0 <? rsize) eqn:Epos; try lia;
    try (destruct (building_last _ _ _ _ Hb) as (br & Hbr & Hnone);
         exists true, s, P, A; rewrite (pm_bind_run _ _ _ _ _ (put_run _ _ _ _ Hbr));
         replace (set_next None br) with br by (destruct br; cbn in *; by subst);
         rewrite insert_id by done; split; [by destruct s|];
         exists [], r; rewrite app_nil_r; split_and!; [done|done|done|done|cbn; lia|done]).
  destruct (pool_alloc_ok _ _ _ _ _ _ Hok) as (q & s1 & Hq & Es & Hr). rewrite (pm_bind_run _ _ _ _ _ Hq).
  rewrite <-Es in Hb. destruct q as [q|].
  - destruct Hr as (P1 & A1 & Hp & Hok1). pose proof (taken_pool _ _ _ _ _ _ _ _ _ Hok Hp) as Hqp.
    destruct (bo_get _ _ _ _ _ _ q Hok1) as [bq Hbq]; [set_solver|].
    destruct (building_last _ _ _ _ Hb) as (br & Hbr & _).
    assert (q ∉ ats c) as Hqn.
    { pose proof (bo_nodup _ _ _ _ _ _ Hok1) as Hnd. rewrite !NoDup_app, NoDup_cons in Hnd. set_solver. }
    set (n := if PBUF_POOL_BUFSIZE <? rsize then PBUF_POOL_BUFSIZE else rsize).
    assert (n = Z.min 128 rsize) as En by (subst n; unfold PBUF_POOL_BUFSIZE; destruct (128 <? rsize) eqn:E; lia).
    destruct (tail_round _ _ _ _ _ _ _ _ _ _ _ _ n _ (alloc_tail fuel p q (rsize - PBUF_POOL_BUFSIZE)) Hok1 Hb Hbq Hbr)
      as (m' & -> & Em' & Hok2).
    assert (building m' p q (c ++ [tail_piece q n])) as Hb2 by (rewrite Em'; by eapply building_snoc).
    assert (bufs_ok (with_structs m' s1) P1 A1 F (ats (c ++ [tail_piece q n]) ++ D) cs) as Hok3.
    { rewrite ats_app. change (ats [tail_piece q n]) with [q]. rewrite <-(app_assoc (ats c)). cbn [app]. by rewrite <-Permutation_middle. }
    destruct (IH _ _ _ q _ (rsize - PBUF_POOL_BUFSIZE) Hok3 Hb2) as (ok & s' & P' & A' & Hrun & Hres).
    { unfold PBUF_POOL_BUFSIZE. lia. }
    exists ok, s', P', A'. split; [done|]. destruct ok.
    + destruct Hres as (c' & r' & Hok' & Hb' & Hp' & Hfr & Ht & Hkeep). exists (tail_piece q n :: c'), r'.
      rewrite cons_middle, app_assoc. split_and!; [done|done| |by constructor|change (n + total c' = Z.max 0 rsize); rewrite Ht; unfold PBUF_POOL_BUFSIZE; lia|].
      * constructor; [|done]. apply tail_piece_ok; [done|unfold PBUF_POOL_BUFSIZE; lia].
      * intros a Ha. rewrite Hkeep by (rewrite ats_app; set_solver). cbn [structs with_structs]. rewrite Em', <-Es.
        rewrite lookup_insert_ne by (by intros ->). destruct (decide (r = a)) as [<-|Hne]; [by rewrite lookup_insert_eq, Hbr|].
        by rewrite lookup_insert_ne.
    + destruct Hres as [Hlen Hok']. split; [|done]. rewrite Hp. cbn [length]. unfold PBUF_POOL_BUFSIZE in Hlen. lia.
  - destruct Hr as (-> & -> & Hok1). pm.
    destruct (pool_free_ok _ [] [] F D cs p (ats c) (count_ok _ _ _ _ _ _ count_pbuf_err Hok1) (bd_linked _ _ _ _ Hb)
      (bd_area _ _ _ _ Hb)) as (s' & -> & Hok').
    exists false, s', [], ([] ++ ats c). split; [done|]. split; [cbn; lia|done].
Qed.

(** A new packet of [size] bytes with room for [off] bytes in front of it; outside
    of the pool it is one piece. *)
Definition new_packet (k : pbuf_kind) (off size : Z) (p : ptr) (c : list piece) : Prop :=
  p_at <$> head c = Some p ∧ total c = size ∧ Forall (fresh_piece k) c ∧
  (k ≠ PBUF_FLAG_POOL → length c = 1%nat) ∧
  match k with
  | PBUF_FLAG_ROM => True
  | _ => ∃ d, p_start <$> head c = Some (Some d) ∧ p.2 + sizeof_pbuf + off <= d.2
  end.

(** A change of the fields of a head that a later step reads. *)
Lemma building_head m p r pc c b :
  building m p r (pc :: c) → m !! p = Some b → p_at pc = p →
  building (<[p := set_ref 1 b]> m) p r (Piece p (p_kind pc) (p_start pc) (p_len pc) 1 :: c).
Proof.
  intros [Hl Hm Hlast Ha] Hb <-. pose proof (linked_NoDup _ _ _ Hl) as Hnd. unfold ats in *. cbn in *.
  apply Forall_cons in Hm as [(b' & Hb' & Hk & Hs & Hn & _) Hm]. rewrite Hb in Hb'. injection Hb' as <-.
  apply NoDup_cons in Hnd as [Hn1 Hnd]. split; [|constructor|done|done].
  - destruct Hl as [_ (n & Hn' & Hl)]. split; [done|]. exists n. unfold nxt in *. rewrite lookup_insert_eq. rewrite Hb in Hn'.
    split; [done|]. eapply lseg_frame; [|exact Hl]. intros a Hin. unfold nxt. rewrite lookup_insert_ne; [done|]. by intros <-.
  - exists (set_ref 1 b). cbn. by rewrite lookup_insert_eq.
  - by apply matches_insert_ne.
Qed.

Lemma pool_ptr_aligned a off : a ∈ pool_ptrs → off mod 4 = 0 → ptr_align (ptr_add a (sizeof_pbuf + off)) = (POOL, a.2 + sizeof_pbuf + off).
Proof.
  unfold pool_ptrs. rewrite list_elem_of_fmap. intros (i & -> & _) Hoff. unfold ptr_align, ptr_add, MEM_ALIGN_SIZE, MEM_ALIGNMENT. cbn.
  unfold PBUF_POOL_BUFSIZE, sizeof_pbuf. destruct (_ =? 0) eqn:E; [f_equal; lia|].
  exfalso. Z.to_euclidean_division_equations. lia.
Qed.

Lemma alloc_pool_ok s P A F D cs off size :
  bufs_ok s P A F D cs → 0 <= off <= PBUF_POOL_BUFSIZE → off mod 4 = 0 → is_u16 size →
  ∃ r s' P' A', alloc_pool off size s = Some (r, s') ∧
    match r with
    | None => (P ++ A = [] ∨ Z.of_nat (length (P ++ A)) * 128 < size + off) ∧ bufs_ok s' P' A' F D cs
    | Some p => ∃ c, new_packet PBUF_FLAG_POOL off size p c ∧ bufs_ok s' P' A' F D (c :: cs)
    end.
Proof.
  intros Hok Hoff Hal Hs. unfold alloc_pool.
  destruct (pool_alloc_ok _ _ _ _ _ _ Hok) as (q & s1 & Hq & Es & Hr). rewrite (pm_bind_run _ _ _ _ _ Hq).
  destruct q as [q|].
  2: { destruct Hr as (-> & -> & Hok1). exists None, (count count_pbuf_err s1), [], []. split; [done|].
       split; [by left|]. by apply count_ok. }
  destruct Hr as (P1 & A1 & Hp & Hok1). pose proof (taken_pool _ _ _ _ _ _ _ _ _ Hok Hp) as Hqp.
  destruct (bo_get _ _ _ _ _ _ q Hok1) as [bq Hbq]; [set_solver|].
  rewrite (pool_ptr_aligned q off) by (try done; apply (bo_static _ _ _ _ _ _ Hok1 q Hqp); by eexists).
  set (n := if PBUF_POOL_BUFSIZE - off <? size then PBUF_POOL_BUFSIZE - off else size).
  assert (n = Z.min (128 - off) size) as En.
  { subst n. unfold PBUF_POOL_BUFSIZE. destruct (128 - off <? size) eqn:E; lia. }
  unfold PBUF_POOL_BUFSIZE, is_u16 in *. rewrite !put_put, (pm_bind_run _ _ _ _ _ (put_run _ _ _ _ Hbq)).
  cbn [set_kind set_len set_tot_len set_payload set_next].
  set (b1 := set_kind _ _). pose proof (put_ok _ _ _ _ _ _ q (λ _, b1) bq Hok1 ltac:(set_solver) Hbq) as Hok2.
  set (pc := Piece q PBUF_FLAG_POOL (Some (POOL, q.2 + sizeof_pbuf + off)) n (ref bq)).
  assert (building (<[q := b1]> (structs s1)) q q [pc]) as Hb.
  { split; [|repeat constructor|by exists []|by repeat constructor].
    - split; [done|]. exists None. unfold nxt. by rewrite lookup_insert_eq.
    - exists b1. cbn. by rewrite lookup_insert_eq. }
  destruct (alloc_tail_ok (Z.to_nat ((size - n) / PBUF_POOL_BUFSIZE + 1)) _ _ _ _ D cs q q [pc] (size - n) Hok2 Hb)
    as (ok & s' & P' & A' & Hrun & Hres).
  { unfold PBUF_POOL_BUFSIZE. rewrite Z2Nat.id by (Z.to_euclidean_division_equations; lia). Z.to_euclidean_division_equations. lia. }
  unfold PBUF_POOL_BUFSIZE in Hrun. rewrite (pm_bind_run _ _ _ _ _ Hrun). destruct ok.
  2: { destruct Hres as [Hlen Hok']. exists None, s', P', A'. split; [done|]. split; [|done]. right.
       rewrite Hp. cbn [length]. lia. }
  destruct Hres as (c' & r' & Hok' & Hb' & Hpc & Hfr & Ht & Hkeep). cbn [app] in Hb'.
  destruct (bo_get _ _ _ _ _ _ q Hok') as [bq' Hbq']; [rewrite !elem_of_app; do 3 right; left; by left|].
  rewrite (pm_bind_run _ _ _ _ _ (put_run _ _ _ _ Hbq')). eexists (Some q), _, P', A'. split; [done|].
  pose proof (building_head _ _ _ _ _ _ Hb' Hbq' eq_refl) as [Hl Hm _ _]. cbn [p_kind p_start p_len pc] in Hl, Hm.
  exists (Piece q PBUF_FLAG_POOL (Some (POOL, q.2 + sizeof_pbuf + off)) n 1 :: c').
  split; [split_and!; [done|change (n + total c' = size); lia|by constructor|done|by eexists]|].
  apply bo_give; [|exists q; split_and!; [done|exact Hl|exact Hm|]|].
  - by apply put_ok; [|rewrite !elem_of_app; left; left|].
  - cbn [structs with_structs]. rewrite lookup_insert_eq. cbn. f_equal.
    specialize (Hkeep q ltac:(by left)). rewrite Hbq' in Hkeep. cbn in Hkeep. rewrite lookup_insert_eq in Hkeep.
    injection Hkeep as ->. cbn. rewrite u16_small by (change (is_u16 (n + total c')); unfold is_u16; lia).
    change (size = n + total c'). lia.
  - constructor; [|done]. unfold piece_ok. cbn. rewrite Hqp. unfold PBUF_POOL_BUFSIZE. split_and!; (done || lia).
Qed.

(** ** Structures that come and go with their memory *)

Lemma backed_other {A} (holds : A → gmap Z Z → Prop) st ar m m' :
  (∀ o, is_Some (m' !! (ar, o)) ↔ is_Some (m !! (ar, o))) → backed holds st ar m → backed holds st ar m'.
Proof. intros E (b & Hb & Hd). exists b. split; [done|]. intros o. by rewrite E. Qed.

Lemma backed_new {A} (holds : A → gmap Z Z → Prop) st' ar m b o n x :
  (∀ o, is_Some (b !! o) ↔ is_Some (m !! (ar, o))) → holds st' (<[o := n]> b) → backed holds st' ar (<[(ar, o) := x]> m).
Proof.
  intros Hd Hh. exists (<[o := n]> b). split; [done|]. intros o'. rewrite !lookup_insert_is_Some, Hd.
  split; intros [E|[E ?]]; try (left; congruence); right; split; congruence.
Qed.

Lemma backed_gone {A} (holds : A → gmap Z Z → Prop) st' ar m b o :
  (∀ o, is_Some (b !! o) ↔ is_Some (m !! (ar, o))) → holds st' (delete o b) → backed holds st' ar (delete (ar, o) m).
Proof.
  intros Hd Hh. exists (delete o b). split; [done|]. intros o'. rewrite !lookup_delete_is_Some, Hd.
  split; intros [E ?]; split; congruence.
Qed.

Lemma bo_add s P A F D cs a x r1 m1 :
  bufs_ok s P A F D cs → structs s !! a = None → a.1 ≠ POOL →
  backed ram_holds r1 RAM (<[a := x]> (structs s)) → backed memp_holds m1 MEMP (<[a := x]> (structs s)) →
  bufs_ok (with_structs (<[a := x]> (structs s)) (with_ram r1 (with_memp m1 s))) P A F (a :: D) cs.
Proof.
  intros Hok Hn Hpool Hr Hm.
  assert (a ∉ P ++ A ++ F ++ D ++ ats (concat cs)) as Hout.
  { intros [y Hy]%(bo_dom _ _ _ _ _ _ Hok). congruence. }
  assert (∀ a', a' ∈ P ++ A ++ F ++ D ++ ats (concat cs) → <[a := x]> (structs s) !! a' = structs s !! a') as Hsame.
  { intros a' Ha'. rewrite lookup_insert_ne; [done|]. by intros ->. }
  assert (P ++ A ++ F ++ (a :: D) ++ ats (concat cs) ≡ₚ a :: P ++ A ++ F ++ D ++ ats (concat cs)) as Hp by perm_solve.
  destruct Hok as [H1 H2 H3 H4 H5 H6 H7 H8 H9 H10 H11 H12]. split; cbn; try done.
  1-3: eapply linked_same; [|done]; intros a' Ha'; apply Hsame; rewrite !elem_of_app; tauto.
  - rewrite Forall_forall in *. intros c Hc. eapply chain_ok_same; [|by apply H4]. intros a' Ha'. apply Hsame.
    rewrite !elem_of_app. do 4 right. by eapply ats_concat_elem.
  - rewrite Hp. by apply NoDup_cons.
  - intros a'. rewrite Hp, lookup_insert_is_Some, elem_of_cons, H7. naive_solver.
  - intros a' Ha'. rewrite lookup_insert_ne by (by intros ->). by apply H9.
Qed.

Lemma bo_remove s P A F D cs a r1 m1 :
  bufs_ok s P A F (a :: D) cs → a.1 ≠ POOL →
  backed ram_holds r1 RAM (delete a (structs s)) → backed memp_holds m1 MEMP (delete a (structs s)) →
  bufs_ok (with_structs (delete a (structs s)) (with_ram r1 (with_memp m1 s))) P A F D cs.
Proof.
  intros Hok Hpool Hr Hm.
  assert (P ++ A ++ F ++ (a :: D) ++ ats (concat cs) ≡ₚ a :: P ++ A ++ F ++ D ++ ats (concat cs)) as Hp by perm_solve.
  destruct Hok as [H1 H2 H3 H4 H5 H6 H7 H8 H9 H10 H11 H12]. rewrite Hp in H6. apply NoDup_cons in H6 as [Hout H6].
  assert (∀ a', a' ∈ P ++ A ++ F ++ D ++ ats (concat cs) → delete a (structs s) !! a' = structs s !! a') as Hsame.
  { intros a' Ha'. rewrite lookup_delete_ne; [done|]. by intros ->. }
  split; cbn; try done.
  1-3: eapply linked_same; [|done]; intros a' Ha'; apply Hsame; rewrite !elem_of_app; tauto.
  - rewrite Forall_forall in *. intros c Hc. eapply chain_ok_same; [|by apply H4]. intros a' Ha'. apply Hsame.
    rewrite !elem_of_app. do 4 right. by eapply ats_concat_elem.
  - intros a'. specialize (H7 a'). rewrite Hp, elem_of_cons in H7. rewrite lookup_delete_is_Some, H7.
    split; [naive_solver|]. intros Ha'. split; [by intros ->|by right].
  - intros a' Ha'. rewrite lookup_delete_ne by (by intros ->). by apply H9.
Qed.

(** The address of a new block is not that of a structure. *)
Lemma backed_fresh (ar : area) (m : gmap ptr pbuf) (b : gmap Z Z) o :
  (∀ o, is_Some (b !! o) ↔ is_Some (m !! (ar, o))) → b !! o = None → m !! (ar, o) = None.
Proof. intros Hd Hn. apply eq_None_not_Some. rewrite <-Hd, Hn. by intros [? ?]. Qed.

(** A new structure by itself is a packet. *)
Lemma single_chain (m : gmap ptr pbuf) (a : ptr) x :
  m !! a = Some x → next x = None → tot_len x = u16 (len x) →
  chain_ok m [Piece a (kind x) (payload x) (len x) (ref x)].
Proof.
  intros Hx Hn Ht. exists a. split; [done|]. split; [|split].
  - split; [done|]. exists None. split; [|done]. rewrite <-Hn. by apply nxt_some.
  - repeat constructor. by exists x.
  - rewrite Hx. cbn. rewrite Ht. do 2 f_equal. lia.
Qed.

Context {ram_limit memp_limit : Z}.
Context `{!StoreLaws R ram_limit ram_holds, !ShrinkLaws R ram_holds, !StoreLaws M memp_limit memp_holds}.

(** ** Deallocation *)

(** The memory of a structure in hand is given back. *)
Lemma ram_free_ok s P A F D cs a :
  bufs_ok s P A F (a :: D) cs → a.1 = RAM →
  ∃ s', (ram_free a;; destroy a) s = Some (tt, s') ∧ bufs_ok s' P A F D cs ∧ structs s' = delete a (structs s).
Proof.
  intros Hok Ha. destruct a as [ar o]. cbn in Ha. subst ar. pose proof (bo_ram _ _ _ _ _ _ Hok) as (b & Hb & Hd).
  destruct (bo_get _ _ _ _ _ _ (RAM, o) Hok) as [x Hx]; [set_solver|].
  destruct (proj2 (Hd o) (mk_is_Some _ _ Hx)) as [n Hn].
  destruct (store_free_ok (ram_store s) b o n Hb Hn) as (st & Hst & Hh).
  unfold ram_free, destroy. pm. cbn [snd]. rewrite Hst. eexists. split; [done|]. split; [|done].
  change (with_ram st s) with (with_ram st (with_memp (Pbuf.memp_store s) s)). cbn [structs with_ram with_memp].
  apply bo_remove; [done|done|by eapply backed_gone|]. eapply backed_other; [|apply (bo_memp _ _ _ _ _ _ Hok)].
  intros o'. by rewrite lookup_delete_ne.
Qed.

Lemma rom_free_ok s P A F D cs a :
  bufs_ok s P A F (a :: D) cs → a.1 = MEMP →
  ∃ s', (pbuf_mfree a;; destroy a) s = Some (tt, s') ∧ bufs_ok s' P A F D cs ∧ structs s' = delete a (structs s).
Proof.
  intros Hok Ha. destruct a as [ar o]. cbn in Ha. subst ar. pose proof (bo_memp _ _ _ _ _ _ Hok) as (b & Hb & Hd).
  destruct (bo_get _ _ _ _ _ _ (MEMP, o) Hok) as [x Hx]; [set_solver|].
  destruct (proj2 (Hd o) (mk_is_Some _ _ Hx)) as [n Hn].
  destruct (store_free_ok (Pbuf.memp_store s) b o n Hb Hn) as (st & Hst & Hh).
  unfold pbuf_mfree, destroy. pm. cbn [snd]. rewrite Hst. eexists. split; [done|]. split; [|done].
  change (with_memp st s) with (with_ram (ram_store s) (with_memp st s)). cbn [structs with_ram with_memp].
  apply bo_remove; [done|done| |by eapply backed_gone]. eapply backed_other; [|apply (bo_ram _ _ _ _ _ _ Hok)].
  intros o'. by rewrite lookup_delete_ne.
Qed.

(** One round of the loop of [pbuf_free]. *)
Definition free_one (a : ptr) (b : pbuf) : @PM R M unit :=
  match kind b with
  | PBUF_FLAG_POOL =>
      put a (λ b, set_payload (Some (ptr_add a sizeof_pbuf))
                    (set_len PBUF_POOL_BUFSIZE (set_tot_len PBUF_POOL_BUFSIZE b)));;
      PBUF_POOL_FREE a;;
      modify (count (count_pbuf_used (-1)))
  | PBUF_FLAG_ROM => pbuf_mfree a;; destroy a
  | PBUF_FLAG_RAM => ram_free a;; destroy a
  end.

Lemma free_one_ok s P A F D cs a b :
  bufs_ok s P A F (a :: D) cs → structs s !! a = Some b → area_kind a.1 = Some (kind b) →
  ∃ s' F', free_one a b s = Some (tt, s') ∧ bufs_ok s' P A F' D cs ∧
    ∀ a', a' ≠ a → structs s' !! a' = structs s !! a'.
Proof.
  intros Hok Hb Hk. unfold free_one. destruct (kind b) eqn:Ek.
  - assert (a.1 = RAM) as Ha by (by destruct (a.1)). destruct (ram_free_ok _ _ _ _ _ _ _ Hok Ha) as (s' & -> & Hok' & Es).
    exists s', F. split_and!; [done|done|]. intros a' Hne. by rewrite Es, lookup_delete_ne.
  - assert (a.1 = MEMP) as Ha by (by destruct (a.1)). destruct (rom_free_ok _ _ _ _ _ _ _ Hok Ha) as (s' & -> & Hok' & Es).
    exists s', F. split_and!; [done|done|]. intros a' Hne. by rewrite Es, lookup_delete_ne.
  - assert (a.1 = POOL) as Ha by (by destruct (a.1)). rewrite (pm_bind_run _ _ _ _ _ (put_run _ _ _ _ Hb)).
    pose proof (put_ok _ _ _ _ _ _ a (λ b, set_payload (Some (ptr_add a sizeof_pbuf))
      (set_len PBUF_POOL_BUFSIZE (set_tot_len PBUF_POOL_BUFSIZE b))) b Hok ltac:(by left) Hb) as Hok1.
    destruct (pool_free_one_ok _ _ _ _ _ _ _ Hok1 Ha) as (s' & Hrun & Hok' & Hs).
    rewrite (pm_bind_run _ _ _ _ _ Hrun). eexists _, (a :: F). split; [done|]. split; [by apply count_ok|].
    intros a' Hne. cbn. rewrite Hs by done. cbn. by rewrite lookup_insert_ne.
Qed.

Lemma free_chain_ok fuel s P A F D cs p l n :
  bufs_ok s P A F (l ++ D) cs → linked (nxt (structs s)) p l → kinds_ok (structs s) l → (length l <= fuel)%nat →
  0 <= n < 256 →
  ∃ s' F', free_chain fuel p n s = Some (u8 (n + Z.of_nat (length l)), s') ∧ bufs_ok s' P A F' D cs ∧
    ∀ a, a ∉ l → structs s' !! a = structs s !! a.
Proof.
  revert s F p fuel n. induction l as [|a l IH]; intros s F p fuel n Hok Hl Hk Hf Hn.
  - cbn in Hl. subst p. exists s, F. destruct fuel; cbn; (split_and!; [|done|done]); rewrite Z.add_0_r, u8_small by (unfold is_byte; lia); done.
  - pose proof (linked_NoDup _ _ _ Hl) as [Hal _]%NoDup_cons.
    destruct Hl as [-> (nx & Hnx & Hl)]. destruct fuel as [|fuel]; [cbn in Hf; lia|]. cbn [free_chain].
    apply Forall_cons in Hk as [(b & Hb & Hkb) Hk]. pose proof (nxt_some _ _ _ Hb) as Hnb. rewrite Hnx in Hnb.
    injection Hnb as ->. rewrite (pm_bind_run _ _ _ _ _ (get_run _ _ _ Hb)). fold (free_one a b).
    cbn [app] in Hok.
    destruct (free_one_ok _ _ _ _ _ _ _ _ Hok Hb Hkb) as (s1 & F1 & Hrun & Hok1 & Hs1).
    rewrite (pm_bind_run _ _ _ _ _ Hrun).
    assert (∀ a', a' ∈ l → structs s1 !! a' = structs s !! a') as Hsame by (intros a' Ha'; apply Hs1; by intros ->).
    destruct (IH s1 F1 (next b) fuel (u8 (n + 1))) as (s' & F' & -> & Hok' & Hs').
    { done. } { by eapply linked_same. } { by eapply kinds_ok_same. } { cbn in Hf. lia. } { pose proof (u8_range (n + 1)) as Hr. unfold is_byte in Hr. lia. }
    exists s', F'. split_and!; [|done|].
    + do 2 f_equal. cbn [length]. unfold u8. rewrite Zplus_mod_idemp_l. f_equal. lia.
    + intros a' Ha'. apply not_elem_of_cons in Ha' as [Hne Ha']. rewrite Hs' by done. by apply Hs1.
Qed.
(** ** Allocation from the heap and for data elsewhere *)

(** The allocators serve every packet. *)
Context (ram_serves : 65632 <= ram_limit) (memp_serves : sizeof_pbuf <= memp_limit).

Lemma alloc_ram_ok s P A F D cs off size :
  bufs_ok s P A F D cs → 0 <= off <= 56 → is_u16 size →
  ∃ r s', alloc_ram off size s = Some (r, s') ∧
    match r with
    | None => bufs_ok s' P A F D cs
    | Some p => ∃ c, new_packet PBUF_FLAG_RAM off size p c ∧ bufs_ok s' P A F D (c :: cs)
    end.
Proof.
  intros Hok Hoff Hs. pose proof (bo_ram _ _ _ _ _ _ Hok) as (b & Hb & Hd). pose proof (bo_memp _ _ _ _ _ _ Hok) as Hmemp.
  unfold is_u16 in Hs.
  assert (∀ z, z <= MEM_ALIGN_SIZE z < z + 4) as Hal.
  { intros z. unfold MEM_ALIGN_SIZE, MEM_ALIGNMENT. destruct (z mod 4 =? 0) eqn:E; Z.to_euclidean_division_equations; lia. }
  pose proof (Hal (sizeof_pbuf + size + off)) as Hn.
  destruct (store_malloc_ok (ram_store s) b (MEM_ALIGN_SIZE (sizeof_pbuf + size + off)) Hb) as (r & st & Hr & Hres).
  { unfold sizeof_pbuf in *. lia. }
  unfold alloc_ram, ram_malloc. pm. rewrite Hr. destruct r as [o|]; cbn [fmap option_fmap option_map].
  2: { exists None, (with_ram st s). split; [done|]. destruct Hok. split; try done. by exists b. }
  destruct Hres as (Hnone & _ & Hh). set (d := ptr_align (ptr_add (RAM, o) (sizeof_pbuf + off))).
  set (x := Pbuf None PBUF_FLAG_RAM 1 (Some d) size size). unfold create, modify. cbn [structs with_ram].
  assert (structs s !! (RAM, o) = None) as Hfresh by by eapply backed_fresh.
  assert (bufs_ok (with_structs (<[(RAM, o) := x]> (structs s)) (with_ram st (with_memp (Pbuf.memp_store s) s))) P A F ((RAM, o) :: D) cs) as Hok'.
  { apply bo_add; [done|done|done|by eapply backed_new|]. eapply backed_other; [|exact Hmemp]. intros o'.
    by rewrite lookup_insert_ne. }
  eexists _, _. split; [done|]. exists [Piece (RAM, o) PBUF_FLAG_RAM (Some d) size 1].
  pose proof (Hal (o + (sizeof_pbuf + off))) as Hd'.
  split; [split_and!; [done|cbn; lia|by repeat constructor|done|exists d; split; [done|cbn; lia]]|].
  apply bo_give; [exact Hok'| |].
  - apply (single_chain _ (RAM, o) x); [apply lookup_insert_eq|done|]. cbn. by rewrite u16_small.
  - repeat constructor; cbn; try lia.
Qed.

Lemma alloc_rom_ok s P A F D cs size :
  bufs_ok s P A F D cs → is_u16 size →
  ∃ r s', alloc_rom size s = Some (r, s') ∧
    match r with
    | None => bufs_ok s' P A F D cs
    | Some p => ∃ c, new_packet PBUF_FLAG_ROM 0 size p c ∧ bufs_ok s' P A F D (c :: cs)
    end.
Proof.
  intros Hok Hs. pose proof (bo_memp _ _ _ _ _ _ Hok) as (b & Hb & Hd). pose proof (bo_ram _ _ _ _ _ _ Hok) as Hram.
  destruct (store_malloc_ok (Pbuf.memp_store s) b sizeof_pbuf Hb) as (r & st & Hr & Hres); [unfold sizeof_pbuf in *; lia|].
  unfold alloc_rom, pbuf_malloc. pm. rewrite Hr. destruct r as [o|]; cbn [fmap option_fmap option_map].
  2: { exists None, (with_memp st s). split; [done|]. destruct Hok. split; try done. by exists b. }
  destruct Hres as (Hnone & _ & Hh). set (x := Pbuf None PBUF_FLAG_ROM 1 None size size). unfold create, modify. cbn [structs with_memp].
  assert (structs s !! (MEMP, o) = None) as Hfresh by by eapply backed_fresh.
  assert (bufs_ok (with_structs (<[(MEMP, o) := x]> (structs s)) (with_ram (ram_store s) (with_memp st s))) P A F ((MEMP, o) :: D) cs) as Hok'.
  { apply bo_add; [done|done|done| |by eapply backed_new]. eapply backed_other; [|exact Hram]. intros o'.
    by rewrite lookup_insert_ne. }
  eexists _, _. split; [done|]. exists [Piece (MEMP, o) PBUF_FLAG_ROM None size 1].
  split; [split_and!; [done|cbn; lia|by repeat constructor|done|done]|].
  apply bo_give; [exact Hok'| |].
  - apply (single_chain _ (MEMP, o) x); [apply lookup_insert_eq|done|]. cbn. by rewrite u16_small.
  - unfold is_u16 in Hs. repeat constructor; cbn; lia.
Qed.
End spec.
