(* ===== verification/PbufProps.v ===== *)
(** The packet buffers as their clients see them: packets that are allocated,
    cut, prepended, joined, split, shared and freed.

    A packet is named by the pointer to its first structure.  [packet_step] says
    what each call does to the packets, and the structures in memory refine it
    from [pbuf_init] on. *)

From Stdlib Require Import ZArith Lia.
From stdpp Require Import base tactics numbers gmap option list.
From S2P Require Import Prelude Mem Linked Store Pbuf PbufSpec.

Local Open Scope Z_scope.

(** A piece read off its structure. *)
Definition piece_of (a : ptr) (b : pbuf) : piece := Piece a (kind b) (payload b) (len b) (ref b).

Lemma piece_eta m pc b : matches m pc → m !! p_at pc = Some b → pc = piece_of (p_at pc) b.
Proof.
  destruct pc as [a k d n r]. intros (b' & Hb' & E1 & E2 & E3 & E4) Hb. cbn in *. rewrite Hb in Hb'.
  injection Hb' as <-. unfold piece_of. by subst.
Qed.

(** The first structure of a packet is changed. *)
Lemma chain_update m pc c b b' :
  chain_ok m (pc :: c) → m !! p_at pc = Some b → next b' = next b → tot_len b' = u16 (len b' + total c) →
  chain_ok (<[p_at pc := b']> m) (piece_of (p_at pc) b' :: c).
Proof.
  intros (h & [= <-] & Hl & Hm & _) Hb Hn Ht. pose proof (linked_NoDup _ _ _ Hl) as [Hout Hnd]%NoDup_cons.
  exists (p_at pc). split; [done|]. apply Forall_cons in Hm as [_ Hm]. split; [|split].
  - destruct Hl as [_ (n & Hn' & Hl)]. split; [done|]. exists n. split.
    + unfold nxt. cbn. rewrite lookup_insert_eq. rewrite (nxt_some _ _ _ Hb) in Hn'. cbn. by rewrite Hn.
    + eapply linked_same; [|exact Hl]. intros a Ha. rewrite lookup_insert_ne; [done|]. intros E. apply Hout. by rewrite E.
  - constructor; [|by apply matches_insert_ne]. exists b'. cbn. by rewrite lookup_insert_eq.
  - rewrite lookup_insert_eq. cbn. by rewrite Ht.
Qed.

(** Changes that a piece does not show. *)
Lemma matches_insert_same m z b b' c :
  m !! z = Some b → kind b' = kind b → payload b' = payload b → len b' = len b → ref b' = ref b →
  Forall (matches m) c → Forall (matches (<[z := b']> m)) c.
Proof.
  intros Hz Ek Ep El Er Hm. rewrite Forall_forall in *. intros pc Hpc. destruct (Hm pc Hpc) as (b0 & Hb0 & H1 & H2 & H3 & H4).
  destruct (decide (p_at pc = z)) as [E|Hne].
  - rewrite E, Hz in Hb0. injection Hb0 as <-. exists b'. rewrite E, lookup_insert_eq. split_and!; congruence.
  - exists b0. by rewrite lookup_insert_ne.
Qed.

Lemma nxt_insert_same (m : gmap ptr pbuf) z b b' a : m !! z = Some b → next b' = next b → nxt (<[z := b']> m) a = nxt m a.
Proof.
  intros Hz En. unfold nxt. destruct (decide (a = z)) as [->|Hne]; [by rewrite lookup_insert_eq, Hz; cbn; rewrite En|].
  by rewrite lookup_insert_ne.
Qed.

(** The total length is stored in the first structure. *)
Lemma chain_set_tot m h c b v :
  p_at <$> head c = Some h → linked (nxt m) (Some h) (ats c) → Forall (matches m) c → m !! h = Some b →
  v = u16 (total c) → chain_ok (<[h := set_tot_len v b]> m) c.
Proof.
  intros Hh Hl Hm Hb ->. exists h. split_and!; [done| | |by rewrite lookup_insert_eq].
  - eapply lseg_frame; [|exact Hl]. intros a _. by eapply nxt_insert_same.
  - by eapply matches_insert_same.
Qed.

Lemma last_at (pc : piece) c : ∃ l z, ats (pc :: c) = l ++ [z].
Proof. destruct (exists_last (l := ats (pc :: c))) as (l & z & E); [done|]. by exists l, z. Qed.

Lemma single_packet m pc b :
  m !! p_at pc = Some b → pc = piece_of (p_at pc) b → next b = None → tot_len b = len b → 0 <= len b < 65536 → chain_ok m [pc].
Proof.
  destruct pc as [a k d n r]. cbn. intros Hb [= -> -> -> ->] Hn Ht Hl. apply (single_chain _ a b); [done|done|].
  rewrite u16_small; [done|]. unfold is_u16. lia.
Qed.

Section packets.
Context {R M : Type} `{!Store R, !Shrink R, !Store M} (base : area → Z).
Context {ram_limit memp_limit : Z} (ram_holds : R → gmap Z Z → Prop) (memp_holds : M → gmap Z Z → Prop).
Context `{!StoreLaws R ram_limit ram_holds, !ShrinkLaws R ram_holds, !StoreLaws M memp_limit memp_holds}.

Local Abbreviation state := (@bufs R M).
Local Abbreviation ok := (bufs_ok ram_holds memp_holds).

(** The structure at the head of a packet. *)
Lemma head_struct s P A F D pc c cs :
  ok s P A F D ((pc :: c) :: cs) →
  ∃ b, structs s !! p_at pc = Some b ∧ pc = piece_of (p_at pc) b ∧ tot_len b = u16 (p_len pc + total c) ∧ piece_ok pc.
Proof.
  intros Hok. apply bo_take in Hok as (_ & (h & [= <-] & _ & Hm & Ht) & Hp).
  apply Forall_cons in Hm as [Hm _]. apply Forall_cons in Hp as [Hp _].
  pose proof Hm as (b & Hb & _). exists b. rewrite Hb in Ht. injection Ht as Ht. split_and!; [done|by eapply piece_eta|done|done].
Qed.

(** An assignment to fields of the first structure. *)
Lemma head_put s P A F pc c cs b f :
  ok s P A F [] ((pc :: c) :: cs) → structs s !! p_at pc = Some b → next (f b) = next b →
  tot_len (f b) = u16 (len (f b) + total c) → piece_ok (piece_of (p_at pc) (f b)) →
  ok (with_structs (<[p_at pc := f b]> (structs s)) s) P A F [] ((piece_of (p_at pc) (f b) :: c) :: cs).
Proof.
  intros Hok Hb Hn Ht Hp. apply bo_take in Hok as (Hok & Hc & Hps). apply Forall_cons in Hps as [_ Hps].
  apply bo_give; [|by eapply chain_update|by constructor]. apply put_ok; [done|by left|done].
Qed.

Lemma pbuf_ref_ok s P A F pc c cs :
  ok s P A F [] ((pc :: c) :: cs) → p_ref pc < 255 →
  ∃ s', pbuf_ref (Some (p_at pc)) s = Some (tt, s') ∧
    ok s' P A F [] ((Piece (p_at pc) (p_kind pc) (p_start pc) (p_len pc) (p_ref pc + 1) :: c) :: cs).
Proof.
  intros Hok Hr. destruct (head_struct _ _ _ _ _ _ _ _ Hok) as (b & Hb & Epc & Ht & (Hk & Hr' & Hl & Hd)).
  assert (u8 (ref b + 1) = p_ref pc + 1) as Eu by (rewrite Epc; cbn; rewrite u8_small; [done|]; rewrite Epc in Hr', Hr; cbn in *; unfold is_byte; lia).
  eexists. cbn [pbuf_ref]. rewrite (put_run _ _ _ _ Hb). split; [done|].
  pose proof (head_put s P A F pc c cs b (λ b, set_ref (u8 (ref b + 1)) b) Hok Hb eq_refl) as Hp. rewrite Epc in *. cbn in *.
  rewrite Eu in *. apply Hp; [done|]. unfold piece_ok in *. cbn in *. split_and!; [done|lia|lia|lia|lia|done].
Qed.

(** What is left of a shared packet when one of its users frees it. *)
Lemma pbuf_free_shared s P A F pc c cs :
  ok s P A F [] ((pc :: c) :: cs) → 1 < p_ref pc →
  ∃ s', pbuf_free (Some (p_at pc)) s = Some (0, s') ∧
    ok s' P A F [] ((Piece (p_at pc) (p_kind pc) (p_start pc) (p_len pc) (p_ref pc - 1) :: c) :: cs).
Proof.
  intros Hok Hr. destruct (head_struct _ _ _ _ _ _ _ _ Hok) as (b & Hb & Epc & Ht & (Hk & Hr' & Hl & Hd)).
  assert (p_ref pc = ref b) as Er by by rewrite Epc. assert (u8 (ref b - 1) = p_ref pc - 1) as Eu.
  { rewrite u8_small; [lia|unfold is_byte; lia]. }
  cbn [pbuf_free]. rewrite (pm_bind_run _ _ _ _ _ (put_run _ _ _ _ Hb)).
  erewrite pm_bind_run; [|apply get_run; cbn; apply lookup_insert_eq]. cbn [ref set_ref]. rewrite Eu.
  rewrite (proj2 (Z.eqb_neq _ _)) by lia. eexists. split; [done|].
  pose proof (head_put s P A F pc c cs b (λ b, set_ref (p_ref pc - 1) b) Hok Hb eq_refl) as Hp. rewrite Epc in *. cbn in *.
  apply Hp; [done|]. unfold piece_ok in *. cbn in *. split_and!; [done|lia|lia|lia|lia|done].
Qed.

(** The last user frees a chain that is in hand. *)
Lemma free_hand s P A F D cs a l b :
  ok s P A F (l ++ D) cs → linked (nxt (structs s)) (Some a) l → kinds_ok (structs s) l →
  structs s !! a = Some b → ref b = 1 →
  ∃ s' P', pbuf_free (Some a) s = Some (u8 (Z.of_nat (length l)), s') ∧ ok s' P' A [] D cs ∧
    ∀ a', a' ∈ D ++ ats (concat cs) → structs s' !! a' = structs s !! a'.
Proof.
  intros Hok Hl Hk Hb Hr. assert (u8 (ref b - 1) = 0) as Eu by (by rewrite Hr).
  assert (a ∈ l) as Hal by (destruct (linked_head _ _ _ Hl) as (? & ? & -> & _); by left).
  cbn [pbuf_free]. rewrite (pm_bind_run _ _ _ _ _ (put_run _ _ _ _ Hb)).
  pose proof (put_ok _ _ _ _ _ _ _ _ a (λ b, set_ref (u8 (ref b - 1)) b) b Hok ltac:(apply elem_of_app; by left) Hb) as Hok1.
  set (s1 := with_structs _ s) in *.
  erewrite pm_bind_run; [|apply get_run; cbn; apply lookup_insert_eq]. cbn [ref set_ref]. rewrite Eu. cbn [Z.eqb].
  assert (linked (nxt (structs s1)) (Some a) l) as Hl1.
  { eapply lseg_frame; [|exact Hl]. intros a' _. by eapply nxt_insert_same. }
  assert (kinds_ok (structs s1) l) as Hk1.
  { unfold kinds_ok in *. rewrite Forall_forall in *. intros a' Ha. destruct (Hk a' Ha) as (b' & Hb' & Hkb). cbn.
    destruct (decide (a' = a)) as [->|Hne]; [rewrite lookup_insert_eq|rewrite lookup_insert_ne by done; by exists b'].
    rewrite Hb in Hb'. injection Hb' as <-. by eexists. }
  unfold gets. unfold mbind at 1, pm_bind at 1.
  destruct (free_chain_ok _ _ (walk_fuel s1) s1 P A F D cs (Some a) l 0 Hok1 Hl1 Hk1) as (s2 & F2 & Hrun & Hok2 & Hs2).
  { apply Nat.lt_le_incl. eapply bo_short; [exact Hok1|by eapply linked_NoDup|]. intros a' Ha. rewrite !elem_of_app. tauto. }
  { lia. }
  rewrite (pm_bind_run _ _ _ _ _ Hrun). destruct (refresh_ok _ _ _ _ _ _ _ _ Hok2) as (s3 & Hrun3 & Hok3 & Hs3).
  rewrite (pm_bind_run _ _ _ _ _ Hrun3). exists s3, (P ++ F2). split; [done|]. split; [done|].
  intros a' Ha'. assert (a' ∉ l) as Hout.
  { intros Hin. pose proof (bo_nodup _ _ _ _ _ _ _ _ Hok) as Hnd. rewrite <-app_assoc, !NoDup_app in Hnd. set_solver. }
  rewrite Hs3, Hs2 by done. cbn. rewrite lookup_insert_ne; [done|]. by intros ->.
Qed.

(** The last user frees the packet: its structures go back to where they came
    from, and the free buffers of the pool are on the list for allocation. *)
Lemma pbuf_free_last s P A F pc c cs :
  ok s P A F [] ((pc :: c) :: cs) → p_ref pc = 1 →
  ∃ s' P', pbuf_free (Some (p_at pc)) s = Some (u8 (Z.of_nat (length (pc :: c))), s') ∧ ok s' P' A [] [] cs.
Proof.
  intros Hok Hr. destruct (head_struct _ _ _ _ _ _ _ _ Hok) as (b & Hb & Epc & Ht & _).
  apply bo_take in Hok as (Hok & (h & [= <-] & Hl & Hm & _) & Hp).
  destruct (free_hand s P A F [] cs (p_at pc) (ats (pc :: c)) b Hok Hl (chain_kinds _ _ Hm Hp) Hb) as (s' & P' & Hrun & Hok' & _).
  { rewrite <-Hr. by rewrite Epc. }
  exists s', P'. split; [|done]. rewrite Hrun. unfold ats. by rewrite length_fmap.
Qed.

Lemma pbuf_clen_ok s P A F pc c cs :
  ok s P A F [] ((pc :: c) :: cs) → pbuf_clen (Some (p_at pc)) s = Some (u8 (Z.of_nat (length (pc :: c))), s).
Proof.
  intros Hok. pose proof Hok as Hok'. apply bo_take in Hok as (Hok & (h & [= <-] & Hl & _) & _). cbn [pbuf_clen].
  unfold gets. unfold mbind at 1, pm_bind at 1.
  erewrite pm_bind_run; [|apply chain_length_run; [exact Hl|]]; [unfold ats; by rewrite length_fmap|].
  apply Nat.lt_le_incl. eapply bo_short; [exact Hok|by eapply linked_NoDup|]. intros a Ha. rewrite !elem_of_app. tauto.
Qed.

(** ** Packets are joined and split *)

Lemma pbuf_chain_ok s P A F pc c pt ct cs :
  ok s P A F [] ((pc :: c) :: (pt :: ct) :: cs) →
  ∃ s', pbuf_chain (p_at pc) (p_at pt) s = Some (tt, s') ∧ ok s' P A F [] (((pc :: c) ++ pt :: ct) :: cs).
Proof.
  intros Hok. apply bo_take in Hok as (Hok & (h1 & [= <-] & Hl1 & Hm1 & Ht1) & Hp1). rewrite app_nil_r in Hok.
  apply bo_take in Hok as (Hok & (h2 & [= <-] & Hl2 & Hm2 & Ht2) & Hp2).
  destruct (last_at pc c) as (l & z & El). rewrite El in Hl1.
  pose proof (linked_NoDup _ _ _ Hl1) as Hnd1.
  assert (z ∈ ats (pt :: ct) ++ ats (pc :: c)) as Hz by (rewrite El; set_solver).
  assert (z ∉ ats (pt :: ct)) as Hzt.
  { pose proof (bo_nodup _ _ _ _ _ _ _ _ Hok) as Hnd. rewrite El, !NoDup_app in Hnd. set_solver. }
  destruct (bo_get _ _ _ _ _ _ _ _ z Hok) as [bz Hbz]; [rewrite !elem_of_app in *; tauto|].
  unfold pbuf_chain, gets. unfold mbind at 1, pm_bind at 1.
  erewrite pm_bind_run; [|apply last_of_run with (l := l); [exact Hl1|]].
  2: { pose proof (bo_short _ _ _ _ _ _ _ _ (l ++ [z]) Hok Hnd1) as Hs. rewrite length_app in Hs. cbn [length] in Hs.
       apply Nat.lt_le_trans with (length l + 1)%nat; [lia|]. apply Nat.lt_le_incl, Hs. intros a Ha. rewrite El, !elem_of_app in *. tauto. }
  rewrite (pm_bind_run _ _ _ _ _ (put_run _ _ _ _ Hbz)).
  pose proof (put_ok _ _ _ _ _ _ _ _ z (set_next (Some (p_at pt))) bz Hok Hz Hbz) as Hok1.
  set (m1 := <[z := set_next (Some (p_at pt)) bz]> (structs s)) in *.
  assert (Forall (matches m1) ((pc :: c) ++ pt :: ct)) as Hm.
  { apply Forall_app. split; by eapply matches_insert_same. }
  assert (linked (nxt m1) (Some (p_at pc)) (ats ((pc :: c) ++ pt :: ct))) as Hl by (rewrite ats_app, El; by apply linked_join).
  assert (∃ bt, m1 !! p_at pt = Some bt ∧ tot_len bt = u16 (total (pt :: ct))) as (bt & Hbt & Ett).
  { subst m1. rewrite lookup_insert_ne by (intros ->; apply Hzt; by left). apply fmap_Some in Ht2 as (bt & Hbt & ->). by exists bt. }
  assert (∃ bh, m1 !! p_at pc = Some bh ∧ tot_len bh = u16 (total (pc :: c))) as (bh & Hbh & Eth).
  { apply fmap_Some in Ht1 as (bh & Hbh & Et). subst m1. destruct (decide (z = p_at pc)) as [->|Hne]; [|rewrite lookup_insert_ne by done; by exists bh].
    rewrite lookup_insert_eq. rewrite Hbz in Hbh. injection Hbh as <-. by eexists. }
  rewrite (pm_bind_run _ _ _ _ _ (get_run _ (with_structs m1 s) _ Hbt)), (put_run _ _ (with_structs m1 s) _ Hbh).
  eexists. split; [done|]. apply bo_give; [|cbn [structs with_structs]; eapply chain_set_tot; [done|done|done|done|]|by apply Forall_app].
  - rewrite app_nil_r, ats_app. rewrite (Permutation_app_comm (ats (pc :: c))).
    eapply put_ok in Hok1; [exact Hok1| |exact Hbh]. rewrite elem_of_app. right. by left.
  - rewrite Eth, Ett, total_app. unfold u16. by rewrite <-Zplus_mod.
Qed.

Lemma pbuf_dechain_ok s P A F pc c cs :
  ok s P A F [] ((pc :: c) :: cs) →
  ∃ s', pbuf_dechain (p_at pc) s = Some (p_at <$> head c, s') ∧
    ok s' P A F [] (match c with [] => [[pc]] | _ => [[pc]; c] end ++ cs).
Proof.
  intros Hok. destruct (head_struct _ _ _ _ _ _ _ _ Hok) as (b & Hb & Epc & Ht & Hpo).
  apply bo_take in Hok as (Hok & (h & [= <-] & Hl & Hm & _) & Hp). rewrite app_nil_r in Hok.
  pose proof (linked_NoDup _ _ _ Hl) as [Hout _]%NoDup_cons.
  destruct Hl as [_ (n & Hn & Hl)]. rewrite (nxt_some _ _ _ Hb) in Hn. injection Hn as <-.
  apply Forall_cons in Hm as [_ Hm]. apply Forall_cons in Hp as [_ Hp].
  assert (p_len pc = len b) as Elen by by rewrite Epc.
  unfold pbuf_dechain. rewrite (pm_bind_run _ _ _ _ _ (get_run _ _ _ Hb)). destruct c as [|q c].
  - cbn in Hl. rewrite Hl. cbv beta iota zeta. rewrite (pm_bind_run (mret tt) _ s tt s eq_refl).
    rewrite (pm_bind_run _ _ _ _ _ (put_run _ _ _ _ Hb)). eexists. split; [done|]. cbn [app].
    pose proof (put_ok _ _ _ _ _ _ _ _ _ (λ b, set_next None (set_tot_len (len b) b)) b Hok ltac:(by left) Hb) as Hok1.
    apply bo_give; [exact Hok1| |by constructor].
    eapply single_packet; [apply lookup_insert_eq|done|done|done|]. cbn. rewrite <-Elen. apply Hpo.
  - destruct Hl as [En Hl]. rewrite En. cbv beta iota zeta.
    destruct (bo_get _ _ _ _ _ _ _ _ (p_at q) Hok) as [bq Hbq]; [rewrite !elem_of_app; do 3 right; right; by left|].
    rewrite (pm_bind_run _ _ _ _ _ (put_run _ _ _ _ Hbq)).
    assert (p_at q ≠ p_at pc) as Hne by (intros E; apply Hout; rewrite <-E; by left).
    erewrite pm_bind_run; [|apply put_run; cbn; rewrite lookup_insert_ne by done; exact Hb].
    eexists. split; [done|]. rewrite with_structs_twice. cbn [structs with_structs app].
    set (b1 := set_tot_len _ bq). set (b2 := set_next _ _).
    assert (chain_ok (<[p_at q := b1]> (structs s)) (q :: c)) as Hcq.
    { apply chain_set_tot; [done|by split|done|done|]. rewrite Ht, Elen. unfold u16.
      rewrite Zminus_mod_idemp_l. f_equal. change (total (q :: c)) with (p_len q + total c). lia. }
    apply bo_give; [apply bo_give| |].
    + pose proof (put_ok _ _ _ _ _ _ _ _ _ (set_tot_len (u16 (tot_len b - len b))) bq Hok ltac:(right; by left) Hbq) as Hok1.
      pose proof (put_ok _ _ _ _ _ _ _ _ (p_at pc) (λ b, set_next None (set_tot_len (len b) b)) b Hok1 ltac:(by left)) as Hok2.
      cbn [structs with_structs] in Hok2. rewrite lookup_insert_ne in Hok2 by done. specialize (Hok2 Hb).
      change (ok (with_structs (<[p_at pc := b2]> (<[p_at q := b1]> (structs s))) s) P A F (ats (q :: c) ++ [p_at pc]) cs).
      rewrite Permutation_app_comm. exact Hok2.
    + eapply chain_ok_same; [|exact Hcq]. intros a Ha. cbn [structs with_structs]. rewrite lookup_insert_ne; [done|]. intros <-. by apply Hout.
    + done.
    + eapply single_packet; [apply lookup_insert_eq|done|done|done|]. cbn. rewrite <-Elen. apply Hpo.
    + by constructor.
Qed.

(** ** Headers *)

Lemma pbuf_header_ok s P A F pc c cs d k :
  ok s P A F [] ((pc :: c) :: cs) → p_start pc = Some d → 0 <= p_len pc + k < 65536 →
  ∃ s', if addr base (ptr_add d (- k)) <? addr base (ptr_add (p_at pc) sizeof_pbuf)
        then pbuf_header base (p_at pc) k s = Some (255, s') ∧ ok s' P A F [] ((pc :: c) :: cs)
        else pbuf_header base (p_at pc) k s = Some (0, s') ∧
             ok s' P A F [] ((Piece (p_at pc) (p_kind pc) (Some (ptr_add d (- k))) (p_len pc + k) (p_ref pc) :: c) :: cs).
Proof.
  intros Hok Hd Hk. destruct (head_struct _ _ _ _ _ _ _ _ Hok) as (b & Hb & Epc & Ht & (Ha & Hr & Hl & Hs)).
  assert (payload b = Some d ∧ len b = p_len pc ∧ kind b = p_kind pc ∧ ref b = p_ref pc) as (Ed & El & Ek & Er)
    by (rewrite <-Hd; by rewrite Epc).
  unfold pbuf_header. rewrite (pm_bind_run _ _ _ _ _ (get_run _ _ _ Hb)), Ed. cbv beta iota zeta.
  rewrite (pm_bind_run _ _ _ _ _ (put_run _ _ _ _ Hb)).
  destruct (addr base (ptr_add d (- k)) <? addr base (ptr_add (p_at pc) sizeof_pbuf)) eqn:Elt.
  - erewrite pm_bind_run; [|apply put_run; cbn; apply lookup_insert_eq]. eexists. split; [done|].
    rewrite with_structs_twice. cbn [structs with_structs]. rewrite insert_insert_eq.
    replace (set_payload _ (set_payload _ b)) with b by (destruct b; cbn in *; by subst).
    rewrite insert_id by done. by destruct s.
  - erewrite pm_bind_run; [|apply put_run; cbn; apply lookup_insert_eq]. eexists. split; [done|].
    rewrite with_structs_twice. cbn [structs with_structs]. rewrite insert_insert_eq.
    pose proof (head_put s P A F pc c cs b (λ b, set_tot_len (u16 (tot_len b + k)) (set_len (u16 (len b + k))
      (set_payload (Some (ptr_add d (- k))) b))) Hok Hb eq_refl) as Hp. unfold piece_of in Hp. cbn in Hp.
    rewrite El, Ek, Er in Hp. cbn. rewrite El. rewrite (u16_small (p_len pc + k)) in * by (unfold is_u16; lia). apply Hp.
    + rewrite Ht. unfold u16. rewrite Zplus_mod_idemp_l. f_equal. lia.
    + unfold piece_ok in *. cbn. rewrite Hd in Hs. split; [done|]. split; [done|]. split; [lia|].
      unfold addr, ptr_add in Elt. destruct d as [da dz]. cbn in *.
      destruct (p_at pc) as [pa pz], (p_kind pc); cbn in *; [|done|].
      * destruct Hs as [-> Hs]. destruct pa; try done. split; [done|]. lia.
      * destruct Hs as (-> & Hs & Hs'). destruct pa; try done. split; [done|]. lia.
Qed.

(** ** Cutting *)

Definition with_len (n : Z) (pc : piece) : piece := Piece (p_at pc) (p_kind pc) (p_start pc) n (p_ref pc).

Lemma packet_total_nonneg c : Forall piece_ok c → 0 <= total c.
Proof. induction 1 as [|pc c (_ & _ & Hl & _) _ IH]; cbn; unfold total in *; lia. Qed.

(** The piece in which the first [size] bytes end. *)
Lemma find_end_run fuel (s : state) q c size :
  linked (nxt (structs s)) (Some q) (ats c) → Forall (matches (structs s)) c → Forall piece_ok c →
  0 <= size < 65536 → size <= total c → (length c < fuel)%nat →
  ∃ c1 pz c2, c = c1 ++ pz :: c2 ∧ find_end fuel q size s = Some ((p_at pz, size - total c1), s) ∧
    0 <= size - total c1 <= p_len pz.
Proof.
  revert q c size. induction fuel as [|fuel IH]; intros q c size Hl Hm Hp Hs Ht Hf; [lia|].
  destruct c as [|pc c]; [discriminate Hl|]. apply Forall_cons in Hm as [(b & Hb & Hk & Hst & Hlen & Hr) Hm].
  apply Forall_cons in Hp as [(_ & _ & Hpl & _) Hp]. pose proof Hl as [[= ->] (n & Hn & Hl')].
  rewrite (nxt_some _ _ _ Hb) in Hn. injection Hn as <-. cbn [find_end].
  rewrite (pm_bind_run _ _ _ _ _ (get_run _ _ _ Hb)). rewrite Hlen. destruct (p_len pc <? size) eqn:E.
  - change (total (pc :: c)) with (p_len pc + total c) in Ht. destruct c as [|pc' c]; [cbn in Ht; lia|].
    destruct (next b) as [q'|] eqn:En; [|by destruct Hl'].
    destruct (IH q' (pc' :: c) (size - p_len pc) Hl' Hm Hp) as (c1 & pz & c2 & Ec & Hrun & Hz); [lia|lia|cbn in *; lia|].
    exists (pc :: c1), pz, c2. split; [by rewrite Ec|]. change (total (pc :: c1)) with (p_len pc + total c1).
    rewrite u16_small by (unfold is_u16; lia). rewrite Hrun.
    split; [by replace (size - (p_len pc + total c1)) with (size - p_len pc - total c1) by lia|lia].
  - exists [], pc, c. split; [done|]. cbn. rewrite Z.sub_0_r. split; [done|lia].
Qed.

(** The buffers behind the end go back to the pool. *)
Lemma free_rest_pool_ok fuel s P A F D cs p l :
  ok s P A F (l ++ D) cs → linked (nxt (structs s)) p l → Forall (λ a : ptr, a.1 = POOL) l → (length l <= fuel)%nat →
  ∃ s' F', free_rest_pool fuel p s = Some (tt, s') ∧ ok s' P A F' D cs ∧
    ∀ a, a ∉ l → structs s' !! a = structs s !! a.
Proof.
  revert s F p fuel. induction l as [|a l IH]; intros s F p fuel Hok Hl Hk Hf.
  - cbn in Hl. subst p. exists s, F. by destruct fuel.
  - pose proof (linked_NoDup _ _ _ Hl) as [Hal _]%NoDup_cons.
    destruct Hl as [-> (nx & Hnx & Hl)]. destruct fuel as [|fuel]; [cbn in Hf; lia|]. cbn [free_rest_pool].
    apply Forall_cons in Hk as [Ha Hk]. unfold nxt in Hnx. apply fmap_Some in Hnx as (b & Hb & ->).
    rewrite (pm_bind_run _ _ _ _ _ (get_run _ _ _ Hb)). cbn [app] in Hok.
    destruct (pool_free_one_ok _ _ _ _ _ _ _ _ _ Hok Ha) as (s1 & Hrun & Hok1 & Hs1).
    rewrite (pm_bind_run _ _ _ _ _ Hrun). unfold modify. unfold mbind at 1, pm_bind at 1.
    destruct (IH (count (count_pbuf_used (-1)) s1) (a :: F) (next b) fuel) as (s' & F' & -> & Hok' & Hs').
    { by apply count_ok. } { eapply linked_same; [|exact Hl]. intros a' Ha'. cbn. apply Hs1. by intros ->. } { done. }
    { cbn in Hf. lia. }
    exists s', F'. split_and!; [done|done|]. intros a' [Hne Ha']%not_elem_of_cons. rewrite Hs' by done. by apply Hs1.
Qed.

(** The chain is cut behind the piece [pz]. *)
Lemma cut_chain_ok s P A F D cs c1 pz c2 n :
  ok s P A F (ats (c1 ++ pz :: c2) ++ D) cs → linked (nxt (structs s)) (p_at <$> head (c1 ++ [pz])) (ats (c1 ++ pz :: c2)) →
  Forall (matches (structs s)) (c1 ++ pz :: c2) →
  ∃ m', cut_chain (p_at pz) n s = Some (p_at <$> head c2, with_structs m' s) ∧
    ok (with_structs m' s) P A F (ats (c1 ++ pz :: c2) ++ D) cs ∧
    linked (nxt m') (p_at <$> head (c1 ++ [pz])) (ats (c1 ++ [with_len n pz])) ∧
    Forall (matches m') (c1 ++ [with_len n pz]) ∧
    linked (nxt m') (p_at <$> head c2) (ats c2) ∧ Forall (matches m') c2 ∧
    (tot_len <$> m' !! p_at pz = tot_len <$> structs s !! p_at pz) ∧ ∀ a, a ≠ p_at pz → m' !! a = structs s !! a.
Proof.
  intros Hok Hl Hm. pose proof (linked_NoDup _ _ _ Hl) as Hnd. rewrite ats_app in Hl, Hnd.
  apply NoDup_app in Hnd as (Hnd1 & Hdis & Hnd2). apply NoDup_cons in Hnd2 as [Hz2 Hnd2].
  apply lseg_app in Hl as (h & Hl1 & -> & n' & Hn & Hl2).
  apply Forall_app in Hm as [Hm1 Hm]. apply Forall_cons in Hm as [(b & Hb & Hk & Hs & Hn' & Hr) Hm2].
  rewrite (nxt_some _ _ _ Hb) in Hn. injection Hn as <-.
  assert (p_at pz ∉ ats c1) as Hz1 by (intros Hin; apply (Hdis _ Hin); by left).
  assert (next b = p_at <$> head c2) as Enext by (destruct c2; [exact Hl2|by destruct Hl2 as [-> _]]).
  unfold cut_chain. rewrite (pm_bind_run _ _ _ _ _ (put_run _ _ _ _ Hb)).
  erewrite pm_bind_run; [|apply get_run; cbn; apply lookup_insert_eq].
  erewrite pm_bind_run; [|apply put_run; cbn; apply lookup_insert_eq]. rewrite with_structs_twice.
  cbn [structs with_structs next set_len]. rewrite insert_insert_eq, Enext. set (b' := set_next None (set_len n b)).
  assert (∀ a, a ≠ p_at pz → <[p_at pz := b']> (structs s) !! a = structs s !! a) as Hsame by (intros a Ha; by rewrite lookup_insert_ne).
  eexists. split; [done|]. split_and!.
  - apply (put_ok _ _ _ _ _ _ _ _ (p_at pz) (λ _, b') b Hok); [|done]. rewrite ats_app, !elem_of_app. left. right. by left.
  - rewrite ats_app. apply lseg_snoc. split; [|unfold nxt; cbn; by rewrite lookup_insert_eq].
    eapply lseg_frame; [|exact Hl1]. intros a Ha. unfold nxt. rewrite Hsame; [done|]. by intros ->.
  - apply Forall_app. split; [by apply matches_insert_ne|]. constructor; [|done]. exists b'. cbn. by rewrite lookup_insert_eq.
  - rewrite <-Enext. eapply linked_same; [|exact Hl2]. intros a Ha. apply Hsame. by intros ->.
  - by apply matches_insert_ne.
  - by rewrite lookup_insert_eq, Hb.
  - done.
Qed.

Lemma ats_with_len c pz n : ats (c ++ [with_len n pz]) = ats (c ++ [pz]).
Proof. by rewrite !ats_app. Qed.

(** The end of [pbuf_realloc]: the total length is stored, and the free buffers
    are put on the list for allocation. *)
Lemma realloc_finish s P A F cs h c size :
  ok s P A F (ats c) cs → p_at <$> head c = Some h → linked (nxt (structs s)) (Some h) (ats c) →
  Forall (matches (structs s)) c → Forall piece_ok c → total c = size → is_u16 size →
  ∃ s' P', (put h (set_tot_len size);; pbuf_refresh) s = Some (tt, s') ∧ ok s' P' A [] [] (c :: cs).
Proof.
  intros Hok Hh Hl Hm Hp Ht Hs. assert (h ∈ ats c) as Hhc by (apply chain_head in Hh as (? & ? & -> & <-); by left).
  destruct (bo_get _ _ _ _ _ _ _ _ h Hok) as [b Hb]; [rewrite !elem_of_app; tauto|].
  rewrite (pm_bind_run _ _ _ _ _ (put_run _ _ _ _ Hb)).
  pose proof (put_ok _ _ _ _ _ _ _ _ h (set_tot_len size) b Hok Hhc Hb) as Hok1.
  assert (ok (with_structs (<[h := set_tot_len size b]> (structs s)) s) P A F [] (c :: cs)) as Hok2.
  { apply bo_give; [by rewrite app_nil_r| |done]. apply chain_set_tot; [done|done|done|done|]. by rewrite Ht, u16_small. }
  destruct (refresh_ok _ _ _ _ _ _ _ _ Hok2) as (s' & -> & Hok3 & _). by exists s', (P ++ F).
Qed.

(** What a packet is cut to. *)
Definition cut_packet (c : list piece) (size : Z) (c' c2 : list piece) : Prop :=
  ∃ c1 pz, c = c1 ++ pz :: c2 ∧ 0 <= size - total c1 <= p_len pz ∧ c' = c1 ++ [with_len (size - total c1) pz].

Lemma cut_pieces_ok c1 pz c2 n :
  Forall piece_ok (c1 ++ pz :: c2) → 0 <= n <= p_len pz → Forall piece_ok (c1 ++ [with_len n pz]).
Proof.
  rewrite !Forall_app, !Forall_cons. intros (H1 & (Ha & Hr & Hl & Hd) & _) Hn. split_and!; [done| |done].
  unfold piece_ok. cbn. split_and!; [done|lia|lia|lia|lia|]. destruct (p_kind pz), (p_start pz); try done.
  destruct Hd as (? & ? & ?). split_and!; [done|done|lia].
Qed.

Lemma head_cut pc c c1 pz c2 : pc :: c = c1 ++ pz :: c2 → p_at <$> head (c1 ++ [pz]) = Some (p_at pc).
Proof. intros E. destruct c1; by injection E as <- _. Qed.

Lemma total_cut c1 pz size : total (c1 ++ [with_len (size - total c1) pz]) = size.
Proof. rewrite total_app. cbn. lia. Qed.

(** The chain is cut, what is left over is freed, and the length is stored. *)
Lemma realloc_tail s P A F cs c1 pz c2 size h (rest : option ptr → @PM R M unit) :
  ok s P A F (ats (c1 ++ pz :: c2)) cs → p_at <$> head (c1 ++ [pz]) = Some h →
  linked (nxt (structs s)) (Some h) (ats (c1 ++ pz :: c2)) → Forall (matches (structs s)) (c1 ++ pz :: c2) →
  Forall piece_ok (c1 ++ pz :: c2) → 0 <= size - total c1 <= p_len pz → is_u16 size →
  (∀ s1, ok s1 P A F (ats c2 ++ ats (c1 ++ [pz])) cs → linked (nxt (structs s1)) (p_at <$> head c2) (ats c2) →
     Forall (matches (structs s1)) c2 →
     ∃ s2 P2 F2, rest (p_at <$> head c2) s1 = Some (tt, s2) ∧ ok s2 P2 A F2 (ats (c1 ++ [pz])) cs ∧
       ∀ a, a ∈ ats (c1 ++ [pz]) → structs s2 !! a = structs s1 !! a) →
  ∃ s2 s' P', (r ← cut_chain (p_at pz) (size - total c1); rest r) s = Some (tt, s2) ∧
    (put h (set_tot_len size);; pbuf_refresh) s2 = Some (tt, s') ∧
    ok s' P' A [] [] ((c1 ++ [with_len (size - total c1) pz]) :: cs).
Proof.
  intros Hok Hh Hl Hm Hp Hz Hs Hrest. rewrite <-Hh in Hl.
  destruct (cut_chain_ok s P A F [] cs c1 pz c2 (size - total c1)) as (m' & Hcut & Hok1 & Hl1 & Hm1 & Hl2 & Hm2 & _ & _);
    [by rewrite app_nil_r|done|done|].
  destruct (Hrest (with_structs m' s)) as (s2 & P2 & F2 & Hrun & Hok2 & Hsame); [|done|done|].
  { replace (c1 ++ pz :: c2) with ((c1 ++ [pz]) ++ c2) in Hok1 by (by rewrite <-app_assoc).
    rewrite app_nil_r, ats_app in Hok1. by rewrite Permutation_app_comm. }
  rewrite <-(ats_with_len c1 pz (size - total c1)) in Hok2, Hsame. rewrite Hh in Hl1.
  destruct (realloc_finish s2 P2 A F2 cs h (c1 ++ [with_len (size - total c1) pz]) size Hok2) as (s3 & P3 & Hfin & Hok3).
  { by destruct c1. } { by eapply linked_same. } { by eapply matches_same. } { by eapply cut_pieces_ok. } { apply total_cut. }
  { done. }
  exists s2, s3, P3. by rewrite (pm_bind_run _ _ _ _ _ Hcut).
Qed.

(** The beginning: the packet has to be cut, in the piece [pz]. *)
Lemma realloc_start s P A F pc c cs size :
  ok s P A F [] ((pc :: c) :: cs) → total (pc :: c) < 65536 → 0 <= size < total (pc :: c) →
  ∃ b c1 pz c2, structs s !! p_at pc = Some b ∧ kind b = p_kind pc ∧ tot_len b = total (pc :: c) ∧
    pc :: c = c1 ++ pz :: c2 ∧ find_end (walk_fuel s) (p_at pc) size s = Some ((p_at pz, size - total c1), s) ∧
    0 <= size - total c1 <= p_len pz ∧ p_at <$> head (c1 ++ [pz]) = Some (p_at pc) ∧
    ok s P A F (ats (c1 ++ pz :: c2)) cs ∧ linked (nxt (structs s)) (Some (p_at pc)) (ats (c1 ++ pz :: c2)) ∧
    Forall (matches (structs s)) (c1 ++ pz :: c2) ∧ Forall piece_ok (c1 ++ pz :: c2) ∧
    (length (c1 ++ pz :: c2) < walk_fuel s)%nat.
Proof.
  intros Hok Htot Hs. destruct (head_struct _ _ _ _ _ _ _ _ Hok) as (b & Hb & Epc & Ht & _).
  change (p_len pc + total c) with (total (pc :: c)) in Ht. rewrite u16_small in Ht by (unfold is_u16; lia).
  apply bo_take in Hok as (Hok & (h & [= <-] & Hl & Hm & _) & Hp). rewrite app_nil_r in Hok.
  assert (length (pc :: c) < walk_fuel s)%nat as Hfuel.
  { assert (length (pc :: c) = length (ats (pc :: c))) as -> by (unfold ats; by rewrite length_fmap).
    eapply bo_short; [exact Hok|by eapply linked_NoDup|]. intros a Hin. rewrite !elem_of_app. tauto. }
  destruct (find_end_run (walk_fuel s) s (p_at pc) (pc :: c) size Hl Hm Hp) as (c1 & pz & c2 & Ec & Hrun & Hz); [lia|lia|done|].
  exists b, c1, pz, c2. pose proof (head_cut _ _ _ _ _ Ec) as Hh. rewrite <-Ec.
  split_and!; try done; [by rewrite Epc|lia|lia].
Qed.

Lemma pbuf_realloc_pool s P A F pc c cs size :
  ok s P A F [] ((pc :: c) :: cs) → Forall (λ a : ptr, a.1 = POOL) (ats (pc :: c)) → total (pc :: c) < 65536 →
  0 <= size < total (pc :: c) →
  ∃ s' P' c' c2, pbuf_realloc base (p_at pc) size s = Some (tt, s') ∧ cut_packet (pc :: c) size c' c2 ∧ ok s' P' A [] [] (c' :: cs).
Proof.
  intros Hok Hpool Htot Hs.
  destruct (realloc_start _ _ _ _ _ _ _ _ Hok Htot Hs) as (b & c1 & pz & c2 & Hb & Ek & Ht & Ec & Hrun & Hz & Hh & Hok1 & Hl & Hm & Hp & Hfuel).
  assert (p_kind pc = PBUF_FLAG_POOL) as Ekp.
  { apply Forall_cons in Hpool as [Hp0 _]. rewrite <-Ec in Hp. apply Forall_cons in Hp as [(Ha & _) _]. rewrite Hp0 in Ha. by injection Ha. }
  rewrite Ec, ats_app in Hpool. apply Forall_app in Hpool as [_ Hpool]. apply Forall_cons in Hpool as [_ Hpool].
  destruct (realloc_tail s P A F cs c1 pz c2 size (p_at pc) (free_rest_pool (walk_fuel s)) Hok1 Hh Hl Hm Hp Hz) as (s2 & s' & P' & Hcut & Hfin & Hok').
  { unfold is_u16. lia. }
  { intros s1 Hs1 Hl1 _. destruct (free_rest_pool_ok (walk_fuel s) s1 P A F (ats (c1 ++ [pz])) cs _ _ Hs1 Hl1 Hpool) as (s2 & F2 & Hrest & Hok2 & Hs2).
    { rewrite length_app in Hfuel. cbn in Hfuel. unfold ats. rewrite length_fmap. lia. }
    exists s2, P, F2. split_and!; [done|done|]. intros a Hin. apply Hs2. intros Hin2.
    pose proof (bo_nodup _ _ _ _ _ _ _ _ Hs1) as Hnd. rewrite <-app_assoc, !NoDup_app in Hnd. set_solver. }
  exists s', P', (c1 ++ [with_len (size - total c1) pz]), c2. split; [|split; [by exists c1, pz|done]].
  unfold pbuf_realloc. rewrite (pm_bind_run _ _ _ _ _ (get_run _ _ _ Hb)), Ht, (proj2 (Z.leb_gt _ _)) by lia.
  unfold gets. unfold mbind at 1, pm_bind at 1. rewrite Ek, Ekp.
  unfold mbind at 1, pm_bind at 1. rewrite (pm_bind_run _ _ _ _ _ Hrun). cbv beta iota zeta. by rewrite Hcut.
Qed.

(** The block of a structure in the heap is shortened. *)
Lemma shrink_block_ok s P A F D cs pz n :
  ok s P A F D cs → matches (structs s) pz → piece_ok pz →
  ∃ s', shrink_block base (p_at pz) n s = Some (tt, s') ∧ ok s' P A F D cs ∧ structs s' = structs s ∧ walk_fuel s' = walk_fuel s.
Proof.
  intros Hok (b & Hb & Hk & Hd & _) (Ha & _ & _ & Hst). unfold shrink_block. rewrite (pm_bind_run _ _ _ _ _ (get_run _ _ _ Hb)).
  rewrite Hk, Hd. destruct (p_kind pz) eqn:Ek; [|by exists s|by exists s]. destruct (p_start pz) as [d|]; [|done].
  assert ((p_at pz).1 = RAM) as Har by by destruct ((p_at pz).1). destruct (p_at pz) as [ar o]. cbn in Har. subst ar.
  pose proof (bo_ram _ _ _ _ _ _ _ _ Hok) as (bl & Hbl & Hdom). destruct (proj2 (Hdom o) (mk_is_Some _ _ Hb)) as [k Hk'].
  destruct (store_shrink_ok (ram_store s) bl o k (u32 (addr base d - addr base (RAM, o) + n)) Hbl Hk') as (st & Hst' & Hh).
  { apply u32_range. }
  unfold ram_shrink. cbn [snd]. rewrite Hst'. exists (with_ram st s). split; [done|]. split; [|done].
  destruct Hok as [H1 H2 H3 H4 H5 H6 H7 H8 H9 H10 H11 H12]. split; try done. eexists. split; [exact Hh|].
  intros o'. rewrite lookup_insert_is_Some, Hdom. cbn. destruct (decide (o = o')) as [<-|Hne]; [|naive_solver].
  split; [by intros _; eexists|by left].
Qed.

(** In the heap: at most one structure is left over, and it is not shared. *)
Lemma pbuf_realloc_ram s P A F pc c cs size :
  ok s P A F [] ((pc :: c) :: cs) → p_kind pc = PBUF_FLAG_RAM → total (pc :: c) < 65536 →
  0 <= size < total (pc :: c) →
  (∀ c' c2, cut_packet (pc :: c) size c' c2 → (length c2 <= 1)%nat ∧ Forall (λ pc, p_ref pc = 1) c2) →
  ∃ s' P' c' c2, pbuf_realloc base (p_at pc) size s = Some (tt, s') ∧ cut_packet (pc :: c) size c' c2 ∧ ok s' P' A [] [] (c' :: cs).
Proof.
  intros Hok Ekp Htot Hs Hleft.
  destruct (realloc_start _ _ _ _ _ _ _ _ Hok Htot Hs) as (b & c1 & pz & c2 & Hb & Ek & Ht & Ec & Hrun & Hz & Hh & Hok1 & Hl & Hm & Hp & Hfuel).
  assert (cut_packet (pc :: c) size (c1 ++ [with_len (size - total c1) pz]) c2) as Hcp by by exists c1, pz.
  destruct (Hleft _ _ Hcp) as [Hlen Href].
  destruct (shrink_block_ok s P A F _ cs pz (size - total c1) Hok1) as (s0 & Hshr & Hok0 & Es & Ef).
  { apply Forall_app in Hm as [_ Hm]. by apply Forall_cons in Hm as [? _]. }
  { apply Forall_app in Hp as [_ Hp]. by apply Forall_cons in Hp as [? _]. }
  rewrite <-Es in Hl, Hm.
  destruct (realloc_tail s0 P A F cs c1 pz c2 size (p_at pc) (free_rest_ram (walk_fuel s)) Hok0 Hh Hl Hm Hp Hz) as (s2 & s' & P' & Hcut & Hfin & Hok').
  { unfold is_u16. lia. }
  { intros s1 Hs1 Hl1 Hm1. destruct c2 as [|q [|? ?]]; [exists s1, P, F; by destruct (walk_fuel s)| |cbn in Hlen; lia].
    apply Forall_app in Hp as [_ Hp]. apply Forall_cons in Hp as [_ Hp]. pose proof (chain_kinds _ _ Hm1 Hp) as Hk1.
    apply Forall_cons in Hm1 as [(bq & Hbq & _ & _ & _ & Er) _]. apply Forall_cons in Href as [Href _].
    destruct (free_hand s1 P A F (ats (c1 ++ [pz])) cs (p_at q) (ats [q]) bq Hs1 Hl1 Hk1 Hbq) as (s2 & P2 & Hfree & Hok2 & Hsame); [congruence|].
    exists s2, P2, []. split_and!; [|done|intros a Hin; apply Hsame; rewrite elem_of_app; by left].
    destruct Hl1 as [_ (n & Hn & Hl1)]. rewrite (nxt_some _ _ _ Hbq) in Hn. injection Hn as <-. cbn in Hl1.
    unfold walk_fuel. cbn [free_rest_ram head fmap option_fmap option_map]. rewrite (pm_bind_run _ _ _ _ _ (get_run _ _ _ Hbq)).
    rewrite (pm_bind_run _ _ _ _ _ Hfree), Hl1. by destruct (base.size (structs s)). }
  exists s', P', (c1 ++ [with_len (size - total c1) pz]), c2. split; [|done].
  unfold pbuf_realloc. rewrite (pm_bind_run _ _ _ _ _ (get_run _ _ _ Hb)), Ht, (proj2 (Z.leb_gt _ _)) by lia.
  unfold gets. unfold mbind at 1, pm_bind at 1. rewrite Ek, Ekp.
  unfold mbind at 1, pm_bind at 1. rewrite (pm_bind_run _ _ _ _ _ Hrun). cbv beta iota zeta.
  rewrite (pm_bind_run _ _ _ _ _ Hshr). by rewrite Hcut.
Qed.
End packets.
