(* ===== verification/PbufRefine.v ===== *)
(** The packet buffers refine a collection of packets, on any two allocators that
    keep the promises of the file Store, and on those of the stack. *)

From Stdlib Require Import ZArith Lia.
From stdpp Require Import base tactics numbers gmap option list.
From S2P Require Import Prelude Mem MemSpec MemProps Linked Memp MempProps Store Pbuf PbufSpec PbufProps.

Local Open Scope Z_scope.

(** The calls of a client, and their answers. *)
Inductive buf_op :=
  | Alloc (l : pbuf_layer) (size : Z) (flag : pbuf_flag)
  | FreeBuf (h : ptr)
  | Ref (h : ptr)
  | Clen (h : ptr)
  | Chain (h t : ptr)
  | Dechain (h : ptr)
  | Header (h : ptr) (k : Z)
  | Shorten (h : ptr) (size : Z).

Inductive answer := APtr (p : option ptr) | ANum (n : Z) | AUnit.

Definition flag_kind (f : pbuf_flag) : pbuf_kind :=
  match f with PBUF_RAM => PBUF_FLAG_RAM | PBUF_ROM => PBUF_FLAG_ROM | PBUF_POOL => PBUF_FLAG_POOL end.

(** The room for headers; there is none in front of data elsewhere. *)
Definition headroom (l : pbuf_layer) (f : pbuf_flag) : Z :=
  match f with PBUF_ROM => 0 | _ => layer_offset l end.

Definition with_ref (n : Z) (pc : piece) : piece := Piece (p_at pc) (p_kind pc) (p_start pc) (p_len pc) n.

Section refine.
Context {R M : Type} `{!Store R, !Shrink R, !Store M} (base : area → Z).
Context {ram_limit memp_limit : Z} (ram_holds : R → gmap Z Z → Prop) (memp_holds : M → gmap Z Z → Prop).
Context `{!StoreLaws R ram_limit ram_holds, !ShrinkLaws R ram_holds, !StoreLaws M memp_limit memp_holds}.
Context (ram_serves : 65632 <= ram_limit) (memp_serves : sizeof_pbuf <= memp_limit).

Local Abbreviation state := (@bufs R M).
Local Abbreviation ok := (bufs_ok ram_holds memp_holds).

Definition run_buf (op : buf_op) : @PM R M answer :=
  match op with
  | Alloc l size flag => p ← pbuf_alloc l size flag; mret (APtr p)
  | FreeBuf h => n ← pbuf_free (Some h); mret (ANum n)
  | Ref h => pbuf_ref (Some h);; mret AUnit
  | Clen h => n ← pbuf_clen (Some h); mret (ANum n)
  | Chain h t => pbuf_chain h t;; mret AUnit
  | Dechain h => q ← pbuf_dechain h; mret (APtr q)
  | Header h k => n ← pbuf_header base h k; mret (ANum n)
  | Shorten h size => pbuf_realloc base h size;; mret AUnit
  end.

(** What a call does to the packets. *)
Inductive packet_step : buf_op → answer → list (list piece) → list (list piece) → Prop :=
  | step_alloc l size flag p c cs :
      new_packet (flag_kind flag) (headroom l flag) size p c →
      packet_step (Alloc l size flag) (APtr (Some p)) cs (c :: cs)
  | step_alloc_fails l size flag cs : packet_step (Alloc l size flag) (APtr None) cs cs
  | step_free pc c cs :
      p_ref pc = 1 →
      packet_step (FreeBuf (p_at pc)) (ANum (u8 (Z.of_nat (length (pc :: c))))) ((pc :: c) :: cs) cs
  | step_free_shared pc c cs :
      1 < p_ref pc → packet_step (FreeBuf (p_at pc)) (ANum 0) ((pc :: c) :: cs) ((with_ref (p_ref pc - 1) pc :: c) :: cs)
  | step_ref pc c cs :
      packet_step (Ref (p_at pc)) AUnit ((pc :: c) :: cs) ((with_ref (p_ref pc + 1) pc :: c) :: cs)
  | step_clen pc c cs :
      packet_step (Clen (p_at pc)) (ANum (u8 (Z.of_nat (length (pc :: c))))) ((pc :: c) :: cs) ((pc :: c) :: cs)
  | step_chain pc c pt ct cs :
      packet_step (Chain (p_at pc) (p_at pt)) AUnit ((pc :: c) :: (pt :: ct) :: cs) (((pc :: c) ++ pt :: ct) :: cs)
  | step_dechain_last pc cs : packet_step (Dechain (p_at pc)) (APtr None) ([pc] :: cs) ([pc] :: cs)
  | step_dechain pc q c cs :
      packet_step (Dechain (p_at pc)) (APtr (Some (p_at q))) ((pc :: q :: c) :: cs) ([pc] :: (q :: c) :: cs)
  | step_header pc d c cs k :
      p_start pc = Some d → addr base (ptr_add (p_at pc) sizeof_pbuf) <= addr base (ptr_add d (- k)) →
      packet_step (Header (p_at pc) k) (ANum 0) ((pc :: c) :: cs)
        ((Piece (p_at pc) (p_kind pc) (Some (ptr_add d (- k))) (p_len pc + k) (p_ref pc) :: c) :: cs)
  | step_header_fails pc d c cs k :
      p_start pc = Some d → addr base (ptr_add d (- k)) < addr base (ptr_add (p_at pc) sizeof_pbuf) →
      packet_step (Header (p_at pc) k) (ANum 255) ((pc :: c) :: cs) ((pc :: c) :: cs)
  | step_shorten pc c c' c2 cs size :
      cut_packet (pc :: c) size c' c2 → size < total (pc :: c) →
      packet_step (Shorten (p_at pc) size) AUnit ((pc :: c) :: cs) (c' :: cs)
  | step_shorten_not pc c cs size :
      total (pc :: c) <= size → packet_step (Shorten (p_at pc) size) AUnit ((pc :: c) :: cs) ((pc :: c) :: cs)
  | step_perm op ans cs1 cs2 cs' : cs1 ≡ₚ cs2 → packet_step op ans cs2 cs' → packet_step op ans cs1 cs'.

(** The packets in memory; no buffer waits in the cache of freed ones. *)
Definition packets_in (s : state) (cs : list (list piece)) : Prop := ∃ P A, ok s P A [] [] cs.

(** A packet of the client. *)
Definition owns (cs : list (list piece)) (h : ptr) (c : list piece) : Prop :=
  p_at <$> head c = Some h ∧ c ∈ cs.

(** The packets that [pbuf_realloc] can shorten to [size]: all pieces from the
    pool, or the first from the heap and no more than one left over. *)
Definition can_shorten (c : list piece) (size : Z) : Prop :=
  Forall (λ a : ptr, a.1 = POOL) (ats c) ∨
  (p_kind <$> head c = Some PBUF_FLAG_RAM ∧
   ∀ c' c2, cut_packet c size c' c2 → (length c2 <= 1)%nat ∧ Forall (λ pc, p_ref pc = 1) c2).

(** What a client may ask for. *)
Definition permitted (op : buf_op) (cs : list (list piece)) : Prop :=
  match op with
  | Alloc l size flag => is_u16 size
  | FreeBuf h | Clen h | Dechain h => ∃ c, owns cs h c
  | Ref h => ∃ pc c, owns cs h (pc :: c) ∧ p_ref pc < 255
  | Chain h t => h ≠ t ∧ (∃ c, owns cs h c) ∧ ∃ c, owns cs t c
  | Header h k => ∃ pc c, owns cs h (pc :: c) ∧ is_Some (p_start pc) ∧ 0 <= p_len pc + k < 65536
  | Shorten h size => ∃ c, owns cs h c ∧ total c < 65536 ∧ is_u16 size ∧ (total c <= size ∨ can_shorten c size)
  end.

(** A packet of the collection, and the rest. *)
Lemma owns_split cs h c : owns cs h c → ∃ pc c' cs', c = pc :: c' ∧ p_at pc = h ∧ cs ≡ₚ (pc :: c') :: cs'.
Proof.
  intros [Hh Hc]. apply chain_head in Hh as (pc & c' & -> & <-). apply elem_of_Permutation in Hc as (cs' & Hcs).
  by exists pc, c', cs'.
Qed.

Lemma alloc_step s cs l size flag :
  packets_in s cs → is_u16 size →
  ∃ ans s' cs', run_buf (Alloc l size flag) s = Some (ans, s') ∧ packet_step (Alloc l size flag) ans cs cs' ∧ packets_in s' cs'.
Proof.
  intros (P & A & Hok) Hs. cbn [run_buf pbuf_alloc].
  assert (0 <= layer_offset l <= 56 ∧ layer_offset l mod 4 = 0) as [Hoff Hal] by (destruct l; by vm_compute).
  destruct flag.
  - destruct (alloc_ram_ok ram_holds memp_holds ram_serves s P A [] [] cs (layer_offset l) size Hok Hoff Hs) as (r & s' & Hrun & Hr).
    rewrite (pm_bind_run _ _ _ _ _ Hrun). exists (APtr r), s'. destruct r as [p|].
    + destruct Hr as (c & Hnew & Hok'). exists (c :: cs). split; [done|]. split; [by constructor|by exists P, A].
    + exists cs. split; [done|]. split; [constructor|by exists P, A].
  - destruct (alloc_rom_ok ram_holds memp_holds memp_serves s P A [] [] cs size Hok Hs) as (r & s' & Hrun & Hr).
    rewrite (pm_bind_run _ _ _ _ _ Hrun). exists (APtr r), s'. destruct r as [p|].
    + destruct Hr as (c & Hnew & Hok'). exists (c :: cs). split; [done|]. split; [by constructor|by exists P, A].
    + exists cs. split; [done|]. split; [constructor|by exists P, A].
  - destruct (alloc_pool_ok ram_holds memp_holds s P A [] [] cs (layer_offset l) size Hok) as (r & s' & P' & A' & Hrun & Hr);
      [unfold PBUF_POOL_BUFSIZE; lia|done|done|].
    rewrite (pm_bind_run _ _ _ _ _ Hrun). exists (APtr r), s'. destruct r as [p|].
    + destruct Hr as (c & Hnew & Hok'). exists (c :: cs). split; [done|]. split; [by constructor|by exists P', A'].
    + exists cs. split; [done|]. split; [constructor|]. exists P', A'. by destruct Hr.
Qed.

Lemma shorten_step s P A pc c cs size :
  ok s P A [] [] ((pc :: c) :: cs) → total (pc :: c) < 65536 → is_u16 size →
  total (pc :: c) <= size ∨ can_shorten (pc :: c) size →
  ∃ ans s' cs', run_buf (Shorten (p_at pc) size) s = Some (ans, s') ∧
    packet_step (Shorten (p_at pc) size) ans ((pc :: c) :: cs) cs' ∧ packets_in s' cs'.
Proof.
  intros Hok Htot [Hs _] Hcan. cbn [run_buf]. destruct (Z_lt_le_dec size (total (pc :: c))) as [Hlt|Hge].
  - assert (∃ s' P' c' c2, pbuf_realloc base (p_at pc) size s = Some (tt, s') ∧ cut_packet (pc :: c) size c' c2 ∧
      ok s' P' A [] [] (c' :: cs)) as (s' & P' & c' & c2 & Hrun & Hcut & Hok').
    { destruct Hcan as [?|[Hpool|[[= Hk] Hleft]]]; [lia|by eapply pbuf_realloc_pool|by eapply pbuf_realloc_ram]. }
    exists AUnit, s', (c' :: cs). rewrite (pm_bind_run _ _ _ _ _ Hrun). split; [done|].
    split; [by eapply step_shorten|by exists P', A].
  - destruct (head_struct _ _ _ _ _ _ _ _ _ _ Hok) as (b & Hb & _ & Ht & _).
    change (p_len pc + total c) with (total (pc :: c)) in Ht.
    assert (0 <= total (pc :: c)) as H0.
    { apply bo_take in Hok as (_ & _ & Hp). by apply packet_total_nonneg. }
    rewrite u16_small in Ht by (unfold is_u16; lia).
    exists AUnit, s, ((pc :: c) :: cs). split; [|split; [by constructor|by exists P, A]].
    unfold pbuf_realloc. unfold mbind at 1, pm_bind at 1. rewrite (pm_bind_run _ _ _ _ _ (get_run _ _ _ Hb)).
    by rewrite Ht, (proj2 (Z.leb_le _ _)) by lia.
Qed.

(** The calls on one packet. *)
Lemma packet_call_step s P A pc c cs op :
  ok s P A [] [] ((pc :: c) :: cs) →
  match op with
  | FreeBuf h | Clen h | Dechain h => h = p_at pc
  | Ref h => h = p_at pc ∧ p_ref pc < 255
  | Header h k => h = p_at pc ∧ is_Some (p_start pc) ∧ 0 <= p_len pc + k < 65536
  | _ => False
  end →
  ∃ ans s' cs', run_buf op s = Some (ans, s') ∧ packet_step op ans ((pc :: c) :: cs) cs' ∧ packets_in s' cs'.
Proof.
  intros Hok Hop. destruct op as [| h| h| h| | h| h k|]; try done; cbn [run_buf].
  - subst h. destruct (head_struct _ _ _ _ _ _ _ _ _ _ Hok) as (_ & _ & _ & _ & (_ & Hr & _)).
    destruct (decide (p_ref pc = 1)) as [E|Hne].
    + destruct (pbuf_free_last ram_holds memp_holds s P A [] pc c cs Hok E) as (s' & P' & Hrun & Hok').
      eexists _, s', cs. rewrite (pm_bind_run _ _ _ _ _ Hrun). split; [done|]. split; [by constructor|by exists P', A].
    + destruct (pbuf_free_shared ram_holds memp_holds s P A [] pc c cs Hok) as (s' & Hrun & Hok'); [lia|].
      eexists _, s', _. rewrite (pm_bind_run _ _ _ _ _ Hrun). split; [done|]. split; [constructor; lia|by exists P, A].
  - destruct Hop as [-> Hr]. destruct (pbuf_ref_ok ram_holds memp_holds s P A [] pc c cs Hok Hr) as (s' & Hrun & Hok').
    eexists _, s', _. rewrite (pm_bind_run _ _ _ _ _ Hrun). split; [done|]. split; [constructor|by exists P, A].
  - subst h. eexists _, s, _. rewrite (pm_bind_run _ _ _ _ _ (pbuf_clen_ok ram_holds memp_holds s P A [] pc c cs Hok)).
    split; [done|]. split; [constructor|by exists P, A].
  - subst h. destruct (pbuf_dechain_ok ram_holds memp_holds s P A [] pc c cs Hok) as (s' & Hrun & Hok').
    eexists _, s', _. rewrite (pm_bind_run _ _ _ _ _ Hrun). split; [done|]. split; [|by exists P, A].
    destruct c as [|q c]; constructor.
  - destruct Hop as (-> & [d Hd] & Hk). destruct (pbuf_header_ok base ram_holds memp_holds s P A [] pc c cs d k Hok Hd Hk) as (s' & Hres).
    destruct (_ <? _) eqn:E; destruct Hres as [Hrun Hok']; eexists _, s', _; rewrite (pm_bind_run _ _ _ _ _ Hrun);
      (split; [done|]); (split; [|by exists P, A]); econstructor; try done; lia.
Qed.

Lemma chain_step s P A pc c pt ct cs :
  ok s P A [] [] ((pc :: c) :: (pt :: ct) :: cs) →
  ∃ ans s' cs', run_buf (Chain (p_at pc) (p_at pt)) s = Some (ans, s') ∧
    packet_step (Chain (p_at pc) (p_at pt)) ans ((pc :: c) :: (pt :: ct) :: cs) cs' ∧ packets_in s' cs'.
Proof.
  intros Hok. destruct (pbuf_chain_ok ram_holds memp_holds s P A [] pc c pt ct cs Hok) as (s' & Hrun & Hok').
  eexists _, s', _. cbn [run_buf]. rewrite (pm_bind_run _ _ _ _ _ Hrun). split; [done|]. split; [constructor|by exists P, A].
Qed.

(** The order of the packets does not matter. *)
Lemma step_from s cs1 cs2 op :
  cs1 ≡ₚ cs2 →
  (∃ ans s' cs', run_buf op s = Some (ans, s') ∧ packet_step op ans cs2 cs' ∧ packets_in s' cs') →
  ∃ ans s' cs', run_buf op s = Some (ans, s') ∧ packet_step op ans cs1 cs' ∧ packets_in s' cs'.
Proof. intros Hp (ans & s' & cs' & ? & ? & ?). exists ans, s', cs'. split_and!; [done|by eapply step_perm|done]. Qed.

Lemma buf_op_step s cs op :
  packets_in s cs → permitted op cs →
  ∃ ans s' cs', run_buf op s = Some (ans, s') ∧ packet_step op ans cs cs' ∧ packets_in s' cs'.
Proof.
  intros Hin Hop. pose proof Hin as (P & A & Hok). destruct op as [l size flag|h|h|h|h t|h|h k|h size]; cbn [permitted] in Hop.
  - by apply alloc_step.
  - destruct Hop as (c & (pc & c' & cs' & -> & <- & Hp)%owns_split). apply (step_from _ _ _ _ Hp). rewrite Hp in Hok.
    by eapply packet_call_step.
  - destruct Hop as (pc0 & c & (pc & c' & cs' & [= -> ->] & <- & Hp)%owns_split & Hr). apply (step_from _ _ _ _ Hp). rewrite Hp in Hok.
    by eapply packet_call_step.
  - destruct Hop as (c & (pc & c' & cs' & -> & <- & Hp)%owns_split). apply (step_from _ _ _ _ Hp). rewrite Hp in Hok.
    by eapply packet_call_step.
  - destruct Hop as (Hne & (c & Ho) & (c2 & [Ht Hc2])). apply owns_split in Ho as (pc & c' & cs' & -> & <- & Hp).
    assert (c2 ∈ cs') as Hc2'.
    { rewrite Hp in Hc2. apply elem_of_cons in Hc2 as [->|?]; [|done]. by injection Ht. }
    destruct (owns_split cs' t c2) as (pt & ct & cs2 & -> & <- & Hp2); [by split|].
    rewrite Hp2 in Hp. apply (step_from _ _ _ _ Hp). rewrite Hp in Hok. by eapply chain_step.
  - destruct Hop as (c & (pc & c' & cs' & -> & <- & Hp)%owns_split). apply (step_from _ _ _ _ Hp). rewrite Hp in Hok.
    by eapply packet_call_step.
  - destruct Hop as (pc0 & c & (pc & c' & cs' & [= -> ->] & <- & Hp)%owns_split & Hr). apply (step_from _ _ _ _ Hp). rewrite Hp in Hok.
    by eapply packet_call_step.
  - destruct Hop as (c & (pc & c' & cs' & -> & <- & Hp)%owns_split & Htot & Hs & Hcan). apply (step_from _ _ _ _ Hp). rewrite Hp in Hok.
    by eapply shorten_step.
Qed.

(** ** Initialisation *)

(** Static memory before [pbuf_init], with allocators that have nothing in use. *)
Definition clean (s : state) : Prop :=
  structs s = ∅ ∧ pbuf_pool_alloc_cache s = None ∧ pbuf_pool_free_cache s = None ∧
  ram_holds (ram_store s) ∅ ∧ memp_holds (Pbuf.memp_store s) ∅.

(** The structures of the pool after [pbuf_init]. *)
Definition pool_structs : gmap ptr pbuf :=
  let '(q, m) := link_pool (Z.to_nat PBUF_POOL_SIZE) (POOL, 0) (POOL, 0) ∅ in alter (Pbuf.set_next None) q m.

Lemma pool_structs_dom a : is_Some (pool_structs !! a) ↔ a ∈ pool_ptrs.
Proof.
  rewrite <-elem_of_dom. assert (dom pool_structs = list_to_set pool_ptrs) as -> by (by vm_compute).
  apply elem_of_list_to_set.
Qed.

Lemma pool_ptrs_NoDup : NoDup pool_ptrs.
Proof. unfold pool_ptrs, PBUF_POOL_BUFSIZE, sizeof_pbuf. apply NoDup_fmap_2; [intros i j [= E]; lia|apply NoDup_seq]. Qed.

Lemma init_packets s0 : clean s0 → packets_in (pbuf_init s0) [].
Proof.
  intros (Es & Ea & Ef & Hr & Hm). unfold pbuf_init. rewrite Es. fold pool_structs.
  change (let '(q, m) := _ in _) with (Bufs pool_structs (Some (POOL, 0)) (pbuf_pool_alloc_cache s0) (pbuf_pool_free_cache s0) 0 0 1
    (StatsPbuf PBUF_POOL_SIZE (pt_used (pbuf_stats s0)) (pt_max (pbuf_stats s0)) (pt_err (pbuf_stats s0))
      (pt_alloc_locked (pbuf_stats s0)) (pt_refresh_locked (pbuf_stats s0))) (ram_store s0) (Pbuf.memp_store s0)).
  exists pool_ptrs, []. split; cbn -[pool_structs pool_ptrs].
  - by vm_compute; repeat (split; [done|]; eexists; split; [done|]).
  - done.
  - done.
  - done.
  - done.
  - rewrite app_nil_r. apply pool_ptrs_NoDup.
  - intros a. rewrite app_nil_r. apply pool_structs_dom.
  - rewrite app_nil_r. by repeat constructor.
  - intros a _. apply pool_structs_dom.
  - done.
  - exists ∅. split; [done|]. intros o. rewrite pool_structs_dom. split; [by intros [? ?]|]. intros (i & E & _)%list_elem_of_fmap. done.
  - exists ∅. split; [done|]. intros o. rewrite pool_structs_dom. split; [by intros [? ?]|]. intros (i & E & _)%list_elem_of_fmap. done.
Qed.

(** ** The properties *)

(** C13: The packet buffers are a collection of packets: [pbuf_init] makes it
    empty, and from then on every call that a client may make returns, and does
    to the packets what it should.  [pbuf_alloc] gives a new packet of the wanted
    length, or null; [pbuf_free] takes the packet away with its last reference;
    [pbuf_realloc] keeps the first bytes; [pbuf_header] moves the start;
    [pbuf_chain] and [pbuf_dechain] join and split; no other packet changes, and
    no structure is lost or used twice. *)
Theorem pbuf_refines_packets :
  (∀ s, clean s → packets_in (pbuf_init s) []) ∧
  ∀ s cs op, packets_in s cs → permitted op cs →
    ∃ ans s' cs', run_buf op s = Some (ans, s') ∧ packet_step op ans cs cs' ∧ packets_in s' cs'.
Proof. split; [apply init_packets|apply buf_op_step]. Qed.

(** The free buffers of the pool and those of the packets are all buffers. *)
Lemma pool_conserved s P A cs :
  ok s P A [] [] cs →
  Z.of_nat (length (P ++ A)) + Z.of_nat (length (filter (λ a : ptr, a.1 = POOL) (ats (concat cs)))) = PBUF_POOL_SIZE.
Proof.
  intros Hok. assert (P ++ A ++ filter (λ a : ptr, a.1 = POOL) (ats (concat cs)) ≡ₚ pool_ptrs) as Hp.
  { pose proof (bo_nodup _ _ _ _ _ _ _ _ Hok) as Hnd. pose proof (bo_area _ _ _ _ _ _ _ _ Hok) as Har. cbn [app] in *.
    rewrite app_nil_r in Har. rewrite !NoDup_app in Hnd. destruct Hnd as (N1 & N2 & N3 & N4 & N5).
    apply NoDup_Permutation.
    - rewrite !NoDup_app. split_and!; [done| |done| |by apply NoDup_filter]; intros x Hx; specialize (N2 x);  specialize (N4 x);
        rewrite ?elem_of_app, ?list_elem_of_filter in *; tauto.
    - apply pool_ptrs_NoDup.
    - intros x. pose proof (bo_dom _ _ _ _ _ _ _ _ Hok x) as Hd. cbn [app] in Hd. rewrite !elem_of_app, list_elem_of_filter in *.
      split.
      + intros Hx. assert (x.1 = POOL) as Hx1.
        { rewrite !Forall_app, !Forall_forall in Har. destruct Har as [H1 H2]. destruct Hx as [?|[?|[? _]]]; [by apply H1|by apply H2|done]. }
        apply (bo_static _ _ _ _ _ _ _ _ Hok x Hx1). tauto.
      + intros Hx. assert (x.1 = POOL) as Hx1 by (apply list_elem_of_fmap in Hx as (i & -> & _); done).
        apply (bo_static _ _ _ _ _ _ _ _ Hok x Hx1) in Hx. tauto. }
  apply Permutation_length in Hp. rewrite !length_app in *. unfold pool_ptrs in Hp. rewrite length_fmap, length_seq in Hp.
  unfold PBUF_POOL_SIZE. lia.
Qed.

(** The number of pool buffers that the packets have. *)
Definition pool_used (cs : list (list piece)) : Z :=
  Z.of_nat (length (filter (λ a : ptr, a.1 = POOL) (ats (concat cs)))).

(** C35: No buffer of the pool is ever lost: an allocation from the pool fails only
    when the buffers that are not part of a packet are too few for it. *)
Theorem pbuf_pool_serves s cs l size :
  packets_in s cs → is_u16 size → pool_used cs < PBUF_POOL_SIZE →
  size + layer_offset l <= PBUF_POOL_BUFSIZE * (PBUF_POOL_SIZE - pool_used cs) →
  ∃ p s', pbuf_alloc l size PBUF_POOL s = Some (Some p, s') ∧
    ∃ c, new_packet PBUF_FLAG_POOL (layer_offset l) size p c ∧ packets_in s' (c :: cs).
Proof.
  intros (P & A & Hok) Hs Hfree Hroom. pose proof (pool_conserved _ _ _ _ Hok) as Hcons. fold (pool_used cs) in Hcons.
  assert (0 <= layer_offset l <= 56 ∧ layer_offset l mod 4 = 0) as [Hoff Hal] by (destruct l; by vm_compute).
  destruct (alloc_pool_ok ram_holds memp_holds s P A [] [] cs (layer_offset l) size Hok) as (r & s' & P' & A' & Hrun & Hr);
    [unfold PBUF_POOL_BUFSIZE; lia|done|done|]. unfold PBUF_POOL_BUFSIZE, PBUF_POOL_SIZE in *.
  destruct r as [p|].
  - destruct Hr as (c & Hnew & Hok'). exists p, s'. split; [done|]. exists c. split; [done|]. by exists P', A'.
  - exfalso. destruct Hr as [[E|Hlt] _]; [rewrite E in Hcons; cbn in Hcons|]; lia.
Qed.

(** A structure in hand that is no longer there, and is not one of the pool. *)
Lemma freed_gone s s' P A F D l P' A' F' cs a :
  ok s P A F (l ++ D) cs → ok s' P' A' F' D cs → a ∈ l → a.1 ≠ POOL → structs s' !! a = None.
Proof.
  intros Hok Hok' Hl Hnp. apply eq_None_not_Some. rewrite (bo_dom _ _ _ _ _ _ _ _ Hok'). intros Hin.
  pose proof (bo_area _ _ _ _ _ _ _ _ Hok') as Har. rewrite !Forall_app, !Forall_forall in Har. destruct Har as (H1 & H2 & H3).
  pose proof (bo_nodup _ _ _ _ _ _ _ _ Hok) as Hnd. rewrite !NoDup_app in Hnd. rewrite !elem_of_app in Hin.
  destruct Hnd as (_ & _ & _ & _ & _ & _ & (_ & N1 & _) & N2 & _).
  destruct Hin as [Hin|[Hin|[Hin|[Hin|Hin]]]]; [by apply Hnp, H1|by apply Hnp, H2|by apply Hnp, H3|by apply (N1 a)|].
  apply (N2 a); [apply elem_of_app; by left|done].
Qed.

(** [pbuf_realloc] on a packet that starts in the heap frees what is left over
    one structure at a time with [pbuf_free], which frees the rest of the chain
    too: when two structures are left over, the second one is read after it has
    been freed. *)
Theorem pbuf_realloc_frees_twice s pc c cs size :
  packets_in s ((pc :: c) :: cs) → p_kind pc = PBUF_FLAG_RAM → total (pc :: c) < 65536 → 0 <= size < total (pc :: c) →
  (∀ c' c2, cut_packet (pc :: c) size c' c2 →
     ∃ q1 q2 rest, c2 = q1 :: q2 :: rest ∧ p_ref q1 = 1 ∧ p_kind q2 ≠ PBUF_FLAG_POOL) →
  pbuf_realloc base (p_at pc) size s = None.
Proof.
  intros (P & A & Hok) Ekp Htot Hs Hleft.
  destruct (realloc_start _ _ _ _ _ _ _ _ _ _ Hok Htot Hs) as (b & c1 & pz & c2 & Hb & Ek & Ht & Ec & Hrun & Hz & Hh & Hok1 & Hl & Hm & Hp & Hfuel).
  destruct (Hleft (c1 ++ [with_len (size - total c1) pz]) c2) as (q1 & q2 & rest & -> & Hr1 & Hk2); [by exists c1, pz|].
  destruct (shrink_block_ok base ram_holds memp_holds s P A [] _ cs pz (size - total c1) Hok1) as (s0 & Hshr & Hok0 & Es & Ef).
  { apply Forall_app in Hm as [_ Hm]. by apply Forall_cons in Hm as [? _]. }
  { apply Forall_app in Hp as [_ Hp]. by apply Forall_cons in Hp as [? _]. }
  rewrite <-Es in Hl, Hm. rewrite <-Hh in Hl.
  destruct (cut_chain_ok ram_holds memp_holds s0 P A [] [] cs c1 pz (q1 :: q2 :: rest) (size - total c1)) as (m' & Hcut & Hok2 & _ & _ & Hl2 & Hm2 & _);
    [by rewrite app_nil_r|done|done|].
  apply Forall_app in Hp as [_ Hp]. apply Forall_cons in Hp as [_ Hp]. pose proof (chain_kinds _ _ Hm2 Hp) as Hkinds.
  assert (ok (with_structs m' s0) P A [] (ats (q1 :: q2 :: rest) ++ ats (c1 ++ [pz])) cs) as Hok3.
  { replace (c1 ++ pz :: q1 :: q2 :: rest) with ((c1 ++ [pz]) ++ q1 :: q2 :: rest) in Hok2 by (by rewrite <-app_assoc).
    rewrite app_nil_r, ats_app in Hok2. by rewrite Permutation_app_comm. }
  apply Forall_cons in Hm2 as [(bq & Hbq & _ & _ & _ & Er) _].
  destruct (free_hand ram_holds memp_holds (with_structs m' s0) P A [] (ats (c1 ++ [pz])) cs (p_at q1) _ bq Hok3 Hl2 Hkinds Hbq) as (s2 & P2 & Hfree & Hok4 & _).
  { congruence. }
  assert (structs s2 !! p_at q2 = None) as Hgone.
  { eapply freed_gone; [exact Hok3|exact Hok4|right; by left|].
    apply Forall_cons in Hp as [_ Hp]. apply Forall_cons in Hp as [(Ha2 & _) _].
    intros E. rewrite E in Ha2. injection Ha2 as E'. by apply Hk2. }
  destruct Hl2 as [_ (n & Hn & Hl2)]. rewrite (nxt_some _ _ _ Hbq) in Hn. injection Hn as <-. destruct Hl2 as [Hn2 _].
  unfold pbuf_realloc. rewrite (pm_bind_run _ _ _ _ _ (get_run _ _ _ Hb)), Ht, (proj2 (Z.leb_gt _ _)) by lia.
  unfold gets. unfold mbind at 1, pm_bind at 1. rewrite Ek, Ekp.
  unfold mbind at 1, pm_bind at 1. rewrite (pm_bind_run _ _ _ _ _ Hrun). cbv beta iota zeta.
  rewrite (pm_bind_run _ _ _ _ _ Hshr), (pm_bind_run _ _ _ _ _ Hcut). unfold walk_fuel at 1.
  cbn [free_rest_ram head fmap option_fmap option_map]. rewrite (pm_bind_run _ _ _ _ _ (get_run _ (with_structs m' s0) _ Hbq)).
  rewrite (pm_bind_run _ _ _ _ _ Hfree), Hn2. destruct (base.size (structs s)); [done|]. cbn [free_rest_ram].
  unfold get. unfold mbind at 1, pm_bind at 1. by rewrite Hgone.
Qed.
End refine.

(** * On the allocators of the stack *)

(** The addresses of the arrays. *)
Definition stack_base (a : area) : Z :=
  match a with RAM => 0x800000 | MEMP => 0 | POOL => 0x700000 | ROM => 0x400000 end.

Definition heap0 : heap := match mem_init statics with Done _ h => h | Crash _ => statics end.

Lemma heap0_holds : heap_holds heap0 ∅.
Proof.
  exists ∅. split; [|split].
  - apply reachable_refines, (MemProps.reach_init statics). reflexivity.
  - intros p. rewrite !lookup_empty. split; by intros [? ?].
  - intros p n d. by rewrite lookup_empty.
Qed.

Lemma memp_start_holds : Store.memp_holds sample_sizes 6291456 memp_start ∅.
Proof.
  exists ∅. eexists. split; [apply init_ok; apply _|]. split; [|intros p n; by rewrite lookup_empty].
  intros p. rewrite !lookup_empty. split; [by intros [? ?]|done].
Qed.

(** The static memory of the stack, with its heap and its pools. *)
Definition static_bufs : @bufs heap pools :=
  Bufs ∅ None None None 0 0 0 (StatsPbuf 0 0 0 0 0 0) heap0 memp_start.

Lemma static_clean : clean heap_holds (Store.memp_holds sample_sizes 6291456) static_bufs.
Proof. split_and!; [done|done|done|apply heap0_holds|apply memp_start_holds]. Qed.

(** Three buffers of the pool for 300 bytes with room for headers. *)
Lemma pbuf_refines_packets_witness :
  ∃ ans s' cs', run_buf stack_base (Alloc PBUF_TRANSPORT 300 PBUF_POOL) (pbuf_init static_bufs) = Some (ans, s') ∧
    ans = APtr (Some (POOL, 0)) ∧ packets_in heap_holds (Store.memp_holds sample_sizes 6291456) s' cs'.
Proof.
  destruct (pbuf_refines_packets stack_base heap_holds (Store.memp_holds sample_sizes 6291456)) as [Hinit Hstep];
    [lia|by vm_compute|].
  destruct (Hstep _ [] (Alloc PBUF_TRANSPORT 300 PBUF_POOL) (Hinit _ static_clean)) as (ans & s' & cs' & Hrun & _ & Hin).
  { cbn. unfold is_u16. lia. }
  exists ans, s', cs'. split; [exact Hrun|]. split; [|exact Hin].
  assert (fst <$> run_buf stack_base (Alloc PBUF_TRANSPORT 300 PBUF_POOL) (pbuf_init static_bufs) = Some (APtr (Some (POOL, 0)))) as E
    by (vm_compute; reflexivity).
  rewrite Hrun in E. by injection E.
Defined.

Lemma pbuf_pool_serves_witness :
  ∃ p s', pbuf_alloc PBUF_RAW 768 PBUF_POOL (pbuf_init static_bufs) = Some (Some p, s').
Proof.
  destruct (pbuf_pool_serves heap_holds (Store.memp_holds sample_sizes 6291456) (pbuf_init static_bufs) [] PBUF_RAW 768)
    as (p & s' & Hrun & _).
  - apply init_packets, static_clean.
  - unfold is_u16. lia.
  - by vm_compute.
  - by vm_compute.
  - exists p, s'. exact Hrun.
Defined.

(** One new packet in the heap. *)
Lemma ram_piece off size p c :
  new_packet PBUF_FLAG_RAM off size p c → ∃ q, c = [q] ∧ p_at q = p ∧ p_len q = size ∧ p_kind q = PBUF_FLAG_RAM ∧ p_ref q = 1.
Proof.
  intros (Hh & Ht & Hf & Hl & _). specialize (Hl ltac:(done)). destruct c as [|q [|? ?]]; try (cbn in Hl; lia).
  apply Forall_cons in Hf as [[Hk Hr] _]. injection Hh as Hh. cbn in Ht. exists q. split_and!; [done|done|lia|done|done].
Qed.

(** Three packets of 100 bytes in the heap are joined and cut to 50 bytes. *)
Lemma pbuf_realloc_frees_twice_witness : ∃ p (s : @bufs heap pools), pbuf_realloc stack_base p 50 s = None.
Proof.
  destruct (init_packets heap_holds (Store.memp_holds sample_sizes 6291456) _ static_clean) as (P & A & Hok0).
  assert (fst <$> alloc_ram 0 100 (pbuf_init static_bufs) = Some (Some (RAM, 12))) as V0 by (vm_compute; reflexivity).
  assert (fst <$> (alloc_ram 0 100;; alloc_ram 0 100) (pbuf_init static_bufs) = Some (Some (RAM, 156))) as V1
    by (vm_compute; reflexivity).
  assert (fst <$> (alloc_ram 0 100;; alloc_ram 0 100;; alloc_ram 0 100) (pbuf_init static_bufs) = Some (Some (RAM, 300))) as V2
    by (vm_compute; reflexivity).
  assert (is_u16 100) as Hs by (unfold is_u16; lia).
  destruct (alloc_ram_ok heap_holds (Store.memp_holds sample_sizes 6291456) (ram_limit := 100000) ltac:(lia)
    _ _ _ _ _ _ 0 100 Hok0 ltac:(lia) Hs) as (r0 & s0 & E0 & H0).
  rewrite (pm_bind_run _ _ _ _ _ E0) in V1. rewrite (pm_bind_run _ _ _ _ _ E0) in V2. rewrite E0 in V0. injection V0 as ->.
  destruct H0 as (c0 & (q0 & -> & _ & L0 & K0 & R0)%ram_piece & Hok1).
  destruct (alloc_ram_ok heap_holds (Store.memp_holds sample_sizes 6291456) (ram_limit := 100000) ltac:(lia)
    _ _ _ _ _ _ 0 100 Hok1 ltac:(lia) Hs) as (r1 & s1 & E1 & H1).
  rewrite (pm_bind_run _ _ _ _ _ E1) in V2. rewrite E1 in V1. injection V1 as ->.
  destruct H1 as (c1 & (q1 & -> & _ & L1 & K1 & R1)%ram_piece & Hok2).
  destruct (alloc_ram_ok heap_holds (Store.memp_holds sample_sizes 6291456) (ram_limit := 100000) ltac:(lia)
    _ _ _ _ _ _ 0 100 Hok2 ltac:(lia) Hs) as (r2 & s2 & E2 & H2).
  rewrite E2 in V2. injection V2 as ->.
  destruct H2 as (c2 & (q2 & -> & _ & L2 & K2 & R2)%ram_piece & Hok3).
  destruct (pbuf_chain_ok _ _ _ _ _ _ _ _ _ _ _ Hok3) as (s3 & _ & Hok4).
  destruct (pbuf_chain_ok _ _ _ _ _ _ _ _ _ _ _ Hok4) as (s4 & _ & Hok5). cbn [app] in Hok5.
  exists (p_at q2), s4.
  apply (pbuf_realloc_frees_twice stack_base heap_holds (Store.memp_holds sample_sizes 6291456) s4 q2 [q1; q0] [] 50);
    [by exists P, A|done|cbn; lia|cbn; lia|].
  intros c' rest (d & z & E & Hz & _). destruct d as [|d0 d].
  - injection E as <- <-. exists q1, q0, []. split_and!; [done|done|congruence].
  - exfalso. clear -E Hz L0 L1 L2. destruct d as [|d1 [|d2 [|? ?]]]; simplify_eq/=; lia.
Defined.

(** Cutting a packet leaves a block of the heap that does not end at a multiple of
    4; the bytes of the next packet start at the next multiple, so the last one of
    them lies in the header of the block behind it. *)
Example pbuf_header_overwritten :
  (λ r : (option ptr * option (option ptr * Z) * option ptr) * @bufs heap pools, r.1) <$>
    (p ← alloc_ram 0 200;
     match p with Some p => pbuf_realloc stack_base p 51 | None => mret tt end;;
     q ← alloc_ram 0 100;
     d ← match q with Some q => b ← get q; mret (Some (payload b, len b)) | None => mret None end;
     r ← alloc_ram 0 100;
     mret (q, d, r)) (pbuf_init static_bufs)
  = Some (Some (RAM, 107), Some (Some (RAM, 140), 100), Some (RAM, 251)) ∧
  251 - SIZEOF_STRUCT_MEM < 140 + 100.
Proof. split; [vm_compute; reflexivity|by vm_compute]. Qed.
