(* ===== verification/Timeouts.v ===== *)
(** Timeouts and waiting in the TCP stack's system layer (lwtcp/sys.c, and the
    waiting functions of lwtcp/sys_arch.c).

    A thread keeps its timeouts in a list in which every entry holds the time
    that remains after the entry in front of it.  [sys_mbox_fetch] and
    [sys_sem_wait] wait with [sys_arch_mbox_fetch] and [sys_arch_sem_wait] and
    call the handlers whose time has come.

    What a thread meets from the other threads and the scheduler is a script of
    observations, one for each test of a semaphore or of a mailbox; a call that
    needs more of them than there are is still waiting.  A thread and its
    handlers may request timeouts, work for some time and wait, handlers in the
    middle of a wait of the thread included. *)

From Stdlib Require Import ZArith Lia Sorted Permutation.
From stdpp Require Import base tactics list numbers.
From S2P Require Import Prelude.

Local Open Scope Z_scope.

(** * Data and operations *)

(** A handler and its argument are pointers. *)
Record timeout := Timeout { to_time : Z; to_h : Z; to_arg : Z }.

Definition set_time (n : Z) (t : timeout) : timeout := Timeout n (to_h t) (to_arg t).

(** The loop of [sys_timeout]: [t] is the entry the loop is at, [rest] those
    behind it. *)
Fixpoint insert_behind (new t : timeout) (rest : list timeout) : list timeout :=
  let new := set_time (u16 (to_time new - to_time t)) new in
  match rest with
  | [] => [t; new]
  | next :: rest' =>
      if to_time new <? to_time next
      then t :: new :: set_time (u16 (to_time next - to_time new)) next :: rest'
      else t :: insert_behind new next rest'
  end.

(** [mem]: whether [memp_malloc] had a block for the entry. *)
Definition sys_timeout (mem : bool) (msecs h arg : Z) (timeouts : list timeout) : list timeout :=
  if negb mem then timeouts
  else
    let new := Timeout msecs h arg in
    match timeouts with
    | [] => [new]
    | first :: rest =>
        if msecs <? to_time first
        then new :: set_time (u16 (to_time first - msecs)) first :: rest
        else insert_behind new first rest
    end.

(** The absolute time for [pthread_cond_timedwait]: seconds and nanoseconds. *)
Definition cond_deadline (sec usec timeout : Z) : Z * Z :=
  let usec := usec + timeout mod 1000 * 1000 in
  let sec := sec + (s32 (timeout / 1000) + s32 (usec / 1000000)) in
  let usec := usec mod 1000000 in
  (sec, usec * 1000).

(** The time waited, in milliseconds, from the two time stamps; C's division
    rounds towards zero.  The result is a [uint16_t]. *)
Definition cond_waited (sec1 usec1 sec2 usec2 : Z) : Z :=
  let tdiff := u32 ((sec2 - sec1) * 1000 + Z.quot (usec2 - usec1) 1000) in
  if tdiff =? 0 then 1 else u16 tdiff.

(** One test by the thread: what it took to get there, what it found, and what
    became of the wait that follows.  Times are in microseconds. *)
Record obs := Obs {
  lag : Z;          (* passes before the test *)
  sem_c : Z;        (* the count of the semaphore *)
  no_mail : bool;   (* the mailbox is empty *)
  expired : bool;   (* [pthread_cond_timedwait] returns [ETIMEDOUT] *)
  lasts : Z         (* how long the wait lasts; how much it ends after the deadline *)
}.

(** The clock and the observations to come. *)
Record env := Env { clock : Z; script : list obs }.

Definition observe (e : env) : option (obs * env) :=
  match script e with
  | [] => None
  | o :: rest => Some (o, Env (clock e + lag o) rest)
  end.

Definition secs (clock : Z) : Z := clock / 1000000.
Definition usecs (clock : Z) : Z := clock mod 1000000.

(** The time it returns and the clock at its end. *)
Definition cond_wait (timeout : Z) (o : obs) (clock : Z) : Z * Z :=
  if 0 <? timeout then
    let '(s, ns) := cond_deadline (secs clock) (usecs clock) timeout in
    if expired o then (0, s * 1000000 + ns / 1000 + lasts o)
    else
      let clock2 := clock + lasts o in
      (cond_waited (secs clock) (usecs clock) (secs clock2) (usecs clock2), clock2)
  else (0, clock + lasts o).

(** The loop of [sys_arch_sem_wait]. *)
Fixpoint sem_wait_loop (timeout time clock : Z) (script : list obs) : option (Z * env) :=
  match script with
  | [] => None
  | o :: rest =>
      let clock := clock + lag o in
      if 0 <? sem_c o then Some (time, Env clock rest)
      else
        let '(t, clock) := cond_wait timeout o clock in
        if 0 <? timeout then
          if t =? 0 then Some (0, Env clock rest) else sem_wait_loop timeout t clock rest
        else sem_wait_loop timeout time clock rest
  end.

Definition sys_arch_sem_wait (timeout : Z) (e : env) : option (Z * env) :=
  sem_wait_loop timeout 1 (clock e) (script e).

(** The loop of [sys_arch_mbox_fetch], from the test of the mailbox on. *)
Fixpoint fetch_loop (fuel : nat) (timeout time : Z) (e : env) : option (Z * env) :=
  match fuel with
  | O => None
  | S fuel =>
      '(o, e) ← observe e;
      if no_mail o then
        '(t, e) ← sys_arch_sem_wait timeout e;
        if negb (timeout =? 0) && (t =? 0) then Some (0, e)
        else
          '(_, e) ← sys_arch_sem_wait 0 e;
          fetch_loop fuel timeout (if timeout =? 0 then time else t) e
      else Some (time, e)
  end.

Definition sys_arch_mbox_fetch (timeout : Z) (e : env) : option (Z * env) :=
  '(_, e) ← sys_arch_sem_wait 0 e;
  fetch_loop (S (length (script e))) timeout 1 e.

(** ** Threads *)

(** The clock, the number of waits that ended before a timeout and the time
    accounted for in the list, at some moment. *)
Record stamp := Stamp { st_clock : Z; st_waits : Z; st_passed : Z }.

(** What has happened to the timeouts. *)
Inductive event :=
  | Requested (at_ : stamp) (msecs h arg : Z)
  | Called (at_ : stamp) (h arg : Z).

Record thread := Thread {
  t_env : env;
  timeouts : list timeout;
  waits : Z;
  passed : Z;
  trace : list event
}.

Definition now (t : thread) : stamp := Stamp (clock (t_env t)) (waits t) (passed t).

Inductive turn :=
  | StillWaits
  | Goes (t : thread)
  | Calls (h arg : Z) (t : thread).

(** The body of [sys_mbox_fetch] and of [sys_sem_wait], from the label [again] to
    the call of a handler or to the end; [arch_wait] is the waiting function. *)
Definition wait_turn (arch_wait : Z → env → option (Z * env)) (t : thread) : turn :=
  match timeouts t with
  | [] =>
      match arch_wait 0 (t_env t) with
      | None => StillWaits
      | Some (_, e) => Goes (Thread e [] (waits t) (passed t) (trace t))
      end
  | next :: rest =>
      match (if 0 <? to_time next then arch_wait (to_time next) (t_env t) else Some (0, t_env t)) with
      | None => StillWaits
      | Some (time, e) =>
          if time =? 0 then
            let due := passed t + to_time next in
            Calls (to_h next) (to_arg next)
              (Thread e rest (waits t) due
                 (trace t ++ [Called (Stamp (clock e) (waits t) due) (to_h next) (to_arg next)]))
          else if time <=? to_time next then
            Goes (Thread e (set_time (u16 (to_time next - time)) next :: rest) (waits t + 1) (passed t + time) (trace t))
          else
            Goes (Thread e (set_time 0 next :: rest) (waits t + 1) (passed t + to_time next) (trace t))
      end
  end.

Definition sys_mbox_fetch : thread → turn := wait_turn sys_arch_mbox_fetch.
Definition sys_sem_wait : thread → turn := wait_turn sys_arch_sem_wait.

(** What a thread or a handler does; [mem] is whether there is a block for the
    entry of the request. *)
Inductive action :=
  | Request (mem : bool) (msecs h arg : Z)
  | Work (us : Z)
  | Fetch
  | SemWait.

Definition request (mem : bool) (msecs h arg : Z) (t : thread) : thread :=
  Thread (t_env t) (sys_timeout mem msecs h arg (timeouts t)) (waits t) (passed t)
    (if mem then trace t ++ [Requested (now t) msecs h arg] else trace t).

Definition work_for (us : Z) (t : thread) : thread :=
  Thread (Env (clock (t_env t) + us) (script (t_env t))) (timeouts t) (waits t) (passed t) (trace t).

Inductive run_status := Finished | Waits | OutOfFuel.

Section run.
(** What a handler does when it is called, which may depend on all that has
    happened before. *)
Context (handlers : list event → Z → Z → list action).

(** A thread with [acts] left to do.  A handler that is called in a wait runs
    first, then the wait goes on from [again]. *)
Fixpoint run (fuel : nat) (acts : list action) (t : thread) : run_status * thread :=
  match fuel with
  | O => (OutOfFuel, t)
  | S fuel =>
      match acts with
      | [] => (Finished, t)
      | Request mem msecs h arg :: acts' => run fuel acts' (request mem msecs h arg t)
      | Work us :: acts' => run fuel acts' (work_for us t)
      | Fetch :: acts' =>
          match sys_mbox_fetch t with
          | StillWaits => (Waits, t)
          | Goes t' => run fuel acts' t'
          | Calls h arg t' => run fuel (handlers (trace t) h arg ++ acts) t'
          end
      | SemWait :: acts' =>
          match sys_sem_wait t with
          | StillWaits => (Waits, t)
          | Goes t' => run fuel acts' t'
          | Calls h arg t' => run fuel (handlers (trace t) h arg ++ acts) t'
          end
      end
  end.
End run.

(** * Absolute times *)

(** When each entry is due, and its handler. *)
Fixpoint due (base : Z) (l : list timeout) : list (Z * (Z * Z)) :=
  match l with
  | [] => []
  | t :: l' => (base + to_time t, (to_h t, to_arg t)) :: due (base + to_time t) l'
  end.

(** Behind the entries that are due earlier or at the same time. *)
Fixpoint enter (x : Z * (Z * Z)) (l : list (Z * (Z * Z))) : list (Z * (Z * Z)) :=
  match l with
  | [] => [x]
  | y :: l' => if x.1 <? y.1 then x :: l else y :: enter x l'
  end.

Definition wf_timeouts (l : list timeout) : Prop := Forall (λ t, is_u16 (to_time t)) l.

Lemma insert_behind_due base new t rest :
  wf_timeouts (new :: t :: rest) → to_time t <= to_time new →
  due base (insert_behind new t rest) = enter (base + to_time new, (to_h new, to_arg new)) (due base (t :: rest)) ∧
  wf_timeouts (insert_behind new t rest).
Proof.
  revert base new t. induction rest as [|n rest IH]; intros base new t Hwf Hle;
    inversion_clear Hwf as [|? ? Hnew Hwf']; inversion_clear Hwf' as [|? ? Ht Hwf].
  - cbn. unfold u16. unfold is_u16 in *. rewrite Z.mod_small by lia.
    rewrite (proj2 (Z.ltb_ge _ _)) by lia. split.
    + do 2 f_equal. f_equal. lia.
    + repeat constructor; cbn; unfold is_u16; lia.
  - cbn [insert_behind]. rewrite (u16_small (to_time new - to_time t)) by (unfold is_u16 in *; lia).
    set (new' := set_time (to_time new - to_time t) new).
    cbn [due enter fst]. rewrite (proj2 (Z.ltb_ge (base + to_time new) (base + to_time t))) by lia.
    replace (to_time new') with (to_time new - to_time t) by done.
    inversion_clear Hwf as [|? ? Hn Hrest].
    destruct (Z.ltb_spec (to_time new - to_time t) (to_time n)) as [Hlt|Hge].
    + rewrite (proj2 (Z.ltb_lt (base + to_time new) _)) by lia.
      rewrite u16_small by (unfold is_u16 in *; lia). split.
      * cbn. replace (base + to_time t + (to_time new - to_time t)) with (base + to_time new) by lia.
        by replace (base + to_time new + (to_time n - (to_time new - to_time t))) with (base + to_time t + to_time n) by lia.
      * repeat constructor; cbn; try done; unfold is_u16 in *; lia.
    + destruct (IH (base + to_time t) new' n) as [E Hwf2].
      * repeat constructor; cbn; try done; unfold is_u16 in *; lia.
      * cbn. lia.
      * split; [|constructor; [done|exact Hwf2]]. cbn [due]. rewrite E. cbn [due to_time to_h to_arg new' set_time enter fst].
        by replace (base + to_time t + (to_time new - to_time t)) with (base + to_time new) by lia.
Qed.

Lemma sys_timeout_due base msecs h arg l :
  wf_timeouts l → is_u16 msecs →
  due base (sys_timeout true msecs h arg l) = enter (base + msecs, (h, arg)) (due base l) ∧
  wf_timeouts (sys_timeout true msecs h arg l).
Proof.
  intros Hwf Hm. destruct l as [|t l]; [split; [done|by apply Forall_singleton]|].
  cbn [sys_timeout negb]. inversion_clear Hwf as [|? ? Ht Hl].
  destruct (Z.ltb_spec msecs (to_time t)) as [Hlt|Hge].
  - cbn [due enter fst to_time to_h to_arg set_time]. rewrite (proj2 (Z.ltb_lt _ _)) by lia.
    rewrite u16_small by (unfold is_u16 in *; lia). split.
    + by replace (base + msecs + (to_time t - msecs)) with (base + to_time t) by lia.
    + repeat constructor; cbn; try done; unfold is_u16 in *; lia.
  - apply (insert_behind_due base (Timeout msecs h arg)); [by do 2 (constructor; [done|])|done].
Qed.

Lemma enter_split x l :
  ∃ l1 l2, l = l1 ++ l2 ∧ enter x l = l1 ++ x :: l2 ∧ Forall (λ y, y.1 <= x.1) l1.
Proof.
  induction l as [|y l IH]; [by exists [], []|]. cbn. destruct (Z.ltb_spec x.1 y.1) as [Hlt|Hge].
  - by exists [], (y :: l).
  - destruct IH as (l1 & l2 & -> & -> & Hl1). exists (y :: l1), l2. split_and!; [done|done|by constructor].
Qed.

Lemma enter_perm x l : enter x l ≡ₚ x :: l.
Proof. destruct (enter_split x l) as (l1 & l2 & -> & -> & _). by rewrite Permutation_middle. Qed.

Lemma enter_sorted x l : StronglySorted (λ a b, a.1 <= b.1) l → StronglySorted (λ a b, a.1 <= b.1) (enter x l).
Proof.
  induction 1 as [|y l Hs IH Hy]; [by repeat constructor|]. cbn. destruct (Z.ltb_spec x.1 y.1) as [Hlt|Hge].
  - constructor; [by constructor|]. constructor; [lia|]. eapply Forall_impl; [|exact Hy]. cbn. lia.
  - constructor; [done|]. rewrite enter_perm. by constructor.
Qed.

(** * The agenda *)

(** What the events do to an agenda: a request enters it, at the accounted time
    plus the time asked for; a call takes its first entry, which is due exactly
    at the accounted time. *)
Definition replay_event (a : list (Z * (Z * Z))) (ev : event) : option (list (Z * (Z * Z))) :=
  match ev with
  | Requested s msecs h arg => Some (enter (st_passed s + msecs, (h, arg)) a)
  | Called s h arg =>
      match a with
      | [] => None
      | x :: a' => if bool_decide (x = (st_passed s, (h, arg))) then Some a' else None
      end
  end.

Definition replay (evs : list event) : option (list (Z * (Z * Z))) :=
  foldl (λ o ev, a ← o; replay_event a ev) (Some []) evs.

Definition stamp_of (ev : event) : stamp :=
  match ev with Requested s _ _ _ => s | Called s _ _ => s end.

(** From one moment to a later one the accounted time runs ahead of the clock by
    at most a millisecond for each wait that ended in between. *)
Definition pace (s1 s2 : stamp) : Prop :=
  1000 * (st_passed s2 - st_passed s1) <= (st_clock s2 - st_clock s1) + 1000 * (st_waits s2 - st_waits s1).

Definition paced (t : thread) : Prop := StronglySorted pace ((stamp_of <$> trace t) ++ [now t]).

(** Time does not run backwards. *)
Definition wf_obs (o : obs) : Prop := 0 <= lag o ∧ 0 <= lasts o.
Definition wf_action (a : action) : Prop :=
  match a with
  | Request _ msecs _ _ => is_u16 msecs
  | Work us => 0 <= us
  | _ => True
  end.

(** * Waiting functions *)

Lemma cond_deadline_us clock timeout :
  is_u16 timeout →
  let '(s, ns) := cond_deadline (secs clock) (usecs clock) timeout in
  s * 1000000 + ns / 1000 = clock + timeout * 1000.
Proof.
  intros Ht. unfold cond_deadline, secs, usecs, is_u16 in *.
  rewrite !s32_small by (Z.to_euclidean_division_equations; lia).
  rewrite Z.div_mul by lia. Z.to_euclidean_division_equations. lia.
Qed.

(** The time returned for a wait that was not cut off by the timeout: 0 only
    after more than 65 seconds. *)
Lemma cond_waited_bounds clock clock2 :
  clock <= clock2 →
  let d := cond_waited (secs clock) (usecs clock) (secs clock2) (usecs clock2) in
  0 <= d ∧ d * 1000 <= clock2 - clock + 1000 ∧ (d = 0 → 65535000 <= clock2 - clock).
Proof.
  intros Hc. cbv zeta. unfold cond_waited, secs, usecs.
  set (d := (clock2 / 1000000 - clock / 1000000) * 1000 + Z.quot (clock2 mod 1000000 - clock mod 1000000) 1000).
  assert (0 <= d ∧ d * 1000 <= clock2 - clock + 999) as [Hd1 Hd2]
    by (subst d; Z.to_euclidean_division_equations; lia).
  pose proof (Z.mod_le d 4294967296 Hd1 ltac:(lia)) as H32. pose proof (Z.mod_pos_bound d 4294967296 ltac:(lia)).
  fold (u32 d) in *. destruct (Z.eqb_spec (u32 d) 0) as [H0|H0]; [lia|].
  pose proof (Z.mod_le (u32 d) 65536 ltac:(lia) ltac:(lia)). pose proof (Z.mod_pos_bound (u32 d) 65536 ltac:(lia)).
  fold (u16 (u32 d)) in *. split_and!; [lia|lia|]. intros E.
  assert (65536 <= u32 d); [|lia]. unfold u16 in E. apply Z.mod_divide in E as [q Hq]; [|lia]. nia.
Qed.

(** What a waiting function promises: it uses up observations; when it reports
    that the time is up, as much has passed, and otherwise what it reports has
    passed but for at most a millisecond. *)
Definition honest (arch_wait : Z → env → option (Z * env)) : Prop :=
  ∀ timeout e time e', is_u16 timeout → Forall wf_obs (script e) → arch_wait timeout e = Some (time, e') →
    Forall wf_obs (script e') ∧ (length (script e') < length (script e))%nat ∧ clock e <= clock e' ∧
    (0 < timeout → 0 <= time ∧ time * 1000 <= clock e' - clock e + 1000 ∧
                   (time = 0 → timeout * 1000 <= clock e' - clock e)).

Lemma sem_wait_loop_honest timeout time clock0 script0 r e' :
  is_u16 timeout → Forall wf_obs script0 → sem_wait_loop timeout time clock0 script0 = Some (r, e') →
  Forall wf_obs (script e') ∧ (length (script e') < length script0)%nat ∧ clock0 <= clock e' ∧
  (0 < timeout → 0 < time → ∀ c, c <= clock0 → time * 1000 <= clock0 - c + 1000 →
     0 <= r ∧ r * 1000 <= clock e' - c + 1000 ∧ (r = 0 → timeout * 1000 <= clock e' - c)).
Proof.
  intros Ht Hs. revert time clock0. induction Hs as [|o rest [Hlag Hlast] Hs IH]; intros time clock0 E; [done|].
  cbn [sem_wait_loop] in E. destruct (0 <? sem_c o).
  { injection E as <- <-. cbn. split_and!; [done|lia|lia|]. intros. lia. }
  unfold cond_wait in E. destruct (Z.ltb_spec 0 timeout) as [Hpos|Hz].
  - pose proof (cond_deadline_us (clock0 + lag o) timeout Ht) as Hd. destruct (cond_deadline _ _ _) as [sec ns].
    destruct (expired o).
    + injection E as <- <-. cbn. split_and!; [done|lia|lia|]. intros. lia.
    + pose proof (cond_waited_bounds (clock0 + lag o) (clock0 + lag o + lasts o) ltac:(lia)) as (Hw1 & Hw2 & Hw3).
      set (w := cond_waited _ _ _ _) in *. destruct (Z.eqb_spec w 0) as [H0|H0].
      * injection E as <- <-. cbn. specialize (Hw3 H0). unfold is_u16 in Ht. split_and!; [done|lia|lia|]. intros. lia.
      * destruct (IH _ _ E) as (Hs' & Hl & Hc & Hb). split_and!; [done|cbn; lia|lia|]. intros _ _ c Hle _.
        apply (Hb Hpos ltac:(lia)); lia.
  - destruct (IH _ _ E) as (Hs' & Hl & Hc & _). split_and!; [done|cbn; lia|lia|lia].
Qed.

Lemma sys_arch_sem_wait_honest : honest sys_arch_sem_wait.
Proof.
  intros timeout e time e' Ht Hs E.
  destruct (sem_wait_loop_honest _ _ _ _ _ _ Ht Hs E) as (? & ? & ? & Hb). split_and!; try done.
  intros Hpos. apply (Hb Hpos); lia.
Qed.

Lemma observe_run e o e' :
  observe e = Some (o, e') → Forall wf_obs (script e) →
  Forall wf_obs (script e') ∧ (length (script e') < length (script e))%nat ∧ clock e <= clock e'.
Proof.
  unfold observe. destruct (script e) as [|o' rest]; [done|]. intros [= <- <-] Ho. apply Forall_cons_1 in Ho as [[? ?] ?].
  cbn. split_and!; [done|lia|lia].
Qed.

Lemma fetch_loop_honest fuel timeout time e r e' :
  is_u16 timeout → Forall wf_obs (script e) → fetch_loop fuel timeout time e = Some (r, e') →
  Forall wf_obs (script e') ∧ (length (script e') < length (script e))%nat ∧ clock e <= clock e' ∧
  (0 < timeout → 0 < time → ∀ c, c <= clock e → time * 1000 <= clock e - c + 1000 →
     0 <= r ∧ r * 1000 <= clock e' - c + 1000 ∧ (r = 0 → timeout * 1000 <= clock e' - c)).
Proof.
  intros Ht. revert time e. induction fuel as [|fuel IH]; intros time e Hs E; [done|]. cbn [fetch_loop] in E.
  destruct (observe e) as [[o e1]|] eqn:Eo; [|done]. cbn [mbind option_bind] in E.
  destruct (observe_run _ _ _ Eo Hs) as (Hs1 & Hl1 & Hc1). destruct (no_mail o).
  2: { injection E as <- <-. split_and!; try done. intros. lia. }
  destruct (sys_arch_sem_wait timeout e1) as [[t e2]|] eqn:Ew; [|done]. cbn [mbind option_bind] in E.
  destruct (sys_arch_sem_wait_honest _ _ _ _ Ht Hs1 Ew) as (Hs2 & Hl2 & Hc2 & Hb2).
  destruct (negb (timeout =? 0) && (t =? 0)) eqn:Ez.
  { injection E as <- <-. apply andb_true_iff in Ez as [_ Ez%Z.eqb_eq]. split_and!; [done|lia|lia|].
    intros Hpos ? c ? ?. destruct (Hb2 Hpos) as (? & ? & Hex). specialize (Hex Ez). lia. }
  destruct (sys_arch_sem_wait 0 e2) as [[t3 e3]|] eqn:Em; [|done]. cbn [mbind option_bind] in E.
  destruct (sys_arch_sem_wait_honest 0 e2 t3 e3 ltac:(unfold is_u16; lia) Hs2 Em) as (Hs3 & Hl3 & Hc3 & _).
  destruct (IH _ _ Hs3 E) as (Hs4 & Hl4 & Hc4 & Hb4). split_and!; [done|lia|lia|].
  intros Hpos _ c Hle _. destruct (Hb2 Hpos) as (? & ? & _).
  rewrite (proj2 (Z.eqb_neq timeout 0)) in Ez, Hb4 by lia. cbn [negb andb] in Ez. apply Z.eqb_neq in Ez.
  apply (Hb4 Hpos); lia.
Qed.

Lemma sys_arch_mbox_fetch_honest : honest sys_arch_mbox_fetch.
Proof.
  intros timeout e time e' Ht Hs. unfold sys_arch_mbox_fetch.
  destruct (sys_arch_sem_wait 0 e) as [[t1 e1]|] eqn:Em; [|done]. cbn [mbind option_bind]. intros E.
  destruct (sys_arch_sem_wait_honest 0 e t1 e1 ltac:(unfold is_u16; lia) Hs Em) as (Hs1 & Hl1 & Hc1 & _).
  destruct (fetch_loop_honest _ _ _ _ _ _ Ht Hs1 E) as (Hs2 & Hl2 & Hc2 & Hb2). split_and!; [done|lia|lia|].
  intros Hpos. destruct (Hb2 Hpos ltac:(lia) (clock e1) ltac:(lia) ltac:(lia)) as (? & ? & Hex).
  split_and!; [lia|lia|]. intros E0. specialize (Hex E0). lia.
Qed.

(** Every turn of the loop uses up an observation, so the fuel is enough. *)
Lemma fetch_loop_fuel fuel1 fuel2 timeout time e :
  is_u16 timeout → Forall wf_obs (script e) → (length (script e) < fuel1)%nat → (length (script e) < fuel2)%nat →
  fetch_loop fuel1 timeout time e = fetch_loop fuel2 timeout time e.
Proof.
  intros Ht. revert fuel2 time e. induction fuel1 as [|fuel1 IH]; intros [|fuel2] time e Hs H1 H2; try lia.
  cbn [fetch_loop]. destruct (observe e) as [[o e1]|] eqn:Eo; [|done]. cbn [mbind option_bind].
  destruct (observe_run _ _ _ Eo Hs) as (Hs1 & Hl1 & _). destruct (no_mail o); [|done].
  destruct (sys_arch_sem_wait timeout e1) as [[t e2]|] eqn:Ew; [|done]. cbn [mbind option_bind].
  destruct (sys_arch_sem_wait_honest _ _ _ _ Ht Hs1 Ew) as (Hs2 & Hl2 & _).
  destruct (negb _ && _); [done|]. destruct (sys_arch_sem_wait 0 e2) as [[t3 e3]|] eqn:Em; [|done].
  destruct (sys_arch_sem_wait_honest 0 e2 t3 e3 ltac:(unfold is_u16; lia) Hs2 Em) as (Hs3 & Hl3 & _).
  cbn [mbind option_bind]. apply IH; [done|lia|lia].
Qed.

(** * The invariant of a thread *)

Record sound (t : thread) : Prop := {
  so_wf : wf_timeouts (timeouts t);
  so_obs : Forall wf_obs (script (t_env t));
  so_agenda : replay (trace t) = Some (due (passed t) (timeouts t));
  so_paced : paced t
}.

Lemma replay_snoc evs ev : replay (evs ++ [ev]) = a ← replay evs; replay_event a ev.
Proof. unfold replay. by rewrite foldl_snoc. Qed.

Lemma due_head base1 base2 t1 t2 l :
  base1 + to_time t1 = base2 + to_time t2 → to_h t1 = to_h t2 → to_arg t1 = to_arg t2 →
  due base1 (t1 :: l) = due base2 (t2 :: l).
Proof. intros E Hh Ha. cbn [due]. by rewrite E, Hh, Ha. Qed.

Lemma paced_step stamps s s' :
  StronglySorted pace (stamps ++ [s]) → pace s s' → StronglySorted pace (stamps ++ [s']).
Proof.
  intros Hs Hp. induction stamps as [|x stamps IH]; [by repeat constructor|]. cbn in *.
  inversion_clear Hs as [|? ? Hs' Hx]. constructor; [by apply IH|].
  apply Forall_app in Hx as [Hx Hxs]. apply Forall_app. split; [done|].
  apply Forall_inv in Hxs. constructor; [|done]. unfold pace in *. lia.
Qed.

Lemma paced_event stamps s :
  StronglySorted pace (stamps ++ [s]) → StronglySorted pace ((stamps ++ [s]) ++ [s]).
Proof.
  induction stamps as [|x stamps IH]; cbn; [repeat constructor; unfold pace; lia|].
  intros Hs. inversion_clear Hs as [|? ? Hs' Hx]. constructor; [by apply IH|].
  apply Forall_app_2; [done|]. by apply Forall_app in Hx as [_ Hx].
Qed.

Lemma request_sound mem msecs h arg t : is_u16 msecs → sound t → sound (request mem msecs h arg t).
Proof.
  intros Hm [Hwf Ho Ha Hp]. unfold request. destruct mem; [|by split].
  destruct (sys_timeout_due (passed t) msecs h arg (timeouts t) Hwf Hm) as [Hd Hwf'].
  split; cbn [timeouts t_env trace passed]; [done|done| |].
  - rewrite replay_snoc, Ha. cbn [mbind option_bind replay_event now st_passed]. by rewrite Hd.
  - unfold paced. cbn [trace]. rewrite fmap_app. by apply paced_event.
Qed.

Lemma work_for_sound us t : 0 <= us → sound t → sound (work_for us t).
Proof.
  intros Hu [Hwf Ho Ha Hp]. split; cbn; try done. eapply paced_step; [exact Hp|]. unfold pace. cbn. lia.
Qed.

(** ** One turn of a wait *)

Lemma wait_turn_sound arch_wait t :
  honest arch_wait → sound t →
  match wait_turn arch_wait t with
  | StillWaits => True
  | Goes t' => sound t' ∧ (length (script (t_env t')) < length (script (t_env t)))%nat
  | Calls h arg t' => sound t' ∧
      ((length (script (t_env t')) < length (script (t_env t)))%nat ∨
       t_env t' = t_env t ∧ ∃ next, to_time next = 0 ∧ timeouts t = next :: timeouts t')
  end.
Proof.
  intros Hh [Hwf Ho Ha Hp]. unfold wait_turn. destruct (timeouts t) as [|next rest] eqn:El.
  { destruct (arch_wait 0 (t_env t)) as [[time e]|] eqn:E; [|done].
    destruct (Hh 0 _ _ _ ltac:(unfold is_u16; lia) Ho E) as (Ho' & Hl & Hc & _). split; [|done].
    split; cbn; try done. eapply paced_step; [exact Hp|]. unfold pace. cbn. lia. }
  apply Forall_cons_1 in Hwf as [Hnext Hrest]. cbn [due] in Ha.
  set (w := if 0 <? to_time next then _ else _).
  assert (∀ time e, w = Some (time, e) → Forall wf_obs (script e) ∧ clock (t_env t) <= clock e ∧ 0 <= time ∧
    time * 1000 <= clock e - clock (t_env t) + 1000 ∧
    (time = 0 → to_time next * 1000 <= clock e - clock (t_env t)) ∧
    ((length (script e) < length (script (t_env t)))%nat ∨ e = t_env t ∧ to_time next = 0 ∧ time = 0)) as Hw.
  { intros time e E. subst w. destruct (Z.ltb_spec 0 (to_time next)) as [Hpos|Hz].
    - destruct (Hh _ _ _ _ Hnext Ho E) as (? & ? & ? & Hb). destruct (Hb Hpos) as (? & ? & ?). split_and!; try done. by left.
    - injection E as <- <-. unfold is_u16 in Hnext. split_and!; try done; try lia. right. split_and!; [done|lia|done]. }
  destruct w as [[time e]|]; [|done]. destruct (Hw time e eq_refl) as (Ho' & Hc & Ht & Hb & Hex & Hdec). clear Hw.
  assert (sound_goes : ∀ n n', is_u16 n' → n + n' = to_time next → 1 <= time → n <= time →
    sound (Thread e (set_time n' next :: rest) (waits t + 1) (passed t + n) (trace t)) ∧
    (length (script e) < length (script (t_env t)))%nat).
  { intros n n' Hn' Hsum H1 Hn. split; [|destruct Hdec as [?|(_ & _ & ->)]; [done|lia]].
    split; cbn [timeouts t_env trace passed]; [by constructor|done| |].
    - rewrite Ha. f_equal. symmetry. apply (due_head _ _ (set_time n' next) next); cbn; [lia|done..].
    - eapply paced_step; [exact Hp|]. unfold pace. cbn. lia. }
  destruct (Z.eqb_spec time 0) as [->|H0].
  - split; [|destruct Hdec as [?|(-> & Hz & _)]; [by left|right; split; [done|by exists next]]].
    specialize (Hex eq_refl). split; cbn [timeouts t_env trace passed]; [done|done| |].
    + rewrite replay_snoc, Ha. cbn. by rewrite bool_decide_eq_true_2.
    + unfold paced. cbn [trace]. rewrite fmap_app. apply paced_event.
      eapply paced_step; [exact Hp|]. unfold pace. cbn. lia.
  - unfold is_u16 in Hnext. destruct (Z.leb_spec time (to_time next)).
    + rewrite u16_small by (unfold is_u16; lia). apply sound_goes; unfold is_u16; lia.
    + apply sound_goes; unfold is_u16; lia.
Qed.

(** * Whole runs *)

Section runs.
Context (handlers : list event → Z → Z → list action).
Context (handlers_wf : ∀ evs h arg, Forall wf_action (handlers evs h arg)).

Lemma run_sound fuel acts t :
  Forall wf_action acts → sound t → sound (run handlers fuel acts t).2.
Proof.
  revert acts t. induction fuel as [|fuel IH]; intros acts t Hacts Ht; [done|]. cbn [run].
  destruct acts as [|a acts]; [done|]. pose proof Hacts as [Ha Hacts']%Forall_cons_1.
  assert (∀ arch_wait, honest arch_wait →
    sound (match wait_turn arch_wait t with
           | StillWaits => (Waits, t)
           | Goes t' => run handlers fuel acts t'
           | Calls h arg t' => run handlers fuel (handlers (trace t) h arg ++ a :: acts) t'
           end).2) as Hwait.
  { intros arch_wait Hh. pose proof (wait_turn_sound arch_wait t Hh Ht) as Hw. destruct (wait_turn arch_wait t).
    - done.
    - apply IH; [done|apply Hw].
    - apply IH; [by apply Forall_app|apply Hw]. }
  destruct a as [mem msecs h arg|us| |].
  - apply IH; [done|by apply request_sound].
  - apply IH; [done|by apply work_for_sound].
  - apply Hwait, sys_arch_mbox_fetch_honest.
  - apply Hwait, sys_arch_sem_wait_honest.
Qed.

(** ** Ending *)

(** Entries that are due at once, and requests for such. *)
Definition due_now (l : list timeout) : nat := length (filter (λ x, x.1 <= 0) (due 0 l)).
Definition at_once (a : action) : bool := match a with Request true msecs _ _ => msecs =? 0 | _ => false end.
Definition to_come (acts : list action) (t : thread) : nat :=
  (due_now (timeouts t) + length (filter at_once acts))%nat.

Context (handlers_later : ∀ evs h arg, Forall (λ a, at_once a = false) (handlers evs h arg)).

Lemma due_now_request msecs h arg l :
  wf_timeouts l → is_u16 msecs →
  due_now (sys_timeout true msecs h arg l) = ((if (msecs =? 0)%Z then 1 else 0) + due_now l)%nat.
Proof.
  intros Hl Hm. unfold due_now. destruct (sys_timeout_due 0 msecs h arg l Hl Hm) as [-> _].
  rewrite (filter_Permutation _ _ _ (enter_perm _ _)). unfold is_u16 in Hm.
  destruct (Z.eqb_spec msecs 0); [rewrite filter_cons_True by (cbn; lia)|rewrite filter_cons_False by (cbn; lia)]; done.
Qed.

Lemma due_now_first next l : to_time next = 0 → due_now (next :: l) = S (due_now l).
Proof. intros Hz. unfold due_now. cbn [due]. rewrite Hz. by rewrite filter_cons_True by (cbn; lia). Qed.

Lemma later_pushed l acts :
  Forall (λ a, at_once a = false) l → length (filter at_once (l ++ acts)) = length (filter at_once acts).
Proof.
  intros Hl. rewrite list.filter_app. assert (filter at_once l = []) as ->; [|done].
  induction Hl as [|a l Ha Hl IH]; [done|]. rewrite filter_cons_False; [done|]. rewrite Ha. intros [].
Qed.

Lemma run_ends_from acts t :
  Forall wf_action acts → sound t → ∃ fuel, (run handlers fuel acts t).1 ≠ OutOfFuel.
Proof.
  remember (length (script (t_env t))) as n eqn:En. revert acts t En.
  induction n as [n IHn] using lt_wf_ind. intros acts t.
  remember (to_come acts t) as m eqn:Em. revert acts t Em.
  induction m as [m IHm] using lt_wf_ind. intros acts. induction acts as [|a acts IHa]; intros t Em En Hacts Ht.
  { by exists 1%nat. }
  pose proof Hacts as [Ha Hacts']%Forall_cons_1.
  assert (∀ t', sound t' → t_env t' = t_env t → (to_come acts t' <= m)%nat → ∃ fuel, (run handlers fuel acts t').1 ≠ OutOfFuel)
    as Hnext.
  { intros t' Ht' He Hle. destruct (decide (to_come acts t' = m)) as [E|E].
    - apply IHa; [done|by rewrite He|done|done].
    - eapply (IHm (to_come acts t')); [lia|reflexivity|by rewrite He|done|done]. }
  assert (∀ arch_wait, honest arch_wait → at_once a = false → ∃ fuel,
    (match wait_turn arch_wait t with
     | StillWaits => (Waits, t)
     | Goes t' => run handlers fuel acts t'
     | Calls h arg t' => run handlers fuel (handlers (trace t) h arg ++ a :: acts) t'
     end).1 ≠ OutOfFuel) as Hwait.
  { intros arch_wait Hh Hat. pose proof (wait_turn_sound arch_wait t Hh Ht) as Hw. destruct (wait_turn arch_wait t) as [|t'|h arg t'].
    - by exists 0%nat.
    - destruct Hw as [Ht' Hl]. eapply IHn; [rewrite En; exact Hl|reflexivity|done|done].
    - destruct Hw as [Ht' [Hl|(He & next & Hz & Hto)]].
      + eapply IHn; [rewrite En; exact Hl|reflexivity|by apply Forall_app|done].
      + eapply IHm; [|reflexivity|by rewrite He|by apply Forall_app|done].
        rewrite Em. unfold to_come. rewrite later_pushed by apply handlers_later. rewrite Hto, due_now_first by done. lia. }
  destruct a as [mem msecs h arg|us| |].
  - destruct (Hnext (request mem msecs h arg t)) as [fuel Hf]; [by apply request_sound|done| |by exists (S fuel)].
    rewrite Em. unfold to_come, request. cbn [timeouts]. destruct mem; [|cbn [sys_timeout negb]; by rewrite filter_cons_False by (intros [])].
    rewrite due_now_request by (done || apply Ht). rewrite filter_cons. cbn [at_once].
    destruct (msecs =? 0)%Z; [rewrite decide_True by done|rewrite decide_False by (intros [])]; cbn [length]; lia.
  - destruct IHa with (t := work_for us t) as [fuel Hf]; [|done|done|by apply work_for_sound|by exists (S fuel)].
    rewrite Em. unfold to_come. by rewrite filter_cons_False by (intros []).
  - destruct (Hwait sys_arch_mbox_fetch) as [fuel Hf]; [apply sys_arch_mbox_fetch_honest|done|by exists (S fuel)].
  - destruct (Hwait sys_arch_sem_wait) as [fuel Hf]; [apply sys_arch_sem_wait_honest|done|by exists (S fuel)].
Qed.
End runs.

(** A thread without timeouts. *)
Definition new_thread (clock : Z) (script : list obs) : thread := Thread (Env clock script) [] 0 0 [].

Lemma new_thread_sound clock script : Forall wf_obs script → sound (new_thread clock script).
Proof. intros Hs. split; cbn; [constructor|done|done|repeat constructor]. Qed.

Lemma due_sorted base l :
  wf_timeouts l → Forall (λ x, base <= x.1) (due base l) ∧ StronglySorted (λ a b, a.1 <= b.1) (due base l).
Proof.
  intros Hl. revert base. induction Hl as [|t l Ht Hl IH]; intros base; [by repeat constructor|]. cbn [due].
  destruct (IH (base + to_time t)) as [H1 H2]. unfold is_u16 in Ht. split.
  - constructor; [cbn; lia|]. eapply Forall_impl; [|exact H1]. cbn. lia.
  - by constructor.
Qed.

(** C36: The timeouts of a thread.  Whatever the thread and its handlers do in
    turn (request timeouts, also from a handler, work, wait for messages and
    semaphores, also in a handler) and whatever happens while it waits, at every
    moment the list is the agenda of the requests that are left: calls take its
    entries one by one, in the order of their times, those of the same time in
    the order of the requests, and each when the time that the waits have
    accounted for is the time of the request plus the time asked for.  No entry
    is overdue by this time.  Between any two requests or calls this time runs
    ahead of the clock by at most a millisecond for each wait that ended with
    its message, so no handler is called earlier than that.  When no handler
    asks to be called at once, the thread comes to its end or to a wait that
    lasts. *)
Theorem timeouts_called_when_due handlers acts clock script :
  (∀ evs h arg, Forall wf_action (handlers evs h arg)) → Forall wf_action acts → Forall wf_obs script →
  (∀ fuel, let t := (run handlers fuel acts (new_thread clock script)).2 in
     replay (trace t) = Some (due (passed t) (timeouts t)) ∧
     Forall (λ x, passed t <= x.1) (due (passed t) (timeouts t)) ∧
     StronglySorted (λ a b, a.1 <= b.1) (due (passed t) (timeouts t)) ∧ paced t) ∧
  ((∀ evs h arg, Forall (λ a, at_once a = false) (handlers evs h arg)) →
   ∃ fuel, (run handlers fuel acts (new_thread clock script)).1 ≠ OutOfFuel).
Proof.
  intros Hh Ha Hs. pose proof (new_thread_sound clock script Hs) as H0. split.
  - intros fuel t. destruct (run_sound handlers Hh fuel acts _ Ha H0) as [Hwf _ Hag Hp]. fold t in Hwf, Hag, Hp.
    destruct (due_sorted (passed t) _ Hwf) as [H1 H2]. done.
  - intros Hl. by apply run_ends_from.
Qed.

(** ** A timer that starts again *)

(** As [tcp_timer]: every 250 ms, in the thread of the stack. *)
Definition timer (evs : list event) (h arg : Z) : list action := [Request true 250 1 0].

(** A free mutex; an empty mailbox and no mail until the time is up; a message
    that is there at once. *)
Definition free_sem : obs := Obs 0 1 false false 0.
Definition empty_box : obs := Obs 0 0 true false 0.
Definition no_signal : obs := Obs 0 0 false true 40.
Definition mail_there : obs := Obs 0 0 false false 0.

Lemma timeouts_called_when_due_witness :
  let r := run timer 20 [Request true 250 1 0; Request true 100 2 0; Fetch]
    (new_thread 0 [free_sem; empty_box; no_signal; free_sem; empty_box; no_signal; free_sem; mail_there]) in
  r.1 = Finished ∧ trace r.2 = [Requested (Stamp 0 0 0) 250 1 0; Requested (Stamp 0 0 0) 100 2 0;
     Called (Stamp 100040 0 100) 2 0; Requested (Stamp 100040 0 100) 250 1 0;
     Called (Stamp 250080 0 250) 1 0; Requested (Stamp 250080 0 250) 250 1 0] ∧ paced r.2.
Proof.
  pose proof (timeouts_called_when_due timer [Request true 250 1 0; Request true 100 2 0; Fetch] 0
    [free_sem; empty_box; no_signal; free_sem; empty_box; no_signal; free_sem; mail_there]) as H.
  destruct H as [H _].
  - intros. repeat constructor; cbn; unfold is_u16; lia.
  - repeat constructor; cbn; unfold is_u16; lia.
  - repeat constructor; cbn; lia.
  - split; [vm_compute; reflexivity|]. split; [vm_compute; reflexivity|]. exact (proj2 (proj2 (proj2 (H 20%nat)))).
Defined.

(** Every message that is there at once takes a millisecond off the first
    timeout: 250 of them call the timer though no time has passed. *)
Example timers_run_fast :
  let r := run timer 400 (Request true 250 1 0 :: replicate 251 Fetch)
    (new_thread 0 (concat (replicate 251 [free_sem; mail_there]))) in
  r.1 = Finished ∧ trace r.2 = [Requested (Stamp 0 0 0) 250 1 0; Called (Stamp 0 250 250) 1 0;
                                Requested (Stamp 0 250 250) 250 1 0].
Proof. vm_compute. done. Qed.

(** [cond_wait] hands [pthread_cond_timedwait] the present time plus the
    timeout, in seconds and fewer than 10^9 nanoseconds; the time it reports is
    at least 1 and, for waits of up to 65 seconds, within a millisecond of the
    time that passed. *)
Theorem cond_wait_times sec usec timeout sec2 usec2 :
  0 <= usec < 1000000 → 0 <= usec2 < 1000000 → is_u16 timeout →
  let '(s, ns) := cond_deadline sec usec timeout in
  let passed := (sec2 - sec) * 1000000 + (usec2 - usec) in
  0 <= ns < 1000000000 ∧
  s * 1000000000 + ns = (sec * 1000000 + usec + timeout * 1000) * 1000 ∧
  (0 <= passed <= 65000000 →
   let waited := cond_waited sec usec sec2 usec2 in
   1 <= waited ∧ waited * 1000 - 1000 <= passed < waited * 1000 + 1000).
Proof.
  intros Hu Hu2 Ht. unfold cond_deadline, is_u16 in *.
  rewrite !s32_small by (Z.to_euclidean_division_equations; lia).
  split_and!; [Z.to_euclidean_division_equations; lia..|].
  intros Hp. unfold cond_waited. set (d := (sec2 - sec) * 1000 + Z.quot (usec2 - usec) 1000).
  assert (0 <= d <= 65000 ∧ d * 1000 - 1000 < (sec2 - sec) * 1000000 + (usec2 - usec) < d * 1000 + 1000) as [Hd1 Hd2]
    by (subst d; Z.to_euclidean_division_equations; lia).
  rewrite u32_small by (unfold is_u32; lia). destruct (Z.eqb_spec d 0); [lia|].
  rewrite u16_small by (unfold is_u16; lia). lia.
Qed.

Lemma cond_wait_times_witness :
  let '(s, ns) := cond_deadline 10 999000 250 in s = 11 ∧ 0 <= ns < 1000000000.
Proof.
  pose proof (cond_wait_times 10 999000 250 11 249500 ltac:(lia) ltac:(lia) ltac:(unfold is_u16; lia)) as H.
  cbv beta iota zeta delta [cond_deadline] in *. destruct H as [H _]. split; [reflexivity|exact H].
Defined.
