(* ===== verification/Mailbox.v ===== *)
(** Mailboxes and semaphores of the TCP stack's system layer
    (lwtcp/sys_arch.c): a ring of 100 slots behind two semaphores.

    Any number of threads post to the mailbox and one thread fetches from it, as
    the stack uses them.  Every wait for a semaphore, every signal and every
    section between them is a step of a transition system, so that all the
    interleavings of the threads are its runs. *)

From stdpp Require Import base tactics list numbers.
From Stdlib Require Import ZArith Lia.
From S2P Require Import Prelude.

Local Open Scope Z_scope.

Definition SYS_MBOX_SIZE : Z := 100.

(** A semaphore is its counter. *)
Record sys_mbox := Mbox {
  mb_first : Z;
  mb_last : Z;
  mb_msgs : list Z;
  mb_mail : Z;
  mb_mutex : Z
}.

Definition set_mail (c : Z) (b : sys_mbox) : sys_mbox :=
  Mbox (mb_first b) (mb_last b) (mb_msgs b) c (mb_mutex b).
Definition set_mutex (c : Z) (b : sys_mbox) : sys_mbox :=
  Mbox (mb_first b) (mb_last b) (mb_msgs b) (mb_mail b) c.

(** The new counter after [sys_sem_signal]. *)
Definition sem_signal (c : Z) : Z := let c := u32 (c + 1) in if 1 <? c then 1 else c.

(** [junk] is what the new memory holds. *)
Definition sys_mbox_new (junk : list Z) : sys_mbox := Mbox 0 0 junk 0 1.

Definition next_slot (i : Z) : Z := let i := u16 (i + 1) in if i =? SYS_MBOX_SIZE then 0 else i.

(** [sys_mbox_post] between the semaphores: store the message; the flag [first]
    tells whether the mailbox was empty. *)
Definition post_body (msg : Z) (b : sys_mbox) : bool * sys_mbox :=
  let msgs := <[Z.to_nat (mb_last b) := msg]> (mb_msgs b) in
  let first := mb_last b =? mb_first b in
  (first, Mbox (mb_first b) (next_slot (mb_last b)) msgs (mb_mail b) (mb_mutex b)).

(** [sys_arch_mbox_fetch] behind its loop; [None] when the slot is not one. *)
Definition fetch_body (b : sys_mbox) : option (Z * sys_mbox) :=
  msg ← mb_msgs b !! Z.to_nat (mb_first b);
  Some (msg, Mbox (next_slot (mb_first b)) (mb_last b) (mb_msgs b) (mb_mail b) (mb_mutex b)).

(** * The threads *)

(** Where a thread is in [sys_mbox_post]. *)
Inductive post_pc :=
  | PIdle
  | PWait (msg : Z)        (* at [sys_sem_wait(mbox->mutex)] *)
  | PStore (msg : Z)       (* has the mutex *)
  | PMail (first : bool)   (* at [if(first) sys_sem_signal(mbox->mail)] *)
  | PDone.                 (* at [sys_sem_signal(mbox->mutex)] *)

(** Where the thread that fetches is in [sys_arch_mbox_fetch]; [timed] says
    whether it was called with a timeout. *)
Inductive fetch_pc :=
  | FIdle
  | FWait (timed : bool)   (* at [sys_arch_sem_wait(mbox->mutex, 0)] *)
  | FTest (timed : bool)   (* at the test of the loop *)
  | FEmpty (timed : bool)  (* in the loop, at [sys_sem_signal(mbox->mutex)] *)
  | FMail (timed : bool)   (* waits for [mbox->mail] *)
  | FTake                  (* behind the loop *)
  | FDone (msg : Z).       (* at [sys_sem_signal(mbox->mutex)] before the return *)

(** [posted] and [got] are the messages stored and taken so far. *)
Record mbox_sys := Sys {
  s_box : sys_mbox;
  s_cons : fetch_pc;
  s_prods : list post_pc;
  s_posted : list Z;
  s_got : list Z
}.

(** A thread calls [sys_mbox_post] or [sys_arch_mbox_fetch], or a wait times out. *)
Inductive mbox_call : mbox_sys → mbox_sys → Prop :=
  | call_post b c ps p g i msg :
      ps !! i = Some PIdle → mbox_call (Sys b c ps p g) (Sys b c (<[i := PWait msg]> ps) p g)
  | call_fetch b ps p g timed : mbox_call (Sys b FIdle ps p g) (Sys b (FWait timed) ps p g)
  | call_timeout b ps p g : mbox_call (Sys b (FMail true) ps p g) (Sys b FIdle ps p g).

(** A thread inside of one of the functions goes on. *)
Inductive mbox_work : mbox_sys → mbox_sys → Prop :=
  | post_lock b c ps p g i msg :
      ps !! i = Some (PWait msg) → 0 < mb_mutex b →
      mbox_work (Sys b c ps p g) (Sys (set_mutex (mb_mutex b - 1) b) c (<[i := PStore msg]> ps) p g)
  | post_store b c ps p g i msg first b' :
      ps !! i = Some (PStore msg) → post_body msg b = (first, b') →
      mbox_work (Sys b c ps p g) (Sys b' c (<[i := PMail first]> ps) (p ++ [msg]) g)
  | post_mail b c ps p g i (first : bool) :
      ps !! i = Some (PMail first) →
      mbox_work (Sys b c ps p g)
        (Sys (if first then set_mail (sem_signal (mb_mail b)) b else b) c (<[i := PDone]> ps) p g)
  | post_unlock b c ps p g i :
      ps !! i = Some PDone →
      mbox_work (Sys b c ps p g) (Sys (set_mutex (sem_signal (mb_mutex b)) b) c (<[i := PIdle]> ps) p g)
  | fetch_lock b ps p g timed :
      0 < mb_mutex b →
      mbox_work (Sys b (FWait timed) ps p g) (Sys (set_mutex (mb_mutex b - 1) b) (FTest timed) ps p g)
  | fetch_empty b ps p g timed :
      mb_first b = mb_last b → mbox_work (Sys b (FTest timed) ps p g) (Sys b (FEmpty timed) ps p g)
  | fetch_full b ps p g timed :
      mb_first b ≠ mb_last b → mbox_work (Sys b (FTest timed) ps p g) (Sys b FTake ps p g)
  | fetch_unlock b ps p g timed :
      mbox_work (Sys b (FEmpty timed) ps p g) (Sys (set_mutex (sem_signal (mb_mutex b)) b) (FMail timed) ps p g)
  | fetch_mail b ps p g timed :
      0 < mb_mail b →
      mbox_work (Sys b (FMail timed) ps p g) (Sys (set_mail (mb_mail b - 1) b) (FWait timed) ps p g)
  | fetch_take b ps p g msg b' :
      fetch_body b = Some (msg, b') → mbox_work (Sys b FTake ps p g) (Sys b' (FDone msg) ps p (g ++ [msg]))
  | fetch_return b ps p g msg :
      mbox_work (Sys b (FDone msg) ps p g) (Sys (set_mutex (sem_signal (mb_mutex b)) b) FIdle ps p g).

(** The runs from a new mailbox in which never more than [SYS_MBOX_SIZE - 1]
    messages are waiting. *)
Inductive mbox_run : mbox_sys → Prop :=
  | run_new junk n : length junk = 100%nat → mbox_run (Sys (sys_mbox_new junk) FIdle (replicate n PIdle) [] [])
  | run_step s s' :
      mbox_run s → mbox_call s s' ∨ mbox_work s s' → (length (s_posted s') <= length (s_got s') + 99)%nat →
      mbox_run s'.

(** * The ring *)

(** The slots from [first] up to [last] hold [rest]. *)
Record ring (b : sys_mbox) (rest : list Z) : Prop := {
  rg_first : 0 <= mb_first b < 100;
  rg_msgs : length (mb_msgs b) = 100%nat;
  rg_room : (length rest <= 99)%nat;
  rg_last : mb_last b = (mb_first b + Z.of_nat (length rest)) mod 100;
  rg_slots : ∀ k x, rest !! k = Some x → mb_msgs b !! Z.to_nat ((mb_first b + Z.of_nat k) mod 100) = Some x
}.

Lemma next_slot_mod i : 0 <= i < 100 → next_slot i = (i + 1) mod 100.
Proof.
  intros Hi. unfold next_slot, SYS_MBOX_SIZE. rewrite u16_small by (unfold is_u16; lia).
  destruct (Z.eqb_spec (i + 1) 100) as [->|Hne]; [done|]. rewrite Z.mod_small; lia.
Qed.

Lemma ring_empty b rest : ring b rest → mb_first b = mb_last b ↔ rest = [].
Proof.
  intros [H1 _ H3 H4 _]. rewrite H4. split; [|intros ->; cbn; rewrite Z.add_0_r, Z.mod_small; lia].
  intros E. destruct rest as [|x rest]; [done|]. exfalso. cbn in *. Z.to_euclidean_division_equations. lia.
Qed.

Lemma mod_slot_inj i j k : 0 <= j < 100 → 0 <= k < 100 → (i + j) mod 100 = (i + k) mod 100 → j = k.
Proof. intros. Z.to_euclidean_division_equations. lia. Qed.

Lemma ring_post b rest msg :
  ring b rest → (length rest < 99)%nat →
  (post_body msg b).1 = bool_decide (rest = []) ∧ ring (post_body msg b).2 (rest ++ [msg]).
Proof.
  intros Hr Hroom. pose proof (ring_empty _ _ Hr) as He. destruct Hr as [H1 H2 H3 H4 H5]. split.
  - cbn. destruct (Z.eqb_spec (mb_last b) (mb_first b)) as [E|E]; symmetry.
    + apply bool_decide_eq_true, He. done.
    + apply bool_decide_eq_false. intros ?%He. done.
  - assert (0 <= mb_last b < 100) as Hl by (rewrite H4; apply Z.mod_pos_bound; lia).
    split; cbn; rewrite ?length_app, ?length_insert; [done|done|cbn; lia| |].
    + rewrite next_slot_mod by done. rewrite H4, Zplus_mod_idemp_l. f_equal. cbn. lia.
    + intros k x [Hk|[Hk ->]]%lookup_snoc_Some.
      * destruct Hk as [Hlt Hk]. rewrite list_lookup_insert_ne; [by apply H5|]. intros E.
        apply Z2Nat.inj in E; [|lia|apply Z.mod_pos_bound; lia]. rewrite H4 in E.
        apply mod_slot_inj in E; lia.
      * destruct Hk. rewrite <-H4. apply list_lookup_insert_eq. lia.
Qed.

Lemma ring_take b x rest :
  ring b (x :: rest) → ∃ b', fetch_body b = Some (x, b') ∧ ring b' rest ∧ mb_mail b' = mb_mail b ∧ mb_mutex b' = mb_mutex b.
Proof.
  intros [H1 H2 H3 H4 H5]. unfold fetch_body.
  pose proof (H5 0%nat x eq_refl) as H0. rewrite Z.add_0_r, Z.mod_small in H0 by lia. rewrite H0.
  eexists. split; [done|]. split; [|done]. split; cbn.
  - rewrite next_slot_mod by lia. apply Z.mod_pos_bound. lia.
  - done.
  - cbn in H3. lia.
  - rewrite next_slot_mod, Zplus_mod_idemp_l, H4 by lia. f_equal. cbn. lia.
  - intros k y Hk. rewrite next_slot_mod, Zplus_mod_idemp_l by lia.
    replace (mb_first b + 1 + Z.of_nat k) with (mb_first b + Z.of_nat (S k)) by lia. by apply H5.
Qed.

Lemma ring_sems b rest c c' : ring b rest → ring (set_mail c b) rest ∧ ring (set_mutex c' b) rest.
Proof. intros [H1 H2 H3 H4 H5]. by split. Qed.

(** * Sums over the threads *)

Definition total (w : post_pc → Z) (ps : list post_pc) : Z := foldr (λ p n, w p + n) 0 ps.

Lemma total_insert w ps i x y : ps !! i = Some x → total w (<[i := y]> ps) = total w ps - w x + w y.
Proof.
  revert i. induction ps as [|p ps IH]; intros [|i] E; [done|done| |].
  - injection E as ->. cbn. lia.
  - change (w p + total w (<[i := y]> ps) = w p + total w ps - w x + w y). rewrite (IH i E). lia.
Qed.

Lemma total_nonneg w ps : (∀ p, 0 <= w p) → 0 <= total w ps.
Proof. intros Hw. induction ps as [|p l IH]; cbn; [lia|]. fold (total w l). pose proof (Hw p). lia. Qed.

Lemma total_lookup w ps i x : (∀ p, 0 <= w p) → ps !! i = Some x → w x <= total w ps.
Proof.
  intros Hw E. enough (total w (delete i ps) = total w ps - w x) as H.
  { pose proof (total_nonneg w (delete i ps) Hw). lia. }
  revert i E. clear. induction ps as [|p ps IH]; intros [|i] E; [done|done| |].
  - injection E as ->. change (total w ps = w x + total w ps - w x). lia.
  - change (w p + total w (delete i ps) = w p + total w ps - w x). rewrite (IH i E). lia.
Qed.

#[local] Arguments total : simpl never.

(** Whether a thread has the mutex. *)
Definition p_has (p : post_pc) : Z := match p with PStore _ | PMail _ | PDone => 1 | _ => 0 end.
Definition c_has (c : fetch_pc) : Z := match c with FTest _ | FEmpty _ | FTake | FDone _ => 1 | _ => 0 end.

Lemma p_has_nonneg p : 0 <= p_has p.
Proof. by destruct p. Qed.

Record mbox_inv (s : mbox_sys) : Prop := {
  mi_ring : ∃ rest, s_posted s = s_got s ++ rest ∧ ring (s_box s) rest ∧
    match s_cons s with
    | FEmpty _ => rest = []
    | FTake => rest ≠ []
    | FMail _ => rest = [] ∨ mb_mail (s_box s) = 1 ∨ ∃ i, s_prods s !! i = Some (PMail true)
    | FDone msg => ∃ g, s_got s = g ++ [msg]
    | _ => True
    end;
  mi_mutex : c_has (s_cons s) + total p_has (s_prods s) + mb_mutex (s_box s) = 1;
  mi_mail : 0 <= mb_mail (s_box s) <= 1;
  mi_free : 0 <= mb_mutex (s_box s)
}.

Lemma sem_signal_one c : 0 <= c <= 1 → sem_signal c = 1.
Proof.
  intros Hc. unfold sem_signal. rewrite u32_small by (unfold is_u32; lia).
  destruct (Z.ltb_spec 1 (c + 1)); lia.
Qed.

Definition pending (ps : list post_pc) : Prop := ∃ i : nat, ps !! i = Some (PMail true).

Lemma pending_insert ps i x y : ps !! i = Some x → x ≠ PMail true → pending ps → pending (<[i := y]> ps).
Proof. intros Hi Hx [j Hj]. exists j. rewrite list_lookup_insert_ne; [done|]. intros ->. congruence. Qed.

Lemma inv_new junk n : length junk = 100%nat → mbox_inv (Sys (sys_mbox_new junk) FIdle (replicate n PIdle) [] []).
Proof.
  intros Hj. assert (total p_has (replicate n PIdle) = 0) as Ht.
  { induction n as [|n IH]; [done|exact IH]. }
  split; cbn; [|rewrite Ht; lia|lia|lia]. exists []. split_and!; [done| |done]. split; cbn; done || lia.
Qed.

Lemma inv_call s s' : mbox_inv s → mbox_call s s' → mbox_inv s'.
Proof.
  intros [(rest & E & Hr & Hw) Hm Hml Hf] Hc. destruct Hc as [b c ps p g i msg Hi| |]; cbn in *.
  - split; cbn; [|erewrite total_insert by done; cbn; lia|lia|lia]. exists rest. split_and!; [done|done|].
    destruct c; try done. destruct Hw as [?|[?|?]]; [by left|by right; left|right; right].
    by eapply pending_insert.
  - split; cbn; [by exists rest|lia|lia|lia].
  - split; cbn; [by exists rest|lia|lia|lia].
Qed.

(** A thread with the mutex is the only one, and the mutex is taken. *)
Lemma inv_alone b c ps p g i x :
  mbox_inv (Sys b c ps p g) → ps !! i = Some x → p_has x = 1 → mb_mutex b = 0 ∧ c_has c = 0.
Proof.
  intros [_ Hm _ Hf] Hi Hx. cbn in *. pose proof (total_lookup _ _ _ _ p_has_nonneg Hi).
  assert (0 <= c_has c) by (by destruct c). lia.
Qed.

Lemma inv_post_store b c ps p g i msg :
  mbox_inv (Sys b c ps p g) → ps !! i = Some (PStore msg) → (length (p ++ [msg]) <= length g + 99)%nat →
  mbox_inv (Sys (post_body msg b).2 c (<[i := PMail (post_body msg b).1]> ps) (p ++ [msg]) g).
Proof.
  intros Hinv Hi Hroom. destruct (inv_alone _ _ _ _ _ _ _ Hinv Hi eq_refl) as [Hm0 Hc0].
  destruct Hinv as [(rest & E & Hr & Hw) Hm Hml Hf]. cbn in E, Hr, Hw, Hm, Hml, Hf. subst p.
  rewrite !length_app in Hroom. cbn in Hroom.
  destruct (ring_post b rest msg Hr) as [Hfirst Hr']; [lia|].
  split; cbn [s_box s_cons s_prods s_posted s_got]; [|erewrite total_insert by done; cbn; cbn in Hm0; lia|done|done].
  exists (rest ++ [msg]). split_and!; [by rewrite app_assoc|done|]. destruct c; try done. right.
  destruct (decide (rest = [])) as [->|Hne].
  - right. exists i. rewrite Hfirst. rewrite list_lookup_insert_eq; [done|]. by eapply lookup_lt_Some.
  - destruct Hw as [?|[?|?]]; [done|by left|right]. by eapply pending_insert.
Qed.

Lemma inv_post b c ps p g i x y b' :
  mbox_inv (Sys b c ps p g) → ps !! i = Some x → x ≠ PMail true →
  mb_first b' = mb_first b → mb_last b' = mb_last b → mb_msgs b' = mb_msgs b → mb_mail b' = mb_mail b →
  0 <= mb_mutex b' → p_has y + mb_mutex b' = p_has x + mb_mutex b →
  mbox_inv (Sys b' c (<[i := y]> ps) p g).
Proof.
  intros [(rest & E & Hr & Hw) Hm Hml Hf] Hi Hx E1 E2 E3 E4 Hm1 Hm2. cbn in *.
  split; cbn; [|erewrite total_insert by done; lia|by rewrite E4|done].
  exists rest. split_and!; [done| |].
  - destruct Hr as [H1 H2 H3 H4 H5]. split; rewrite ?E1, ?E2, ?E3; done.
  - rewrite E4. destruct c; try done. destruct Hw as [?|[?|?]]; [by left|by right; left|right; right].
    by eapply pending_insert.
Qed.

Lemma inv_post_mail b c ps p g i :
  mbox_inv (Sys b c ps p g) → ps !! i = Some (PMail true) →
  mbox_inv (Sys (set_mail (sem_signal (mb_mail b)) b) c (<[i := PDone]> ps) p g).
Proof.
  intros [(rest & E & Hr & Hw) Hm Hml Hf] Hi. cbn in *. rewrite sem_signal_one by lia.
  split; cbn; [|erewrite total_insert by done; cbn; lia|lia|lia]. exists rest.
  split_and!; [done|by apply (ring_sems _ _ _ 0)|]. destruct c; try done. by right; left.
Qed.

Lemma inv_fetch b c c' ps p g b' :
  mbox_inv (Sys b c ps p g) →
  mb_first b' = mb_first b → mb_last b' = mb_last b → mb_msgs b' = mb_msgs b →
  0 <= mb_mail b' <= 1 → 0 <= mb_mutex b' → c_has c' + mb_mutex b' = c_has c + mb_mutex b →
  (∀ rest, p = g ++ rest → ring b rest → match c with FEmpty _ => rest = [] | _ => True end →
    match c' with FEmpty _ => rest = [] | FTake => rest ≠ [] | FMail _ => rest = [] | FDone _ => False | _ => True end) →
  mbox_inv (Sys b' c' ps p g).
Proof.
  intros [(rest & E & Hr & Hw) Hm Hml Hf] E1 E2 E3 Hm1 Hm2 Hm3 Hc. cbn in *.
  split; cbn; [|lia|done|done]. exists rest. split_and!; [done| |].
  - destruct Hr as [H1 H2 H3 H4 H5]. split; rewrite ?E1, ?E2, ?E3; done.
  - specialize (Hc rest E Hr). destruct c'; try done; try (apply Hc; by destruct c).
    + left. apply Hc. by destruct c.
    + exfalso. apply Hc. by destruct c.
Qed.

Lemma inv_fetch_take b ps p g msg b' :
  mbox_inv (Sys b FTake ps p g) → fetch_body b = Some (msg, b') →
  mbox_inv (Sys b' (FDone msg) ps p (g ++ [msg])).
Proof.
  intros [(rest & E & Hr & Hw) Hm Hml Hf] Hb. cbn in *. destruct rest as [|x rest]; [done|].
  destruct (ring_take _ _ _ Hr) as (b2 & Hb2 & Hr2 & E1 & E2). rewrite Hb in Hb2. injection Hb2 as <- <-.
  split; cbn; [|by rewrite E2|by rewrite E1|by rewrite E2]. exists rest. split_and!; [by rewrite <-app_assoc|done|by eexists].
Qed.

Lemma inv_work s s' :
  mbox_inv s → mbox_work s s' → (length (s_posted s') <= length (s_got s') + 99)%nat → mbox_inv s'.
Proof.
  intros Hinv Hw Hroom. pose proof (mi_mail _ Hinv) as Hml. pose proof (mi_mutex _ Hinv) as Hmx.
  pose proof (mi_free _ Hinv) as Hf.
  destruct Hw as [b c ps p g i msg Hi Hm|b c ps p g i msg first b' Hi Hb|b c ps p g i [] Hi|b c ps p g i Hi
    |b ps p g t Hm|b ps p g t E|b ps p g t E|b ps p g t|b ps p g t Hm|b ps p g msg b' Hb|b ps p g msg];
    cbn in Hml, Hmx, Hf.
  - eapply inv_post; try done; cbn; lia.
  - pose proof (inv_post_store _ _ _ _ _ _ _ Hinv Hi Hroom) as H. by rewrite Hb in H.
  - by apply inv_post_mail.
  - by eapply inv_post.
  - destruct (inv_alone _ _ _ _ _ _ _ Hinv Hi eq_refl) as [Hm0 _]. rewrite Hm0.
    eapply inv_post; try done. cbn. by rewrite Hm0.
  - eapply inv_fetch; try done; cbn; lia.
  - eapply inv_fetch; try done. intros rest _ Hr _. by apply (ring_empty _ _ Hr).
  - eapply inv_fetch; try done. intros rest _ Hr _ ->. apply E, (ring_empty _ _ Hr). done.
  - assert (mb_mutex b = 0) as Hm0 by (pose proof (total_nonneg _ ps p_has_nonneg); lia).
    rewrite Hm0. eapply inv_fetch; try done. cbn. by rewrite Hm0.
  - eapply inv_fetch; try done; cbn; lia.
  - by eapply inv_fetch_take.
  - assert (mb_mutex b = 0) as Hm0 by (pose proof (total_nonneg _ ps p_has_nonneg); lia).
    rewrite Hm0. eapply inv_fetch; try done. cbn. by rewrite Hm0.
Qed.

Lemma run_inv s : mbox_run s → mbox_inv s.
Proof.
  induction 1 as [junk n Hj|s s' _ IH [Hc|Hw] Hroom]; [by apply inv_new|by eapply inv_call|by eapply inv_work].
Qed.

(** * Ends of the runs *)

(** What the threads have left to do; a mail is worth one more round of the loop. *)
Definition p_left (p : post_pc) : Z :=
  match p with PIdle => 0 | PDone => 1 | PMail _ => 7 | PStore _ => 8 | PWait _ => 9 end.
Definition c_left (c : fetch_pc) : Z :=
  match c with FIdle | FMail _ => 0 | FDone _ | FEmpty _ => 1 | FTake => 2 | FTest _ => 3 | FWait _ => 4 end.
Definition work_left (s : mbox_sys) : Z :=
  c_left (s_cons s) + total p_left (s_prods s) + 5 * mb_mail (s_box s).

Lemma work_left_nonneg s : 0 <= mb_mail (s_box s) → 0 <= work_left s.
Proof.
  intros H. unfold work_left. pose proof (total_nonneg p_left (s_prods s) ltac:(by intros [])).
  assert (0 <= c_left (s_cons s)) by (by destruct (s_cons s)). lia.
Qed.

Lemma work_decreases s s' :
  0 <= mb_mail (s_box s) → mbox_work s s' → 0 <= mb_mail (s_box s') ∧ work_left s' < work_left s.
Proof.
  intros Hml Hw. destruct Hw as [b c ps p g i msg Hi Hm|b c ps p g i msg first b' Hi Hb|b c ps p g i first Hi|b c ps p g i Hi
    |b ps p g t Hm|b ps p g t E|b ps p g t E|b ps p g t|b ps p g t Hm|b ps p g msg b' Hb|b ps p g msg];
    cbn in Hml; unfold work_left; cbn; try (erewrite total_insert by done); cbn; try lia.
  - injection Hb as <- <-. cbn. lia.
  - destruct first; cbn; [|lia]. unfold sem_signal, u32.
    pose proof (Z.mod_pos_bound (mb_mail b + 1) 4294967296). pose proof (Z.mod_le (mb_mail b + 1) 4294967296).
    destruct (Z.ltb_spec 1 ((mb_mail b + 1) mod 4294967296)); lia.
  - unfold fetch_body in Hb. destruct (mb_msgs b !! _) as [x|]; [|done]. injection Hb as <- <-. cbn. lia.
Qed.

Lemma work_ends s : 0 <= mb_mail (s_box s) → Acc (λ y x, mbox_work x y) s.
Proof.
  remember (Z.to_nat (work_left s)) as n eqn:E. revert s E.
  induction (lt_wf n) as [n _ IH]. intros s -> Hml. constructor. intros s' Hw.
  destruct (work_decreases _ _ Hml Hw) as [Hml' Hlt]. pose proof (work_left_nonneg _ Hml').
  eapply IH; [|done|done]. lia.
Qed.

(** A state in which no thread can go on. *)
Lemma stuck_idle s :
  mbox_inv s → (∀ s', ¬ mbox_work s s') →
  Forall (λ p, p = PIdle) (s_prods s) ∧
  (s_cons s = FIdle ∨ (∃ t, s_cons s = FMail t) ∧ s_posted s = s_got s).
Proof.
  intros Hinv Hstuck. destruct s as [b c ps p g]. cbn.
  assert (∀ i x, ps !! i = Some x → x = PIdle ∨ ∃ msg, x = PWait msg) as Hps.
  { intros i x Hi. destruct x as [|msg|msg|first|]; [by left|by right; eexists|exfalso..]; eapply Hstuck;
      [eapply post_store; [done|reflexivity]|by eapply post_mail|by eapply post_unlock]. }
  assert (total p_has ps = 0) as Ht.
  { clear -Hps. induction ps as [|x ps IH]; [done|]. change (p_has x + total p_has ps = 0).
    rewrite IH by (intros i; apply (Hps (S i))). by destruct (Hps 0%nat x eq_refl) as [->|[m ->]]. }
  destruct Hinv as [(rest & E & Hr & Hw) Hm Hml Hf]. cbn in *.
  assert (c_has c = 0) as Hc.
  { destruct c; try done; exfalso.
    - destruct (decide (mb_first b = mb_last b)); eapply Hstuck; [by apply fetch_empty|by apply fetch_full].
    - eapply Hstuck, fetch_unlock.
    - destruct rest as [|x rest]; [done|]. destruct (ring_take _ _ _ Hr) as (b' & Hb & _).
      eapply Hstuck. by eapply fetch_take.
    - eapply Hstuck, fetch_return. }
  split.
  - apply Forall_lookup. intros i x Hi. destruct (Hps i x Hi) as [->|[msg ->]]; [done|]. exfalso.
    eapply Hstuck. eapply post_lock; [done|lia].
  - destruct c; try done; [by left|exfalso; eapply Hstuck; apply fetch_lock; lia|]. right. split; [by eexists|].
    destruct Hw as [->|[Hone|[i Hi]]]; [by rewrite app_nil_r in E| |].
    + exfalso. eapply Hstuck. apply fetch_mail. lia.
    + destruct (Hps i _ Hi) as [?|[? ?]]; done.
Qed.

(** * Properties *)

(** C21: However the threads interleave, messages are taken in the order in which
    they were posted, each once and none lost, as long as no more than 99 are
    waiting; at most one thread is between the semaphores, and the message that
    a fetch returns is the one it took. *)
Theorem mbox_delivers_in_order s :
  mbox_run s →
  (∃ rest, s_posted s = s_got s ++ rest ∧ (mb_first (s_box s) = mb_last (s_box s) ↔ rest = [])) ∧
  0 <= c_has (s_cons s) + total p_has (s_prods s) <= 1 ∧
  (∀ msg, s_cons s = FDone msg → ∃ g, s_got s = g ++ [msg]).
Proof.
  intros [(rest & E & Hr & Hw) Hm Hml Hf]%run_inv. split_and!.
  - exists rest. split; [done|]. by apply ring_empty.
  - pose proof (total_nonneg _ (s_prods s) p_has_nonneg). assert (0 <= c_has (s_cons s)) by (by destruct (s_cons s)). lia.
  - lia.
  - intros msg Ec. by rewrite Ec in Hw.
Qed.

(** C22: No wake-up is lost: the threads that are inside of [sys_mbox_post] and
    [sys_arch_mbox_fetch] cannot go on without end, and when none can go on, all
    posts have returned, and the fetch has returned or there is no message. *)
Theorem mbox_loses_no_wakeup s :
  mbox_run s →
  Acc (λ y x, mbox_work x y) s ∧
  ((∀ s', ¬ mbox_work s s') →
   Forall (λ p, p = PIdle) (s_prods s) ∧
   (s_cons s = FIdle ∨ (∃ t, s_cons s = FMail t) ∧ s_posted s = s_got s)).
Proof.
  intros Hinv%run_inv. split; [|by apply stuck_idle]. apply work_ends. pose proof (mi_mail _ Hinv). lia.
Qed.

(** [sys_mbox_post] does not test for room: the message that fills the last
    slot makes a mailbox with 100 messages look empty, and all of them are lost. *)
Theorem mbox_full_looks_empty s i msg :
  mbox_run s → s_prods s !! i = Some (PStore msg) → length (s_posted s) = (length (s_got s) + 99)%nat →
  ∃ s', mbox_work s s' ∧ length (s_posted s') = (length (s_got s') + 100)%nat ∧
    mb_first (s_box s') = mb_last (s_box s').
Proof.
  intros [(rest & E & Hr & Hw) _ _ _]%run_inv Hi Hlen. destruct s as [b c ps p g]. cbn in *. subst p.
  rewrite length_app in Hlen. eexists. split; [eapply post_store; [done|reflexivity]|].
  cbn. rewrite !length_app. cbn. split; [lia|]. destruct Hr as [H1 H2 H3 H4 H5].
  rewrite next_slot_mod by (rewrite H4; apply Z.mod_pos_bound; lia). rewrite H4, Zplus_mod_idemp_l.
  replace (Z.of_nat (length rest)) with 99 by lia. Z.to_euclidean_division_equations. lia.
Qed.

(** ** Instances *)

Lemma idle_mutex b p g : mbox_inv (Sys b FIdle [PIdle] p g) → mb_mutex b = 1.
Proof. intros [_ Hm _ _]. cbn in Hm. unfold total in Hm. cbn in Hm. lia. Qed.

(** One thread posts a message, up to the section between the semaphores. *)
Lemma run_enter b p msg :
  mbox_run (Sys b FIdle [PIdle] p []) → (length p <= 99)%nat →
  mbox_run (Sys (set_mutex (mb_mutex b - 1) b) FIdle [PStore msg] p []).
Proof.
  intros H Hp. pose proof (idle_mutex _ _ _ (run_inv _ H)) as Hm.
  assert (mbox_run (Sys b FIdle [PWait msg] p [])) as H1.
  { eapply run_step; [exact H|left; by apply (call_post b FIdle [PIdle] p [] 0 msg)|done]. }
  eapply run_step; [exact H1|right; apply (post_lock b FIdle [PWait msg] p [] 0 msg); [done|lia]|done].
Qed.

(** A thread has posted [n] messages. *)
Lemma sample_posts n : (n <= 99)%nat → ∃ b, mbox_run (Sys b FIdle [PIdle] (replicate n 5) []).
Proof.
  induction n as [|n IH]; intros Hn; [eexists; by apply (run_new (replicate 100 0) 1)|].
  destruct IH as [b Hb]; [lia|]. apply (run_enter _ _ 5) in Hb; [|rewrite length_replicate; lia].
  set (b1 := set_mutex _ b) in Hb. rewrite replicate_S_end. set (p := replicate n 5 ++ [5]).
  assert (length p <= 99)%nat as Hp by (unfold p; rewrite length_app, length_replicate; cbn; lia).
  destruct (post_body 5 b1) as [first b2] eqn:E.
  assert (mbox_run (Sys b2 FIdle [PMail first] p [])) as H3.
  { eapply run_step; [exact Hb|right; by apply (post_store b1 FIdle [PStore 5] (replicate n 5) [] 0 5 first b2)|done]. }
  eassert (mbox_run (Sys _ FIdle [PDone] p [])) as H4.
  { eapply run_step; [exact H3|right; by apply (post_mail b2 FIdle [PMail first] p [] 0 first)|done]. }
  eexists. eapply run_step; [exact H4|right; by apply (post_unlock _ FIdle [PDone] p [] 0)|done].
Qed.

Lemma mbox_delivers_in_order_witness :
  ∃ b rest, mbox_run (Sys b FIdle [PIdle] (replicate 3 5) []) ∧ replicate 3 5 = [] ++ rest.
Proof.
  destruct (sample_posts 3 ltac:(lia)) as [b Hb]. destruct (mbox_delivers_in_order _ Hb) as [(rest & E & _) _].
  exists b, rest. by split.
Defined.

Lemma mbox_loses_no_wakeup_witness :
  ∃ b, mbox_run (Sys b FIdle [PIdle] (replicate 3 5) []) ∧
    Acc (λ y x, mbox_work x y) (Sys b FIdle [PIdle] (replicate 3 5) []).
Proof.
  destruct (sample_posts 3 ltac:(lia)) as [b Hb]. destruct (mbox_loses_no_wakeup _ Hb) as [Ha _].
  exists b. by split.
Defined.

Lemma mbox_full_looks_empty_witness :
  ∃ b s', mbox_run (Sys b FIdle [PStore 7] (replicate 99 5) []) ∧
    mbox_work (Sys b FIdle [PStore 7] (replicate 99 5) []) s' ∧ mb_first (s_box s') = mb_last (s_box s').
Proof.
  destruct (sample_posts 99 ltac:(lia)) as [b Hb].
  pose proof (run_enter _ _ 7 Hb ltac:(rewrite length_replicate; lia)) as H2.
  destruct (mbox_full_looks_empty _ 0 7 H2) as (s' & Hs & _ & Hf); [reflexivity|reflexivity|].
  eexists _, s'. split; [exact H2|]. split; [exact Hs|exact Hf].
Defined.
