(* ===== verification/TcpOptions.v ===== *)
(** The options of a TCP segment ([tcp_parseopt] of lwtcp/tcp_input.c).

    [tcp_parseopt] is called for every segment with the SYN flag that opens a
    connection, before anything else is known about the peer.  It walks over
    the options with an 8-bit index. *)

From stdpp Require Import base tactics list numbers.
From Stdlib Require Import ZArith Lia.
From S2P Require Import Prelude.

Local Open Scope Z_scope.

Definition TCP_MSS : Z := 128.

(** The loop: [opts] is the memory behind the fixed header, [len] the length of
    the options, [c] the index; the result is the new value of [pcb->mss]. *)
Fixpoint parseopt_loop (fuel : nat) (opts : Z → Z) (len c mss : Z) : option Z :=
  match fuel with
  | O => None
  | S fuel' =>
      if c <? len then
        let opt := opts c in
        if opt =? 0 then Some mss
        else if opt =? 1 then parseopt_loop fuel' opts len (u8 (c + 1)) mss
        else if (opt =? 2) && (opts (c + 1) =? 4) then
          let m := u16 (Z.lor (Z.shiftl (opts (c + 2)) 8) (opts (c + 3))) in
          Some (if TCP_MSS <? m then TCP_MSS else m)
        else if opts (c + 1) =? 0 then Some mss
        else parseopt_loop fuel' opts len (u8 (c + opts (c + 1))) mss
      else Some mss
  end.

(** [offset] is the byte of the header with the data offset. *)
Definition tcp_parseopt (fuel : nat) (opts : Z → Z) (offset mss : Z) : option Z :=
  if 0x50 <? Z.land offset 0xf0
  then parseopt_loop fuel opts (Z.shiftl (Z.shiftr offset 4 - 5) 2) 0 mss
  else Some mss.

(** * Options as the peer writes them *)

Inductive tcp_option :=
  | Nop
  | Mss (v : Z)
  | Other (kind : Z) (body : list Z).

Definition encode_option (o : tcp_option) : list Z :=
  match o with
  | Nop => [1]
  | Mss v => [2; 4; v / 256; v mod 256]
  | Other kind body => kind :: Z.of_nat (length body) + 2 :: body
  end.

Definition encode_options (l : list tcp_option) : list Z := l ≫= encode_option.

Definition wf_option (o : tcp_option) : Prop :=
  match o with
  | Nop => True
  | Mss v => is_u16 v
  | Other kind body => kind ≠ 0 ∧ kind ≠ 1 ∧ kind ≠ 2
  end.

(** The value that counts: that of the first MSS option, cut to [TCP_MSS]. *)
Fixpoint option_mss (l : list tcp_option) (mss : Z) : Z :=
  match l with
  | [] => mss
  | Mss v :: _ => Z.min v TCP_MSS
  | _ :: l' => option_mss l' mss
  end.

(** The bytes [bs] lie in memory from [c] on. *)
Definition at_mem (opts : Z → Z) (c : Z) (bs : list Z) : Prop :=
  ∀ i b, bs !! i = Some b → opts (c + Z.of_nat i) = b.

Lemma at_mem_app opts c bs1 bs2 :
  at_mem opts c (bs1 ++ bs2) → at_mem opts c bs1 ∧ at_mem opts (c + Z.of_nat (length bs1)) bs2.
Proof.
  intros H. split.
  - intros i b Hi. apply H. by apply lookup_app_l_Some.
  - intros i b Hi. rewrite <-Z.add_assoc, <-Nat2Z.inj_add. apply H.
    rewrite lookup_app_r by lia. by replace (length bs1 + i - length bs1)%nat with i by lia.
Qed.

Lemma at_mem_cons opts c b bs : at_mem opts c (b :: bs) → opts c = b ∧ at_mem opts (c + 1) bs.
Proof.
  intros H. split.
  - specialize (H 0%nat b eq_refl). by rewrite Z.add_0_r in H.
  - intros i x Hi. rewrite <-Z.add_assoc. replace (1 + Z.of_nat i) with (Z.of_nat (S i)) by lia. by apply H.
Qed.

Lemma mss_bytes v : is_u16 v → u16 (Z.lor (Z.shiftl (v / 256) 8) (v mod 256)) = v.
Proof.
  intros Hv. unfold is_u16 in Hv. rewrite Z.shiftl_mul_pow2 by lia. change (2 ^ 8) with 256.
  rewrite lor_bytes by (apply Z.mod_pos_bound; lia).
  replace (v / 256 * 256 + v mod 256) with v by (Z.to_euclidean_division_equations; lia).
  apply Z.mod_small. lia.
Qed.

(** * Well-formed options *)

Lemma parseopt_options fuel opts len c mss l pad :
  Forall wf_option l → at_mem opts c (encode_options l ++ replicate pad 0) →
  0 <= c → c + Z.of_nat (length (encode_options l) + pad) = len → len <= 40 → (length l < fuel)%nat →
  parseopt_loop fuel opts len c mss = Some (option_mss l mss).
Proof.
  intros Hl. revert fuel c. induction Hl as [|o l Ho Hl IH]; intros [|fuel] c Hm Hc Hlen H40 Hf;
    try (cbn in Hf; lia).
  - cbn [encode_options mbind list_bind app length] in Hm, Hlen. cbn [parseopt_loop option_mss].
    destruct (Z.ltb_spec c len) as [Hlt|]; [|done]. destruct pad as [|pad]; [lia|].
    cbn in Hm. apply at_mem_cons in Hm as [-> _]. done.
  - change (encode_options (o :: l)) with (encode_option o ++ encode_options l) in Hm, Hlen.
    rewrite <-app_assoc in Hm. rewrite length_app in Hlen. apply at_mem_app in Hm as [Ho' Hm].
    assert (1 <= Z.of_nat (length (encode_option o))) as Hone by (destruct o; cbn; lia).
    cbn [parseopt_loop]. rewrite (proj2 (Z.ltb_lt _ _)) by lia.
    assert (∀ c', c' = c + Z.of_nat (length (encode_option o)) →
      parseopt_loop fuel opts len c' mss = Some (option_mss l mss)) as Hgo.
    { intros c' ->. apply IH; [done|lia|lia|done|cbn in Hf; lia]. }
    destruct o as [|v|kind body]; cbn [encode_option option_mss] in *.
    + apply at_mem_cons in Ho' as [-> _]. apply Hgo. cbn. apply u8_small. unfold is_byte. cbn in Hlen. lia.
    + do 4 (apply at_mem_cons in Ho' as [?E Ho']). rewrite <-Z.add_assoc in E1. rewrite <-!Z.add_assoc in E2.
      rewrite E, E0. change (c + 2) with (c + (1 + 1)). change (c + 3) with (c + (1 + (1 + 1))).
      rewrite E1, E2. cbn [Z.eqb andb Pos.eqb]. rewrite mss_bytes by done.
      f_equal. unfold TCP_MSS. destruct (Z.ltb_spec 128 v); lia.
    + destruct Ho as (K0 & K1 & K2). apply at_mem_cons in Ho' as [-> Ho']. apply at_mem_cons in Ho' as [-> _].
      rewrite !(proj2 (Z.eqb_neq kind _)) by done. cbn [andb]. rewrite (proj2 (Z.eqb_neq _ 0)) by lia.
      apply Hgo. cbn [length] in *. rewrite u8_small by (unfold is_byte; lia). lia.
Qed.

Lemma offset_bits offset :
  is_byte offset → Z.land offset 0xf0 = offset / 16 * 16 ∧ Z.shiftr offset 4 = offset / 16.
Proof.
  intros Ho. split; [|by rewrite Z.shiftr_div_pow2 by lia].
  assert (Forall (λ n, Z.land (Z.of_nat n) 0xf0 = Z.of_nat n / 16 * 16) (seq 0 256)) as H
    by (apply (bool_decide_unpack _); vm_compute; exact I).
  rewrite Forall_forall in H. unfold is_byte in Ho. specialize (H (Z.to_nat offset)).
  rewrite Z2Nat.id in H by lia. apply H. apply in_seq. lia.
Qed.

Lemma parseopt_len fuel opts offset mss :
  is_byte offset →
  tcp_parseopt fuel opts offset mss =
  if 5 <? offset / 16 then parseopt_loop fuel opts (4 * (offset / 16 - 5)) 0 mss else Some mss.
Proof.
  intros Ho. destruct (offset_bits _ Ho) as [E1 E2]. unfold tcp_parseopt. rewrite E1, E2.
  rewrite Z.shiftl_mul_pow2 by lia. change (2 ^ 2) with 4. rewrite (Z.mul_comm _ 4).
  replace (0x50 <? offset / 16 * 16) with (5 <? offset / 16); [done|].
  apply eq_true_iff_eq. rewrite !Z.ltb_lt. lia.
Qed.

(** From options as a peer writes them, padded with zeros to the length that
    the header states, [tcp_parseopt] takes the value of the first MSS option, cut
    to the stack's own, and leaves the size alone when there is none. *)
Theorem tcp_parseopt_reads_mss opts offset mss l pad :
  is_byte offset → Forall wf_option l → at_mem opts 0 (encode_options l ++ replicate pad 0) →
  Z.of_nat (length (encode_options l) + pad) = 4 * (offset / 16 - 5) → (length l <= 40)%nat →
  tcp_parseopt 41 opts offset mss = Some (option_mss l mss).
Proof.
  intros Ho Hl Hm Hlen Hn. rewrite parseopt_len by done. unfold is_byte in Ho.
  destruct (Z.ltb_spec 5 (offset / 16)) as [Hlt|Hge].
  - eapply parseopt_options; [done|done|lia|lia| |lia]. Z.to_euclidean_division_equations. lia.
  - destruct l as [|o l]; [done|]. exfalso. change (encode_options (o :: l)) with (encode_option o ++ encode_options l) in Hlen.
    rewrite length_app in Hlen. destruct o; cbn in Hlen; lia.
Qed.

(** Memory that starts with the given bytes. *)
Definition mem_of (bs : list Z) (i : Z) : Z := default 0 (bs !! Z.to_nat i).

Lemma mem_of_at bs : at_mem (mem_of bs) 0 bs.
Proof. intros i b Hi. unfold mem_of. by rewrite Z.add_0_l, Nat2Z.id, Hi. Qed.

Lemma tcp_parseopt_reads_mss_witness :
  tcp_parseopt 41 (mem_of [1; 3; 3; 7; 2; 4; 0; 64]) 0x70 128 = Some 64.
Proof.
  apply (tcp_parseopt_reads_mss _ 0x70 128 [Nop; Other 3 [7]; Mss 64] 0).
  - unfold is_byte. lia.
  - repeat constructor; unfold is_u16; lia.
  - exact (mem_of_at [1; 3; 3; 7; 2; 4; 0; 64]).
  - reflexivity.
  - cbn. lia.
Defined.

(** * Ends and endless loops *)

Lemma parseopt_ends fuel opts len c mss :
  (∀ i, 0 <= i <= 40 → 0 <= opts i <= 215) → len <= 40 → 0 <= c → len - c < Z.of_nat fuel → (0 < fuel)%nat →
  is_Some (parseopt_loop fuel opts len c mss).
Proof.
  intros Hb Hlen. revert c. induction fuel as [|fuel IH]; intros c Hc Hf Hpos; [lia|].
  - cbn [parseopt_loop]. destruct (Z.ltb_spec c len) as [Hlt|]; [|by eexists].
    destruct (opts c =? 0); [by eexists|]. destruct (opts c =? 1).
    { rewrite u8_small by (unfold is_byte; lia). apply IH; lia. }
    destruct ((opts c =? 2) && (opts (c + 1) =? 4)); [by eexists|].
    destruct (Z.eqb_spec (opts (c + 1)) 0) as [|Hne]; [by eexists|].
    pose proof (Hb (c + 1) ltac:(lia)). rewrite u8_small by (unfold is_byte; lia). apply IH; lia.
Qed.

(** When no byte of the options is above 215, [tcp_parseopt] ends within 41
    rounds, whatever the options say.  Otherwise the 8-bit index can wrap: the
    options 3, 2, 5, 254 of a SYN segment take it from 2 back to 0, and the
    function never returns. *)
Theorem tcp_parseopt_may_not_return opts offset mss :
  is_byte offset →
  ((∀ i, 0 <= i <= 40 → 0 <= opts i <= 215) → is_Some (tcp_parseopt 41 opts offset mss)) ∧
  (at_mem opts 0 [3; 2; 5; 254] → offset / 16 = 6 → ∀ fuel, tcp_parseopt fuel opts offset mss = None).
Proof.
  intros Ho. split.
  - intros Hb. rewrite parseopt_len by done. destruct (5 <? offset / 16); [|by eexists].
    unfold is_byte in Ho. apply parseopt_ends; [done| |lia| |lia]; Z.to_euclidean_division_equations; lia.
  - intros Hm E fuel. rewrite parseopt_len, E by done. cbn [Z.ltb Z.compare Pos.compare Pos.compare_cont].
    assert (opts 0 = 3 ∧ opts 1 = 2 ∧ opts 2 = 5 ∧ opts 3 = 254) as (H0 & H1 & H2 & H3).
    { split_and!; [apply (Hm 0%nat)|apply (Hm 1%nat)|apply (Hm 2%nat)|apply (Hm 3%nat)]; done. }
    enough (parseopt_loop fuel opts 4 0 mss = None ∧ parseopt_loop fuel opts 4 2 mss = None) as [? _] by done.
    induction fuel as [|fuel [IH1 IH2]]; [done|]. cbn [parseopt_loop].
    change (0 <? 4) with true. change (2 <? 4) with true. change (2 + 1) with 3. change (0 + 1) with 1.
    cbv iota. rewrite H0, H1, H2, H3. done.
Qed.

Lemma tcp_parseopt_may_not_return_witness :
  is_Some (tcp_parseopt 41 (mem_of [2; 4; 1; 64]) 0x60 128) ∧ tcp_parseopt 1000 (mem_of [3; 2; 5; 254]) 0x60 128 = None.
Proof.
  split.
  - apply tcp_parseopt_may_not_return; [unfold is_byte; lia|].
    intros i Hi. unfold mem_of. destruct (Z.to_nat i) as [|[|[|[|[|n]]]]]; cbn; lia.
  - apply tcp_parseopt_may_not_return; [unfold is_byte; lia|apply mem_of_at|reflexivity].
Defined.
