(* ===== verification/Tcp.v ===== *)
(** The sending side of TCP (lwtcp/tcp_output.c, the acknowledgements of
    [tcp_receive] in lwtcp/tcp_input.c, the retransmission timer of lwtcp/tcp.c).

    A segment on a queue is its header fields and its data; header fields have
    host byte order here, where the code converts at every access.  What is sent
    is recorded as the fields and data that [sr_lwip_output] gets.  The results
    of the memory pools are a list of booleans, one per allocation. *)

From stdpp Require Import base tactics list numbers.
From Stdlib Require Import ZArith Lia.
From S2P Require Import Prelude TcpOptions.

Local Open Scope Z_scope.

(** * Constants and sequence numbers *)

Definition TCP_FIN : Z := 0x01.
Definition TCP_SYN : Z := 0x02.
Definition TCP_RST : Z := 0x04.
Definition TCP_PSH : Z := 0x08.
Definition TCP_ACK : Z := 0x10.

Definition TF_ACK_DELAY : Z := 0x01.
Definition TF_ACK_NOW : Z := 0x02.
Definition TF_INFR : Z := 0x04.

Definition TCP_SND_BUF : Z := 256.
Definition TCP_SND_QUEUELEN : Z := 4 * TCP_SND_BUF / TCP_MSS.
Definition TCP_WND : Z := 1024.

Definition TCP_SEQ_LT (a b : Z) : bool := s32 (a - b) <? 0.
Definition TCP_SEQ_LEQ (a b : Z) : bool := s32 (a - b) <=? 0.

(** Whether [flags & mask]. *)
Definition has (flags mask : Z) : bool := negb (Z.land flags mask =? 0).

Inductive tcp_state :=
  | CLOSED | LISTEN | SYN_SENT | SYN_RCVD | ESTABLISHED | FIN_WAIT_1 | FIN_WAIT_2 | CLOSE_WAIT
  | CLOSING | LAST_ACK | TIME_WAIT.

#[global] Instance tcp_state_eq_dec : EqDecision tcp_state.
Proof. solve_decision. Defined.

(** The order of the enumeration. *)
Definition state_num (s : tcp_state) : Z :=
  match s with
  | CLOSED => 0 | LISTEN => 1 | SYN_SENT => 2 | SYN_RCVD => 3 | ESTABLISHED => 4 | FIN_WAIT_1 => 5
  | FIN_WAIT_2 => 6 | CLOSE_WAIT => 7 | CLOSING => 8 | LAST_ACK => 9 | TIME_WAIT => 10
  end.

(** * Segments and control blocks *)

(** [sg_clen] is the number of packet buffers of the segment, [sg_opts] its options. *)
Record tcp_seg := Seg {
  sg_seqno : Z;
  sg_len : Z;
  sg_flags : Z;
  sg_opts : list Z;
  sg_data : list Z;
  sg_clen : Z
}.

Definition TCP_TCPLEN (seg : tcp_seg) : Z :=
  sg_len seg + (if has (sg_flags seg) TCP_FIN || has (sg_flags seg) TCP_SYN then 1 else 0).

Definition or_flags (f : Z) (seg : tcp_seg) : tcp_seg :=
  Seg (sg_seqno seg) (sg_len seg) (Z.lor (sg_flags seg) f) (sg_opts seg) (sg_data seg) (sg_clen seg).

(** The fields of [struct tcp_pcb] that the sending side uses. *)
Record tcp_pcb := Pcb {
  state : tcp_state;
  local_ip : Z;
  local_port : Z;
  remote_ip : Z;
  remote_port : Z;
  rcv_nxt : Z;
  rcv_wnd : Z;
  rtime : Z;
  mss : Z;
  flags : Z;
  rttest : Z;
  rtseq : Z;
  sa : Z;
  sv : Z;
  rto : Z;
  nrtx : Z;
  lastack : Z;
  dupacks : Z;
  cwnd : Z;
  ssthresh : Z;
  snd_nxt : Z;
  snd_max : Z;
  snd_wnd : Z;
  snd_wl1 : Z;
  snd_wl2 : Z;
  snd_lbb : Z;
  snd_buf : Z;
  snd_queuelen : Z;
  acked : Z;
  polltmr : Z;
  unsent : list tcp_seg;
  unacked : list tcp_seg
}.

Definition set_state (v : tcp_state) (p : tcp_pcb) : tcp_pcb :=
  Pcb v (local_ip p) (local_port p) (remote_ip p) (remote_port p) (rcv_nxt p) (rcv_wnd p) (rtime p)
    (mss p) (flags p) (rttest p) (rtseq p) (sa p) (sv p) (rto p) (nrtx p) (lastack p) (dupacks p)
    (cwnd p) (ssthresh p) (snd_nxt p) (snd_max p) (snd_wnd p) (snd_wl1 p) (snd_wl2 p) (snd_lbb p)
    (snd_buf p) (snd_queuelen p) (acked p) (polltmr p) (unsent p) (unacked p).
Definition set_local_ip (v : Z) (p : tcp_pcb) : tcp_pcb :=
  Pcb (state p) v (local_port p) (remote_ip p) (remote_port p) (rcv_nxt p) (rcv_wnd p) (rtime p)
    (mss p) (flags p) (rttest p) (rtseq p) (sa p) (sv p) (rto p) (nrtx p) (lastack p) (dupacks p)
    (cwnd p) (ssthresh p) (snd_nxt p) (snd_max p) (snd_wnd p) (snd_wl1 p) (snd_wl2 p) (snd_lbb p)
    (snd_buf p) (snd_queuelen p) (acked p) (polltmr p) (unsent p) (unacked p).
Definition set_local_port (v : Z) (p : tcp_pcb) : tcp_pcb :=
  Pcb (state p) (local_ip p) v (remote_ip p) (remote_port p) (rcv_nxt p) (rcv_wnd p) (rtime p)
    (mss p) (flags p) (rttest p) (rtseq p) (sa p) (sv p) (rto p) (nrtx p) (lastack p) (dupacks p)
    (cwnd p) (ssthresh p) (snd_nxt p) (snd_max p) (snd_wnd p) (snd_wl1 p) (snd_wl2 p) (snd_lbb p)
    (snd_buf p) (snd_queuelen p) (acked p) (polltmr p) (unsent p) (unacked p).
Definition set_remote_ip (v : Z) (p : tcp_pcb) : tcp_pcb :=
  Pcb (state p) (local_ip p) (local_port p) v (remote_port p) (rcv_nxt p) (rcv_wnd p) (rtime p)
    (mss p) (flags p) (rttest p) (rtseq p) (sa p) (sv p) (rto p) (nrtx p) (lastack p) (dupacks p)
    (cwnd p) (ssthresh p) (snd_nxt p) (snd_max p) (snd_wnd p) (snd_wl1 p) (snd_wl2 p) (snd_lbb p)
    (snd_buf p) (snd_queuelen p) (acked p) (polltmr p) (unsent p) (unacked p).
Definition set_remote_port (v : Z) (p : tcp_pcb) : tcp_pcb :=
  Pcb (state p) (local_ip p) (local_port p) (remote_ip p) v (rcv_nxt p) (rcv_wnd p) (rtime p)
    (mss p) (flags p) (rttest p) (rtseq p) (sa p) (sv p) (rto p) (nrtx p) (lastack p) (dupacks p)
    (cwnd p) (ssthresh p) (snd_nxt p) (snd_max p) (snd_wnd p) (snd_wl1 p) (snd_wl2 p) (snd_lbb p)
    (snd_buf p) (snd_queuelen p) (acked p) (polltmr p) (unsent p) (unacked p).
Definition set_rcv_nxt (v : Z) (p : tcp_pcb) : tcp_pcb :=
  Pcb (state p) (local_ip p) (local_port p) (remote_ip p) (remote_port p) v (rcv_wnd p) (rtime p)
    (mss p) (flags p) (rttest p) (rtseq p) (sa p) (sv p) (rto p) (nrtx p) (lastack p) (dupacks p)
    (cwnd p) (ssthresh p) (snd_nxt p) (snd_max p) (snd_wnd p) (snd_wl1 p) (snd_wl2 p) (snd_lbb p)
    (snd_buf p) (snd_queuelen p) (acked p) (polltmr p) (unsent p) (unacked p).
Definition set_rcv_wnd (v : Z) (p : tcp_pcb) : tcp_pcb :=
  Pcb (state p) (local_ip p) (local_port p) (remote_ip p) (remote_port p) (rcv_nxt p) v (rtime p)
    (mss p) (flags p) (rttest p) (rtseq p) (sa p) (sv p) (rto p) (nrtx p) (lastack p) (dupacks p)
    (cwnd p) (ssthresh p) (snd_nxt p) (snd_max p) (snd_wnd p) (snd_wl1 p) (snd_wl2 p) (snd_lbb p)
    (snd_buf p) (snd_queuelen p) (acked p) (polltmr p) (unsent p) (unacked p).
Definition set_rtime (v : Z) (p : tcp_pcb) : tcp_pcb :=
  Pcb (state p) (local_ip p) (local_port p) (remote_ip p) (remote_port p) (rcv_nxt p) (rcv_wnd p) v
    (mss p) (flags p) (rttest p) (rtseq p) (sa p) (sv p) (rto p) (nrtx p) (lastack p) (dupacks p)
    (cwnd p) (ssthresh p) (snd_nxt p) (snd_max p) (snd_wnd p) (snd_wl1 p) (snd_wl2 p) (snd_lbb p)
    (snd_buf p) (snd_queuelen p) (acked p) (polltmr p) (unsent p) (unacked p).
Definition set_mss (v : Z) (p : tcp_pcb) : tcp_pcb :=
  Pcb (state p) (local_ip p) (local_port p) (remote_ip p) (remote_port p) (rcv_nxt p) (rcv_wnd p)
    (rtime p) v (flags p) (rttest p) (rtseq p) (sa p) (sv p) (rto p) (nrtx p) (lastack p)
    (dupacks p) (cwnd p) (ssthresh p) (snd_nxt p) (snd_max p) (snd_wnd p) (snd_wl1 p) (snd_wl2 p)
    (snd_lbb p) (snd_buf p) (snd_queuelen p) (acked p) (polltmr p) (unsent p) (unacked p).
Definition set_flags (v : Z) (p : tcp_pcb) : tcp_pcb :=
  Pcb (state p) (local_ip p) (local_port p) (remote_ip p) (remote_port p) (rcv_nxt p) (rcv_wnd p)
    (rtime p) (mss p) v (rttest p) (rtseq p) (sa p) (sv p) (rto p) (nrtx p) (lastack p)
    (dupacks p) (cwnd p) (ssthresh p) (snd_nxt p) (snd_max p) (snd_wnd p) (snd_wl1 p) (snd_wl2 p)
    (snd_lbb p) (snd_buf p) (snd_queuelen p) (acked p) (polltmr p) (unsent p) (unacked p).
Definition set_rttest (v : Z) (p : tcp_pcb) : tcp_pcb :=
  Pcb (state p) (local_ip p) (local_port p) (remote_ip p) (remote_port p) (rcv_nxt p) (rcv_wnd p)
    (rtime p) (mss p) (flags p) v (rtseq p) (sa p) (sv p) (rto p) (nrtx p) (lastack p)
    (dupacks p) (cwnd p) (ssthresh p) (snd_nxt p) (snd_max p) (snd_wnd p) (snd_wl1 p) (snd_wl2 p)
    (snd_lbb p) (snd_buf p) (snd_queuelen p) (acked p) (polltmr p) (unsent p) (unacked p).
Definition set_rtseq (v : Z) (p : tcp_pcb) : tcp_pcb :=
  Pcb (state p) (local_ip p) (local_port p) (remote_ip p) (remote_port p) (rcv_nxt p) (rcv_wnd p)
    (rtime p) (mss p) (flags p) (rttest p) v (sa p) (sv p) (rto p) (nrtx p) (lastack p)
    (dupacks p) (cwnd p) (ssthresh p) (snd_nxt p) (snd_max p) (snd_wnd p) (snd_wl1 p) (snd_wl2 p)
    (snd_lbb p) (snd_buf p) (snd_queuelen p) (acked p) (polltmr p) (unsent p) (unacked p).
Definition set_sa (v : Z) (p : tcp_pcb) : tcp_pcb :=
  Pcb (state p) (local_ip p) (local_port p) (remote_ip p) (remote_port p) (rcv_nxt p) (rcv_wnd p)
    (rtime p) (mss p) (flags p) (rttest p) (rtseq p) v (sv p) (rto p) (nrtx p) (lastack p)
    (dupacks p) (cwnd p) (ssthresh p) (snd_nxt p) (snd_max p) (snd_wnd p) (snd_wl1 p) (snd_wl2 p)
    (snd_lbb p) (snd_buf p) (snd_queuelen p) (acked p) (polltmr p) (unsent p) (unacked p).
Definition set_sv (v : Z) (p : tcp_pcb) : tcp_pcb :=
  Pcb (state p) (local_ip p) (local_port p) (remote_ip p) (remote_port p) (rcv_nxt p) (rcv_wnd p)
    (rtime p) (mss p) (flags p) (rttest p) (rtseq p) (sa p) v (rto p) (nrtx p) (lastack p)
    (dupacks p) (cwnd p) (ssthresh p) (snd_nxt p) (snd_max p) (snd_wnd p) (snd_wl1 p) (snd_wl2 p)
    (snd_lbb p) (snd_buf p) (snd_queuelen p) (acked p) (polltmr p) (unsent p) (unacked p).
Definition set_rto (v : Z) (p : tcp_pcb) : tcp_pcb :=
  Pcb (state p) (local_ip p) (local_port p) (remote_ip p) (remote_port p) (rcv_nxt p) (rcv_wnd p)
    (rtime p) (mss p) (flags p) (rttest p) (rtseq p) (sa p) (sv p) v (nrtx p) (lastack p)
    (dupacks p) (cwnd p) (ssthresh p) (snd_nxt p) (snd_max p) (snd_wnd p) (snd_wl1 p) (snd_wl2 p)
    (snd_lbb p) (snd_buf p) (snd_queuelen p) (acked p) (polltmr p) (unsent p) (unacked p).
Definition set_nrtx (v : Z) (p : tcp_pcb) : tcp_pcb :=
  Pcb (state p) (local_ip p) (local_port p) (remote_ip p) (remote_port p) (rcv_nxt p) (rcv_wnd p)
    (rtime p) (mss p) (flags p) (rttest p) (rtseq p) (sa p) (sv p) (rto p) v (lastack p)
    (dupacks p) (cwnd p) (ssthresh p) (snd_nxt p) (snd_max p) (snd_wnd p) (snd_wl1 p) (snd_wl2 p)
    (snd_lbb p) (snd_buf p) (snd_queuelen p) (acked p) (polltmr p) (unsent p) (unacked p).
Definition set_lastack (v : Z) (p : tcp_pcb) : tcp_pcb :=
  Pcb (state p) (local_ip p) (local_port p) (remote_ip p) (remote_port p) (rcv_nxt p) (rcv_wnd p)
    (rtime p) (mss p) (flags p) (rttest p) (rtseq p) (sa p) (sv p) (rto p) (nrtx p) v (dupacks p)
    (cwnd p) (ssthresh p) (snd_nxt p) (snd_max p) (snd_wnd p) (snd_wl1 p) (snd_wl2 p) (snd_lbb p)
    (snd_buf p) (snd_queuelen p) (acked p) (polltmr p) (unsent p) (unacked p).
Definition set_dupacks (v : Z) (p : tcp_pcb) : tcp_pcb :=
  Pcb (state p) (local_ip p) (local_port p) (remote_ip p) (remote_port p) (rcv_nxt p) (rcv_wnd p)
    (rtime p) (mss p) (flags p) (rttest p) (rtseq p) (sa p) (sv p) (rto p) (nrtx p) (lastack p) v
    (cwnd p) (ssthresh p) (snd_nxt p) (snd_max p) (snd_wnd p) (snd_wl1 p) (snd_wl2 p) (snd_lbb p)
    (snd_buf p) (snd_queuelen p) (acked p) (polltmr p) (unsent p) (unacked p).
Definition set_cwnd (v : Z) (p : tcp_pcb) : tcp_pcb :=
  Pcb (state p) (local_ip p) (local_port p) (remote_ip p) (remote_port p) (rcv_nxt p) (rcv_wnd p)
    (rtime p) (mss p) (flags p) (rttest p) (rtseq p) (sa p) (sv p) (rto p) (nrtx p) (lastack p)
    (dupacks p) v (ssthresh p) (snd_nxt p) (snd_max p) (snd_wnd p) (snd_wl1 p) (snd_wl2 p)
    (snd_lbb p) (snd_buf p) (snd_queuelen p) (acked p) (polltmr p) (unsent p) (unacked p).
Definition set_ssthresh (v : Z) (p : tcp_pcb) : tcp_pcb :=
  Pcb (state p) (local_ip p) (local_port p) (remote_ip p) (remote_port p) (rcv_nxt p) (rcv_wnd p)
    (rtime p) (mss p) (flags p) (rttest p) (rtseq p) (sa p) (sv p) (rto p) (nrtx p) (lastack p)
    (dupacks p) (cwnd p) v (snd_nxt p) (snd_max p) (snd_wnd p) (snd_wl1 p) (snd_wl2 p)
    (snd_lbb p) (snd_buf p) (snd_queuelen p) (acked p) (polltmr p) (unsent p) (unacked p).
Definition set_snd_nxt (v : Z) (p : tcp_pcb) : tcp_pcb :=
  Pcb (state p) (local_ip p) (local_port p) (remote_ip p) (remote_port p) (rcv_nxt p) (rcv_wnd p)
    (rtime p) (mss p) (flags p) (rttest p) (rtseq p) (sa p) (sv p) (rto p) (nrtx p) (lastack p)
    (dupacks p) (cwnd p) (ssthresh p) v (snd_max p) (snd_wnd p) (snd_wl1 p) (snd_wl2 p)
    (snd_lbb p) (snd_buf p) (snd_queuelen p) (acked p) (polltmr p) (unsent p) (unacked p).
Definition set_snd_max (v : Z) (p : tcp_pcb) : tcp_pcb :=
  Pcb (state p) (local_ip p) (local_port p) (remote_ip p) (remote_port p) (rcv_nxt p) (rcv_wnd p)
    (rtime p) (mss p) (flags p) (rttest p) (rtseq p) (sa p) (sv p) (rto p) (nrtx p) (lastack p)
    (dupacks p) (cwnd p) (ssthresh p) (snd_nxt p) v (snd_wnd p) (snd_wl1 p) (snd_wl2 p)
    (snd_lbb p) (snd_buf p) (snd_queuelen p) (acked p) (polltmr p) (unsent p) (unacked p).
Definition set_snd_wnd (v : Z) (p : tcp_pcb) : tcp_pcb :=
  Pcb (state p) (local_ip p) (local_port p) (remote_ip p) (remote_port p) (rcv_nxt p) (rcv_wnd p)
    (rtime p) (mss p) (flags p) (rttest p) (rtseq p) (sa p) (sv p) (rto p) (nrtx p) (lastack p)
    (dupacks p) (cwnd p) (ssthresh p) (snd_nxt p) (snd_max p) v (snd_wl1 p) (snd_wl2 p)
    (snd_lbb p) (snd_buf p) (snd_queuelen p) (acked p) (polltmr p) (unsent p) (unacked p).
Definition set_snd_wl1 (v : Z) (p : tcp_pcb) : tcp_pcb :=
  Pcb (state p) (local_ip p) (local_port p) (remote_ip p) (remote_port p) (rcv_nxt p) (rcv_wnd p)
    (rtime p) (mss p) (flags p) (rttest p) (rtseq p) (sa p) (sv p) (rto p) (nrtx p) (lastack p)
    (dupacks p) (cwnd p) (ssthresh p) (snd_nxt p) (snd_max p) (snd_wnd p) v (snd_wl2 p)
    (snd_lbb p) (snd_buf p) (snd_queuelen p) (acked p) (polltmr p) (unsent p) (unacked p).
Definition set_snd_wl2 (v : Z) (p : tcp_pcb) : tcp_pcb :=
  Pcb (state p) (local_ip p) (local_port p) (remote_ip p) (remote_port p) (rcv_nxt p) (rcv_wnd p)
    (rtime p) (mss p) (flags p) (rttest p) (rtseq p) (sa p) (sv p) (rto p) (nrtx p) (lastack p)
    (dupacks p) (cwnd p) (ssthresh p) (snd_nxt p) (snd_max p) (snd_wnd p) (snd_wl1 p) v
    (snd_lbb p) (snd_buf p) (snd_queuelen p) (acked p) (polltmr p) (unsent p) (unacked p).
Definition set_snd_lbb (v : Z) (p : tcp_pcb) : tcp_pcb :=
  Pcb (state p) (local_ip p) (local_port p) (remote_ip p) (remote_port p) (rcv_nxt p) (rcv_wnd p)
    (rtime p) (mss p) (flags p) (rttest p) (rtseq p) (sa p) (sv p) (rto p) (nrtx p) (lastack p)
    (dupacks p) (cwnd p) (ssthresh p) (snd_nxt p) (snd_max p) (snd_wnd p) (snd_wl1 p) (snd_wl2 p)
    v (snd_buf p) (snd_queuelen p) (acked p) (polltmr p) (unsent p) (unacked p).
Definition set_snd_buf (v : Z) (p : tcp_pcb) : tcp_pcb :=
  Pcb (state p) (local_ip p) (local_port p) (remote_ip p) (remote_port p) (rcv_nxt p) (rcv_wnd p)
    (rtime p) (mss p) (flags p) (rttest p) (rtseq p) (sa p) (sv p) (rto p) (nrtx p) (lastack p)
    (dupacks p) (cwnd p) (ssthresh p) (snd_nxt p) (snd_max p) (snd_wnd p) (snd_wl1 p) (snd_wl2 p)
    (snd_lbb p) v (snd_queuelen p) (acked p) (polltmr p) (unsent p) (unacked p).
Definition set_snd_queuelen (v : Z) (p : tcp_pcb) : tcp_pcb :=
  Pcb (state p) (local_ip p) (local_port p) (remote_ip p) (remote_port p) (rcv_nxt p) (rcv_wnd p)
    (rtime p) (mss p) (flags p) (rttest p) (rtseq p) (sa p) (sv p) (rto p) (nrtx p) (lastack p)
    (dupacks p) (cwnd p) (ssthresh p) (snd_nxt p) (snd_max p) (snd_wnd p) (snd_wl1 p) (snd_wl2 p)
    (snd_lbb p) (snd_buf p) v (acked p) (polltmr p) (unsent p) (unacked p).
Definition set_acked (v : Z) (p : tcp_pcb) : tcp_pcb :=
  Pcb (state p) (local_ip p) (local_port p) (remote_ip p) (remote_port p) (rcv_nxt p) (rcv_wnd p)
    (rtime p) (mss p) (flags p) (rttest p) (rtseq p) (sa p) (sv p) (rto p) (nrtx p) (lastack p)
    (dupacks p) (cwnd p) (ssthresh p) (snd_nxt p) (snd_max p) (snd_wnd p) (snd_wl1 p) (snd_wl2 p)
    (snd_lbb p) (snd_buf p) (snd_queuelen p) v (polltmr p) (unsent p) (unacked p).
Definition set_polltmr (v : Z) (p : tcp_pcb) : tcp_pcb :=
  Pcb (state p) (local_ip p) (local_port p) (remote_ip p) (remote_port p) (rcv_nxt p) (rcv_wnd p)
    (rtime p) (mss p) (flags p) (rttest p) (rtseq p) (sa p) (sv p) (rto p) (nrtx p) (lastack p)
    (dupacks p) (cwnd p) (ssthresh p) (snd_nxt p) (snd_max p) (snd_wnd p) (snd_wl1 p) (snd_wl2 p)
    (snd_lbb p) (snd_buf p) (snd_queuelen p) (acked p) v (unsent p) (unacked p).
Definition set_unsent (v : list tcp_seg) (p : tcp_pcb) : tcp_pcb :=
  Pcb (state p) (local_ip p) (local_port p) (remote_ip p) (remote_port p) (rcv_nxt p) (rcv_wnd p)
    (rtime p) (mss p) (flags p) (rttest p) (rtseq p) (sa p) (sv p) (rto p) (nrtx p) (lastack p)
    (dupacks p) (cwnd p) (ssthresh p) (snd_nxt p) (snd_max p) (snd_wnd p) (snd_wl1 p) (snd_wl2 p)
    (snd_lbb p) (snd_buf p) (snd_queuelen p) (acked p) (polltmr p) v (unacked p).
Definition set_unacked (v : list tcp_seg) (p : tcp_pcb) : tcp_pcb :=
  Pcb (state p) (local_ip p) (local_port p) (remote_ip p) (remote_port p) (rcv_nxt p) (rcv_wnd p)
    (rtime p) (mss p) (flags p) (rttest p) (rtseq p) (sa p) (sv p) (rto p) (nrtx p) (lastack p)
    (dupacks p) (cwnd p) (ssthresh p) (snd_nxt p) (snd_max p) (snd_wnd p) (snd_wl1 p) (snd_wl2 p)
    (snd_lbb p) (snd_buf p) (snd_queuelen p) (acked p) (polltmr p) (unsent p) v.

Inductive err := ERR_OK | ERR_MEM | ERR_BUF | ERR_ABRT | ERR_RST | ERR_CONN | ERR_VAL | ERR_USE.

(** What [sr_lwip_output] gets. *)
Record tcp_out := Out {
  o_src : Z; o_dest : Z;
  o_sport : Z; o_dport : Z;
  o_seqno : Z; o_ackno : Z;
  o_flags : Z; o_wnd : Z;
  o_opts : list Z; o_data : list Z
}.

(** One allocation; memory is short when the list is at its end. *)
Definition alloc (mems : list bool) : bool * list bool :=
  match mems with [] => (false, []) | m :: mems' => (m, mems') end.

(** * Queueing data *)

(** The buffers of one segment, and how many they are: options, a copy of the
    data, or a header in front of the caller's memory. *)
Definition alloc_bufs (copied : bool) (mems : list bool) : option Z * list bool :=
  let '(ok, mems) := alloc mems in
  if negb ok then (None, mems)
  else if copied then (Some 1, mems)
  else let '(ok, mems) := alloc mems in (if ok then Some 2 else None, mems).

(** The loop of [tcp_enqueue]; [queue] holds the segments made so far, [left]
    the data that is left.  [None] is the jump to [memerr]. *)
Fixpoint enqueue_loop (fuel : nat) (mss flags : Z) (copy : bool) (opts : option (list Z))
    (left : list Z) (seqno queuelen : Z) (queue : list tcp_seg) (mems : list bool)
    : option (list tcp_seg * Z) * list bool :=
  match fuel with
  | O => (None, mems)
  | S fuel' =>
      match queue, left with
      | _ :: _, [] => (Some (queue, queuelen), mems)
      | _, _ =>
          let seglen := if mss <? Z.of_nat (length left) then mss else Z.of_nat (length left) in
          let '(ok, mems) := alloc mems in
          if negb ok then (None, mems)
          else
            let '(bufs, mems) := alloc_bufs (copy || match opts with Some _ => true | None => false end) mems in
            match bufs with
            | None => (None, mems)
            | Some clen =>
                let queuelen := u8 (queuelen + clen) in
                if TCP_SND_QUEUELEN <? queuelen then (None, mems)
                else
                  let seg := Seg seqno seglen flags (default [] opts) (take (Z.to_nat seglen) left) clen in
                  enqueue_loop fuel' mss flags copy opts (drop (Z.to_nat seglen) left)
                    (u32 (seqno + seglen)) queuelen (queue ++ [seg]) mems
            end
      end
  end.

(** The last segment of the unsent queue takes the data of the first new one. *)
Definition chain_seg (useg first : tcp_seg) : tcp_seg :=
  Seg (sg_seqno useg) (u16 (sg_len useg + sg_len first)) (sg_flags useg) (sg_opts useg)
    (sg_data useg ++ sg_data first) (sg_clen useg + sg_clen first).

(** Mark the last segment of a list, when the last one made has data. *)
Fixpoint push_last (queue : list tcp_seg) : list tcp_seg :=
  match queue with
  | [] => []
  | [seg] => [if 0 <? sg_len seg then or_flags TCP_PSH seg else seg]
  | seg :: queue' => seg :: push_last queue'
  end.

(** Whether the first new segment fits behind the data of [useg]. *)
Definition can_chain (mss flags : Z) (useg first : tcp_seg) : bool :=
  negb (TCP_TCPLEN useg =? 0) && negb (has (sg_flags useg) (Z.lor TCP_SYN TCP_FIN)) &&
  negb (has flags (Z.lor TCP_SYN TCP_FIN)) && (sg_len useg + sg_len first <=? mss).

(** Where the new segments go. *)
Fixpoint join_queue (mss flags : Z) (unsent queue : list tcp_seg) : list tcp_seg :=
  match unsent with
  | [] => push_last queue
  | [useg] =>
      match queue with
      | first :: rest =>
          if can_chain mss flags useg first then chain_seg useg first :: push_last rest
          else useg :: push_last queue
      | [] => [useg]
      end
  | seg :: unsent' => seg :: join_queue mss flags unsent' queue
  end.

Definition tcp_enqueue (data : list Z) (flags : Z) (copy : bool) (opts : option (list Z))
    (p : tcp_pcb) (mems : list bool) : err * tcp_pcb * list bool :=
  let len := Z.of_nat (length data) in
  if snd_buf p <? len then (ERR_MEM, p, mems)
  else if TCP_SND_QUEUELEN <=? snd_queuelen p then (ERR_MEM, p, mems)
  else
    match enqueue_loop (S (length mems)) (mss p) flags copy opts data (snd_lbb p) (snd_queuelen p) [] mems with
    | (None, mems) => (ERR_MEM, p, mems)
    | (Some (queue, queuelen), mems) =>
        let len := if has flags TCP_SYN || has flags TCP_FIN then u16 (len + 1) else len in
        let p := set_unsent (join_queue (mss p) flags (unsent p) queue) p in
        let p := set_snd_lbb (u32 (snd_lbb p + len)) p in
        let p := set_snd_buf (u16 (snd_buf p - len)) p in
        (ERR_OK, set_snd_queuelen queuelen p, mems)
    end.

Definition tcp_write (data : list Z) (copy : bool) (p : tcp_pcb) (mems : list bool) : err * tcp_pcb * list bool :=
  match state p with
  | SYN_SENT | SYN_RCVD | ESTABLISHED | CLOSE_WAIT =>
      match data with
      | [] => (ERR_OK, p, mems)
      | _ => tcp_enqueue data 0 copy None p mems
      end
  | _ => (ERR_CONN, p, mems)
  end.

Definition tcp_send_ctrl (flags : Z) (p : tcp_pcb) (mems : list bool) : err * tcp_pcb * list bool :=
  tcp_enqueue [] flags true None p mems.

(** * Sending *)

Section output.
(** [ip_route]: the address of the interface towards a host, 0 when there is
    none; [ticks] is [tcp_ticks]. *)
Context (ip_route : Z → Z) (ticks : Z).

(** [MIN(pcb->snd_wnd, pcb->cwnd)]. *)
Definition send_window (p : tcp_pcb) : Z := if snd_wnd p <? cwnd p then snd_wnd p else cwnd p.

(** Whether a segment lies inside of the window. *)
Definition in_window (p : tcp_pcb) (seg : tcp_seg) : bool :=
  u32 (sg_seqno seg - lastack p + sg_len seg) <=? send_window p.

Definition emit (p : tcp_pcb) (seg : tcp_seg) (wnd : Z) : tcp_out :=
  Out (local_ip p) (remote_ip p) (local_port p) (remote_port p) (sg_seqno seg) (rcv_nxt p)
    (sg_flags seg) wnd (sg_opts seg) (sg_data seg).

(** [None] is the assertion for a host without a route. *)
Definition tcp_output_segment (seg : tcp_seg) (p : tcp_pcb) : option (tcp_pcb * tcp_out) :=
  let wnd := if rcv_wnd p <? mss p then 0 else rcv_wnd p in
  p ← (if local_ip p =? 0
       then if ip_route (remote_ip p) =? 0 then None else Some (set_local_ip (ip_route (remote_ip p)) p)
       else Some p);
  let p := set_rtime 0 p in
  let p := if rttest p =? 0 then set_rtseq (sg_seqno seg) (set_rttest (u16 ticks) p) else p in
  Some (p, emit p seg wnd).

(** The segment is on its way: it waits for its acknowledgement. *)
Definition record_sent (seg : tcp_seg) (p : tcp_pcb) : tcp_pcb :=
  let p := set_snd_nxt (u32 (sg_seqno seg + TCP_TCPLEN seg)) p in
  let p := if TCP_SEQ_LT (snd_max p) (snd_nxt p) then set_snd_max (snd_nxt p) p else p in
  if 0 <? TCP_TCPLEN seg then set_unacked (unacked p ++ [seg]) p else p.

(** The loop of [tcp_output] over the unsent segments. *)
Fixpoint output_loop (wnd : Z) (segs : list tcp_seg) (p : tcp_pcb) (outs : list tcp_out)
    : option (tcp_pcb * list tcp_out) :=
  match segs with
  | [] => Some (p, outs)
  | seg :: rest =>
      if u32 (sg_seqno seg - lastack p + sg_len seg) <=? wnd then
        let p := set_unsent rest (set_rtime 0 p) in
        let '(seg, p) :=
          if decide (state p = SYN_SENT) then (seg, p)
          else (or_flags TCP_ACK seg,
                set_flags (Z.land (flags p) (Z.lnot (Z.lor TF_ACK_DELAY TF_ACK_NOW))) p) in
        '(p, out) ← tcp_output_segment seg p;
        output_loop wnd rest (record_sent seg p) (outs ++ [out])
      else Some (p, outs)
  end.

Definition tcp_output (p : tcp_pcb) (mems : list bool) : option (err * tcp_pcb * list tcp_out * list bool) :=
  if has (flags p) TF_ACK_NOW then
    let p := set_flags (Z.land (flags p) (Z.lnot (Z.lor TF_ACK_DELAY TF_ACK_NOW))) p in
    let '(ok, mems) := alloc mems in
    if negb ok then Some (ERR_BUF, p, [], mems)
    else Some (ERR_OK, p, [Out (local_ip p) (remote_ip p) (local_port p) (remote_port p)
                             (snd_nxt p) (rcv_nxt p) TCP_ACK (rcv_wnd p) [] []], mems)
  else
    '(p, outs) ← output_loop (send_window p) (unsent p) p [];
    Some (ERR_OK, p, outs, mems).

Definition tcp_rexmit_seg (p : tcp_pcb) (seg : tcp_seg) : tcp_pcb * list tcp_out :=
  if in_window p seg then
    let out := emit p seg (rcv_wnd p) in
    (set_rttest 0 (set_rtime 0 (set_nrtx (u8 (nrtx p + 1)) p)), [out])
  else (p, []).

(** * Acknowledgements: the first half of [tcp_receive] *)

(** [snd_nxt] follows the first segment that stays on the unsent queue. *)
Fixpoint drop_unsent (ackno : Z) (segs : list tcp_seg) (p : tcp_pcb) : tcp_pcb :=
  match segs with
  | [] => p
  | seg :: rest =>
      if TCP_SEQ_LEQ (u32 (sg_seqno seg + TCP_TCPLEN seg)) ackno then
        let p := set_snd_queuelen (u8 (snd_queuelen p - sg_clen seg)) (set_unsent rest p) in
        let p := match rest with next :: _ => set_snd_nxt (sg_seqno next) p | [] => p end in
        drop_unsent ackno rest p
      else p
  end.

Fixpoint drop_unacked (ackno : Z) (segs : list tcp_seg) (p : tcp_pcb) : tcp_pcb :=
  match segs with
  | [] => p
  | seg :: rest =>
      if TCP_SEQ_LEQ (u32 (sg_seqno seg + TCP_TCPLEN seg)) ackno then
        drop_unacked ackno rest
          (set_snd_queuelen (u8 (snd_queuelen p - sg_clen seg)) (set_unacked rest p))
      else p
  end.

Definition update_window (seqno ackno wnd : Z) (p : tcp_pcb) : tcp_pcb :=
  if TCP_SEQ_LT (snd_wl1 p) seqno || ((snd_wl1 p =? seqno) && TCP_SEQ_LT (snd_wl2 p) ackno) ||
     ((snd_wl2 p =? ackno) && (snd_wnd p <? wnd))
  then set_snd_wl2 ackno (set_snd_wl1 seqno (set_snd_wnd wnd p))
  else p.

Definition inflate (n : Z) (p : tcp_pcb) : tcp_pcb :=
  if cwnd p <? cwnd p + n then set_cwnd (u16 (cwnd p + n)) p else p.

Definition duplicate_ack (p : tcp_pcb) : tcp_pcb * list tcp_out :=
  let p := set_dupacks (u8 (dupacks p + 1)) p in
  match unacked p with
  | seg :: _ =>
      if 3 <=? dupacks p then
        if negb (has (flags p) TF_INFR) then
          let '(p, outs) := tcp_rexmit_seg p seg in
          let p := set_ssthresh (u16 (Z.max (u32 (snd_max p - lastack p) / 2) (2 * mss p))) p in
          let p := set_cwnd (u16 (ssthresh p + 3 * mss p)) p in
          (set_flags (Z.lor (flags p) TF_INFR) p, outs)
        else (inflate (mss p) p, [])
      else (p, [])
  | [] => (p, [])
  end.

(** [None] is a division by a congestion window of 0. *)
Definition grow_window (p : tcp_pcb) : option tcp_pcb :=
  if 4 <=? state_num (state p) then
    if cwnd p <? ssthresh p then Some (inflate (mss p) p)
    else if cwnd p =? 0 then None
    else Some (inflate (mss p * mss p / cwnd p) p)
  else Some p.

Definition new_ack (ackno : Z) (p : tcp_pcb) : option tcp_pcb :=
  let p := if has (flags p) TF_INFR
           then set_cwnd (ssthresh p) (set_flags (Z.land (flags p) (Z.lnot TF_INFR)) p) else p in
  let p := set_rto (u16 (Z.shiftr (sa p) 3 + sv p)) (set_nrtx 0 p) in
  let p := set_acked (u16 (ackno - lastack p)) p in
  let p := set_snd_buf (u16 (snd_buf p + acked p)) p in
  let p := set_lastack ackno (set_dupacks 0 p) in
  p ← grow_window p;
  let p := drop_unsent ackno (unsent p) p in
  let p := drop_unacked ackno (unacked p) p in
  Some (set_polltmr 0 p).

Definition estimate_rtt (ackno : Z) (p : tcp_pcb) : tcp_pcb :=
  if negb (rttest p =? 0) && TCP_SEQ_LT (rtseq p) ackno then
    let m := s32 (ticks - rttest p) in
    let m := m - Z.shiftr (sa p) 3 in
    let p := set_sa (s32 (sa p + m)) p in
    let m := if m <? 0 then - m else m in
    let m := m - Z.shiftr (sv p) 2 in
    let p := set_sv (s32 (sv p + m)) p in
    set_rttest 0 (set_rto (u16 (Z.shiftr (sa p) 3 + sv p)) p)
  else p.

(** A segment with the ACK flag and the given fields arrives. *)
Definition receive_ack (seqno ackno wnd : Z) (p : tcp_pcb) : option (tcp_pcb * list tcp_out) :=
  let p := update_window seqno ackno wnd p in
  '(p, outs) ← (if lastack p =? ackno then Some (duplicate_ack p)
                else if TCP_SEQ_LT (lastack p) ackno && TCP_SEQ_LEQ ackno (snd_max p)
                then p ← new_ack ackno p; Some (p, [])
                else Some (p, []));
  Some (estimate_rtt ackno p, outs).

(** * The retransmission timer: the part of [tcp_slowtmr] for one block *)

Definition tcp_backoff : list Z := [1; 2; 4; 8; 16; 32; 64; 64; 64; 64; 64; 64; 64].

(** [None] is a shift by the width of the number or more. *)
Definition backed_off (p : tcp_pcb) : option Z :=
  n ← tcp_backoff !! Z.to_nat (nrtx p);
  if n <? 32 then Some (u16 (s32 (Z.shiftl (Z.shiftr (sa p) 3 + sv p) n))) else None.

Definition retransmit (p : tcp_pcb) : option (tcp_pcb * list tcp_out) :=
  let p := set_rtime (u8 (rtime p + 1)) p in
  match unacked p with
  | [] => Some (p, [])
  | seg :: rest =>
      if rto p <=? rtime p then
        p ← (if decide (state p = SYN_SENT) then Some p else r ← backed_off p; Some (set_rto r p));
        let p := match rest with
                 | next :: _ => set_snd_nxt (sg_seqno next) (set_unacked [seg] (set_unsent (rest ++ unsent p) p))
                 | [] => p
                 end in
        let '(p, outs) := tcp_rexmit_seg p seg in
        let eff_wnd := if cwnd p <? snd_wnd p then cwnd p else snd_wnd p in
        let p := set_ssthresh (u16 (Z.shiftr eff_wnd 1)) p in
        let p := if ssthresh p <? mss p then set_ssthresh (u16 (mss p * 2)) p else p in
        Some (set_cwnd (mss p) p, outs)
      else Some (p, [])
  end.
End output.

(** A new control block with the initial sequence number [iss]. *)
Definition tcp_new (iss : Z) : tcp_pcb :=
  Pcb CLOSED 0 0 0 0 0 TCP_WND 0 TCP_MSS 0 0 0 0 6 6 0 iss 0 1 0 iss iss 0 0 iss iss TCP_SND_BUF 0 0 0 [] [].
