(* ===== verification/TcpSpec.v ===== *)
(** The queues of the TCP sender (file Tcp) hold a stream of bytes: what the
    application wrote and the peer has not acknowledged, in segments whose
    sequence numbers follow each other. *)

From stdpp Require Import base tactics list numbers sets.
From Stdlib Require Import ZArith Lia.
From S2P Require Import Prelude TcpOptions Tcp.

Local Open Scope Z_scope.

(** * Sequence numbers *)

Lemma s32_u32 x : - 2147483648 <= x < 2147483648 → s32 (u32 x) = x.
Proof.
  intros Hx. unfold s32, u32. rewrite Z.mod_mod by lia.
  destruct (Z_lt_le_dec x 0).
  - rewrite <-(Z.mod_add x 1), (Z.mod_small (x + 1 * _)) by lia.
    destruct (Z.ltb_spec (x + 1 * 4294967296) 2147483648); lia.
  - rewrite Z.mod_small by lia. destruct (Z.ltb_spec x 2147483648); lia.
Qed.

Lemma s32_congr x y : u32 x = u32 y → s32 x = s32 y.
Proof. intros H. unfold s32. by rewrite H. Qed.

(** The comparison of two numbers at given distances from a third. *)
Lemma seq_diff s x y : - 2147483648 <= x - y < 2147483648 → s32 (u32 (s + x) - u32 (s + y)) = x - y.
Proof.
  intros H. rewrite <-(s32_u32 (x - y)) by done. apply s32_congr. unfold u32.
  rewrite Zminus_mod_idemp_l, Zminus_mod_idemp_r, Z.mod_mod by lia. f_equal. lia.
Qed.

Lemma seq_leq s x y :
  - 2147483648 <= x - y < 2147483648 → TCP_SEQ_LEQ (u32 (s + x)) (u32 (s + y)) = (x <=? y).
Proof.
  intros H. unfold TCP_SEQ_LEQ. rewrite seq_diff by done. apply eq_true_iff_eq. rewrite !Z.leb_le. lia.
Qed.

Lemma seq_lt s x y :
  - 2147483648 <= x - y < 2147483648 → TCP_SEQ_LT (u32 (s + x)) (u32 (s + y)) = (x <? y).
Proof.
  intros H. unfold TCP_SEQ_LT. rewrite seq_diff by done. apply eq_true_iff_eq. rewrite !Z.ltb_lt. lia.
Qed.

Lemma u32_add x y : u32 (u32 x + y) = u32 (x + y).
Proof. unfold u32. by rewrite Zplus_mod_idemp_l. Qed.

(** * Queues *)

Definition span (l : list tcp_seg) : Z := foldr (λ seg n, TCP_TCPLEN seg + n) 0 l.

(** What a segment puts in the space of sequence numbers: its bytes, and one
    [None] for a SYN or a FIN. *)
Definition is_ctrl (flags : Z) : bool := has flags TCP_FIN || has flags TCP_SYN.
Definition cells (f : Z) (data : list Z) : list (option Z) :=
  (Some <$> data) ++ (if is_ctrl f then [None] else []).
Definition stream (l : list tcp_seg) : list (option Z) := l ≫= λ seg, cells (sg_flags seg) (sg_data seg).

(** The segments follow each other from sequence number [s] on. *)
Fixpoint chained (s : Z) (l : list tcp_seg) : Prop :=
  match l with
  | [] => True
  | seg :: l' => sg_seqno seg = u32 s ∧ chained (s + TCP_TCPLEN seg) l'
  end.

Definition wf_seg (seg : tcp_seg) : Prop := sg_len seg = Z.of_nat (length (sg_data seg)) ∧ sg_len seg <= TCP_MSS.

Lemma span_app l1 l2 : span (l1 ++ l2) = span l1 + span l2.
Proof. unfold span. induction l1 as [|x l1 IH]; cbn [app foldr]; lia. Qed.

Lemma span_cons x l : span (x :: l) = TCP_TCPLEN x + span l.
Proof. done. Qed.

Lemma stream_app l1 l2 : stream (l1 ++ l2) = stream l1 ++ stream l2.
Proof. apply bind_app. Qed.

Lemma chained_app s l1 l2 : chained s (l1 ++ l2) ↔ chained s l1 ∧ chained (s + span l1) l2.
Proof.
  revert s. induction l1 as [|x l1 IH]; intros s; cbn [app chained].
  - rewrite Z.add_0_r. tauto.
  - rewrite IH, span_cons, Z.add_assoc. tauto.
Qed.

Lemma tcplen_range seg : wf_seg seg → 0 <= TCP_TCPLEN seg <= 257 ∧ sg_len seg <= TCP_TCPLEN seg.
Proof. intros [H1 H2]. unfold TCP_MSS in H2. unfold TCP_TCPLEN. destruct (_ || _); lia. Qed.

Lemma span_nonneg l : Forall wf_seg l → 0 <= span l.
Proof. induction 1 as [|x l Hx _ IH]; [done|]. rewrite span_cons. pose proof (tcplen_range _ Hx). lia. Qed.

(** Flags other than SYN and FIN do not count. *)
Lemma ctrl_lor f g : is_ctrl g = false → is_ctrl (Z.lor f g) = is_ctrl f.
Proof.
  unfold is_ctrl, has. rewrite !Z.land_lor_distr_l.
  intros [H1%negb_false_iff%Z.eqb_eq H2%negb_false_iff%Z.eqb_eq]%orb_false_iff. by rewrite H1, H2, !Z.lor_0_r.
Qed.

Lemma length_cells seg : wf_seg seg → Z.of_nat (length (cells (sg_flags seg) (sg_data seg))) = TCP_TCPLEN seg.
Proof.
  intros [H _]. unfold cells, TCP_TCPLEN. fold (is_ctrl (sg_flags seg)). rewrite length_app, length_fmap.
  destruct (is_ctrl _); cbn; lia.
Qed.

Lemma length_stream l : Forall wf_seg l → Z.of_nat (length (stream l)) = span l.
Proof.
  induction 1 as [|x l Hx _ IH]; [done|]. rewrite span_cons, <-(length_cells x), <-IH by done.
  unfold stream. cbn [mbind list_bind]. rewrite length_app. lia.
Qed.

(** * The state of the sender *)

Definition queued (p : tcp_pcb) : list tcp_seg := unacked p ++ unsent p.

(** [start] is the sequence number of the first queued segment; [a] and [b] say
    how far the peer's acknowledgement and the transmission have come behind it. *)
Record sender_at (start a b : Z) (p : tcp_pcb) : Prop := {
  sd_chained : chained start (queued p);
  sd_segs : Forall wf_seg (queued p);
  sd_lbb : snd_lbb p = u32 (start + span (queued p));
  sd_lastack : lastack p = u32 (start + a);
  sd_max : snd_max p = u32 (start + b);
  sd_range : 0 <= a <= b ∧ b <= span (queued p);
  sd_part : a <= 257;
  sd_buf : 0 <= snd_buf p ∧ snd_buf p + (span (queued p) - a) <= TCP_SND_BUF;
  sd_mss : 0 <= mss p <= TCP_MSS
}.

Definition sender_ok (p : tcp_pcb) : Prop := ∃ start a b, sender_at start a b p.

(** Segments that differ in flags that do not count. *)
Definition sim (x y : tcp_seg) : Prop :=
  sg_seqno x = sg_seqno y ∧ is_ctrl (sg_flags x) = is_ctrl (sg_flags y) ∧ sg_len x = sg_len y ∧
  sg_data x = sg_data y.

Lemma sim_len x y : sim x y → TCP_TCPLEN x = TCP_TCPLEN y.
Proof. intros (_ & E1 & E2 & _). unfold TCP_TCPLEN. unfold is_ctrl in E1. by rewrite E1, E2. Qed.

#[global] Instance sim_refl : Reflexive sim.
Proof. by intros x. Qed.

(** What counts about a queue. *)
Record alike (s : Z) (l l' : list tcp_seg) : Prop := {
  al_chained : chained s l → chained s l';
  al_span : span l' = span l;
  al_stream : stream l' = stream l;
  al_wf : Forall wf_seg l → Forall wf_seg l'
}.

Lemma alike_refl s l : alike s l l.
Proof. by split. Qed.

Lemma alike_trans s l1 l2 l3 : alike s l1 l2 → alike s l2 l3 → alike s l1 l3.
Proof. intros [A1 A2 A3 A4] [B1 B2 B3 B4]. split; [tauto|congruence|congruence|tauto]. Qed.

Lemma sim_alike s l l' : Forall2 sim l l' → alike s l l'.
Proof.
  intros H. revert s. induction H as [|x y l l' Hs _ IH]; intros s; [apply alike_refl|].
  pose proof (sim_len _ _ Hs) as E2. destruct Hs as (E1 & E0 & E3 & E4).
  destruct (IH (s + TCP_TCPLEN x)) as [A1 A2 A3 A4]. split.
  - intros [C1 C2]. split; [congruence|]. rewrite <-E2. by apply A1.
  - by rewrite !span_cons, A2, E2.
  - change (cells (sg_flags y) (sg_data y) ++ stream l' = cells (sg_flags x) (sg_data x) ++ stream l).
    unfold cells. by rewrite A3, E4, E0.
  - intros [C1 C2]%List.Forall_cons_iff. apply List.Forall_cons_iff. split; [|by apply A4].
    destruct C1 as [D1 D2]. split; congruence.
Qed.

Lemma alike_app s l1 l1' l2 l2' :
  alike s l1 l1' → alike (s + span l1) l2 l2' → alike s (l1 ++ l2) (l1' ++ l2').
Proof.
  intros [A1 A2 A3 A4] [B1 B2 B3 B4]. split.
  - rewrite !chained_app, A2. tauto.
  - rewrite !span_app. lia.
  - by rewrite !stream_app, A3, B3.
  - rewrite !Forall_app. tauto.
Qed.

(** A segment without length can go. *)
Lemma alike_empty s x l : TCP_TCPLEN x = 0 → wf_seg x → alike s (x :: l) l.
Proof.
  intros H0 Hw. assert (cells (sg_flags x) (sg_data x) = []) as Hd.
  { apply length_zero_iff_nil. pose proof (length_cells _ Hw). lia. }
  split.
  - intros [_ Hc]. by rewrite H0, Z.add_0_r in Hc.
  - rewrite span_cons. lia.
  - change (stream l = cells (sg_flags x) (sg_data x) ++ stream l). by rewrite Hd.
  - by intros [_ ?]%List.Forall_cons_iff.
Qed.

Lemma push_last_sim l : Forall2 sim l (push_last l).
Proof.
  induction l as [|x l IH]; [constructor|]. destruct l as [|y l].
  - cbn. destruct (0 <? sg_len x); repeat constructor. cbn. by rewrite ctrl_lor.
  - constructor; [done|exact IH].
Qed.

(** ** The new segments of [tcp_enqueue] *)

Lemma tcplen_plain seg :
  has (sg_flags seg) TCP_FIN = false → has (sg_flags seg) TCP_SYN = false → TCP_TCPLEN seg = sg_len seg.
Proof. intros H1 H2. unfold TCP_TCPLEN. rewrite H1, H2. cbn. lia. Qed.

Lemma enqueue_loop_data fuel m f copy opts left s ql queue mems q ql' mems' :
  has f TCP_FIN = false → has f TCP_SYN = false → 0 <= m <= TCP_MSS →
  enqueue_loop fuel m f copy opts left (u32 s) ql queue mems = (Some (q, ql'), mems') →
  ∃ new, q = queue ++ new ∧ chained s new ∧ span new = Z.of_nat (length left) ∧ stream new = Some <$> left ∧
    Forall wf_seg new ∧ Forall (λ x, sg_flags x = f) new.
Proof.
  intros Hfin Hsyn Hm. revert left s ql queue mems. induction fuel as [|fuel IH]; [done|].
  intros left s ql queue mems. cbn [enqueue_loop]. set (seglen := if m <? Z.of_nat (length left) then m else _).
  assert (0 <= seglen <= Z.of_nat (length left) ∧ seglen <= TCP_MSS) as Hseg
    by (subst seglen; unfold TCP_MSS in *; destruct (Z.ltb_spec m (Z.of_nat (length left))); lia).
  assert (queue ≠ [] ∧ left = [] ∨
    ∀ A (x y : A), match queue, left with _ :: _, [] => x | _, _ => y end = y) as [[Hq ->]|Hcase].
  { destruct queue, left; [by right..|by left|by right]. }
  { destruct queue as [|x queue]; [done|]. intros [= <- <- <-]. exists []. by rewrite app_nil_r. }
  rewrite Hcase. destruct (alloc mems) as [[|] mems1]; cbn [negb]; [|done].
  destruct (alloc_bufs _ mems1) as [[clen|] mems2]; [|done].
  destruct (TCP_SND_QUEUELEN <? u8 (ql + clen)); [done|]. rewrite u32_add. intros H.
  set (x := Seg (u32 s) seglen f (default [] opts) (take (Z.to_nat seglen) left) clen) in *.
  apply IH in H as (new & -> & Hc & Hs & Hst & Hwf & Hfl).
  assert (TCP_TCPLEN x = seglen) as Hx by (by apply tcplen_plain).
  exists (x :: new). rewrite <-app_assoc. split_and!; [done| | | | |].
  - split; [done|]. by rewrite Hx.
  - rewrite span_cons, Hx, Hs, length_drop. lia.
  - change (cells f (take (Z.to_nat seglen) left) ++ stream new = Some <$> left).
    unfold cells, is_ctrl. by rewrite Hst, Hfin, Hsyn, app_nil_r, <-fmap_app, take_drop.
  - constructor; [|done]. split; cbn; [rewrite length_take|]; lia.
  - by constructor.
Qed.

Lemma enqueue_loop_ctrl fuel m f copy opts s ql mems q ql' mems' :
  is_ctrl f = true → 0 <= m →
  enqueue_loop fuel m f copy opts [] (u32 s) ql [] mems = (Some (q, ql'), mems') →
  chained s q ∧ span q = 1 ∧ stream q = [None] ∧ Forall wf_seg q ∧ Forall (λ x, sg_flags x = f) q.
Proof.
  intros Hf Hm. destruct fuel as [|fuel]; [done|]. cbn [enqueue_loop length].
  rewrite (proj2 (Z.ltb_ge m (Z.of_nat 0))) by lia.
  destruct (alloc mems) as [[|] mems1]; cbn [negb]; [|done].
  destruct (alloc_bufs _ mems1) as [[clen|] mems2]; [|done].
  destruct (TCP_SND_QUEUELEN <? u8 (ql + clen)); [done|]. destruct fuel as [|fuel]; [done|].
  cbn [enqueue_loop app drop]. intros [= <- <- <-].
  split_and!; [done| | |by repeat constructor|by repeat constructor].
  - rewrite span_cons. unfold TCP_TCPLEN. cbn. unfold is_ctrl in Hf. by rewrite Hf.
  - unfold stream, cells. cbn. by rewrite Hf.
Qed.

Lemma has_either f a b : has f (Z.lor a b) = false → has f a = false ∧ has f b = false.
Proof.
  unfold has. rewrite Z.land_lor_distr_r, !negb_false_iff, !Z.eqb_eq. intros H%Z.lor_eq_0_iff. done.
Qed.

Lemma chain_seg_alike s m f x y :
  can_chain m f x y = true → m <= TCP_MSS → sg_flags y = f → wf_seg x → wf_seg y →
  alike s [x; y] [chain_seg x y].
Proof.
  intros Hc Hm <- [X1 X2] [Y1 Y2]. unfold can_chain in Hc. unfold TCP_MSS in Hm.
  apply andb_true_iff in Hc as [Hc Hlen%Z.leb_le]. apply andb_true_iff in Hc as [Hc Hy%negb_true_iff].
  apply andb_true_iff in Hc as [_ Hx%negb_true_iff].
  apply has_either in Hx as [Hx1 Hx2]. apply has_either in Hy as [Hy1 Hy2].
  assert (sg_len (chain_seg x y) = sg_len x + sg_len y) as E by (apply u16_small; unfold is_u16; lia).
  assert (TCP_TCPLEN (chain_seg x y) = sg_len x + sg_len y) as Ec by (by rewrite tcplen_plain).
  split.
  - intros (H1 & _). by split.
  - rewrite !span_cons, Ec, !tcplen_plain by done. change (span []) with 0. lia.
  - unfold stream, cells, is_ctrl. cbn. rewrite Hx1, Hx2, Hy1, Hy2. cbn. by rewrite !app_nil_r, fmap_app.
  - intros _. repeat constructor; rewrite E; [|unfold TCP_MSS; lia]. cbn. rewrite length_app. lia.
Qed.

Lemma join_queue_alike s m f us q :
  m <= TCP_MSS → Forall wf_seg us → Forall wf_seg q → Forall (λ x, sg_flags x = f) q →
  alike s (us ++ q) (join_queue m f us q).
Proof.
  intros Hm Hus Hq Hf. revert s. induction Hus as [|x us Hx Hus IH]; intros s.
  - apply sim_alike, push_last_sim.
  - destruct us as [|y us].
    + cbn [join_queue app]. destruct q as [|y q]; [apply alike_refl|].
      inversion_clear Hq as [|? ? Hy Hq']. inversion_clear Hf as [|? ? Hfy _].
      destruct (can_chain m f x y) eqn:E.
      * apply (alike_app s [x; y] [chain_seg x y] q (push_last q)); [by eapply chain_seg_alike|].
        apply sim_alike, push_last_sim.
      * apply sim_alike. constructor; [done|]. apply push_last_sim.
    + apply (alike_app s [x] [x] ((y :: us) ++ q) (join_queue m f (y :: us) q)); [apply alike_refl|apply IH].
Qed.

(** ** Writing *)

(** The blocks that differ in fields that the queues do not depend on. *)
Lemma sender_at_same start a b p p' :
  sender_at start a b p → queued p' = queued p → snd_lbb p' = snd_lbb p → lastack p' = lastack p →
  snd_max p' = snd_max p → snd_buf p' = snd_buf p → 0 <= mss p' <= TCP_MSS → sender_at start a b p'.
Proof.
  intros [H1 H2 H3 H4 H5 H6 H7 H8 H9] Q E1 E2 E3 E4 E5. split; rewrite ?Q, ?E1, ?E2, ?E3, ?E4; done.
Qed.

(** New segments at the end of the queues. *)
Lemma sender_at_append start a b p p' q n :
  sender_at start a b p → alike start (queued p ++ q) (queued p') →
  chained (start + span (queued p)) q → Forall wf_seg q → span q = n → 0 <= n <= snd_buf p →
  snd_lbb p' = u32 (snd_lbb p + n) → lastack p' = lastack p → snd_max p' = snd_max p →
  snd_buf p' = snd_buf p - n → mss p' = mss p → sender_at start a b p'.
Proof.
  intros [H1 H2 H3 H4 H5 H6 H7 H8 H9] [A1 A2 A3 A4] Hc Hw Hn Hr E1 E2 E3 E4 E5.
  rewrite span_app, Hn in A2. split; rewrite ?A2, ?E2, ?E3, ?E5; try done.
  - apply A1, chained_app. done.
  - apply A4, Forall_app. done.
  - rewrite E1, H3, u32_add. f_equal. lia.
  - lia.
  - lia.
Qed.

Lemma tcp_enqueue_ok start a b p data f copy opts mems e p' mems' :
  sender_at start a b p →
  is_ctrl f = false ∨ data = [] ∧ 0 < snd_buf p →
  tcp_enqueue data f copy opts p mems = (e, p', mems') →
  sender_at start a b p' ∧
  (e = ERR_OK ∧ stream (queued p') = stream (queued p) ++ cells f data ∨ e = ERR_MEM ∧ p' = p).
Proof.
  intros Hp Hf. unfold tcp_enqueue. destruct (Z.ltb_spec (snd_buf p) (Z.of_nat (length data))) as [|Hroom].
  { intros [= <- <- <-]. split; [done|by right]. }
  destruct (TCP_SND_QUEUELEN <=? snd_queuelen p). { intros [= <- <- <-]. split; [done|by right]. }
  destruct (enqueue_loop _ _ _ _ _ _ _ _ _ _) as [[[q ql]|] mems1] eqn:E;
    [|intros [= <- <- <-]; split; [done|by right]].
  pose proof Hp as [H1 H2 H3 H4 H5 H6 H7 H8 H9]. unfold TCP_SND_BUF, TCP_MSS in *.
  set (n := if has f TCP_SYN || has f TCP_FIN then u16 (Z.of_nat (length data) + 1) else Z.of_nat (length data)).
  assert (chained (start + span (queued p)) q ∧ span q = n ∧ stream q = cells f data ∧ Forall wf_seg q ∧
    Forall (λ x, sg_flags x = f) q ∧ 0 <= n <= snd_buf p) as (Q1 & Q2 & Q3 & Q4 & Q5 & Q6).
  { rewrite H3 in E. pose proof (span_nonneg _ H2). unfold cells. destruct (is_ctrl f) eqn:F.
    - destruct Hf as [|[-> Hroom']]; [done|]. apply enqueue_loop_ctrl in E; [|done|lia]. subst n.
      unfold is_ctrl in F. rewrite orb_comm, F.
      change (u16 (Z.of_nat (length (A := Z) []) + 1)) with 1. split_and!; try tauto; lia.
    - apply orb_false_iff in F as [F1 F2]. apply enqueue_loop_data in E as (new & -> & ?); [|done|done|done].
      subst n. rewrite F1, F2, app_nil_r. cbn [orb app]. split_and!; try tauto; lia. }
  pose proof (Forall_app wf_seg (unacked p) (unsent p)) as Happ. apply Happ in H2 as [_ Hus].
  intros [= <- <- <-].
  match goal with |- sender_at _ _ _ ?x ∧ _ => set (p1 := x) end.
  assert (alike start (queued p ++ q) (queued p1)) as Hal.
  { unfold queued. rewrite <-app_assoc. apply alike_app; [apply alike_refl|].
    apply join_queue_alike; [unfold TCP_MSS; lia|done|done|done]. }
  split; [|left; split; [done|]; rewrite (al_stream _ _ _ Hal), stream_app, Q3; done].
  eapply (sender_at_append start a b p p1 q n); try done. cbn. apply u16_small. unfold is_u16. lia.
Qed.

Lemma tcp_write_ok start a b p data copy mems e p' mems' :
  sender_at start a b p → tcp_write data copy p mems = (e, p', mems') →
  sender_at start a b p' ∧
  (e = ERR_OK ∧ stream (queued p') = stream (queued p) ++ (Some <$> data) ∨ e ≠ ERR_OK ∧ p' = p).
Proof.
  intros Hp H. unfold tcp_write in H.
  assert ((e, p', mems') = (ERR_CONN, p, mems) ∨ data = [] ∧ (e, p', mems') = (ERR_OK, p, mems) ∨
    tcp_enqueue data 0 copy None p mems = (e, p', mems')) as [[= -> -> ->]|[[-> [= -> -> ->]]|H']]
    by (destruct (state p), data; auto).
  - split; [done|by right].
  - split; [done|]. left. by rewrite app_nil_r.
  - destruct (tcp_enqueue_ok _ _ _ _ data 0 _ _ _ _ _ _ Hp (or_introl eq_refl) H') as [Hp' [[-> Hst]|[-> ->]]];
      (split; [done|]); [left|by right]. unfold cells in Hst. by rewrite app_nil_r in Hst.
Qed.

(** ** Sending *)

(** The fields that the queues depend on. *)
Definition same_send (p p' : tcp_pcb) : Prop :=
  unacked p' = unacked p ∧ unsent p' = unsent p ∧ snd_lbb p' = snd_lbb p ∧ lastack p' = lastack p ∧
  snd_max p' = snd_max p ∧ snd_buf p' = snd_buf p ∧ mss p' = mss p.

Lemma same_send_at start a b p p' : same_send p p' → sender_at start a b p → sender_at start a b p'.
Proof.
  intros (E1 & E2 & E3 & E4 & E5 & E6 & E7) H. eapply sender_at_same; [done|..]; try done.
  - unfold queued. congruence.
  - rewrite E7. apply H.
Qed.

Lemma same_send_trans p1 p2 p3 : same_send p1 p2 → same_send p2 p3 → same_send p1 p3.
Proof. unfold same_send. intuition congruence. Qed.

Lemma output_segment_inv route ticks seg p p' out :
  tcp_output_segment route ticks seg p = Some (p', out) →
  same_send p p' ∧ o_seqno out = sg_seqno seg ∧ o_data out = sg_data seg.
Proof.
  unfold tcp_output_segment. destruct (local_ip p =? 0).
  - destruct (route (remote_ip p) =? 0); [done|]. cbn. destruct (rttest p =? 0); by intros [= <- <-].
  - cbn. destruct (rttest p =? 0); by intros [= <- <-].
Qed.

Lemma span_bound start a b p : sender_at start a b p → 0 <= span (queued p) <= 513.
Proof.
  intros [_ H2 _ _ _ H6 H7 H8 _]. pose proof (span_nonneg _ H2). unfold TCP_SND_BUF in *. lia.
Qed.

(** One segment goes from the unsent queue to the end of the other. *)
Lemma sender_at_sent start a b p seg seg' rest p' :
  sender_at start a b p → unsent p = seg :: rest → sim seg seg' →
  unsent p' = rest → unacked p' = (if 0 <? TCP_TCPLEN seg' then unacked p ++ [seg'] else unacked p) →
  snd_lbb p' = snd_lbb p → lastack p' = lastack p → snd_buf p' = snd_buf p → mss p' = mss p →
  snd_max p' = (let nxt := u32 (sg_seqno seg' + TCP_TCPLEN seg') in
                if TCP_SEQ_LT (snd_max p) nxt then nxt else snd_max p) →
  ∃ b', sender_at start a b' p' ∧ stream (queued p') = stream (queued p).
Proof.
  intros Hp Hus Hsim U1 U2 E1 E2 E3 E4 E5.
  pose proof (sim_len _ _ Hsim) as S2. destruct Hsim as (S1 & S0 & S3 & S4).
  pose proof (span_bound _ _ _ _ Hp) as Hb. destruct Hp as [H1 H2 H3 H4 H5 H6 H7 H8 H9].
  assert (alike start (queued p) (queued p')) as Hal.
  { unfold queued. rewrite U1, U2, Hus. apply Forall_app in H2 as [_ Hw]. rewrite Hus in Hw.
    apply List.Forall_cons_iff in Hw as [Hw _]. pose proof (tcplen_range _ Hw) as [Hr _].
    destruct (Z.ltb_spec 0 (TCP_TCPLEN seg')) as [Hlt|Hge].
    - rewrite <-app_assoc. apply alike_app; [apply alike_refl|].
      apply sim_alike. constructor; [done|]. induction rest; by constructor.
    - apply alike_app; [apply alike_refl|]. apply alike_empty; [lia|done]. }
  assert (sg_seqno seg = u32 (start + span (unacked p)) ∧
    span (unacked p) + TCP_TCPLEN seg <= span (queued p) ∧ 0 <= span (unacked p)) as (Hs & He & Hu).
  { unfold queued in *. rewrite Hus in *. apply chained_app in H1 as [_ [H1 _]].
    apply Forall_app in H2 as [Hw1 [Hw2 Hw3]%List.Forall_cons_iff].
    rewrite span_app, span_cons. pose proof (span_nonneg _ Hw1). pose proof (span_nonneg _ Hw3).
    split_and!; [done|lia|lia]. }
  pose proof (tcplen_range seg) as Hr. destruct Hal as [A1 A2 A3 A4].
  set (e := span (unacked p) + TCP_TCPLEN seg).
  assert (0 <= e) as He0.
  { unfold queued in H2. rewrite Hus in H2. apply Forall_app in H2 as [_ [Hw2 _]%List.Forall_cons_iff].
    specialize (Hr Hw2). subst e. lia. }
  exists (Z.max b e). split; [|done]. split; rewrite ?A2, ?E1, ?E2, ?E3, ?E4; try done; try (by auto); [|lia].
  rewrite E5, <-S1, <-S2, Hs, u32_add, <-Z.add_assoc, H5. fold e. cbv zeta. rewrite seq_lt by lia.
  destruct (Z.ltb_spec b e); f_equal; f_equal; lia.
Qed.

Lemma record_sent_fields seg p :
  let p' := record_sent seg p in let nxt := u32 (sg_seqno seg + TCP_TCPLEN seg) in
  unsent p' = unsent p ∧ unacked p' = (if 0 <? TCP_TCPLEN seg then unacked p ++ [seg] else unacked p) ∧
  snd_lbb p' = snd_lbb p ∧ lastack p' = lastack p ∧ snd_buf p' = snd_buf p ∧ mss p' = mss p ∧
  snd_max p' = (if TCP_SEQ_LT (snd_max p) nxt then nxt else snd_max p).
Proof.
  unfold record_sent. cbn [snd_nxt snd_max set_snd_nxt].
  destruct (TCP_SEQ_LT _ _), (0 <? TCP_TCPLEN seg); by split_and!.
Qed.

(** What was sent is a segment of the queue, but for segments without data. *)
Definition carries (l : list tcp_seg) (o : tcp_out) : Prop :=
  o_data o = [] ∨ ∃ x, x ∈ l ∧ o_seqno o = sg_seqno x ∧ o_data o = sg_data x.

Lemma carries_mono l l' o : l ⊆ l' → carries l o → carries l' o.
Proof. intros Hl [H|(x & Hx & H)]; [by left|]. right. exists x. split; [by apply Hl|done]. Qed.

Lemma output_loop_ok route ticks wnd segs p outs p' outs' start a b :
  unsent p = segs → sender_at start a b p → output_loop route ticks wnd segs p outs = Some (p', outs') →
  ∃ b' new, sender_at start a b' p' ∧ stream (queued p') = stream (queued p) ∧ lastack p' = lastack p ∧
    outs' = outs ++ new ∧
    Forall (λ o, u32 (o_seqno o - lastack p + Z.of_nat (length (o_data o))) <= wnd) new ∧
    ∃ l, unacked p' = unacked p ++ l ∧ Forall (carries l) new.
Proof.
  revert p outs b. induction segs as [|seg rest IH]; intros p outs b Hus Hp; cbn [output_loop].
  { intros [= <- <-]. exists b, []. rewrite app_nil_r. split_and!; try done. exists []. by rewrite app_nil_r. }
  destruct (Z.leb_spec (u32 (sg_seqno seg - lastack p + sg_len seg)) wnd) as [Hw|Hw].
  2:{ intros [= <- <-]. exists b, []. rewrite app_nil_r. split_and!; try done. exists []. by rewrite app_nil_r. }
  set (p0 := set_unsent rest (set_rtime 0 p)).
  destruct (if decide (state p0 = SYN_SENT) then (seg, p0) else _) as [seg' p1] eqn:E1.
  assert (sim seg seg' ∧ same_send p0 p1) as [Hsim Hp1].
  { destruct (decide (state p0 = SYN_SENT)); injection E1 as <- <-; [done|]. split; [|done].
    split_and!; try done. cbn. by rewrite ctrl_lor. }
  destruct (tcp_output_segment route ticks seg' p1) as [[p2 out]|] eqn:E2; [|done].
  apply output_segment_inv in E2 as (Hp2 & O1 & O2). cbn [mbind option_bind].
  pose proof (same_send_trans _ _ _ Hp1 Hp2) as (Q1 & Q2 & Q3 & Q4 & Q5 & Q6 & Q7). clear E1 Hp1 Hp2.
  intros Hrun. destruct (record_sent_fields seg' p2) as (R1 & R2 & R3 & R4 & R5 & R6 & R7).
  set (p3 := record_sent seg' p2) in *. clearbody p3.
  assert (sg_len seg = Z.of_nat (length (sg_data seg))) as Hlen.
  { pose proof (sd_segs _ _ _ _ Hp) as Hw'. unfold queued in Hw'. rewrite Hus in Hw'.
    by apply Forall_app in Hw' as [_ [[Hl _] _]%List.Forall_cons_iff]. }
  rewrite ?Q1, ?Q2, ?Q3, ?Q4, ?Q5, ?Q6, ?Q7 in *.
  destruct (sender_at_sent start a b p seg seg' rest p3) as (b1 & Hp3 & Hst); try done.
  destruct (IH p3 _ b1 R1 Hp3 Hrun) as (b2 & new & Hp' & Hst' & Hla & -> & Hout & l & Hun & Hcar).
  exists b2, (out :: new). pose proof (sim_len _ _ Hsim) as S0. destruct Hsim as (S1 & _ & S3 & S4).
  split_and!; [done|congruence|by rewrite Hla, R4|by rewrite <-app_assoc| |].
  { rewrite R4 in Hout. constructor; [|exact Hout]. by rewrite O1, O2, <-S1, <-S4, <-Hlen. }
  destruct (Z.ltb_spec 0 (TCP_TCPLEN seg')) as [Hpos|Hzero].
  - exists (seg' :: l). split; [by rewrite Hun, R2, <-app_assoc|]. constructor.
    + right. exists seg'. split; [set_solver|by rewrite O1, O2].
    + eapply Forall_impl; [exact Hcar|]. intros o. apply carries_mono. set_solver.
  - exists l. split; [by rewrite Hun, R2|]. constructor; [|done]. left. rewrite O2, <-S4. apply length_zero_iff_nil.
    unfold TCP_TCPLEN in Hzero. destruct (_ || _); lia.
Qed.

(** Whether a segment that was sent lies inside of a window of the peer. *)
Definition fits (lastack wnd : Z) (o : tcp_out) : Prop :=
  u32 (o_seqno o - lastack + Z.of_nat (length (o_data o))) <= wnd.

Lemma tcp_output_ok route ticks p mems e p' outs mems' start a b :
  sender_at start a b p → tcp_output route ticks p mems = Some (e, p', outs, mems') →
  ∃ b', sender_at start a b' p' ∧ stream (queued p') = stream (queued p) ∧
    Forall (λ o, o_data o = [] ∨ fits (lastack p) (send_window p) o) outs ∧
    Forall (carries (queued p')) outs.
Proof.
  intros Hp. unfold tcp_output. destruct (has (flags p) TF_ACK_NOW).
  - destruct (alloc mems) as [[|] mems1]; cbn [negb]; intros [= <- <- <- <-]; exists b;
      (split; [eapply same_send_at; [|exact Hp]; done|]); (split; [done|]); split; repeat constructor.
  - destruct (output_loop _ _ _ _ _ _) as [[p1 outs1]|] eqn:E; [|done]. cbn. intros [= <- <- <- <-].
    destruct (output_loop_ok _ _ _ _ _ _ _ _ _ _ _ eq_refl Hp E) as (b' & new & H1 & H2 & _ & -> & H3 & l & H4 & H5).
    exists b'. split_and!; [done|done| |].
    + eapply Forall_impl; [exact H3|]. by right.
    + eapply Forall_impl; [exact H5|]. intros o. apply carries_mono. unfold queued. rewrite H4. set_solver.
Qed.

Lemma rexmit_same p seg : same_send p (tcp_rexmit_seg p seg).1.
Proof. unfold tcp_rexmit_seg. by destruct (in_window p seg). Qed.

Lemma rexmit_carries p seg : Forall (carries [seg]) (tcp_rexmit_seg p seg).2.
Proof.
  unfold tcp_rexmit_seg. destruct (in_window p seg); [|constructor]. apply Forall_singleton. right.
  exists seg. by split; [set_solver|].
Qed.

Lemma rexmit_fits p seg :
  wf_seg seg → Forall (fits (lastack p) (send_window p)) (tcp_rexmit_seg p seg).2.
Proof.
  intros [Hl _]. unfold tcp_rexmit_seg, in_window. destruct (Z.leb_spec (u32 (sg_seqno seg - lastack p + sg_len seg)) (send_window p));
    repeat constructor. unfold fits. cbn. by rewrite <-Hl.
Qed.

(** ** The retransmission timer *)

Lemma retransmit_ok p p' outs start a b :
  sender_at start a b p → retransmit p = Some (p', outs) →
  sender_at start a b p' ∧ queued p' = queued p ∧ Forall (carries (queued p')) outs.
Proof.
  intros Hp. unfold retransmit. set (p0 := set_rtime _ p).
  destruct (unacked p0) as [|seg rest] eqn:Eu.
  { intros [= <- <-]. split_and!; [eapply same_send_at; [|exact Hp]; done|done|constructor]. }
  destruct (rto p0 <=? rtime p0).
  2:{ intros [= <- <-]. split_and!; [eapply same_send_at; [|exact Hp]; done|done|constructor]. }
  destruct (if decide (state p0 = SYN_SENT) then Some p0 else _) as [p1|] eqn:E1; [|done].
  assert (same_send p0 p1) as Hp1.
  { destruct (decide _); [by injection E1 as <-|]. destruct (backed_off p0); [|done]. by injection E1 as <-. }
  cbn [mbind option_bind].
  match goal with |- context [tcp_rexmit_seg ?x seg] => set (p2 := x) end.
  assert (queued p2 = queued p ∧ snd_lbb p2 = snd_lbb p ∧ lastack p2 = lastack p ∧ snd_max p2 = snd_max p ∧
    snd_buf p2 = snd_buf p ∧ mss p2 = mss p) as (Q0 & Q1 & Q2 & Q3 & Q4 & Q5).
  { destruct Hp1 as (S1 & S2 & S3 & S4 & S5 & S6 & S7). subst p2. unfold queued.
    destruct rest as [|x rest]; cbn; rewrite ?S1, ?S2, ?S3, ?S4, ?S5, ?S6, ?S7; split_and!; try done.
    change (unacked p) with (unacked p0). by rewrite Eu. }
  pose proof (rexmit_same p2 seg) as Hr. pose proof (rexmit_carries p2 seg) as Hcar.
  destruct (tcp_rexmit_seg p2 seg) as [p3 outs3]. cbn in Hr, Hcar.
  destruct Hr as (R1 & R2 & R3 & R4 & R5 & R6 & R7). intros [= <- <-].
  match goal with |- sender_at _ _ _ (set_cwnd _ ?x) ∧ _ ∧ _ => assert (same_send p3 x) as (T1 & T2 & T3 & T4 & T5 & T6 & T7) end.
  { by destruct (_ <? _). }
  assert (∀ c y, queued (set_cwnd c y) = queued y) as Hq by done. rewrite Hq.
  match goal with |- _ ∧ queued ?x = _ ∧ _ => set (p4 := x) in *; clearbody p4 end.
  assert (queued p4 = queued p) as Hq4 by (rewrite <-Q0; unfold queued; congruence).
  split_and!; [|done|].
  - eapply sender_at_same; [exact Hp|done|cbn; congruence..|]. cbn. rewrite T7, R7, Q5. apply Hp.
  - rewrite Hq4. eapply Forall_impl; [exact Hcar|]. intros o. apply carries_mono. unfold queued.
    change (unacked p) with (unacked p0). rewrite Eu. set_solver.
Qed.

(** ** Acknowledgements *)

(** What an acknowledgement leaves on a queue. *)
Fixpoint rest_after (ackno : Z) (l : list tcp_seg) : list tcp_seg :=
  match l with
  | [] => []
  | seg :: l' => if TCP_SEQ_LEQ (u32 (sg_seqno seg + TCP_TCPLEN seg)) ackno then rest_after ackno l' else l
  end.

(** The fields of a block but for its queues. *)
Definition same_rest (p p' : tcp_pcb) : Prop :=
  snd_lbb p' = snd_lbb p ∧ lastack p' = lastack p ∧ snd_max p' = snd_max p ∧ snd_buf p' = snd_buf p ∧
  mss p' = mss p.

Lemma drop_unsent_rest ackno l p :
  unsent p = l → let p' := drop_unsent ackno l p in
  unsent p' = rest_after ackno l ∧ unacked p' = unacked p ∧ same_rest p p'.
Proof.
  revert p. induction l as [|seg l IH]; intros p Hl; cbn [drop_unsent rest_after]; [done|].
  destruct (TCP_SEQ_LEQ _ _); [|done].
  match goal with |- context [drop_unsent ackno l ?x] => set (p1 := x) end.
  assert (unsent p1 = l ∧ unacked p1 = unacked p ∧ same_rest p p1) as (E1 & E2 & E3) by (subst p1; by destruct l).
  destruct (IH p1 E1) as (H1 & H2 & H3). split_and!; [done|congruence|].
  unfold same_rest in *. intuition congruence.
Qed.

Lemma drop_unacked_rest ackno l p :
  unacked p = l → let p' := drop_unacked ackno l p in
  unacked p' = rest_after ackno l ∧ unsent p' = unsent p ∧ same_rest p p'.
Proof.
  revert p. induction l as [|seg l IH]; intros p Hl; cbn [drop_unacked rest_after]; [done|].
  destruct (TCP_SEQ_LEQ _ _); [|done].
  match goal with |- context [drop_unacked ackno l ?x] => set (p1 := x) end.
  destruct (IH p1 eq_refl) as (H1 & H2 & H3). done.
Qed.

(** An acknowledgement [x] numbers behind the start of a queue takes the
    segments off that end there. *)
Lemma rest_after_split s x l :
  chained s l → Forall wf_seg l → -1000 <= x <= 1000 → span l <= 1000 →
  ∃ d, l = d ++ rest_after (u32 (s + x)) l ∧ (d = [] ∨ span d <= x) ∧
    match rest_after (u32 (s + x)) l with [] => True | h :: _ => x < span d + TCP_TCPLEN h end.
Proof.
  intros Hc Hw. revert s x Hc. induction Hw as [|seg l Hseg Hw IH]; intros s x Hc Hx Hs; [by exists []; auto|].
  destruct Hc as [Hno Hc]. rewrite span_cons in Hs. cbn [rest_after].
  pose proof (tcplen_range _ Hseg) as [Hr _]. pose proof (span_nonneg _ Hw).
  rewrite Hno, u32_add, seq_leq by lia. destruct (Z.leb_spec (TCP_TCPLEN seg) x) as [Hle|Hlt].
  - destruct (IH (s + TCP_TCPLEN seg) (x - TCP_TCPLEN seg)) as (d & E & Hd & Hm); [done|lia|lia|].
    replace (s + TCP_TCPLEN seg + (x - TCP_TCPLEN seg)) with (s + x) in * by lia.
    exists (seg :: d). rewrite span_cons. split_and!; [cbn; congruence| |].
    + right. destruct Hd as [->|Hd]; [change (span []) with 0|]; lia.
    + destruct (rest_after _ l); [done|lia].
  - exists []. split_and!; [done|by left|]. change (span []) with 0. lia.
Qed.

(** The two queues together lose a front part. *)
Lemma rest_after_queues s x us ns :
  chained s (us ++ ns) → Forall wf_seg (us ++ ns) → 0 <= x <= span (us ++ ns) → span (us ++ ns) <= 1000 →
  ∃ d, us ++ ns = d ++ rest_after (u32 (s + x)) us ++ rest_after (u32 (s + x)) ns ∧
    0 <= x - span d <= 257.
Proof.
  intros [Hc1 Hc2]%chained_app [Hw1 Hw2]%Forall_app. rewrite span_app. intros Hx Hs.
  pose proof (span_nonneg _ Hw1). pose proof (span_nonneg _ Hw2).
  destruct (rest_after_split s x us) as (d1 & E1 & D1 & M1); [done|done|lia|lia|].
  destruct (rest_after_split (s + span us) (x - span us) ns) as (d2 & E2 & D2 & M2); [done|done|lia|lia|].
  replace (s + span us + (x - span us)) with (s + x) in * by lia.
  set (r1 := rest_after _ us) in *. set (r2 := rest_after _ ns) in *. clearbody r1 r2. subst us ns.
  rewrite !span_app in *. apply Forall_app in Hw1 as [Wd1 Wr1]. apply Forall_app in Hw2 as [Wd2 Wr2].
  pose proof (span_nonneg _ Wr1). pose proof (span_nonneg _ Wr2). pose proof (span_nonneg _ Wd2).
  pose proof (span_nonneg _ Wd1).
  assert (∀ h r, Forall wf_seg (h :: r) → TCP_TCPLEN h <= 257 ∧ TCP_TCPLEN h <= span (h :: r)) as Hh.
  { intros h r [Wh Wr]%List.Forall_cons_iff. pose proof (tcplen_range _ Wh). pose proof (span_nonneg _ Wr).
    rewrite span_cons. lia. }
  assert (span d1 <= x) as D1' by (destruct D1 as [->|]; [change (span []) with 0; lia|lia]).
  destruct D2 as [->|D2].
  - exists d1. cbn [app]. split; [by rewrite app_assoc|]. change (span []) with 0 in *.
    destruct r1 as [|h1 r1]; [|pose proof (Hh _ _ Wr1); lia]. change (span []) with 0 in *.
    destruct r2 as [|h2 r2]; [change (span []) with 0 in *; lia|pose proof (Hh _ _ Wr2); lia].
  - destruct r1 as [|h1 r1]; [|pose proof (Hh _ _ Wr1); lia]. change (span []) with 0 in *.
    exists (d1 ++ d2). rewrite span_app. split; [by rewrite app_nil_r, <-app_assoc|].
    destruct r2 as [|h2 r2]; [change (span []) with 0 in *; lia|pose proof (Hh _ _ Wr2); lia].
Qed.

(** The difference of two sequence numbers in 16 bits. *)
Lemma u16_seq_diff s x y : 0 <= x - y < 65536 → u16 (u32 (s + x) - u32 (s + y)) = x - y.
Proof.
  intros H. unfold u16, u32. rewrite (Z.mod_eq (s + x) 4294967296), (Z.mod_eq (s + y) 4294967296) by lia.
  replace (s + x - 4294967296 * ((s + x) / 4294967296) - (s + y - 4294967296 * ((s + y) / 4294967296)))
    with (x - y + ((s + y) / 4294967296 - (s + x) / 4294967296) * 65536 * 65536) by lia.
  rewrite Z.mod_add by lia. by apply Z.mod_small.
Qed.

Lemma inflate_same n p : same_send p (inflate n p).
Proof. unfold inflate. by destruct (_ <? _). Qed.

Lemma grow_window_same p p' : grow_window p = Some p' → same_send p p'.
Proof.
  unfold grow_window. destruct (4 <=? _); [|by intros [= <-]]. destruct (cwnd p <? ssthresh p).
  - intros [= <-]. apply inflate_same.
  - destruct (cwnd p =? 0); [done|]. intros [= <-]. apply inflate_same.
Qed.

Lemma new_ack_ok start a b x p p' :
  sender_at start a b p → a < x <= b → new_ack (u32 (start + x)) p = Some p' →
  ∃ d, queued p = d ++ queued p' ∧ sender_at (start + span d) (x - span d) (b - span d) p' ∧
    lastack p' = u32 (start + x).
Proof.
  intros Hp Hx. unfold new_ack. pose proof (span_bound _ _ _ _ Hp) as Hb.
  destruct Hp as [H1 H2 H3 H4 H5 H6 H7 H8 H9].
  set (p1 := if has (flags p) TF_INFR then _ else p).
  assert (same_send p p1) as (S1 & S2 & S3 & S4 & S5 & S6 & S7) by (subst p1; by destruct (has _ _)).
  clearbody p1. cbn [lastack snd_buf acked set_rto set_nrtx set_acked]. rewrite S4, H4, u16_seq_diff by lia.
  match goal with |- context [grow_window ?y] => set (p2 := y) end.
  assert (unacked p2 = unacked p ∧ unsent p2 = unsent p ∧ snd_lbb p2 = snd_lbb p ∧ lastack p2 = u32 (start + x) ∧
    snd_max p2 = snd_max p ∧ snd_buf p2 = u16 (snd_buf p + (x - a)) ∧ mss p2 = mss p)
    as (E1 & E2 & E3 & E4 & E5 & E6 & E7) by (subst p2; cbn; by rewrite ?S1, ?S2, ?S3, ?S5, ?S6, ?S7).
  clearbody p2. clear S1 S2 S3 S4 S5 S6 S7.
  destruct (grow_window p2) as [p3|] eqn:G; [|done]. cbn [mbind option_bind].
  apply grow_window_same in G as (G1 & G2 & G3 & G4 & G5 & G6 & G7).
  destruct (drop_unsent_rest (u32 (start + x)) (unsent p3) p3 eq_refl) as (D1 & D2 & D3 & D4 & D5 & D6 & D7).
  set (p4 := drop_unsent _ _ p3) in *. clearbody p4.
  destruct (drop_unacked_rest (u32 (start + x)) (unacked p4) p4 eq_refl) as (F1 & F2 & F3 & F4 & F5 & F6 & F7).
  set (p5 := drop_unacked _ _ p4) in *. clearbody p5. intros [= <-].
  destruct (rest_after_queues start x (unacked p) (unsent p)) as (d & Hd & Ha); [done|done|unfold queued in *; lia..|].
  assert (queued p = d ++ queued (set_polltmr 0 p5)) as Hq.
  { unfold queued. cbn. rewrite F1, F2, D1, D2, G1, G2, E1, E2. exact Hd. }
  assert (span (queued p) = span d + span (queued (set_polltmr 0 p5))) as Hspan by (by rewrite Hq, span_app).
  exists d. split_and!; [done| |cbn; congruence]. rewrite Hq in H1, H2.
  apply chained_app in H1 as [_ H1]. apply Forall_app in H2 as [_ H2]. unfold TCP_SND_BUF in *.
  assert (∀ y, start + span d + (y - span d) = start + y) as Hsum by lia.
  split; cbn [snd_lbb lastack snd_max snd_buf mss set_polltmr]; rewrite ?Hsum; try done.
  - rewrite F3, D3, G3, E3, H3, Hspan. f_equal. lia.
  - congruence.
  - congruence.
  - lia.
  - lia.
  - rewrite F6, D6, G6, E6, u16_small by (unfold is_u16; lia). unfold TCP_SND_BUF. lia.
  - rewrite F7, D7, G7, E7. done.
Qed.

Lemma update_window_same seqno ackno wnd p : same_send p (update_window seqno ackno wnd p).
Proof. unfold update_window. by destruct (_ || _). Qed.

Lemma estimate_rtt_same ticks ackno p : same_send p (estimate_rtt ticks ackno p).
Proof. unfold estimate_rtt. by destruct (_ && _). Qed.

Lemma duplicate_ack_same p : same_send p (duplicate_ack p).1.
Proof.
  unfold duplicate_ack. set (p0 := set_dupacks _ p). destruct (unacked p0) as [|seg rest]; [done|].
  destruct (3 <=? dupacks p0); [|done]. destruct (negb _).
  - pose proof (rexmit_same p0 seg) as H. destruct (tcp_rexmit_seg p0 seg) as [p1 outs]. cbn in *. exact H.
  - cbn. apply (inflate_same (mss p0) p0).
Qed.

Lemma duplicate_ack_carries p : Forall (carries (queued p)) (duplicate_ack p).2.
Proof.
  unfold duplicate_ack, queued. set (p0 := set_dupacks _ p). change (unacked p) with (unacked p0).
  destruct (unacked p0) as [|seg rest]; [constructor|].
  destruct (3 <=? dupacks p0); [|constructor]. destruct (negb _); [|constructor].
  pose proof (rexmit_carries p0 seg) as H. destruct (tcp_rexmit_seg p0 seg) as [p1 outs]. cbn in *.
  eapply Forall_impl; [exact H|]. intros o. apply carries_mono. set_solver.
Qed.

(** The acknowledgements that are taken, when there is no wrap-around. *)
Lemma ack_in_range start a b p ackno :
  sender_at start a b p → is_u32 ackno → ackno ≠ u32 (lastack p + 2147483648) →
  TCP_SEQ_LT (lastack p) ackno = true → TCP_SEQ_LEQ ackno (snd_max p) = true →
  ∃ x, a < x <= b ∧ ackno = u32 (start + x).
Proof.
  intros Hp Hu Hne. pose proof (span_bound _ _ _ _ Hp) as Hb. destruct Hp as [_ _ _ H4 H5 H6 _ _ _].
  set (d := u32 (ackno - lastack p)). assert (0 <= d < 4294967296) as Hd by (apply Z.mod_pos_bound; lia).
  assert (ackno = u32 (start + (a + d))) as Ha.
  { replace (start + (a + d)) with (d + (start + a)) by lia. subst d. rewrite u32_add, H4.
    unfold u32. rewrite Z.add_sub_assoc || idtac. rewrite (Z.add_comm (ackno - _)), Zplus_mod, Zminus_mod_idemp_r.
    rewrite <-Zplus_mod. replace (start + a + (ackno - (start + a))) with ackno by lia.
    symmetry. apply Z.mod_small. done. }
  assert (d ≠ 2147483648) as Hne'.
  { intros E. apply Hne. rewrite Ha, E, H4, u32_add. f_equal. lia. }
  destruct (Z_lt_le_dec d 2147483648) as [Hlt|Hge].
  - rewrite Ha, H4, H5, seq_lt, Z.ltb_lt by lia. intros Hpos. rewrite seq_leq, Z.leb_le by lia. intros Hle.
    exists (a + d). split; [lia|done].
  - rewrite H4, Ha. replace (u32 (start + (a + d))) with (u32 (start + (a + d - 4294967296))).
    + rewrite seq_lt, Z.ltb_lt by lia. lia.
    + unfold u32. replace (start + (a + d)) with (start + (a + d - 4294967296) + 1 * 4294967296) by lia.
      by rewrite Z.mod_add by lia.
Qed.

Lemma receive_ack_ok ticks seqno ackno wnd p p' outs start a b :
  sender_at start a b p → is_u32 ackno → ackno ≠ u32 (lastack p + 2147483648) →
  receive_ack ticks seqno ackno wnd p = Some (p', outs) →
  ∃ d x, queued p = d ++ queued p' ∧ sender_at (start + span d) (x - span d) (b - span d) p' ∧
    lastack p' = u32 (start + x) ∧ a <= x ∧ Forall (carries (queued p')) outs.
Proof.
  intros Hp Hu Hne. unfold receive_ack. pose proof (update_window_same seqno ackno wnd p) as Hs.
  set (p1 := update_window seqno ackno wnd p) in *. clearbody p1.
  pose proof (same_send_at _ _ _ _ _ Hs Hp) as Hp1.
  assert (queued p1 = queued p) as Hq by (destruct Hs as (S1 & S2 & _); unfold queued; congruence).
  assert (lastack p1 = lastack p) as Hla by apply Hs. rewrite <-Hq, <-Hla in *. clear Hs Hp Hla Hq p.
  assert (∀ p2 outs2, same_send p1 p2 → Forall (carries (queued p1)) outs2 → ∃ d x, queued p1 = d ++ queued (estimate_rtt ticks ackno p2) ∧
    sender_at (start + span d) (x - span d) (b - span d) (estimate_rtt ticks ackno p2) ∧
    lastack (estimate_rtt ticks ackno p2) = u32 (start + x) ∧ a <= x ∧
    Forall (carries (queued (estimate_rtt ticks ackno p2))) outs2) as Hsame.
  { intros p2 outs2 Hs Hc. pose proof (same_send_trans _ _ _ Hs (estimate_rtt_same ticks ackno p2)) as Ht.
    exists [], a. change (span []) with 0. rewrite Z.add_0_r, !Z.sub_0_r.
    pose proof (same_send_at _ _ _ _ _ Ht Hp1) as Hp2. assert (queued (estimate_rtt ticks ackno p2) = queued p1) as Hq.
    { destruct Ht as (T1 & T2 & _). unfold queued. cbn. congruence. }
    rewrite Hq. split_and!; [done|done|apply Hp2|lia|done]. }
  destruct (lastack p1 =? ackno).
  { pose proof (duplicate_ack_same p1) as Hd. pose proof (duplicate_ack_carries p1) as Hc.
    destruct (duplicate_ack p1) as [p2 outs2]. cbn in *.
    intros [= <- <-]. by apply Hsame. }
  destruct (TCP_SEQ_LT (lastack p1) ackno && TCP_SEQ_LEQ ackno (snd_max p1)) eqn:E.
  2:{ intros [= <- <-]. by apply Hsame. }
  apply andb_true_iff in E as [E1 E2]. destruct (ack_in_range _ _ _ _ _ Hp1 Hu Hne E1 E2) as (x & Hx & ->).
  destruct (new_ack _ p1) as [p2|] eqn:E; [|done]. cbn. intros [= <- <-].
  destruct (new_ack_ok _ _ _ _ _ _ Hp1 Hx E) as (d & Hd & Hp2 & Hla).
  pose proof (estimate_rtt_same ticks (u32 (start + x)) p2) as Ht. exists d, x.
  pose proof (same_send_at _ _ _ _ _ Ht Hp2) as Hp3. destruct Ht as (T1 & T2 & T3 & T4 & _).
  split_and!; [rewrite Hd; unfold queued; congruence|done|congruence|lia|constructor].
Qed.
