(* ===== verification/TcpProps.v ===== *)
(** The TCP sender in any sequence of its operations (files Tcp and TcpSpec): it
    keeps what the application wrote, and each segment on the wire has the
    bytes of its sequence number; and the operations that go wrong. *)

From stdpp Require Import base tactics list numbers sets relations.
From Stdlib Require Import ZArith Lia.
From S2P Require Import Prelude TcpOptions Tcp TcpSpec.

Local Open Scope Z_scope.

(** * Runs of the sender *)

(** A control block with what was put in the space of sequence numbers since
    the block was made and what was sent. *)
Record sending := Sending { sd_pcb : tcp_pcb; sd_all : list (option Z); sd_sent : list tcp_out }.

Definition accepted (e : err) (new : list (option Z)) : list (option Z) :=
  match e with ERR_OK => new | _ => [] end.

(** An acknowledgement may have any sequence number, window and acknowledgement
    number but one ([tcp_far_ack_taken]), and a control segment needs room in
    the send buffer ([tcp_fin_wraps_buffer]).  The other fields change freely. *)
Inductive sender_step (route : Z → Z) : sending → sending → Prop :=
  | step_write p all sent data copy mems e p' mems' :
      tcp_write data copy p mems = (e, p', mems') →
      sender_step route (Sending p all sent) (Sending p' (all ++ accepted e (Some <$> data)) sent)
  | step_ctrl p all sent f copy opts mems e p' mems' :
      0 < snd_buf p → tcp_enqueue [] f copy opts p mems = (e, p', mems') →
      sender_step route (Sending p all sent) (Sending p' (all ++ accepted e (cells f [])) sent)
  | step_output p all sent ticks mems e p' outs mems' :
      tcp_output route ticks p mems = Some (e, p', outs, mems') →
      sender_step route (Sending p all sent) (Sending p' all (sent ++ outs))
  | step_ack p all sent ticks seqno ackno wnd p' outs :
      is_u32 ackno → ackno ≠ u32 (lastack p + 2147483648) →
      receive_ack ticks seqno ackno wnd p = Some (p', outs) →
      sender_step route (Sending p all sent) (Sending p' all (sent ++ outs))
  | step_timer p all sent p' outs :
      retransmit p = Some (p', outs) →
      sender_step route (Sending p all sent) (Sending p' all (sent ++ outs))
  | step_other p all sent p' :
      unacked p' = unacked p → unsent p' = unsent p → snd_lbb p' = snd_lbb p → lastack p' = lastack p →
      snd_max p' = snd_max p → snd_buf p' = snd_buf p → 0 <= mss p' <= TCP_MSS →
      sender_step route (Sending p all sent) (Sending p' all sent).

(** The data of [o] is what [all] has at the sequence number of [o], when [all]
    starts at [iss]. *)
Definition sent_at (iss : Z) (all : list (option Z)) (o : tcp_out) : Prop :=
  o_data o = [] ∨
  ∃ k, o_seqno o = u32 (iss + Z.of_nat k) ∧ Some <$> o_data o = take (length (o_data o)) (drop k all) ∧
    Z.of_nat (length (o_data o)) <= TCP_MSS.

(** What was not yet taken off the queues is the end of [all]. *)
Definition sending_ok (iss : Z) (st : sending) : Prop :=
  ∃ gone a b, sender_at (iss + Z.of_nat (length gone)) a b (sd_pcb st) ∧
    sd_all st = gone ++ stream (queued (sd_pcb st)) ∧ Forall (sent_at iss (sd_all st)) (sd_sent st).

Lemma sent_at_app iss all new o : sent_at iss all o → sent_at iss (all ++ new) o.
Proof.
  intros [H|(k & H1 & H2 & H3)]; [by left|]. right. exists k. split_and!; [done| |done]. rewrite H2.
  apply (f_equal length) in H2. rewrite length_fmap, length_take, length_drop in H2.
  destruct (o_data o) as [|y l] eqn:E; [done|]. cbn [length] in H2 |- *.
  rewrite drop_app_le, take_app_le; [done|rewrite length_drop; lia|lia].
Qed.

Lemma carries_sent_at iss gone l o :
  chained (iss + Z.of_nat (length gone)) l → Forall wf_seg l → carries l o → sent_at iss (gone ++ stream l) o.
Proof.
  intros Hc Hw [H|(x & (l1 & l2 & ->)%list_elem_of_split & E1 & E2)]; [by left|]. right.
  apply chained_app in Hc as [_ [Hx _]]. apply Forall_app in Hw as [Hw Hx0].
  apply List.Forall_cons_iff in Hx0 as [[Hl1 Hl2] _].
  exists (length gone + length (stream l1))%nat. split_and!; [| |rewrite E2; lia].
  - rewrite E1, Hx. f_equal. rewrite <-(length_stream l1) by done. lia.
  - rewrite stream_app, app_assoc, <-length_app, drop_app_length.
    change (stream (x :: l2)) with (((Some <$> sg_data x) ++ (if is_ctrl (sg_flags x) then [None] else [])) ++ stream l2).
    rewrite E2, <-app_assoc, take_app_le by (by rewrite length_fmap).
    rewrite take_ge; [done|by rewrite length_fmap].
Qed.

Lemma sending_grows iss p all sent p' new gone a b :
  Forall (sent_at iss all) sent → all = gone ++ stream (queued p) →
  sender_at (iss + Z.of_nat (length gone)) a b p' → stream (queued p') = stream (queued p) ++ new →
  sending_ok iss (Sending p' (all ++ new) sent).
Proof.
  intros Hs -> Hp' Hst. exists gone, a, b. cbn. split_and!; [done|by rewrite Hst, app_assoc|].
  eapply Forall_impl; [exact Hs|]. intros o. apply sent_at_app.
Qed.

Lemma sending_sends iss p' all sent outs gone a b :
  Forall (sent_at iss all) sent → sender_at (iss + Z.of_nat (length gone)) a b p' →
  all = gone ++ stream (queued p') → Forall (carries (queued p')) outs →
  sending_ok iss (Sending p' all (sent ++ outs)).
Proof.
  intros Hs Hp' Hall Hc. exists gone, a, b. cbn. split_and!; [done|done|]. apply Forall_app. split; [done|].
  eapply Forall_impl; [exact Hc|]. intros o Ho. rewrite Hall. apply carries_sent_at; [apply Hp'..|done].
Qed.

Lemma sender_step_ok route iss st st' : sender_step route st st' → sending_ok iss st → sending_ok iss st'.
Proof.
  intros Hstep (gone & a & b & Hp & Hall & Hs).
  destruct Hstep as [p all sent data copy mems e p' mems' H|p all sent f copy opts mems e p' mems' Hroom H
    |p all sent ticks mems e p' outs mems' H|p all sent ticks seqno ackno wnd p' outs Hu Hne H
    |p all sent p' outs H|p all sent p' E1 E2 E3 E4 E5 E6 E7]; cbn in Hp, Hall, Hs.
  - destruct (tcp_write_ok _ _ _ _ _ _ _ _ _ _ Hp H) as [Hp' [[-> Hst]|[He ->]]]; eapply sending_grows; try done.
    destruct e; [done|..]; by rewrite app_nil_r.
  - destruct (tcp_enqueue_ok _ _ _ _ _ _ _ _ _ _ _ _ Hp (or_intror (conj eq_refl Hroom)) H)
      as [Hp' [[-> Hst]|[-> ->]]]; eapply sending_grows; try done. cbn. by rewrite app_nil_r.
  - destruct (tcp_output_ok _ _ _ _ _ _ _ _ _ _ _ Hp H) as (b' & Hp' & Hst & _ & Hc).
    eapply sending_sends; [done|done|by rewrite Hst|done].
  - destruct (receive_ack_ok _ _ _ _ _ _ _ _ _ _ Hp Hu Hne H) as (d & x & Hq & Hp' & _ & _ & Hc).
    pose proof (sd_segs _ _ _ _ Hp) as Hw. rewrite Hq in Hw. apply Forall_app in Hw as [Hw _].
    eapply (sending_sends iss p' all sent outs (gone ++ stream d)); [done| | |done].
    + rewrite length_app, Nat2Z.inj_add, length_stream, Z.add_assoc by done. exact Hp'.
    + by rewrite Hall, Hq, stream_app, app_assoc.
  - destruct (retransmit_ok _ _ _ _ _ _ Hp H) as (Hp' & Hq & Hc).
    eapply sending_sends; [done|done|by rewrite Hq|done].
  - exists gone, a, b. cbn. assert (queued p' = queued p) as Hq by (unfold queued; congruence).
    split_and!; [by eapply sender_at_same|by rewrite Hq|done].
Qed.

Lemma tcp_new_ok iss : is_u32 iss → sending_ok iss (Sending (tcp_new iss) [] []).
Proof.
  intros H. exists [], 0, 0. cbn. rewrite Z.add_0_r. split_and!; [|done|constructor].
  assert (iss = u32 (iss + 0)) as Hi by (rewrite Z.add_0_r; symmetry; apply Z.mod_small; exact H).
  split; cbn; try done; try lia.
Qed.

Lemma sending_reachable route iss st :
  is_u32 iss → rtc (sender_step route) (Sending (tcp_new iss) [] []) st → sending_ok iss st.
Proof.
  intros Hi Hrun. pose proof (tcp_new_ok iss Hi) as H. revert H.
  induction Hrun as [|st1 st2 st3 H1 _ IH]; [done|]. intros H. apply IH. by eapply sender_step_ok.
Qed.


(** A block with a SYN and three bytes, all of them sent and the SYN acknowledged. *)
Definition demo_route (_ : Z) : Z := 7.


(** C18: A segment with data leaves [tcp_output] only when its last byte lies
    inside of the window of the peer and of the congestion window, counted from
    the last acknowledgement. *)
Theorem tcp_output_within_window route ticks p mems e p' outs mems' :
  sender_ok p → tcp_output route ticks p mems = Some (e, p', outs, mems') →
  Forall (λ o, o_data o = [] ∨
    u32 (o_seqno o - lastack p + Z.of_nat (length (o_data o))) <= Z.min (snd_wnd p) (cwnd p)) outs.
Proof.
  intros (start & a & b & Hp) H. destruct (tcp_output_ok _ _ _ _ _ _ _ _ _ _ _ Hp H) as (_ & _ & _ & Hf & _).
  eapply Forall_impl; [exact Hf|]. intros o [Ho|Ho]; [by left|right]. unfold fits, send_window in Ho.
  destruct (Z.ltb_spec (snd_wnd p) (cwnd p)); lia.
Qed.

(** A block with a window of 4 bytes and queued segments of 3 and 2 bytes. *)
Definition small_window : tcp_pcb :=
  set_mss 3 (set_snd_buf 251 (set_snd_lbb 105 (set_unsent [Seg 100 3 0 [] [1; 2; 3] 1; Seg 103 2 0 [] [4; 5] 1]
    (set_cwnd 1000 (set_snd_wnd 4 (set_state ESTABLISHED (tcp_new 100))))))).

Lemma tcp_output_within_window_witness :
  ∃ p' outs, tcp_output demo_route 5 small_window [] = Some (ERR_OK, p', outs, []) ∧ length outs = 1%nat ∧
    Forall (λ o, o_data o = [] ∨ u32 (o_seqno o - 100 + Z.of_nat (length (o_data o))) <= 4) outs.
Proof.
  assert (sender_ok small_window) as Hok.
  { exists 100, 0, 0. split; try done; [|by cbv; repeat constructor..]. by repeat constructor. }
  assert (∃ p' outs, tcp_output demo_route 5 small_window [] = Some (ERR_OK, p', outs, []) ∧ length outs = 1%nat)
    as (p' & outs & E & Hl) by (eexists _, _; split; [vm_compute; reflexivity|done]).
  exists p', outs. split_and!; [done|done|]. exact (tcp_output_within_window _ _ _ _ _ _ _ _ Hok E).
Defined.

(** * What goes wrong *)

(** The slow timer, [n] times. *)
Fixpoint timer_runs (n : nat) (p : tcp_pcb) : option (tcp_pcb * list tcp_out) :=
  match n with
  | O => Some (p, [])
  | S n' => '(p, outs) ← retransmit p; '(p, outs') ← timer_runs n' p; Some (p, outs ++ outs')
  end.

Lemma timer_idle p : 255 < rto p → ∃ t, retransmit p = Some (set_rtime t p, []).
Proof.
  intros H. unfold retransmit. exists (u8 (rtime p + 1)). set (p0 := set_rtime _ p).
  destruct (unacked p0) as [|seg rest]; [done|].
  assert (rtime p0 < 256) by (apply Z.mod_pos_bound; lia).
  destruct (Z.leb_spec (rto p0) (rtime p0)) as [Hle|]; [|done]. change (rto p0) with (rto p) in Hle. lia.
Qed.

(** The retransmission timeout is shifted by the entries of [tcp_backoff],
    which grow to 64, but the timer it is compared with has 8 bits: once the
    timeout is above 255 nothing is ever retransmitted again and the number of
    retransmissions stays below the limit that would end the connection. *)
Theorem tcp_retransmission_stops p n :
  255 < rto p →
  ∃ p', timer_runs n p = Some (p', []) ∧ unacked p' = unacked p ∧ nrtx p' = nrtx p ∧ rto p' = rto p.
Proof.
  revert p. induction n as [|n IH]; intros p H; [by exists p|]. cbn [timer_runs].
  destruct (timer_idle p H) as [t ->]. cbn [mbind option_bind].
  destruct (IH (set_rtime t p)) as (p' & -> & H1 & H2 & H3); [done|]. by exists p'.
Qed.

(** A block with one segment that is never acknowledged. *)
Definition lost_segment : tcp_pcb :=
  set_cwnd 1000 (set_snd_wnd 1000 (set_unacked [Seg 100 3 TCP_ACK [] [1; 2; 3] 1] (set_snd_max 103 (set_snd_nxt 103
    (set_snd_lbb 103 (set_snd_buf 253 (set_state ESTABLISHED (tcp_new 100)))))))).

Lemma tcp_retransmission_stops_witness :
  ∃ p outs, timer_runs 138 lost_segment = Some (p, outs) ∧ length outs = 4%nat ∧ nrtx p = 4 ∧ rto p = 1536 ∧
    ∃ p', timer_runs 4000 p = Some (p', []) ∧ unacked p' = unacked lost_segment.
Proof.
  assert (∃ p outs, timer_runs 138 lost_segment = Some (p, outs) ∧ length outs = 4%nat ∧ nrtx p = 4 ∧ rto p = 1536 ∧
    unacked p = unacked lost_segment) as (p & outs & H1 & H2 & H3 & H4 & H5)
    by (eexists _, _; split; [vm_compute; reflexivity|by vm_compute]).
  exists p, outs. split_and!; [done|done|done|done|].
  destruct (tcp_retransmission_stops p 4000) as (p' & H6 & H7 & _); [rewrite H4; lia|].
  exists p'. split; [done|congruence].
Defined.


(** An acknowledgement of what is half of the sequence numbers away is taken
    when nothing is in flight (the comparisons of [tcp_receive] do not exclude
    it); what is written afterwards is outside of every window. *)
Example tcp_far_ack_taken :
  let p := set_cwnd 1000 (set_state ESTABLISHED (tcp_new 100)) in
  ∃ p1 p2 p3,
    receive_ack 5 1 (100 + 2147483648) 1000 p = Some (p1, []) ∧ lastack p1 = 100 + 2147483648 ∧
    tcp_write [1; 2; 3] true p1 [true; true] = (ERR_OK, p2, []) ∧
    tcp_output demo_route 5 p2 [] = Some (ERR_OK, p3, [], []) ∧ unsent p3 = unsent p2 ∧ length (unsent p3) = 1%nat.
Proof. do 3 eexists. split; [vm_compute; reflexivity|]. split; [done|]. split; [vm_compute; reflexivity|].
  split; [vm_compute; reflexivity|]. done.
Qed.

(** A FIN takes a sequence number also when the send buffer is full: its free
    space wraps to 65535 bytes. *)
Lemma tcp_fin_wraps_buffer p mems p' mems' :
  snd_buf p = 0 → tcp_send_ctrl TCP_FIN p mems = (ERR_OK, p', mems') → snd_buf p' = 65535.
Proof.
  intros E. unfold tcp_send_ctrl, tcp_enqueue. rewrite E. cbn [Z.ltb Z.compare length].
  destruct (TCP_SND_QUEUELEN <=? snd_queuelen p); [done|].
  destruct (enqueue_loop _ _ _ _ _ _ _ _ _ _) as [[[q ql]|] mems1]; [|done]. intros [= <- <-]. cbn. by rewrite E.
Qed.

(** The guard against an overflow of the congestion window compares integers
    wider than the window: it always lets the window grow, and it wraps. *)
Lemma tcp_window_guard_wraps n p :
  0 < n < 65536 → cwnd p < 65536 <= cwnd p + n → cwnd (inflate n p) < cwnd p.
Proof.
  intros H1 H2. unfold inflate. rewrite (proj2 (Z.ltb_lt _ _)) by lia. cbn. unfold u16.
  rewrite <-(Z.mod_add _ (-1)), Z.mod_small by lia. lia.
Qed.

(** An immediate acknowledgement for which there is no buffer is forgotten. *)
Lemma tcp_output_forgets_ack route ticks p mems :
  has (flags p) TF_ACK_NOW = true →
  ∃ p', tcp_output route ticks p (false :: mems) = Some (ERR_BUF, p', [], mems) ∧ has (flags p') TF_ACK_NOW = false.
Proof.
  intros H. unfold tcp_output. rewrite H. cbn [alloc negb]. eexists. split; [done|].
  unfold has. cbn [flags set_flags]. rewrite <-Z.land_assoc.
  change (Z.land (Z.lnot (Z.lor TF_ACK_DELAY TF_ACK_NOW)) TF_ACK_NOW) with 0. by rewrite Z.land_0_r.
Qed.
