(* ===== verification/TcpReceive.v ===== *)
(** The receiving side of TCP: the second half of [tcp_receive] in
    lwtcp/tcp_input.c, with the queue of segments that came out of order.

    The data of an incoming segment is one list of bytes; the chain of packet
    buffers that holds it is not modelled. *)

From stdpp Require Import base tactics list numbers.
From Stdlib Require Import ZArith Lia.
From S2P Require Import Prelude TcpOptions Tcp.

Local Open Scope Z_scope.

Definition TF_RESET : Z := 0x08.
Definition TF_CLOSED : Z := 0x10.
Definition TF_GOT_FIN : Z := 0x20.

Definition TCP_SEQ_GT (a b : Z) : bool := 0 <? s32 (a - b).
Definition TCP_SEQ_GEQ (a b : Z) : bool := 0 <=? s32 (a - b).

(** The fields of [struct tcp_pcb] for the receiving side, with the others. *)
Record conn := Conn {
  c_pcb : tcp_pcb;
  ooseq : list tcp_seg;
  recv_data : option (list Z);
  c_tmr : Z
}.

Definition on_pcb (f : tcp_pcb → tcp_pcb) (c : conn) : conn := Conn (f (c_pcb c)) (ooseq c) (recv_data c) (c_tmr c).
Definition set_ooseq (q : list tcp_seg) (c : conn) : conn := Conn (c_pcb c) q (recv_data c) (c_tmr c).
Definition set_recv_data (d : option (list Z)) (c : conn) : conn := Conn (c_pcb c) (ooseq c) d (c_tmr c).
Definition set_tmr (t : Z) (c : conn) : conn := Conn (c_pcb c) (ooseq c) (recv_data c) t.

Definition raise_flag (f : Z) (c : conn) : conn := on_pcb (λ p, set_flags (Z.lor (flags p) f) p) c.

(** * Trimming *)

(** Cut a segment to [n] bytes. *)
Definition cut_seg (n : Z) (seg : tcp_seg) : tcp_seg :=
  Seg (sg_seqno seg) (u16 n) (sg_flags seg) (sg_opts seg) (take (Z.to_nat (u16 n)) (sg_data seg)) (sg_clen seg).

(** Cut a segment that reaches over the sequence number [s]. *)
Definition cut_before (s : Z) (seg : tcp_seg) : tcp_seg :=
  if TCP_SEQ_GT (u32 (sg_seqno seg + sg_len seg)) s then cut_seg (s - sg_seqno seg) seg else seg.

(** Take off the front of a segment what has been received already. *)
Definition trim_front (rcv_nxt : Z) (seg : tcp_seg) : tcp_seg :=
  if TCP_SEQ_LT (sg_seqno seg) rcv_nxt && TCP_SEQ_LT rcv_nxt (u32 (sg_seqno seg + sg_len seg)) then
    let off := s32 (rcv_nxt - sg_seqno seg) in
    Seg rcv_nxt (u16 (sg_len seg - (rcv_nxt - sg_seqno seg))) (sg_flags seg) (sg_opts seg)
      (drop (Z.to_nat off) (sg_data seg)) (sg_clen seg)
  else seg.

(** * The queue of segments out of order *)

(** The loop over the queue from [next] on, behind [prev]. *)
Fixpoint ooseq_walk (inseg : tcp_seg) (prev : option tcp_seg) (q : list tcp_seg) (mems : list bool)
    : list tcp_seg * list bool :=
  let behind l := match prev with Some x => x :: l | None => l end in
  match q with
  | [] => (behind [], mems)
  | next :: rest =>
      let seqno := sg_seqno inseg in
      if seqno =? sg_seqno next then
        if sg_len next <? sg_len inseg then
          let '(ok, mems) := alloc mems in (behind (if ok then inseg :: rest else q), mems)
        else (behind q, mems)
      else if match prev with
              | None => TCP_SEQ_LT seqno (sg_seqno next)
              | Some x => TCP_SEQ_LT (sg_seqno x) seqno && TCP_SEQ_LT seqno (sg_seqno next)
              end then
        let cseg := cut_before (sg_seqno next) inseg in
        let '(ok, mems) := alloc mems in
        if ok then (match prev with Some x => cut_before seqno x :: cseg :: q | None => cseg :: q end, mems)
        else (behind q, mems)
      else if match rest with [] => TCP_SEQ_GT seqno (sg_seqno next) | _ => false end then
        let '(ok, mems) := alloc mems in
        (behind (if ok then [cut_before seqno next; inseg] else q), mems)
      else
        let '(l, mems) := ooseq_walk inseg (Some next) rest mems in (behind l, mems)
  end.

(** An empty queue takes a copy of the segment. *)
Definition ooseq_insert (inseg : tcp_seg) (q : list tcp_seg) (mems : list bool) : list tcp_seg * list bool :=
  match q with
  | [] => let '(ok, mems) := alloc mems in (if ok then [inseg] else [], mems)
  | _ => ooseq_walk inseg None q mems
  end.

(** * Segments in order *)

(** [rcv_nxt] and the window move over [n] sequence numbers. *)
Definition advance (n : Z) (c : conn) : conn :=
  on_pcb (λ p, set_rcv_wnd (if rcv_wnd p <? n then 0 else rcv_wnd p - n)
                 (set_rcv_nxt (u32 (rcv_nxt p + n)) p)) c.

(** Queued segments that are in order now; [fin] is the FIN flag of the segment
    that arrived.  [None] is the chaining of a buffer to none. *)
Fixpoint dequeue (fin : bool) (q : list tcp_seg) (c : conn) : option conn :=
  match q with
  | [] => Some c
  | cseg :: rest =>
      if sg_seqno cseg =? rcv_nxt (c_pcb c) then
        let c := advance (TCP_TCPLEN cseg) c in
        c ← (match sg_data cseg with
             | [] => Some c
             | _ => match recv_data c with
                    | None => None
                    | Some d => Some (set_recv_data (Some (d ++ sg_data cseg)) c)
                    end
             end);
        let c := if fin then raise_flag TF_GOT_FIN c else c in
        dequeue fin rest (set_ooseq rest c)
      else Some c
  end.

Section receive.
Context (ip_route : Z → Z) (ticks : Z).

(** The result of a handler: [None] is an assertion or an access that fails. *)
Definition result : Type := option (conn * list tcp_out * list bool).

Definition output_now (c : conn) (mems : list bool) : result :=
  '(_, p, outs, mems) ← tcp_output ip_route ticks (c_pcb c) mems;
  Some (Conn p (ooseq c) (recv_data c) (c_tmr c), outs, mems).

Definition tcp_ack_now (c : conn) (mems : list bool) : result :=
  output_now (raise_flag TF_ACK_NOW c) mems.

Definition tcp_ack (c : conn) (mems : list bool) : result :=
  if has (flags (c_pcb c)) TF_ACK_DELAY then output_now (raise_flag TF_ACK_NOW c) mems
  else Some (raise_flag TF_ACK_DELAY c, [], mems).

(** The segment is the next one. *)
Definition receive_next (inseg : tcp_seg) (c : conn) (mems : list bool) : result :=
  let inseg := match ooseq c with
               | x :: _ => if TCP_SEQ_LEQ (sg_seqno x) (u32 (sg_seqno inseg + sg_len inseg))
                           then cut_seg (sg_seqno x - sg_seqno inseg) inseg else inseg
               | [] => inseg
               end in
  let c := advance (TCP_TCPLEN inseg) c in
  let c := match sg_data inseg with [] => c | _ => set_recv_data (Some (sg_data inseg)) c end in
  let fin := has (sg_flags inseg) TCP_FIN in
  let c := if fin then raise_flag TF_GOT_FIN c else c in
  c ← dequeue fin (ooseq c) c;
  tcp_ack c mems.

Definition receive_data (inseg : tcp_seg) (c : conn) (mems : list bool) : result :=
  let p := c_pcb c in
  if 0 <? TCP_TCPLEN inseg then
    let inseg := trim_front (rcv_nxt p) inseg in
    if TCP_SEQ_GEQ (sg_seqno inseg) (rcv_nxt p) &&
       TCP_SEQ_LT (sg_seqno inseg) (u32 (rcv_nxt p + rcv_wnd p)) then
      if rcv_nxt p =? sg_seqno inseg then receive_next inseg c mems
      else
        '(c, outs, mems) ← tcp_ack_now c mems;
        let '(q, mems) := ooseq_insert inseg (ooseq c) mems in
        Some (set_ooseq q c, outs, mems)
    else Some (c, [], mems)
  else if TCP_SEQ_GT (rcv_nxt p) (sg_seqno inseg) ||
          TCP_SEQ_GEQ (sg_seqno inseg) (u32 (rcv_nxt p + rcv_wnd p))
  then tcp_ack_now c mems
  else Some (c, [], mems).

(** [tcp_receive] for a segment with the given acknowledgement and window. *)
Definition tcp_receive (inseg : tcp_seg) (ackno wnd : Z) (c : conn) (mems : list bool) : result :=
  '(c, outs) ← (if has (sg_flags inseg) TCP_ACK
                then '(p, outs) ← receive_ack ticks (sg_seqno inseg) ackno wnd (c_pcb c);
                     Some (on_pcb (λ _, p) c, outs)
                else Some (c, []));
  '(c, outs', mems) ← receive_data inseg c mems;
  Some (c, outs ++ outs', mems).
End receive.
