(* ===== verification/TcpDelivery.v ===== *)
(** The TCP receiver (file TcpReceive) hands the application the bytes of the
    peer in order and once, whatever order they arrive in; and a whole
    connection, from the writes of one side to the reads of the other. *)

From stdpp Require Import base tactics list numbers sets relations.
From Stdlib Require Import ZArith Lia.
From S2P Require Import Prelude TcpOptions Tcp TcpSpec TcpReceive.

Local Open Scope Z_scope.

Lemma seq_gt s x y : - 2147483648 <= x - y < 2147483648 → TCP_SEQ_GT (u32 (s + x)) (u32 (s + y)) = (y <? x).
Proof. intros H. unfold TCP_SEQ_GT. rewrite seq_diff by done. apply eq_true_iff_eq. rewrite !Z.ltb_lt. lia. Qed.

Lemma seq_geq s x y : - 2147483648 <= x - y < 2147483648 → TCP_SEQ_GEQ (u32 (s + x)) (u32 (s + y)) = (y <=? x).
Proof. intros H. unfold TCP_SEQ_GEQ. rewrite seq_diff by done. apply eq_true_iff_eq. rewrite !Z.leb_le. lia. Qed.

Lemma seq_eq s x y : - 2147483648 <= x - y < 2147483648 → (u32 (s + x) =? u32 (s + y)) = (x =? y).
Proof.
  intros H. apply eq_true_iff_eq. rewrite !Z.eqb_eq. split; [|by intros ->]. intros E.
  pose proof (seq_diff s x y H) as D. rewrite E, Z.sub_diag in D. change (s32 0) with 0 in D. lia.
Qed.

Section delivery.
(** [all] is the peer's space of sequence numbers from [irs] on; it is short
    enough for a sequence number to have one place in it. *)
Context (all : list (option Z)) (irs : Z).
Context (Hshort : Z.of_nat (length all) < 1073741824).

(** [data] is what [all] has at offset [k]. *)
Definition slice (k : Z) (data : list Z) : Prop :=
  0 <= k ∧ k + Z.of_nat (length data) <= Z.of_nat (length all) ∧
  Some <$> data = take (length data) (drop (Z.to_nat k) all).

Lemma slice_take k m data : slice k data → slice k (take m data).
Proof.
  intros (H1 & H2 & H3). split_and!; [done|rewrite length_take; lia|].
  rewrite fmap_take, H3, take_take, length_take. done.
Qed.

Lemma slice_drop k m data : (m <= length data)%nat → slice k data → slice (k + Z.of_nat m) (drop m data).
Proof.
  intros Hm (H1 & H2 & H3). split_and!; [lia|rewrite length_drop; lia|].
  rewrite fmap_drop, H3, length_drop.
  replace (Z.to_nat (k + Z.of_nat m)) with (Z.to_nat k + m)%nat by lia.
  rewrite <-drop_drop, skipn_firstn_comm. done.
Qed.

Lemma slice_join k d1 d2 : slice k d1 → slice (k + Z.of_nat (length d1)) d2 → slice k (d1 ++ d2).
Proof.
  intros (H1 & H2 & H3) (H4 & H5 & H6). split_and!; [done|rewrite length_app; lia|].
  rewrite fmap_app, length_app, H3, H6, Z2Nat.inj_add, Nat2Z.id by lia. rewrite <-drop_drop.
  by rewrite take_take_drop.
Qed.

(** A segment with data that has its bytes from [all]. *)
Record good_seg (k : Z) (x : tcp_seg) : Prop := {
  gs_seqno : sg_seqno x = u32 (irs + k);
  gs_len : sg_len x = Z.of_nat (length (sg_data x));
  gs_pos : 0 < sg_len x < 65536;
  gs_plain : is_ctrl (sg_flags x) = false;
  gs_slice : slice k (sg_data x)
}.

Lemma good_range k x : good_seg k x → 0 <= k ∧ k + sg_len x < 1073741824 ∧ 0 < sg_len x < 65536.
Proof. intros [H1 H2 H3 H4 (H5 & H6 & H7)]. lia. Qed.

Lemma good_offset k k' x y : good_seg k x → good_seg k' y → sg_seqno x = sg_seqno y → k = k'.
Proof.
  intros Hx Hy E. pose proof (good_range _ _ Hx). pose proof (good_range _ _ Hy). destruct Hx, Hy.
  apply Z.eqb_eq. rewrite <-(seq_eq irs) by lia. apply Z.eqb_eq. congruence.
Qed.

Lemma good_tcplen k x : good_seg k x → TCP_TCPLEN x = sg_len x.
Proof. intros [_ _ _ H _]. unfold is_ctrl in H. apply orb_false_iff in H as [H1 H2]. by apply tcplen_plain. Qed.

Lemma cut_seg_good k x n : good_seg k x → 0 < n <= sg_len x → good_seg k (cut_seg n x) ∧ sg_len (cut_seg n x) = n.
Proof.
  intros [H1 H2 H3 H4 H5] Hn. assert (sg_len (cut_seg n x) = n) as E by (cbn; apply u16_small; unfold is_u16; lia).
  cbn in E. split; [|done]. split; cbn; rewrite ?E; try done; [rewrite length_take; lia|lia|by apply slice_take].
Qed.

Lemma cut_before_good k x j :
  good_seg k x → k < j < 1073741824 →
  good_seg k (cut_before (u32 (irs + j)) x) ∧ k + sg_len (cut_before (u32 (irs + j)) x) <= j ∧
  sg_len (cut_before (u32 (irs + j)) x) <= sg_len x.
Proof.
  intros Hx Hj. pose proof (good_range _ _ Hx) as Hr. unfold cut_before.
  rewrite (gs_seqno _ _ Hx), u32_add, <-Z.add_assoc, seq_gt by lia.
  destruct (Z.ltb_spec j (k + sg_len x)) as [Hlt|Hge]; [|split_and!; [done|lia|lia]].
  assert (cut_seg (u32 (irs + j) - u32 (irs + k)) x = cut_seg (j - k) x) as ->.
  { unfold cut_seg. rewrite u16_seq_diff by lia. by rewrite (u16_small (j - k)) by (unfold is_u16; lia). }
  destruct (cut_seg_good k x (j - k) Hx) as [H1 H2]; [lia|]. rewrite H2. split_and!; [done|lia|lia].
Qed.

Lemma trim_front_good k x n :
  good_seg k x → 0 <= n < 1073741824 →
  good_seg k (trim_front (u32 (irs + n)) x) ∧ trim_front (u32 (irs + n)) x = x ∧ ¬ (k < n < k + sg_len x) ∨
  good_seg n (trim_front (u32 (irs + n)) x) ∧ k < n < k + sg_len x.
Proof.
  intros Hx Hn. pose proof (good_range _ _ Hx) as Hr. unfold trim_front.
  rewrite (gs_seqno _ _ Hx), u32_add, <-Z.add_assoc, !seq_lt by lia.
  destruct (Z.ltb_spec k n) as [H1|H1], (Z.ltb_spec n (k + sg_len x)) as [H2|H2]; cbn [andb];
    [|left; split_and!; [done|done|lia]..].
  right. split; [|lia]. destruct Hx as [G1 G2 G3 G4 G5].
  assert (u16 (sg_len x - (u32 (irs + n) - u32 (irs + k))) = sg_len x - (n - k)) as E.
  { replace (sg_len x - (u32 (irs + n) - u32 (irs + k))) with (sg_len x - u32 (irs + n) + u32 (irs + k)) by lia.
    rewrite <-(u16_small (sg_len x - (n - k))) by (unfold is_u16; lia). unfold u16, u32.
    rewrite (Z.mod_eq (irs + n) 4294967296), (Z.mod_eq (irs + k) 4294967296) by lia.
    replace (sg_len x - (irs + n - 4294967296 * ((irs + n) / 4294967296)) + (irs + k - 4294967296 * ((irs + k) / 4294967296)))
      with (sg_len x - (n - k) + ((irs + n) / 4294967296 - (irs + k) / 4294967296) * 65536 * 65536) by lia.
    by rewrite Z.mod_add by lia. }
  rewrite seq_diff by lia. split; cbn; rewrite ?E; try done; [rewrite length_drop; lia|lia|].
  replace n with (k + Z.of_nat (Z.to_nat (n - k))) at 1 by lia. apply slice_drop; [lia|done].
Qed.

(** ** The queue *)

(** The segments of a queue follow each other from offset [lo] on. *)
Fixpoint ordered (lo : Z) (q : list tcp_seg) : Prop :=
  match q with
  | [] => True
  | x :: q' => ∃ k, lo <= k ∧ good_seg k x ∧ ordered (k + sg_len x) q'
  end.

Lemma ordered_mono lo lo' q : lo' <= lo → ordered lo q → ordered lo' q.
Proof. intros H. destruct q as [|x q]; [done|]. intros (k & Hk & Hx). exists k. split; [lia|done]. Qed.

(** Whether [inseg] is a longer copy of a queued segment that reaches into the
    next one. *)
Fixpoint longer_copy (inseg : tcp_seg) (q : list tcp_seg) : bool :=
  match q with
  | [] => false
  | next :: rest =>
      if sg_seqno inseg =? sg_seqno next then
        (sg_len next <? sg_len inseg) &&
        match rest with y :: _ => TCP_SEQ_GT (u32 (sg_seqno inseg + sg_len inseg)) (sg_seqno y) | [] => false end
      else longer_copy inseg rest
  end.

(** What [ooseq_walk] knows about the segment it has passed. *)
Definition passed (lo k : Z) (prev : option tcp_seg) (q : list tcp_seg) : Prop :=
  match prev with
  | None => lo <= k ∧ ordered lo q
  | Some x => ∃ kx, lo <= kx ∧ kx < k ∧ good_seg kx x ∧ ordered (kx + sg_len x) q
  end.

Lemma passed_ordered lo k prev q l :
  passed lo k prev q → (∀ lo', ordered lo' q → ordered lo' l) →
  ordered lo (match prev with Some x => x :: l | None => l end).
Proof.
  destruct prev as [x|]; [intros (kx & H1 & H2 & H3 & H4) Hl|intros [H1 H2] Hl; by apply Hl].
  exists kx. split_and!; [done|done|by apply Hl].
Qed.

(** A copy that is longer stays in front of the next segment. *)
Lemma replace_ordered k inseg next rest lo :
  good_seg k inseg → longer_copy inseg (next :: rest) = false → sg_seqno inseg = sg_seqno next →
  sg_len next < sg_len inseg → ordered lo (next :: rest) → ordered lo (inseg :: rest).
Proof.
  intros Hin Htw Heq Hlen (kn & Hlo & Hn & Hrest). pose proof (good_range _ _ Hin). pose proof (good_range _ _ Hn).
  assert (k = kn) as <- by (exact (good_offset _ _ _ _ Hin Hn Heq)).
  exists k. split_and!; [done|done|]. destruct rest as [|y rest]; [done|]. destruct Hrest as (ky & Hy1 & Hy2 & Hy3).
  exists ky. split_and!; [|done|done]. cbn in Htw. rewrite Heq, Z.eqb_refl in Htw.
  rewrite (proj2 (Z.ltb_lt _ _) Hlen), <-Heq, (gs_seqno _ _ Hin), (gs_seqno _ _ Hy2), u32_add, <-Z.add_assoc in Htw.
  pose proof (good_range _ _ Hy2). cbn in Htw.
  rewrite seq_gt, Z.ltb_ge in Htw by lia. lia.
Qed.

Lemma walk_ordered k inseg q prev lo mems :
  good_seg k inseg → longer_copy inseg q = false → (prev = None → q ≠ []) → passed lo k prev q →
  ordered lo (ooseq_walk inseg prev q mems).1.
Proof.
  intros Hin. pose proof (good_range _ _ Hin) as Hk. revert prev lo mems.
  induction q as [|next rest IH]; intros prev lo mems Htw Hne Hpass.
  { cbn. eapply (passed_ordered lo k prev []); done. }
  cbn [ooseq_walk]. assert (∃ kn, good_seg kn next ∧ ordered (kn + sg_len next) rest) as (kn & Hn & Hrest).
  { destruct prev as [x|]; cbn in Hpass; [destruct Hpass as (? & _ & _ & _ & kn & _ & H)|
      destruct Hpass as (_ & kn & _ & H)]; by exists kn. }
  pose proof (good_range _ _ Hn) as Hkn.
  assert ((sg_seqno inseg =? sg_seqno next) = (k =? kn)) as Eq.
  { rewrite (gs_seqno _ _ Hin), (gs_seqno _ _ Hn). apply seq_eq. lia. }
  rewrite Eq. destruct (Z.eqb_spec k kn) as [->|Hdiff].
  { destruct (Z.ltb_spec (sg_len next) (sg_len inseg)) as [Hlt|]; [|by eapply passed_ordered].
    destruct (alloc mems) as [[|] mems1]; cbn [fst]; [|by eapply passed_ordered].
    eapply passed_ordered; [done|]. intros lo' Hl. eapply replace_ordered; try done. by apply Z.eqb_eq. }
  assert (match prev with
          | None => TCP_SEQ_LT (sg_seqno inseg) (sg_seqno next)
          | Some x => TCP_SEQ_LT (sg_seqno x) (sg_seqno inseg) && TCP_SEQ_LT (sg_seqno inseg) (sg_seqno next)
          end = (k <? kn)) as ->.
  { rewrite (gs_seqno _ _ Hin), (gs_seqno _ _ Hn), seq_lt by lia.
    destruct prev as [x|]; [|done]. destruct Hpass as (kx & _ & Hlt & Hx & _). pose proof (good_range _ _ Hx).
    rewrite (gs_seqno _ _ Hx), seq_lt by lia. rewrite (proj2 (Z.ltb_lt _ _) Hlt). done. }
  destruct (Z.ltb_spec k kn) as [Hlt|Hge].
  { destruct (alloc mems) as [[|] mems1]; cbn [fst]; [|by eapply passed_ordered].
    destruct (cut_before_good k inseg kn Hin) as (C1 & C2 & _); [lia|].
    rewrite <-(gs_seqno _ _ Hn) in C1, C2.
    assert (∀ l, l <= k → ordered l (cut_before (sg_seqno next) inseg :: next :: rest)) as Hnew.
    { intros l Hl. exists k. split_and!; [done|done|]. by exists kn. }
    destruct prev as [x|]; [|by apply Hnew, Hpass]. destruct Hpass as (kx & Hlo & Hxk & Hx & _).
    destruct (cut_before_good kx x k Hx) as (D1 & D2 & _); [lia|]. rewrite <-(gs_seqno _ _ Hin) in D1, D2.
    exists kx. split_and!; [done|done|by apply Hnew]. }
  destruct rest as [|y rest].
  - rewrite (gs_seqno _ _ Hin), (gs_seqno _ _ Hn), seq_gt by lia.
    rewrite (proj2 (Z.ltb_lt kn k)) by lia. rewrite <-(gs_seqno _ _ Hin).
    destruct (alloc mems) as [[|] mems1]; cbn [fst]; [|by eapply passed_ordered].
    destruct (cut_before_good kn next k Hn) as (C1 & C2 & _); [lia|]. rewrite <-(gs_seqno _ _ Hin) in C1, C2.
    eapply passed_ordered; [done|]. intros lo' (kn' & Hlo' & Hn' & _).
    assert (kn' = kn) as -> by (exact (good_offset _ _ _ _ Hn' Hn eq_refl)).
    exists kn. split_and!; [done|done|]. exists k. by split_and!.
  - cbn [longer_copy] in Htw. rewrite Eq in Htw.
    assert (∀ lo', ordered lo' (next :: y :: rest) →
      ordered lo' (ooseq_walk inseg (Some next) (y :: rest) mems).1) as Hrec.
    { intros lo' (kn' & Hlo' & Hn' & Hr'). apply IH; [done|done|]. exists kn'.
      assert (kn' = kn) as -> by (exact (good_offset _ _ _ _ Hn' Hn eq_refl)).
      split_and!; [done|lia|done|done]. }
    destruct (ooseq_walk inseg (Some next) (y :: rest) mems) as [l mems1].
    eapply passed_ordered; [done|exact Hrec].
Qed.

Lemma insert_ordered k inseg q lo mems :
  good_seg k inseg → longer_copy inseg q = false → lo <= k → ordered lo q →
  ordered lo (ooseq_insert inseg q mems).1.
Proof.
  intros Hin Htw Hlo Hq. destruct q as [|x q].
  - cbn. destruct (alloc mems) as [[|] mems1]; [|done]. exists k. by split_and!.
  - apply (walk_ordered k); [done|done|done|by split].
Qed.

(** ** Segments in order *)

Lemma slice_nil n : 0 <= n <= Z.of_nat (length all) → slice n [].
Proof. intros H. split_and!; [lia|cbn; lia|done]. Qed.

(** The fields of a block that receiving depends on. *)
Definition same_recv (p p' : tcp_pcb) : Prop :=
  rcv_nxt p' = rcv_nxt p ∧ rcv_wnd p' = rcv_wnd p ∧ local_ip p' = local_ip p.

Lemma dequeue_ok q n c d :
  ooseq c = q → rcv_nxt (c_pcb c) = u32 (irs + n) → 0 <= n <= Z.of_nat (length all) →
  ordered n q → recv_data c = Some d →
  ∃ c' more, dequeue false q c = Some c' ∧ rcv_nxt (c_pcb c') = u32 (irs + (n + Z.of_nat (length more))) ∧
    slice n more ∧ recv_data c' = Some (d ++ more) ∧ ordered (n + Z.of_nat (length more) + 1) (ooseq c') ∧
    local_ip (c_pcb c') = local_ip (c_pcb c).
Proof.
  revert n c d. induction q as [|x q IH]; intros n c d Hq Hn Hr Ho Hd; cbn [dequeue].
  { exists c, []. rewrite app_nil_r, Hq. cbn. rewrite Z.add_0_r. split_and!; try done. by apply slice_nil. }
  destruct Ho as (k & Hk & Hx & Ho). pose proof (good_range _ _ Hx) as Hkr.
  rewrite (gs_seqno _ _ Hx), Hn, seq_eq by lia. destruct (Z.eqb_spec k n) as [->|Hne].
  2:{ exists c, []. rewrite app_nil_r, Hq. cbn. rewrite Z.add_0_r. split_and!; try done; [by apply slice_nil|].
      exists k. split_and!; [lia|done|done]. }
  rewrite (good_tcplen _ _ Hx). pose proof Hx as [G1 G2 G3 G4 G5]. pose proof G5 as (_ & S2 & _).
  destruct (sg_data x) as [|z data] eqn:Edata; [cbn in G2; lia|]. cbn [recv_data advance on_pcb]. rewrite Hd.
  cbn [mbind option_bind]. rewrite <-Edata in *.
  match goal with |- context [dequeue false q ?y] => set (c1 := y) end.
  destruct (IH (n + sg_len x) c1 (d ++ sg_data x)) as (c' & more & H1 & H2 & H3 & H4 & H5 & H6); try done; [|lia|].
  { subst c1. cbn. rewrite Hn, u32_add. f_equal. lia. }
  exists c', (sg_data x ++ more). rewrite length_app, Nat2Z.inj_add, <-G2, app_assoc, !Z.add_assoc in *.
  split_and!; try done. apply slice_join; [done|]. by rewrite <-G2.
Qed.

(** Sending does not touch what receiving depends on. *)
Lemma output_loop_some route ticks wnd segs p outs :
  local_ip p ≠ 0 → ∃ p' outs', output_loop route ticks wnd segs p outs = Some (p', outs') ∧ same_recv p p'.
Proof.
  revert p outs. induction segs as [|seg rest IH]; intros p outs Hip; cbn [output_loop]; [by exists p, outs|].
  destruct (_ <=? wnd); [|by exists p, outs]. set (p0 := set_unsent rest (set_rtime 0 p)).
  destruct (if decide (state p0 = SYN_SENT) then (seg, p0) else _) as [seg' p1] eqn:E1.
  assert (same_recv p p1) as Hp1 by (destruct (decide _); by injection E1 as <- <-).
  assert (∃ p2 o, tcp_output_segment route ticks seg' p1 = Some (p2, o) ∧ same_recv p p2) as (p2 & o & -> & Hp2).
  { unfold tcp_output_segment. destruct Hp1 as (S1 & S2 & S3). rewrite S3, (proj2 (Z.eqb_neq _ 0) Hip). cbn.
    destruct (rttest p1 =? 0); eexists _, _; by split. }
  cbn [mbind option_bind]. assert (same_recv p (record_sent seg' p2)) as Hp3.
  { unfold record_sent. destruct (TCP_SEQ_LT _ _), (0 <? _); exact Hp2. }
  destruct (IH (record_sent seg' p2) (outs ++ [o])) as (p' & outs' & Hrun & Hp').
  { destruct Hp3 as (_ & _ & ->). done. }
  exists p', outs'. split; [done|]. unfold same_recv in *. intuition congruence.
Qed.

Lemma output_now_some route ticks c mems :
  local_ip (c_pcb c) ≠ 0 →
  ∃ c' outs mems', output_now route ticks c mems = Some (c', outs, mems') ∧ same_recv (c_pcb c) (c_pcb c') ∧
    ooseq c' = ooseq c ∧ recv_data c' = recv_data c.
Proof.
  intros Hip. unfold output_now, tcp_output. destruct (has (flags (c_pcb c)) TF_ACK_NOW).
  - destruct (alloc mems) as [[|] mems1]; cbn; eexists _, _, _; by split_and!.
  - destruct (output_loop_some route ticks (send_window (c_pcb c)) (unsent (c_pcb c)) (c_pcb c) [] Hip)
      as (p' & outs & -> & Hs). cbn. eexists _, _, _. by split_and!.
Qed.

Lemma tcp_ack_some route ticks c mems :
  local_ip (c_pcb c) ≠ 0 →
  ∃ c' outs mems', tcp_ack route ticks c mems = Some (c', outs, mems') ∧ same_recv (c_pcb c) (c_pcb c') ∧
    ooseq c' = ooseq c ∧ recv_data c' = recv_data c.
Proof.
  intros Hip. unfold tcp_ack. destruct (has _ _).
  - by apply (output_now_some route ticks (raise_flag TF_ACK_NOW c)).
  - eexists _, _, _. by split_and!.
Qed.

(** The receiver expects the byte at offset [n] next. *)
Record receiver_at (n : Z) (c : conn) : Prop := {
  ra_nxt : rcv_nxt (c_pcb c) = u32 (irs + n);
  ra_range : 0 <= n <= Z.of_nat (length all);
  ra_queue : ordered (n + 1) (ooseq c);
  ra_bound : local_ip (c_pcb c) ≠ 0
}.

Lemma receive_next_ok route ticks inseg c mems n :
  receiver_at n c → good_seg n inseg →
  ∃ c' outs mems' data, receive_next route ticks inseg c mems = Some (c', outs, mems') ∧
    recv_data c' = Some data ∧ data ≠ [] ∧ slice n data ∧ receiver_at (n + Z.of_nat (length data)) c'.
Proof.
  intros [R1 R2 R3 R4] Hin. unfold receive_next.
  match goal with |- context [TCP_TCPLEN ?y] => set (seg := y) end.
  assert (good_seg n seg ∧ ordered (n + sg_len seg) (ooseq c)) as [Hseg Hq].
  { subst seg. pose proof (good_range _ _ Hin). destruct (ooseq c) as [|x q]; [done|].
    destruct R3 as (k & Hk & Hx & Ho). pose proof (good_range _ _ Hx).
    rewrite (gs_seqno _ _ Hx), (gs_seqno _ _ Hin), u32_add, <-Z.add_assoc, seq_leq by lia.
    destruct (Z.leb_spec k (n + sg_len inseg)) as [Hle|Hgt]; [|split; [done|]; exists k; split_and!; [lia|done|done]].
    assert (cut_seg (u32 (irs + k) - u32 (irs + n)) inseg = cut_seg (k - n) inseg) as ->.
    { unfold cut_seg. rewrite u16_seq_diff by lia. by rewrite (u16_small (k - n)) by (unfold is_u16; lia). }
    destruct (cut_seg_good n inseg (k - n) Hin) as [H1 H2]; [lia|]. rewrite H2. split; [done|].
    exists k. split_and!; [lia|done|done]. }
  clearbody seg. rewrite (good_tcplen _ _ Hseg). pose proof Hseg as [G1 G2 G3 G4 G5]. pose proof G5 as (_ & S2 & _).
  assert (has (sg_flags seg) TCP_FIN = false) as -> by (by apply orb_false_iff in G4 as [? _]).
  destruct (sg_data seg) as [|z data] eqn:Edata; [cbn in G2; lia|]. rewrite <-Edata in *.
  match goal with |- context [dequeue false _ ?y] => set (c1 := y) end.
  destruct (dequeue_ok (ooseq c1) (n + sg_len seg) c1 (sg_data seg)) as (c2 & more & -> & H2 & H3 & H4 & H5 & H6);
    try done; [|lia|].
  { subst c1. cbn. rewrite R1, u32_add. f_equal. lia. }
  cbn [mbind option_bind]. destruct (tcp_ack_some route ticks c2 mems) as (c' & outs & mems' & -> & (T1 & T2 & T3) & T4 & T5).
  { by rewrite H6. }
  exists c', outs, mems', (sg_data seg ++ more). rewrite length_app, Nat2Z.inj_add, <-G2, Z.add_assoc.
  pose proof H3 as (_ & S3 & _). split_and!; [done|congruence|by rewrite Edata| |].
  - apply slice_join; [done|]. by rewrite <-G2.
  - split; [rewrite T1, H2; done|lia|by rewrite T4|by rewrite T3, H6].
Qed.

(** A segment of the peer: data of [all], or no data at all. *)
Definition from_peer (x : tcp_seg) : Prop :=
  (∃ k, good_seg k x) ∨ sg_len x = 0 ∧ is_ctrl (sg_flags x) = false.

Lemma receiver_idle n c : receiver_at n c → recv_data c = None →
  slice n (default [] (recv_data c)) ∧ receiver_at (n + Z.of_nat (length (default [] (recv_data c)))) c.
Proof. intros H ->. cbn. rewrite Z.add_0_r. split; [apply slice_nil, H|done]. Qed.

(** Nothing but acknowledgements: the receiver stays where it is. *)
Lemma ack_now_idle route ticks n c mems :
  receiver_at n c → recv_data c = None →
  ∃ c' outs mems', tcp_ack_now route ticks c mems = Some (c', outs, mems') ∧ recv_data c' = None ∧
    receiver_at n c' ∧ ooseq c' = ooseq c.
Proof.
  intros [R1 R2 R3 R4] Hd. unfold tcp_ack_now.
  destruct (output_now_some route ticks (raise_flag TF_ACK_NOW c) mems) as (c' & outs & mems' & -> & (T1 & T2 & T3) & T4 & T5);
    [done|]. exists c', outs, mems'. split_and!; [done|by rewrite T5| |done].
  split; [by rewrite T1|done|by rewrite T4|by rewrite T3].
Qed.

Lemma receive_data_ok route ticks inseg c mems n :
  receiver_at n c → recv_data c = None → from_peer inseg →
  longer_copy (trim_front (rcv_nxt (c_pcb c)) inseg) (ooseq c) = false →
  ∃ c' outs mems', receive_data route ticks inseg c mems = Some (c', outs, mems') ∧
    slice n (default [] (recv_data c')) ∧
    receiver_at (n + Z.of_nat (length (default [] (recv_data c')))) c' ∧
    (∀ k, good_seg k inseg → k <= n < k + sg_len inseg → 0 < rcv_wnd (c_pcb c) < 65536 →
      default [] (recv_data c') ≠ []).
Proof.
  intros Hc Hd Hpeer Htw. pose proof Hc as [R1 R2 R3 R4]. unfold receive_data.
  destruct Hpeer as [[k Hin]|[Hlen Hctrl]].
  2:{ assert (TCP_TCPLEN inseg = 0) as Hz by (unfold TCP_TCPLEN; unfold is_ctrl in Hctrl; rewrite Hctrl; lia).
      assert (∀ k, good_seg k inseg → False) as Hno by (intros k Hk; destruct (good_range _ _ Hk); lia).
      rewrite Hz. cbn [Z.ltb Z.compare]. destruct (_ || _).
      - destruct (ack_now_idle route ticks n c mems Hc Hd) as (c' & outs & mems' & -> & H1 & H2 & _).
        exists c', outs, mems'. destruct (receiver_idle n c' H2 H1). split_and!; try done. by intros k Hk%Hno.
      - exists c, [], mems. destruct (receiver_idle n c Hc Hd). split_and!; try done. by intros k Hk%Hno. }
  pose proof (good_range _ _ Hin) as Hkr. rewrite (good_tcplen _ _ Hin), (proj2 (Z.ltb_lt 0 _)) by lia.
  set (seg := trim_front (rcv_nxt (c_pcb c)) inseg) in *.
  assert (∃ j, good_seg j seg ∧ (k <= n < k + sg_len inseg → j = n)) as (j & Hseg & Hjn).
  { subst seg. rewrite R1. destruct (trim_front_good k inseg n Hin) as [(H1 & H2 & H3)|[H1 H2]]; [lia|exists k|exists n];
      (split; [done|]); lia. }
  clearbody seg. pose proof (good_range _ _ Hseg) as Hjr.
  assert (∀ k', good_seg k' inseg → k' = k) as Huniq by (intros k' Hk'; exact (good_offset _ _ _ _ Hk' Hin eq_refl)).
  rewrite R1, (gs_seqno _ _ Hseg), seq_geq, seq_eq, u32_add, <-Z.add_assoc by lia.
  destruct (Z.leb_spec n j) as [Hge|Hlt]; cbn [andb].
  2:{ exists c, [], mems. destruct (receiver_idle n c Hc Hd). split_and!; try done.
      intros k' ->%Huniq Hk' _. specialize (Hjn Hk'). lia. }
  destruct (TCP_SEQ_LT (u32 (irs + j)) (u32 (irs + (n + rcv_wnd (c_pcb c))))) eqn:Ew.
  2:{ exists c, [], mems. destruct (receiver_idle n c Hc Hd). split_and!; try done.
      intros k' ->%Huniq Hk' Hw. specialize (Hjn Hk'). subst j. rewrite seq_lt, Z.ltb_ge in Ew by lia. lia. }
  destruct (Z.eqb_spec n j) as [<-|Hne].
  - destruct (receive_next_ok route ticks seg c mems n Hc Hseg) as (c' & outs & mems' & data & -> & H1 & H2 & H3 & H4).
    exists c', outs, mems'. rewrite H1. by split_and!.
  - destruct (ack_now_idle route ticks n c mems Hc Hd) as (c1 & outs & mems1 & -> & H1 & [Q1 Q2 Q3 Q4] & Hq).
    cbn [mbind option_bind]. rewrite Hq.
    pose proof (insert_ordered j seg (ooseq c) (n + 1) mems1 Hseg Htw) as Hi.
    destruct (ooseq_insert seg (ooseq c) mems1) as [q mems2]. exists (set_ooseq q c1), outs, mems2.
    assert (receiver_at n (set_ooseq q c1)) as Hc' by (split; try done; apply Hi; [lia|done]).
    destruct (receiver_idle n (set_ooseq q c1) Hc' H1). split_and!; try done.
    intros k' ->%Huniq Hk' _. specialize (Hjn Hk'). lia.
Qed.
End delivery.
