(* ===== verification/TcpConnection.v ===== *)
(** One direction of a TCP connection: the sender of file Tcp, a network that
    loses, repeats and reorders segments, and the receiver of file TcpReceive. *)

From stdpp Require Import base tactics list numbers sets relations.
From Stdlib Require Import ZArith Lia.
From S2P Require Import Prelude TcpOptions Tcp TcpSpec TcpProps TcpReceive TcpDelivery.

Local Open Scope Z_scope.

(** * More bytes do not take anything away *)

Lemma slice_more all new k data : slice all k data → slice (all ++ new) k data.
Proof.
  intros (H1 & H2 & H3). split_and!; [done|rewrite length_app; lia|].
  rewrite H3, drop_app_le, take_app_le; [done|rewrite length_drop; lia|lia].
Qed.

Lemma good_seg_more all new irs k x : good_seg all irs k x → good_seg (all ++ new) irs k x.
Proof. intros [H1 H2 H3 H4 H5]. split; try done. by apply slice_more. Qed.

Lemma ordered_more all new irs lo q : ordered all irs lo q → ordered (all ++ new) irs lo q.
Proof.
  revert lo. induction q as [|x q IH]; intros lo; [done|]. intros (k & H1 & H2 & H3).
  exists k. split_and!; [done|by apply good_seg_more|by apply IH].
Qed.

Lemma receiver_more all new irs n c : receiver_at all irs n c → receiver_at (all ++ new) irs n c.
Proof. intros [H1 H2 H3 H4]. split; [done|rewrite length_app; lia|by apply ordered_more|done]. Qed.

(** * Runs of a connection *)

(** What of a segment the receiver's functions see. *)
Definition arriving (o : tcp_out) : tcp_seg :=
  Seg (o_seqno o) (Z.of_nat (length (o_data o))) (o_flags o) (o_opts o) (o_data o) 1.

Record connection := Connection { cn_sending : sending; cn_conn : conn; cn_delivered : list Z }.

(** The receiver takes any segment that was sent at any time, but for SYN and
    FIN and the copies of [longer_copy] ([tcp_stale_queue_jumps]).  It may also
    lose its queue or change what receiving does not depend on. *)
Inductive connection_step (route : Z → Z) : connection → connection → Prop :=
  | conn_send st st' c got :
      sender_step route st st' → connection_step route (Connection st c got) (Connection st' c got)
  | conn_receive st c got o ticks mems c' outs mems' :
      o ∈ sd_sent st → is_ctrl (o_flags o) = false →
      longer_copy (trim_front (rcv_nxt (c_pcb c)) (arriving o)) (ooseq c) = false →
      receive_data route ticks (arriving o) (set_recv_data None c) mems = Some (c', outs, mems') →
      connection_step route (Connection st c got) (Connection st c' (got ++ default [] (recv_data c')))
  | conn_other st c got c' :
      rcv_nxt (c_pcb c') = rcv_nxt (c_pcb c) → local_ip (c_pcb c') = local_ip (c_pcb c) →
      ooseq c' = ooseq c ∨ ooseq c' = [] →
      connection_step route (Connection st c got) (Connection st c' got).

Definition connection_ok (iss n0 : Z) (cn : connection) : Prop :=
  sending_ok iss (cn_sending cn) ∧
  let all := sd_all (cn_sending cn) in
  slice all n0 (cn_delivered cn) ∧ receiver_at all iss (n0 + Z.of_nat (length (cn_delivered cn))) (cn_conn cn).

(** A step of the sender only adds to its bytes. *)
Lemma sender_step_adds route st st' : sender_step route st st' → ∃ new, sd_all st' = sd_all st ++ new.
Proof. intros H. destruct H; cbn; try (by eexists); exists []; by rewrite app_nil_r. Qed.

Lemma sent_from_peer iss all o :
  sent_at iss all o → is_ctrl (o_flags o) = false → from_peer all iss (arriving o).
Proof.
  intros Hs Hctrl. destruct (decide (o_data o = [])) as [E|Hne].
  { right. cbn. by rewrite E. }
  left. destruct Hs as [|(k & H1 & H2 & H3)]; [done|]. unfold TCP_MSS in H3. exists (Z.of_nat k).
  assert (0 < length (o_data o))%nat by (destruct (o_data o); [done|cbn; lia]).
  pose proof (f_equal length H2) as Hl. rewrite length_fmap, length_take, length_drop in Hl.
  split; cbn; try done; [lia|]. split_and!; [lia|lia|by rewrite Nat2Z.id].
Qed.

Lemma connection_step_ok route iss n0 cn cn' :
  connection_step route cn cn' → Z.of_nat (length (sd_all (cn_sending cn'))) < 1073741824 →
  connection_ok iss n0 cn → connection_ok iss n0 cn'.
Proof.
  intros Hstep Hshort (Hs & Hd & Hc).
  destruct Hstep as [st st' c got H|st c got o ticks mems c' outs mems' Ho Hctrl Htw H|st c got c' E1 E2 E3]; cbn in *.
  - destruct (sender_step_adds _ _ _ H) as [new E]. split; cbn; [by eapply sender_step_ok|]. rewrite E.
    split; [by apply slice_more|by apply receiver_more].
  - destruct Hs as (gone & a & b & Hp & Hall & Hsent). split; cbn; [by exists gone, a, b|].
    rewrite Forall_forall in Hsent. pose proof (sent_from_peer _ _ _ (Hsent _ Ho) Hctrl) as Hpeer.
    destruct (receive_data_ok _ iss Hshort route ticks (arriving o) (set_recv_data None c) mems
      (n0 + Z.of_nat (length got))) as (c2 & outs2 & mems2 & E & H1 & H2 & _); [|done|done|done|].
    { destruct Hc as [C1 C2 C3 C4]. by split. }
    rewrite E in H. injection H as <- <- <-. rewrite length_app, Nat2Z.inj_add, Z.add_assoc.
    split; [|done]. by apply slice_join.
  - split; [done|]. split; [done|]. destruct Hc as [C1 C2 C3 C4].
    split; cbn; [by rewrite E1|done| |by rewrite E2]. destruct E3 as [-> | ->]; done.
Qed.

Lemma connection_step_grows route cn cn' :
  connection_step route cn cn' →
  (length (sd_all (cn_sending cn)) <= length (sd_all (cn_sending cn')))%nat.
Proof.
  intros []; cbn; [|done..]. destruct (sender_step_adds _ _ _ H) as [new ->]. rewrite length_app. lia.
Qed.

Lemma connection_run_ok route iss n0 cn cn' :
  rtc (connection_step route) cn cn' → Z.of_nat (length (sd_all (cn_sending cn'))) < 1073741824 →
  connection_ok iss n0 cn → connection_ok iss n0 cn'.
Proof.
  intros Hrun. induction Hrun as [|cn1 cn2 cn3 H1 H2 IH]; [done|]. intros Hshort H. apply IH; [done|].
  eapply connection_step_ok; [done| |done]. enough (∀ x y, rtc (connection_step route) x y →
    (length (sd_all (cn_sending x)) <= length (sd_all (cn_sending y)))%nat) as Hm by (specialize (Hm _ _ H2); lia).
  clear. intros x y. induction 1 as [|x y z H _ IH]; [done|]. apply connection_step_grows in H. lia.
Qed.

(** C15: One direction of a connection, from the SYN on and for less than 2^30
    bytes: whatever the application writes and closes, whatever segments without
    SYN or FIN are lost, repeated or delivered in another order, but for a longer
    copy of a queued segment that reaches into the next one, and however often
    either side runs out of memory, the bytes that the receiver hands to its application are the first bytes
    that the sender accepted, each once and in order, and its next sequence
    number is the one behind them. *)
Theorem tcp_delivers_in_order route iss st0 c0 cn :
  is_u32 iss → rtc (sender_step route) (Sending (tcp_new iss) [] []) st0 → sd_all st0 = [None] →
  rcv_nxt (c_pcb c0) = u32 (iss + 1) → ooseq c0 = [] → local_ip (c_pcb c0) ≠ 0 →
  rtc (connection_step route) (Connection st0 c0 []) cn →
  Z.of_nat (length (sd_all (cn_sending cn))) < 1073741824 →
  let got := cn_delivered cn in
  Some <$> got = take (length got) (drop 1 (sd_all (cn_sending cn))) ∧
  rcv_nxt (c_pcb (cn_conn cn)) = u32 (iss + (1 + Z.of_nat (length got))).
Proof.
  intros Hi Hst Hsyn Hn Hq Hip Hrun Hshort. destruct (connection_run_ok route iss 1 _ _ Hrun Hshort) as (_ & Hd & Hc).
  - split; [by eapply sending_reachable|]. cbn. rewrite Hsyn. split; [by apply slice_nil|].
    split; [done|done|by rewrite Hq|done].
  - split; [apply Hd|apply Hc].
Qed.

(** The peer's block: it has taken the SYN with number 4294967295. *)
Definition demo_peer : conn := Conn (set_local_ip 9 (set_rcv_nxt 0 (set_state ESTABLISHED (tcp_new 50)))) [] None 0.

(** Two segments are sent; they arrive in the other order. *)
Lemma tcp_delivers_in_order_witness :
  ∃ cn, cn_delivered cn = [1; 2; 3; 4; 5] ∧
    Some <$> [1; 2; 3; 4; 5] = take 5 (drop 1 (sd_all (cn_sending cn))) ∧ rcv_nxt (c_pcb (cn_conn cn)) = 5.
Proof.
  assert (∃ st, rtc (sender_step demo_route) (Sending (tcp_new 4294967295) [] []) st ∧ sd_all st = [None] ∧
    ∃ cn, rtc (connection_step demo_route) (Connection st demo_peer []) cn ∧
      Z.of_nat (length (sd_all (cn_sending cn))) = 6 ∧ cn_delivered cn = [1; 2; 3; 4; 5])
    as (st & H1 & H2 & cn & H3 & H4 & H5).
  { eexists. split.
    { eapply rtc_l; [eapply (step_ctrl _ _ _ _ TCP_SYN false (Some [2; 4; 0; 128]) [true; true]); [done|vm_compute; reflexivity]|].
      eapply rtc_l; [eapply (step_output _ _ _ _ 5 []); vm_compute; reflexivity|].
      eapply rtc_l; [eapply (step_ack _ _ _ _ 6 1 0 1000); [done|done|vm_compute; reflexivity]|].
      eapply rtc_l; [|apply rtc_refl].
      match goal with |- sender_step _ (Sending ?p _ _) _ =>
        eapply (step_other _ _ _ _ (set_cwnd 1000 (set_state ESTABLISHED p))); try reflexivity; done end. }
    split; [done|]. eexists. split.
    { eapply rtc_l; [eapply conn_send, (step_write _ _ _ _ [1; 2; 3] true [true; true]); vm_compute; reflexivity|].
      eapply rtc_l; [eapply conn_send, (step_output _ _ _ _ 7 []); vm_compute; reflexivity|].
      eapply rtc_l; [eapply conn_send, (step_write _ _ _ _ [4; 5] true [true; true]); vm_compute; reflexivity|].
      eapply rtc_l; [eapply conn_send, (step_output _ _ _ _ 7 []); vm_compute; reflexivity|].
      eapply rtc_l; [eapply (conn_receive _ _ _ _ _ 7 [true; true]);
        [apply list_elem_of_lookup; exists 2%nat; reflexivity|done|done|vm_compute; reflexivity]|].
      eapply rtc_l; [eapply (conn_receive _ _ _ _ _ 7 [true; true]);
        [apply list_elem_of_lookup; exists 1%nat; reflexivity|done|done|vm_compute; reflexivity]|].
      apply rtc_refl. }
    by vm_compute. }
  exists cn. split; [done|].
  destruct (tcp_delivers_in_order demo_route 4294967295 st demo_peer cn) as [H6 H7]; try done; [lia|].
  rewrite H5 in H6, H7. by split.
Defined.

(** C17: In every state of a receiver whose queue holds bytes of the peer (of a
    stream of less than 2^30 bytes), a segment of the peer without SYN and FIN
    that is not a longer copy of a queued segment reaching into the next one is
    processed to the end: what is handed to the
    application is the bytes that follow, the queue is kept in order without
    overlaps, and when the segment has the byte that is expected next and the
    window is open, bytes are handed over. *)
Theorem tcp_receiver_takes_segment all irs route ticks inseg c mems n :
  Z.of_nat (length all) < 1073741824 → receiver_at all irs n c → recv_data c = None → from_peer all irs inseg →
  longer_copy (trim_front (rcv_nxt (c_pcb c)) inseg) (ooseq c) = false →
  ∃ c' outs mems', receive_data route ticks inseg c mems = Some (c', outs, mems') ∧
    let data := default [] (recv_data c') in
    slice all n data ∧ receiver_at all irs (n + Z.of_nat (length data)) c' ∧
    (∀ k, good_seg all irs k inseg → k <= n < k + sg_len inseg → 0 < rcv_wnd (c_pcb c) < 65536 → data ≠ []).
Proof. intros Hs. exact (receive_data_ok all irs Hs route ticks inseg c mems n). Qed.

(** The peer's bytes 0 to 9 from sequence number 4294967294 on: a segment with
    bytes 1 to 4 arrives where bytes 3 to 5 are queued and 2 is expected. *)
Definition ten_bytes : list (option Z) := Some <$> [0; 1; 2; 3; 4; 5; 6; 7; 8; 9].

Lemma ten_bytes_seg k x :
  sg_seqno x = u32 (4294967294 + k) → sg_len x = Z.of_nat (length (sg_data x)) → 0 < sg_len x <= 10 →
  sg_flags x = 0 → 0 <= k → k + Z.of_nat (length (sg_data x)) <= 10 →
  Some <$> sg_data x = take (length (sg_data x)) (drop (Z.to_nat k) ten_bytes) → good_seg ten_bytes 4294967294 k x.
Proof. intros H1 H2 H3 H4 H5 H6 H7. split; [done|done|lia|by rewrite H4|by split_and!]. Qed.

Definition queued_three : conn :=
  Conn (set_local_ip 9 (set_rcv_nxt 0 (tcp_new 50))) [Seg 1 3 0 [] [3; 4; 5] 1] None 0.

Lemma tcp_receiver_takes_segment_witness :
  let inseg := Seg 4294967295 4 0 [] [1; 2; 3; 4] 1 in
  ∃ c' outs mems', receive_data demo_route 5 inseg queued_three [] = Some (c', outs, mems') ∧
    default [] (recv_data c') ≠ [] ∧ slice ten_bytes 2 (default [] (recv_data c')).
Proof.
  intros inseg.
  assert (good_seg ten_bytes 4294967294 1 inseg) as Hin by (by apply ten_bytes_seg).
  assert (receiver_at ten_bytes 4294967294 2 queued_three) as Hc.
  { split; [done|done| |done]. exists 3. split_and!; [done|by apply ten_bytes_seg|done]. }
  destruct (tcp_receiver_takes_segment ten_bytes 4294967294 demo_route 5 inseg queued_three [] 2)
    as (c' & outs & mems' & H1 & H2 & _ & H3); [done|done|done|by left; exists 1|done|].
  exists c', outs, mems'. split_and!; [done| |done]. refine (H3 1 Hin _ _); [cbn; lia|split; reflexivity].
Defined.

(** When the queue has been left with a segment from before the expected
    byte, the next segment in order is cut to a length that wraps around: the
    receiver acknowledges 65536 bytes behind the queued segment, which nobody
    sent. *)
Theorem tcp_stale_queue_jumps all irs route ticks inseg c mems n k x q :
  Z.of_nat (length all) < 1073741824 → good_seg all irs n inseg → ooseq c = x :: q → sg_seqno x = u32 (irs + k) →
  0 <= k < n → n - k < 65536 → rcv_nxt (c_pcb c) = u32 (irs + n) → local_ip (c_pcb c) ≠ 0 →
  ∃ c' outs mems', receive_next route ticks inseg c mems = Some (c', outs, mems') ∧
    rcv_nxt (c_pcb c') = u32 (irs + (k + 65536)).
Proof.
  intros Hs Hin Hq Hx Hk Hkn Hn Hip. unfold receive_next. rewrite Hq.
  pose proof (good_range _ _ Hs _ _ Hin) as Hr. pose proof Hin as [G1 G2 G3 G4 G5].
  rewrite Hx, G1, u32_add, <-Z.add_assoc, seq_leq, (proj2 (Z.leb_le k _)) by lia.
  assert (u16 (u32 (irs + k) - u32 (irs + n)) = 65536 - (n - k)) as Eu.
  { replace (u32 (irs + k)) with (u32 (irs + (k + 65536) - 65536)) by (f_equal; lia).
    rewrite <-(u16_small (65536 - (n - k))) by (unfold is_u16; lia). unfold u16, u32.
    rewrite (Z.mod_eq (irs + (k + 65536) - 65536) 4294967296), (Z.mod_eq (irs + n) 4294967296) by lia.
    set (u := _ / _). set (v := (irs + n) / _).
    replace (irs + (k + 65536) - 65536 - 4294967296 * u - (irs + n - 4294967296 * v))
      with (65536 - (n - k) + (- 1 + (v - u) * 65536) * 65536) by lia.
    by rewrite Z.mod_add by lia. }
  assert (TCP_TCPLEN (cut_seg (u32 (irs + k) - u32 (irs + n)) inseg) = 65536 - (n - k)) as ->.
  { unfold is_ctrl in G4. apply orb_false_iff in G4 as [F1 F2]. by rewrite tcplen_plain. }
  assert (has (sg_flags (cut_seg (u32 (irs + k) - u32 (irs + n)) inseg)) TCP_FIN = false) as ->
    by (by apply orb_false_iff in G4 as [? _]).
  match goal with |- context [dequeue false _ ?y] => set (c1 := y) end.
  assert (rcv_nxt (c_pcb c1) = u32 (irs + (k + 65536)) ∧ ooseq c1 = x :: q ∧ local_ip (c_pcb c1) = local_ip (c_pcb c))
    as (E1 & E2 & E3).
  { assert (rcv_nxt (c_pcb (advance (65536 - (n - k)) c)) = u32 (irs + (k + 65536))) as Ha.
    { cbn [c_pcb advance on_pcb rcv_nxt set_rcv_wnd set_rcv_nxt]. rewrite Hn, u32_add. f_equal. lia. }
    subst c1. by destruct (sg_data (cut_seg _ inseg)). }
  clearbody c1. rewrite E2. cbn [dequeue]. rewrite Hx, E1, seq_eq, (proj2 (Z.eqb_neq k _)) by lia. cbn [mbind option_bind].
  destruct (tcp_ack_some route ticks c1 mems) as (c' & outs & mems' & -> & (T1 & _) & _); [by rewrite E3|].
  exists c', outs, mems'. split; [done|]. by rewrite T1.
Qed.

(** The segments of a peer, one after the other. *)
Fixpoint receive_all (segs : list tcp_seg) (c : conn) (mems : list bool) : option conn :=
  match segs with
  | [] => Some c
  | x :: segs' =>
      '(c, _, mems) ← receive_data demo_route 5 x (set_recv_data None c) mems;
      receive_all segs' c mems
  end.

Definition expects_first : conn := Conn (set_local_ip 9 (set_rcv_nxt 4294967294 (tcp_new 50))) [] None 0.

(** Bytes 2-3 and 4-5 arrive early, then 2-7 in one segment, then 0-1: bytes 0
    to 7 are received and the segment with 4-5 stays on the queue. *)
Definition early_segments : list tcp_seg :=
  [Seg 0 2 0 [] [2; 3] 1; Seg 2 2 0 [] [4; 5] 1; Seg 0 6 0 [] [2; 3; 4; 5; 6; 7] 1; Seg 4294967294 2 0 [] [0; 1] 1].

Lemma tcp_stale_queue_jumps_witness :
  Forall (from_peer ten_bytes 4294967294) early_segments ∧
  ∃ c c' outs mems', receive_all early_segments expects_first (replicate 9 true) = Some c ∧
    rcv_nxt (c_pcb c) = u32 (4294967294 + 8) ∧ map sg_data (ooseq c) = [[4; 5]] ∧
    receive_next demo_route 5 (Seg 6 2 0 [] [8; 9] 1) c [] = Some (c', outs, mems') ∧
    rcv_nxt (c_pcb c') = 65538.
Proof.
  split.
  { unfold early_segments. rewrite !Forall_cons. split_and!; [| | | |constructor]; left;
      [exists 2|exists 4|exists 2|exists 0]; by apply ten_bytes_seg. }
  assert (∃ c q, receive_all early_segments expects_first (replicate 9 true) = Some c ∧
    rcv_nxt (c_pcb c) = u32 (4294967294 + 8) ∧ map sg_data (ooseq c) = [[4; 5]] ∧
    ooseq c = Seg 2 2 0 [] [4; 5] 1 :: q ∧ local_ip (c_pcb c) = 9) as (c & q & H1 & H2 & H3 & H4 & H5).
  { do 2 eexists. split; [vm_compute; reflexivity|]. done. }
  destruct (tcp_stale_queue_jumps ten_bytes 4294967294 demo_route 5 (Seg 6 2 0 [] [8; 9] 1) c [] 8 4
    (Seg 2 2 0 [] [4; 5] 1) q) as (c' & outs & mems' & H6 & H7);
    [reflexivity|by apply ten_bytes_seg|exact H4|reflexivity|by split|reflexivity|exact H2|by rewrite H5|].
  exists c, c', outs, mems'. split_and!; [exact H1|exact H2|exact H3|exact H6|exact H7].
Defined.

(** The FIN of a segment that came early is not reported: the flag that is
    tested is the one of the segment that fills the gap. *)
Example tcp_queued_fin_lost :
  ∃ c, receive_all [Seg 0 2 TCP_FIN [] [2; 3] 1; Seg 4294967294 2 0 [] [0; 1] 1] expects_first (replicate 9 true) = Some c ∧
    rcv_nxt (c_pcb c) = u32 (4294967294 + 5) ∧ recv_data c = Some [0; 1; 2; 3] ∧ has (flags (c_pcb c)) TF_GOT_FIN = false.
Proof. eexists. split; [vm_compute; reflexivity|done]. Qed.

(** A FIN without data in front of a queued segment: a buffer is chained to none. *)
Example tcp_fin_before_queue_crashes :
  receive_all [Seg 4294967295 2 0 [] [1; 2] 1; Seg 4294967294 0 TCP_FIN [] [] 1] expects_first (replicate 9 true) = None.
Proof. vm_compute. reflexivity. Qed.

(** A segment with a FIN that is cut because its end is queued already: the FIN
    counts although its place was cut off, and the first queued byte is skipped. *)
Example tcp_cut_fin_skips_byte :
  ∃ c, receive_all [Seg 0 2 TCP_FIN [] [2; 3] 1; Seg 4294967294 4 TCP_FIN [] [0; 1; 2; 3] 1] expects_first (replicate 9 true) = Some c ∧
    rcv_nxt (c_pcb c) = u32 (4294967294 + 3) ∧ recv_data c = Some [0; 1] ∧ map sg_data (ooseq c) = [[2; 3]].
Proof. eexists. split; [vm_compute; reflexivity|done]. Qed.
