(* ===== verification/TcpProcess.v ===== *)
(** The state machine of TCP: [tcp_process] in lwtcp/tcp_input.c, with what it
    calls in lwtcp/tcp.c and lwtcp/tcp_output.c to end a connection.

    The functions that an application registers are parameters.  They get the
    control block and give it back with a result and what they sent. *)

From stdpp Require Import base tactics list numbers.
From Stdlib Require Import ZArith Lia.
From S2P Require Import Prelude TcpOptions Tcp TcpReceive.

Local Open Scope Z_scope.

(** A segment that arrived, with its addresses; [i_offset] is the byte of the
    header with the data offset. *)
Record tcp_in := In {
  i_src : Z; i_dest : Z;
  i_sport : Z; i_dport : Z;
  i_seg : tcp_seg;
  i_ackno : Z; i_wnd : Z;
  i_offset : Z
}.

Definition i_flags (i : tcp_in) : Z := sg_flags (i_seg i).
Definition i_seqno (i : tcp_in) : Z := sg_seqno (i_seg i).

Definition callback : Type := conn → list bool → err * conn * list tcp_out * list bool.

(** What happens to the control block: it stays, it goes to the list of blocks
    in TIME-WAIT, or its memory is freed. *)
Inductive fate := Kept (c : conn) | ToTimeWait (c : conn) | Freed.

(** [r_new] is a block for a new connection. *)
Record outcome := Outcome {
  r_err : err;
  r_fate : fate;
  r_new : option conn;
  r_outs : list tcp_out;
  r_mems : list bool
}.

Definition in_state (st : tcp_state) (c : conn) : conn := on_pcb (set_state st) c.

(** The MSS option of a SYN. *)
Definition mss_option (m : Z) : list Z := [2; 4; m / 256; Z.land m 255].

(** * Ending a connection *)

Definition tcp_pcb_purge (c : conn) : conn :=
  match state (c_pcb c) with
  | CLOSED | TIME_WAIT | LISTEN => c
  | _ => set_ooseq [] (on_pcb (λ p, set_unacked [] (set_unsent [] p)) c)
  end.

(** A reset needs a buffer; the allocation is tried twice. *)
Definition tcp_rst (seqno ackno local_ip remote_ip local_port remote_port : Z) (mems : list bool)
    : list tcp_out * list bool :=
  let out := Out local_ip remote_ip local_port remote_port seqno ackno (Z.lor TCP_RST TCP_ACK) 0 [] [] in
  let '(ok, mems) := alloc mems in
  if ok then ([out], mems)
  else let '(ok, mems) := alloc mems in (if ok then [out] else [], mems).

Section process.
Context (ip_route : Z → Z) (ticks : Z).

(** [tcp_pcb_remove], but for the list. *)
Definition tcp_pcb_remove (c : conn) (mems : list bool) : result :=
  let c := tcp_pcb_purge c in
  '(c, outs, mems) ← (match state (c_pcb c) with
                      | TIME_WAIT | LISTEN => Some (c, [], mems)
                      | _ => if has (flags (c_pcb c)) TF_ACK_DELAY
                             then output_now ip_route ticks (raise_flag TF_ACK_NOW c) mems
                             else Some (c, [], mems)
                      end);
  Some (in_state CLOSED c, outs, mems).

Definition tcp_abort (c : conn) (mems : list bool) : option (list tcp_out * list bool) :=
  let p := c_pcb c in
  '(_, outs, mems) ← tcp_pcb_remove c mems;
  match state p with
  | TIME_WAIT | LISTEN => Some (outs, mems)
  | _ =>
      let '(rst, mems) :=
        tcp_rst (snd_nxt p) (rcv_nxt p) (local_ip p) (remote_ip p) (local_port p) (remote_port p) mems in
      Some (outs ++ rst, mems)
  end.

(** The FIN of [tcp_close]; [st] is the state behind it. *)
Definition close_with_fin (st : tcp_state) (c : conn) (mems : list bool)
    : option (err * fate * list tcp_out * list bool) :=
  let '(e, p, mems) := tcp_send_ctrl TCP_FIN (c_pcb c) mems in
  let c := on_pcb (λ _, p) c in
  match e with
  | ERR_OK =>
      let c := in_state st c in
      '(e, p, outs, mems) ← tcp_output ip_route ticks (c_pcb c) mems;
      Some (e, Kept (on_pcb (λ _, p) c), outs, mems)
  | _ => Some (e, Kept c, [], mems)
  end.

Definition tcp_close (c : conn) (mems : list bool) : option (err * fate * list tcp_out * list bool) :=
  match state (c_pcb c) with
  | LISTEN | SYN_SENT => '(_, outs, mems) ← tcp_pcb_remove c mems; Some (ERR_OK, Freed, outs, mems)
  | SYN_RCVD | ESTABLISHED => close_with_fin FIN_WAIT_1 c mems
  | CLOSE_WAIT => close_with_fin LAST_ACK c mems
  | _ => Some (ERR_OK, Kept c, [], mems)
  end.

(** * The state machine *)

(** [beyond] is the memory behind the packet; [fuel] bounds the loop over the
    options; [iss] is the next initial sequence number; the application's
    functions for new and for established connections, where there are any. *)
Context (beyond : Z → Z) (fuel : nat) (iss : Z).
Context (accept connected : conn → option callback).

Definition opt_byte (seg : tcp_seg) (c : Z) : Z :=
  match (sg_opts seg ++ sg_data seg) !! Z.to_nat c with Some b => b | None => beyond c end.

Definition parse_options (i : tcp_in) (c : conn) : option conn :=
  m ← tcp_parseopt fuel (opt_byte (i_seg i)) (i_offset i) (mss (c_pcb c));
  Some (on_pcb (set_mss m) c).

(** Whether a reset is taken. *)
Definition rst_acceptable (i : tcp_in) (p : tcp_pcb) : bool :=
  match state p with
  | LISTEN => false
  | SYN_SENT => i_ackno i =? snd_nxt p
  | _ => TCP_SEQ_GEQ (i_seqno i) (rcv_nxt p) && TCP_SEQ_LEQ (i_seqno i) (u32 (rcv_nxt p + rcv_wnd p))
  end.

Definition process_rst (i : tcp_in) (c : conn) (mems : list bool) : option outcome :=
  let c := if rst_acceptable i (c_pcb c)
           then on_pcb (λ p, set_flags (Z.land (Z.lor (flags p) TF_RESET) (Z.lnot TF_ACK_DELAY)) p) c else c in
  Some (Outcome ERR_RST (Kept c) None [] mems).

(** A connection request for the listening block [c]. *)
Definition process_listen (i : tcp_in) (c : conn) (mems : list bool) : option outcome :=
  if has (i_flags i) TCP_ACK then
    let '(outs, mems) := tcp_rst (u32 (i_ackno i + 1)) (u32 (i_seqno i + TCP_TCPLEN (i_seg i)))
                           (i_dest i) (i_src i) (i_dport i) (i_sport i) mems in
    Some (Outcome ERR_OK (Kept c) None outs mems)
  else if has (i_flags i) TCP_SYN then
    let '(ok, mems) := alloc mems in
    if negb ok then Some (Outcome ERR_OK (Kept c) None [] mems)
    else
      let p := tcp_new iss in
      let p := set_local_port (local_port (c_pcb c)) (set_local_ip (i_dest i) p) in
      let p := set_remote_port (i_sport i) (set_remote_ip (i_src i) p) in
      let p := set_rcv_nxt (u32 (i_seqno i + 1)) (set_state SYN_RCVD p) in
      let p := set_ssthresh (u16 (i_wnd i)) (set_snd_wnd (i_wnd i) p) in
      let p := set_snd_wl1 (i_seqno i) p in
      npcb ← parse_options i (Conn p [] None (u16 ticks));
      let '(_, p, mems) := tcp_enqueue [] (Z.lor TCP_SYN TCP_ACK) false (Some (mss_option (mss (c_pcb npcb))))
                             (c_pcb npcb) mems in
      '(e, p, outs, mems) ← tcp_output ip_route ticks p mems;
      Some (Outcome e (Kept c) (Some (on_pcb (λ _, p) npcb)) outs mems)
  else Some (Outcome ERR_OK (Kept c) None [] mems).

(** The block takes the answer to its SYN; [rest] is queued behind the SYN. *)
Definition take_syn_ack (i : tcp_in) (rest : list tcp_seg) (p : tcp_pcb) : tcp_pcb :=
  let p := set_lastack (i_ackno i) (set_rcv_nxt (u32 (i_seqno i + 1)) p) in
  let p := set_state ESTABLISHED (set_rcv_wnd (i_wnd i) p) in
  let p := set_snd_queuelen (u8 (snd_queuelen p - 1)) (set_cwnd (mss p) p) in
  set_unacked rest p.

(** The answer to our SYN.  A block without an unacknowledged segment is an
    access to none. *)
Definition process_syn_sent (i : tcp_in) (c : conn) (mems : list bool) : option outcome :=
  if has (i_flags i) TCP_ACK && has (i_flags i) TCP_SYN then
    match unacked (c_pcb c) with
    | [] => None
    | rseg :: rest =>
        if i_ackno i =? u32 (sg_seqno rseg + 1) then
          c ← parse_options i (on_pcb (take_syn_ack i rest) c);
          let '(_, c, outs, mems) := match connected c with
                                     | Some f => f c mems
                                     | None => (ERR_OK, c, [], mems)
                                     end in
          '(c, outs', mems) ← tcp_ack ip_route ticks c mems;
          Some (Outcome ERR_OK (Kept c) None (outs ++ outs') mems)
        else Some (Outcome ERR_OK (Kept c) None [] mems)
    end
  else Some (Outcome ERR_OK (Kept c) None [] mems).

Definition process_syn_rcvd (i : tcp_in) (c : conn) (mems : list bool) : option outcome :=
  if has (i_flags i) TCP_ACK && negb (has (i_flags i) TCP_RST) &&
     (TCP_SEQ_LT (lastack (c_pcb c)) (i_ackno i) && TCP_SEQ_LEQ (i_ackno i) (snd_nxt (c_pcb c)))
  then
    let c := in_state ESTABLISHED c in
    let '(e, c, outs, mems) := match accept c with
                               | Some f => f c mems
                               | None => (ERR_ABRT, c, [], mems)
                               end in
    match e with
    | ERR_OK =>
        '(c, outs', mems) ← tcp_receive ip_route ticks (i_seg i) (i_ackno i) (i_wnd i) c mems;
        Some (Outcome ERR_OK (Kept (on_pcb (λ p, set_cwnd (mss p) p) c)) None (outs ++ outs') mems)
    | _ =>
        '(outs', mems) ← tcp_abort c mems;
        Some (Outcome ERR_OK Freed None (outs ++ outs') mems)
    end
  else Some (Outcome ERR_OK (Kept c) None [] mems).

(** Both sides are closed. *)
Definition time_wait (c : conn) (outs : list tcp_out) (mems : list bool) : option outcome :=
  '(c, outs', mems) ← tcp_ack_now ip_route ticks c mems;
  Some (Outcome ERR_OK (ToTimeWait (in_state TIME_WAIT (tcp_pcb_purge c))) None (outs ++ outs') mems).

(** What follows [tcp_receive] in the states of an open connection. *)
Definition after_receive (i : tcp_in) (st : tcp_state) (c : conn) (outs : list tcp_out) (mems : list bool)
    : option outcome :=
  let fin := has (i_flags i) TCP_FIN in
  let all_acked := has (i_flags i) TCP_ACK && (i_ackno i =? snd_nxt (c_pcb c)) in
  let stay c := Some (Outcome ERR_OK (Kept c) None outs mems) in
  let acknowledge st :=
    '(c, outs', mems) ← tcp_ack_now ip_route ticks c mems;
    Some (Outcome ERR_OK (Kept (in_state st c)) None (outs ++ outs') mems) in
  match st with
  | CLOSE_WAIT | ESTABLISHED => if fin then acknowledge CLOSE_WAIT else stay c
  | FIN_WAIT_1 =>
      if fin then if all_acked then time_wait c outs mems else acknowledge CLOSING
      else if all_acked then stay (in_state FIN_WAIT_2 c) else stay c
  | FIN_WAIT_2 => if fin then time_wait c outs mems else stay c
  | CLOSING => if all_acked then time_wait c outs mems else stay c
  | LAST_ACK => if all_acked then stay (raise_flag TF_CLOSED (in_state CLOSED c)) else stay c
  | _ => stay c
  end.

Definition process_time_wait (i : tcp_in) (c : conn) (mems : list bool) : option outcome :=
  let e := u32 (i_seqno i + TCP_TCPLEN (i_seg i)) in
  let c := if TCP_SEQ_GT e (rcv_nxt (c_pcb c)) then on_pcb (set_rcv_nxt e) c else c in
  if 0 <? TCP_TCPLEN (i_seg i) then
    '(c, outs, mems) ← tcp_ack_now ip_route ticks c mems;
    Some (Outcome ERR_OK (Kept c) None outs mems)
  else Some (Outcome ERR_OK (Kept c) None [] mems).

Definition tcp_process (i : tcp_in) (c : conn) (mems : list bool) : option outcome :=
  if has (i_flags i) TCP_RST then process_rst i c mems
  else
    let c := match state (c_pcb c) with LISTEN => c | _ => set_tmr (u16 ticks) c end in
    match state (c_pcb c) with
    | CLOSED => Some (Outcome ERR_OK (Kept c) None [] mems)
    | LISTEN => process_listen i c mems
    | SYN_SENT => process_syn_sent i c mems
    | SYN_RCVD => process_syn_rcvd i c mems
    | TIME_WAIT => process_time_wait i c mems
    | st =>
        '(c, outs, mems) ← tcp_receive ip_route ticks (i_seg i) (i_ackno i) (i_wnd i) c mems;
        after_receive i st c outs mems
    end.
End process.
