(* ===== verification/TcpStack.v ===== *)
(** The lists of TCP control blocks: [tcp_input] in lwtcp/tcp_input.c, the
    timers and the functions for applications in lwtcp/tcp.c. *)

From stdpp Require Import base tactics list numbers.
From Stdlib Require Import ZArith Lia.
From S2P Require Import Prelude Memp TcpOptions Tcp TcpReceive TcpProcess.

Local Open Scope Z_scope.

(** [st_iss] and [st_port] are the static counters of [tcp_next_iss] and
    [tcp_new_port]. *)
Record stack := Stack {
  listen_pcbs : list conn;
  active_pcbs : list conn;
  tw_pcbs : list conn;
  tcp_ticks : Z;
  tcp_timer : Z;
  st_iss : Z;
  st_port : Z
}.

Definition set_listen (l : list conn) (s : stack) : stack :=
  Stack l (active_pcbs s) (tw_pcbs s) (tcp_ticks s) (tcp_timer s) (st_iss s) (st_port s).
Definition set_active (l : list conn) (s : stack) : stack :=
  Stack (listen_pcbs s) l (tw_pcbs s) (tcp_ticks s) (tcp_timer s) (st_iss s) (st_port s).
Definition set_tw (l : list conn) (s : stack) : stack :=
  Stack (listen_pcbs s) (active_pcbs s) l (tcp_ticks s) (tcp_timer s) (st_iss s) (st_port s).
Definition set_ticks (t : Z) (s : stack) : stack :=
  Stack (listen_pcbs s) (active_pcbs s) (tw_pcbs s) t (tcp_timer s) (st_iss s) (st_port s).
Definition set_timer (t : Z) (s : stack) : stack :=
  Stack (listen_pcbs s) (active_pcbs s) (tw_pcbs s) (tcp_ticks s) t (st_iss s) (st_port s).
Definition set_iss (v : Z) (s : stack) : stack :=
  Stack (listen_pcbs s) (active_pcbs s) (tw_pcbs s) (tcp_ticks s) (tcp_timer s) v (st_port s).
Definition set_port (v : Z) (s : stack) : stack :=
  Stack (listen_pcbs s) (active_pcbs s) (tw_pcbs s) (tcp_ticks s) (tcp_timer s) (st_iss s) v.

(** The stack after [tcp_init]. *)
Definition tcp_init : stack := Stack [] [] [] 0 0 6510 4096.

Definition tcp_next_iss (s : stack) : Z := u32 (st_iss s + tcp_ticks s).

(** The first element with a property, and the list without it. *)
Fixpoint extract {A} (f : A → bool) (l : list A) : option (A * list A) :=
  match l with
  | [] => None
  | x :: l' => if f x then Some (x, l')
               else match extract f l' with Some (y, r) => Some (y, x :: r) | None => None end
  end.

(** The first element with a property, between those in front and behind. *)
Fixpoint split_at {A} (f : A → bool) (l : list A) : option (list A * A * list A) :=
  match l with
  | [] => None
  | x :: l' => if f x then Some ([], x, l')
               else match split_at f l' with Some (a, y, b) => Some (x :: a, y, b) | None => None end
  end.

Definition for_conn (i : tcp_in) (c : conn) : bool :=
  (remote_port (c_pcb c) =? i_sport i) && (local_port (c_pcb c) =? i_dport i) &&
  (remote_ip (c_pcb c) =? i_src i) && (local_ip (c_pcb c) =? i_dest i).

Definition for_listener (i : tcp_in) (c : conn) : bool :=
  ((local_ip (c_pcb c) =? 0) || (local_ip (c_pcb c) =? i_dest i)) && (local_port (c_pcb c) =? i_dport i).

Section stack.
Context (ip_route : Z → Z) (beyond : Z → Z) (fuel : nat).
(** The application's functions, where a block has them. *)
Context (accept connected poll : conn → option callback).
Context (sent : conn → option (Z → callback)) (recv : conn → option (option (list Z) → callback)).
Context (pollinterval : conn → Z).

(** * Input *)

(** [tcp_input] behind [tcp_process] in a state below TIME-WAIT; the last result
    of the application decides whether [tcp_output] is called. *)
Definition notify (ticks : Z) (c : conn) (mems : list bool) : option (fate * list tcp_out * list bool) :=
  let got_fin c := has (flags (c_pcb c)) TF_GOT_FIN in
  let '(e, c, outs, mems) :=
    match sent c with
    | Some f => if 0 <? acked (c_pcb c) then f (acked (c_pcb c)) c mems else (ERR_OK, c, [], mems)
    | None => (ERR_OK, c, [], mems)
    end in
  '(e, ft, outs, mems) ←
    (match recv c with
     | Some f =>
         let '(e, c, outs, mems) :=
           match recv_data c with
           | Some d => let '(e, c, outs', mems) := f (Some d) c mems in (e, c, outs ++ outs', mems)
           | None => (e, c, outs, mems)
           end in
         let '(e, c, outs, mems) :=
           if got_fin c then let '(e, c, outs', mems) := f None c mems in (e, c, outs ++ outs', mems)
           else (e, c, outs, mems) in
         Some (e, Kept c, outs, mems)
     | None =>
         if got_fin c then '(_, ft, outs', mems) ← tcp_close ip_route ticks c mems; Some (ERR_OK, ft, outs ++ outs', mems)
         else Some (ERR_OK, Kept c, outs, mems)
     end);
  match e, ft with
  | ERR_OK, Kept c => '(c, outs', mems) ← output_now ip_route ticks c mems; Some (Kept c, outs ++ outs', mems)
  | ERR_OK, _ => None
  | _, _ => Some (ft, outs, mems)
  end.

(** What [tcp_input] does with a block that is not listening. *)
Definition finish (ticks : Z) (c : conn) (mems : list bool) : option (fate * list tcp_out * list bool) :=
  if has (flags (c_pcb c)) TF_RESET || has (flags (c_pcb c)) TF_CLOSED then
    '(_, outs, mems) ← tcp_pcb_remove ip_route ticks c mems; Some (Freed, outs, mems)
  else if state_num (state (c_pcb c)) <? 10 then notify ticks c mems
  else if decide (state (c_pcb c) = TIME_WAIT) then
    '(c, outs, mems) ← output_now ip_route ticks c mems; Some (Kept c, outs, mems)
  else Some (Kept c, [], mems).

(** Where a block of the active list goes; [rest] are the others. *)
Definition place_active (ft : fate) (rest : list conn) (s : stack) : stack :=
  match ft with
  | Kept c => set_active (c :: rest) s
  | ToTimeWait c => set_tw (c :: tw_pcbs s) (set_active rest s)
  | Freed => set_active rest s
  end.

(** A segment for the active connection [c].  After [tcp_process] has freed the
    block the code goes on with it, which is [None]. *)
Definition input_active (i : tcp_in) (c : conn) (rest : list conn) (s : stack) (mems : list bool)
    : option (stack * list tcp_out * list bool) :=
  let ticks := tcp_ticks s in
  r ← tcp_process ip_route ticks beyond fuel (tcp_next_iss s) accept connected i (set_recv_data None c) mems;
  match r_fate r with
  | Freed => None
  | Kept c =>
      '(ft, outs, mems) ← finish ticks c (r_mems r);
      Some (place_active ft rest s, r_outs r ++ outs, mems)
  | ToTimeWait c =>
      '(ft, outs, mems) ← finish ticks c (r_mems r);
      Some (match ft with
            | Freed => set_active rest s
            | Kept c | ToTimeWait c => set_tw (c :: tw_pcbs s) (set_active rest s)
            end, r_outs r ++ outs, mems)
  end.

(** A segment for a connection in TIME-WAIT, which keeps its place. *)
Definition input_tw (i : tcp_in) (front : list conn) (c : conn) (back : list conn) (s : stack) (mems : list bool)
    : option (stack * list tcp_out * list bool) :=
  let ticks := tcp_ticks s in
  r ← tcp_process ip_route ticks beyond fuel (tcp_next_iss s) accept connected i c mems;
  match r_fate r with
  | Kept c =>
      '(ft, outs, mems) ← finish ticks c (r_mems r);
      Some (set_tw (front ++ match ft with Kept c => [c] | _ => [] end ++ back) s, r_outs r ++ outs, mems)
  | _ => None
  end.

(** A segment for a listening block, which goes to the front of its list. *)
Definition input_listen (i : tcp_in) (c : conn) (rest : list conn) (s : stack) (mems : list bool)
    : option (stack * list tcp_out * list bool) :=
  let s := set_listen (c :: rest) s in
  r ← tcp_process ip_route (tcp_ticks s) beyond fuel (tcp_next_iss s) accept connected i c mems;
  let s := match r_new r with
           | Some n => set_active (n :: active_pcbs s) (set_iss (tcp_next_iss s) s)
           | None => s
           end in
  Some (s, r_outs r, r_mems r).

(** [cast] is the test for broadcast and multicast addresses, [sum] the
    checksum over the segment. *)
Definition tcp_input (cast : bool) (sum : Z) (i : tcp_in) (s : stack) (mems : list bool)
    : option (stack * list tcp_out * list bool) :=
  if cast then Some (s, [], mems)
  else if negb (sum =? 0) then Some (s, [], mems)
  else
    match extract (for_conn i) (active_pcbs s) with
    | Some (c, rest) => input_active i c rest s mems
    | None =>
        match split_at (for_conn i) (tw_pcbs s) with
        | Some (front, c, back) => input_tw i front c back s mems
        | None =>
            match extract (for_listener i) (listen_pcbs s) with
            | Some (c, rest) => input_listen i c rest s mems
            | None =>
                if has (i_flags i) TCP_RST then Some (s, [], mems)
                else
                  let '(outs, mems) := tcp_rst (i_ackno i) (u32 (i_seqno i + TCP_TCPLEN (i_seg i)))
                                         (i_dest i) (i_src i) (i_dport i) (i_sport i) mems in
                  Some (s, outs, mems)
            end
        end
    end.

(** * Timers *)

Definition TCP_SLOW_INTERVAL : Z := 500.
Definition TCP_FIN_WAIT_TIMEOUT : Z := 20000.
Definition TCP_SYN_RCVD_TIMEOUT : Z := 20000.
Definition TCP_OOSEQ_TIMEOUT : Z := 6.
Definition TCP_MSL : Z := 60000.
Definition TCP_MAXRTX : Z := 12.
Definition TCP_SYNMAXRTX : Z := 4.

(** Whether an active block is given up before its retransmission timer runs. *)
Definition too_many_rtx (p : tcp_pcb) : bool :=
  (bool_decide (state p = SYN_SENT) && (nrtx p =? TCP_SYNMAXRTX)) || (nrtx p =? TCP_MAXRTX).

(** Whether a block has been in its state for too long. *)
Definition stayed_too_long (ticks : Z) (c : conn) : bool :=
  match state (c_pcb c) with
  | FIN_WAIT_2 => TCP_FIN_WAIT_TIMEOUT / TCP_SLOW_INTERVAL <? u32 (ticks - c_tmr c)
  | SYN_RCVD => TCP_SYN_RCVD_TIMEOUT / TCP_SLOW_INTERVAL <? u32 (ticks - c_tmr c)
  | _ => false
  end.

(** The slow timer for one active block; [None] in the first component means
    that the block is removed. *)
Definition slow_active (ticks : Z) (c : conn) (mems : list bool)
    : option (option conn * list tcp_out * list bool) :=
  let dies := too_many_rtx (c_pcb c) in
  '(c, outs) ← (if dies then Some (c, [])
                else '(p, outs) ← retransmit (c_pcb c); Some (on_pcb (λ _, p) c, outs));
  let c := match ooseq c with
           | [] => c
           | _ => if rto (c_pcb c) * TCP_OOSEQ_TIMEOUT <=? u32 (ticks - c_tmr c) then set_ooseq [] c else c
           end in
  if dies || stayed_too_long ticks c then Some (None, outs, mems)
  else
    let c := on_pcb (λ p, set_polltmr (u8 (polltmr p + 1)) p) c in
    match poll c with
    | Some f =>
        if pollinterval c <=? polltmr (c_pcb c) then
          let '(_, c, outs', mems) := f (on_pcb (set_polltmr 0) c) mems in
          '(c, outs'', mems) ← output_now ip_route ticks c mems;
          Some (Some c, outs ++ outs' ++ outs'', mems)
        else Some (Some c, outs, mems)
    | None => Some (Some c, outs, mems)
    end.

Fixpoint slow_actives (ticks : Z) (l : list conn) (mems : list bool)
    : option (list conn * list tcp_out * list bool) :=
  match l with
  | [] => Some ([], [], mems)
  | c :: l' =>
      '(r, outs, mems) ← slow_active ticks c mems;
      '(l', outs', mems) ← slow_actives ticks l' mems;
      Some (match r with Some c => c :: l' | None => l' end, outs ++ outs', mems)
  end.

(** Whether a block has been in TIME-WAIT long enough. *)
Definition tw_over (ticks : Z) (c : conn) : bool := 2 * TCP_MSL / TCP_SLOW_INTERVAL <? u32 (ticks - c_tmr c).

Definition tcp_slowtmr (s : stack) (mems : list bool) : option (stack * list tcp_out * list bool) :=
  let s := set_ticks (u32 (tcp_ticks s + 1)) s in
  '(l, outs, mems) ← slow_actives (tcp_ticks s) (active_pcbs s) mems;
  Some (set_tw (filter (λ c, tw_over (tcp_ticks s) c = false) (tw_pcbs s)) (set_active l s), outs, mems).

Fixpoint fast_actives (ticks : Z) (l : list conn) (mems : list bool)
    : option (list conn * list tcp_out * list bool) :=
  match l with
  | [] => Some ([], [], mems)
  | c :: l' =>
      '(c, outs, mems) ← (if has (flags (c_pcb c)) TF_ACK_DELAY then
                            '(c, outs, mems) ← tcp_ack_now ip_route ticks c mems;
                            Some (on_pcb (λ p, set_flags (Z.land (flags p) (Z.lnot (Z.lor TF_ACK_DELAY TF_ACK_NOW))) p) c,
                                  outs, mems)
                          else Some (c, [], mems));
      '(l', outs', mems) ← fast_actives ticks l' mems;
      Some (c :: l', outs ++ outs', mems)
  end.

Definition tcp_fasttmr (s : stack) (mems : list bool) : option (stack * list tcp_out * list bool) :=
  '(l, outs, mems) ← fast_actives (tcp_ticks s) (active_pcbs s) mems;
  Some (set_active l s, outs, mems).

Definition tcp_tmr (s : stack) (mems : list bool) : option (stack * list tcp_out * list bool) :=
  let t := u8 (tcp_timer s + 1) in
  let s := set_timer (if t =? 10 then 0 else t) s in
  '(s, outs, mems) ← (if Z.odd (tcp_timer s) then tcp_fasttmr s mems else Some (s, [], mems));
  '(s, outs', mems) ← (if (tcp_timer s =? 0) || (tcp_timer s =? 5) then tcp_slowtmr s mems else Some (s, [], mems));
  Some (s, outs ++ outs', mems).

(** * Functions for applications *)

(** Whether a block uses the address and port already. *)
Definition in_use (ipaddr port : Z) (c : conn) : bool :=
  (local_port (c_pcb c) =? port) &&
  ((local_ip (c_pcb c) =? 0) || (ipaddr =? 0) || (local_ip (c_pcb c) =? ipaddr)).

Definition tcp_bind (c : conn) (ipaddr port : Z) (s : stack) : err * conn :=
  if existsb (in_use ipaddr port) (listen_pcbs s) || existsb (in_use ipaddr port) (active_pcbs s) then (ERR_USE, c)
  else
    let c := if ipaddr =? 0 then c else on_pcb (set_local_ip ipaddr) c in
    (ERR_OK, on_pcb (set_local_port port) c).

(** A block that is not on a list; the smaller block for it may not be there. *)
Definition tcp_listen (c : conn) (s : stack) (mems : list bool) : bool * stack * list bool :=
  let '(ok, mems) := alloc mems in
  if ok then (true, set_listen (in_state LISTEN c :: listen_pcbs s) s, mems) else (false, s, mems).

(** The same call on a block of the list of active blocks, [active_pcbs s] being
    [a ++ c :: b]: no caller tests the state.  The block that is still linked
    there is the one whose state is set. *)
Definition tcp_listen_linked (a : list conn) (c : conn) (b : list conn) (s : stack) (mems : list bool)
  : bool * stack * list bool :=
  let '(ok, s, mems) := tcp_listen c s mems in (ok, set_active (a ++ in_state LISTEN c :: b) s, mems).

Definition tcp_recved (ticks : Z) (len : Z) (c : conn) (mems : list bool) : result :=
  let w := u16 (rcv_wnd (c_pcb c) + len) in
  let c := on_pcb (set_rcv_wnd (if TCP_WND <? w then TCP_WND else w)) c in
  if negb (has (flags (c_pcb c)) TF_ACK_DELAY) || negb (has (flags (c_pcb c)) TF_ACK_NOW)
  then tcp_ack ip_route ticks c mems else Some (c, [], mems).

(** Each round of the search takes the next port; it ends within 28672 rounds
    when a port is free. *)
Fixpoint new_port_loop (rounds : nat) (port : Z) (used : Z → bool) : option Z :=
  match rounds with
  | O => None
  | S rounds' =>
      let port := if 0x7fff <? u16 (port + 1) then 4096 else u16 (port + 1) in
      if used port then new_port_loop rounds' port used else Some port
  end.

Definition port_used (s : stack) (port : Z) : bool :=
  existsb (λ c, local_port (c_pcb c) =? port) (active_pcbs s ++ tw_pcbs s ++ listen_pcbs s).

Definition tcp_new_port (s : stack) : option (Z * stack) :=
  port ← new_port_loop (Z.to_nat 28672) (st_port s) (port_used s);
  Some (port, set_port port s).

(** A block that is not on a list connects to a host. *)
Definition tcp_connect (c : conn) (ipaddr : option Z) (port : Z) (s : stack) (mems : list bool)
    : option (err * stack * list tcp_out * list bool) :=
  match ipaddr with
  | None => Some (ERR_VAL, s, [], mems)
  | Some ip =>
      let p := set_remote_port port (set_remote_ip ip (c_pcb c)) in
      '(p, s) ← (if local_port p =? 0 then '(n, s) ← tcp_new_port s; Some (set_local_port n p, s) else Some (p, s));
      let iss := tcp_next_iss s in
      let s := set_iss iss s in
      let p := set_snd_nxt iss (set_rcv_nxt 0 p) in
      let p := set_snd_lbb (u32 (iss - 1)) (set_lastack (u32 (iss - 1)) p) in
      let p := set_mss TCP_MSS (set_snd_wnd TCP_WND (set_rcv_wnd TCP_WND p)) in
      let p := set_state SYN_SENT (set_ssthresh (u16 (mss p * 10)) (set_cwnd 1 p)) in
      let '(e, p, mems) := tcp_enqueue [] TCP_SYN false (Some (mss_option (mss p))) p mems in
      '(p, outs, mems) ← (match e with
                          | ERR_OK => '(_, p, outs, mems) ← tcp_output ip_route (tcp_ticks s) p mems; Some (p, outs, mems)
                          | _ => Some (p, [], mems)
                          end);
      Some (e, set_active (on_pcb (λ _, p) c :: active_pcbs s) s, outs, mems)
  end.

(** * Shortage of memory *)

(** The active block that has been idle for the longest time, with those in
    front of it and behind it. *)
Fixpoint most_inactive (ticks inactivity : Z) (front l : list conn) (found : option (list conn * conn * list conn))
    : option (list conn * conn * list conn) :=
  match l with
  | [] => found
  | c :: l' =>
      let idle := u32 (ticks - c_tmr c) in
      if inactivity <? idle then most_inactive ticks idle (front ++ [c]) l' (Some (front, c, l'))
      else most_inactive ticks inactivity (front ++ [c]) l' found
  end.

(** That block is aborted; the boolean tells whether there was one. *)
Definition kill_oldest (s : stack) (mems : list bool) : option (bool * stack * list tcp_out * list bool) :=
  match most_inactive (tcp_ticks s) 0 [] (active_pcbs s) None with
  | None => Some (false, s, [], mems)
  | Some (front, c, back) =>
      '(outs, mems) ← tcp_abort ip_route (tcp_ticks s) c mems;
      Some (true, set_active (front ++ back) s, outs, mems)
  end.

(** The number of bytes reclaimed is never counted. *)
Definition tcp_mem_reclaim (s : stack) (mems : list bool) : option (Z * stack * list tcp_out * list bool) :=
  '(_, s, outs, mems) ← kill_oldest s mems; Some (0, s, outs, mems).

Definition has_ooseq (c : conn) : bool := match ooseq c with [] => false | _ => true end.

Definition tcp_memp_reclaim (type : memp_t) (s : stack) (mems : list bool)
    : option (Z * stack * list tcp_out * list bool) :=
  match type with
  | MEMP_TCP_SEG | MEMP_PBUF =>
      match split_at has_ooseq (active_pcbs s) with
      | Some (front, c, back) => Some (1, set_active (front ++ set_ooseq [] c :: back) s, [], mems)
      | None => Some (0, s, [], mems)
      end
  | MEMP_TCP_PCB =>
      match tw_pcbs s with
      | _ :: tw => Some (1, set_tw tw s, [], mems)
      | [] => '(killed, s, outs, mems) ← kill_oldest s mems; Some (Z.b2z killed, s, outs, mems)
      end
  | _ => Some (0, s, [], mems)
  end.
End stack.
