(* ===== verification/TcpStackProps.v ===== *)
(** The lists of TCP control blocks (file TcpStack): every block is on the list
    of its state, whatever arrives, whatever the timers and the application do;
    how connections are made; and what goes wrong. *)

From stdpp Require Import base tactics list numbers relations.
From Stdlib Require Import ZArith Lia.
From S2P Require Import Prelude Memp TcpOptions Tcp TcpSpec TcpReceive TcpProcess TcpStack.

Local Open Scope Z_scope.

(** * The state is changed by the state machine only *)

Definition st_of (c : conn) : tcp_state := state (c_pcb c).

Lemma enqueue_state data f copy opts p mems : state (tcp_enqueue data f copy opts p mems).1.2 = state p.
Proof.
  unfold tcp_enqueue. destruct (_ <? _); [done|]. destruct (_ <=? _); [done|].
  by destruct (enqueue_loop _ _ _ _ _ _ _ _ _ _) as [[[q ql]|] mems1].
Qed.

Lemma output_loop_state route ticks wnd segs p outs p' outs' :
  output_loop route ticks wnd segs p outs = Some (p', outs') → state p' = state p.
Proof.
  revert p outs. induction segs as [|seg rest IH]; intros p outs; cbn [output_loop]; [by intros [= <- <-]|].
  destruct (_ <=? wnd); [|by intros [= <- <-]]. set (p0 := set_unsent rest (set_rtime 0 p)).
  destruct (if decide (state p0 = SYN_SENT) then (seg, p0) else _) as [seg' p1] eqn:E1.
  assert (state p1 = state p) as Hp1 by (destruct (decide _); by injection E1 as <- <-).
  destruct (tcp_output_segment route ticks seg' p1) as [[p2 o]|] eqn:E2; [|done]. cbn [mbind option_bind].
  intros H%IH. rewrite H. unfold record_sent.
  transitivity (state p2); [by destruct (TCP_SEQ_LT _ _), (0 <? _)|]. rewrite <-Hp1. unfold tcp_output_segment in E2.
  destruct (local_ip p1 =? 0); [destruct (route _ =? 0); [done|]|]; cbn in E2; destruct (rttest p1 =? 0);
    by injection E2 as <- <-.
Qed.

Lemma output_state route ticks p mems e p' outs mems' :
  tcp_output route ticks p mems = Some (e, p', outs, mems') → state p' = state p.
Proof.
  unfold tcp_output. destruct (has (flags p) TF_ACK_NOW).
  - by destruct (alloc mems) as [[|] mems1]; cbn; intros [= <- <- <- <-].
  - destruct (output_loop _ _ _ _ _ _) as [[p1 outs1]|] eqn:E; [|done]. intros [= <- <- <- <-].
    by apply output_loop_state in E.
Qed.

Lemma output_now_state route ticks c mems c' outs mems' :
  output_now route ticks c mems = Some (c', outs, mems') → st_of c' = st_of c.
Proof.
  unfold output_now, st_of. destruct (tcp_output _ _ _ _) as [[[[e p] o] m]|] eqn:E; [|done].
  intros [= <- <- <-]. by apply output_state in E.
Qed.

Lemma ack_now_state route ticks c mems c' outs mems' :
  tcp_ack_now route ticks c mems = Some (c', outs, mems') → st_of c' = st_of c.
Proof. intros H. by apply output_now_state in H. Qed.

Lemma ack_state route ticks c mems c' outs mems' :
  tcp_ack route ticks c mems = Some (c', outs, mems') → st_of c' = st_of c.
Proof. unfold tcp_ack. destruct (has _ _); [intros H; by apply output_now_state in H|by intros [= <- <- <-]]. Qed.

Lemma rexmit_state p seg : state (tcp_rexmit_seg p seg).1 = state p.
Proof. unfold tcp_rexmit_seg. by destruct (in_window p seg). Qed.

Lemma drop_unsent_state ackno l p : state (drop_unsent ackno l p) = state p.
Proof.
  revert p. induction l as [|x l IH]; intros p; [done|]. cbn. destruct (TCP_SEQ_LEQ _ _); [|done].
  rewrite IH. by destruct l.
Qed.

Lemma drop_unacked_state ackno l p : state (drop_unacked ackno l p) = state p.
Proof. revert p. induction l as [|x l IH]; intros p; [done|]. cbn. destruct (TCP_SEQ_LEQ _ _); [by rewrite IH|done]. Qed.

Lemma inflate_state n p : state (inflate n p) = state p.
Proof. unfold inflate. by destruct (_ <? _). Qed.

Lemma new_ack_state ackno p p' : new_ack ackno p = Some p' → state p' = state p.
Proof.
  unfold new_ack. set (p1 := if has (flags p) TF_INFR then _ else p).
  assert (state p1 = state p) as H1 by (subst p1; by destruct (has _ _)).
  match goal with |- context [grow_window ?y] => set (p2 := y) end.
  destruct (grow_window p2) as [p3|] eqn:G; [|done]. intros [= <-].
  change (state (set_polltmr 0 ?y)) with (state y). rewrite drop_unacked_state, drop_unsent_state, <-H1.
  change (state p1) with (state p2). clearbody p2.
  unfold grow_window in G. destruct (4 <=? _); [|by injection G as <-].
  destruct (_ <? _); [injection G as <-; apply inflate_state|].
  destruct (_ =? _); [done|]. injection G as <-. apply inflate_state.
Qed.

Lemma receive_ack_state ticks seqno ackno wnd p p' outs :
  receive_ack ticks seqno ackno wnd p = Some (p', outs) → state p' = state p.
Proof.
  unfold receive_ack. set (p1 := update_window _ _ _ p).
  assert (state p1 = state p) as H1 by (subst p1; unfold update_window; by destruct (_ || _)).
  assert (∀ y, state (estimate_rtt ticks ackno y) = state y) as He by (intros y; unfold estimate_rtt; by destruct (_ && _)).
  destruct (lastack p1 =? ackno).
  { cbn. destruct (duplicate_ack p1) as [p2 o] eqn:E. intros [= <- <-]. rewrite He, <-H1. unfold duplicate_ack in E.
    set (p0 := set_dupacks _ p1) in *. change (state p1) with (state p0). clearbody p0.
    destruct (unacked p0) as [|seg rest]; [by injection E as <- <-|]. destruct (3 <=? dupacks p0); [|by injection E as <- <-].
    destruct (negb _); [|injection E as <- <-; apply inflate_state].
    pose proof (rexmit_state p0 seg) as Hr. destruct (tcp_rexmit_seg p0 seg) as [p3 o3]. by injection E as <- <-. }
  destruct (_ && _); [|intros [= <- <-]; by rewrite He].
  destruct (new_ack ackno p1) as [p2|] eqn:E; [|done]. intros [= <- <-]. rewrite He, <-H1. by eapply new_ack_state.
Qed.

Lemma dequeue_state fin q c c' : dequeue fin q c = Some c' → st_of c' = st_of c.
Proof.
  revert c. induction q as [|x q IH]; intros c; cbn [dequeue]; [by intros [= <-]|].
  destruct (_ =? _); [|by intros [= <-]].
  destruct (match sg_data x with [] => _ | _ => _ end) as [c1|] eqn:E; [|done]. cbn [mbind option_bind]. intros H%IH.
  rewrite H. transitivity (st_of c1); [by destruct fin|].
  destruct (sg_data x); [by injection E as <-|]. destruct (recv_data _); [|done]. by injection E as <-.
Qed.

Lemma receive_data_state route ticks inseg c mems c' outs mems' :
  receive_data route ticks inseg c mems = Some (c', outs, mems') → st_of c' = st_of c.
Proof.
  unfold receive_data. destruct (0 <? _).
  - set (seg := trim_front _ inseg). destruct (_ && _); [|by intros [= <- <- <-]]. destruct (_ =? _).
    + unfold receive_next. match goal with |- context [TCP_TCPLEN ?y] => set (seg' := y) end.
      match goal with |- context [dequeue _ _ ?y] => set (c1 := y) end.
      destruct (dequeue _ _ c1) as [c2|] eqn:E; [|done]. cbn [mbind option_bind]. intros H%ack_state.
      rewrite H. apply dequeue_state in E. rewrite E. subst c1. destruct (has _ _), (sg_data seg'); done.
    + destruct (tcp_ack_now route ticks c mems) as [[[c1 o] m]|] eqn:E; [|done]. cbn [mbind option_bind].
      destruct (ooseq_insert _ _ _) as [q m']. intros [= <- <- <-]. by apply ack_now_state in E.
  - destruct (_ || _); [apply ack_now_state|by intros [= <- <- <-]].
Qed.

Lemma tcp_receive_state route ticks inseg ackno wnd c mems c' outs mems' :
  tcp_receive route ticks inseg ackno wnd c mems = Some (c', outs, mems') → st_of c' = st_of c.
Proof.
  unfold tcp_receive. destruct (if has _ _ then _ else _) as [[c1 o1]|] eqn:E; [|done]. cbn [mbind option_bind].
  destruct (receive_data _ _ _ _ _) as [[[c2 o2] m2]|] eqn:E2; [|done]. intros [= <- <- <-].
  apply receive_data_state in E2. rewrite E2. destruct (has _ _); [|by injection E as <- <-].
  destruct (receive_ack _ _ _ _ _) as [[p o]|] eqn:E3; [|done]. injection E as <- <-.
  by apply receive_ack_state in E3.
Qed.

(** * Every block is on the list of its state *)

Definition is_active (st : tcp_state) : bool :=
  match st with CLOSED | LISTEN | TIME_WAIT => false | _ => true end.

Definition pcbs_sane (s : stack) : Prop :=
  Forall (λ c, is_active (st_of c) = true) (active_pcbs s) ∧
  Forall (λ c, st_of c = TIME_WAIT) (tw_pcbs s) ∧
  Forall (λ c, st_of c = LISTEN) (listen_pcbs s).

(** A function of the application leaves an active block active. *)
Definition keeps_active (f : callback) : Prop :=
  ∀ c mems, is_active (st_of c) = true → is_active (st_of (f c mems).1.1.2) = true.

(** What may become of an active block. *)
Definition active_fate (ft : fate) : Prop :=
  match ft with
  | Kept c => is_active (st_of c) = true
  | ToTimeWait c => st_of c = TIME_WAIT
  | Freed => True
  end.

(** The block of a connection that is closed is removed by [tcp_input]. *)
Definition process_fate (ft : fate) : Prop :=
  active_fate ft ∨ ∃ c, ft = Kept c ∧ has (flags (c_pcb c)) TF_CLOSED = true.

Section lists.
Context (route : Z → Z) (beyond : Z → Z) (fuel : nat).
Context (accept connected poll : conn → option callback).
Context (sent : conn → option (Z → callback)) (recv : conn → option (option (list Z) → callback)).
Context (pollinterval : conn → Z).
Context (accept_ok : ∀ c f, accept c = Some f → keeps_active f).
Context (connected_ok : ∀ c f, connected c = Some f → keeps_active f).
Context (poll_ok : ∀ c f, poll c = Some f → keeps_active f).
Context (sent_ok : ∀ c f n, sent c = Some f → keeps_active (f n)).
Context (recv_ok : ∀ c f d, recv c = Some f → keeps_active (f d)).

Lemma parse_options_state i c c' : parse_options beyond fuel i c = Some c' → st_of c' = st_of c.
Proof. unfold parse_options. destruct (tcp_parseopt _ _ _ _); [|done]. by intros [= <-]. Qed.

Lemma purge_state c : st_of (tcp_pcb_purge c) = st_of c.
Proof. unfold tcp_pcb_purge, st_of. by destruct (state (c_pcb c)) eqn:E; cbn. Qed.

Lemma time_wait_fate ticks c outs mems r :
  time_wait route ticks c outs mems = Some r → active_fate (r_fate r).
Proof. unfold time_wait. destruct (tcp_ack_now _ _ _ _) as [[[c1 o] m]|]; [|done]. by intros [= <-]. Qed.

Lemma closed_flag c : has (flags (c_pcb (raise_flag TF_CLOSED c))) TF_CLOSED = true.
Proof.
  unfold has. cbn [flags c_pcb raise_flag on_pcb set_flags]. rewrite Z.land_lor_distr_l.
  change (Z.land TF_CLOSED TF_CLOSED) with 16. apply negb_true_iff, Z.eqb_neq. intros [_ ?]%Z.lor_eq_0_iff. done.
Qed.

Lemma after_receive_fate ticks i st c outs mems r :
  st_of c = st → is_active st = true → after_receive route ticks i st c outs mems = Some r → process_fate (r_fate r).
Proof.
  intros Hst Hact. unfold after_receive.
  assert (∀ st', is_active st' = true →
    ('(c, outs', mems) ← tcp_ack_now route ticks c mems;
     Some (Outcome ERR_OK (Kept (in_state st' c)) None (outs ++ outs') mems)) = Some r → process_fate (r_fate r)) as Hack.
  { intros st' H. destruct (tcp_ack_now _ _ _ _) as [[[c1 o] m]|]; [|done]. intros [= <-]. by left. }
  assert (Some (Outcome ERR_OK (Kept c) None outs mems) = Some r → process_fate (r_fate r)) as Hstay
    by (intros [= <-]; left; cbn; by rewrite Hst).
  assert (time_wait route ticks c outs mems = Some r → process_fate (r_fate r)) as Htw
    by (intros H; left; by eapply time_wait_fate).
  destruct st; try done.
  - destruct (has _ TCP_FIN); [by apply Hack|done].
  - destruct (has _ TCP_FIN), (_ && _); try done; [by apply Hack|]. intros [= <-]. by left.
  - by destruct (has _ TCP_FIN).
  - destruct (has _ TCP_FIN); [by apply Hack|done].
  - by destruct (_ && _).
  - destruct (_ && _); [|done]. intros [= <-]. right. eexists. split; [done|]. apply closed_flag.
Qed.

Lemma process_active ticks iss i c mems r :
  is_active (st_of c) = true →
  tcp_process route ticks beyond fuel iss accept connected i c mems = Some r → process_fate (r_fate r).
Proof.
  intros Hact. unfold tcp_process. destruct (has (i_flags i) TCP_RST).
  { unfold process_rst. intros [= <-]. left. cbn. by destruct (rst_acceptable _ _). }
  set (c0 := match state (c_pcb c) with LISTEN => c | _ => _ end).
  assert (st_of c0 = st_of c) as H0 by (subst c0; by destruct (state (c_pcb c))).
  rewrite <-H0 in Hact. clearbody c0. fold (st_of c0). clear H0.
  assert (Some (Outcome ERR_OK (Kept c0) None [] mems) = Some r → process_fate (r_fate r)) as Hstay
    by (intros [= <-]; by left).
  assert (∀ st, st_of c0 = st → is_active st = true →
    ('(c, outs, mems) ← tcp_receive route ticks (i_seg i) (i_ackno i) (i_wnd i) c0 mems;
     after_receive route ticks i st c outs mems) = Some r → process_fate (r_fate r)) as Hrecv.
  { intros st Hst Ha. destruct (tcp_receive _ _ _ _ _ _ _) as [[[c1 o] m]|] eqn:E; [|done]. cbn [mbind option_bind].
    apply after_receive_fate; [|done]. apply tcp_receive_state in E. congruence. }
  destruct (st_of c0) eqn:Est; try done; try (by apply Hrecv).
  - unfold process_syn_sent. destruct (_ && _); [|done]. destruct (unacked (c_pcb c0)) as [|rseg rest]; [done|].
    destruct (_ =? _); [|done]. destruct (parse_options _ _ _ _) as [c1|] eqn:E1; [|done]. cbn [mbind option_bind].
    apply parse_options_state in E1. change (st_of c1 = ESTABLISHED) in E1.
    destruct (match connected c1 with Some f => _ | None => _ end) as [[[e c2] o] m] eqn:E2.
    destruct (tcp_ack route ticks c2 m) as [[[c3 o3] m3]|] eqn:E3; [|done]. intros [= <-]. left. cbn.
    apply ack_state in E3. rewrite E3. destruct (connected c1) as [f|] eqn:Ef.
    + pose proof (connected_ok _ _ Ef c1 mems) as Hk. rewrite E2, E1 in Hk. by apply Hk.
    + injection E2 as <- <- <- <-. by rewrite E1.
  - unfold process_syn_rcvd. destruct (_ && _ && _); [|done].
    destruct (match accept _ with Some f => _ | None => _ end) as [[[e c2] o] m] eqn:E2.
    assert (is_active (st_of c2) = true) as Ha.
    { destruct (accept _) as [f|] eqn:Ef; [|by injection E2 as <- <- <- <-].
      pose proof (accept_ok _ _ Ef (in_state ESTABLISHED c0) mems eq_refl) as Hk. by rewrite E2 in Hk. }
    destruct e; try (destruct (tcp_abort _ _ _ _) as [[o' m']|]; [|done]; intros [= <-]; by left).
    clear Hrecv Hstay.
    destruct (tcp_receive _ _ _ _ _ _ _) as [[[c3 o3] m3]|] eqn:E3; [|done]. intros [= <-]. left. cbn.
    apply tcp_receive_state in E3. change (is_active (st_of c3) = true). by rewrite E3.
Qed.

Lemma close_with_fin_fate ticks st c mems e ft outs mems' :
  is_active st = true → is_active (st_of c) = true →
  close_with_fin route ticks st c mems = Some (e, ft, outs, mems') → active_fate ft.
Proof.
  intros Hst Hc. unfold close_with_fin. pose proof (enqueue_state [] TCP_FIN true None (c_pcb c) mems) as Hs.
  change (tcp_enqueue [] TCP_FIN true None (c_pcb c) mems) with (tcp_send_ctrl TCP_FIN (c_pcb c) mems) in Hs.
  destruct (tcp_send_ctrl TCP_FIN (c_pcb c) mems) as [[e1 p] m]. cbn in Hs.
  destruct e1; try (intros [= <- <- <- <-]; unfold active_fate, st_of; cbn; by rewrite Hs).
  destruct (tcp_output _ _ _ _) as [[[[e2 p2] o2] m2]|] eqn:E; [|done]. intros [= <- <- <- <-].
  apply output_state in E. unfold active_fate, st_of. cbn. by rewrite E.
Qed.

Lemma close_fate ticks c mems e ft outs mems' :
  is_active (st_of c) = true → tcp_close route ticks c mems = Some (e, ft, outs, mems') → active_fate ft.
Proof.
  intros Hc. unfold tcp_close. fold (st_of c). destruct (st_of c) eqn:Est; try done;
    try (intros [= <- <- <- <-]; cbn; by rewrite Est).
  - destruct (tcp_pcb_remove _ _ _ _) as [[[c1 o] m]|]; [|done]. by intros [= <- <- <- <-].
  - apply close_with_fin_fate; [done|by rewrite Est].
  - apply close_with_fin_fate; [done|by rewrite Est].
  - apply close_with_fin_fate; [done|by rewrite Est].
Qed.

(** A call of a function of the application that may be missing. *)
Lemma call_active (cb : option callback) c mems e c' outs mems' :
  (∀ f, cb = Some f → keeps_active f) → is_active (st_of c) = true →
  (match cb with Some f => f c mems | None => (ERR_OK, c, [], mems) end) = (e, c', outs, mems') →
  is_active (st_of c') = true.
Proof.
  intros Hf Hc. destruct cb as [f|]; [|by intros [= <- <- <- <-]].
  intros E. pose proof (Hf f eq_refl c mems Hc) as H. by rewrite E in H.
Qed.

Lemma notify_fate ticks c mems ft outs mems' :
  is_active (st_of c) = true → notify route sent recv ticks c mems = Some (ft, outs, mems') → active_fate ft.
Proof.
  intros Hc. unfold notify.
  destruct (match sent c with Some f => _ | None => _ end) as [[[e1 c1] o1] m1] eqn:E1.
  assert (is_active (st_of c1) = true) as H1.
  { destruct (sent c) as [f|] eqn:Ef; [|by injection E1 as <- <- <- <-].
    destruct (0 <? acked (c_pcb c)); [|by injection E1 as <- <- <- <-].
    pose proof (sent_ok _ _ (acked (c_pcb c)) Ef c mems Hc) as H. by rewrite E1 in H. }
  clear E1. destruct (match recv c1 with Some f => _ | None => _ end) as [[[[e2 ft2] o2] m2]|] eqn:E2; [|done].
  assert (active_fate ft2) as H2.
  { destruct (recv c1) as [f|] eqn:Ef.
    - assert (∀ d c mems, is_active (st_of c) = true → is_active (st_of (f d c mems).1.1.2) = true) as Hf
        by (intros d; exact (recv_ok _ _ d Ef)).
      destruct (match recv_data c1 with Some d => _ | None => _ end) as [[[e3 c3] o3] m3] eqn:E3.
      assert (is_active (st_of c3) = true) as H3.
      { destruct (recv_data c1) as [d|]; [|by injection E3 as <- <- <- <-].
        pose proof (Hf (Some d) c1 m1 H1) as H. destruct (f (Some d) c1 m1) as [[[? ?] ?] ?]. by injection E3 as <- <- <- <-. }
      destruct (has (flags (c_pcb c3)) TF_GOT_FIN); [|by injection E2 as <- <- <- <-].
      pose proof (Hf None c3 m3 H3) as H. destruct (f None c3 m3) as [[[? ?] ?] ?]. by injection E2 as <- <- <- <-.
    - destruct (has (flags (c_pcb c1)) TF_GOT_FIN); [|by injection E2 as <- <- <- <-].
      destruct (tcp_close route ticks c1 m1) as [[[[e3 ft3] o3] m3]|] eqn:E3; [|done]. injection E2 as <- <- <- <-.
      by eapply close_fate. }
  clear E2. cbn [mbind option_bind].
  assert (∀ ft3, Some (ft2, o2, m2) = Some ft3 → active_fate ft3.1.1) as Hsame by (by intros ? [= <-]).
  destruct e2; try (intros H; exact (Hsame _ H)). destruct ft2 as [c3|c3|]; [|done|done].
  destruct (output_now _ _ _ _) as [[[c4 o4] m4]|] eqn:E4; [|done]. intros [= <- <- <-]. cbn.
  apply output_now_state in E4. by rewrite E4.
Qed.

(** [tcp_input] leaves an active block active, and one in TIME-WAIT there. *)
Lemma finish_fate ticks c mems ft outs mems' :
  (is_active (st_of c) = true ∨ has (flags (c_pcb c)) TF_CLOSED = true) →
  finish route sent recv ticks c mems = Some (ft, outs, mems') → active_fate ft.
Proof.
  intros Hc. unfold finish. destruct (has _ TF_RESET || has _ TF_CLOSED) eqn:Ef.
  { destruct (tcp_pcb_remove _ _ _ _) as [[[c1 o] m]|]; [|done]. by intros [= <- <- <-]. }
  apply orb_false_iff in Ef as [_ Ef]. destruct Hc as [Hc|]; [|congruence].
  assert ((state_num (st_of c) <? 10) = true) as Hn by (by destruct (st_of c)). fold (st_of c). rewrite Hn.
  by apply notify_fate.
Qed.

Lemma finish_tw ticks c mems ft outs mems' :
  st_of c = TIME_WAIT → finish route sent recv ticks c mems = Some (ft, outs, mems') →
  ft = Freed ∨ ∃ c', ft = Kept c' ∧ st_of c' = TIME_WAIT.
Proof.
  intros Hc. unfold finish. destruct (_ || _).
  { destruct (tcp_pcb_remove _ _ _ _) as [[[c1 o] m]|]; [|done]. intros [= <- <- <-]. by left. }
  unfold st_of in Hc. rewrite Hc. cbn [state_num Z.ltb Z.compare Pos.compare Pos.compare_cont]. rewrite decide_True by done.
  destruct (output_now _ _ _ _) as [[[c1 o] m]|] eqn:E; [|done]. intros [= <- <- <-]. right. exists c1. split; [done|].
  apply output_now_state in E. rewrite E. done.
Qed.

Lemma process_tw ticks iss i c mems r :
  st_of c = TIME_WAIT → tcp_process route ticks beyond fuel iss accept connected i c mems = Some r →
  ∃ c', r_fate r = Kept c' ∧ st_of c' = TIME_WAIT.
Proof.
  intros Hc. unfold tcp_process. destruct (has (i_flags i) TCP_RST).
  { unfold process_rst. intros [= <-]. eexists. split; [done|]. by destruct (rst_acceptable _ _). }
  unfold st_of in Hc. rewrite Hc. cbn [c_pcb set_tmr]. rewrite Hc. unfold process_time_wait.
  match goal with |- context [tcp_ack_now _ _ ?y _] => set (c1 := y) end.
  assert (st_of c1 = TIME_WAIT) as H1 by (subst c1; by destruct (TCP_SEQ_GT _ _)).
  destruct (0 <? _); [|intros [= <-]; by eexists].
  destruct (tcp_ack_now _ _ _ _) as [[[c2 o] m]|] eqn:E; [|done]. intros [= <-]. eexists. split; [done|].
  apply ack_now_state in E. congruence.
Qed.

Lemma process_new ticks iss i c mems r :
  st_of c = LISTEN → tcp_process route ticks beyond fuel iss accept connected i c mems = Some r →
  match r_new r with Some n => is_active (st_of n) = true | None => True end.
Proof.
  intros Hc. unfold tcp_process. destruct (has (i_flags i) TCP_RST); [by intros [= <-]|].
  unfold st_of in Hc. rewrite !Hc. unfold process_listen. destruct (has _ TCP_ACK).
  { destruct (tcp_rst _ _ _ _ _ _ _). by intros [= <-]. }
  destruct (has _ TCP_SYN); [|by intros [= <-]]. destruct (alloc mems) as [[|] m1]; cbn [negb]; [|by intros [= <-]].
  destruct (parse_options _ _ _ _) as [n|] eqn:E1; [|done]. cbn [mbind option_bind].
  apply parse_options_state in E1. change (st_of n = SYN_RCVD) in E1.
  match goal with |- context [tcp_enqueue ?a ?b ?d ?e ?f ?g] => pose proof (enqueue_state a b d e f g) as Hs;
    destruct (tcp_enqueue a b d e f g) as [[e2 p2] m2] end. cbn in Hs.
  destruct (tcp_output _ _ _ _) as [[[[e3 p3] o3] m3]|] eqn:E3; [|done]. intros [= <-].
  apply output_state in E3. cbn. unfold st_of. cbn. rewrite E3, Hs. unfold st_of in E1. by rewrite E1.
Qed.

Lemma extract_elem {A} (f : A → bool) l x r : extract f l = Some (x, r) → l ≡ₚ x :: r.
Proof.
  revert r. induction l as [|y l IH]; intros r; cbn; [done|]. destruct (f y); [by intros [= <- <-]|].
  destruct (extract f l) as [[z r']|]; [|done]. intros [= <- <-]. rewrite (IH r') by done. constructor.
Qed.

Lemma split_at_elem {A} (f : A → bool) l a x b : split_at f l = Some (a, x, b) → l = a ++ x :: b.
Proof.
  revert a. induction l as [|y l IH]; intros a; cbn; [done|]. destruct (f y); [by intros [= <- <- <-]|].
  destruct (split_at f l) as [[[a' z] b']|]; [|done]. intros [= <- <- <-]. by rewrite (IH a').
Qed.

Lemma input_sane cast sum i s mems s' outs mems' :
  pcbs_sane s → tcp_input route beyond fuel accept connected sent recv cast sum i s mems = Some (s', outs, mems') →
  pcbs_sane s'.
Proof.
  intros (Ha & Ht & Hl). unfold tcp_input. destruct cast; [by intros [= <- <- <-]|].
  destruct (negb _); [by intros [= <- <- <-]|].
  destruct (extract (for_conn i) (active_pcbs s)) as [[c rest]|] eqn:E1.
  { rewrite (extract_elem _ _ _ _ E1) in Ha. apply Forall_cons in Ha as [Hc Hrest]. unfold input_active.
    destruct (tcp_process _ _ _ _ _ _ _ _ _ _) as [r|] eqn:E2; [|done]. cbn [mbind option_bind].
    apply process_active in E2; [|done]. destruct (r_fate r) as [c1|c1|]; [| |done].
    - destruct (finish _ _ _ _ _ _) as [[[ft o] m]|] eqn:E3; [|done]. intros [= <- <- <-].
      apply finish_fate in E3; [|destruct E2 as [?|(? & [= <-] & ?)]; auto].
      destruct ft; split_and!; cbn; try done; by apply Forall_cons.
    - destruct E2 as [E2|(? & ? & _)]; [|done]. cbn in E2.
      destruct (finish _ _ _ _ _ _) as [[[ft o] m]|] eqn:E3; [|done]. intros [= <- <- <-].
      destruct (finish_tw _ _ _ _ _ _ E2 E3) as [-> |(c2 & -> & H2)]; split_and!; cbn; try done. by apply Forall_cons. }
  destruct (split_at (for_conn i) (tw_pcbs s)) as [[[front c] back]|] eqn:E2.
  { apply split_at_elem in E2. rewrite E2, Forall_app, Forall_cons in Ht. destruct Ht as (H1 & Hc & H2). unfold input_tw.
    destruct (tcp_process _ _ _ _ _ _ _ _ _ _) as [r|] eqn:E3; [|done]. cbn [mbind option_bind].
    apply process_tw in E3 as (c1 & -> & Hc1); [|done].
    destruct (finish _ _ _ _ _ _) as [[[ft o] m]|] eqn:E4; [|done]. intros [= <- <- <-].
    destruct (finish_tw _ _ _ _ _ _ Hc1 E4) as [-> |(c2 & -> & H3)]; split_and!; cbn; try done;
      rewrite !Forall_app; split_and!; try done. by constructor. }
  destruct (extract (for_listener i) (listen_pcbs s)) as [[c rest]|] eqn:E3.
  { rewrite (extract_elem _ _ _ _ E3) in Hl. apply Forall_cons in Hl as [Hc Hrest]. unfold input_listen.
    destruct (tcp_process _ _ _ _ _ _ _ _ _ _) as [r|] eqn:E4; [|done]. cbn [mbind option_bind].
    apply process_new in E4; [|done]. intros [= <- <- <-].
    destruct (r_new r) as [n|]; split_and!; cbn; try done; by apply Forall_cons. }
  destruct (has _ TCP_RST); [by intros [= <- <- <-]|]. destruct (tcp_rst _ _ _ _ _ _ _). by intros [= <- <- <-].
Qed.

(** ** Timers *)

Lemma retransmit_state p p' outs : retransmit p = Some (p', outs) → state p' = state p.
Proof.
  unfold retransmit. set (p0 := set_rtime _ p). change (state p) with (state p0). clearbody p0.
  destruct (unacked p0) as [|seg rest]; [by intros [= <- <-]|]. destruct (_ <=? _); [|by intros [= <- <-]].
  destruct (if decide (state p0 = SYN_SENT) then Some p0 else _) as [p1|] eqn:E1; [|done].
  assert (state p1 = state p0) as H1.
  { destruct (decide _); [by injection E1 as <-|]. destruct (backed_off p0); [|done]. by injection E1 as <-. }
  cbn [mbind option_bind]. match goal with |- context [tcp_rexmit_seg ?x seg] => set (p2 := x) end.
  assert (state p2 = state p1) as H2 by (subst p2; by destruct rest).
  pose proof (rexmit_state p2 seg) as Hr. destruct (tcp_rexmit_seg p2 seg) as [p3 o]. cbn in Hr. intros [= <- <-].
  transitivity (state p3); [by destruct (_ <? _)|congruence].
Qed.

Lemma slow_active_ok ticks c mems r outs mems' :
  is_active (st_of c) = true → slow_active route poll pollinterval ticks c mems = Some (r, outs, mems') →
  match r with Some c' => is_active (st_of c') = true | None => True end.
Proof.
  intros Hc. unfold slow_active. destruct (if too_many_rtx _ then _ else _) as [[c1 o1]|] eqn:E1; [|done].
  cbn [mbind option_bind]. assert (st_of c1 = st_of c) as H1.
  { destruct (too_many_rtx _); [by injection E1 as <- <-|]. destruct (retransmit _) as [[p o]|] eqn:E2; [|done].
    injection E1 as <- <-. by apply retransmit_state in E2. }
  set (c2 := match ooseq c1 with [] => c1 | _ => _ end).
  assert (st_of c2 = st_of c1) as H2 by (subst c2; destruct (ooseq c1); [done|]; by destruct (_ <=? _)).
  clearbody c2. rewrite <-H1, <-H2 in Hc. destruct (_ || _); [by intros [= <- <- <-]|].
  set (c3 := on_pcb _ c2). assert (st_of c3 = st_of c2) as H3 by done. clearbody c3. rewrite <-H3 in Hc.
  destruct (poll c3) as [f|] eqn:Ef; [|by intros [= <- <- <-]]. destruct (_ <=? _); [|by intros [= <- <- <-]].
  pose proof (poll_ok _ _ Ef (on_pcb (set_polltmr 0) c3) mems Hc) as H4.
  destruct (f (on_pcb (set_polltmr 0) c3) mems) as [[[e c4] o4] m4]. cbn in H4.
  destruct (output_now _ _ _ _) as [[[c5 o5] m5]|] eqn:E5; [|done]. intros [= <- <- <-].
  apply output_now_state in E5. by rewrite E5.
Qed.

Lemma slow_actives_ok ticks l mems l' outs mems' :
  Forall (λ c, is_active (st_of c) = true) l →
  slow_actives route poll pollinterval ticks l mems = Some (l', outs, mems') →
  Forall (λ c, is_active (st_of c) = true) l'.
Proof.
  intros H. revert mems l' outs. induction H as [|c l Hc _ IH]; intros mems l' outs; cbn [slow_actives];
    [by intros [= <- <- <-]|].
  destruct (slow_active _ _ _ _ _ _) as [[[r o] m]|] eqn:E1; [|done]. cbn [mbind option_bind].
  destruct (slow_actives _ _ _ _ _ _) as [[[l1 o1] m1]|] eqn:E2; [|done]. cbn [mbind option_bind]. intros [= <- <- <-].
  apply IH in E2. apply slow_active_ok in E1; [|done]. destruct r; [by apply Forall_cons|done].
Qed.

Lemma fast_actives_ok ticks l mems l' outs mems' :
  Forall (λ c, is_active (st_of c) = true) l → fast_actives route ticks l mems = Some (l', outs, mems') →
  Forall (λ c, is_active (st_of c) = true) l'.
Proof.
  intros H. revert mems l' outs. induction H as [|c l Hc _ IH]; intros mems l' outs; cbn [fast_actives];
    [by intros [= <- <- <-]|].
  destruct (if has (flags (c_pcb c)) TF_ACK_DELAY then _ else _) as [[[c1 o] m]|] eqn:E1; [|done].
  cbn [mbind option_bind].
  destruct (fast_actives _ _ _ _) as [[[l1 o1] m1]|] eqn:E2; [|done]. cbn [mbind option_bind]. intros [= <- <- <-].
  apply IH in E2. apply Forall_cons. split; [|done].
  destruct (has _ TF_ACK_DELAY); [|by injection E1 as <- <- <-].
  destruct (tcp_ack_now _ _ _ _) as [[[c2 o2] m2]|] eqn:E3; [|done]. injection E1 as <- <- <-.
  apply ack_now_state in E3. change (is_active (st_of c2) = true). by rewrite E3.
Qed.

Lemma tmr_sane s mems s' outs mems' :
  pcbs_sane s → tcp_tmr route poll pollinterval s mems = Some (s', outs, mems') → pcbs_sane s'.
Proof.
  intros Hs. unfold tcp_tmr. set (s0 := set_timer _ s). assert (pcbs_sane s0) as H0 by done. clearbody s0. clear Hs.
  destruct (if Z.odd _ then _ else _) as [[[s1 o1] m1]|] eqn:E1; [|done]. cbn [mbind option_bind].
  assert (pcbs_sane s1) as H1.
  { destruct (Z.odd _); [|by injection E1 as <- <- <-]. unfold tcp_fasttmr in E1.
    destruct (fast_actives _ _ _ _) as [[[l o] m]|] eqn:E2; [|done]. injection E1 as <- <- <-.
    destruct H0 as (H1 & H2 & H3). split_and!; [|done|done]. by eapply fast_actives_ok. }
  destruct (if _ || _ then _ else _) as [[[s2 o2] m2]|] eqn:E2; [|done]. intros [= <- <- <-].
  destruct (_ || _); [|by injection E2 as <- <- <-]. unfold tcp_slowtmr in E2.
  set (s3 := set_ticks _ s1) in *. assert (pcbs_sane s3) as (H2 & H3 & H4) by done. clearbody s3.
  destruct (slow_actives _ _ _ _ _ _) as [[[l o] m]|] eqn:E3; [|done]. injection E2 as <- <- <-.
  split_and!; [by eapply slow_actives_ok|cbn; apply Forall_forall; intros c [_ Hc]%list_elem_of_filter; rewrite Forall_forall in H3; by apply H3|done].
Qed.

(** ** All operations *)

(** The list with what became of one active block. *)
Definition kept (ft : fate) : list conn := match ft with Kept c => [c] | _ => [] end.

Inductive stack_step : stack → stack → Prop :=
  | do_input cast sum i s mems s' outs mems' :
      tcp_input route beyond fuel accept connected sent recv cast sum i s mems = Some (s', outs, mems') →
      stack_step s s'
  | do_timer s mems s' outs mems' :
      tcp_tmr route poll pollinterval s mems = Some (s', outs, mems') → stack_step s s'
  | do_connect c ipaddr port s mems e s' outs mems' :
      tcp_connect route c ipaddr port s mems = Some (e, s', outs, mems') → stack_step s s'
  | do_listen c s mems ok s' mems' : tcp_listen c s mems = (ok, s', mems') → stack_step s s'
  | do_close a c b s mems e ft outs mems' :
      active_pcbs s = a ++ c :: b → tcp_close route (tcp_ticks s) c mems = Some (e, ft, outs, mems') →
      stack_step s (set_active (a ++ kept ft ++ b) s)
  | do_close_listener a c b s mems e ft outs mems' :
      listen_pcbs s = a ++ c :: b → tcp_close route (tcp_ticks s) c mems = Some (e, ft, outs, mems') →
      stack_step s (set_listen (a ++ kept ft ++ b) s)
  | do_abort a c b s mems outs mems' :
      active_pcbs s = a ++ c :: b → tcp_abort route (tcp_ticks s) c mems = Some (outs, mems') →
      stack_step s (set_active (a ++ b) s)
  | do_write a c b s data copy mems e p mems' :
      active_pcbs s = a ++ c :: b → tcp_write data copy (c_pcb c) mems = (e, p, mems') →
      stack_step s (set_active (a ++ on_pcb (λ _, p) c :: b) s)
  | do_recved a c b s len mems c' outs mems' :
      active_pcbs s = a ++ c :: b → tcp_recved route (tcp_ticks s) len c mems = Some (c', outs, mems') →
      stack_step s (set_active (a ++ c' :: b) s)
  | do_mem_reclaim s mems n s' outs mems' :
      tcp_mem_reclaim route s mems = Some (n, s', outs, mems') → stack_step s s'
  | do_memp_reclaim type s mems n s' outs mems' :
      tcp_memp_reclaim route type s mems = Some (n, s', outs, mems') → stack_step s s'.

Lemma new_port_stack s n s' : tcp_new_port s = Some (n, s') → s' = set_port n s.
Proof. unfold tcp_new_port. generalize (Z.to_nat 28672). intros k. destruct (new_port_loop _ _ _); [|done]. by intros [= <- <-]. Qed.

Lemma connect_sane c ipaddr port s mems e s' outs mems' :
  pcbs_sane s → tcp_connect route c ipaddr port s mems = Some (e, s', outs, mems') → pcbs_sane s'.
Proof.
  intros Hs. unfold tcp_connect. destruct ipaddr as [ip|]; [|by intros [= <- <- <- <-]].
  destruct (if local_port _ =? 0 then _ else _) as [[p1 s1]|] eqn:E1; [|done]. cbn [mbind option_bind].
  assert (pcbs_sane s1) as (H1 & H2 & H3).
  { destruct (local_port _ =? 0); [|by injection E1 as <- <-].
    destruct (tcp_new_port s) as [[n s2]|] eqn:E2; [|done]. apply new_port_stack in E2. subst s2. by injection E1 as <- <-. }
  match goal with |- context [tcp_enqueue ?a ?b ?d ?e ?f ?g] => pose proof (enqueue_state a b d e f g) as Hst;
    destruct (tcp_enqueue a b d e f g) as [[e2 p2] m2] end. cbn in Hst.
  destruct (match e2 with ERR_OK => _ | _ => _ end) as [[[p3 o3] m3]|] eqn:E3; [|done]. intros [= <- <- <- <-].
  assert (state p3 = SYN_SENT) as Hp3.
  { destruct e2; try (by injection E3 as <- <- <-). destruct (tcp_output _ _ _ _) as [[[[e4 p4] o4] m4]|] eqn:E4; [|done].
    injection E3 as <- <- <-. apply output_state in E4. congruence. }
  split_and!; [|done|done]. cbn. apply Forall_cons. split; [|done]. unfold st_of. cbn. by rewrite Hp3.
Qed.

(** The block found is on the list. *)
Lemma most_inactive_elem ticks n front l found a c b :
  most_inactive ticks n front l found = Some (a, c, b) → front ++ l = a ++ c :: b ∨ found = Some (a, c, b).
Proof.
  revert n front found. induction l as [|x l IH]; intros n front found; cbn; [by right|].
  destruct (_ <? _); intros [H|H]%IH; rewrite <-?app_assoc in H; [by left| |by left|by right].
  injection H as <- <- <-. by left.
Qed.

Lemma kill_oldest_sane s mems k s' outs mems' :
  pcbs_sane s → kill_oldest route s mems = Some (k, s', outs, mems') → pcbs_sane s'.
Proof.
  intros (Ha & Ht & Hl). unfold kill_oldest.
  destruct (most_inactive _ _ _ _ _) as [[[a c] b]|] eqn:E; [|by intros [= <- <- <- <-]].
  apply most_inactive_elem in E as [E|]; [|done]. cbn in E. rewrite E, Forall_app, Forall_cons in Ha.
  destruct (tcp_abort _ _ _ _) as [[o m]|]; [|done]. intros [= <- <- <- <-].
  split_and!; [|done|done]. cbn. apply Forall_app. tauto.
Qed.

Lemma memp_reclaim_sane type s mems n s' outs mems' :
  pcbs_sane s → tcp_memp_reclaim route type s mems = Some (n, s', outs, mems') → pcbs_sane s'.
Proof.
  intros Hs. pose proof Hs as (Ha & Ht & Hl). unfold tcp_memp_reclaim.
  assert (∀ r : Z * stack * list tcp_out * list bool, match split_at has_ooseq (active_pcbs s) with
    | Some (front, c, back) => Some (1, set_active (front ++ set_ooseq [] c :: back) s, [], mems)
    | None => Some (0, s, [], mems) end = Some r → pcbs_sane r.1.1.2) as Hseg.
  { intros r. destruct (split_at _ _) as [[[a c] b]|] eqn:E; [|by intros [= <-]]. intros [= <-].
    apply split_at_elem in E. rewrite E, Forall_app, Forall_cons in Ha. split_and!; [|done|done]. cbn.
    by rewrite Forall_app, Forall_cons. }
  destruct type; try (by intros [= <- <- <- <-]); try (intros H; exact (Hseg _ H)).
  destruct (tw_pcbs s) as [|c tw] eqn:E.
  - destruct (kill_oldest _ _ _) as [[[[k s1] o] m]|] eqn:Ek; [|done]. intros [= <- <- <- <-]. by eapply kill_oldest_sane.
  - intros [= <- <- <- <-]. apply Forall_cons in Ht as [_ Ht]. by split_and!.
Qed.

Lemma kept_active ft : active_fate ft → Forall (λ c, is_active (st_of c) = true) (kept ft).
Proof. destruct ft; cbn; intros H; by constructor. Qed.

Lemma write_state data copy p mems e p' mems' : tcp_write data copy p mems = (e, p', mems') → state p' = state p.
Proof.
  unfold tcp_write. pose proof (enqueue_state data 0 copy None p mems) as H. intros E.
  destruct (tcp_enqueue data 0 copy None p mems) as [[e1 p1] m1]. cbn in H. destruct (state p) eqn:Es, data; congruence.
Qed.

Lemma recved_state ticks len c mems c' outs mems' :
  tcp_recved route ticks len c mems = Some (c', outs, mems') → st_of c' = st_of c.
Proof. unfold tcp_recved. destruct (_ || _); [intros H; by apply ack_state in H|by intros [= <- <- <-]]. Qed.

Lemma stack_step_sane s s' : stack_step s s' → pcbs_sane s → pcbs_sane s'.
Proof.
  intros H Hs. pose proof Hs as (Ha & Ht & Hl).
  destruct H as [cast sum i s mems s' outs mems' H|s mems s' outs mems' H|c ip port s mems e s' outs mems' H
    |c s mems ok s' mems' H|a c b s mems e ft outs mems' E H|a c b s mems e ft outs mems' E H|a c b s mems outs mems' E H
    |a c b s data copy mems e p mems' E H|a c b s len mems c' outs mems' E H
    |s mems n s' outs mems' H|type s mems n s' outs mems' H].
  - by eapply input_sane.
  - by eapply tmr_sane.
  - by eapply connect_sane.
  - unfold tcp_listen in H. destruct (alloc mems) as [[|] m]; injection H as <- <- <-; [|done].
    split_and!; [done|done|]. cbn. by apply Forall_cons.
  - rewrite E, Forall_app, Forall_cons in Ha. destruct Ha as (H1 & H2 & H3). apply close_fate in H; [|done].
    split_and!; [|done|done]. cbn. rewrite !Forall_app. split_and!; [done|by apply kept_active|done].
  - rewrite E, Forall_app, Forall_cons in Hl. destruct Hl as (H1 & H2 & H3).
    assert (kept ft = []) as ->.
    { unfold tcp_close in H. unfold st_of in H2. rewrite H2 in H. destruct (tcp_pcb_remove _ _ _ _) as [[[c1 o] m]|]; [|done].
      by injection H as <- <- <- <-. }
    split_and!; [done|done|]. cbn. by apply Forall_app.
  - rewrite E, Forall_app, Forall_cons in Ha. destruct Ha as (H1 & H2 & H3).
    split_and!; [|done|done]. cbn. by apply Forall_app.
  - rewrite E, Forall_app, Forall_cons in Ha. destruct Ha as (H1 & H2 & H3). apply write_state in H.
    split_and!; [|done|done]. cbn. rewrite Forall_app, Forall_cons. split_and!; [done| |done].
    unfold st_of in *. cbn. by rewrite H.
  - rewrite E, Forall_app, Forall_cons in Ha. destruct Ha as (H1 & H2 & H3). apply recved_state in H.
    split_and!; [|done|done]. cbn. rewrite Forall_app, Forall_cons. split_and!; [done|by rewrite H|done].
  - unfold tcp_mem_reclaim in H. destruct (kill_oldest _ _ _) as [[[[k s1] o] m]|] eqn:Ek; [|done].
    injection H as <- <- <- <-. by eapply kill_oldest_sane.
  - by eapply memp_reclaim_sane.
Qed.
End lists.
