(* ===== verification/TcpStates.v ===== *)
(** Connections through the TCP state machine (files TcpProcess and TcpStack):
    the lists, opening, closing, and the defects of both. *)

From stdpp Require Import base tactics list numbers relations.
From Stdlib Require Import ZArith Lia.
From S2P Require Import Prelude Memp TcpOptions Tcp TcpSpec TcpReceive TcpDelivery TcpProcess TcpStack TcpStackProps.

Local Open Scope Z_scope.

(** * The lists of control blocks *)

(** C19: From [tcp_init] on, whatever segments arrive, whatever the timers do and
    whatever an application does with its blocks, as long as it listens and
    connects only with blocks that are on no list and its callback functions
    leave an active block active, the assertions of [tcp_pcbs_sane] hold: no
    active block is CLOSED, LISTEN or in TIME-WAIT, the blocks of the other two
    lists are in TIME-WAIT and LISTEN. *)
Theorem tcp_lists_stay_sane route beyond fuel accept connected poll sent recv pollinterval s :
  (∀ c f, accept c = Some f → keeps_active f) → (∀ c f, connected c = Some f → keeps_active f) →
  (∀ c f, poll c = Some f → keeps_active f) → (∀ c f n, sent c = Some f → keeps_active (f n)) →
  (∀ c f d, recv c = Some f → keeps_active (f d)) →
  rtc (stack_step route beyond fuel accept connected poll sent recv pollinterval) tcp_init s → pcbs_sane s.
Proof.
  intros H1 H2 H3 H4 H5 Hrun. assert (pcbs_sane tcp_init) as H0 by (by split_and!; constructor). revert H0.
  induction Hrun as [|s1 s2 s3 Hs _ IH]; [done|]. intros H. apply IH. exact (stack_step_sane _ _ _ _ _ _ _ _ _ H1 H2 H3 H4 H5 _ _ Hs H).
Qed.

(** Listening with a connected block breaks the assertions. *)
Lemma tcp_listen_linked_insane a c b s mems : ¬ pcbs_sane (tcp_listen_linked a c b s mems).1.2.
Proof.
  unfold tcp_listen_linked. destruct (tcp_listen c s mems) as [[ok s'] mems']. intros [Hact _]. cbn in Hact.
  apply Forall_app in Hact as [_ Hact]. apply Forall_inv in Hact. cbn in Hact. done.
Qed.

Definition no_app (_ : conn) : option callback := None.
Definition demo_route (_ : Z) : Z := 7.

(** A block listens at port 80; a SYN for it makes a connection. *)
Definition demo_listener : conn := Conn (set_local_port 80 (tcp_new 6510)) [] None 0.
Definition demo_syn : tcp_in := In 5 7 4000 80 (Seg 900 0 TCP_SYN [2; 4; 1; 0] [] 1) 0 2000 0x60.

Lemma tcp_lists_stay_sane_witness :
  ∃ s, active_pcbs s ≠ [] ∧ listen_pcbs s ≠ [] ∧ pcbs_sane s.
Proof.
  assert (∃ s, active_pcbs s ≠ [] ∧ listen_pcbs s ≠ [] ∧
    rtc (stack_step demo_route (λ _, 0) 41 no_app no_app no_app (λ _, None) (λ _, None) (λ _, 0)) tcp_init s)
    as (s & H1 & H2 & Hrun).
  { eexists. split; [|split].
    3:{ eapply rtc_l; [eapply (do_listen _ _ _ _ _ _ _ _ _ demo_listener _ [true]); vm_compute; reflexivity|].
        eapply rtc_l; [eapply (do_input _ _ _ _ _ _ _ _ _ false 0 demo_syn _ [true; true; true]); vm_compute; reflexivity|].
        apply rtc_refl. }
    all: done. }
  exists s. split; [done|]. split; [done|].
  by apply (tcp_lists_stay_sane demo_route (λ _, 0) 41 no_app no_app no_app (λ _, None) (λ _, None) (λ _, 0) s).
Defined.

(** * Opening *)

(** Queueing the SYN of a block that has nothing queued. *)
Lemma enqueue_syn f opts p mems :
  unsent p = [] → snd_buf p = TCP_SND_BUF → snd_queuelen p = 0 → 0 <= mss p → has f TCP_SYN = true →
  tcp_enqueue [] f false (Some opts) p (true :: true :: mems) =
    (ERR_OK, set_snd_queuelen 1 (set_snd_buf 255 (set_snd_lbb (u32 (snd_lbb p + 1))
       (set_unsent [Seg (snd_lbb p) 0 f opts [] 1] p))), mems).
Proof.
  intros E1 E2 E3 Hm Hf. unfold tcp_enqueue. rewrite E1, E2, E3. cbn [length Z.of_nat].
  change (TCP_SND_BUF <? 0) with false. change (TCP_SND_QUEUELEN <=? 0) with false. cbv iota.
  cbn [enqueue_loop length]. rewrite (proj2 (Z.ltb_ge (mss p) (Z.of_nat 0))) by (cbn; lia).
  cbn [alloc negb alloc_bufs orb]. change (TCP_SND_QUEUELEN <? u8 (0 + 1)) with false. cbv iota.
  cbn [enqueue_loop app drop Z.to_nat]. rewrite Hf. cbn [orb join_queue push_last sg_len Z.ltb Z.compare].
  cbn -[u32 u16]. rewrite ?E2. reflexivity.
Qed.

(** Sending it, when the block has an address and is not waiting for a SYN. *)
Lemma output_syn route ticks p seg mems :
  unsent p = [seg] → unacked p = [] → sg_len seg = 0 → sg_seqno seg = lastack p → snd_max p = lastack p →
  is_u32 (lastack p) → has (sg_flags seg) TCP_SYN = true → flags p = 0 → local_ip p ≠ 0 → 0 <= send_window p →
  mss p <= rcv_wnd p → state p ≠ SYN_SENT →
  ∃ p', tcp_output route ticks p mems =
      Some (ERR_OK, p', [Out (local_ip p) (remote_ip p) (local_port p) (remote_port p) (sg_seqno seg) (rcv_nxt p)
                           (Z.lor (sg_flags seg) TCP_ACK) (rcv_wnd p) (sg_opts seg) (sg_data seg)], mems) ∧
    state p' = state p ∧ local_ip p' = local_ip p ∧ local_port p' = local_port p ∧ remote_ip p' = remote_ip p ∧
    remote_port p' = remote_port p ∧ rcv_nxt p' = rcv_nxt p ∧ snd_wnd p' = snd_wnd p ∧ mss p' = mss p ∧
    unsent p' = [] ∧ unacked p' = [or_flags TCP_ACK seg] ∧ snd_lbb p' = snd_lbb p ∧ lastack p' = lastack p ∧
    snd_max p' = u32 (lastack p + 1) ∧ snd_buf p' = snd_buf p ∧ snd_nxt p' = u32 (lastack p + 1).
Proof.
  intros E1 E2 E3 E4 E5 Hu Hf Hfl Hip Hw Hwnd Hst. unfold tcp_output. rewrite Hfl. cbn [has Z.land Z.eqb negb].
  rewrite E1. cbn [output_loop]. rewrite E4, E3, Z.sub_diag. change (u32 (0 + 0)) with 0.
  rewrite (proj2 (Z.leb_le 0 (send_window p))) by done. rewrite decide_False by done.
  unfold tcp_output_segment. cbn [local_ip set_flags set_unsent set_rtime rcv_wnd mss flags].
  rewrite (proj2 (Z.eqb_neq _ _) Hip), (proj2 (Z.ltb_ge _ _) Hwnd). cbn [mbind option_bind].
  match goal with |- context [record_sent _ ?y] => set (p2 := y) end.
  assert (TCP_TCPLEN (or_flags TCP_ACK seg) = 1) as Hlen.
  { unfold TCP_TCPLEN. cbn [sg_len sg_flags or_flags]. rewrite E3.
    change (has (Z.lor (sg_flags seg) TCP_ACK) TCP_FIN || has (Z.lor (sg_flags seg) TCP_ACK) TCP_SYN)
      with (is_ctrl (Z.lor (sg_flags seg) TCP_ACK)). rewrite ctrl_lor by done. unfold is_ctrl. by rewrite Hf, orb_true_r. }
  unfold record_sent. rewrite Hlen. cbn [Z.ltb Z.compare snd_nxt set_snd_nxt sg_seqno or_flags]. rewrite E4.
  assert (TCP_SEQ_LT (snd_max p2) (u32 (lastack p + 1)) = true) as Hlt.
  { assert (snd_max p2 = snd_max p) as -> by (subst p2; by destruct (_ =? 0)). rewrite E5.
    replace (lastack p) with (u32 (lastack p + 0)) at 1 by (rewrite Z.add_0_r; apply Z.mod_small; exact Hu).
    rewrite seq_lt by lia. done. }
  change (snd_max (set_snd_nxt (u32 (lastack p + 1)) p2)) with (snd_max p2). rewrite Hlt.
  subst p2. clear Hlt. destruct (rttest _ =? 0); eexists; (split; [unfold emit; cbn; by rewrite ?E4|]); cbn; rewrite ?E2;
    by split_and!.
Qed.

(** The block for a connection request, and the answer. *)
Definition opened (s : stack) (i : tcp_in) (port m : Z) (n : conn) : Prop :=
  let p := c_pcb n in
  state p = SYN_RCVD ∧ local_ip p = i_dest i ∧ local_port p = port ∧ remote_ip p = i_src i ∧
  remote_port p = i_sport i ∧ rcv_nxt p = u32 (i_seqno i + 1) ∧ snd_wnd p = i_wnd i ∧ mss p = m ∧
  sender_at (tcp_next_iss s) 0 1 p.

Lemma next_iss_u32 s : is_u32 (tcp_next_iss s).
Proof. apply Z.mod_pos_bound. lia. Qed.

(** C20: A SYN for a listening block makes one new connection in SYN-RCVD with the
    addresses, sequence numbers, window and segment size of the request, at the
    front of the active list, and is answered by exactly one SYN with an
    acknowledgement of the request and the MSS option; the other lists stay. *)
Theorem tcp_syn_opens_connection route beyond fuel accept connected sent recv i s c rest m mems :
  extract (for_conn i) (active_pcbs s) = None → split_at (for_conn i) (tw_pcbs s) = None →
  extract (for_listener i) (listen_pcbs s) = Some (c, rest) → st_of c = LISTEN → i_dest i ≠ 0 →
  has (i_flags i) TCP_RST = false → has (i_flags i) TCP_ACK = false → has (i_flags i) TCP_SYN = true →
  0 <= i_wnd i → tcp_parseopt fuel (opt_byte beyond (i_seg i)) (i_offset i) TCP_MSS = Some m → 0 <= m <= TCP_MSS →
  ∃ s' n, tcp_input route beyond fuel accept connected sent recv false 0 i s (true :: true :: true :: mems) =
      Some (s', [Out (i_dest i) (i_src i) (local_port (c_pcb c)) (i_sport i) (tcp_next_iss s)
                   (u32 (i_seqno i + 1)) (Z.lor TCP_SYN TCP_ACK) TCP_WND (mss_option m) []], mems) ∧
    active_pcbs s' = n :: active_pcbs s ∧ tw_pcbs s' = tw_pcbs s ∧ listen_pcbs s' = c :: rest ∧
    st_iss s' = tcp_next_iss s ∧ opened s i (local_port (c_pcb c)) m n.
Proof.
  intros E1 E2 E3 Hst Hdest Hrst Hack Hsyn Hwnd Hopt Hm. pose proof (next_iss_u32 s) as Hiss.
  unfold tcp_input. cbn [Z.eqb negb]. rewrite E1, E2, E3. unfold input_listen, tcp_process. rewrite Hrst.
  unfold st_of in Hst. rewrite !Hst. unfold process_listen. rewrite Hack, Hsyn. cbn [alloc negb].
  change (tcp_next_iss (set_listen (c :: rest) s)) with (tcp_next_iss s). set (iss := tcp_next_iss s) in *.
  match goal with |- context [parse_options _ _ _ ?y] => set (n0 := y) end.
  assert (parse_options beyond fuel i n0 = Some (on_pcb (set_mss m) n0)) as -> by (unfold parse_options; cbn; by rewrite Hopt).
  cbn [mbind option_bind]. rewrite enqueue_syn by (done || (cbn; lia)).
  match goal with |- context [tcp_output _ _ ?y _] => set (p1 := y) end.
  destruct (output_syn route (tcp_ticks s) p1 (Seg iss 0 (Z.lor TCP_SYN TCP_ACK) (mss_option m) [] 1) mems)
    as (p' & Hout & O1 & O2 & O3 & O4 & O5 & O6 & O7 & O8 & O9 & O10 & O11 & O12 & O13 & O14 & O15); try done.
  { subst p1. unfold send_window. cbn. destruct (_ <? _); lia. }
  { subst p1. cbn. unfold TCP_MSS, TCP_WND in *. lia. }
  change (tcp_ticks (set_listen (c :: rest) s)) with (tcp_ticks s). rewrite Hout. cbn [mbind option_bind].
  eexists _, (on_pcb (λ _, p') (on_pcb (set_mss m) n0)). split; [reflexivity|].
  split_and!; try done. unfold opened. cbn [c_pcb on_pcb]. rewrite O1, O2, O3, O4, O5, O6, O7, O8.
  split_and!; try done. clear Hout. assert (iss = u32 iss) as Hi by (symmetry; apply Z.mod_small; exact Hiss).
  assert (queued p' = [Seg iss 0 (Z.lor (Z.lor TCP_SYN TCP_ACK) TCP_ACK) (mss_option m) [] 1]) as Hq
    by (unfold queued; by rewrite O9, O10).
  split; rewrite ?Hq, ?O11, ?O12, ?O13, ?O14, ?O8, ?Z.add_0_r; try done.
  by repeat constructor.
Qed.

(** A stack with one listening block at a tick count near the wrap-around. *)
Definition demo_stack : stack := set_iss 4294967290 (set_ticks 7 (set_listen [in_state LISTEN demo_listener] tcp_init)).

Lemma tcp_syn_opens_connection_witness :
  ∃ s' n, tcp_input demo_route (λ _, 0) 41 no_app no_app (λ _, None) (λ _, None) false 0 demo_syn demo_stack
      [true; true; true] = Some (s', [Out 7 5 80 4000 1 901 18 1024 [2; 4; 0; 128] []], []) ∧
    active_pcbs s' = [n] ∧ opened demo_stack demo_syn 80 128 n.
Proof.
  destruct (tcp_syn_opens_connection demo_route (λ _, 0) 41 no_app no_app (λ _, None) (λ _, None) demo_syn demo_stack
    (in_state LISTEN demo_listener) [] 128 []) as (s' & n & H1 & H2 & _ & _ & _ & H3); try done.
  exists s', n. by split_and!.
Defined.

Lemma syn_ack_fields beyond fuel i ticks c c1 :
  parse_options beyond fuel i (on_pcb (take_syn_ack i []) (set_tmr ticks c)) = Some c1 →
  st_of c1 = ESTABLISHED ∧ rcv_nxt (c_pcb c1) = u32 (i_seqno i + 1) ∧ lastack (c_pcb c1) = i_ackno i ∧
  unacked (c_pcb c1) = [] ∧ unsent (c_pcb c1) = unsent (c_pcb c) ∧ snd_buf (c_pcb c1) = snd_buf (c_pcb c) ∧
  rcv_wnd (c_pcb c1) = i_wnd i ∧ snd_wnd (c_pcb c1) = snd_wnd (c_pcb c) ∧ flags (c_pcb c1) = flags (c_pcb c).
Proof. unfold parse_options. destruct (tcp_parseopt _ _ _ _) as [m|]; [|done]. intros [= <-]. split_and!; reflexivity. Qed.

(** The answer to our SYN establishes the connection: the peer's sequence
    number is taken, the SYN is off the queue and everything is acknowledged.
    The window of the answer, though, becomes the receive window. *)
Lemma tcp_syn_ack_establishes route ticks beyond fuel iss accept i c rseg mems r :
  st_of c = SYN_SENT → unacked (c_pcb c) = [rseg] → unsent (c_pcb c) = [] → i_flags i = Z.lor TCP_SYN TCP_ACK →
  i_ackno i = u32 (sg_seqno rseg + 1) → has (flags (c_pcb c)) TF_ACK_DELAY = false →
  tcp_process route ticks beyond fuel iss accept (λ _, None) i c mems = Some r →
  ∃ c', r_fate r = Kept c' ∧ r_outs r = [] ∧ st_of c' = ESTABLISHED ∧
    rcv_nxt (c_pcb c') = u32 (i_seqno i + 1) ∧ lastack (c_pcb c') = i_ackno i ∧ queued (c_pcb c') = [] ∧
    snd_buf (c_pcb c') = snd_buf (c_pcb c) ∧ rcv_wnd (c_pcb c') = i_wnd i ∧ snd_wnd (c_pcb c') = snd_wnd (c_pcb c) ∧
    has (flags (c_pcb c')) TF_ACK_DELAY = true.
Proof.
  intros Hst Hun Hus Hfl Hack Hd H. assert (process_syn_sent route ticks beyond fuel (λ _, None) i (set_tmr (u16 ticks) c) mems = Some r) as H'.
  { rewrite <-H. unfold tcp_process. rewrite Hfl. change (has (Z.lor TCP_SYN TCP_ACK) TCP_RST) with false.
    unfold st_of in Hst. rewrite Hst. cbn [c_pcb set_tmr]. by rewrite Hst. }
  clear H. revert H'. unfold process_syn_sent.
  destruct (has (i_flags i) TCP_ACK && has (i_flags i) TCP_SYN) eqn:E; [|by rewrite Hfl in E]. clear E.
  destruct (unacked (c_pcb (set_tmr (u16 ticks) c))) as [|x rest] eqn:Eu; [done|].
  change (unacked (c_pcb c) = x :: rest) in Eu. rewrite Hun in Eu. injection Eu as <- <-.
  rewrite Hack, Z.eqb_refl, <-Hack.
  destruct (parse_options _ _ _ _) as [c1|] eqn:Ep; [|done]. apply syn_ack_fields in Ep.
  destruct Ep as (F1 & F2 & F3 & F4 & F5 & F6 & F7 & F8 & F9). cbn [mbind option_bind].
  unfold tcp_ack. rewrite F9, Hd. intros [= <-]. exists (raise_flag TF_ACK_DELAY c1).
  split_and!; [done|done|exact F1|exact F2|exact F3| |exact F6|exact F7|exact F8|].
  - unfold queued. cbn. by rewrite F4, F5.
  - unfold has. cbn [flags c_pcb raise_flag on_pcb set_flags]. rewrite Z.land_lor_distr_l.
    change (Z.land TF_ACK_DELAY TF_ACK_DELAY) with 1. apply negb_true_iff, Z.eqb_neq. by intros [_ ?]%Z.lor_eq_0_iff.
Qed.

(** * Defects *)

(** A removed block is removed whatever the retransmission timer does. *)
Lemma slow_drops route ticks c mems r outs mems' :
  st_of c = SYN_RCVD → TCP_SYN_RCVD_TIMEOUT / TCP_SLOW_INTERVAL < u32 (ticks - c_tmr c) →
  slow_active route no_app (λ _, 0) ticks c mems = Some (r, outs, mems') → r = None.
Proof.
  intros Hst Ht. unfold slow_active. destruct (if too_many_rtx _ then _ else _) as [[c1 o1]|] eqn:E1; [|done].
  cbn [mbind option_bind]. assert (st_of c1 = SYN_RCVD ∧ c_tmr c1 = c_tmr c) as [H1 H2].
  { destruct (too_many_rtx _); [by injection E1 as <- <-|]. destruct (retransmit _) as [[p o]|] eqn:E2; [|done].
    injection E1 as <- <-. apply retransmit_state in E2. split; [|done]. unfold st_of in *. cbn. congruence. }
  set (c2 := match ooseq c1 with [] => c1 | _ => _ end).
  assert (st_of c2 = SYN_RCVD ∧ c_tmr c2 = c_tmr c) as [H3 H4].
  { subst c2. destruct (ooseq c1); [done|]. by destruct (_ <=? _). }
  clearbody c2. assert (stayed_too_long ticks c2 = true) as ->.
  { unfold stayed_too_long. unfold st_of in H3. rewrite H3, H4. by apply Z.ltb_lt. }
  rewrite orb_true_r. by intros [= <- <- <-].
Qed.

Lemma slow_keeps_state route ticks c mems c' outs mems' :
  slow_active route no_app (λ _, 0) ticks c mems = Some (Some c', outs, mems') → st_of c' = st_of c.
Proof.
  unfold slow_active. destruct (if too_many_rtx _ then _ else _) as [[c1 o1]|] eqn:E1; [|done].
  cbn [mbind option_bind]. assert (st_of c1 = st_of c) as H1.
  { destruct (too_many_rtx _); [by injection E1 as <- <-|]. destruct (retransmit _) as [[p o]|] eqn:E2; [|done].
    injection E1 as <- <-. by apply retransmit_state in E2. }
  destruct (_ || _); [done|]. cbn. intros [= <- <- <-]. rewrite <-H1. destruct (ooseq c1); [done|]. by destruct (_ <=? _).
Qed.

(** The time stamp of a block has 16 bits and is subtracted from a counter of
    32 bits: when the counter has passed 65775 (a little over nine hours of half
    seconds), the next slow timer removes every half-open connection, whenever
    its request came, and every block in TIME-WAIT. *)
Theorem tcp_old_stack_drops_connections route s mems s' outs mems' :
  65775 <= tcp_ticks s < 4294967295 → Forall (λ c, 0 <= c_tmr c < 65536) (active_pcbs s ++ tw_pcbs s) →
  tcp_slowtmr route no_app (λ _, 0) s mems = Some (s', outs, mems') →
  tw_pcbs s' = [] ∧ Forall (λ c, st_of c ≠ SYN_RCVD) (active_pcbs s').
Proof.
  intros Ht [Ha Htw]%Forall_app. unfold tcp_slowtmr. cbn [tcp_ticks set_ticks active_pcbs tw_pcbs set_active].
  assert (u32 (tcp_ticks s + 1) = tcp_ticks s + 1) as E0 by (apply Z.mod_small; lia). rewrite E0.
  destruct (slow_actives _ _ _ _ _ _) as [[[l o] m]|] eqn:E; [|done]. intros [= <- <- <-]. cbn [tw_pcbs active_pcbs set_tw set_active]. split.
  - induction Htw as [|c tw Hc _ IH]; [done|].
    rewrite filter_cons_False; [done|]. unfold tw_over. intros H%Z.ltb_ge.
    unfold u32 in H. rewrite Z.mod_small in H by lia. change (2 * TCP_MSL / TCP_SLOW_INTERVAL) with 240 in H. lia.
  - revert mems l o m E.
    induction Ha as [|c act Hc _ IH]; intros mems l o m; cbn [slow_actives]; [by intros [= <- <- <-]|].
    destruct (slow_active _ _ _ _ _ _) as [[[r o1] m1]|] eqn:E1; [|done]. cbn [mbind option_bind].
    destruct (slow_actives _ _ _ _ _ _) as [[[l2 o2] m2]|] eqn:E2; [|done]. cbn [mbind option_bind]. intros [= <- <- <-].
    apply IH in E2. destruct r as [c'|]; [|done]. apply Forall_cons. split; [|done]. intros Hst.
    pose proof (slow_keeps_state _ _ _ _ _ _ _ E1) as Hk. rewrite Hst in Hk. symmetry in Hk.
    apply slow_drops in E1; [done|done|]. unfold u32. rewrite Z.mod_small by lia.
    change (TCP_SYN_RCVD_TIMEOUT / TCP_SLOW_INTERVAL) with 40. lia.
Qed.

(** A request that arrived a tick ago. *)
Definition late_stack : stack :=
  set_ticks 70000 (set_active [Conn (set_state SYN_RCVD (tcp_new 100)) [] None (u16 70000)] tcp_init).

Lemma tcp_old_stack_drops_connections_witness :
  ∃ s', tcp_slowtmr demo_route no_app (λ _, 0) late_stack [] = Some (s', [], []) ∧
    Forall (λ c, st_of c ≠ SYN_RCVD) (active_pcbs s') ∧ active_pcbs s' = [].
Proof.
  assert (∃ s', tcp_slowtmr demo_route no_app (λ _, 0) late_stack [] = Some (s', [], []) ∧ active_pcbs s' = []) as (s' & H1 & H2)
    by (eexists; split; [vm_compute; reflexivity|done]).
  exists s'. split; [exact H1|]. split; [|exact H2].
  apply (tcp_old_stack_drops_connections demo_route late_stack [] s' [] []); [split; [discriminate|reflexivity]| |exact H1].
  repeat constructor; discriminate || reflexivity.
Defined.

(** A connection that the application does not accept is aborted, which frees
    its block, but [tcp_process] does not return ERR_ABRT then: [tcp_input] goes
    on with the freed block. *)
Theorem tcp_refused_block_is_used route beyond fuel connected sent recv i s c rest mems :
  extract (for_conn i) (active_pcbs s) = Some (c, rest) → st_of c = SYN_RCVD →
  has (i_flags i) TCP_RST = false → has (i_flags i) TCP_ACK = true →
  TCP_SEQ_LT (lastack (c_pcb c)) (i_ackno i) = true → TCP_SEQ_LEQ (i_ackno i) (snd_nxt (c_pcb c)) = true →
  tcp_input route beyond fuel no_app connected sent recv false 0 i s mems = None.
Proof.
  intros E Hst Hrst Hack H1 H2. unfold tcp_input. cbn [Z.eqb negb]. rewrite E. unfold input_active, tcp_process.
  rewrite Hrst. unfold st_of in Hst. cbn [c_pcb set_recv_data]. rewrite Hst. cbn [c_pcb set_tmr set_recv_data]. rewrite Hst.
  unfold process_syn_rcvd. cbn [c_pcb set_tmr set_recv_data]. rewrite Hrst, Hack, H1, H2. cbn [negb andb no_app].
  destruct (tcp_abort _ _ _ _) as [[o m]|]; done.
Qed.

(** The acknowledgement of the SYN of a server without an accept function. *)
Definition half_open : conn :=
  Conn (set_snd_nxt 101 (set_remote_port 4000 (set_remote_ip 5 (set_local_port 80 (set_local_ip 7
    (set_state SYN_RCVD (tcp_new 100))))))) [] None 0.
Definition last_ack : tcp_in := In 5 7 4000 80 (Seg 901 0 TCP_ACK [] [] 1) 101 2000 0x50.

Lemma tcp_refused_block_is_used_witness :
  tcp_input demo_route (λ _, 0) 41 no_app no_app (λ _, None) (λ _, None) false 0 last_ack (set_active [half_open] tcp_init)
    [true; true] = None.
Proof. apply (tcp_refused_block_is_used _ _ _ _ _ _ _ _ half_open []); reflexivity. Defined.

(** A FIN far outside of the window closes an established connection. *)
Example tcp_far_fin_closes :
  let c := Conn (set_local_ip 7 (set_rcv_nxt 1000 (set_state ESTABLISHED (tcp_new 100)))) [] None 0 in
  ∃ r c', tcp_process demo_route 5 (λ _, 0) 41 0 no_app no_app (In 5 7 4000 80 (Seg 500000 0 TCP_FIN [] [] 1) 0 0 0x50) c [true] =
      Some r ∧ r_fate r = Kept c' ∧ st_of c' = CLOSE_WAIT ∧ rcv_nxt (c_pcb c') = 1000 ∧
      has (flags (c_pcb c')) TF_GOT_FIN = false.
Proof. do 2 eexists. split; [vm_compute; reflexivity|]. done. Qed.

(** FIN-WAIT-2 is entered when the peer has acknowledged what was sent, although
    our FIN waits for the window to open. *)
Example tcp_fin_wait_2_before_fin :
  let c := Conn (set_unsent [Seg 100 0 TCP_FIN [] [] 1] (set_snd_lbb 101 (set_snd_buf 255 (set_local_ip 7 (set_rcv_nxt 1000
             (set_state FIN_WAIT_1 (tcp_new 100))))))) [] None 0 in
  ∃ r c', tcp_process demo_route 5 (λ _, 0) 41 0 no_app no_app (In 5 7 4000 80 (Seg 1000 0 TCP_ACK [] [] 1) 100 0 0x50) c [true] =
      Some r ∧ r_fate r = Kept c' ∧ st_of c' = FIN_WAIT_2 ∧ map sg_flags (unsent (c_pcb c')) = [TCP_FIN].
Proof. do 2 eexists. split; [vm_compute; reflexivity|]. done. Qed.

(** Data that comes with the peer's FIN after we have closed is not handed to
    the application, whatever its functions are: the block is in TIME-WAIT then. *)
Example tcp_last_data_dropped sent recv :
  let c := Conn (set_remote_port 4000 (set_remote_ip 5 (set_local_port 80 (set_local_ip 7 (set_rcv_nxt 1000
             (set_state FIN_WAIT_2 (tcp_new 100))))))) [] None 0 in
  ∃ s' outs c', tcp_input demo_route (λ _, 0) 41 no_app no_app sent recv false 0
      (In 5 7 4000 80 (Seg 1000 3 TCP_FIN [] [1; 2; 3] 1) 0 0 0x50) (set_active [c] tcp_init) [true] =
      Some (s', outs, []) ∧ active_pcbs s' = [] ∧ tw_pcbs s' = [c'] ∧ recv_data c' = Some [1; 2; 3].
Proof. do 3 eexists. split; [vm_compute; reflexivity|]. done. Qed.

(** * A whole conversation *)

(** What a segment that was sent is on arrival. *)
Definition arrive (o : tcp_out) : tcp_in :=
  In (o_src o) (o_dest o) (o_sport o) (o_dport o)
    (Seg (o_seqno o) (Z.of_nat (length (o_data o))) (o_flags o) (o_opts o) (o_data o) 1) (o_ackno o) (o_wnd o)
    (Z.shiftl (5 + Z.of_nat (length (o_opts o)) / 4) 4).

Definition takes_all (_ : conn) : option callback := Some (λ c mems, (ERR_OK, c, [], mems)).
Definition reads_all (_ : conn) : option (option (list Z) → callback) := Some (λ _ c mems, (ERR_OK, c, [], mems)).
Definition plenty : list bool := replicate 9 true.

(** One segment arrives and the single answer goes back. *)
Definition gets (route : Z → Z) (outs : list tcp_out) (s : stack) : option (stack * list tcp_out) :=
  match outs with
  | [o] => '(s, outs, _) ← tcp_input route (λ _, 0) 41 takes_all no_app (λ _, None) reads_all false 0 (arrive o) s plenty;
           Some (s, outs)
  | _ => None
  end.

(** The only active connection of a stack closes, or writes. *)
Definition closes (route : Z → Z) (s : stack) : option (stack * list tcp_out) :=
  c ← head (active_pcbs s);
  '(_, ft, outs, _) ← tcp_close route (tcp_ticks s) c plenty;
  Some (set_active (kept ft) s, outs).

Definition writes (route : Z → Z) (data : list Z) (s : stack) : option (stack * list tcp_out) :=
  c ← head (active_pcbs s);
  let '(_, p, _) := tcp_write data true (c_pcb c) plenty in
  '(_, p, outs, _) ← tcp_output route (tcp_ticks s) p plenty;
  Some (set_active [on_pcb (λ _, p) c] s, outs).

(** Host 5 connects to port 80 of host 7, sends three bytes and closes; host 7
    closes, too. *)
Definition conversation : option (stack * stack * option (list Z)) :=
  let ra := λ _, 5 in let rb := λ _, 7 in
  '(_, a, o, _) ← tcp_connect ra (Conn (tcp_new 6510) [] None 0) (Some 7) 80 tcp_init plenty;
  let '(_, b, _) := tcp_listen demo_listener tcp_init plenty in
  '(b, o) ← gets rb o b;
  '(a, _) ← gets ra o a;
  '(a, o, _) ← tcp_fasttmr ra a plenty;
  '(b, _) ← gets rb o b;
  '(a, o) ← writes ra [1; 2; 3] a;
  '(b, _) ← gets rb o b;
  let received := c ← head (active_pcbs b); recv_data c in
  '(b, o, _) ← tcp_fasttmr rb b plenty;
  '(a, _) ← gets ra o a;
  '(a, o) ← closes ra a;
  '(b, o) ← gets rb o b;
  '(a, _) ← gets ra o a;
  '(b, o) ← closes rb b;
  '(a, o) ← gets ra o a;
  '(b, _) ← gets rb o b;
  Some (a, b, received).

Example tcp_conversation_ends :
  match conversation with
  | Some (a, b, received) =>
      received = Some [1; 2; 3] ∧ map st_of (active_pcbs a) = [] ∧ map st_of (tw_pcbs a) = [TIME_WAIT] ∧
      active_pcbs b = [] ∧ tw_pcbs b = [] ∧ map st_of (listen_pcbs b) = [LISTEN]
  | None => False
  end.
Proof. vm_compute. by split_and!. Qed.
