(* ===== verification/Search.v ===== *)
(** Reading lines and writing text over sockets (cli/search_state.c,
    cli/socket_helper.c, real_socket_helper.c).

    The command line reads from two kinds of sockets: those of the TCP stack,
    with a descriptor that is not negative, and those of the operating system,
    whose descriptor it negates.  What a socket will deliver is a list of events;
    a call to [read] that finds none waits.  A list of outcomes says how the next
    calls to [write] end; behind it the peer takes everything.  Memory that [realloc] adds holds unknown bytes, and the
    allocator may refuse a size. *)

From Stdlib Require Import ZArith Lia.
From stdpp Require Import base tactics numbers option list.
From S2P Require Import Prelude.

Local Open Scope Z_scope.

Inductive lib := LWIP | OS.

#[global] Instance lib_eq_dec : EqDecision lib.
Proof. solve_decision. Defined.

Abbreviation conn := (lib * Z)%type.

(** Bytes arrive, the peer has closed, or the call fails with an error number. *)
Inductive event := Data (b : Z) (d : list Z) | Eof | Err (e : Z).

(** A call to [write] takes at most [k] bytes, fails, or does not return. *)
Inductive taken := Takes (k : Z) | Refuses (e : Z) | Stuck.

Definition EINTR : Z := 4.
Definition ENOMEM : Z := 12.
Definition ERANGE : Z := 34.
Definition WRITEN_MAX_LEN : Z := 4096.

Record net := Net {
  incoming : conn → list event;
  outgoing : conn → list Z;
  writes : list taken;
  errno : Z
}.

Inductive outcome (A : Type) := Returns (a : A) (n : net) | Waits | Dies.
Arguments Returns {A} a n.
Arguments Waits {A}.
Arguments Dies {A}.

Definition NM (A : Type) : Type := net → outcome A.

#[global] Instance nm_ret : MRet NM := λ A a n, Returns a n.
#[global] Instance nm_bind : MBind NM := λ A B f m n,
  match m n with Returns a n => f a n | Waits => Waits | Dies => Dies end.

Definition dies {A} : NM A := λ _, Dies.
Definition set_errno (e : Z) : NM unit := λ n, Returns tt (Net (incoming n) (outgoing n) (writes n) e).

(** A table of connections with one entry changed. *)
Definition at_conn {A} (c : conn) (v : A) (f : conn → A) : conn → A := λ c', if decide (c' = c) then v else f c'.

(** [read(fd, buf, amount)]: the bytes it puts into the buffer, none at the end,
    or -1 with an error number. *)
Definition read (c : conn) (amount : Z) : NM (option (list Z)) := λ n,
  match incoming n c with
  | [] => Waits
  | Data b d :: evs =>
      let l := b :: d in
      let rest := match drop (Z.to_nat amount) l with [] => evs | b' :: d' => Data b' d' :: evs end in
      Returns (Some (take (Z.to_nat amount) l))
        (Net (at_conn c rest (incoming n)) (outgoing n) (writes n) (errno n))
  | Eof :: _ => Returns (Some []) n
  | Err e :: evs => Returns None (Net (at_conn c evs (incoming n)) (outgoing n) (writes n) e)
  end.

(** [write(fd, buf, amount)]: the number of bytes, or -1. *)
Definition write (c : conn) (data : list Z) : NM Z := λ n,
  match writes n with
  | [] =>
      Returns (Z.of_nat (length data)) (Net (incoming n) (at_conn c (outgoing n c ++ data) (outgoing n)) [] (errno n))
  | Stuck :: _ => Waits
  | Takes k :: ws =>
      let sent := take (Z.to_nat k) data in
      Returns (Z.of_nat (length sent))
        (Net (incoming n) (at_conn c (outgoing n c ++ sent) (outgoing n)) ws (errno n))
  | Refuses e :: ws => Returns (-1) (Net (incoming n) (outgoing n) ws e)
  end.

Definition get_errno : NM Z := λ n, Returns (errno n) n.

(** * The buffer of a search *)

Record search_state_t := SearchState {
  chbuf : list Z;
  capacity : Z;
  max_capacity : Z;
  used : Z;
  search_offset : Z;
  needle_offset : Z
}.

Definition with_used (v : Z) (s : search_state_t) : search_state_t :=
  SearchState (chbuf s) (capacity s) (max_capacity s) v (search_offset s) (needle_offset s).
Definition with_search_offset (v : Z) (s : search_state_t) : search_state_t :=
  SearchState (chbuf s) (capacity s) (max_capacity s) (used s) v (needle_offset s).
Definition with_needle_offset (v : Z) (s : search_state_t) : search_state_t :=
  SearchState (chbuf s) (capacity s) (max_capacity s) (used s) (search_offset s) v.
Definition with_chbuf (v : list Z) (s : search_state_t) : search_state_t :=
  SearchState v (capacity s) (max_capacity s) (used s) (search_offset s) (needle_offset s).

Section sockets.
(** Which sizes the allocator grants, and what new memory holds. *)
Context (grants : Z → bool) (junk : Z → Z).

Definition realloc (old : list Z) (n : Z) : option (list Z) :=
  if grants n then
    Some (take (Z.to_nat n) old ++ ((λ i, junk (Z.of_nat i)) <$> seq (length old) (Z.to_nat n - length old)))
  else None.

Definition calloc (n : Z) : option (list Z) := if grants n then Some (replicate (Z.to_nat n) 0) else None.

Definition search_state_init (init_size max_size : Z) : NM search_state_t :=
  if (init_size =? 0) || (max_size <? init_size) then dies
  else
    match calloc init_size with
    | None => dies
    | Some m => mret (SearchState m init_size max_size 0 0 0)
    end.

Definition search_state_grow_if_full (s : search_state_t) : NM (Z * search_state_t) :=
  if used s =? capacity s then
    let newsize := u64 (2 * capacity s) in
    if (max_capacity s <? newsize) && (used s =? max_capacity s) then set_errno ERANGE;; mret (2, s)
    else
      let newsize := if max_capacity s <? newsize then max_capacity s else newsize in
      match realloc (chbuf s) newsize with
      | None => set_errno ENOMEM;; dies
      | Some m => mret (1, SearchState m newsize (max_capacity s) (used s) (search_offset s) (needle_offset s))
      end
  else mret (0, s).

(** * Reading *)

(** The buffer with bytes written at [off]; the source writes where there is
    memory, anything else is undefined. *)
Definition poke (buf : list Z) (off : Z) (l : list Z) : option (list Z) :=
  if (off <? 0) || (Z.of_nat (length buf) <? off + Z.of_nat (length l)) then None
  else Some (take (Z.to_nat off) buf ++ l ++ drop (Z.to_nat off + length l) buf).

(** An access outside of the memory of the buffer does not return. *)
Definition must {A} (o : option A) : NM A := match o with Some a => mret a | None => dies end.

(** [read_once] and [real_read_once]; a round per interrupted call. *)
Fixpoint read_once_loop (fuel : nat) (c : conn) (n : Z) : NM (Z * list Z) :=
  match fuel with
  | O => dies
  | S fuel =>
      r ← read c n;
      match r with
      | None => e ← get_errno; if e =? EINTR then read_once_loop fuel c n else mret (-1, [])
      | Some l => mret (Z.of_nat (length l), l)
      end
  end.

(** Bytes and events still to come. *)
Definition pending (evs : list event) : nat :=
  sum_list_with (λ e, match e with Data _ d => S (S (length d)) | _ => 1%nat end) evs.

Definition fuel_of (c : conn) (n : net) : nat := S (pending (incoming n c)).

Definition read_once (c : conn) (amount : Z) : NM (Z * list Z) := λ n,
  (if c.2 <? 0 then dies else read_once_loop (fuel_of c n) c amount) n.

(** [readn] and [real_readn]; [got] is what is in the buffer. *)
Fixpoint readn_loop (fuel : nat) (c : conn) (n nleft : Z) (got : list Z) : NM (Z * list Z) :=
  if 0 <? nleft then
    match fuel with
    | O => dies
    | S fuel =>
        r ← read c nleft;
        match r with
        | None => e ← get_errno; if e =? EINTR then readn_loop fuel c n nleft got else mret (-1, got)
        | Some [] => mret (n - nleft, got)
        | Some l => readn_loop fuel c n (nleft - Z.of_nat (length l)) (got ++ l)
        end
    end
  else mret (n - nleft, got).

Definition readn (c : conn) (n : Z) : NM (Z * list Z) := λ s,
  (if c.2 <? 0 then dies else readn_loop (fuel_of c s) c n n []) s.

(** [for(j = 0; j < needle_len; j++)]. *)
Fixpoint same_at (buf : list Z) (off : Z) (needle : list Z) : option bool :=
  match needle with
  | [] => Some true
  | x :: needle =>
      b ← buf !! Z.to_nat off;
      if b =? x then same_at buf (off + 1) needle else Some false
  end.

(** The loop over the newly read data; [limit] is [used + nread]. *)
Fixpoint scan (fuel : nat) (needle : list Z) (limit : Z) (s : search_state_t) : option (bool * search_state_t) :=
  if search_offset s + Z.of_nat (length needle) <=? limit then
    match fuel with
    | O => None
    | S fuel =>
        found ← same_at (chbuf s) (search_offset s) needle;
        if found : bool
        then Some (true, with_search_offset (search_offset s + 1) (with_needle_offset (search_offset s) s))
        else scan fuel needle limit (with_search_offset (search_offset s + 1) s)
    end
  else Some (false, s).

(** The end of a round of the outer loop: [inl] is the result, [inr] goes on. *)
Definition search_round (needle : list Z) (max_reads nread : Z) (s : search_state_t)
    : option (search_state_t * (Z + Z)) :=
  let limit := used s + nread in
  '(found, s) ← scan (S (Z.to_nat (limit - search_offset s))) needle limit s;
  let s := with_used (used s + nread) s in
  if found : bool then Some (s, inl 0)
  else if max_reads =? 0 then Some (s, inr 0)
  else
    let max_reads := if nread =? 0 then max_reads else max_reads - 1 in
    if max_reads =? 0 then Some (s, inl (-3)) else Some (s, inr max_reads).

Fixpoint search_loop (fuel : nat) (c : conn) (needle : list Z) (max_reads : Z) (s : search_state_t)
    : NM (Z * search_state_t) :=
  match fuel with
  | O => dies
  | S fuel =>
      '(g, s) ← search_state_grow_if_full s;
      if g =? 2 then mret (-2, s)
      else
        r ← read c (capacity s - used s);
        match r with
        | None => e ← get_errno; if e =? EINTR then search_loop fuel c needle max_reads s else mret (-1, s)
        | Some [] => mret (1, s)
        | Some l =>
            buf ← must (poke (chbuf s) (used s) l);
            '(s, v) ← must (search_round needle max_reads (Z.of_nat (length l)) (with_chbuf buf s));
            match v with
            | inl code => mret (code, s)
            | inr max_reads => search_loop fuel c needle max_reads s
            end
        end
  end.

(** [real_read_search] is [search_at] with a connection of the system. *)
Definition search_at (c : conn) (needle : list Z) (s : search_state_t) (max_reads : Z) : NM (Z * search_state_t) := λ n,
  (if c.2 <? 0 then dies
   else match needle with
        | [] => dies
        | _ =>
            '(s, v) ← must (search_round needle max_reads 0 s);
            match v with
            | inl code => mret (code, s)
            | inr max_reads => search_loop (fuel_of c n) c needle max_reads s
            end
        end) n.

(** Negative descriptors are those of the operating system. *)
Definition conn_of (fd : Z) : conn := if fd <? 0 then (OS, - fd) else (LWIP, fd).

Definition read_search (fd : Z) (needle : list Z) (s : search_state_t) (max_reads : Z) : NM (Z * search_state_t) :=
  search_at (conn_of fd) needle s max_reads.

(** * Writing *)

Fixpoint writen_loop (fuel : nat) (c : conn) (data : list Z) : NM Z :=
  match data with
  | [] => mret 0
  | _ =>
      match fuel with
      | O => dies
      | S fuel =>
          k ← write c data;
          if k <=? 0 then
            e ← get_errno;
            if (k <? 0) && (e =? EINTR) then writen_loop fuel c data else mret (-1)
          else writen_loop fuel c (drop (Z.to_nat k) data)
      end
  end.

(** A round per call to [write]: those of the list, and one for the rest. *)
Definition writen (fd : Z) (data : list Z) : NM Z := λ n,
  writen_loop (S (S (length (writes n)))) (conn_of fd) data n.

(** [actual] is the length of the whole text, which is cut to the buffer. *)
Definition writenf (fd : Z) (text : list Z) : NM Z :=
  let actual := Z.of_nat (length text) in
  if actual <? WRITEN_MAX_LEN then writen fd text else set_errno ERANGE;; mret (-1).

(** The bytes before the terminating null byte. *)
Definition writenstr (fd : Z) (str : list Z) : NM Z := writen fd str.

Fixpoint writenstrs (fd : Z) (strs : list (list Z)) : NM Z :=
  match strs with
  | [] => mret 0
  | str :: strs => ret ← writenstr fd str; if ret =? 0 then writenstrs fd strs else mret ret
  end.
End sockets.
