(* ===== verification/SearchProps.v ===== *)
(** What a search in a stream finds, and what a write sends.

    The specification is about the bytes that the stream delivers, however they
    are cut into reads: [read_search] finds the first occurrence of the needle
    from the offset of the search on, keeps every byte it has read, and says
    that there is none only when there is none. *)

From Stdlib Require Import ZArith Lia.
From stdpp Require Import base tactics numbers option list.
From S2P Require Import Prelude Search.

Local Open Scope Z_scope.

(** The needle stands at position [i] of the bytes. *)
Definition occurs (needle data : list Z) (i : Z) : Prop :=
  take (length needle) (drop (Z.to_nat i) data) = needle.

(** The bytes that events deliver before the end of the stream. *)
Fixpoint stream_bytes (evs : list event) : list Z :=
  match evs with
  | [] | Eof :: _ => []
  | Data b d :: evs => b :: d ++ stream_bytes evs
  | Err _ :: evs => stream_bytes evs
  end.

(** The part of the buffer that was read into. *)
Definition contents (s : search_state_t) : list Z := take (Z.to_nat (used s)) (chbuf s).

Record search_ok (s : search_state_t) : Prop := {
  so_memory : Z.of_nat (length (chbuf s)) = capacity s;
  so_used : 0 <= used s <= capacity s;
  so_capacity : 1 <= capacity s <= max_capacity s;
  so_max : max_capacity s < 4611686018427387904;
  so_offset : 0 <= search_offset s <= used s
}.

Lemma contents_length s : search_ok s → Z.of_nat (length (contents s)) = used s.
Proof. intros []. unfold contents. rewrite length_take. lia. Qed.

(** * Occurrences *)

Lemma occurs_app needle data more i :
  0 <= i → i + Z.of_nat (length needle) <= Z.of_nat (length data) →
  occurs needle (data ++ more) i ↔ occurs needle data i.
Proof.
  intros Hi Hl. unfold occurs. rewrite drop_app_le by lia. rewrite take_app_le; [done|]. rewrite length_drop. lia.
Qed.

Lemma occurs_inside needle data i :
  needle ≠ [] → 0 <= i → occurs needle data i → i + Z.of_nat (length needle) <= Z.of_nat (length data).
Proof.
  unfold occurs. intros Hne Hi E. apply (f_equal length) in E. rewrite length_take, length_drop in E.
  destruct needle as [|x needle]; [done|]. cbn [length] in *. lia.
Qed.

Lemma same_at_spec buf off needle limit :
  0 <= off → off + Z.of_nat (length needle) <= limit → limit <= Z.of_nat (length buf) →
  ∃ b, same_at buf off needle = Some b ∧ (b = true ↔ occurs needle (take (Z.to_nat limit) buf) off).
Proof.
  revert off. induction needle as [|x needle IH]; intros off Hoff Hl Hb; cbn [same_at length] in *.
  { exists true. split; [done|]. split; [|done]. intros _. unfold occurs. by rewrite take_0. }
  destruct (lookup_lt_is_Some_2 buf (Z.to_nat off)) as [y Hy]; [lia|]. rewrite Hy. cbn [mbind option_bind].
  assert (drop (Z.to_nat off) (take (Z.to_nat limit) buf) = y :: drop (Z.to_nat (off + 1)) (take (Z.to_nat limit) buf)) as Hd.
  { replace (Z.to_nat (off + 1)) with (S (Z.to_nat off)) by lia. apply drop_S. rewrite lookup_take_lt by lia. done. }
  unfold occurs in *. cbn [length]. rewrite Hd. cbn [take].
  destruct (Z.eqb_spec y x) as [->|Hne].
  - destruct (IH (off + 1)) as (b & -> & Hiff); [lia..|]. exists b. split; [done|]. rewrite Hiff. split; [by intros ->|by intros [=]].
  - exists false. split; [done|]. split; [done|]. intros [= ? _]. by subst.
Qed.

(** No occurrence starts in a range, and the range lies inside. *)
Definition none_in (needle data : list Z) (lo hi : Z) : Prop :=
  ∀ i, lo <= i < hi → i + Z.of_nat (length needle) <= Z.of_nat (length data) ∧ ¬ occurs needle data i.

Lemma none_in_app needle data more lo hi : 0 <= lo → none_in needle data lo hi → none_in needle (data ++ more) lo hi.
Proof.
  intros Hlo Hn i Hi. destruct (Hn i Hi) as [Hl Ho]. rewrite length_app. split; [lia|]. rewrite occurs_app by lia. done.
Qed.

Lemma none_in_all needle data lo hi i :
  needle ≠ [] → none_in needle data lo hi → Z.of_nat (length data) < hi + Z.of_nat (length needle) →
  0 <= lo <= i → ¬ occurs needle data i.
Proof.
  intros Hne Hn Hh Hi Ho. pose proof (occurs_inside needle data i Hne ltac:(lia) Ho). by apply (Hn i ltac:(lia)).
Qed.

(** The inner loop. *)
Lemma scan_spec fuel needle limit s lo :
  needle ≠ [] → 0 <= lo <= search_offset s → limit <= Z.of_nat (length (chbuf s)) →
  (Z.to_nat (limit - search_offset s) < fuel)%nat →
  let data := take (Z.to_nat limit) (chbuf s) in
  none_in needle data lo (search_offset s) →
  ∃ k, search_offset s <= k ∧ none_in needle data lo k ∧
    ((occurs needle data k ∧
      scan fuel needle limit s = Some (true, with_search_offset (k + 1) (with_needle_offset k s))) ∨
     ((k = search_offset s ∨ k <= limit) ∧ limit < k + Z.of_nat (length needle) ∧
      scan fuel needle limit s = Some (false, with_search_offset k s))).
Proof.
  revert s. induction fuel as [|fuel IH]; intros s Hne Hlo Hb Hf data Hn; [lia|]. cbn [scan].
  assert (1 <= Z.of_nat (length needle)) by (destruct needle; [done|cbn [length]; lia]).
  destruct (Z.leb_spec (search_offset s + Z.of_nat (length needle)) limit) as [Hle|Hgt].
  - destruct (same_at_spec (chbuf s) (search_offset s) needle limit) as (b & -> & Hiff); [lia..|]. cbn [mbind option_bind].
    destruct b.
    + exists (search_offset s). split; [lia|]. split; [done|]. left. split; [by apply Hiff|done].
    + set (s' := with_search_offset (search_offset s + 1) s).
      destruct (IH s') as (k & Hk & Hn' & Hres); [done|cbn; lia|done|cbn; lia| |].
      { intros i Hi. cbn in Hi. destruct (decide (i = search_offset s)) as [->|Hd]; [|apply Hn; lia]. split.
        - cbn. rewrite length_take. lia.
        - intros Ho. apply Hiff in Ho. done. }
      cbn in Hk. exists k. split; [lia|]. split; [done|]. destruct Hres as [[? ->]|(Hk' & ? & ->)]; [by left|right].
      split; [cbn in Hk'; lia|done].
  - exists (search_offset s). split; [lia|]. split; [done|]. right. split; [by left|]. split; [lia|]. by destruct s.
Qed.

(** * A round of the search *)

(** What is known between two rounds of a search from [lo] on: nothing was found. *)
Definition searching (needle : list Z) (lo : Z) (s : search_state_t) : Prop :=
  search_ok s ∧ 0 <= lo <= search_offset s ∧ none_in needle (contents s) lo (search_offset s) ∧
  used s < search_offset s + Z.of_nat (length needle).

(** The needle was found, at its first place. *)
Definition found_at (needle : list Z) (lo : Z) (s : search_state_t) : Prop :=
  search_ok s ∧ lo <= needle_offset s ∧ occurs needle (contents s) (needle_offset s) ∧
  (∀ i, lo <= i < needle_offset s → ¬ occurs needle (contents s) i) ∧ search_offset s = needle_offset s + 1.

Lemma search_round_spec needle max_reads nread s lo :
  needle ≠ [] → search_ok s → 0 <= lo <= search_offset s → none_in needle (contents s) lo (search_offset s) →
  0 <= nread → used s + nread <= capacity s → 0 <= max_reads →
  ∃ s' v, search_round needle max_reads nread s = Some (s', v) ∧
    chbuf s' = chbuf s ∧ used s' = used s + nread ∧ capacity s' = capacity s ∧ max_capacity s' = max_capacity s ∧
    match v with
    | inl code => (code = 0 ∧ found_at needle lo s') ∨
                  (code = -3 ∧ searching needle lo s' ∧ nread ≠ 0 ∧ max_reads = 1)
    | inr m => searching needle lo s' ∧ m = (if (max_reads =? 0) || (nread =? 0) then max_reads else max_reads - 1)
               ∧ 0 <= m ∧ (m = 0 ↔ max_reads = 0)
    end.
Proof.
  intros Hne Hok Hlo Hn Hr Hcap Hm. pose proof Hok as [Hmem Hu Hc Hx Ho].
  set (limit := used s + nread). set (data := take (Z.to_nat limit) (chbuf s)).
  assert (none_in needle data lo (search_offset s)) as Hn'.
  { replace data with (contents s ++ take (Z.to_nat nread) (drop (Z.to_nat (used s)) (chbuf s))).
    { apply none_in_app; [lia|done]. }
    unfold data, contents, limit. rewrite take_take_drop. f_equal. lia. }
  destruct (scan_spec (S (Z.to_nat (limit - search_offset s))) needle limit s lo) as (k & Hk & Hnk & Hres);
    [done|lia|lia|lia|done|].
  assert (Z.of_nat (length data) = limit) as Hld by (unfold data; rewrite length_take; lia).
  assert (1 <= Z.of_nat (length needle)) by (destruct needle; [done|cbn [length]; lia]).
  unfold search_round. fold limit. destruct Hres as [[Hocc ->]|(Hkl & Hlim & ->)]; cbn [mbind option_bind].
  - eexists _, (inl 0). split; [done|]. split_and!; [done..|]. left. split; [done|].
    pose proof (occurs_inside needle data k Hne ltac:(lia) Hocc) as Hin. fold data in Hin. rewrite Hld in Hin.
    split; [split; cbn; unfold limit in *; lia|]. cbn. split; [lia|]. unfold contents. cbn.
    split; [done|]. split; [|done]. intros i Hi. by apply Hnk.
  - assert (searching needle lo (with_used (used s + nread) (with_search_offset k s))) as Hs.
    { split; [split; cbn; unfold limit in *; lia|]. cbn. split; [lia|]. split; [done|]. unfold limit in *. lia. }
    destruct (Z.eqb_spec max_reads 0) as [->|Hm0].
    { eexists _, (inr 0). split; [done|]. do 4 (split; [done|]). split; [exact Hs|]. split_and!; [done|lia|lia]. }
    cbn [orb]. destruct (Z.eqb_spec nread 0) as [Hr0|Hr0].
    + destruct (Z.eqb_spec max_reads 0); [done|]. eexists _, (inr max_reads). split; [done|]. do 4 (split; [done|]).
      split; [exact Hs|]. split_and!; [done|lia|lia].
    + destruct (Z.eqb_spec (max_reads - 1) 0) as [E|E]; eexists _, _; (split; [reflexivity|]); (do 4 (split; [done|])).
      * right. split; [done|]. split; [exact Hs|]. split; [done|lia].
      * split; [exact Hs|]. split_and!; [done|lia|lia].
Qed.

(** * The loop of reads *)

(** Only the connection [c] is read from, and nothing is written. *)
Definition only_reads (c : conn) (n n' : net) : Prop :=
  outgoing n' = outgoing n ∧ writes n' = writes n ∧ ∀ c', c' ≠ c → incoming n' c' = incoming n c'.

#[global] Instance only_reads_preorder c : PreOrder (only_reads c).
Proof.
  split; [done|]. intros n1 n2 n3 (H1 & H2 & H3) (H4 & H5 & H6).
  split; [congruence|]. split; [congruence|]. intros c' Hc. by rewrite H6, H3.
Qed.

(** An event after which a search goes on. *)
Definition goes_on (e : event) : Prop := match e with Data _ _ => True | Err e => e = EINTR | Eof => False end.

(** The result of a search from [lo] on, from the stream [evs] to [evs']. *)
Definition search_result (needle : list Z) (lo : Z) (s : search_state_t) (evs : list event)
    (code : Z) (s' : search_state_t) (n' : net) (evs' : list event) : Prop :=
  max_capacity s' = max_capacity s ∧
  (∃ got, contents s' = contents s ++ got ∧ stream_bytes evs = got ++ stream_bytes evs') ∧
  ((code = 0 ∧ found_at needle lo s') ∨
   (searching needle lo s' ∧
    ((code = 1 ∧ head evs' = Some Eof) ∨ (code = -1 ∧ errno n' ≠ EINTR) ∨
     (code = -2 ∧ used s' = max_capacity s') ∨ code = -3))).

Lemma read_run c amount n :
  0 < amount →
  match read c amount n with
  | Returns None n' => only_reads c n n' ∧ incoming n c = Err (errno n') :: incoming n' c
  | Returns (Some []) n' => n' = n ∧ head (incoming n c) = Some Eof
  | Returns (Some l) n' =>
      only_reads c n n' ∧ (length l <= Z.to_nat amount)%nat ∧
      stream_bytes (incoming n c) = l ++ stream_bytes (incoming n' c) ∧
      (pending (incoming n' c) < pending (incoming n c))%nat ∧
      (Forall goes_on (incoming n' c) → Forall goes_on (incoming n c))
  | Waits => incoming n c = []
  | Dies => False
  end.
Proof.
  intros Ha. unfold read. destruct (incoming n c) as [|[b d| |e] evs] eqn:E.
  - done.
  - destruct (Z.to_nat amount) as [|k] eqn:Ek; [lia|]. cbn [take drop].
    unfold at_conn, only_reads. cbn. rewrite decide_True by done. split_and!.
    + done.
    + done.
    + intros c' Hc. by rewrite decide_False.
    + rewrite length_take. lia.
    + rewrite <-(take_drop k d) at 1. rewrite <-app_assoc. destruct (drop k d); done.
    + pose proof (length_drop d k) as Hl. destruct (drop k d) as [|b' d']; cbn in *; lia.
    + destruct (drop k d); rewrite ?Forall_cons; [done|]. by intros [_ ?].
  - done.
  - unfold at_conn, only_reads. cbn. rewrite decide_True by done. split_and!; [done|done| |done].
    intros c' Hc. by rewrite decide_False.
Qed.

(** Run the statements around a call. *)
Ltac nm := unfold must, get_errno, mbind, nm_bind, mret, nm_ret; cbv beta iota.

Section search.
Context (grants : Z → bool) (junk : Z → Z).

(** The allocator has refused memory for a buffer. *)
Definition refused (s : search_state_t) : Prop := ∃ size, 0 < size <= max_capacity s ∧ grants size = false.

Lemma grow_run s n :
  search_ok s →
  match search_state_grow_if_full grants junk s n with
  | Returns (g, s') n' =>
      incoming n' = incoming n ∧ outgoing n' = outgoing n ∧ writes n' = writes n ∧
      search_ok s' ∧ contents s' = contents s ∧ used s' = used s ∧
      search_offset s' = search_offset s ∧ needle_offset s' = needle_offset s ∧ max_capacity s' = max_capacity s ∧
      ((g = 2 ∧ s' = s ∧ used s = max_capacity s) ∨
       (g = 1 ∧ used s = capacity s ∧ used s' < capacity s') ∨ (g = 0 ∧ n' = n ∧ s' = s ∧ used s < capacity s))
  | Waits => False
  | Dies => refused s
  end.
Proof.
  intros Hok. pose proof Hok as [Hmem Hu Hc Hx Ho]. unfold search_state_grow_if_full.
  destruct (Z.eqb_spec (used s) (capacity s)) as [Hfull|Hnot].
  2: { cbn. split_and!; try done. right. right. split_and!; [done|done|done|lia]. }
  assert (u64 (2 * capacity s) = 2 * capacity s) as -> by (apply u64_small; lia).
  destruct ((max_capacity s <? 2 * capacity s) && (used s =? max_capacity s)) eqn:E2.
  { apply andb_prop in E2 as [_ Em%Z.eqb_eq]. cbn. split_and!; try done. by left. }
  set (size := if max_capacity s <? 2 * capacity s then max_capacity s else 2 * capacity s).
  assert (capacity s < size <= max_capacity s) as Hsize.
  { unfold size. apply andb_false_iff in E2. destruct (Z.ltb_spec (max_capacity s) (2 * capacity s)); [|lia].
    destruct E2 as [E2|E2]; [lia|]. apply Z.eqb_neq in E2. lia. }
  unfold realloc. destruct (grants size) eqn:Eg.
  2: { cbn. exists size. split; [lia|done]. }
  assert (take (Z.to_nat size) (chbuf s) = chbuf s) as -> by (apply take_ge; lia).
  unfold mret, nm_ret. cbn -[seq]. unfold contents. cbn -[seq]. rewrite (take_app_le (chbuf s)) by lia. split_and!; try done.
  - split; cbn -[seq]; [|lia..]. rewrite length_app, length_fmap, length_seq. lia.
  - right. left. split_and!; [done|done|lia].
Qed.

Lemma poke_run s l :
  search_ok s → used s + Z.of_nat (length l) <= capacity s →
  ∃ buf, poke (chbuf s) (used s) l = Some buf ∧ Z.of_nat (length buf) = capacity s ∧
    take (Z.to_nat (used s)) buf = contents s ∧
    take (Z.to_nat (used s + Z.of_nat (length l))) buf = contents s ++ l.
Proof.
  intros [Hmem Hu Hc Hx Ho] Hl. unfold poke.
  destruct (Z.ltb_spec (used s) 0); [lia|].
  destruct (Z.ltb_spec (Z.of_nat (length (chbuf s))) (used s + Z.of_nat (length l))); [lia|].
  cbn [orb]. eexists. split; [done|].
  assert (length (take (Z.to_nat (used s)) (chbuf s)) = Z.to_nat (used s)) as Ht by (rewrite length_take; lia).
  split_and!.
  - rewrite !length_app, Ht, length_drop. lia.
  - by rewrite take_app_length'.
  - rewrite app_assoc. rewrite take_app_length'; [done|]. rewrite length_app, Ht. lia.
Qed.

(** The bytes behind the buffer do not change what is known of it. *)
Lemma searching_memory needle lo s buf :
  searching needle lo s → Z.of_nat (length buf) = capacity s → take (Z.to_nat (used s)) buf = contents s →
  searching needle lo (with_chbuf buf s).
Proof.
  intros ([Hmem Hu Hc Hx Ho] & Hlo & Hn & Hd) Hl Ht. split; [by split|]. split; [done|]. split; [|done].
  unfold contents. cbn. by rewrite Ht.
Qed.

(** A result of the rest of a search is one of the whole. *)
Lemma search_result_step needle lo s s1 evs evs1 code s' n' evs' l :
  max_capacity s1 = max_capacity s → contents s1 = contents s ++ l → stream_bytes evs = l ++ stream_bytes evs1 →
  search_result needle lo s1 evs1 code s' n' evs' → search_result needle lo s evs code s' n' evs'.
Proof.
  intros Hm Hc Hs (Hm' & (got & Hg & Hst) & Hres). split; [congruence|]. split; [|done].
  exists (l ++ got). rewrite Hg, Hc, Hs, Hst. by rewrite !app_assoc.
Qed.

Definition search_run (needle : list Z) (lo : Z) (c : conn) (s : search_state_t) (n : net)
    (o : outcome (Z * search_state_t)) : Prop :=
  match o with
  | Returns (code, s') n' =>
      only_reads c n n' ∧ search_result needle lo s (incoming n c) code s' n' (incoming n' c)
  | Waits =>
      Forall goes_on (incoming n c) ∧
      ∀ i, lo <= i → ¬ occurs needle (contents s ++ stream_bytes (incoming n c)) i
  | Dies => refused s
  end.

(** One read on, and then the rest. *)
Lemma search_run_step needle lo c s s1 n n1 o l :
  max_capacity s1 = max_capacity s → contents s1 = contents s ++ l →
  stream_bytes (incoming n c) = l ++ stream_bytes (incoming n1 c) → only_reads c n n1 →
  (Forall goes_on (incoming n1 c) → Forall goes_on (incoming n c)) →
  search_run needle lo c s1 n1 o → search_run needle lo c s n o.
Proof.
  intros Hm Hc Hs Hr Hg. destruct o as [[code s'] n'| |]; cbn.
  - intros [Hr' Hres]. split; [by etrans|]. by eapply search_result_step.
  - intros [Hf Hno]. split; [by apply Hg|]. intros i Hi. rewrite Hs, app_assoc, <-Hc. by apply Hno.
  - intros (size & Hsize & Hgr). exists size. by rewrite <-Hm.
Qed.

Lemma search_loop_run fuel c needle m s lo n :
  needle ≠ [] → searching needle lo s → 0 <= m → (pending (incoming n c) < fuel)%nat →
  search_run needle lo c s n (search_loop grants junk fuel c needle m s n).
Proof.
  revert m s n. induction fuel as [|fuel IH]; intros m s n Hne Hse Hm Hf; [lia|].
  pose proof Hse as (Hok & Hlo & Hn & Hd). cbn [search_loop]. nm.
  pose proof (grow_run s n Hok) as Hg.
  destruct (search_state_grow_if_full grants junk s n) as [[g s1] n1| |]; [|done|done].
  destruct Hg as (Hi & Ho & Hw & Hok1 & Hc1 & Hu1 & Hso1 & _ & Hm1 & Hcase).
  assert (only_reads c n n1) as Hr1 by (split_and!; [done|done|by rewrite Hi]).
  assert (searching needle lo s1) as Hse1 by (split; [done|]; by rewrite Hso1, Hc1, Hu1).
  destruct (Z.eqb_spec g 2) as [->|Hg2].
  { destruct Hcase as [(_ & -> & E)|Hcase]; [|lia]. cbn. split; [done|]. split; [done|].
    split; [exists []; by rewrite app_nil_r, Hi|]. right. split; [done|]. right. right. left. done. }
  assert (used s1 < capacity s1) as Hroom by (destruct Hcase as [(-> & _)|[(_ & _ & ?)|(_ & _ & -> & ?)]]; [done|lia|lia]).
  pose proof (read_run c (capacity s1 - used s1) n1 ltac:(lia)) as Hrd. rewrite Hi in Hrd.
  destruct (read c (capacity s1 - used s1) n1) as [[l|] n2| |].
  - destruct l as [|b d].
    { destruct Hrd as [-> Hh]. cbn. split; [done|]. split; [done|]. rewrite Hi. split; [exists []; by rewrite app_nil_r|].
      right. split; [done|]. by left. }
    set (l := b :: d) in *. destruct Hrd as (Hr2 & Hl & Hst & Hp & Hgo).
    destruct (poke_run s1 l Hok1) as (buf & Hpk & Hlen & Ht1 & Ht2); [lia|]. rewrite Hpk. cbv beta iota.
    pose proof (searching_memory _ _ _ _ Hse1 Hlen Ht1) as Hse2.
    pose proof Hse2 as (Hok2 & Hlo2 & Hn2 & _).
    destruct (search_round_spec needle m (Z.of_nat (length l)) (with_chbuf buf s1) lo)
      as (s3 & v & Hrun & Hb3 & Hu3 & _ & Hm3 & Hv); [done|done|done|done|lia|cbn [used capacity with_chbuf]; lia|done|].
        rewrite Hrun. cbv beta iota.
    assert (contents s3 = contents s ++ l) as Hc3.
    { unfold contents at 1. rewrite Hb3, Hu3. cbn [chbuf used with_chbuf]. by rewrite Ht2, Hc1. }
    eapply (search_run_step _ _ _ s s3 n n2 _ l); [by rewrite Hm3|done|done|by etrans|done|].
    destruct v as [code|m'].
    + cbn. split; [done|]. split; [done|]. split; [exists []; by rewrite app_nil_r|].
      destruct Hv as [[-> Hv]|(-> & Hv & _)]; [by left|right]. split; [done|]. by do 3 right.
    + destruct Hv as (Hs3 & _ & Hm' & _). apply IH; [done|done|done|]. lia.
  - destruct Hrd as [Hr2 Hev]. destruct (Z.eqb_spec (errno n2) EINTR) as [He|He].
    + eapply (search_run_step _ _ _ s s1 n n2 _ []); [done|by rewrite app_nil_r| |by etrans| |].
      * by rewrite Hev.
      * rewrite Hev. intros Hf'. by constructor.
      * apply IH; [done|done|done|]. rewrite Hev in Hf. unfold pending in *. cbn in Hf. lia.
    + cbn. split; [by etrans|]. split; [done|]. split; [exists []; by rewrite app_nil_r, Hev|].
      right. split; [done|]. right. left. done.
  - cbn. rewrite Hrd. cbn. rewrite app_nil_r. split; [done|]. intros i Hi'. eapply none_in_all; [done|done| |lia].
    rewrite contents_length by done. lia.
  - done.
Qed.

(** The whole search. *)
Lemma search_at_run c needle s m n :
  needle ≠ [] → search_ok s → 0 <= m → 0 <= c.2 →
  search_run needle (search_offset s) c s n (search_at grants junk c needle s m n).
Proof.
  intros Hne Hok Hm Hc. pose proof Hok as [Hmem Hu Hcap Hx Ho]. unfold search_at.
  destruct (Z.ltb_spec c.2 0); [lia|]. destruct needle as [|x needle']; [done|]. set (needle := x :: needle') in *.
  destruct (search_round_spec needle m 0 s (search_offset s)) as (s1 & v & Hrun & Hb1 & Hu1 & Hc1 & Hm1 & Hv);
    [done|done|lia|intros i Hi; lia|done|lia|done|].
  rewrite Hrun. nm. cbv beta iota.
  assert (contents s1 = contents s) as Ec by (unfold contents; by rewrite Hb1, Hu1, Z.add_0_r).
  eapply (search_run_step _ _ _ s s1 n n _ []); [done|by rewrite app_nil_r|done|done|done|].
  destruct v as [code|m'].
  - cbn. split; [done|]. split; [done|]. split; [exists []; by rewrite app_nil_r|].
    destruct Hv as [[-> Hv]|(_ & _ & ? & _)]; [by left|done].
  - destruct Hv as (Hs1 & -> & Hm' & _). apply search_loop_run; [done|done|done|]. unfold fuel_of. lia.
Qed.

Lemma conn_of_nonneg fd : 0 <= (conn_of fd).2.
Proof. unfold conn_of. destruct (Z.ltb_spec fd 0); cbn; lia. Qed.

Lemma search_result_ok needle lo s evs code s' n' evs' :
  search_result needle lo s evs code s' n' evs' → search_ok s'.
Proof. by intros (_ & _ & [[_ [? _]]|[[? _] _]]). Qed.

(** C31: [read_search] finds the first occurrence of the needle from the offset
    of the search on, whatever the cuts of the stream into reads, interrupted
    calls included.  Every byte it has read is in the buffer, which never grows
    beyond its maximum.  A result other than 0 means that what was read does not
    hold the needle: 1 at the end of the stream, -1 after an error that is not an
    interruption, -2 when the buffer is full, -3 when no more reads are allowed.
    It waits only when nothing more comes and the needle is not in what came, and
    the process ends only when memory is refused. *)
Theorem read_search_finds_first fd needle s max_reads n :
  let c := conn_of fd in
  needle ≠ [] → search_ok s → 0 <= max_reads →
  match read_search grants junk fd needle s max_reads n with
  | Returns (code, s') n' =>
      search_ok s' ∧ max_capacity s' = max_capacity s ∧ only_reads c n n' ∧
      (∃ got, contents s' = contents s ++ got ∧ stream_bytes (incoming n c) = got ++ stream_bytes (incoming n' c)) ∧
      ((code = 0 ∧ search_offset s <= needle_offset s' ∧ occurs needle (contents s') (needle_offset s') ∧
        ∀ i, search_offset s <= i < needle_offset s' → ¬ occurs needle (contents s') i) ∨
       ((∀ i, search_offset s <= i → ¬ occurs needle (contents s') i) ∧
        ((code = 1 ∧ head (incoming n' c) = Some Eof) ∨ (code = -1 ∧ errno n' ≠ EINTR) ∨
         (code = -2 ∧ used s' = max_capacity s') ∨ code = -3)))
  | Waits =>
      Forall goes_on (incoming n c) ∧
      ∀ i, search_offset s <= i → ¬ occurs needle (contents s ++ stream_bytes (incoming n c)) i
  | Dies => refused s
  end.
Proof.
  intros c Hne Hok Hm. pose proof (search_at_run c needle s max_reads n Hne Hok Hm (conn_of_nonneg fd)) as Hrun.
  unfold read_search. fold c. destruct (search_at _ _ _ _ _ _ _) as [[code s'] n'| |]; cbn in Hrun; [|done|done].
  destruct Hrun as [Hr Hres]. pose proof (search_result_ok _ _ _ _ _ _ _ _ Hres) as Hok'.
  destruct Hres as (Hmax & Hgot & Hcode). split_and!; [done|done|done|done|].
  destruct Hcode as [[-> (_ & Hlo & Hocc & Hfirst & _)]|[(_ & Hlo & Hn & Hd) Hcode]]; [by left|right].
  split; [|done]. intros i Hi. eapply none_in_all; [done|done| |pose proof (so_offset _ Hok); lia].
  rewrite contents_length by done. lia.
Qed.
End search.

(** * Writing *)

Lemma writen_loop_run fuel c data n :
  (S (length (writes n)) < fuel)%nat →
  match writen_loop fuel c data n with
  | Returns r n' => ∃ sent rest, data = sent ++ rest ∧ outgoing n' c = outgoing n c ++ sent ∧
      incoming n' = incoming n ∧ (writes n = [] → r = 0 ∧ writes n' = []) ∧ (∀ c', c' ≠ c → outgoing n' c' = outgoing n c') ∧
      ((r = 0 ∧ rest = []) ∨ (r = -1 ∧ rest ≠ []))
  | Waits => Stuck ∈ writes n
  | Dies => False
  end.
Proof.
  revert data n. induction fuel as [|fuel IH]; intros data n Hf; [lia|].
  destruct data as [|b d]; [exists [], []; cbn; rewrite app_nil_r; split_and!; try done; by left|]. set (data := b :: d).
  cbn [writen_loop]. unfold data at 1. nm. fold data. unfold write at 1.
  destruct (writes n) as [|[k|e|] ws] eqn:Ew; [| | |by left].
  - destruct (Z.leb_spec (Z.of_nat (length data)) 0) as [H0|H0]; [cbn in H0; lia|]. rewrite Nat2Z.id, drop_all.
    destruct fuel as [|fuel]; [lia|]. exists data, []. rewrite app_nil_r. cbn -[data]. unfold at_conn. rewrite decide_True by done.
    split_and!; try done; [intros c' Hc; by rewrite decide_False|by left].
  - destruct (Z.leb_spec (Z.of_nat (length (take (Z.to_nat k) data))) 0) as [H0|H0].
    + destruct (Z.ltb_spec (Z.of_nat (length (take (Z.to_nat k) data))) 0); [lia|]. cbn [andb].
      assert (take (Z.to_nat k) data = []) as E by (apply length_zero_iff_nil; lia).
      exists [], data. cbn [incoming outgoing]. unfold at_conn. rewrite E, decide_True, app_nil_r by done.
      split_and!; try done; [intros c' Hc; by rewrite decide_False|by right].
    + set (n1 := Net _ _ ws _). specialize (IH (drop (Z.to_nat (Z.of_nat (length (take (Z.to_nat k) data)))) data) n1).
      rewrite Nat2Z.id in *.
      assert (drop (length (take (Z.to_nat k) data)) data = drop (Z.to_nat k) data) as Ed.
      { rewrite length_take. destruct (Nat.le_ge_cases (Z.to_nat k) (length data)) as [Hk|Hk]; [by rewrite Nat.min_l|].
        rewrite Nat.min_r by done. by rewrite !drop_ge. }
      rewrite Ed in *. specialize (IH ltac:(cbn in *; lia)).
      destruct (writen_loop fuel c (drop (Z.to_nat k) data) n1) as [r n2| |]; [|by right|done].
      destruct IH as (sent & rest & Es & Eo & Ei & _ & Hc & Hr). exists (take (Z.to_nat k) data ++ sent), rest.
      split_and!; [by rewrite <-app_assoc, <-Es, take_drop| |done|done| |done].
      * rewrite Eo. unfold n1, at_conn. cbn [outgoing]. rewrite decide_True by done. by rewrite app_assoc.
      * intros c' Hc'. rewrite Hc by done. unfold n1, at_conn. cbn [outgoing]. by rewrite decide_False.
  - cbn [Z.leb Z.ltb Z.compare andb errno]. destruct (Z.eqb_spec e EINTR) as [->|He].
    + set (n1 := Net _ _ ws _). specialize (IH data n1 ltac:(cbn in *; lia)). destruct (writen_loop fuel c data n1) as [r n2| |]; [|by right|done].
      destruct IH as (sent & rest & IH). exists sent, rest. destruct IH as (? & ? & ? & _ & IH). by split_and!; [..|apply IH|apply IH].
    + exists [], data. rewrite app_nil_r. split_and!; try done. by right.
Qed.

(** [writen] sends all of its data and says so, or sends a part and says that. *)
Lemma writen_run fd data n :
  match writen fd data n with
  | Returns r n' => ∃ sent rest, data = sent ++ rest ∧ outgoing n' (conn_of fd) = outgoing n (conn_of fd) ++ sent ∧
      incoming n' = incoming n ∧ (writes n = [] → r = 0 ∧ writes n' = []) ∧ (∀ c', c' ≠ conn_of fd → outgoing n' c' = outgoing n c') ∧
      ((r = 0 ∧ rest = []) ∨ (r = -1 ∧ rest ≠ []))
  | Waits => Stuck ∈ writes n
  | Dies => False
  end.
Proof. apply writen_loop_run. lia. Qed.

(** A search for ["\n"] in a stream that brings ["ab"] and then ["c\nd"]. *)
Definition sample_search : search_state_t := SearchState [0; 0; 0] 3 8 0 0 0.
Definition sample_net (evs : list event) : net := Net (λ _, evs) (λ _, []) [] 0.

Lemma read_search_finds_first_witness :
  ∃ s' n', read_search (λ _, true) (λ _, 7) 3 [10] sample_search 0
      (sample_net [Data 97 [98]; Err EINTR; Data 99 [10; 100]]) = Returns (0, s') n' ∧
    needle_offset s' = 3 ∧ occurs [10] (contents s') 3.
Proof.
  pose proof (read_search_finds_first (λ _, true) (λ _, 7) 3 [10] sample_search 0
    (sample_net [Data 97 [98]; Err EINTR; Data 99 [10; 100]])) as H.
  destruct (read_search _ _ _ _ _ _ _) as [[code s'] n'| |] eqn:E; [|vm_compute in E; discriminate..].
  exists s', n'. assert (code = 0 ∧ needle_offset s' = 3) as [-> Hn] by (vm_compute in E; by simplify_eq).
  destruct H as (_ & _ & _ & _ & [(_ & _ & Ho & _)|[_ Hc]]); [done|split; vm_compute; intuition discriminate|done| |lia].
  rewrite Hn in Ho. done.
Defined.
