(* ===== verification/CliClient.v ===== *)
(** The clients of the command line (cli/cli_main.c, cli/cli.c, and
    [cli_parser_handle_client] of cli/cli_parser.y).

    A client is a socket and a buffer.  Its thread reads until there is a
    newline, gives text to the generated parser, which is a parameter of the
    model, and moves what is left to the front of the buffer.  The parser runs
    under a lock, so one client is handled at a time; [commands] records the
    texts it was given.  The flag that [pverbose] points to is copied into the
    state while a client has the focus. *)

From Stdlib Require Import ZArith Lia.
From stdpp Require Import base tactics numbers option list.
From S2P Require Import Prelude Search.

Local Open Scope Z_scope.

Definition CLI_INIT_BUF : Z := 256.
Definition CLI_MAX_BUF : Z := 2048.
Definition NEWLINE : Z := 10.

(** ["~> "]. *)
Definition PROMPT : list Z := [126; 62; 32].

(** The file-scope variables of cli.c. *)
Record cli_t := Cli {
  router_shutdown : bool;
  fd : Z;
  fd_alive : bool;
  verbose : bool;
  skip_next_prompt : bool;
  commands : list (list Z)
}.

Definition set_alive (v : bool) (k : cli_t) : cli_t :=
  Cli (router_shutdown k) (fd k) v (verbose k) (skip_next_prompt k) (commands k).
Definition set_skip (v : bool) (k : cli_t) : cli_t :=
  Cli (router_shutdown k) (fd k) (fd_alive k) (verbose k) v (commands k).
Definition set_verbose (v : bool) (k : cli_t) : cli_t :=
  Cli (router_shutdown k) (fd k) (fd_alive k) v (skip_next_prompt k) (commands k).
Definition log_command (text : list Z) (k : cli_t) : cli_t :=
  Cli (router_shutdown k) (fd k) (fd_alive k) (verbose k) (skip_next_prompt k) (commands k ++ [text]).

Record cli_client_t := Client { client_fd : Z; state : search_state_t; client_verbose : bool }.

Definition with_state (s : search_state_t) (cl : cli_client_t) : cli_client_t :=
  Client (client_fd cl) s (client_verbose cl).

(** * Sending *)

Definition cli_send_str (str : list Z) (k : cli_t) : NM cli_t :=
  if fd_alive k then
    r ← writenstr (fd k) str;
    mret (if r =? 0 then k else set_alive false k)
  else mret k.

(** [cli_send_strs] and [cli_send_parse_error]. *)
Definition cli_send_strs (strs : list (list Z)) (k : cli_t) : NM cli_t :=
  if fd_alive k then
    r ← writenstrs (fd k) strs;
    mret (if r =? 0 then k else set_alive false k)
  else mret k.

Definition MAX_CHARS_IN_CLI_SEND_STRF : Z := 250.

(** [text] is the formatted text. *)
Definition cli_send_strf (text : list Z) (k : cli_t) : NM cli_t :=
  if fd_alive k then
    if Z.of_nat (length text) <? MAX_CHARS_IN_CLI_SEND_STRF then
      r ← writenstr (fd k) text;
      mret (if r =? 0 then k else set_alive false k)
    else mret k
  else mret k.

Definition cli_focus_set (sfd : Z) (verb : bool) (k : cli_t) : cli_t :=
  Cli (router_shutdown k) sfd true verb (skip_next_prompt k) (commands k).

Definition cli_send_prompt (k : cli_t) : NM cli_t :=
  k ← (if skip_next_prompt k then mret k else cli_send_str PROMPT k);
  mret (set_skip false k).

(** ["Goodbye!\n"]. *)
Definition goodbye : list Z := [71; 111; 111; 100; 98; 121; 101; 33; 10].

Definition cli_exit (k : cli_t) : NM cli_t := k ← cli_send_str goodbye k; mret (set_alive false k).

(** The texts of [cli_opt_verbose], in the order of the source. *)
Definition cli_opt_verbose (already_on now_on now_off already_off : list Z) (on : bool) (k : cli_t) : NM cli_t :=
  if on then
    if verbose k then cli_send_str already_on k else cli_send_str now_on (set_verbose true k)
  else
    if verbose k then cli_send_str now_off (set_verbose false k) else cli_send_str already_off k.

(** * The parser's input *)

(** [strchr(buf + off, x)]: the offset of the first [x] before a null byte;
    the result is [None] when the search leaves the buffer. *)
Fixpoint strchr_in (l : list Z) (off x : Z) : option (option Z) :=
  match l with
  | [] => None
  | b :: l => if b =? x then Some (Some off) else if b =? 0 then Some None else strchr_in l (off + 1) x
  end.

Definition strchr (buf : list Z) (off x : Z) : option (option Z) := strchr_in (drop (Z.to_nat off) buf) off x.

Section client.
Context (grants : Z → bool) (junk : Z → Z).

(** The generated parser, on a text that ends in a newline, and the welcome. *)
Context (yyparse : list Z → cli_t → NM cli_t) (welcome : list Z).

(** The loop over the newlines; [pch] is the offset of one.  The boolean is false
    when the client goes. *)
Fixpoint run_commands (fuel : nat) (sbuf : list Z) (pch : Z) (k : cli_t) : NM (bool * cli_t) :=
  match fuel with
  | O => dies
  | S fuel =>
      let cmd_blen := pch + 1 in
      if CLI_MAX_BUF <? cmd_blen then dies
      else
        let text := take (Z.to_nat cmd_blen) sbuf in
        k ← yyparse text (log_command text k);
        if negb (fd_alive k) || router_shutdown k then mret (false, k)
        else
          next ← must (strchr sbuf (pch + 1) NEWLINE);
          match next with
          | None => mret (true, k)
          | Some pch => run_commands fuel sbuf pch k
          end
  end.

(** [memmove(sbuf, sbuf + off, num)]. *)
Definition move_front (sbuf : list Z) (off num : Z) : option (list Z) :=
  if (off <? 0) || (Z.of_nat (length sbuf) <? off + num) then None
  else poke sbuf 0 (take (Z.to_nat num) (drop (Z.to_nat off) sbuf)).

(** What the parser leaves in the buffer; [num] is an [int]. *)
Definition shift_leftover (s : search_state_t) : option search_state_t :=
  let num := used s - needle_offset s - 1 in
  s ← (if 0 <? num then
         buf ← move_front (chbuf s) (needle_offset s) num;
         Some (with_used num (with_chbuf buf s))
       else Some (with_used 0 s));
  Some (with_needle_offset (capacity s + 1) (with_search_offset 0 s)).

Definition cli_parser_handle_client (cl : cli_client_t) (k : cli_t) : NM (bool * cli_client_t * cli_t) :=
  let s := state cl in
  pch ← must (strchr (chbuf s) 0 NEWLINE);
  match pch with
  | None => dies
  | Some pch =>
      '(stays, k) ← run_commands (S (length (chbuf s))) (chbuf s) pch k;
      if negb stays then mret (false, cl, k)
      else
        s ← must (shift_leftover s);
        k ← cli_send_prompt k;
        mret (fd_alive k, with_state s cl, k)
  end.

(** * The thread of a client *)

(** The terminating null byte. *)
Definition terminate (s : search_state_t) : option search_state_t :=
  buf ← poke (chbuf s) (used s) [0]; Some (with_chbuf buf s).

(** The switch over the result of the search. *)
Definition handle_result (ret : Z) (cl : cli_client_t) (k : cli_t) : NM (bool * cli_client_t * cli_t) :=
  if ret =? -3 then mret (true, cl, k)
  else if ret =? -2 then mret (false, cl, k)
  else if ret =? -1 then mret (false, cl, k)
  else if ret =? 1 then
    p ← must (strchr (chbuf (state cl)) 0 NEWLINE);
    match p with
    | Some _ => dies
    | None => mret (false, cl, k)
    end
  else if ret =? 0 then
    '(b, cl, k) ← cli_parser_handle_client cl (cli_focus_set (client_fd cl) (client_verbose cl) k);
    mret (b, Client (client_fd cl) (state cl) (verbose k), k)
  else dies.

Definition cli_client_handle_request (cl : cli_client_t) (k : cli_t) : NM (bool * cli_client_t * cli_t) :=
  '(ret, s) ← read_search grants junk (client_fd cl) [NEWLINE] (state cl) 1;
  '(ret_grow, s) ← search_state_grow_if_full grants junk s;
  if (ret_grow =? 2) || (ret_grow =? -1) then handle_result (-2) (with_state s cl) k
  else
    s ← must (terminate s);
    handle_result ret (with_state s cl) k.

(** The end of a thread: the client has gone, or the process exits. *)
Inductive ended := Gone | Exits.

(** The loop of [cli_client_handler_main]. *)
Fixpoint client_loop (fuel : nat) (cl : cli_client_t) (k : cli_t) : NM (ended * cli_t) :=
  match fuel with
  | O => dies
  | S fuel =>
      '(res, cl, k) ← cli_client_handle_request cl k;
      if router_shutdown k then mret (Exits, k)
      else if res : bool then client_loop fuel cl k
      else mret (Gone, k)
  end.

(** A round reads bytes or shortens the buffer. *)
Definition client_fuel (cl : cli_client_t) (n : net) : nat :=
  S (2 * pending (incoming n (conn_of (client_fd cl))) + Z.to_nat (used (state cl))).

Definition client_rounds (cl : cli_client_t) (k : cli_t) : NM (ended * cli_t) := λ n,
  client_loop (client_fuel cl n) cl k n.

(** The first request takes what is in the socket at the start. *)
Definition cli_client_handler_main (cl : cli_client_t) (k : cli_t) : NM (ended * cli_t) :=
  let cl := Client (client_fd cl) (state cl) false in
  '(_, cl, k) ← cli_client_handle_request cl k;
  let cl := with_state (with_used 0 (with_search_offset 0 (with_needle_offset 0 (state cl)))) cl in
  k ← cli_send_str welcome (cli_focus_set (client_fd cl) (client_verbose cl) k);
  k ← cli_send_prompt k;
  client_rounds cl k.

(** A new client of [cli_main] or of [cli_local_main], which negates the
    descriptor. *)
Definition new_client (clientfd : Z) (local : bool) : NM cli_client_t :=
  s ← search_state_init grants CLI_INIT_BUF CLI_MAX_BUF;
  mret (Client (if local then - clientfd else clientfd) s false).
End client.
