(* ===== verification/CliProps.v ===== *)
(** What the clients of the command line get.

    A client that sends its lines one at a time has each of them executed once
    ([cli_executes_typed_lines]).  Bytes behind the first newline of a read are
    mishandled ([cli_typed_ahead_repeated]), and a null byte before a newline
    ends the whole router ([cli_null_byte_kills_router]). *)

From Stdlib Require Import ZArith Lia.
From stdpp Require Import base tactics numbers option list.
From S2P Require Import Prelude Search SearchProps CliClient.

Local Open Scope Z_scope.

(** * Searches for one byte *)

Lemma occurs_single x data i : 0 <= i → occurs [x] data i ↔ data !! Z.to_nat i = Some x.
Proof.
  intros Hi. unfold occurs. cbn [length]. rewrite <-(Nat.add_0_r (Z.to_nat i)) at 2. rewrite <-lookup_drop.
  destruct (drop (Z.to_nat i) data) as [|y l]; cbn; [done|]. rewrite take_0. split; by intros [= ->].
Qed.

(** What is left of an event after [m] of its bytes. *)
Definition event_rest (m : nat) (l : list Z) (evs : list event) : list event :=
  match drop m l with [] => evs | b :: d => Data b d :: evs end.

(** The byte stands at the offset that was found, and not before. *)
Definition first_at (x : Z) (data : list Z) (i : Z) : Prop :=
  0 <= i ∧ data !! Z.to_nat i = Some x ∧ x ∉ take (Z.to_nat i) data.

Lemma found_first x lo s :
  0 <= lo → found_at [x] lo s → x ∉ take (Z.to_nat lo) (contents s) → first_at x (contents s) (needle_offset s).
Proof.
  intros Hlo (Hok & Hge & Hocc & Hfirst & _) Hbefore. split; [lia|]. split; [apply occurs_single; [lia|done]|].
  intros (j & Hj)%list_elem_of_lookup. apply lookup_take_Some in Hj as [Hj Hlt].
  destruct (decide (Z.of_nat j < lo)) as [Hjl|Hjl].
  - apply Hbefore. apply list_elem_of_lookup. exists j. apply lookup_take_Some. split; [done|lia].
  - apply (Hfirst (Z.of_nat j)); [lia|]. apply occurs_single; [lia|]. by rewrite Nat2Z.id.
Qed.

Lemma searching_none x lo s :
  searching [x] lo s → x ∉ take (Z.to_nat lo) (contents s) → x ∉ contents s.
Proof.
  intros (Hok & Hlo & Hn & Hd) Hbefore (j & Hj)%list_elem_of_lookup.
  destruct (decide (Z.of_nat j < lo)) as [Hjl|Hjl].
  - apply Hbefore. apply list_elem_of_lookup. exists j. apply lookup_take_Some. split; [done|lia].
  - eapply (none_in_all [x] (contents s) lo (search_offset s) (Z.of_nat j)); [done|done| |lia|].
    + rewrite contents_length by done. cbn [length] in *. lia.
    + apply occurs_single; [lia|]. by rewrite Nat2Z.id.
Qed.

Lemma not_in_take (x : Z) l m : x ∉ l → x ∉ take m l.
Proof. intros Hx (i & Hi & _)%elem_of_take. apply Hx. apply list_elem_of_lookup. by eexists. Qed.

Section reads.
Context (grants : Z → bool) (junk : Z → Z) (grants_buffers : ∀ size, 0 < size <= CLI_MAX_BUF → grants size = true).

Lemma grow_served s n :
  search_ok s → max_capacity s = CLI_MAX_BUF → used s < CLI_MAX_BUF →
  ∃ g s' n', search_state_grow_if_full grants junk s n = Returns (g, s') n' ∧ g ≠ 2 ∧ g ≠ -1 ∧
    incoming n' = incoming n ∧ outgoing n' = outgoing n ∧ writes n' = writes n ∧
    search_ok s' ∧ contents s' = contents s ∧ used s' = used s ∧ used s' < capacity s' ∧
    search_offset s' = search_offset s ∧ needle_offset s' = needle_offset s ∧ max_capacity s' = max_capacity s ∧
    (used s < capacity s → s' = s).
Proof.
  intros Hok Hmax Hu. pose proof (grow_run grants junk s n Hok) as Hg.
  destruct (search_state_grow_if_full grants junk s n) as [[g s'] n'| |]; [|done|].
  - destruct Hg as (?&?&?&?&?&?&?&?&?&Hcase). exists g, s', n'.
    destruct Hcase as [(_ & _ & E)|[(-> & ? & ?)|(-> & -> & -> & ?)]]; [lia| |]; split_and!; try done; lia.
  - destruct Hg as (size & Hs & Hgr). rewrite grants_buffers in Hgr by lia. done.
Qed.

(** The first round of a search looks at what is there. *)
Lemma first_round x s :
  search_ok s → x ∉ contents s →
  ∃ s', search_round [x] 1 0 s = Some (s', inr 1) ∧ searching [x] (search_offset s) s' ∧ chbuf s' = chbuf s ∧
    used s' = used s ∧ capacity s' = capacity s ∧ max_capacity s' = max_capacity s.
Proof.
  intros Hok Hx. pose proof (so_offset _ Hok). pose proof (so_used _ Hok).
  destruct (search_round_spec [x] 1 0 s (search_offset s)) as (s' & v & Hrun & Hb & Hu & Hc & Hm & Hv);
    [done|done|lia|intros i Hi; lia|done|lia|done|].
  assert (contents s' = contents s) as Ec by (unfold contents; by rewrite Hb, Hu, Z.add_0_r).
  destruct v as [code|m].
  - exfalso. destruct Hv as [[_ (_ & Hge & Hocc & _)]|(_ & _ & ? & _)]; [|done].
    apply occurs_single in Hocc; [|lia]. apply Hx. rewrite <-Ec. apply list_elem_of_lookup. by eexists.
  - destruct Hv as (Hs & -> & _). exists s'. rewrite Z.add_0_r in Hu. by split_and!.
Qed.

(** A request reads one event, as far as the buffer has room. *)
Lemma request_data x s n c b d evs :
  let l := b :: d in
  search_ok s → max_capacity s = CLI_MAX_BUF → used s < CLI_MAX_BUF → x ∉ contents s → 0 <= c.2 →
  incoming n c = Data b d :: evs →
  ∃ m code s' n', search_at grants junk c [x] s 1 n = Returns (code, s') n' ∧ (1 <= m <= length l)%nat ∧
    only_reads c n n' ∧ incoming n' c = event_rest m l evs ∧ search_ok s' ∧ max_capacity s' = CLI_MAX_BUF ∧
    contents s' = contents s ++ take m l ∧ (used s < capacity s → Z.of_nat m = Z.min (capacity s - used s) (Z.of_nat (length l))) ∧
    ((code = 0 ∧ first_at x (contents s') (needle_offset s')) ∨ (code = -3 ∧ x ∉ contents s')).
Proof.
  intros l Hok Hmax Hu Hx Hc Hev. unfold search_at. destruct (Z.ltb_spec c.2 0); [lia|].
  destruct (first_round x s Hok Hx) as (s1 & -> & Hse1 & Hb1 & Hu1 & Hc1 & Hm1). nm. unfold fuel_of. rewrite Hev.
  cbn [search_loop]. nm. pose proof Hse1 as (Hok1 & Hlo1 & _).
  assert (contents s1 = contents s) as Ec1 by (unfold contents; by rewrite Hb1, Hu1).
  destruct (grow_served s1 n) as (g & s2 & n2 & -> & Hg & _ & Hi & Ho & Hw & Hok2 & Ec2 & Hu2 & Hroom & Hso2 & _ & Hm2 & Hid);
    [done|congruence|lia|].
  destruct (Z.eqb_spec g 2); [done|]. unfold read at 1. rewrite Hi, Hev. fold l.
  set (m := Z.to_nat (capacity s2 - used s2)). destruct (take m l) as [|b' d'] eqn:El.
  { unfold m, l in El. destruct (Z.to_nat (capacity s2 - used s2)) eqn:E; [lia|done]. }
  rewrite <-El. set (got := take m l).
  assert (length got = m `min` length l)%nat as Hlg by (unfold got; apply length_take).
  destruct (poke_run s2 got Hok2) as (buf & -> & Hlen & Ht1 & Ht2); [lia|]. cbv beta iota.
  assert (searching [x] (search_offset s) s2) as Hse2.
  { split; [done|]. rewrite Hso2, Ec2, Hu2. destruct Hse1 as (_ & ? & ? & ?). done. }
  pose proof (searching_memory _ _ _ _ Hse2 Hlen Ht1) as Hse3. pose proof Hse3 as (Hok3 & Hlo3 & Hn3 & _).
  destruct (search_round_spec [x] 1 (Z.of_nat (length got)) (with_chbuf buf s2) (search_offset s))
    as (s3 & v & -> & Hb3 & Hu3 & Hc3 & Hm3 & Hv); [done|done|done|done|lia|cbn [used capacity with_chbuf]; lia|done|].
  assert (contents s3 = contents s ++ got) as Ec3.
  { unfold contents at 1. rewrite Hb3, Hu3. cbn [chbuf used with_chbuf]. by rewrite Ht2, Ec2, Ec1. }
  assert (x ∉ take (Z.to_nat (search_offset s)) (contents s3)) as Hbef.
  { rewrite Ec3, take_app_le; [by apply not_in_take|]. pose proof (contents_length s Hok). pose proof (so_offset _ Hok). lia. }
  assert (length l ≠ 0)%nat by done.
  exists (m `min` length l)%nat.
  destruct v as [code|m']; [|destruct Hv as (_ & -> & _ & Hv); destruct (Z.eqb_spec (Z.of_nat (length got)) 0); [lia|]; cbn in Hv; lia].
  eexists code, s3, _. split; [done|]. split; [lia|].
  assert (take (m `min` length l) l = got) as ->.
  { unfold got. destruct (Nat.le_ge_cases m (length l)); [by rewrite Nat.min_l|]. rewrite Nat.min_r by done. by rewrite !take_ge by lia. }
  assert (search_ok s3) as Hok3' by (destruct Hv as [[_ [? _]]|(_ & [? _] & _)]; done).
  split; [split_and!; cbn; [by rewrite Ho|done|intros c' Hc'; unfold at_conn; by rewrite decide_False]|].
  split; [|split; [done|split; [cbn in Hm3; congruence|split; [done|split]]]].
  - cbn. unfold at_conn, event_rest. rewrite decide_True by done.
    destruct (Nat.le_ge_cases m (length l)); [by rewrite Nat.min_l|]. rewrite Nat.min_r by done. by rewrite !drop_ge.
  - intros Hr. rewrite Nat2Z.inj_min. unfold m. rewrite Hid by lia. lia.
  - pose proof (so_offset _ Hok). destruct Hv as [[-> Hf]|(-> & Hf & _)].
    + left. split; [done|]. eapply found_first; [|done|done]. lia.
    + right. split; [done|]. by eapply searching_none.
Qed.

(** At the end of the stream nothing is read. *)
Lemma request_eof x s n c evs :
  search_ok s → max_capacity s = CLI_MAX_BUF → used s < CLI_MAX_BUF → x ∉ contents s → 0 <= c.2 →
  incoming n c = Eof :: evs →
  ∃ s' n', search_at grants junk c [x] s 1 n = Returns (1, s') n' ∧
    only_reads c n n' ∧ incoming n' c = incoming n c ∧ search_ok s' ∧ max_capacity s' = CLI_MAX_BUF ∧
    contents s' = contents s ∧ used s' = used s.
Proof.
  intros Hok Hmax Hu Hx Hc Hev. unfold search_at. destruct (Z.ltb_spec c.2 0); [lia|].
  destruct (first_round x s Hok Hx) as (s1 & -> & Hse1 & Hb1 & Hu1 & Hc1 & Hm1). nm. unfold fuel_of. rewrite Hev.
  cbn [search_loop]. nm. pose proof Hse1 as (Hok1 & Hlo1 & _).
  assert (contents s1 = contents s) as Ec1 by (unfold contents; by rewrite Hb1, Hu1).
  destruct (grow_served s1 n) as (g & s2 & n2 & -> & Hg & _ & Hi & Ho & Hw & Hok2 & Ec2 & Hu2 & _ & _ & _ & Hm2 & _);
    [done|congruence|lia|].
  destruct (Z.eqb_spec g 2); [done|]. unfold read at 1. rewrite Hi, Hev. eexists s2, n2. split; [done|].
  split; [split_and!; [done|done|by rewrite Hi]|]. rewrite Hi. split_and!; [done|done|congruence|congruence|congruence].
Qed.

(** The null byte behind the contents. *)
Lemma terminate_run s :
  search_ok s → used s < capacity s →
  ∃ s' rest, terminate s = Some s' ∧ search_ok s' ∧ chbuf s' = contents s ++ 0 :: rest ∧ contents s' = contents s ∧
    used s' = used s ∧ search_offset s' = search_offset s ∧ needle_offset s' = needle_offset s ∧
    max_capacity s' = max_capacity s ∧ capacity s' = capacity s.
Proof.
  intros Hok Hu. destruct (poke_run s [0] Hok) as (buf & Hp & Hl & Ht1 & Ht2); [cbn; lia|].
  unfold terminate. rewrite Hp. cbn [mbind option_bind].
  exists (with_chbuf buf s), (drop (Z.to_nat (used s + 1)) buf). split; [done|].
  destruct Hok as [Hmem Hu' Hcap Hx Ho]. split; [by split|]. split.
  { cbn. rewrite <-(take_drop (Z.to_nat (used s + 1)) buf) at 1. change (Z.of_nat (length [0])) with 1 in Ht2. by rewrite Ht2, <-app_assoc. }
  unfold contents at 1. cbn. by rewrite Ht1.
Qed.
End reads.

(** * The texts given to the parser *)

(** The bytes up to each newline from [off] on: every text starts at the start of
    the buffer. *)
Definition command_texts (data : list Z) (off : nat) : list (list Z) :=
  (λ i, take (S i) data) <$> filter (λ i, data !! i = Some NEWLINE) (seq off (length data - off)).

Lemma command_texts_none data off :
  (∀ j, (off <= j)%nat → data !! j ≠ Some NEWLINE) → command_texts data off = [].
Proof.
  intros Hn. unfold command_texts.
  assert (∀ l : list nat, (∀ j, j ∈ l → (off <= j)%nat) → filter (λ i, data !! i = Some NEWLINE) l = []) as ->; [|done|].
  - induction l as [|j l IH]; intros Hl; [done|]. rewrite filter_cons_False by (apply Hn, Hl; by left).
    apply IH. intros j' Hj'. apply Hl. by right.
  - intros j Hj%elem_of_seq. lia.
Qed.

Lemma command_texts_next data off i :
  (off <= i)%nat → data !! i = Some NEWLINE → (∀ j, (off <= j < i)%nat → data !! j ≠ Some NEWLINE) →
  command_texts data off = take (S i) data :: command_texts data (S i).
Proof.
  intros Hoff Hi Hn. pose proof (lookup_lt_Some _ _ _ Hi) as Hlt. revert off Hoff Hn.
  assert (∀ k off, (i - off = k)%nat → (off <= i)%nat → (∀ j, (off <= j < i)%nat → data !! j ≠ Some NEWLINE) →
    command_texts data off = take (S i) data :: command_texts data (S i)) as Hk; [|intros off ? ?; by eapply Hk].
  induction k as [|k IH]; intros off Ek Hoff Hn; unfold command_texts.
  - replace off with i by lia. replace (length data - i)%nat with (S (length data - S i)) by lia. cbn [seq].
    by rewrite filter_cons_True.
  - replace (length data - off)%nat with (S (length data - S off)) by lia. cbn [seq].
    rewrite filter_cons_False by (apply Hn; lia). apply (IH (S off)); [lia|lia|]. intros j Hj. apply Hn. lia.
Qed.

Lemma strchr_in_spec d rest off x :
  0 ∉ d → x ≠ 0 →
  ∃ r, strchr_in (d ++ 0 :: rest) off x = Some r ∧
    match r with
    | Some i => ∃ k, i = off + Z.of_nat k ∧ d !! k = Some x ∧ ∀ j, (j < k)%nat → d !! j ≠ Some x
    | None => x ∉ d
    end.
Proof.
  intros Hd Hx. revert off. induction d as [|b d IH]; intros off; cbn [app strchr_in].
  - rewrite (proj2 (Z.eqb_neq 0 x)) by done. exists None. split; [done|]. by apply not_elem_of_nil.
  - apply not_elem_of_cons in Hd as [Hb Hd]. destruct (Z.eqb_spec b x) as [->|Hne].
    { exists (Some off). split; [done|]. exists O. split_and!; [lia|done|intros j Hj; lia]. }
    rewrite (proj2 (Z.eqb_neq b 0)) by done. destruct (IH Hd (off + 1)) as (r & -> & Hr). exists r. split; [done|].
    destruct r as [i|]; [|by apply not_elem_of_cons].
    destruct Hr as (k & -> & Hk & Hj). exists (S k). split_and!; [lia|done|].
    intros [|j] Hlt; cbn; [by intros [= ->]|]. apply Hj. lia.
Qed.

Lemma strchr_spec d rest off :
  0 ∉ d → (off <= length d)%nat →
  ∃ r, strchr (d ++ 0 :: rest) (Z.of_nat off) NEWLINE = Some r ∧
    match r with
    | Some i => ∃ k, i = Z.of_nat k ∧ (off <= k < length d)%nat ∧ d !! k = Some NEWLINE ∧
        ∀ j, (off <= j < k)%nat → d !! j ≠ Some NEWLINE
    | None => ∀ j, (off <= j)%nat → d !! j ≠ Some NEWLINE
    end.
Proof.
  intros Hd Hoff. unfold strchr. rewrite Nat2Z.id, drop_app_le by done.
  destruct (strchr_in_spec (drop off d) rest (Z.of_nat off) NEWLINE) as (r & -> & Hr); [|done|].
  { intros (j & Hj)%list_elem_of_lookup. rewrite lookup_drop in Hj. apply Hd, list_elem_of_lookup. by eexists. }
  exists r. split; [done|]. destruct r as [i|].
  - destruct Hr as (k & -> & Hk & Hj). rewrite lookup_drop in Hk. exists (off + k)%nat.
    pose proof (lookup_lt_Some _ _ _ Hk). split_and!; [lia|lia|lia|done|]. intros j Hlt.
    specialize (Hj (j - off)%nat ltac:(lia)). rewrite lookup_drop in Hj. by replace (off + (j - off))%nat with j in Hj by lia.
  - intros j Hle E. apply Hr, list_elem_of_lookup. exists (j - off)%nat. rewrite lookup_drop.
    by replace (off + (j - off))%nat with j by lia.
Qed.

Section client.
Context (grants : Z → bool) (junk : Z → Z) (grants_buffers : ∀ size, 0 < size <= CLI_MAX_BUF → grants size = true).
Context (yyparse : list Z → cli_t → NM cli_t).

(** The command [text] answers, and neither leaves nor shuts the router down. *)
Definition obedient (text : list Z) : Prop := ∀ k n, writes n = [] →
  ∃ k' n', yyparse text k n = Returns k' n' ∧ incoming n' = incoming n ∧ writes n' = [] ∧
    fd_alive k' = fd_alive k ∧ router_shutdown k' = router_shutdown k ∧ commands k' = commands k.

(** A client that is served. *)
Definition served (k : cli_t) (n : net) : Prop := fd_alive k = true ∧ router_shutdown k = false ∧ writes n = [].

Lemma run_commands_texts fuel d rest pch k n :
  0 ∉ d → Z.of_nat (length d) < CLI_MAX_BUF → served k n → d !! pch = Some NEWLINE → (length d - pch < fuel)%nat →
  Forall obedient (command_texts d pch) →
  ∃ k' n', run_commands yyparse fuel (d ++ 0 :: rest) (Z.of_nat pch) k n = Returns (true, k') n' ∧
    incoming n' = incoming n ∧ served k' n' ∧ commands k' = commands k ++ command_texts d pch.
Proof.
  intros Hd Hlen Hs Hp Hf Hob. pose proof (lookup_lt_Some _ _ _ Hp) as Hlt.
  revert fuel pch k n Hs Hp Hf Hob Hlt. induction fuel as [|fuel IH]; intros pch k n (Ha & Hr & Hw) Hp Hf Hob Hlt; [lia|].
  rewrite (command_texts_next d pch pch) in Hob by (done || (intros; lia)). apply Forall_cons in Hob as [Hob1 Hob].
  cbn [run_commands]. destruct (Z.ltb_spec CLI_MAX_BUF (Z.of_nat pch + 1)); [lia|]. nm.
  replace (Z.to_nat (Z.of_nat pch + 1)) with (S pch) by lia. rewrite take_app_le by lia.
  destruct (Hob1 (log_command (take (S pch) d) k) n Hw) as (k1 & n1 & -> & Hi & Hw1 & Ha1 & Hr1 & Hc1).
  cbn in Ha1, Hr1, Hc1. rewrite Ha1, Hr1, Ha, Hr. cbn [negb orb].
  destruct (strchr_spec d rest (S pch) Hd ltac:(lia)) as (r & Hstr & Hres).
  replace (Z.of_nat pch + 1) with (Z.of_nat (S pch)) by lia. rewrite Hstr. cbv beta iota.
  rewrite (command_texts_next d pch pch) by (done || (intros; lia)). destruct r as [i|].
  - destruct Hres as (j & -> & Hj & Hjn & Hno).
    destruct (IH j k1 n1) as (k' & n' & -> & Hi' & Hs' & Hc'); [split_and!; congruence|done|lia| |lia|].
    { rewrite (command_texts_next d (S pch) j) in Hob by (done || lia).
      by rewrite (command_texts_next d j j) by (done || (intros; lia)). }
    exists k', n'. split; [done|]. split; [congruence|]. split; [done|].
    rewrite Hc', Hc1, (command_texts_next d (S pch) j) by (done || lia).
    rewrite <-app_assoc. cbn [app]. do 3 f_equal. rewrite (command_texts_next d j j) by (done || (intros; lia)). done.
  - exists k1, n1. split; [done|]. split; [done|]. split; [split_and!; congruence|].
    rewrite Hc1, command_texts_none by done. done.
Qed.

Lemma send_served str k n :
  served k n → ∃ n', cli_send_str str k n = Returns k n' ∧ incoming n' = incoming n ∧ served k n'.
Proof.
  intros (Ha & Hr & Hw). unfold cli_send_str. rewrite Ha. nm. unfold writenstr.
  pose proof (writen_run (fd k) str n) as Hrun. destruct (writen (fd k) str n) as [r n'| |].
  - destruct Hrun as (sent & rest & _ & _ & Hi & Hok & _). destruct (Hok Hw) as [-> Hw']. by exists n'.
  - rewrite Hw in Hrun. by apply elem_of_nil in Hrun.
  - done.
Qed.

Lemma prompt_served k n :
  served k n → ∃ k' n', cli_send_prompt k n = Returns k' n' ∧ incoming n' = incoming n ∧ served k' n' ∧ commands k' = commands k.
Proof.
  intros Hs. unfold cli_send_prompt. nm. destruct (skip_next_prompt k); [by exists (set_skip false k), n|].
  destruct (send_served PROMPT k n Hs) as (n' & -> & Hi & Hs'). by exists (set_skip false k), n'.
Qed.

(** What is left in the buffer: the byte at the first newline is taken along, and
    the last byte is lost. *)
Lemma shift_leftover_run s d rest i :
  search_ok s → chbuf s = d ++ 0 :: rest → contents s = d → needle_offset s = Z.of_nat i → (i < length d)%nat →
  ∃ s', shift_leftover s = Some s' ∧ search_ok s' ∧ max_capacity s' = max_capacity s ∧ search_offset s' = 0 ∧
    contents s' = take (length d - i - 1) (drop i d) ∧ used s' = Z.of_nat (length d - i - 1).
Proof.
  intros Hok Hb Hc Hn Hi. pose proof (contents_length s Hok) as Hl. rewrite Hc in Hl.
  pose proof Hok as [Hmem Hu Hcap Hx Ho]. unfold shift_leftover. rewrite Hn.
  destruct (Z.ltb_spec 0 (used s - Z.of_nat i - 1)) as [Hpos|Hneg].
  - set (num := used s - Z.of_nat i - 1). assert (Z.to_nat num = length d - i - 1)%nat as En by (unfold num; lia).
    assert (take (Z.to_nat num) (drop i (chbuf s)) = take (length d - i - 1) (drop i d)) as Et.
    { rewrite Hb, drop_app_le, take_app_le by (rewrite ?length_drop; lia). by rewrite En. }
    assert (length (take (length d - i - 1) (drop i d)) = Z.to_nat num) as Elen by (rewrite length_take, length_drop; lia).
    revert Et Elen. generalize (take (length d - i - 1) (drop i d)). intros l Et Elen.
    unfold move_front. destruct (Z.ltb_spec (Z.of_nat i) 0); [lia|].
    destruct (Z.ltb_spec (Z.of_nat (length (chbuf s))) (Z.of_nat i + num)); [lia|]. cbn [orb]. rewrite Nat2Z.id, Et.
    unfold poke. destruct (Z.ltb_spec (Z.of_nat (length (chbuf s))) (0 + Z.of_nat (length l))); [lia|].
    cbn -[take drop length]. eexists. split; [done|]. split; [|split; [done|split; [done|]]].
    + split; cbn -[take drop length]; try lia. rewrite !length_app, length_drop, Elen, length_take. lia.
    + unfold contents. cbn -[take drop length]. change (take (Z.to_nat 0) (chbuf s)) with (@nil Z). cbn [app].
      split; [|lia]. by rewrite take_app_length'.
  - cbn. eexists. split; [done|]. replace (length d - i - 1)%nat with 0%nat by lia. rewrite take_0.
    split; [split; cbn; lia|]. done.
Qed.

(** Handling of a buffer that holds a newline. *)
Lemma handle_client_run cl k n d rest i :
  let s := state cl in
  search_ok s → chbuf s = d ++ 0 :: rest → contents s = d → 0 ∉ d → Z.of_nat (length d) < CLI_MAX_BUF →
  needle_offset s = Z.of_nat i → d !! i = Some NEWLINE → NEWLINE ∉ take i d → served k n →
  Forall obedient (command_texts d 0) →
  ∃ cl' k' n', cli_parser_handle_client yyparse cl k n = Returns (true, cl', k') n' ∧ incoming n' = incoming n ∧
    served k' n' ∧ commands k' = commands k ++ command_texts d 0 ∧ client_fd cl' = client_fd cl ∧
    search_ok (state cl') ∧ max_capacity (state cl') = max_capacity s ∧ search_offset (state cl') = 0 ∧
    contents (state cl') = take (length d - i - 1) (drop i d) ∧ used (state cl') = Z.of_nat (length d - i - 1).
Proof.
  intros s Hok Hb Hc Hz Hlen Hn Hi Hbef Hs Hob. pose proof (lookup_lt_Some _ _ _ Hi) as Hlt.
  assert (∀ j, (j < i)%nat → d !! j ≠ Some NEWLINE) as Hno.
  { intros j Hj E. apply Hbef, list_elem_of_lookup. exists j. apply lookup_take_Some. split; [done|lia]. }
  unfold cli_parser_handle_client. fold s. nm. rewrite Hb.
  destruct (strchr_spec d rest 0 Hz ltac:(lia)) as (r & Hstr & Hr). change (Z.of_nat 0) with 0 in Hstr. rewrite Hstr. cbv beta iota.
  destruct r as [p|]; [|exfalso; by apply (Hr i); [lia|]]. destruct Hr as (j & -> & Hj & Hjn & Hjno).
  assert (j = i) as ->. { destruct (lt_eq_lt_dec j i) as [[?|?]|?]; [by destruct (Hno j)|done|by destruct (Hjno i); [lia|]]. }
  destruct (run_commands_texts (S (length (d ++ 0 :: rest))) d rest i k n) as (k1 & n1 & -> & Hi1 & Hs1 & Hc1);
    [done|done|done|done|rewrite length_app; lia| |].
  { rewrite (command_texts_next d 0 i) in Hob by (done || lia || (intros j' ?; apply Hno; lia)).
    by rewrite (command_texts_next d i i) by (done || (intros; lia)). }
  cbn [negb]. destruct (shift_leftover_run s d rest i) as (s' & -> & Hok' & Hm' & Hso & Hcs & Hus); [done..|]. cbv beta iota.
  destruct (prompt_served k1 n1 Hs1) as (k2 & n2 & -> & Hi2 & Hs2 & Hc2).
  exists (with_state s' cl), k2, n2. destruct Hs2 as (Ha2 & Hr2 & Hw2). rewrite Ha2.
  split; [done|]. split; [congruence|]. split; [done|]. split; [|done].
  rewrite Hc2, Hc1. by rewrite (command_texts_next d 0 i), (command_texts_next d i i) by (done || lia || (intros j' ?; apply Hno; lia) || (intros; lia)).
Qed.

(** * Lines typed one at a time *)

Definition clean (l : list Z) : Prop := (0 ∉ l) ∧ (NEWLINE ∉ l).

(** [typed pre evs lines]: behind the bytes [pre] of a line the stream delivers
    the rest of it and the other lines, in pieces of any size; no piece goes on
    behind a newline.  The lines fit into the buffer and hold no null byte. *)
Inductive typed : list Z → list event → list (list Z) → Prop :=
  | typed_eof : typed [] [Eof] []
  | typed_more pre b d evs ls :
      clean (pre ++ b :: d) → typed (pre ++ b :: d) evs ls → typed pre (Data b d :: evs) ls
  | typed_line pre b d evs body ls :
      pre ++ b :: d = body ++ [NEWLINE] → clean body → Z.of_nat (length body) + 1 < CLI_MAX_BUF →
      typed [] evs ls → typed pre (Data b d :: evs) ((body ++ [NEWLINE]) :: ls).

Lemma clean_prefix l1 l2 : clean (l1 ++ l2) → clean l1.
Proof. unfold clean. rewrite !not_elem_of_app. tauto. Qed.

Lemma typed_short pre evs ls : typed pre evs ls → Z.of_nat (length pre) < CLI_MAX_BUF.
Proof.
  induction 1 as [|pre b d evs ls _ _ IH|pre b d evs body ls E _ Hl _ _]; [done| |].
  - rewrite length_app in IH. lia.
  - apply (f_equal length) in E. rewrite !length_app in E. cbn in E. lia.
Qed.

(** The end of a piece comes before the end of the bytes in front of a newline. *)
Lemma proper_prefix (p q body : list Z) : p ++ q = body ++ [NEWLINE] → q ≠ [] → ∃ r, body = p ++ r.
Proof.
  intros E Hq. destruct (exists_last Hq) as (q' & z & ->). rewrite app_assoc in E.
  apply app_inj_tail in E as [<- _]. by exists q'.
Qed.

Lemma typed_step pre b d evs ls m :
  let l := b :: d in
  typed pre (Data b d :: evs) ls → (1 <= m <= length l)%nat →
  (clean (pre ++ take m l) ∧ typed (pre ++ take m l) (event_rest m l evs) ls) ∨
  (∃ body ls', ls = (body ++ [NEWLINE]) :: ls' ∧ pre ++ take m l = body ++ [NEWLINE] ∧ clean body ∧
    Z.of_nat (length body) + 1 < CLI_MAX_BUF ∧ typed [] (event_rest m l evs) ls').
Proof.
  intros l Ht Hm. assert (pre ++ l = (pre ++ take m l) ++ drop m l) as Esplit by (by rewrite <-app_assoc, take_drop).
  unfold event_rest. destruct (drop m l) as [|b' d'] eqn:Ed.
  - rewrite app_nil_r in Esplit. rewrite <-Esplit.
    inversion Ht as [|? ? ? ? ? Hc Ht'|? ? ? ? body ls' E Hc Hl Ht']; subst; [left; done|right].
    by exists body, ls'.
  - left. inversion Ht as [|? ? ? ? ? Hc Ht'|? ? ? ? body ls' E Hc Hl Ht']; subst.
    + split; [fold l in Hc; rewrite Esplit in Hc; by eapply clean_prefix|]. constructor; by rewrite <-Esplit.
    + fold l in E. rewrite Esplit in E. destruct (proper_prefix _ _ _ E) as [r Hr]; [done|].
      split; [rewrite Hr in Hc; by eapply clean_prefix|]. by constructor.
Qed.

Lemma pending_rest m b d evs :
  let l := b :: d in
  (1 <= m <= length l)%nat → (pending (event_rest m l evs) + m <= pending (Data b d :: evs))%nat.
Proof.
  intros l Hm. unfold event_rest. pose proof (length_drop l m) as Hl. destruct (drop m l) as [|b' d']; unfold pending, l in *; cbn in *; lia.
Qed.

(** A newline is the first when there is none before it. *)
Lemma first_at_end body i : clean body → first_at NEWLINE (body ++ [NEWLINE]) i → i = Z.of_nat (length body).
Proof.
  intros [_ Hn] (Hi & Hl & Hbef). destruct (Z.lt_trichotomy i (Z.of_nat (length body))) as [Hlt|[->|Hgt]]; [|done|].
  - rewrite lookup_app_l in Hl by lia. exfalso. apply Hn, list_elem_of_lookup. by eexists.
  - apply lookup_lt_Some in Hl. rewrite length_app in Hl. cbn in Hl. lia.
Qed.

Lemma command_texts_line body : NEWLINE ∉ body → command_texts (body ++ [NEWLINE]) 0 = [body ++ [NEWLINE]].
Proof.
  intros Hn. rewrite (command_texts_next _ 0 (length body)).
  - rewrite take_ge by (rewrite length_app; cbn; lia). rewrite command_texts_none; [done|].
    intros j Hj Hl%lookup_lt_Some. rewrite length_app in Hl. cbn in Hl. lia.
  - lia.
  - by apply list_lookup_middle.
  - intros j Hj. rewrite lookup_app_l by lia. intros Hl. apply Hn, list_elem_of_lookup. by eexists.
Qed.

(** * Requests *)

(** The end of a request, after the search. *)
Lemma handle_request_run cl k n code s1 n1 :
  search_at grants junk (conn_of (client_fd cl)) [NEWLINE] (state cl) 1 n = Returns (code, s1) n1 →
  search_ok s1 → max_capacity s1 = CLI_MAX_BUF → used s1 < CLI_MAX_BUF →
  ∃ s2 rest n2,
    cli_client_handle_request grants junk yyparse cl k n = handle_result yyparse code (with_state s2 cl) k n2 ∧
    incoming n2 = incoming n1 ∧ writes n2 = writes n1 ∧ search_ok s2 ∧ chbuf s2 = contents s1 ++ 0 :: rest ∧
    contents s2 = contents s1 ∧ used s2 = used s1 ∧ needle_offset s2 = needle_offset s1 ∧ max_capacity s2 = CLI_MAX_BUF.
Proof.
  intros Hrun Hok Hm Hu. unfold cli_client_handle_request, read_search. nm. rewrite Hrun.
  destruct (grow_served grants junk grants_buffers s1 n1) as
    (g & s' & n' & -> & Hg2 & Hg1 & Hi & _ & Hw & Hok' & Hc & Hu' & Hroom & _ & Hn & Hm' & _); [done..|].
  rewrite (proj2 (Z.eqb_neq g 2)), (proj2 (Z.eqb_neq g (-1))) by done. cbn [orb].
  destruct (terminate_run s' Hok' Hroom) as (s2 & rest & -> & Hok2 & Hb & Hc2 & Hu2 & _ & Hn2 & Hm2 & _).
  exists s2, rest, n'. rewrite Hc in Hb. by split_and!; [| | | | |congruence..].
Qed.

(** Served lines are executed, one after the other. *)
Lemma client_loop_typed fuel cl k n pre ls :
  let s := state cl in
  let c := conn_of (client_fd cl) in
  search_ok s → max_capacity s = CLI_MAX_BUF → contents s = pre → clean pre → typed pre (incoming n c) ls →
  router_shutdown k = false → writes n = [] → Forall obedient ls →
  (2 * pending (incoming n c) + Z.to_nat (used s) < fuel)%nat →
  ∃ k' n', client_loop grants junk yyparse fuel cl k n = Returns (Gone, k') n' ∧ commands k' = commands k ++ ls.
Proof.
  revert cl k n pre ls. induction fuel as [|fuel IH]; intros cl k n pre ls s c Hok Hm Hc Hcl Ht Hk Hw Hob Hf; [lia|].
  pose proof (conn_of_nonneg (client_fd cl)) as Hfd. fold c in Hfd. pose proof (typed_short _ _ _ Ht) as Hshort.
  pose proof (contents_length s Hok) as Hlen. rewrite Hc in Hlen. cbn [client_loop]. nm.
  destruct (incoming n c) as [|[b d| |e] evs] eqn:Hev; [by inversion Ht| | |by inversion Ht].
  - destruct (request_data grants junk grants_buffers NEWLINE s n c b d evs) as
      (m & code & s1 & n1 & Hrun & Hml & (_ & Hw1 & _) & Hi1 & Hok1 & Hm1 & Hc1 & _ & Hcode);
      [done|done|lia|rewrite Hc; apply Hcl|done|done|].
    pose proof (pending_rest m b d evs Hml) as Hpr. pose proof (contents_length s1 Hok1) as Hl1.
    pose proof Hl1 as Hl1'. rewrite Hc1, Hc, length_app, length_take in Hl1'. rewrite Hc in Hc1.
    destruct (typed_step pre b d evs ls m Ht Hml) as [[Hcl1 Ht1]|(body & ls' & -> & Eb & Hcb & Hlb & Ht1)].
    + pose proof (typed_short _ _ _ Ht1) as Hsh1. rewrite <-Hc1 in Hsh1.
      destruct (handle_request_run cl k n code s1 n1 Hrun Hok1 Hm1 ltac:(lia)) as
        (s2 & rest & n2 & -> & Hi2 & Hw2 & Hok2 & _ & Hc2 & Hu2 & _ & Hm2).
      destruct Hcode as [[_ (_ & Hx & _)]|[-> _]].
      { exfalso. rewrite Hc1 in Hx. destruct Hcl1 as [_ Hno]. apply Hno, list_elem_of_lookup. by eexists. }
      cbn [handle_result Z.eqb]. unfold handle_result. cbn [Z.eqb Pos.eqb]. nm. rewrite Hk.
      eapply (IH (with_state s2 cl) k n2 (pre ++ take m (b :: d)) ls); cbn [state client_fd with_state]; fold c.
      * done. * done. * congruence. * done. * by rewrite Hi2, Hi1. * done. * congruence. * done.
      * rewrite Hi2, Hi1. lia.
    + apply Forall_cons in Hob as [Hob1 Hob]. rewrite Eb in Hc1. assert (Z.of_nat (length (contents s1)) = Z.of_nat (length body) + 1) as Hlc
        by (rewrite Hc1, length_app; cbn; lia).
      destruct (handle_request_run cl k n code s1 n1 Hrun Hok1 Hm1 ltac:(lia)) as
        (s2 & rest & n2 & -> & Hi2 & Hw2 & Hok2 & Hb2 & Hc2 & Hu2 & Hn2 & Hm2).
      destruct Hcode as [[-> Hx]|[_ Hno]]; [|exfalso; apply Hno; rewrite Hc1; apply elem_of_app; right; by left].
      rewrite Hc1 in Hx, Hb2, Hc2. apply first_at_end in Hx; [|done].
      unfold handle_result. cbn [Z.eqb Pos.eqb]. nm.
      set (k1 := cli_focus_set (client_fd (with_state s2 cl)) (client_verbose (with_state s2 cl)) k).
      destruct (handle_client_run (with_state s2 cl) k1 n2 (body ++ [NEWLINE]) rest (length body))
        as (cl3 & k3 & n3 & -> & Hi3 & (Ha3 & Hr3 & Hw3) & Hk3 & Hf3 & Hok3 & Hm3 & _ & Hc3 & Hu3).
      { done. } { done. } { done. } { rewrite not_elem_of_app. split; [apply Hcb|]. by intros [?|?%elem_of_nil]%elem_of_cons. }
      { rewrite length_app. cbn [length]. lia. } { cbn. congruence. } { by apply list_lookup_middle. }
      { rewrite take_app_length. apply Hcb. } { split_and!; [done|done|congruence]. }
      { rewrite command_texts_line by apply Hcb. by constructor. }
      rewrite Hr3. cbn in Hf3.
      destruct (IH (Client (client_fd cl3) (state cl3) (verbose k3)) k3 n3 [] ls') as (k' & n' & Hrun' & Hcmd);
        cbn [state client_fd]; rewrite ?Hf3; fold c.
      { done. } { by rewrite Hm3. } { rewrite Hc3, length_app. cbn [length]. by replace (length body + 1 - length body - 1)%nat with 0%nat by lia. }
      { split; apply not_elem_of_nil. } { by rewrite Hi3, Hi2, Hi1. } { done. } { done. } { done. }
      { rewrite Hu3, length_app, Hi3, Hi2, Hi1. cbn [length]. lia. }
      rewrite Hf3 in Hrun'. exists k', n'. split; [done|]. rewrite Hcmd, Hk3. unfold k1. cbn. rewrite <-app_assoc. cbn [app]. do 2 f_equal.
      rewrite command_texts_line by apply Hcb. done.
  - assert (pre = [] ∧ evs = [] ∧ ls = []) as (Epre & Eevs & Els) by (by inversion Ht). rewrite Epre in *. subst evs ls.
    destruct (request_eof grants junk grants_buffers NEWLINE s n c []) as
      (s1 & n1 & Hrun & _ & Hi1 & Hok1 & Hm1 & Hc1 & Hu1); [done|done|lia|rewrite Hc; apply Hcl|done|done|].
    destruct (handle_request_run cl k n 1 s1 n1 Hrun Hok1 Hm1 ltac:(lia)) as
      (s2 & rest & n2 & -> & _ & _ & _ & Hb2 & _). rewrite Hc1, Hc in Hb2.
    unfold handle_result. cbn [Z.eqb Pos.eqb]. nm. cbn [state with_state]. rewrite Hb2. change (strchr ([] ++ 0 :: rest) 0 NEWLINE) with (Some (@None Z)). cbv beta iota. rewrite Hk.
    exists k, n2. by rewrite app_nil_r.
Qed.

(** A request on an empty buffer, when the whole event fits into it. *)
Lemma request_whole cl k n b d evs :
  let l := b :: d in
  let s := state cl in
  let c := conn_of (client_fd cl) in
  search_ok s → max_capacity s = CLI_MAX_BUF → contents s = [] → incoming n c = Data b d :: evs →
  Z.of_nat (length l) <= capacity s → Z.of_nat (length l) < CLI_MAX_BUF →
  ∃ code s2 rest n2,
    cli_client_handle_request grants junk yyparse cl k n = handle_result yyparse code (with_state s2 cl) k n2 ∧
    incoming n2 c = evs ∧ writes n2 = writes n ∧ search_ok s2 ∧ chbuf s2 = l ++ 0 :: rest ∧ contents s2 = l ∧
    max_capacity s2 = CLI_MAX_BUF ∧
    ((code = 0 ∧ first_at NEWLINE l (needle_offset s2)) ∨ (code = -3 ∧ NEWLINE ∉ l)).
Proof.
  intros l s c Hok Hm Hc Hev Hfit Hlen. pose proof (contents_length s Hok) as Hl. rewrite Hc in Hl.
  assert (used s = 0) as Hu by (cbn in Hl; lia). pose proof (so_capacity _ Hok).
  destruct (request_data grants junk grants_buffers NEWLINE s n c b d evs) as
    (m & code & s1 & n1 & Hrun & Hml & (_ & Hw1 & _) & Hi1 & Hok1 & Hm1 & Hc1 & Hroom & Hcode);
    [done|done|unfold CLI_MAX_BUF; lia|rewrite Hc; apply not_elem_of_nil|apply conn_of_nonneg|done|].
  fold l in Hroom, Hml, Hc1, Hi1. specialize (Hroom ltac:(lia)). assert (m = length l) as -> by lia.
  rewrite firstn_all, Hc in Hc1. cbn [app] in Hc1. unfold event_rest in Hi1. rewrite drop_all in Hi1.
  pose proof (contents_length s1 Hok1) as Hl1. rewrite Hc1 in Hl1, Hcode.
  destruct (handle_request_run cl k n code s1 n1 Hrun Hok1 Hm1 ltac:(lia)) as
    (s2 & rest & n2 & Hreq & Hi2 & Hw2 & Hok2 & Hb2 & Hc2 & Hu2 & Hn2 & Hm2).
  exists code, s2, rest, n2. rewrite Hi2, Hn2, Hb2, Hc2, Hc1. by split_and!; [..|congruence| | | | |].
Qed.
End client.

Section theorems.
Context (grants : Z → bool) (junk : Z → Z) (yyparse : list Z → cli_t → NM cli_t).
Context (grants_buffers : ∀ size, 0 < size <= CLI_MAX_BUF → grants size = true).

(** C32: a client that types its lines one at a time gets each of them executed,
    once and in order.  The thread of a new client passes over the first bytes it
    reads, at most 256 and no newline among them; then, when the lines arrive in
    pieces of any sizes none of which goes on behind a newline, the parser is
    given exactly the lines, and the thread ends with the stream.  The lines
    have no null byte and less than 2048 bytes, and none of them makes the
    parser leave or shut the router down. *)
Theorem cli_executes_typed_lines welcome clientfd local k n b d evs lines :
  let c := conn_of (if local : bool then - clientfd else clientfd) in
  Forall (obedient yyparse) lines → router_shutdown k = false → writes n = [] →
  incoming n c = Data b d :: evs → NEWLINE ∉ b :: d → Z.of_nat (length (b :: d)) <= CLI_INIT_BUF →
  typed [] evs lines →
  ∃ k' n', (cl ← new_client grants clientfd local;
            cli_client_handler_main grants junk yyparse welcome cl k) n = Returns (Gone, k') n' ∧
    commands k' = commands k ++ lines.
Proof.
  intros c Hob Hk Hw Hev Hno Hlen Ht. unfold new_client, search_state_init, calloc.
  rewrite grants_buffers by (unfold CLI_INIT_BUF, CLI_MAX_BUF; lia).
  set (fd := if local then - clientfd else clientfd) in *.
  change ((CLI_INIT_BUF =? 0) || (CLI_MAX_BUF <? CLI_INIT_BUF)) with false. nm.
  set (s0 := SearchState _ _ _ 0 0 0). assert (search_ok s0) as Hok0.
  { split; [unfold s0; cbn [chbuf capacity]; by rewrite length_replicate|done..]. }
  unfold cli_client_handler_main. cbn [client_fd state]. nm. cbv zeta.
  destruct (request_whole grants junk grants_buffers yyparse (Client fd s0 false) k n b d evs)
    as (code & s2 & rest & n2 & -> & Hi2 & Hw2 & Hok2 & _ & _ & Hm2 & Hcode);
    [done|done|done|done|done|unfold CLI_INIT_BUF, CLI_MAX_BUF in *; lia|].
  destruct Hcode as [[_ (_ & Hx & _)]|[-> _]].
  { exfalso. apply Hno, list_elem_of_lookup. by eexists. }
  unfold handle_result. cbn [Z.eqb Pos.eqb]. nm. cbn [client_fd state with_state client_verbose].
  set (k1 := cli_focus_set _ _ k). set (s3 := with_used 0 _).
  destruct (send_served welcome k1 n2) as (n3 & -> & Hi3 & Hs3); [split_and!; [done|done|congruence]|].
  destruct (prompt_served k1 n3 Hs3) as (k4 & n4 & -> & Hi4 & (Ha4 & Hr4 & Hw4) & Hc4).
  unfold client_rounds, client_fuel. cbn [client_fd state with_state].
  change (conn_of fd) with c. change (incoming n2 c = evs) in Hi2. destruct Hok2 as [Hmem Hu Hcap Hx Ho].
  destruct (client_loop_typed grants junk grants_buffers yyparse
    (S (2 * pending (incoming n4 c) + Z.to_nat (used s3))) (Client fd s3 false) k4 n4 [] lines)
    as (k' & n' & Hrun & Hcmd); cbn [client_fd state].
  { split; cbn; [done|lia..]. } { done. } { done. } { split; apply not_elem_of_nil. }
  { change (conn_of fd) with c. by rewrite Hi4, Hi3, Hi2. } { done. } { done. } { done. } { change (conn_of fd) with c. lia. }
  exists k', n'. split; [exact Hrun|]. by rewrite Hcmd, Hc4.
Qed.

(** bytes that arrive behind the first newline of a read are mishandled.
    The loop of the parser starts every text at the start of the buffer, so the
    first line is executed again with every further line of the read; what is
    left in the buffer then starts with the first newline and lacks the last
    byte, so that the next request executes an empty line and parts of lines
    that were executed. *)
Theorem cli_typed_ahead_repeated cl k n b d evs body rest :
  let s := state cl in
  Forall (obedient yyparse) (command_texts (b :: d) 0) → router_shutdown k = false → writes n = [] →
  search_ok s → max_capacity s = CLI_MAX_BUF → contents s = [] →
  incoming n (conn_of (client_fd cl)) = Data b d :: evs →
  Z.of_nat (length (b :: d)) <= capacity s → Z.of_nat (length (b :: d)) < CLI_MAX_BUF →
  b :: d = body ++ NEWLINE :: rest → NEWLINE ∉ body → 0 ∉ b :: d →
  ∃ cl' k' n', cli_client_handle_request grants junk yyparse cl k n = Returns (true, cl', k') n' ∧
    commands k' = commands k ++ command_texts (b :: d) 0 ∧
    contents (state cl') = take (length rest) (NEWLINE :: rest) ∧ search_offset (state cl') = 0.
Proof.
  intros s Hob Hk Hw Hok Hm Hc Hev Hfit Hlen El Hbody Hz.
  assert (NEWLINE ∈ b :: d) as Hin by (rewrite El; apply elem_of_app; right; by left).
  destruct (request_whole grants junk grants_buffers yyparse cl k n b d evs)
    as (code & s2 & tl & n2 & -> & Hi2 & Hw2 & Hok2 & Hb2 & Hc2 & Hm2 & Hcode); [done..|].
  destruct Hcode as [[-> Hx]|[_ Hno]]; [|done].
  assert (needle_offset s2 = Z.of_nat (length body)) as Hn.
  { destruct Hx as (Hx0 & Hx1 & Hx2). rewrite El in Hx1, Hx2.
    destruct (Z.lt_trichotomy (needle_offset s2) (Z.of_nat (length body))) as [Hlt|[->|Hgt]]; [|done|].
    - rewrite lookup_app_l in Hx1 by lia. exfalso. apply Hbody, list_elem_of_lookup. by eexists.
    - exfalso. apply Hx2, list_elem_of_lookup. exists (length body). apply lookup_take_Some. split; [by apply list_lookup_middle|lia]. }
  unfold handle_result. cbn [Z.eqb Pos.eqb]. nm. set (k1 := cli_focus_set _ _ k).
  destruct (handle_client_run yyparse (with_state s2 cl) k1 n2 (b :: d) tl (length body))
    as (cl3 & k3 & n3 & -> & _ & _ & Hk3 & _ & _ & _ & Hso & Hc3 & _).
  { done. } { done. } { done. } { done. } { done. } { done. } { rewrite El. by apply list_lookup_middle. }
  { by rewrite El, take_app_length. } { split_and!; [done|done|congruence]. } { done. }
  eexists _, k3, n3. split; [done|]. split; [by rewrite Hk3|]. cbn [state]. split; [|done].
  rewrite Hc3, El, drop_app_length, length_app. cbn [length]. f_equal. lia.
Qed.

(** a null byte before a newline ends the router: the search finds the
    newline behind it, the parser looks for it with [strchr], which stops at the
    null byte, and the process dies.  Any client can send it. *)
Theorem cli_null_byte_kills_router cl k n b d evs pre post :
  let s := state cl in
  search_ok s → max_capacity s = CLI_MAX_BUF → contents s = [] →
  incoming n (conn_of (client_fd cl)) = Data b d :: evs →
  Z.of_nat (length (b :: d)) <= capacity s → Z.of_nat (length (b :: d)) < CLI_MAX_BUF →
  b :: d = pre ++ 0 :: post → NEWLINE ∉ pre → 0 ∉ pre → NEWLINE ∈ post →
  cli_client_handle_request grants junk yyparse cl k n = Dies.
Proof.
  intros s Hok Hm Hc Hev Hfit Hlen El Hpre Hz Hpost.
  destruct (request_whole grants junk grants_buffers yyparse cl k n b d evs)
    as (code & s2 & rest & n2 & -> & _ & _ & _ & Hb2 & _ & _ & Hcode); [done..|].
  destruct Hcode as [[-> _]|[_ Hno]]; [|exfalso; apply Hno; rewrite El; apply elem_of_app; right; by right].
  unfold handle_result. cbn [Z.eqb Pos.eqb]. unfold cli_parser_handle_client. cbn [state with_state]. nm. rewrite Hb2, El, <-app_assoc.
  cbn [app]. destruct (strchr_in_spec pre (post ++ 0 :: rest) 0 NEWLINE Hz) as (r & Hr & Hres); [done|].
  change (strchr (pre ++ 0 :: post ++ 0 :: rest) 0 NEWLINE) with (strchr_in (pre ++ 0 :: post ++ 0 :: rest) 0 NEWLINE).
  rewrite Hr. destruct r as [i|]; [|done]. destruct Hres as (j & _ & Hj & _). exfalso. apply Hpre, list_elem_of_lookup. by eexists.
Qed.
End theorems.

(** A parser that only answers, and leaves at ["exit\n"]. *)
Definition EXIT : list Z := [101; 120; 105; 116; 10].
Definition quiet_parser (text : list Z) (k : cli_t) : NM cli_t :=
  mret (if bool_decide (text = EXIT) then set_alive false k else k).

Lemma quiet_obedient text : text ≠ EXIT → obedient quiet_parser text.
Proof.
  intros Ht k n Hw. exists k, n. unfold quiet_parser. by rewrite bool_decide_eq_false_2 by done.
Qed.

Definition idle_cli : cli_t := Cli false 0 false false false [].
Definition idle_client : cli_client_t := Client 5 (SearchState (replicate 256 0) 256 2048 0 0 0) false.

Lemma idle_client_ok : search_ok (state idle_client).
Proof. split; vm_compute; intuition discriminate. Defined.

(** ["show\n"] in two pieces and ["x\n"], after the bytes of a handshake. *)
Lemma cli_executes_typed_lines_witness :
  ∃ k' n', (cl ← new_client (λ _, true) 5 false;
            cli_client_handler_main (λ _, true) (λ _, 0) quiet_parser [72; 105] cl idle_cli)
      (sample_net [Data 255 [253; 1]; Data 115 [104; 111]; Data 119 [10]; Data 120 [10]; Eof]) = Returns (Gone, k') n' ∧
    commands k' = [[115; 104; 111; 119; 10]; [120; 10]].
Proof.
  apply (cli_executes_typed_lines (λ _, true) (λ _, 0) quiet_parser (λ _ _, eq_refl) [72; 105] 5 false idle_cli
    (sample_net [Data 255 [253; 1]; Data 115 [104; 111]; Data 119 [10]; Data 120 [10]; Eof]) 255 [253; 1]
    [Data 115 [104; 111]; Data 119 [10]; Data 120 [10]; Eof] [[115; 104; 111; 119; 10]; [120; 10]]).
  - repeat constructor; by apply quiet_obedient.
  - done.
  - done.
  - done.
  - compute_done.
  - vm_compute. discriminate.
  - apply typed_more; [split; compute_done|]. apply (typed_line _ _ _ _ [115; 104; 111; 119]); [done|split; compute_done|done|].
    apply (typed_line _ _ _ _ [120]); [done|split; compute_done|done|]. constructor.
Defined.

(** ["a\nb\n"] in one piece: the parser gets ["a\n"] and ["a\nb\n"], and ["\nb"]
    stays in the buffer. *)
Lemma cli_typed_ahead_repeated_witness :
  ∃ cl' k' n', cli_client_handle_request (λ _, true) (λ _, 0) quiet_parser idle_client idle_cli
      (sample_net [Data 97 [10; 98; 10]; Eof]) = Returns (true, cl', k') n' ∧
    commands k' = [[97; 10]; [97; 10; 98; 10]] ∧ contents (state cl') = [10; 98].
Proof.
  destruct (cli_typed_ahead_repeated (λ _, true) (λ _, 0) quiet_parser (λ _ _, eq_refl) idle_client idle_cli
    (sample_net [Data 97 [10; 98; 10]; Eof]) 97 [10; 98; 10] [Eof] [97] [98; 10]) as (cl' & k' & n' & Hrun & Hk & Hc & _).
  - repeat constructor; by apply quiet_obedient.
  - done.
  - done.
  - exact idle_client_ok.
  - done.
  - done.
  - done.
  - vm_compute. discriminate.
  - done.
  - done.
  - compute_done.
  - compute_done.
  - exists cl', k', n'. done.
Defined.

Lemma cli_null_byte_kills_router_witness :
  cli_client_handle_request (λ _, true) (λ _, 0) quiet_parser idle_client idle_cli (sample_net [Data 0 [10]; Eof]) = Dies.
Proof.
  apply (cli_null_byte_kills_router (λ _, true) (λ _, 0) quiet_parser (λ _ _, eq_refl) idle_client idle_cli
    (sample_net [Data 0 [10]; Eof]) 0 [10] [Eof] [] [10]).
  - exact idle_client_ok.
  - done.
  - done.
  - done.
  - vm_compute. discriminate.
  - done.
  - done.
  - apply not_elem_of_nil.
  - apply not_elem_of_nil.
  - by left.
Defined.
