(* ===== verification/CliCommands.v ===== *)
(** The commands of the command line (cli/cli.c).

    What the commands do to the router; their texts are left out.  The commands
    on the DNS database turn a host name into labels first, each of them copied
    into a block from [malloc]: [usable n] is how many bytes the block for a
    request of [n] bytes really has, and a write behind them is a fault. *)

From Stdlib Require Import ZArith Lia.
From stdpp Require Import base tactics numbers option list strings.
From S2P Require Import Prelude Dataqueue Common Packets State Loops Arp Routing IpHeader Ping Ip Dns DnsSpec.

Local Open Scope Z_scope.

(** * ARP, interfaces and ping *)

Definition cli_manip_ip_arp_add (ip : Z) (mac : addr_mac) : M unit := arp_add_static ip mac.
Definition cli_manip_ip_arp_del (ip : Z) (mac : addr_mac) : M unit := arp_remove_ip_mac ip mac.
Definition cli_manip_ip_arp_purge_all : M unit := arp_clear_all.
Definition cli_manip_ip_arp_purge_dyn : M unit := arp_clear_dynamic.
Definition cli_manip_ip_arp_purge_sta : M unit := arp_clear_static.

(** The lookup by name finds no interface, whatever the name. *)
Definition router_lookup_interface_via_name (name : string) (r : router) : option nat := None.

Definition set_if_address (ip mask : Z) (i : interface) : interface :=
  Interface (if_name i) (if_mac i) ip (if_enabled i) mask (if_helloint i) (if_neighbours i).

(** The boolean is false when the name is not that of an interface. *)
Definition cli_manip_ip_intf_set (name : string) (ip mask : Z) : M bool :=
  r ← get_router;
  match router_lookup_interface_via_name name r with
  | Some i => modify_router (λ r, set_interfaces (alter (set_if_address ip mask) i (interfaces r)) r);; mret true
  | None => mret false
  end.

(** The answer tells whether the interface is up. *)
Fixpoint handle_self (ip : Z) (l : list interface) : option bool :=
  match l with
  | [] => None
  | i :: l => if ip =? if_ip i then Some (if_enabled i) else handle_self ip l
  end.

Definition cli_ping_handle_self (ip : Z) : M (option bool) := r ← get_router; mret (handle_self ip (interfaces r)).

(** The boolean is whether the next prompt is skipped. *)
Definition cli_ping (fd ip : Z) : M bool :=
  self ← cli_ping_handle_self ip;
  match self with
  | Some _ => mret false
  | None => cli_ping_request fd ip;; mret true
  end.

Definition cli_ping_flood (fd ip count : Z) : M bool :=
  self ← cli_ping_handle_self ip;
  match self with
  | Some _ => mret false
  | None => for_range (λ _ _, cli_ping_request fd ip) (Z.to_nat count) 0 tt;; mret true
  end.

(** * The DNS database *)

Record gross_dns_t := GrossDns { gd_ip : Z; gd_hostname : list Z; gd_type : Z; gd_class : Z }.

Section dns.
Context (usable : Z → Z).

(** [malloc], [memcpy] and the terminating zero byte of one label; [lastchar]
    is whether the label ends the name. *)
Definition make_sub (hostname : list Z) (start i : Z) (lastchar : bool) : option (list Z) :=
  let block := i - start + 1 in
  let n := if lastchar then i - start + 1 else i - start in
  if n <? usable block then Some (take (Z.to_nat n) (drop (Z.to_nat start) hostname)) else None.

(** [input] is the memory from the pointer on. *)
Fixpoint convert_loop (hostname input : list Z) (i start : Z) (names : list (list Z)) (count : Z)
    : option (list (list Z) * Z * bool) :=
  match input with
  | [] => None
  | c :: input =>
      next ← head input;
      let lastchar := next =? 0 in
      let charisdot := c =? DOT in
      if charisdot && lastchar then Some (names, count, true)
      else if charisdot || lastchar then
        if (i =? start) && negb lastchar then Some (names, count, true)
        else
          sub ← make_sub hostname start i lastchar;
          let names := take (Z.to_nat count) names ++ [sub] in
          if lastchar then Some (names, u8 (count + 1), false)
          else convert_loop hostname input (i + 1) (i + 1) names (u8 (count + 1))
      else convert_loop hostname input (i + 1) start names count
  end.

(** The boolean is [*exception]. *)
Definition dns_convert_groos_dns_to_db_entry (data : gross_dns_t) : option (dns_db_entry * bool) :=
  '(names, count, exception) ← convert_loop (gd_hostname data) (gd_hostname data ++ [0]) 0 0 [] 0;
  Some (DnsEntry names count (u16 (gd_type data)) (u16 (gd_class data)) (gd_ip data), exception).

Inductive dns_message := Done | DoneWithoutSaving | Malformed | NoSuchEntry.

(** Whether the file can be opened and closed. *)
Context (opened closed : bool).

(** [dns_save_changes()]; the lines written are its result. *)
Definition save_and_tell : M (dns_message * list (list Z)) :=
  if opened then
    lines ← dns_save_changes;
    mret (if closed then Done else DoneWithoutSaving, lines)
  else mret (DoneWithoutSaving, []).

Definition cli_manip_dns_add (data : gross_dns_t) : M (dns_message * list (list Z)) :=
  '(entry, exception) ← in_bounds (dns_convert_groos_dns_to_db_entry data);
  if exception : bool then mret (Malformed, [])
  else
    modify_router (λ r, set_dns_db (queue_add (dns_db r) entry sizeof_dns_db_entry) r);;
    save_and_tell.

(** [for (j ...) if (strcmp(...) != 0) { works = 0; break; }]. *)
Fixpoint names_same (n j : nat) (a b : list (list Z)) : option bool :=
  match n with
  | O => Some true
  | S n =>
      x ← name_at a j;
      y ← name_at b j;
      if strcmp_eq x y then names_same n (S j) a b else Some false
  end.

(** The state of the loop: an entry was removed, or a wild pointer was met. *)
Definition del_body (d : dns_db_entry) (i : nat) (e : dns_db_entry) (s : option bool)
    : verdict dns_db_entry * option bool :=
  if (db_count d =? db_count e) && (db_class d =? db_class e) && (db_type d =? db_type e) && (db_rdata d =? db_rdata e) then
    match names_same (Z.to_nat (db_count d)) 0 (db_names d) (db_names e) with
    | Some true => (RemoveReturn, Some true)
    | Some false => (Unlock e, s)
    | None => (Return e, None)
    end
  else (Unlock e, s).

Definition cli_manip_dns_del (data : gross_dns_t) : M (dns_message * list (list Z)) :=
  '(entry, _) ← in_bounds (dns_convert_groos_dns_to_db_entry data);
  r ← get_router;
  '(q, found) ← from_option_M AssertFailed
    (queue_foreach sizeof_dns_db_entry (del_body entry) (dns_db r) (Some false));
  modify_router (set_dns_db q);;
  match found with
  | Some true => save_and_tell
  | Some false => mret (NoSuchEntry, [])
  | None => throw NullDeref
  end.
End dns.
