(* ===== verification/CliDnsProps.v ===== *)
(** The commands that edit the DNS database (file CliCommands): a host name is
    split into its labels, an added entry is there, a deletion removes the first
    entry that agrees; the block for the last label is one byte too short. *)

From Stdlib Require Import ZArith Lia.
From stdpp Require Import base tactics numbers option list strings.
From S2P Require Import Prelude Dataqueue Common Packets State Loops Dns DnsSpec Samples CliCommands.

Local Open Scope Z_scope.

(** * Host names *)

Fixpoint join (labels : list (list Z)) : list Z :=
  match labels with
  | [] => []
  | [x] => x
  | x :: labels => x ++ DOT :: join labels
  end.

(** A byte of a label. *)
Definition label_byte (b : Z) : Prop := b ≠ 0 ∧ b ≠ DOT.
Definition label_ok (x : list Z) : Prop := x ≠ [] ∧ Forall label_byte x.

Lemma join_cons x y labels : join (x :: y :: labels) = x ++ DOT :: join (y :: labels).
Proof. done. Qed.

Lemma join_head labels : labels ≠ [] → Forall label_ok labels → ∃ b t, join labels = b :: t ∧ b ≠ 0.
Proof.
  destruct labels as [|x [|y labels]]; [done| |]; intros _ Hl; apply Forall_cons in Hl as [[Hne Hx] _];
    (destruct x as [|b x]; [done|]); apply Forall_cons in Hx as [[Hb _] _]; cbn; eauto.
Qed.

Section convert.
Context (usable : Z → Z) (usable_enough : ∀ n, n <= usable n).

(** The bytes of a label before its end only move the index. *)
Lemma convert_scan host xs c tail i start names count :
  Forall label_byte xs → c ≠ 0 →
  convert_loop usable host (xs ++ c :: tail) i start names count
  = convert_loop usable host (c :: tail) (i + Z.of_nat (length xs)) start names count.
Proof.
  intros Hxs Hc. revert i. induction xs as [|x xs IH]; intros i; [cbn [app length]; by rewrite Z.add_0_r|].
  apply Forall_cons in Hxs as [[Hx0 Hxd] Hxs]. set (rhs := convert_loop _ _ (c :: tail) _ _ _ _). cbn [app]. cbn [convert_loop].
  assert (∃ y, head (xs ++ c :: tail) = Some y ∧ y ≠ 0) as (y & -> & Hy).
  { destruct xs as [|y xs]; [by exists c|]. exists y. apply Forall_cons in Hxs as [[? _] _]. done. }
  cbn [mbind option_bind]. rewrite (proj2 (Z.eqb_neq y 0)), (proj2 (Z.eqb_neq x DOT)) by done. cbn [andb orb].
  rewrite (IH Hxs). unfold rhs. f_equal. cbn [length]. lia.
Qed.

Lemma take_label (pre x rest : list Z) n k :
  n = Z.of_nat (length x) → k = Z.of_nat (length pre) →
  take (Z.to_nat n) (drop (Z.to_nat k) (pre ++ x ++ rest)) = x.
Proof. intros -> ->. by rewrite !Nat2Z.id, drop_app_length, take_app_length. Qed.

(** A label with a dot behind it. *)
Lemma convert_label pre x rest names :
  let start := Z.of_nat (length pre) in
  let i := start + Z.of_nat (length x) in
  let host := pre ++ x ++ DOT :: rest in
  label_ok x → (∃ b t, rest = b :: t ∧ b ≠ 0) → Z.of_nat (length names) < 255 →
  convert_loop usable host (x ++ DOT :: rest ++ [0]) start start names (Z.of_nat (length names))
  = convert_loop usable host (rest ++ [0]) (i + 1) (i + 1) (names ++ [x]) (Z.of_nat (length (names ++ [x]))).
Proof.
  intros start i host [Hne Hx] (b & t & Hr & Hb) Hn.
  assert (1 <= Z.of_nat (length x)) by (destruct x; [done|cbn; lia]).
  rewrite convert_scan by done. fold i. cbn [convert_loop].
  replace (head (rest ++ [0])) with (Some b) by (by rewrite Hr). cbn [mbind option_bind].
  rewrite (proj2 (Z.eqb_neq b 0)), Z.eqb_refl by done. cbn [andb orb negb].
  rewrite (proj2 (Z.eqb_neq i start)) by (unfold i; lia). cbn [andb]. unfold make_sub.
  pose proof (usable_enough (i - start + 1)). rewrite (proj2 (Z.ltb_lt _ _)) by lia. cbn [mbind option_bind].
  rewrite (take_label pre x (DOT :: rest)) by (unfold i; lia). rewrite Nat2Z.id, firstn_all.
  f_equal. rewrite u8_small by (unfold is_byte; lia). rewrite length_app. cbn [length]. lia.
Qed.

(** The last label: the zero byte behind it needs one byte more than the block
    was asked for. *)
Lemma convert_last pre x names :
  let n := Z.of_nat (length x) in
  let start := Z.of_nat (length pre) in
  label_ok x → Z.of_nat (length names) < 255 →
  convert_loop usable (pre ++ x) (x ++ [0]) start start names (Z.of_nat (length names))
  = (if n <? usable n then Some (names ++ [x], Z.of_nat (length (names ++ [x])), false) else None).
Proof.
  intros n start [Hne Hx] Hn. destruct (exists_last Hne) as (xs & c & E). rewrite E in Hx.
  apply Forall_app in Hx as [Hxs [[Hc0 Hcd] _]%Forall_cons].
  assert (x ++ [0] = xs ++ c :: [0]) as -> by (by rewrite E, <-app_assoc).
  rewrite convert_scan by done. cbn [convert_loop head mbind option_bind].
  rewrite (proj2 (Z.eqb_neq c DOT)) by done. cbn [andb orb Z.eqb negb]. rewrite andb_false_r. unfold make_sub.
  assert (start + Z.of_nat (length xs) - start + 1 = n) as -> by (unfold n; rewrite E, length_app; cbn [length]; lia).
  destruct (n <? usable n) eqn:Eu; [|done]. cbn [mbind option_bind].
  pose proof (take_label pre x [] n start eq_refl eq_refl) as Et. rewrite app_nil_r in Et. rewrite Et.
  rewrite Nat2Z.id, firstn_all. do 2 f_equal. rewrite u8_small by (unfold is_byte; lia). rewrite length_app. cbn [length].
  f_equal. lia.
Qed.

Lemma convert_labels labels pre names last :
  Forall label_ok labels → Z.of_nat (length names + length labels) <= 255 → list.last labels = Some last →
  let n := Z.of_nat (length last) in
  let start := Z.of_nat (length pre) in
  convert_loop usable (pre ++ join labels) (join labels ++ [0]) start start names (Z.of_nat (length names))
  = (if n <? usable n then Some (names ++ labels, Z.of_nat (length (names ++ labels)), false) else None).
Proof.
  revert pre names. induction labels as [|x labels IH]; intros pre names Hl Hn Hlast n start; [done|].
  apply Forall_cons in Hl as [Hx Hl]. destruct labels as [|y labels].
  - injection Hlast as <-. apply convert_last; [done|]. cbn [length] in Hn. lia.
  - rewrite join_cons, <-app_assoc. cbn [app].
    rewrite convert_label; [|done|apply join_head; [done|done]|cbn [length] in Hn; lia].
    specialize (IH (pre ++ x ++ [DOT]) (names ++ [x]) Hl).
    rewrite !length_app in IH. cbn [length] in *.
    replace (Z.of_nat (length pre) + Z.of_nat (length x) + 1) with (Z.of_nat (length pre + (length x + 1))) by lia.
    replace (pre ++ x ++ DOT :: join (y :: labels)) with ((pre ++ x ++ [DOT]) ++ join (y :: labels)) by (by rewrite <-!app_assoc).
    rewrite (length_app names [x]). cbn [length]. rewrite IH; [|lia|done]. fold n.
    rewrite <-app_assoc, length_app. cbn [app length]. by replace (length names + 1 + S (length labels))%nat with (length names + S (S (length labels)))%nat by lia.
Qed.

(** The host name of labels that agree with the rules. *)
Lemma convert_host data labels last :
  Forall label_ok labels → Z.of_nat (length labels) <= 255 → list.last labels = Some last →
  gd_hostname data = join labels →
  dns_convert_groos_dns_to_db_entry usable data
  = (if Z.of_nat (length last) <? usable (Z.of_nat (length last))
     then Some (DnsEntry labels (Z.of_nat (length labels)) (u16 (gd_type data)) (u16 (gd_class data)) (gd_ip data), false)
     else None).
Proof.
  intros Hl Hn Hlast Hh. unfold dns_convert_groos_dns_to_db_entry. rewrite Hh.
  pose proof (convert_labels labels [] [] last Hl Hn Hlast) as E. cbn [app length] in E. change (Z.of_nat 0) with 0 in E.
  rewrite E. by destruct (_ <? _).
Qed.
End convert.

(** * The database *)

Definition db (w : world) : list dns_db_entry := packet (dns_db (w_router w)).

(** Entries with names that can be written to the file. *)
Record db_ok (w : world) : Prop := {
  db_queue : wf_queue sizeof_dns_db_entry (dns_db (w_router w));
  db_counts : Forall wf_db_entry (db w);
  db_lines : Forall (λ e, is_Some (print_db_line e)) (db w)
}.

(** The same entry, with names compared as C strings. *)
Definition same_entry (d e : dns_db_entry) : bool :=
  bool_decide (db_class d = db_class e ∧ db_type d = db_type e ∧ db_rdata d = db_rdata e) && same_name (db_names d) e.

Lemma names_same_spec l1 l2 pre1 pre2 :
  length l1 = length l2 → length pre1 = length pre2 →
  names_same (length l1) (length pre1) (pre1 ++ l1) (pre2 ++ l2) = Some (bool_decide (cstr <$> l1 = cstr <$> l2)).
Proof.
  revert l2 pre1 pre2. induction l1 as [|x l1 IH]; intros [|y l2] pre1 pre2 Hl Hp; try done.
  cbn [names_same length]. unfold name_at. rewrite list_lookup_middle by done.
  rewrite Hp, list_lookup_middle by done. cbn [mbind option_bind]. unfold strcmp_eq.
  rewrite !fmap_cons. case_bool_decide as Hxy.
  - specialize (IH l2 (pre1 ++ [x]) (pre2 ++ [y])). rewrite !length_app, !Nat.add_1_r, <-!app_assoc in IH. cbn [app] in IH.
    rewrite <-Hp, IH by (simpl in Hl; congruence). f_equal. apply bool_decide_ext. rewrite Hxy. split; [by intros ->|by intros [=]].
  - f_equal. symmetry. apply bool_decide_eq_false. by intros [= ? _].
Qed.

Lemma del_body_spec d i e s :
  wf_db_entry d → wf_db_entry e →
  del_body d i e s = if same_entry d e then (RemoveReturn, Some true) else (Unlock e, s).
Proof.
  intros Hd He. unfold del_body, same_entry. rewrite Hd, He.
  destruct (Z.eqb_spec (Z.of_nat (length (db_names d))) (Z.of_nat (length (db_names e)))) as [Hlen|Hlen]; cbn [andb].
  - destruct (Z.eqb_spec (db_class d) (db_class e)), (Z.eqb_spec (db_type d) (db_type e)), (Z.eqb_spec (db_rdata d) (db_rdata e));
      cbn [andb]; try (rewrite bool_decide_eq_false_2 by tauto; done).
    rewrite bool_decide_eq_true_2 by done. cbn [andb]. rewrite Nat2Z.id.
    rewrite (names_same_spec (db_names d) (db_names e) [] [] ltac:(lia) eq_refl
      : names_same (length (db_names d)) 0 (db_names d) (db_names e) = _). unfold same_name. by destruct (bool_decide _).
  - assert (same_name (db_names d) e = false) as ->; [|by rewrite andb_false_r].
    apply bool_decide_eq_false. intros E%(f_equal length). rewrite !length_fmap in E. lia.
Qed.

(** The loop removes the first entry that agrees, if there is one. *)
Lemma visit_del d i l :
  wf_db_entry d → Forall wf_db_entry l →
  (Forall (λ e, same_entry d e = false) l ∧ Spec.visit (del_body d) i l (Some false) = (l, Some false)) ∨
  (∃ l1 x l2, l = l1 ++ x :: l2 ∧ same_entry d x = true ∧ Forall (λ e, same_entry d e = false) l1 ∧
     Spec.visit (del_body d) i l (Some false) = (l1 ++ l2, Some true)).
Proof.
  intros Hd. revert i. induction l as [|e l IH]; intros i Hl; [by left|]. apply Forall_cons in Hl as [He Hl].
  cbn [Spec.visit]. rewrite del_body_spec by done. destruct (same_entry d e) eqn:Es.
  - right. by exists [], e, l.
  - destruct (IH (S i) Hl) as [[Hno ->]|(l1 & x & l2 & -> & Hx & Hno & ->)]; [left|right].
    + by split; [constructor|].
    + exists (e :: l1), x, l2. split_and!; try done. by constructor.
Qed.

Lemma save_run w :
  db_ok w → ∃ w' lines, dns_save_changes w = Ok lines w' ∧ db w' = db w ∧ db_ok w' ∧
    Some <$> lines = print_db_line <$> db w.
Proof.
  intros [Hq Hc Hl]. unfold dns_save_changes. mrun.
  destruct (for_locked_M_spec _ (λ (i : nat) entry lines, l ← in_bounds (print_db_line entry); mret (lines ++ [l]))
    (dns_db (w_router w)) ([] : list (list Z)) w Hq) as (q' & Hq' & Hp & E).
  assert (∃ lines, for_array (λ (i : nat) entry lines, l ← in_bounds (print_db_line entry); mret (lines ++ [l])) 0
      (db w) ([] : list (list Z)) w = Ok lines w ∧ Some <$> lines = print_db_line <$> db w) as (lines & Ef & El).
  { clear E. change (db w) with (packet (dns_db (w_router w))) in *. revert Hl. generalize (packet (dns_db (w_router w))) as l.
    assert (∀ l i acc, Forall (λ e, is_Some (print_db_line e)) l →
      ∃ lines, for_array (λ (i : nat) entry lines, l ← in_bounds (print_db_line entry); mret (lines ++ [l])) i l acc w
        = Ok (acc ++ lines) w ∧ Some <$> lines = print_db_line <$> l) as Hgen.
    { induction l as [|e l IH]; intros i acc Hl; [exists []; by rewrite app_nil_r|].
      apply Forall_cons in Hl as [[x Hx] Hl]. cbn [for_array]. mrun. mstep Hx. mrun.
      destruct (IH (S i) (acc ++ [x]) Hl) as (lines & -> & Hlines). exists (x :: lines). rewrite <-app_assoc.
      split; [done|]. rewrite !fmap_cons. by rewrite Hx, Hlines. }
    intros l Hl. destruct (Hgen l 0%nat [] Hl) as (lines & -> & ?). by exists lines. }
  unfold db in Ef. rewrite Ef in E. mstep E. mrun. eexists _, lines. split; [reflexivity|].
  unfold db. cbn. rewrite Hp. split_and!; [done| |done].
  split; unfold db; cbn; rewrite ?Hp; done.
Qed.

(** ** Lines of the file *)

Lemma cstr_label_ok x : Forall label_byte x → cstr x = x.
Proof.
  induction 1 as [|b x [Hb _] _ IH]; [done|]. cbn. destruct (Z.eqb_spec b 0); [done|]. by rewrite IH.
Qed.

Lemma join_names_spec labels pre count :
  Forall label_ok labels → count = Z.of_nat (length pre + length labels) →
  join_names (length labels) (length pre) count (pre ++ labels) = Some (join labels).
Proof.
  revert pre. induction labels as [|x labels IH]; intros pre Hl Hc; [done|].
  apply Forall_cons in Hl as [[_ Hx] Hl]. cbn [join_names length]. unfold name_at.
  rewrite list_lookup_middle by done. cbn [mbind option_bind].
  specialize (IH (pre ++ [x]) Hl). rewrite length_app, <-app_assoc, Nat.add_1_r in IH. cbn [app length] in IH, Hc.
  rewrite IH by lia. cbn [mbind option_bind]. rewrite cstr_label_ok by done.
  destruct labels as [|y labels]; cbn [length] in Hc.
  - rewrite (proj2 (Z.eqb_eq _ _)) by lia. cbn. by rewrite app_nil_r.
  - rewrite (proj2 (Z.eqb_neq _ _)) by lia. done.
Qed.

Lemma printable labels t cl ip :
  Forall label_ok labels → (length (join labels) <= 255)%nat →
  is_Some (print_db_line (DnsEntry labels (Z.of_nat (length labels)) t cl ip)).
Proof.
  intros Hl Hn. unfold print_db_line, concat_names. cbn [db_names db_count]. rewrite Nat2Z.id.
  pose proof (join_names_spec labels [] _ Hl eq_refl) as E. cbn [app length Nat.add] in E. rewrite E. cbn [mbind option_bind].
  destruct (Nat.leb_spec (length (join labels)) 255); [by eexists|lia].
Qed.

Section commands.
Context (usable : Z → Z) (usable_enough : ∀ n, n <= usable n) (opened closed : bool).

Lemma tell_run w :
  db_ok w → ∃ r w', save_and_tell opened closed w = Ok r w' ∧ db w' = db w ∧ db_ok w' ∧ (r.1 = Done ∨ r.1 = DoneWithoutSaving).
Proof.
  intros Hok. unfold save_and_tell. destruct opened; [|by eexists (_, _), w; split_and!; [..|right]].
  destruct (save_run w Hok) as (w' & lines & E & Hd & Hok' & _). mstep E.
  eexists (_, _), w'. split; [reflexivity|]. split_and!; [done|done|]. destruct closed; [by left|by right].
Qed.

(** With room for the zero byte behind the last label. *)
Lemma dns_add_then_del_room data labels last w :
  let e := DnsEntry labels (Z.of_nat (length labels)) (u16 (gd_type data)) (u16 (gd_class data)) (gd_ip data) in
  Forall label_ok labels → Z.of_nat (length labels) <= 255 → list.last labels = Some last →
  gd_hostname data = join labels → (length (join labels) <= 255)%nat →
  Z.of_nat (length last) < usable (Z.of_nat (length last)) → db_ok w →
  ∃ r1 w1 r2 w2,
    cli_manip_dns_add usable opened closed data w = Ok r1 w1 ∧ (r1.1 = Done ∨ r1.1 = DoneWithoutSaving) ∧
    db w1 = db w ++ [e] ∧
    cli_manip_dns_del usable opened closed data w1 = Ok r2 w2 ∧ (r2.1 = Done ∨ r2.1 = DoneWithoutSaving) ∧
    ∃ l1 x l2, db w ++ [e] = l1 ++ x :: l2 ∧ same_entry e x = true ∧ Forall (λ y, same_entry e y = false) l1 ∧
      db w2 = l1 ++ l2.
Proof.
  intros e Hl Hn Hlast Hh Hlen Hu Hok.
  assert (dns_convert_groos_dns_to_db_entry usable data = Some (e, false)) as Econv.
  { rewrite (convert_host usable usable_enough data labels last) by done. by rewrite (proj2 (Z.ltb_lt _ _)). }
  assert (wf_db_entry e) as Hwe by done.
  unfold cli_manip_dns_add. mstep Econv. mrun.
  set (w0 := set_w_router _ w). destruct (queue_add_spec sizeof_dns_db_entry (dns_db (w_router w)) e (db_queue _ Hok)) as [Hq0 Hp0].
  assert (db w0 = db w ++ [e]) as Hd0 by exact Hp0. assert (db_ok w0) as Hok0.
  { destruct Hok as [_ Hc Hp]. split; [exact Hq0|rewrite Hd0..]; apply Forall_app; (split; [done|]); constructor; try done.
    by apply printable. }
  destruct (tell_run w0 Hok0) as (r1 & w1 & E1 & Hd1 & Hok1 & Hr1). exists r1, w1. unfold cli_manip_dns_del.
  destruct (queue_foreach_visit sizeof_dns_db_entry (del_body e) (dns_db (w_router w1)) (Some false) (db_queue _ Hok1))
    as (q & Eq & Hq & Hpq).
  assert (packet (dns_db (w_router w1)) = db w ++ [e]) as Hd1' by (by rewrite <-Hd0, <-Hd1). rewrite Hd1' in Eq, Hpq.
  pose proof (db_counts _ Hok0) as Hwf. pose proof (db_lines _ Hok0) as Hpr. rewrite Hd0 in Hwf, Hpr.
  destruct (visit_del e 0 (db w ++ [e]) Hwe Hwf) as [[Hno _]|(l1 & x & l2 & El & Hx & Hno & Ev)].
  { exfalso. apply Forall_app in Hno as [_ [He _]%Forall_cons]. unfold same_entry, same_name in He.
    rewrite !bool_decide_eq_true_2 in He by done. done. }
  rewrite Ev in Eq, Hpq. cbn [fst snd] in Eq, Hpq.
  assert (db_ok (set_w_router (set_dns_db q (w_router w1)) w1)) as Hok2.
  { rewrite El in Hwf, Hpr. apply Forall_app in Hwf as [Hf1 [_ Hf2]%Forall_cons], Hpr as [Hg1 [_ Hg2]%Forall_cons].
    split; [exact Hq|unfold db; cbn; rewrite Hpq..]; by apply Forall_app. }
  destruct (tell_run _ Hok2) as (r2 & w2 & E2 & Hd2 & _ & Hr2). exists r2, w2.
  split_and!; [done|done|by rewrite Hd1| |done|].
  - mstep Econv. mrun. mstep Eq. mrun. exact E2.
  - exists l1, x, l2. split_and!; try done. rewrite Hd2. unfold db. cbn. by rewrite Hpq.
Qed.

(** C33: the commands on the DNS database, for a host name of labels between dots
    with whatever blocks [malloc] gives.  The block asked for the last label has
    no room for the zero byte behind it.  When [malloc] happens to give more, the
    name is split into exactly its labels, adding it appends one entry with them,
    and deleting the same data removes the first entry with these labels, class,
    type and address, and nothing else.  When it gives what it was asked for,
    adding and deleting write behind the block. *)
Theorem cli_dns_add_then_del data labels last w :
  let e := DnsEntry labels (Z.of_nat (length labels)) (u16 (gd_type data)) (u16 (gd_class data)) (gd_ip data) in
  Forall label_ok labels → Z.of_nat (length labels) <= 255 → list.last labels = Some last →
  gd_hostname data = join labels → (length (join labels) <= 255)%nat → db_ok w →
  if usable (Z.of_nat (length last)) =? Z.of_nat (length last) then
    cli_manip_dns_add usable opened closed data w = Fault OutOfBounds ∧
    cli_manip_dns_del usable opened closed data w = Fault OutOfBounds
  else ∃ r1 w1 r2 w2,
    cli_manip_dns_add usable opened closed data w = Ok r1 w1 ∧ (r1.1 = Done ∨ r1.1 = DoneWithoutSaving) ∧
    db w1 = db w ++ [e] ∧
    cli_manip_dns_del usable opened closed data w1 = Ok r2 w2 ∧ (r2.1 = Done ∨ r2.1 = DoneWithoutSaving) ∧
    ∃ l1 x l2, db w ++ [e] = l1 ++ x :: l2 ∧ same_entry e x = true ∧ Forall (λ y, same_entry e y = false) l1 ∧
      db w2 = l1 ++ l2.
Proof.
  intros e Hl Hn Hlast Hh Hlen Hok. pose proof (usable_enough (Z.of_nat (length last))).
  destruct (Z.eqb_spec (usable (Z.of_nat (length last))) (Z.of_nat (length last))) as [Hu|Hu].
  - unfold cli_manip_dns_add, cli_manip_dns_del.
    rewrite (convert_host usable usable_enough data labels last) by done. by rewrite Hu, Z.ltb_irrefl.
  - apply (dns_add_then_del_room data labels last w); try done. lia.
Qed.

(** The zero byte behind the last label is written behind the block when the
    allocator gives exactly what was asked for. *)
Theorem cli_dns_add_overflows data labels last w :
  Forall label_ok labels → Z.of_nat (length labels) <= 255 → list.last labels = Some last →
  gd_hostname data = join labels → usable (Z.of_nat (length last)) = Z.of_nat (length last) →
  cli_manip_dns_add usable opened closed data w = Fault OutOfBounds.
Proof.
  intros Hl Hn Hlast Hh Hu. unfold cli_manip_dns_add.
  rewrite (convert_host usable usable_enough data labels last) by done. rewrite Hu, Z.ltb_irrefl. done.
Qed.
End commands.

(** ["ns.lan"], with an allocator that keeps 8 bytes of blocks of multiples of 16. *)
Definition sample_usable (n : Z) : Z := Z.max 24 ((n + 23) / 16 * 16 - 8).

Lemma sample_usable_enough n : n <= sample_usable n.
Proof. unfold sample_usable. Z.to_euclidean_division_equations. lia. Qed.

Definition sample_data : gross_dns_t := GrossDns ip0 [110; 115; 46; 108; 97; 110] 1 1.

Lemma cli_dns_add_then_del_witness :
  ∃ r1 w1 r2 w2,
    cli_manip_dns_add sample_usable true true sample_data dns_world = Ok r1 w1 ∧ length (db w1) = 2%nat ∧
    cli_manip_dns_del sample_usable true true sample_data w1 = Ok r2 w2 ∧ length (db w2) = 1%nat.
Proof.
  pose proof (cli_dns_add_then_del sample_usable sample_usable_enough
    true true sample_data sample_name [108; 97; 110] dns_world) as H.
  change (sample_usable _ =? _) with false in H. destruct H as (r1 & w1 & r2 & w2 & E1 & _ & Hd1 & E2 & _ & l1 & x & l2 & El & _ & _ & Hd2).
  - repeat constructor; done.
  - vm_compute. discriminate.
  - done.
  - done.
  - vm_compute. lia.
  - split; [apply queue_of_wf|repeat constructor|constructor; [|constructor]]. vm_compute. by eexists.
  - exists r1, w1, r2, w2. apply (f_equal length) in El. rewrite length_app in El. cbn in El.
    split_and!; [done|by rewrite Hd1, length_app|done|]. rewrite Hd2, length_app. rewrite !length_app in El. cbn [length] in El. lia.
Defined.

(** With that allocator a name that ends in a label of 24 bytes does it. *)
Example cli_dns_label_of_24 :
  cli_manip_dns_add sample_usable true true (GrossDns ip0 (replicate 24 97) 1 1) dns_world = Fault OutOfBounds.
Proof.
  apply (cli_dns_add_overflows sample_usable sample_usable_enough true true _ [replicate 24 97] (replicate 24 97)).
  - repeat constructor; done.
  - vm_compute. discriminate.
  - done.
  - done.
  - done.
Qed.
