(* ===== verification/Sockets.v ===== *)
(** Sockets of the TCP stack (lwtcp/sockets.c, and the functions of
    lwtcp/api_lib.c that receive and write).

    The application's side of a connection.  The stack runs in another thread:
    what it has put into a receive mailbox is a list of messages (the chain of
    buffers of a segment, or the null pointer when the connection has ended), and
    what it answers to a write is a list of rounds, in which every read of a
    variable that the other thread changes has its own value.  A list that has
    come to its end is a call that waits.  [allocs] are the results of the next
    allocations from the pools, those of [transport_apimsg] for a message to the
    stack included; without one the message is not posted and never answered.  The bytes of a buffer are a list; its length is
    the field [len]. *)

From Stdlib Require Import ZArith Lia.
From stdpp Require Import base tactics numbers gmap option list.
From S2P Require Import Prelude Tcp.

Local Open Scope Z_scope.

Abbreviation chain := (list (list Z)).

Definition NUM_SOCKETS : Z := 10.

#[global] Instance err_eq_dec : EqDecision err.
Proof. solve_decision. Defined.

Definition is_ok (e : err) : bool := bool_decide (e = ERR_OK).

Inductive netconn_type := NETCONN_TCP | NETCONN_UDP | NETCONN_UDPLITE | NETCONN_UDPNOCHKSUM.

#[global] Instance netconn_type_eq_dec : EqDecision netconn_type.
Proof. solve_decision. Defined.

(** What the stack answers to one round of the loop of [netconn_write]: the
    three reads of [tcp_sndbuf], and [conn->err] after a wait for room, after the
    message was handled, and at the next test of the loop. *)
Record round := Round {
  sb_test : Z;
  err_wake : err;
  sb_compare : Z;
  sb_length : Z;
  err_write : err;
  err_next : err
}.

(** [listening] is [conn->pcb.tcp->state == LISTEN], and [None] when the pointer
    to the block is null. *)
Record netconn := Netconn {
  nc_type : netconn_type;
  nc_err : err;
  recvmbox : option (list (option chain));
  listening : option bool;
  rounds : list round
}.

Record lwip_socket := Socket { conn : option Z; lastdata : option chain; lastoffset : Z }.

Record lwip := Lwip {
  sockets : list lwip_socket;
  conns : gmap Z netconn;
  allocs : list bool;
  recved : list Z;
  written : list (list Z)
}.

Inductive result (A : Type) := Ret (a : A) (s : lwip) | Blocks | Crashes.
Arguments Ret {A} a s.
Arguments Blocks {A}.
Arguments Crashes {A}.

Definition LM (A : Type) : Type := lwip → result A.

#[global] Instance lm_ret : MRet LM := λ A a s, Ret a s.
#[global] Instance lm_bind : MBind LM := λ A B f m s,
  match m s with Ret a s => f a s | Blocks => Blocks | Crashes => Crashes end.

Definition crash {A} : LM A := λ _, Crashes.
Definition block {A} : LM A := λ _, Blocks.

Definition set_sockets (v : list lwip_socket) (s : lwip) : lwip := Lwip v (conns s) (allocs s) (recved s) (written s).
Definition set_conns (v : gmap Z netconn) (s : lwip) : lwip := Lwip (sockets s) v (allocs s) (recved s) (written s).

(** [memp_mallocp], as far as it succeeds. *)
Definition pool_alloc : LM bool := λ s,
  match allocs s with
  | [] => Blocks
  | b :: l => Ret b (Lwip (sockets s) (conns s) l (recved s) (written s))
  end.

Definition get_conn (c : Z) : LM netconn := λ s,
  match conns s !! c with Some k => Ret k s | None => Crashes end.
Definition put_conn (c : Z) (f : netconn → netconn) : LM unit := λ s,
  match conns s !! c with Some k => Ret tt (set_conns (<[c := f k]> (conns s)) s) | None => Crashes end.

Definition set_err (e : err) (k : netconn) : netconn := Netconn (nc_type k) e (recvmbox k) (listening k) (rounds k).
Definition set_recvmbox (v : option (list (option chain))) (k : netconn) : netconn :=
  Netconn (nc_type k) (nc_err k) v (listening k) (rounds k).
Definition set_rounds (v : list round) (k : netconn) : netconn :=
  Netconn (nc_type k) (nc_err k) (recvmbox k) (listening k) v.

(** * The table of sockets *)

(** The place in the table; an index outside of it is an access outside of the
    array. *)
Definition get_socket (s : Z) : LM (option (lwip_socket * Z)) := λ st,
  if NUM_SOCKETS <? s then Ret None st
  else if s <? 0 then Crashes
  else
    match sockets st !! Z.to_nat s with
    | None => Crashes
    | Some sock => Ret (match conn sock with None => None | Some c => Some (sock, c) end) st
    end.

Definition put_socket (s : Z) (v : lwip_socket) : LM unit := λ st,
  Ret tt (set_sockets (<[Z.to_nat s := v]> (sockets st)) st).

(** The first free place from [i] on. *)
Fixpoint free_socket (l : list lwip_socket) (i : Z) : option Z :=
  match l with
  | [] => None
  | sock :: l => match conn sock with None => Some i | Some _ => free_socket l (i + 1) end
  end.

Definition alloc_socket (newconn : Z) : LM Z := λ st,
  match free_socket (sockets st) 0 with
  | None => Ret (-1) st
  | Some i => Ret i (set_sockets (<[Z.to_nat i := Socket (Some newconn) None 0]> (sockets st)) st)
  end.

(** * Receiving *)

Definition chain_len (c : chain) : Z := u16 (foldr (λ b n, Z.of_nat (length b) + n) 0 c).

(** The inner loop of [netbuf_copy_partial]: the bytes copied, the new [left],
    and whether the function returns. *)
Fixpoint copy_bytes (bytes : list Z) (len left : Z) : list Z * Z * bool :=
  match bytes with
  | [] => ([], left, false)
  | b :: bytes =>
      let left := left + 1 in
      if len <=? left then ([b], left, true)
      else let '(got, k, stop) := copy_bytes bytes len left in (b :: got, k, stop)
  end.

(** The outer loop. *)
Fixpoint copy_chain (c : chain) (len left offset : Z) : list Z :=
  match c with
  | [] => []
  | b :: c =>
      if left <? len then
        if negb (offset =? 0) && (Z.of_nat (length b) <=? offset)
        then copy_chain c len left (offset - Z.of_nat (length b))
        else
          let '(got, k, stop) := copy_bytes (drop (Z.to_nat offset) b) len left in
          got ++ (if stop : bool then [] else copy_chain c len k offset)
      else []
  end.

(** What is written to the start of [dataptr]. *)
Definition netbuf_copy_partial (c : chain) (len offset : Z) : list Z := copy_chain c len 0 offset.

(** [API_MSG_RECV]: the stack counts the bytes that were taken. *)
Definition tell_recved (len : Z) : LM unit := λ s,
  Ret tt (Lwip (sockets s) (conns s) (allocs s) (recved s ++ [len]) (written s)).

(** [api_msg_post] and the wait for the answer: the stack answers what it gets. *)
Definition post_and_wait (effect : LM unit) : LM unit :=
  posted ← pool_alloc;
  if negb posted then block else effect.

Definition netconn_recv (c : Z) : LM (option chain) :=
  k ← get_conn c;
  match recvmbox k with
  | None => put_conn c (set_err ERR_CONN);; mret None
  | Some messages =>
      if negb (is_ok (nc_err k)) then mret None
      else if decide (nc_type k = NETCONN_TCP) then
        match listening k with
        | None => crash
        | Some true => put_conn c (set_err ERR_CONN);; mret None
        | Some false =>
            got ← pool_alloc;
            if negb got then put_conn c (set_err ERR_MEM);; mret None
            else
              match messages with
              | [] => block
              | None :: _ => put_conn c (set_recvmbox None);; mret None
              | Some p :: messages =>
                  put_conn c (set_recvmbox (Some messages));;
                  msg ← pool_alloc;
                  if negb msg then put_conn c (set_err ERR_MEM);; mret (Some p)
                  else post_and_wait (tell_recved (chain_len p));; mret (Some p)
              end
        end
      else
        match messages with
        | [] => block
        | m :: messages => put_conn c (set_recvmbox (Some messages));; mret m
        end
  end.

(** [lwip_recvfrom] without an address: the number of bytes and what was
    written to the caller's memory. *)
Definition lwip_recv (s len : Z) : LM (Z * list Z) :=
  found ← get_socket s;
  match found with
  | None => mret (-1, [])
  | Some (sock, c) =>
      buf ← (match lastdata sock with Some b => mret (Some b) | None => netconn_recv c end);
      match buf with
      | None => mret (0, [])
      | Some buf =>
          k ← get_conn c;
          let buflen := u16 (chain_len buf - lastoffset sock) in
          let copylen := if buflen <? len then buflen else u16 len in
          let mem := netbuf_copy_partial buf copylen (lastoffset sock) in
          (if decide (nc_type k = NETCONN_TCP ∧ 0 < buflen - copylen)
           then put_socket s (Socket (Some c) (Some buf) (u16 (lastoffset sock + copylen)))
           else put_socket s (Socket (Some c) None 0));;
          mret (if copylen <? len then copylen else len, mem)
      end
  end.

Definition lwip_read (s len : Z) : LM (Z * list Z) := lwip_recv s len.

(** * Writing *)

(** [API_MSG_WRITE]: what the stack is given, when it takes it. *)
Definition tell_write (data : list Z) : LM unit := λ s,
  Ret tt (Lwip (sockets s) (conns s) (allocs s) (recved s) (written s ++ [data])).

(** The next answer of the stack. *)
Definition next_round (c : Z) : LM round :=
  k ← get_conn c;
  match rounds k with
  | [] => block
  | r :: l => put_conn c (set_rounds l);; mret r
  end.

(** [memory] is what lies at [dataptr]: the caller's data and what is behind it. *)
Fixpoint write_loop (fuel : nat) (c : Z) (tcp : bool) (memory : list Z) (size : Z) : LM unit :=
  match fuel with
  | O => block
  | S fuel =>
      k ← get_conn c;
      if is_ok (nc_err k) && (0 <? size) then
        r ← next_round c;
        if tcp && (sb_test r =? 0) && negb (is_ok (err_wake r)) then put_conn c (set_err (err_wake r))
        else
          let len := if tcp && (sb_compare r <? size) then sb_length r else size in
          if is_ok (err_write r) then
            if (Z.of_nat (length memory) <? len) then crash
            else
              tell_write (take (Z.to_nat len) memory);;
              put_conn c (set_err (err_next r));;
              write_loop fuel c tcp (drop (Z.to_nat len) memory) (u16 (size - len))
          else if decide (err_write r = ERR_MEM) then
            put_conn c (set_err (err_next r));;
            write_loop fuel c tcp memory size
          else put_conn c (set_err (err_write r))
      else mret tt
  end.

(** Every round of the loop uses one answer of the stack. *)
Definition netconn_write (c : Z) (memory : list Z) (size : Z) : LM err :=
  k ← get_conn c;
  if negb (is_ok (nc_err k)) then mret (nc_err k)
  else
    msg ← pool_alloc;
    if negb msg then put_conn c (set_err ERR_MEM);; mret ERR_MEM
    else
      write_loop (S (length (rounds k))) c (bool_decide (nc_type k = NETCONN_TCP)) memory (u16 size);;
      k ← get_conn c;
      mret (nc_err k).

(** [netconn_send] with the buffer of a datagram. *)
Definition netconn_send (c : Z) (data : list Z) : LM err :=
  k ← get_conn c;
  if negb (is_ok (nc_err k)) then mret (nc_err k)
  else
    msg ← pool_alloc;
    if negb msg then put_conn c (set_err ERR_MEM);; mret ERR_MEM
    else post_and_wait (tell_write data);; mret (nc_err k).

(** [netbuf_ref]: the length of a buffer has 16 bits; the structure of the
    buffer is used without a test. *)
Definition send_datagram (c : Z) (memory : list Z) (size : Z) : LM Z :=
  buf ← pool_alloc;
  if negb buf then mret (-1)
  else
    p ← pool_alloc;
    if negb p then crash
    else if Z.of_nat (length memory) <? u16 size then crash
    else
      e ← netconn_send c (take (Z.to_nat (u16 size)) memory);
      mret (if is_ok e then size else -1).

(** [lwip_send] and [lwip_write] do the same; the size is an [int]. *)
Definition lwip_write (s : Z) (memory : list Z) (size : Z) : LM Z :=
  found ← get_socket s;
  match found with
  | None => mret (-1)
  | Some (sock, c) =>
      k ← get_conn c;
      match nc_type k with
      | NETCONN_UDP => send_datagram c memory size
      | NETCONN_TCP => e ← netconn_write c memory size; mret (if is_ok e then size else -1)
      | _ => mret (-1)
      end
  end.
