(* ===== verification/SocketsProps.v ===== *)
(** What an application reads from a socket and what it writes to one.

    When the stack delivers segments of one buffer each, reads of any lengths
    return the stream, in order and without gaps ([socket_reads_stream]); a
    segment of several buffers is read wrongly from the second read on
    ([socket_chain_garbled]).  A write hands the caller's bytes to the stack,
    in order and each once ([socket_write_hands_over]), unless an acknowledgement
    arrives at the wrong moment ([socket_write_race]). *)

From Stdlib Require Import ZArith Lia.
From stdpp Require Import base tactics numbers gmap option list.
From S2P Require Import Prelude Tcp Sockets.

Local Open Scope Z_scope.

(** Run the statements around a call. *)
Ltac lm := unfold mbind, lm_bind, mret, lm_ret; cbv beta iota.

(** * Copying *)

Lemma copy_bytes_spec bytes len left :
  left < len →
  copy_bytes bytes len left =
    (take (Z.to_nat (len - left)) bytes, left + Z.of_nat (length (take (Z.to_nat (len - left)) bytes)),
     bool_decide (len - left <= Z.of_nat (length bytes))).
Proof.
  revert left. induction bytes as [|b bytes IH]; intros left Hl; cbn [copy_bytes].
  { rewrite take_nil, bool_decide_eq_false_2 by (cbn; lia). cbn. by rewrite Z.add_0_r. }
  replace (Z.to_nat (len - left)) with (S (Z.to_nat (len - (left + 1)))) by lia. cbn [take length].
  destruct (Z.leb_spec len (left + 1)) as [Hle|Hgt].
  - replace (Z.to_nat (len - (left + 1))) with 0%nat by lia. rewrite take_0, bool_decide_eq_true_2 by lia. cbn. by repeat f_equal.
  - rewrite IH by lia. f_equal; [f_equal; lia|]. apply bool_decide_ext. lia.
Qed.

(** From the start of a chain, or inside of its only buffer, the bytes of the
    chain are copied. *)
Lemma copy_chain_start c len left :
  left < len → copy_chain c len left 0 = take (Z.to_nat (len - left)) (concat c).
Proof.
  revert left. induction c as [|b c IH]; intros left Hl; cbn [copy_chain concat]; [by rewrite take_nil|].
  rewrite (proj2 (Z.ltb_lt _ _)) by done. cbn [Z.eqb negb andb]. rewrite drop_0, copy_bytes_spec by done. rewrite take_app.
  case_bool_decide as Hd.
  - rewrite app_nil_r. replace (Z.to_nat (len - left) - length b)%nat with 0%nat by lia. by rewrite take_0, app_nil_r.
  - rewrite take_ge by lia. rewrite IH by lia. do 2 f_equal. lia.
Qed.

Lemma copy_single b len offset :
  0 < len → 0 <= offset → offset + len <= Z.of_nat (length b) →
  netbuf_copy_partial [b] len offset = take (Z.to_nat len) (drop (Z.to_nat offset) b).
Proof.
  intros Hl Ho Hb. unfold netbuf_copy_partial. cbn [copy_chain]. rewrite (proj2 (Z.ltb_lt _ _)) by done.
  rewrite (proj2 (Z.leb_gt _ _)), andb_false_r by lia. rewrite copy_bytes_spec, Z.sub_0_r by done.
  rewrite bool_decide_eq_true_2 by (rewrite length_drop; lia). by rewrite app_nil_r.
Qed.

Lemma chain_len_single b : Z.of_nat (length b) < 65536 → chain_len [b] = Z.of_nat (length b).
Proof. intros Hb. unfold chain_len. cbn [foldr]. rewrite Z.add_0_r. apply u16_small. unfold is_u16. lia. Qed.

(** * Reading *)

(** The data of a segment in one buffer. *)
Definition segment_ok (b : list Z) : Prop := (1 <= length b)%nat ∧ Z.of_nat (length b) < 65536.

(** A connected socket; [data] is what was received and not yet read. *)
Definition readable (st : lwip) (s : Z) (data : list Z) : Prop :=
  ∃ c k sock segs, 0 <= s < NUM_SOCKETS ∧ sockets st !! Z.to_nat s = Some sock ∧ conn sock = Some c ∧
    conns st !! c = Some k ∧ nc_type k = NETCONN_TCP ∧ nc_err k = ERR_OK ∧ listening k = Some false ∧
    recvmbox k = Some ((λ b, Some [b]) <$> segs) ∧ Forall segment_ok segs ∧
    match lastdata sock with
    | None => lastoffset sock = 0 ∧ data = concat segs
    | Some buf => ∃ b, buf = [b] ∧ segment_ok b ∧ 0 < lastoffset sock < Z.of_nat (length b) ∧
        data = drop (Z.to_nat (lastoffset sock)) b ++ concat segs
    end.

Lemma get_socket_run st s sock c :
  0 <= s < NUM_SOCKETS → sockets st !! Z.to_nat s = Some sock → conn sock = Some c →
  get_socket s st = Ret (Some (sock, c)) st.
Proof.
  intros Hs E Hc. unfold get_socket. destruct (Z.ltb_spec NUM_SOCKETS s); [lia|]. destruct (Z.ltb_spec s 0); [lia|].
  by rewrite E, Hc.
Qed.

(** The end of a read: [len] bytes from the buffer [b] at [off]. *)
Definition finish_read (s len c : Z) (b : list Z) (off : Z) : LM (Z * list Z) :=
  k ← get_conn c;
  let buflen := u16 (chain_len [b] - off) in
  let copylen := if buflen <? len then buflen else u16 len in
  let mem := netbuf_copy_partial [b] copylen off in
  (if decide (nc_type k = NETCONN_TCP ∧ 0 < buflen - copylen)
   then put_socket s (Socket (Some c) (Some [b]) (u16 (off + copylen)))
   else put_socket s (Socket (Some c) None 0));;
  mret (if copylen <? len then copylen else len, mem).

Lemma finish_read_run st s len c k b off segs sock :
  0 <= s < NUM_SOCKETS → sockets st !! Z.to_nat s = Some sock → conns st !! c = Some k →
  nc_type k = NETCONN_TCP → nc_err k = ERR_OK → listening k = Some false →
  recvmbox k = Some ((λ b, Some [b]) <$> segs) → Forall segment_ok segs →
  segment_ok b → 0 <= off < Z.of_nat (length b) → 1 <= len →
  ∃ out rest st', finish_read s len c b off st = Ret (Z.of_nat (length out), out) st' ∧
    drop (Z.to_nat off) b ++ concat segs = out ++ rest ∧ (1 <= length out)%nat ∧ Z.of_nat (length out) <= len ∧
    readable st' s rest ∧ allocs st' = allocs st.
Proof.
  intros Hs Hsock Hk Ht He Hl Hr Hsegs Hb Hoff Hlen. destruct Hb as [Hb1 Hb2].
  unfold finish_read. lm. unfold get_conn. rewrite Hk, Ht. rewrite chain_len_single by done.
  rewrite (u16_small (Z.of_nat (length b) - off)) by (unfold is_u16; lia).
  set (left := Z.of_nat (length b) - off). pose proof (lookup_lt_Some _ _ _ Hsock) as Hlt.
  assert (length (drop (Z.to_nat off) b) = Z.to_nat left) as Hd by (rewrite length_drop; lia).
  destruct (Z.ltb_spec left len) as [Hall|Hpart].
  - rewrite decide_False by lia. rewrite copy_single by lia. rewrite take_ge by lia.
    rewrite (proj2 (Z.ltb_lt left len)) by lia.
    eexists (drop (Z.to_nat off) b), (concat segs), _. rewrite Hd, Z2Nat.id by lia. split; [reflexivity|].
    split_and!; [done|lia|lia| |done].
    exists c, k, (Socket (Some c) None 0), segs. split; [done|]. cbn. rewrite list_lookup_insert_eq by done. by split_and!.
  - rewrite (u16_small len) by (unfold is_u16; lia). rewrite copy_single by lia. rewrite Z.ltb_irrefl.
    assert (length (take (Z.to_nat len) (drop (Z.to_nat off) b)) = Z.to_nat len) as Hto by (rewrite length_take; lia).
    destruct (decide (left = len)) as [El|El].
    + rewrite decide_False by lia. eexists (take (Z.to_nat len) (drop (Z.to_nat off) b)), (concat segs), _.
      rewrite Hto, Z2Nat.id by lia. split; [reflexivity|]. rewrite take_ge by lia. split_and!; [done|lia|lia| |done].
      exists c, k, (Socket (Some c) None 0), segs. split; [done|]. cbn. rewrite list_lookup_insert_eq by done. by split_and!.
    + rewrite decide_True by (split; [done|lia]).
      eexists (take (Z.to_nat len) (drop (Z.to_nat off) b)), (drop (Z.to_nat len) (drop (Z.to_nat off) b) ++ concat segs), _.
      rewrite Hto, Z2Nat.id by lia. split; [reflexivity|]. split_and!; [by rewrite app_assoc, take_drop|lia|lia| |done].
      exists c, k, (Socket (Some c) (Some [b]) (u16 (off + len))), segs. split; [done|]. cbn. rewrite list_lookup_insert_eq by done.
      rewrite (u16_small (off + len)) by (unfold is_u16; lia). split_and!; try done. exists b. split_and!; [done|by split|lia|lia|].
      rewrite drop_drop. do 2 f_equal. lia.
Qed.

(** One read. *)
Lemma read_step st s len data al :
  readable st s data → 1 <= len → allocs st = true :: true :: true :: al →
  match lwip_read s len st with
  | Ret (n, out) st' => n = Z.of_nat (length out) ∧ (1 <= length out)%nat ∧ n <= len ∧
      (∃ rest, data = out ++ rest ∧ readable st' s rest) ∧ (allocs st' = allocs st ∨ allocs st' = al)
  | Blocks => data = []
  | Crashes => False
  end.
Proof.
  intros (c & k & sock & segs & Hs & Hsock & Hc & Hk & Ht & He & Hl & Hr & Hsegs & Hlast) Hlen Hal.
  unfold lwip_read, lwip_recv. lm. rewrite (get_socket_run _ _ _ _ Hs Hsock Hc). destruct (lastdata sock) as [buf|].
  - destruct Hlast as (b & -> & Hb & Hoff & ->). fold (finish_read s len c b (lastoffset sock)).
    destruct (finish_read_run st s len c k b (lastoffset sock) segs sock) as (out & rest & st' & E & Eo & H1 & H2 & Hre & Ha);
      [done..|lia|done|].
    unfold finish_read in E. revert E. lm. intros ->. split_and!; [done|done|done|by exists rest|by left].
  - destruct Hlast as [-> ->]. unfold netconn_recv. lm. unfold get_conn at 1. rewrite Hk, Hr, He. cbn [is_ok].
    unfold is_ok. rewrite bool_decide_eq_true_2 by done. cbn [negb]. rewrite decide_True by done. rewrite Hl.
    unfold pool_alloc at 1. rewrite Hal. cbn [negb]. destruct segs as [|b segs]; [done|]. cbn [fmap list_fmap].
    apply Forall_cons in Hsegs as [Hb Hsegs]. unfold put_conn at 1. cbn [conns]. rewrite Hk. unfold pool_alloc at 1.
    cbn [allocs set_conns negb]. unfold post_and_wait. lm. unfold pool_alloc at 1. cbn [allocs set_conns negb].
    unfold tell_recved at 1. cbn [sockets conns allocs recved written].
    set (st1 := Lwip _ _ al _ _). fold (finish_read s len c b 0).
    set (k1 := set_recvmbox (Some ((λ b, Some [b]) <$> segs)) k).
    destruct (finish_read_run st1 s len c k1 b 0 segs sock) as (out & rest & st' & E & Eo & H1 & H2 & Hre & Ha);
      [done|done|by apply lookup_insert_eq|done|done|done|done|done|done|destruct Hb; lia|done|].
    unfold finish_read in E. revert E. lm. intros ->. cbn [Z.to_nat drop] in Eo. split_and!; [done|done|done| |by right].
    exists rest. by rewrite <-Eo.
Qed.

(** Reads one after the other, with what each of them returned. *)
Fixpoint read_all (s : Z) (lens : list Z) : LM (list (Z * list Z)) :=
  match lens with
  | [] => mret []
  | len :: lens => r ← lwip_read s len; rs ← read_all s lens; mret (r :: rs)
  end.

(** C29: an application that reads from a connected socket gets the stream.
    Reads of any lengths return, one after the other, the bytes of the segments
    that the stack has delivered, in order and without a gap: each returns as
    many bytes as it says, at least one and no more than was asked for.  A read
    waits only when all that was delivered has been read.  This is for segments
    of one buffer each, as those that came in order, and as long as no allocation
    from the pools fails. *)
Theorem socket_reads_stream s lens st data :
  readable st s data → Forall (λ len, 1 <= len) lens →
  allocs st = replicate (3 * length lens) true →
  match read_all s lens st with
  | Ret rs st' =>
      (∃ rest, data = concat (snd <$> rs) ++ rest ∧ readable st' s rest) ∧
      Forall2 (λ len r, r.1 = Z.of_nat (length r.2) ∧ 1 <= r.1 <= len) lens rs
  | Blocks => ∃ lens1 len lens2 rs st1, lens = lens1 ++ len :: lens2 ∧ read_all s lens1 st = Ret rs st1 ∧
      concat (snd <$> rs) = data
  | Crashes => False
  end.
Proof.
  intros Hr Hlens Hal. assert (∃ more, allocs st = replicate (3 * length lens) true ++ replicate more true) as (more & Hal').
  { exists 0%nat. by rewrite app_nil_r. }
  clear Hal. revert st data more Hr Hal'. induction Hlens as [|len lens Hlen _ IH]; intros st data more Hr Hal; cbn [read_all].
  { lm. split; [by exists data|constructor]. }
  lm. cbn [length] in Hal. replace (3 * S (length lens))%nat with (S (S (S (3 * length lens)))) in Hal by lia. cbn [replicate app] in Hal.
  pose proof (read_step st s len data _ Hr Hlen Hal) as Hstep.
  destruct (lwip_read s len st) as [[n out] st1| |] eqn:Erd; [|subst data; by exists [], len, lens, [], st|done].
  destruct Hstep as (-> & Ho1 & Ho2 & (rest & -> & Hr1) & Ha1).
  assert (∃ more', allocs st1 = replicate (3 * length lens) true ++ replicate more' true) as (more' & Ha1').
  { destruct Ha1 as [->| ->]; [|by exists more]. rewrite Hal. exists (S (S (S more))). rewrite <-!replicate_add.
    replace (3 * length lens + S (S (S more)))%nat with (S (S (S (3 * length lens + more)))) by lia. done. }
  specialize (IH st1 rest more' Hr1 Ha1'). destruct (read_all s lens st1) as [rs st2| |].
  - destruct IH as [(rest' & -> & Hr2) Hf]. split; [exists rest'; split; [rewrite fmap_cons; cbn [concat snd]; by rewrite <-app_assoc|done]|].
    constructor; [cbn; split; [done|lia]|done].
  - destruct IH as (lens1 & len' & lens2 & rs & st3 & -> & Hrun & <-).
    exists (len :: lens1), len', lens2, ((Z.of_nat (length out), out) :: rs), st3. split_and!; [done| |done].
    cbn [read_all]. lm. by rewrite Erd, Hrun.
  - done.
Qed.

Definition sample_conn (msgs : list (option chain)) (rs : list round) : netconn := Netconn NETCONN_TCP ERR_OK (Some msgs) (Some false) rs.
Definition sample_lwip (msgs : list (option chain)) (rs : list round) (al : list bool) : lwip :=
  Lwip (Socket (Some 7) None 0 :: replicate 9 (Socket None None 0)) {[ 7 := sample_conn msgs rs ]} al [] [].

Lemma socket_reads_stream_witness :
  ∃ rs st', read_all 0 [2; 5; 4] (sample_lwip [Some [[97; 98; 99]]; Some [[100; 101]]] [] (replicate 9 true)) = Ret rs st' ∧
    concat (snd <$> rs) = [97; 98; 99; 100; 101].
Proof.
  pose proof (socket_reads_stream 0 [2; 5; 4] (sample_lwip [Some [[97; 98; 99]]; Some [[100; 101]]] [] (replicate 9 true))
    [97; 98; 99; 100; 101]) as H.
  destruct (read_all _ _ _) as [rs st'| |] eqn:E; [|vm_compute in E; discriminate..].
  exists rs, st'. split; [done|]. destruct H as [(rest & Hd & _) _].
  - exists 7, (sample_conn [Some [[97; 98; 99]]; Some [[100; 101]]] []), (Socket (Some 7) None 0), [[97; 98; 99]; [100; 101]].
    split_and!; try done. repeat constructor.
  - repeat constructor; lia.
  - done.
  - assert (snd <$> rs = [[97; 98]; [99]; [100; 101]]) as -> by (vm_compute in E; by simplify_eq). done.
Defined.

(** A segment of two buffers, as the stack makes them of segments that came out
    of order: after a first read of [k] bytes, a second read says that it has
    returned all the rest, but the first [k] bytes of the second buffer were
    passed over too, and the end of the caller's memory was not written. *)
Theorem socket_chain_garbled st s c k sock b1 b2 off len :
  0 <= s < NUM_SOCKETS → sockets st !! Z.to_nat s = Some sock → conn sock = Some c → conns st !! c = Some k →
  nc_type k = NETCONN_TCP → lastdata sock = Some [b1; b2] → lastoffset sock = off →
  0 < off < Z.of_nat (length b1) → off < Z.of_nat (length b2) → Z.of_nat (length b1) + Z.of_nat (length b2) < 65536 →
  Z.of_nat (length b1) + Z.of_nat (length b2) - off <= len →
  ∃ st', lwip_read s len st
    = Ret (Z.of_nat (length b1) + Z.of_nat (length b2) - off, drop (Z.to_nat off) b1 ++ drop (Z.to_nat off) b2) st'.
Proof.
  intros Hs Hsock Hc Hk Ht Hl Ho Hoff Hoff2 Htot Hlen. unfold lwip_read, lwip_recv. lm.
  rewrite (get_socket_run _ _ _ _ Hs Hsock Hc), Hl, Ho. unfold get_conn. rewrite Hk, Ht.
  assert (chain_len [b1; b2] = Z.of_nat (length b1) + Z.of_nat (length b2)) as ->.
  { unfold chain_len. cbn [foldr]. rewrite Z.add_0_r. apply u16_small. unfold is_u16. lia. }
  set (n := Z.of_nat (length b1) + Z.of_nat (length b2) - off).
  rewrite (u16_small n) by (unfold is_u16, n; lia).
  set (copylen := if n <? len then n else u16 len).
  assert (copylen = n) as ->.
  { unfold copylen. destruct (Z.ltb_spec n len); [done|]. rewrite u16_small by (unfold is_u16, n in *; lia). unfold n in *. lia. }
  rewrite decide_False by lia. unfold put_socket. eexists. f_equal. f_equal; [destruct (Z.ltb_spec n len); lia|].
  unfold netbuf_copy_partial. cbn [copy_chain].
  rewrite (proj2 (Z.ltb_lt 0 n)) by (unfold n; lia). rewrite (proj2 (Z.leb_gt _ off)), andb_false_r by lia.
  rewrite copy_bytes_spec by (unfold n; lia). rewrite bool_decide_eq_false_2 by (rewrite length_drop; unfold n; lia).
  rewrite take_ge by (rewrite length_drop; unfold n; lia). f_equal. rewrite Z.add_0_l, length_drop.
  rewrite (proj2 (Z.ltb_lt _ n)) by (unfold n; lia). rewrite (proj2 (Z.leb_gt _ off)), andb_false_r by lia.
  rewrite copy_bytes_spec by (unfold n; lia).
  rewrite take_ge by (rewrite length_drop; unfold n; lia). destruct (bool_decide _); by rewrite app_nil_r.
Qed.

(** When the pool of structures for received data is empty once, the socket
    reads as if the peer had closed, from then on, whatever data is waiting. *)
Theorem socket_empty_pool_ends_stream st s c k sock al len :
  0 <= s < NUM_SOCKETS → sockets st !! Z.to_nat s = Some sock → conn sock = Some c → conns st !! c = Some k →
  nc_type k = NETCONN_TCP → nc_err k = ERR_OK → listening k = Some false → is_Some (recvmbox k) →
  lastdata sock = None → allocs st = false :: al →
  ∃ st', lwip_read s len st = Ret (0, []) st' ∧ ∀ len', lwip_read s len' st' = Ret (0, []) st'.
Proof.
  intros Hs Hsock Hc Hk Ht He Hli [msgs Hr] Hl Hal. unfold lwip_read, lwip_recv, netconn_recv. lm.
  rewrite (get_socket_run _ _ _ _ Hs Hsock Hc), Hl. unfold get_conn at 1. rewrite Hk, Hr, He.
  unfold is_ok at 1. rewrite bool_decide_eq_true_2 by done. cbn [negb]. rewrite decide_True by done. rewrite Hli.
  unfold pool_alloc at 1. rewrite Hal. cbn [negb]. unfold put_conn at 1. cbn [conns]. rewrite Hk.
  set (st1 := set_conns _ _). exists st1. split; [reflexivity|]. intros len'.
  assert (sockets st1 !! Z.to_nat s = Some sock) as Hsock1 by exact Hsock.
  rewrite (get_socket_run _ _ _ _ Hs Hsock1 Hc), Hl. unfold get_conn at 1. unfold st1 at 1. cbn [conns set_conns].
  rewrite lookup_insert_eq. cbn [recvmbox set_err nc_err]. by rewrite Hr.
Qed.

(** * Writing *)

(** The room in the send buffer does not grow between the two reads of it. *)
Definition steady (r : round) : Prop := 0 <= sb_length r <= sb_compare r.

(** The stack takes at least a byte. *)
Definition productive (r : round) : bool := is_ok (err_write r) && (1 <=? sb_length r).

Lemma is_ok_true e : is_ok e = true ↔ e = ERR_OK.
Proof. apply bool_decide_eq_true. Qed.

Lemma is_ok_false e : is_ok e = false ↔ e ≠ ERR_OK.
Proof. apply bool_decide_eq_false. Qed.

(** The state after a part of the data was handed over. *)
Definition handed (c : Z) (st : lwip) (data : list Z) (e : err) (st' : lwip) : Prop :=
  ∃ chunks k', written st' = written st ++ chunks ∧ conns st' !! c = Some k' ∧ nc_err k' = e ∧
    concat chunks `prefix_of` data ∧ (e = ERR_OK → concat chunks = data).

(** The next answer is taken off the list. *)
Lemma next_round_run st c k r l :
  conns st !! c = Some k → rounds k = r :: l →
  next_round c st = Ret r (set_conns (<[c := set_rounds l k]> (conns st)) st).
Proof. intros Hk Hr. unfold next_round. lm. unfold get_conn. rewrite Hk, Hr. unfold put_conn. by rewrite Hk. Qed.

Lemma write_loop_run fuel c memory size st k :
  conns st !! c = Some k → Forall steady (rounds k) → 0 <= size < 65536 →
  size <= Z.of_nat (length memory) → (length (rounds k) < fuel)%nat →
  match write_loop fuel c true memory size st with
  | Ret _ st' => ∃ e, handed c st (take (Z.to_nat size) memory) e st'
  | Blocks => Z.of_nat (length (filter productive (rounds k))) < size
  | Crashes => False
  end.
Proof.
  revert memory size st k. induction fuel as [|fuel IH]; intros memory size st k Hk Hst Hsize Hmem Hf; [lia|].
  cbn [write_loop]. lm. unfold get_conn. rewrite Hk. destruct (is_ok (nc_err k)) eqn:He.
  2: { exists (nc_err k), [], k. apply is_ok_false in He. rewrite app_nil_r. split_and!; try done. apply prefix_nil. }
  apply is_ok_true in He. cbn [andb].
  destruct (Z.ltb_spec 0 size) as [Hpos|Hz].
  2: { exists ERR_OK, [], k. replace size with 0 by lia. rewrite app_nil_r. split_and!; try done. }
  destruct (rounds k) as [|r l] eqn:Hr.
  { unfold next_round. lm. unfold get_conn. rewrite Hk, Hr. cbn. lia. }
  rewrite (next_round_run _ _ _ _ _ Hk Hr). apply Forall_cons in Hst as [Hr1 Hst]. cbn [length] in Hf.
  set (st1 := set_conns _ st). set (k1 := set_rounds l k).
  assert (conns st1 !! c = Some k1) as Hk1 by (apply lookup_insert_eq).
  cbn [andb]. destruct ((sb_test r =? 0) && negb (is_ok (err_wake r))) eqn:Ew.
  { apply andb_prop in Ew as [_ Ew%negb_true_iff]. apply is_ok_false in Ew.
    unfold put_conn. rewrite Hk1. exists (err_wake r), [], (set_err (err_wake r) k1). rewrite app_nil_r.
    split_and!; [done|apply lookup_insert_eq|done|apply prefix_nil|done]. }
  set (len := if sb_compare r <? size then sb_length r else size).
  assert (0 <= len <= size) as Hlen by (unfold len; destruct Hr1; destruct (Z.ltb_spec (sb_compare r) size); lia).
  destruct (is_ok (err_write r)) eqn:Eo.
  - destruct (Z.ltb_spec (Z.of_nat (length memory)) len); [lia|]. unfold tell_write at 1.
    unfold put_conn at 1. cbn [conns]. rewrite Hk1. set (st2 := set_conns _ _). rewrite (u16_small (size - len)) by (unfold is_u16; lia).
    specialize (IH (drop (Z.to_nat len) memory) (size - len) st2 (set_err (err_next r) k1)
      (lookup_insert_eq _ _ _) Hst ltac:(lia)
      ltac:(rewrite length_drop; lia) ltac:(cbn; lia)).
    assert (take (Z.to_nat len) memory ++ take (Z.to_nat (size - len)) (drop (Z.to_nat len) memory)
      = take (Z.to_nat size) memory) as Hsplit by (rewrite take_take_drop; f_equal; lia).
    destruct (write_loop fuel c true _ _ st2) as [[] st3| |]; [| |done].
    + destruct IH as (e & chunks & k' & Hw & Hc & Hk' & Hp & Hall). exists e, (take (Z.to_nat len) memory :: chunks), k'.
      split_and!; [rewrite Hw; cbn; by rewrite <-app_assoc|done|done| |]; cbn [concat]; rewrite <-Hsplit.
      * by apply prefix_app.
      * intros ->. by rewrite Hall.
    + change (rounds (set_err (err_next r) k1)) with l in IH.
      change (filter productive (r :: l)) with (if decide (productive r) then r :: filter productive l else filter productive l).
      destruct (decide (productive r)) as [Hpr|]; cbn [length]; [|lia].
      apply Is_true_true, andb_prop in Hpr as [_ Hpr%Z.leb_le]. unfold len in *. destruct (sb_compare r <? size); lia.
  - assert (productive r = false) as Hnp by (unfold productive; by rewrite Eo).
    change (filter productive (r :: l)) with (if decide (productive r) then r :: filter productive l else filter productive l).
    destruct (decide (productive r)) as [Hp|_]; [by rewrite Hnp in Hp|].
    destruct (decide (err_write r = ERR_MEM)) as [Em|Em].
    + unfold put_conn at 1. rewrite Hk1. set (st2 := set_conns _ st1).
      specialize (IH memory size st2 (set_err (err_next r) k1) (lookup_insert_eq _ _ _) Hst Hsize Hmem ltac:(cbn; lia)).
      destruct (write_loop fuel c true memory size st2) as [[] st3| |]; done.
    + unfold put_conn. rewrite Hk1. exists (err_write r), [], (set_err (err_write r) k1). rewrite app_nil_r.
      apply is_ok_false in Eo. split_and!; [done|apply lookup_insert_eq|done|apply prefix_nil|done].
Qed.



(** a write may send memory that is not the caller's.  The room in the send
    buffer is read twice; when an acknowledgement arrives in between, the length
    of the piece is the new room and not the rest of the data: bytes behind the
    caller's data are sent, and the size that is left wraps around, so the loop
    goes on with the memory behind them. *)
Theorem socket_write_race fuel c k memory size st r l :
  conns st !! c = Some k → nc_err k = ERR_OK → rounds k = r :: l → 0 < size < 65536 →
  sb_test r ≠ 0 → sb_compare r < size < sb_length r → sb_length r <= Z.of_nat (length memory) → sb_length r < 65536 →
  err_write r = ERR_OK →
  ∃ st', written st' = written st ++ [take (Z.to_nat (sb_length r)) memory] ∧
    write_loop (S fuel) c true memory size st
    = write_loop fuel c true (drop (Z.to_nat (sb_length r)) memory) (65536 - (sb_length r - size)) st'.
Proof.
  intros Hk He Hr Hsize Ht Hlt Hmem Hmax Hw. cbn [write_loop]. lm. unfold get_conn. rewrite Hk, (proj2 (is_ok_true _) He).
  rewrite (proj2 (Z.ltb_lt 0 size)) by lia. cbn [andb]. rewrite (next_round_run _ _ _ _ _ Hk Hr).
  rewrite (proj2 (Z.eqb_neq _ _) Ht). cbn [andb]. rewrite (proj2 (Z.ltb_lt (sb_compare r) size)) by lia.
  rewrite (proj2 (is_ok_true _) Hw). destruct (Z.ltb_spec (Z.of_nat (length memory)) (sb_length r)); [lia|].
  unfold tell_write at 1, put_conn at 1. cbn [conns set_conns]. rewrite lookup_insert_eq.
  eexists. split; [|f_equal; width_lia]. done.
Qed.

(** A size that does not fit into 16 bits is cut: a write of 65536 bytes sends
    none of them and says that it has sent them all. *)
Theorem socket_write_size_cut st s c k sock memory size al :
  0 <= s < NUM_SOCKETS → sockets st !! Z.to_nat s = Some sock → conn sock = Some c → conns st !! c = Some k →
  nc_type k = NETCONN_TCP → nc_err k = ERR_OK → allocs st = true :: al → size mod 65536 = 0 →
  ∃ st', lwip_write s memory size st = Ret size st' ∧ written st' = written st.
Proof.
  intros Hs Hsock Hc Hk Ht He Hal Hsize. unfold lwip_write, netconn_write. lm.
  rewrite (get_socket_run _ _ _ _ Hs Hsock Hc). unfold get_conn at 1. rewrite Hk, Ht. unfold get_conn at 1. rewrite Hk.
  rewrite (proj2 (is_ok_true _) He). cbn [negb]. unfold pool_alloc. rewrite Hal. cbn [negb].
  unfold u16. rewrite Hsize. cbn [write_loop]. lm. unfold get_conn. cbn [conns]. rewrite Hk, (proj2 (is_ok_true _) He). cbn [andb Z.ltb Z.compare].
  cbn [conns]. rewrite Hk, (proj2 (is_ok_true _) He). by eexists.
Qed.

(** Three bytes to send and the room grows from one to five. *)
Lemma socket_write_race_witness :
  ∃ st', written st' = [[97; 98; 99; 55; 56]] ∧
    write_loop 2 7 true [97; 98; 99; 55; 56; 57] 3 (sample_lwip [] [Round 1 ERR_OK 1 5 ERR_OK ERR_OK] [])
    = write_loop 1 7 true [57] 65534 st'.
Proof.
  apply (socket_write_race 1 7 (sample_conn [] [Round 1 ERR_OK 1 5 ERR_OK ERR_OK]) [97; 98; 99; 55; 56; 57] 3
    (sample_lwip [] [Round 1 ERR_OK 1 5 ERR_OK ERR_OK] []) (Round 1 ERR_OK 1 5 ERR_OK ERR_OK) []); try done; cbn; lia.
Defined.

(** ["abc"] and ["de"] as one segment: after a read of one byte, the next says
    four bytes and has written ["bce"]. *)
Lemma socket_chain_garbled_witness :
  ∃ st', lwip_read 0 9 (Lwip [Socket (Some 7) (Some [[97; 98; 99]; [100; 101]]) 1] {[ 7 := sample_conn [] [] ]} [] [] [])
    = Ret (4, [98; 99; 101]) st'.
Proof.
  apply (socket_chain_garbled _ 0 7 (sample_conn [] []) (Socket (Some 7) (Some [[97; 98; 99]; [100; 101]]) 1)
    [97; 98; 99] [100; 101] 1 9); try done; cbn; lia.
Defined.
