(* ===== verification/Udp.v ===== *)
(** UDP of the TCP stack (lwtcp/udp.c, lwip/udp.h).

    The control blocks are linked by [next] from [udp_pcbs] and lie in the pool
    of the file Memp: [pcbs] holds the structures that exist, by their addresses,
    and a loop that reads another address is the result [None].  A datagram is
    the memory around the data of its first buffer, where the headers are read
    and written, and the further buffers.  [sr_lwip_output] is recorded with its
    arguments, and a call of a client's function with its own. *)

From Stdlib Require Import ZArith Lia.
From stdpp Require Import base tactics numbers gmap option list.
From S2P Require Import Prelude Common Inet Memp.

Local Open Scope Z_scope.

Definition UDP_HLEN : Z := 8.
Definition IP_PROTO_UDP : Z := 17.
Definition IP_PROTO_UDPLITE : Z := 170.
Definition UDP_FLAGS_NOCHKSUM : Z := 1.
Definition UDP_FLAGS_UDPLITE : Z := 2.
Definition ERR_OK : Z := 0.
Definition ERR_MEM : Z := -1.

(** * Control blocks *)

(** [recv] is the address of the client's function, [recv_arg] the argument. *)
Record udp_pcb := UdpPcb {
  next : option Z;
  local_ip : Z;
  remote_ip : Z;
  local_port : Z;
  remote_port : Z;
  flags : Z;
  chksum_len : Z;
  recv : option Z;
  recv_arg : option Z
}.

Definition set_next (v : option Z) (b : udp_pcb) : udp_pcb :=
  UdpPcb v (local_ip b) (remote_ip b) (local_port b) (remote_port b) (flags b) (chksum_len b) (recv b) (recv_arg b).
Definition set_local (ip port : Z) (b : udp_pcb) : udp_pcb :=
  UdpPcb (next b) ip (remote_ip b) port (remote_port b) (flags b) (chksum_len b) (recv b) (recv_arg b).
Definition set_remote (ip port : Z) (b : udp_pcb) : udp_pcb :=
  UdpPcb (next b) (local_ip b) ip (local_port b) port (flags b) (chksum_len b) (recv b) (recv_arg b).
Definition set_recv (f arg : option Z) (b : udp_pcb) : udp_pcb :=
  UdpPcb (next b) (local_ip b) (remote_ip b) (local_port b) (remote_port b) (flags b) (chksum_len b) f arg.
Definition set_flags (v : Z) (b : udp_pcb) : udp_pcb :=
  UdpPcb (next b) (local_ip b) (remote_ip b) (local_port b) (remote_port b) v (chksum_len b) (recv b) (recv_arg b).

(** The counters of [stats.udp] that are used here. *)
Record stats_udp := StatsUdp { us_xmit : Z; us_recv : Z; us_drop : Z; us_chkerr : Z }.

Definition count_xmit (s : stats_udp) : stats_udp := StatsUdp (u16 (us_xmit s + 1)) (us_recv s) (us_drop s) (us_chkerr s).
Definition count_recv (s : stats_udp) : stats_udp := StatsUdp (us_xmit s) (u16 (us_recv s + 1)) (us_drop s) (us_chkerr s).
Definition count_chkerr (s : stats_udp) : stats_udp :=
  StatsUdp (us_xmit s) (us_recv s) (u16 (us_drop s + 1)) (u16 (us_chkerr s + 1)).

Record udp := Udp {
  udp_pcbs : option Z;
  pcbs : gmap Z udp_pcb;
  udp_pools : pools;
  udp_stats : stats_udp
}.

Definition with_list (v : option Z) (u : udp) : udp := Udp v (pcbs u) (udp_pools u) (udp_stats u).
Definition with_pcbs (m : gmap Z udp_pcb) (u : udp) : udp := Udp (udp_pcbs u) m (udp_pools u) (udp_stats u).
Definition with_pools (m : pools) (u : udp) : udp := Udp (udp_pcbs u) (pcbs u) m (udp_stats u).
Definition with_stats (s : stats_udp) (u : udp) : udp := Udp (udp_pcbs u) (pcbs u) (udp_pools u) s.

(** An assignment to fields of [*p]. *)
Definition put (p : Z) (f : udp_pcb → udp_pcb) (u : udp) : option udp :=
  b ← pcbs u !! p; Some (with_pcbs (<[p := f b]> (pcbs u)) u).

Definition udp_init (u : udp) : udp := u.

Definition udp_new (u : udp) : option (option Z * udp) :=
  '(pcb, m) ← memp_malloc MEMP_UDP_PCB (udp_pools u);
  let u := with_pools m u in
  match pcb with
  | Some p => Some (Some p, with_pcbs (<[p := UdpPcb None 0 0 0 0 0 0 None None]> (pcbs u)) u)
  | None => Some (None, u)
  end.

(** [for(pcb = p; pcb != NULL; pcb = pcb->next)] up to the first block for which
    the test holds, given the block and its address; no walk is longer than there
    are blocks. *)
Fixpoint walk (fuel : nat) (test : Z → udp_pcb → bool) (p : option Z) (m : gmap Z udp_pcb) : option (option Z) :=
  match fuel, p with
  | _, None => Some None
  | O, Some _ => None
  | S fuel, Some a => b ← m !! a; if test a b then Some (Some a) else walk fuel test (next b) m
  end.

Definition find_pcb (test : Z → udp_pcb → bool) (u : udp) : option (option Z) :=
  walk (S (size (pcbs u))) test (udp_pcbs u) (pcbs u).

(** Put [pcb] in front of the list unless it is on it. *)
Definition enlist (pcb : Z) (u : udp) : option udp :=
  found ← find_pcb (λ a _, a =? pcb) u;
  match found with
  | Some _ => Some u
  | None => u' ← put pcb (set_next (udp_pcbs u)) u; Some (with_list (Some pcb) u')
  end.

(** [ip_addr_set], with a null pointer for any address. *)
Definition addr_of (ipaddr : option Z) : Z := default 0 ipaddr.

Definition udp_bind (pcb : Z) (ipaddr : option Z) (port : Z) (u : udp) : option (Z * udp) :=
  u ← put pcb (set_local (addr_of ipaddr) port) u;
  u ← enlist pcb u;
  Some (ERR_OK, u).

Definition udp_connect (pcb : Z) (ipaddr : option Z) (port : Z) (u : udp) : option (Z * udp) :=
  u ← put pcb (set_remote (addr_of ipaddr) port) u;
  u ← enlist pcb u;
  Some (ERR_OK, u).

Definition udp_recv (pcb : Z) (f arg : option Z) (u : udp) : option udp := put pcb (set_recv f arg) u.

Definition udp_setflags (pcb : Z) (f : Z) (u : udp) : option udp := put pcb (set_flags f) u.

(** The loop of [udp_remove]: every block that points to [pcb] is made to point
    behind it. *)
Fixpoint unlink (fuel : nat) (pcb : Z) (pcb2 : option Z) (m : gmap Z udp_pcb) : option (gmap Z udp_pcb) :=
  match fuel, pcb2 with
  | _, None => Some m
  | O, Some _ => None
  | S fuel, Some a =>
      b ← m !! a;
      if decide (next b = Some pcb) then
        c ← m !! pcb;
        unlink fuel pcb (next c) (<[a := set_next (next c) b]> m)
      else unlink fuel pcb (next b) m
  end.

Definition udp_remove (pcb : Z) (u : udp) : option udp :=
  u ← (if decide (udp_pcbs u = Some pcb) then b ← pcbs u !! pcb; Some (with_list (next b) u)
       else m ← unlink (S (size (pcbs u))) pcb (udp_pcbs u) (pcbs u); Some (with_pcbs m u));
  m ← memp_free MEMP_UDP_PCB (Some pcb) (udp_pools u);
  Some (with_pcbs (delete pcb (pcbs u)) (with_pools m u)).

(** * Datagrams *)

(** [dg_area] is the memory around the data of the first buffer and [dg_payload]
    the place of the data in it; [dg_limit] is the place, in the same count,
    where the memory behind the buffer's structure starts: 0 for a buffer with
    its data behind the structure, and anything for one that refers to data
    elsewhere. *)
Record dgram := Dgram {
  dg_area : list Z;
  dg_limit : Z;
  dg_payload : Z;
  dg_len : Z;
  dg_tot_len : Z;
  dg_rest : list pbuf
}.

Definition set_area (l : list Z) (d : dgram) : dgram :=
  Dgram l (dg_limit d) (dg_payload d) (dg_len d) (dg_tot_len d) (dg_rest d).

(** The buffers from the first one on, for the checksum and for sending. *)
Definition dg_chain (d : dgram) : list pbuf :=
  Pbuf (drop (Z.to_nat (dg_payload d)) (dg_area d)) (dg_len d) :: dg_rest d.

(** [pbuf_header] on the first buffer. *)
Definition dg_header (d : dgram) (header_size : Z) : Z * dgram :=
  let new := dg_payload d - header_size in
  if new <? dg_limit d then (255, d)
  else (0, Dgram (dg_area d) (dg_limit d) new (u16 (dg_len d + header_size)) (u16 (dg_tot_len d + header_size))
             (dg_rest d)).

(** A field of [n] bytes of a header, read and written. *)
Definition fetch (n : nat) (d : dgram) (off : Z) : option Z :=
  if off <? 0 then None else load n (dg_area d) (Z.to_nat off).
Definition assign (n : nat) (off v : Z) (d : dgram) : option dgram :=
  if off <? 0 then None else l ← store n (dg_area d) (Z.to_nat off) v; Some (set_area l d).

(** * Reception *)

(** [IPH_HL], from the 16-bit field with the version, the length and the type
    of service. *)
Definition IPH_HL (v_hl_tos : Z) : Z := Z.land (Z.shiftr (ntohs v_hl_tos) 8) 15.
Definition IPH_PROTO (ttl_proto : Z) : Z := Z.land (ntohs ttl_proto) 255.

Definition addr_fits (ours theirs : Z) : bool := (ours =? 0) || (ours =? theirs).

Definition perfect_match (src dest src_ip dest_ip : Z) (b : udp_pcb) : bool :=
  (remote_port b =? src) && (local_port b =? dest) && addr_fits (remote_ip b) src_ip && addr_fits (local_ip b) dest_ip.

Definition port_match (dest src_ip dest_ip : Z) (b : udp_pcb) : bool :=
  (local_port b =? dest) && addr_fits (remote_ip b) src_ip && addr_fits (local_ip b) dest_ip.

Inductive input_result :=
  | Received (f : Z) (arg : option Z) (pcb : Z) (p : dgram) (addr port : Z)
  | Freed (p : dgram).

Definition udp_input (p : dgram) (u : udp) : option (input_result * udp) :=
  let u := with_stats (count_recv (udp_stats u)) u in
  let iphdr := dg_payload p in
  v_hl_tos ← fetch 2 p iphdr;
  let p := (dg_header p (- (UDP_HLEN + IPH_HL v_hl_tos * 4))).2 in
  let udphdr := dg_payload p - UDP_HLEN in
  src ← ntohs <$> fetch 2 p udphdr;
  dest ← ntohs <$> fetch 2 p (udphdr + 2);
  src_ip ← fetch 4 p (iphdr + 12);
  dest_ip ← fetch 4 p (iphdr + 16);
  pcb ← find_pcb (λ _, perfect_match src dest src_ip dest_ip) u;
  pcb ← (match pcb with None => find_pcb (λ _, port_match dest src_ip dest_ip) u | Some _ => Some pcb end);
  match pcb with
  | None => Some (Freed p, u)
  | Some a =>
      let p := (dg_header p UDP_HLEN).2 in
      ttl_proto ← fetch 2 p (iphdr + 8);
      len ← fetch 2 p (udphdr + 4);
      chksum ← fetch 2 p (udphdr + 6);
      c ← (if IPH_PROTO ttl_proto =? IP_PROTO_UDPLITE
           then inet_chksum_pseudo (dg_chain p) src_ip dest_ip IP_PROTO_UDPLITE (ntohs len)
           else if negb (chksum =? 0)
           then inet_chksum_pseudo (dg_chain p) src_ip dest_ip IP_PROTO_UDP (dg_tot_len p)
           else Some 0);
      if negb (c =? 0) then Some (Freed p, with_stats (count_chkerr (udp_stats u)) u)
      else
        let p := (dg_header p (- UDP_HLEN)).2 in
        b ← pcbs u !! a;
        f ← recv b;
        Some (Received f (recv_arg b) a p src_ip src, u)
  end.

(** * Transmission *)

(** The arguments of [sr_lwip_output]. *)
Record output := Output { out_chain : list pbuf; out_src : Z; out_dst : Z; out_proto : Z }.

(** [pbuf_alloc(PBUF_IP, UDP_HLEN, PBUF_RAM)] in the memory [mem] and
    [pbuf_chain]: 36 bytes are left free in front of the header. *)
Definition chain_header (mem : list Z) (p : dgram) : dgram :=
  Dgram mem 0 36 UDP_HLEN (u16 (UDP_HLEN + dg_tot_len p)) (dg_chain p).

(** [mem] is the memory [mem_malloc] gives, [None] for a null pointer. *)
Definition udp_send (pcb : Z) (p : dgram) (mem : option (list Z)) (u : udp) :
    option (Z * dgram * option output * udp) :=
  b ← pcbs u !! pcb;
  let '(failed, p) := dg_header p UDP_HLEN in
  match (if failed =? 0 then Some p else (λ m, chain_header m p) <$> mem) with
  | None => Some (ERR_MEM, p, None, u)
  | Some p =>
      let udphdr := dg_payload p in
      p ← assign 2 udphdr (htons (local_port b)) p;
      p ← assign 2 (udphdr + 2) (htons (remote_port b)) p;
      p ← assign 2 (udphdr + 6) 0 p;
      '(p, proto) ← (
        if negb (Z.land (flags b) UDP_FLAGS_UDPLITE =? 0) then
          p ← assign 2 (udphdr + 4) (htons (chksum_len b)) p;
          c ← inet_chksum_pseudo (dg_chain p) (local_ip b) (remote_ip b) IP_PROTO_UDP (chksum_len b);
          p ← assign 2 (udphdr + 6) (if c =? 0 then 65535 else c) p;
          Some (p, IP_PROTO_UDPLITE)
        else
          p ← assign 2 (udphdr + 4) (htons (dg_tot_len p)) p;
          if Z.land (flags b) UDP_FLAGS_NOCHKSUM =? 0 then
            c ← inet_chksum_pseudo (dg_chain p) (local_ip b) (remote_ip b) IP_PROTO_UDP (dg_tot_len p);
            p ← assign 2 (udphdr + 6) (if c =? 0 then 65535 else c) p;
            Some (p, IP_PROTO_UDP)
          else Some (p, IP_PROTO_UDP));
      Some (ERR_OK, p, Some (Output (dg_chain p) (local_ip b) (remote_ip b) proto),
            with_stats (count_xmit (udp_stats u)) u)
  end.
