(* ===== verification/UdpProps.v ===== *)
(** The control blocks of UDP as their clients see them: a list of bound blocks,
    the last bound first, and the fields of each block.  The linked structures
    refine it, on the pools of the file Memp, and a datagram goes to the first
    block of the list that matches it. *)

From Stdlib Require Import ZArith Lia.
From stdpp Require Import base tactics numbers gmap option list.
From S2P Require Import Prelude Common Inet Linked Memp MempProps Udp.

Local Open Scope Z_scope.

(** * The list of blocks *)

(** [ports] has no duplicates; [fields] are the blocks with a null [next]. *)
Record endpoints := Endpoints { ports : list Z; fields : gmap Z udp_pcb }.

Definition endpoints_init : endpoints := Endpoints [] ∅.

Definition bind_endpoint (p : Z) (f : udp_pcb → udp_pcb) (e : endpoints) : endpoints :=
  Endpoints (if decide (p ∈ ports e) then ports e else p :: ports e) (alter f p (fields e)).

Inductive udp_op :=
  | New
  | Bind (p : Z) (ip : option Z) (port : Z)
  | Connect (p : Z) (ip : option Z) (port : Z)
  | SetRecv (p : Z) (f arg : option Z)
  | SetFlags (p : Z) (v : Z)
  | Remove (p : Z).

Definition run_udp (op : udp_op) (u : udp) : option (option Z * udp) :=
  match op with
  | New => udp_new u
  | Bind p ip port => '(_, u) ← udp_bind p ip port u; Some (None, u)
  | Connect p ip port => '(_, u) ← udp_connect p ip port u; Some (None, u)
  | SetRecv p f arg => u ← udp_recv p f arg u; Some (None, u)
  | SetFlags p v => u ← udp_setflags p v u; Some (None, u)
  | Remove p => u ← udp_remove p u; Some (None, u)
  end.

(** A client uses the blocks it was given. *)
Definition owned (e : endpoints) (op : udp_op) : Prop :=
  match op with
  | New => True
  | Bind p _ _ | Connect p _ _ | SetRecv p _ _ | SetFlags p _ | Remove p => is_Some (fields e !! p)
  end.

Definition endpoints_step (op : udp_op) (r : option Z) (e : endpoints) : endpoints :=
  match op with
  | New => match r with
           | Some p => Endpoints (ports e) (<[p := UdpPcb None 0 0 0 0 0 0 None None]> (fields e))
           | None => e
           end
  | Bind p ip port => bind_endpoint p (set_local (addr_of ip) port) e
  | Connect p ip port => bind_endpoint p (set_remote (addr_of ip) port) e
  | SetRecv p f arg => Endpoints (ports e) (alter (set_recv f arg) p (fields e))
  | SetFlags p v => Endpoints (ports e) (alter (set_flags v) p (fields e))
  | Remove p => Endpoints (filter (λ q, q ≠ p) (ports e)) (delete p (fields e))
  end.

(** The first block of the list that passes a test. *)
Definition passes (test : Z → udp_pcb → bool) (m : gmap Z udp_pcb) (a : Z) : bool :=
  match m !! a with Some b => test a b | None => false end.

Fixpoint first_match (test : Z → udp_pcb → bool) (m : gmap Z udp_pcb) (l : list Z) : option Z :=
  match l with
  | [] => None
  | a :: l => if passes test m a then Some a else first_match test m l
  end.

Section refine.
Context (memp_sizes : memp_t → Z) (memp_memory : Z) `{Placed memp_sizes memp_memory}.

Definition forget : udp_pcb → udp_pcb := set_next None.

(** Other parts of the stack hold blocks of other pools. *)
Record udp_refines (u : udp) (e : endpoints) : Prop := {
  ur_linked : linked (λ a, next <$> pcbs u !! a) (udp_pcbs u) (ports e);
  ur_fields : fields e = forget <$> pcbs u;
  ur_pools : ∃ held free, pools_ok memp_sizes memp_memory (udp_pools u) held free ∧
    ∀ p, is_Some (pcbs u !! p) ↔ held !! p = Some MEMP_UDP_PCB
}.

Lemma linked_bounded (m : gmap Z udp_pcb) h l : linked (λ a, next <$> m !! a) h l → (length l <= size m)%nat.
Proof.
  intros Hl. pose proof (linked_NoDup _ _ _ Hl) as Hnd.
  rewrite <-(size_list_to_set (C := gset Z) l Hnd), <-size_dom. apply subseteq_size.
  intros a Ha%elem_of_list_to_set. apply elem_of_dom. apply (lseg_lookup _ _ _ _ a Hl) in Ha.
  by apply fmap_is_Some in Ha.
Qed.

(** A walk finds the first block of the list that passes the test. *)
Lemma walk_linked test (m : gmap Z udp_pcb) h l fuel :
  linked (λ a, next <$> m !! a) h l → (length l < fuel)%nat → walk fuel test h m = Some (first_match test m l).
Proof.
  revert h fuel. induction l as [|a l IH]; intros h fuel; cbn.
  - intros -> _. by destruct fuel.
  - intros [-> (n & Hn & Hl)] Hf. destruct fuel as [|fuel]; [lia|].
    apply fmap_Some in Hn as (b & Hb & ->). unfold passes. cbn [walk]. rewrite Hb. cbn.
    destruct (test a b); [done|]. apply IH; [done|lia].
Qed.

Lemma find_pcb_run test u e :
  udp_refines u e → find_pcb test u = Some (first_match test (pcbs u) (ports e)).
Proof.
  intros [Hl _ _]. apply walk_linked; [done|]. pose proof (linked_bounded _ _ _ Hl). lia.
Qed.

Lemma first_match_forget test (m : gmap Z udp_pcb) l :
  (∀ a b, test a (forget b) = test a b) → first_match test (forget <$> m) l = first_match test m l.
Proof.
  intros Ht. induction l as [|a l IH]; cbn; [done|]. unfold passes. rewrite lookup_fmap.
  destruct (m !! a) as [b|]; cbn; [rewrite Ht|]; by rewrite IH.
Qed.

Lemma first_match_is p (m : gmap Z udp_pcb) l :
  (∀ a, a ∈ l → is_Some (m !! a)) → first_match (λ a _, a =? p) m l = if decide (p ∈ l) then Some p else None.
Proof.
  induction l as [|a l IH]; intros Hm; cbn; [done|]. unfold passes at 1.
  destruct (Hm a) as [b ->]; [constructor|]. rewrite IH by (intros; apply Hm; by constructor).
  destruct (Z.eqb_spec a p) as [->|Hne]; repeat case_decide; set_solver.
Qed.

Lemma linked_alter (m : gmap Z udp_pcb) f p h l :
  (∀ b, next (f b) = next b) → linked (λ a, next <$> m !! a) h l →
  linked (λ a, next <$> (alter f p m) !! a) h l.
Proof.
  intros Hf. apply lseg_frame. intros a _. destruct (decide (a = p)) as [->|Hne].
  - rewrite lookup_alter_eq. destruct (m !! p); cbn; [by rewrite Hf|done].
  - by rewrite lookup_alter_ne.
Qed.

Lemma put_pcb_run p f u : is_Some (pcbs u !! p) → put p f u = Some (with_pcbs (alter f p (pcbs u)) u).
Proof.
  intros [b Hb]. unfold put. rewrite Hb. cbn. do 2 f_equal. apply map_eq. intros q. destruct (decide (p = q)) as [<-|Hne].
  - by rewrite lookup_insert_eq, lookup_alter_eq, Hb.
  - by rewrite lookup_insert_ne, lookup_alter_ne.
Qed.

(** An assignment that leaves [next] alone. *)
Lemma refines_put p f u e :
  (∀ b, next (f b) = next b) → (∀ b, forget (f b) = f (forget b)) →
  udp_refines u e → is_Some (fields e !! p) →
  ∃ u', put p f u = Some u' ∧ udp_refines u' (Endpoints (ports e) (alter f p (fields e))).
Proof.
  intros Hn Hf [Hl He (held & free & Hok & Hd)] Hp. rewrite He, lookup_fmap, fmap_is_Some in Hp.
  eexists. split; [by apply put_pcb_run|]. split; cbn.
  - by apply linked_alter.
  - rewrite He. symmetry. apply fmap_alter. intros b _. apply Hf.
  - exists held, free. split; [done|]. intros q. by rewrite lookup_alter_is_Some.
Qed.

Lemma enlist_refines p u e :
  udp_refines u e → is_Some (fields e !! p) →
  ∃ u', enlist p u = Some u' ∧
    udp_refines u' (Endpoints (if decide (p ∈ ports e) then ports e else p :: ports e) (fields e)).
Proof.
  intros Hr Hp. pose proof Hr as [Hl He (held & free & Hok & Hd)]. rewrite He, lookup_fmap, fmap_is_Some in Hp.
  unfold enlist. rewrite (find_pcb_run _ _ _ Hr). cbn. rewrite first_match_is.
  2: { intros a Ha. apply (lseg_lookup _ _ _ _ a Hl) in Ha. by apply fmap_is_Some in Ha. }
  case_decide as Hin; [by exists u; destruct e|]. rewrite put_pcb_run by done. eexists. split; [done|]. split; cbn.
  - split; [done|]. exists (udp_pcbs u). rewrite lookup_alter_eq. destruct Hp as [b ->]. split; [done|].
    eapply lseg_frame; [|exact Hl]. intros a Ha. rewrite lookup_alter_ne; [done|]. by intros ->.
  - rewrite He. apply map_eq. intros q. rewrite !lookup_fmap. destruct (decide (p = q)) as [<-|Hne].
    + rewrite lookup_alter_eq. by destruct (pcbs u !! p).
    + by rewrite lookup_alter_ne.
  - exists held, free. split; [done|]. intros q. by rewrite lookup_alter_is_Some.
Qed.

Lemma unlink_absent (m : gmap Z udp_pcb) p h l fuel :
  linked (λ a, next <$> m !! a) h l → p ∉ l → (length l < fuel)%nat → unlink fuel p h m = Some m.
Proof.
  revert h fuel. induction l as [|a l IH]; intros h fuel; cbn; [intros ->; by destruct fuel|].
  intros [-> (n & Hn & Hl)] [Ha Hp]%not_elem_of_cons Hf. destruct fuel as [|fuel]; [lia|]. cbn.
  apply fmap_Some in Hn as (b & Hb & ->). rewrite Hb. cbn. rewrite decide_False; [apply IH; [done|done|lia]|].
  intros E. rewrite E in Hl. apply linked_head in Hl as (? & ? & -> & _). apply Hp. constructor.
Qed.

Lemma unlink_linked (m : gmap Z udp_pcb) p h l fuel :
  linked (λ a, next <$> m !! a) h l → h ≠ Some p → (length l < fuel)%nat →
  ∃ m', unlink fuel p h m = Some m' ∧ linked (λ a, next <$> m' !! a) h (filter (λ q, q ≠ p) l) ∧
    forget <$> m' = forget <$> m ∧ ∀ q, q ∉ l → m' !! q = m !! q.
Proof.
  revert h fuel. induction l as [|a l IH]; intros h fuel Hl Hh Hf.
  { cbn in Hl. subst h. exists m. by destruct fuel. }
  pose proof (linked_NoDup _ _ _ Hl) as [Ha Hnd]%NoDup_cons. destruct Hl as [-> (n & Hn & Hl)].
  assert (a ≠ p) as Hap by congruence. cbn [length] in Hf. destruct fuel as [|fuel]; [lia|]. cbn [unlink].
  apply fmap_Some in Hn as (b & Hb & ->). rewrite Hb. cbn [mbind option_bind]. rewrite filter_cons_True by done.
  case_decide as E.
  - rewrite E in Hl. pose proof Hl as Hl0. apply linked_head in Hl as (n & l' & -> & Hn & Hl').
    apply fmap_Some in Hn as (c & Hc & ->). rewrite Hc. cbn [mbind option_bind].
    apply not_elem_of_cons in Ha as [_ Ha]. apply NoDup_cons in Hnd as [Hpl _]. cbn [length] in Hf.
    set (m1 := <[a := _]> m). assert (linked (λ a, next <$> m1 !! a) (next c) l') as Hl1.
    { eapply lseg_frame; [|exact Hl']. intros x Hx. unfold m1. rewrite lookup_insert_ne; [done|]. by intros ->. }
    exists m1. split; [apply (unlink_absent _ _ _ l'); [done|done|lia]|]. rewrite filter_cons_False by naive_solver. split_and!.
    + split; [done|]. exists (next c). unfold m1 at 1. rewrite lookup_insert_eq. split; [done|].
      rewrite (filter_keep _ l'); [done|]. apply Forall_forall. by intros x Hx ->.
    + unfold m1. rewrite fmap_insert. apply insert_id. by rewrite lookup_fmap, Hb.
    + intros q Hq. unfold m1. rewrite lookup_insert_ne; [done|]. intros ->. apply Hq. constructor.
  - destruct (IH (next b) fuel Hl E) as (m' & Hu & Hl' & Hfo & Hk); [lia|]. exists m'. split_and!; [done| |done|].
    + split; [done|]. exists (next b). by rewrite Hk, Hb.
    + intros q [_ Hq]%not_elem_of_cons. by apply Hk.
Qed.

Lemma remove_refines p u e :
  udp_refines u e → is_Some (fields e !! p) →
  ∃ u', udp_remove p u = Some u' ∧ udp_refines u' (endpoints_step (Remove p) None e).
Proof.
  intros [Hl He (held & free & Hok & Hd)] Hp. rewrite He, lookup_fmap, fmap_is_Some in Hp.
  pose proof (proj1 (Hd p) Hp) as Hh. destruct (free_ok memp_sizes memp_memory _ _ _ _ _ Hok Hh) as (m' & free' & Hfree & _ & Hok').
  assert (∃ u1, (if decide (udp_pcbs u = Some p) then b ← pcbs u !! p; Some (with_list (next b) u)
       else m ← unlink (S (size (pcbs u))) p (udp_pcbs u) (pcbs u); Some (with_pcbs m u)) = Some u1 ∧
     linked (λ a, next <$> pcbs u1 !! a) (udp_pcbs u1) (filter (λ q, q ≠ p) (ports e)) ∧
     forget <$> pcbs u1 = forget <$> pcbs u ∧ udp_pools u1 = udp_pools u) as (u1 & E1 & Hl1 & Hf1 & Hp1).
  { pose proof (linked_NoDup _ _ _ Hl) as Hnd. case_decide as E.
    - rewrite E in Hl. apply linked_head in Hl as (n & l & El & Hn & Hl). rewrite El in *.
      apply NoDup_cons in Hnd as [Hpl _]. apply fmap_Some in Hn as (b & Hb & ->). rewrite Hb. eexists. split; [done|].
      rewrite filter_cons_False, filter_keep by (naive_solver || (apply Forall_forall; by intros x Hx ->)). done.
    - destruct (unlink_linked (pcbs u) p (udp_pcbs u) (ports e) (S (size (pcbs u)))) as (m1 & -> & ? & ? & _);
        [done|done|pose proof (linked_bounded _ _ _ Hl); lia|]. by eexists. }
  unfold udp_remove. rewrite E1. cbn [mbind option_bind]. rewrite Hp1, Hfree. cbn [mbind option_bind]. eexists. split; [done|]. split; cbn.
  - eapply lseg_frame; [|exact Hl1]. intros a [Ha _]%list_elem_of_filter. by rewrite lookup_delete_ne.
  - by rewrite He, fmap_delete, Hf1.
  - exists (delete p held), free'. split; [done|]. intros q. rewrite lookup_delete_is_Some, lookup_delete_Some, <-Hd.
    assert (is_Some (pcbs u1 !! q) ↔ is_Some (pcbs u !! q)) as ->; [|done].
    by rewrite <-(fmap_is_Some forget), <-lookup_fmap, Hf1, lookup_fmap, fmap_is_Some.
Qed.

(** A block that was not in use, unless as many are in use as the pool has. *)
Definition new_endpoint (r : option Z) (e : endpoints) : Prop :=
  match r with
  | Some p => fields e !! p = None
  | None => size (fields e) = Z.to_nat (memp_num MEMP_UDP_PCB)
  end.

Definition udp_promise (op : udp_op) (r : option Z) (e : endpoints) : Prop :=
  match op with New => new_endpoint r e | _ => r = None end.

Local Abbreviation blocks := (headers memp_sizes memp_memory memp_types MEMP_UDP_PCB).

Lemma length_row m size n : length (row m size n) = n.
Proof. revert m. induction n as [|n IH]; intros m; cbn; [done|]. by rewrite IH. Qed.

Lemma length_blocks : length blocks = Z.to_nat (memp_num MEMP_UDP_PCB).
Proof. unfold memp_types. rewrite !headers_cons. by rewrite !length_app, !decide_False, decide_True, length_row by done. Qed.

Lemma NoDup_blocks : NoDup blocks.
Proof. eapply linked_NoDup. apply (ok_linked _ _ _ _ _ (init_ok memp_sizes memp_memory pools0)). Qed.

Lemma new_refines u e :
  udp_refines u e →
  ∃ r u', udp_new u = Some (r, u') ∧ new_endpoint r e ∧ udp_refines u' (endpoints_step New r e).
Proof.
  intros [Hl He (held & free & Hok & Hd)].
  destruct (malloc_op memp_sizes memp_memory _ _ _ MEMP_UDP_PCB Hok) as (r & m' & free' & Hr & Hnew & _ & Hok').
  unfold udp_new. rewrite Hr. cbn [mbind option_bind]. destruct r as [p|]; eexists _, _; (split; [reflexivity|]).
  - destruct Hnew as [_ Hnone]. assert (pcbs u !! p = None) as Hp.
    { apply eq_None_not_Some. rewrite Hd, Hnone. done. }
    split; [cbn; by rewrite He, lookup_fmap, Hp|]. split; cbn.
    + eapply lseg_frame; [|exact Hl]. intros a Ha. rewrite lookup_insert_ne; [done|]. intros ->.
      apply (lseg_lookup _ _ _ _ _ Hl) in Ha. rewrite Hp in Ha. by destruct Ha.
    + by rewrite He, fmap_insert.
    + exists (<[p := MEMP_UDP_PCB]> held), free'. split; [done|]. intros q.
      rewrite lookup_insert_is_Some, lookup_insert_Some, Hd. naive_solver.
  - split; [|split; [done|done|by exists held, free']]. cbn [new_endpoint new_block] in *.
    assert (dom (fields e) = list_to_set ((λ h, h + sizeof_memp) <$> blocks)) as E.
    { apply set_eq. intros p. rewrite elem_of_list_to_set, list_elem_of_fmap, He, dom_fmap, elem_of_dom, Hd. split.
      - intros Hp. destruct (ok_held _ _ _ _ _ Hok _ _ Hp) as [Hb _]. exists (p - sizeof_memp). split; [lia|done].
      - intros (h & -> & Hh). by apply Hnew. }
    rewrite <-size_dom, E, size_list_to_set, length_fmap by (apply NoDup_fmap_2; [intros x y ?; lia|apply NoDup_blocks]).
    apply length_blocks.
Qed.

Lemma udp_op_refines u e op :
  udp_refines u e → owned e op →
  ∃ r u', run_udp op u = Some (r, u') ∧ udp_promise op r e ∧ udp_refines u' (endpoints_step op r e).
Proof.
  intros Hr Ho. destruct op as [|p ip port|p ip port|p f arg|p v|p]; cbn [run_udp owned udp_promise endpoints_step] in *.
  - by apply new_refines.
  - destruct (refines_put p (set_local (addr_of ip) port) u e) as (u1 & E1 & R1); [done..|].
    destruct (enlist_refines p u1 _ R1) as (u2 & E2 & R2); [by apply lookup_alter_is_Some|].
    unfold udp_bind. rewrite E1. cbn [mbind option_bind]. rewrite E2. cbn. by eexists _, _.
  - destruct (refines_put p (set_remote (addr_of ip) port) u e) as (u1 & E1 & R1); [done..|].
    destruct (enlist_refines p u1 _ R1) as (u2 & E2 & R2); [by apply lookup_alter_is_Some|].
    unfold udp_connect. rewrite E1. cbn [mbind option_bind]. rewrite E2. cbn. by eexists _, _.
  - destruct (refines_put p (set_recv f arg) u e) as (u1 & E1 & R1); [done..|].
    unfold udp_recv. rewrite E1. cbn. by eexists _, _.
  - destruct (refines_put p (set_flags v) u e) as (u1 & E1 & R1); [done..|].
    unfold udp_setflags. rewrite E1. cbn. by eexists _, _.
  - destruct (remove_refines p u e Hr Ho) as (u1 & -> & R1). cbn. by eexists _, _.
Qed.

(** Clients' calls from the start of the stack on, with the pools as the other
    parts have left them. *)
Inductive udp_reach : udp → endpoints → Prop :=
  | udp_start m held st :
      pools_reach memp_sizes memp_memory m held → (∀ p, held !! p ≠ Some MEMP_UDP_PCB) →
      udp_reach (udp_init (Udp None ∅ m st)) endpoints_init
  | udp_call u e op r u' :
      udp_reach u e → owned e op → run_udp op u = Some (r, u') → udp_reach u' (endpoints_step op r e).

Lemma udp_reach_refines u e : udp_reach u e → udp_refines u e.
Proof.
  induction 1 as [m held st Hm Hno|u e op r u' _ IH Ho Hrun].
  - destruct (pools_reach_ok _ _ _ _ Hm) as [free Hok]. split; cbn; [done|by rewrite fmap_empty|].
    exists held, free. split; [done|]. intros p. rewrite lookup_empty. split; [by intros [? ?]|]. intros E. by apply Hno in E.
  - destruct (udp_op_refines u e op IH Ho) as (r' & u1 & E & _ & Hr). rewrite Hrun in E. by injection E as <- <-.
Qed.

(** C26: Whatever the clients of UDP do with their own control blocks, every call
    returns and the linked structures are a list of the bound blocks, the last
    one bound first and each once, with the fields the calls have set.  [udp_new]
    gives a block that was not in use, and null only when all of the pool's
    blocks are; a removed block is on the list no more. *)
Theorem udp_refines_endpoints u e op :
  udp_reach u e → owned e op →
  ∃ r u', run_udp op u = Some (r, u') ∧ udp_promise op r e ∧ udp_reach u' (endpoints_step op r e) ∧
    linked (λ a, next <$> pcbs u' !! a) (udp_pcbs u') (ports (endpoints_step op r e)) ∧
    NoDup (ports (endpoints_step op r e)) ∧ fields (endpoints_step op r e) = forget <$> pcbs u'.
Proof.
  intros Hr Ho. destruct (udp_op_refines u e op (udp_reach_refines _ _ Hr) Ho) as (r & u' & E & Hp & Hr').
  exists r, u'. split; [done|]. split; [done|]. split; [by eapply udp_call|]. destruct Hr' as [Hl Hf _].
  split; [done|]. split; [|done]. by eapply linked_NoDup.
Qed.
End refine.

#[global] Instance owned_dec e op : Decision (owned e op).
Proof. destruct op; cbn; apply _. Defined.

(** A client's run on the sample pools. *)
Definition udp_sample : udp := Udp None ∅ memp_start (StatsUdp 0 0 0 0).

Definition udp_run (ops : list udp_op) : option (udp * endpoints) :=
  foldl (λ st op, '(u, e) ← st;
    if decide (owned e op) then '(r, u) ← run_udp op u; Some (u, endpoints_step op r e) else None)
    (Some (udp_sample, endpoints_init)) ops.

Lemma udp_run_reach ops u e : udp_run ops = Some (u, e) → udp_reach sample_sizes 6291456 u e.
Proof.
  unfold udp_run. revert u e. induction ops as [|op ops IH] using rev_ind; intros u e.
  - intros [= <- <-]. apply (udp_start _ _ memp_start ∅); [apply reach_init|done].
  - rewrite foldl_app. cbn. destruct (foldl _ _ ops) as [[u1 e1]|] eqn:E; [|done]. cbn.
    destruct (decide (owned e1 op)) as [Ho|]; [|done]. destruct (run_udp op u1) as [[r u2]|] eqn:E2; [|done].
    cbn. intros [= <- <-]. eapply udp_call; [by apply IH|done|done].
Qed.

(** Two blocks, bound one after the other. *)
Definition first_pcb : Z := 6311944.
Definition second_pcb : Z := 6312000.

Definition two_ports : list udp_op :=
  [New; New; SetRecv first_pcb (Some 4096) (Some 7); SetRecv second_pcb (Some 4096) (Some 8);
   Bind first_pcb None 53; Bind second_pcb (Some 167772161) 69].

Lemma two_ports_run :
  (λ st, (ports st.2, bool_decide (owned st.2 (Remove first_pcb)))) <$> udp_run two_ports
  = Some ([second_pcb; first_pcb], true).
Proof. vm_compute. reflexivity. Qed.

Lemma udp_refines_endpoints_witness :
  ∃ u e r u', udp_run two_ports = Some (u, e) ∧ ports e = [second_pcb; first_pcb] ∧
    run_udp (Remove first_pcb) u = Some (r, u') ∧ udp_pcbs u' = Some second_pcb ∧
    NoDup (ports (endpoints_step (Remove first_pcb) r e)).
Proof.
  pose proof two_ports_run as Hr. destruct (udp_run two_ports) as [[u e]|] eqn:E; [|discriminate Hr].
  apply (inj Some) in Hr. cbn [fst snd] in Hr. injection Hr as Ep Ho.
  destruct (udp_refines_endpoints sample_sizes 6291456 u e (Remove first_pcb)) as (r & u' & Hr & _ & _ & Hl & Hn & _).
  - eapply udp_run_reach. exact E.
  - apply (bool_decide_eq_true_1 _ Ho).
  - exists u, e, r, u'. split; [reflexivity|]. split; [exact Ep|]. split; [exact Hr|]. split; [|exact Hn].
    cbn in Hl. rewrite Ep in Hl. apply Hl.
Defined.
