(* ===== verification/UdpDatagram.v ===== *)
(** The way of a datagram: what [udp_send] hands to the network and what
    [udp_input] makes of it at the other end, however the bytes are cut into
    buffers there. *)

From Stdlib Require Import ZArith Lia.
From stdpp Require Import base tactics numbers gmap option list.
From S2P Require Import Prelude Common Inet Linked Memp MempProps Udp UdpProps.

Local Open Scope Z_scope.

(** * Datagrams in memory *)

(** The bytes from the payload of the first buffer on. *)
Definition dg_data (d : dgram) : list Z := chain_data (dg_chain d).

Record wf_dgram (d : dgram) : Prop := {
  wd_bytes : bytes (dg_area d);
  wd_payload : 0 <= dg_payload d;
  wd_len : is_u16 (dg_len d);
  wd_fits : dg_payload d + dg_len d <= Z.of_nat (length (dg_area d));
  wd_rest : Forall wf_pbuf (dg_rest d);
  wd_tot_len : dg_tot_len d = Z.of_nat (length (dg_data d));
  wd_total : is_u16 (dg_tot_len d)
}.

Definition first_data (d : dgram) : list Z :=
  take (Z.to_nat (dg_len d)) (drop (Z.to_nat (dg_payload d)) (dg_area d)).

Lemma dg_data_split d : dg_data d = first_data d ++ chain_data (dg_rest d).
Proof. done. Qed.

Lemma length_first_data d : wf_dgram d → length (first_data d) = Z.to_nat (dg_len d).
Proof. intros [? ? [? ?] ? ? ? ?]. unfold first_data. rewrite length_take, length_drop. lia. Qed.

Lemma wf_dgram_chain d : wf_dgram d → Forall wf_pbuf (dg_chain d).
Proof.
  intros [Hb ? Hl ? ? ? ?]. constructor; [|done]. split_and!; cbn; [by apply Forall_drop|done|].
  rewrite length_drop. unfold is_u16 in Hl. lia.
Qed.

(** A part of a part. *)
Lemma take_drop_window {A} (l : list A) n k m p :
  (k + n <= m)%nat → take n (drop k (take m (drop p l))) = take n (drop (p + k) l).
Proof.
  intros Hm. replace m with (k + (m - k))%nat by lia. rewrite <-take_drop_commute, take_take, drop_drop.
  by rewrite Nat.min_l by lia.
Qed.

(** A header field is a part of the data, and an assignment to it changes that
    part. *)
Lemma fetch_data n d k :
  wf_dgram d → 0 <= k → k + Z.of_nat n <= dg_len d →
  fetch n d (dg_payload d + k) = load n (dg_data d) (Z.to_nat k).
Proof.
  intros Hd Hk Hn. pose proof (length_first_data d Hd) as Hf. destruct Hd as [_ Hp Hl Hfit _ _ _].
  unfold is_u16 in Hl. unfold fetch, load. destruct (Z.ltb_spec (dg_payload d + k) 0); [lia|].
  rewrite !get_bytes_Some by (rewrite ?dg_data_split, ?length_app; lia). cbn [fmap option_fmap option_map].
  do 2 f_equal.
  rewrite dg_data_split, drop_app_le, take_app_le by (rewrite ?length_drop; lia).
  unfold first_data. rewrite take_drop_window by lia. do 2 f_equal. lia.
Qed.

Lemma assign_data n v d k :
  wf_dgram d → 0 <= k → k + Z.of_nat n <= dg_len d →
  ∃ d', assign n (dg_payload d + k) v d = Some d' ∧ wf_dgram d' ∧
    store n (dg_data d) (Z.to_nat k) v = Some (dg_data d') ∧
    dg_payload d' = dg_payload d ∧ dg_len d' = dg_len d ∧ dg_tot_len d' = dg_tot_len d.
Proof.
  intros Hd Hk Hn. pose proof (length_first_data d Hd) as Hf. pose proof Hd as [Hb Hp Hl Hfit Hr Ht Htt].
  unfold is_u16 in Hl. unfold assign. destruct (Z.ltb_spec (dg_payload d + k) 0); [lia|]. unfold store.
  rewrite put_bytes_Some by (rewrite length_le_split; lia). cbn [mbind option_bind]. rewrite length_le_split.
  set (a := take _ _ ++ _). eexists. split; [reflexivity|].
  assert (length a = length (dg_area d)) as Ha.
  { unfold a. rewrite !length_app, length_take, length_le_split, length_drop. lia. }
  assert (put_bytes (dg_data d) (Z.to_nat k) (le_split n v) = Some (dg_data (set_area a d))) as Hst.
  { rewrite put_bytes_Some by (rewrite length_le_split, dg_data_split, length_app; lia). f_equal.
    rewrite length_le_split, !dg_data_split. rewrite take_app_le, drop_app_le by lia.
    cbn [dg_rest set_area]. rewrite !app_assoc. f_equal. unfold first_data, set_area.
    cbn [dg_len dg_payload dg_area]. unfold a.
    replace (Z.to_nat (dg_payload d + k)) with (Z.to_nat (dg_payload d) + Z.to_nat k)%nat by lia.
    set (p := Z.to_nat (dg_payload d)) in *. set (q := Z.to_nat k) in *. set (m := Z.to_nat (dg_len d)) in *.
    rewrite drop_app_le by (rewrite length_take; lia). rewrite <-take_drop_commute.
    rewrite app_assoc, (take_app_ge _ _ m) by (rewrite length_app, length_take, length_drop, length_le_split; lia).
    rewrite length_app, length_take, length_drop, length_le_split.
    rewrite take_take, (Nat.min_l q m) by lia. f_equal.
    replace (m - _)%nat with (m - (q + n))%nat by lia.
    replace m with ((q + n) + (m - (q + n)))%nat at 1 by lia.
    rewrite <-take_drop_commute, drop_drop. do 2 f_equal. lia. }
  split; [|split; [exact Hst|done]]. split; cbn; [|done|done|lia|done| |done].
  - unfold a. repeat apply Forall_app_2; [by apply Forall_take|apply le_split_bytes|by apply Forall_drop].
  - rewrite Ht. f_equal. symmetry. by apply put_bytes_length in Hst.
Qed.

(** * Headers *)

Lemma strip_header d n :
  wf_dgram d → dg_limit d <= dg_payload d → 0 <= n <= dg_len d →
  ∃ d', dg_header d (- n) = (0, d') ∧ wf_dgram d' ∧ dg_data d' = drop (Z.to_nat n) (dg_data d) ∧
    dg_area d' = dg_area d ∧ dg_limit d' = dg_limit d ∧ dg_payload d' = dg_payload d + n ∧
    dg_len d' = dg_len d - n ∧ dg_tot_len d' = dg_tot_len d - n.
Proof.
  intros Hd Hlim Hn. pose proof (length_first_data d Hd) as Hf. pose proof Hd as [Hb Hp Hl Hfit Hr Ht Htt].
  assert (dg_len d <= dg_tot_len d) as Hle by (rewrite Ht, dg_data_split, length_app; unfold is_u16 in Hl; lia).
  unfold is_u16 in *. unfold dg_header. destruct (Z.ltb_spec (dg_payload d - - n) (dg_limit d)); [lia|].
  rewrite !u16_small by (unfold is_u16; lia). eexists. split; [reflexivity|].
  set (d' := Dgram _ _ _ _ _ _). assert (dg_data d' = drop (Z.to_nat n) (dg_data d)) as E.
  { rewrite !dg_data_split, drop_app_le by lia. f_equal. unfold first_data, d'. cbn.
    replace (Z.to_nat (dg_len d)) with (Z.to_nat n + Z.to_nat (dg_len d + - n))%nat by lia.
    rewrite <-take_drop_commute, drop_drop. do 2 f_equal. lia. }
  split; [|split; [exact E|cbn; split_and!; lia || done]].
  split; cbn -[dg_data]; [done|lia|unfold is_u16; lia|lia|done| |unfold is_u16; lia].
  fold d'. rewrite E, length_drop, <-(Nat2Z.id (length (dg_data d))), <-Ht. lia.
Qed.

(** There is room for a header in front of the data, or memory for a buffer. *)
Definition header_room (d : dgram) (mem : option (list Z)) : Prop :=
  0 <= dg_limit d ∧
  (dg_payload d - UDP_HLEN < dg_limit d → ∃ m, mem = Some m ∧ bytes m ∧ (44 <= length m)%nat).

Lemma prepend_header d mem :
  wf_dgram d → header_room d mem → dg_tot_len d + 8 < 65536 →
  let '(failed, p) := dg_header d UDP_HLEN in
  ∃ d' j, (if failed =? 0 then Some p else (λ m, chain_header m p) <$> mem) = Some d' ∧ wf_dgram d' ∧
    length j = 8%nat ∧ dg_data d' = j ++ dg_data d ∧ 8 <= dg_len d' ∧ dg_tot_len d' = dg_tot_len d + 8.
Proof.
  intros Hd [Hlim Hmem] Htot. pose proof (length_first_data d Hd) as Hf. pose proof Hd as [Hb Hp Hl Hfit Hr Ht Htt].
  assert (dg_len d <= dg_tot_len d) as Hle by (rewrite Ht, dg_data_split, length_app; unfold is_u16 in Hl; lia).
  unfold dg_header. destruct (Z.ltb_spec (dg_payload d - UDP_HLEN) (dg_limit d)) as [Hlt|Hge].
  - destruct (Hmem Hlt) as (m & -> & Hbm & Hlm). cbn [Z.eqb fmap option_fmap option_map].
    set (d' := chain_header m d). set (j := take 8 (drop 36 m)).
    assert (length j = 8%nat) as Hj by (unfold j; rewrite length_take, length_drop; lia).
    assert (dg_data d' = j ++ dg_data d) as E by done. unfold is_u16 in *.
    assert (dg_tot_len d' = dg_tot_len d + 8) as Et.
    { unfold d', chain_header, UDP_HLEN. cbn [dg_tot_len]. rewrite u16_small by (unfold is_u16; lia). lia. }
    exists d', j. split; [reflexivity|]. split; [|done].
    split; [done|done|done|change (36 + 8 <= Z.of_nat (length m)); lia|by apply wf_dgram_chain| |unfold is_u16; lia].
    rewrite E, Et, length_app, Hj, Ht. lia.
  - cbn [Z.eqb]. unfold is_u16, UDP_HLEN in *. rewrite !u16_small by (unfold is_u16; lia).
    set (d' := Dgram _ _ _ _ _ _).
    set (j := take 8 (drop (Z.to_nat (dg_payload d - 8)) (dg_area d))).
    assert (length j = 8%nat) as Hj by (unfold j; rewrite length_take, length_drop; lia).
    assert (dg_data d' = j ++ dg_data d) as E.
    { rewrite !dg_data_split, app_assoc. f_equal. unfold first_data, d', j. cbn [dg_len dg_payload dg_area].
      replace (Z.to_nat (dg_len d + 8)) with (8 + Z.to_nat (dg_len d))%nat by lia.
      rewrite <-take_take_drop, drop_drop. do 3 f_equal. lia. }
    exists d', j. split; [reflexivity|]. split; [|split; [done|split; [done|cbn; lia]]].
    split; cbn -[dg_data]; [done|lia|unfold is_u16; lia|lia|done| |unfold is_u16; lia].
    fold d'. rewrite E, length_app, Hj, Ht. lia.
Qed.

(** * Checksums *)

(** The sum behind a checksum. *)
Lemma pseudo_folds chain src dest proto plen :
  Forall wf_pbuf chain → is_u32 src → is_u32 dest → is_byte proto →
  12 + Z.of_nat (length (chain_data chain)) <= 65536 →
  ∃ x, folds_to (short_sum (pseudo_header src dest proto plen ++ chain_data chain)) x ∧
    inet_chksum_pseudo chain src dest proto plen = Some (65535 - x).
Proof.
  intros Hc Hs Hd Hp Hl. set (l := pseudo_header src dest proto plen ++ chain_data chain).
  assert (bytes l) as Hb by (apply Forall_app_2; [by apply pseudo_header_bytes|by apply chain_data_bytes]).
  assert (Z.of_nat (length l) <= 65536) as Hll by (unfold l; rewrite length_app; change (length (pseudo_header _ _ _ _)) with 12%nat; lia).
  pose proof (short_sum_small l Hb Hll) as Hr.
  exists (fold16 (short_sum l)). pose proof (fold16_folds (short_sum l) ltac:(unfold is_u32; lia)) as Hf.
  split; [done|]. rewrite inet_chksum_pseudo_run by done. fold l. by apply checksum_agrees.
Qed.

(** A UDP header in memory; [chk] is the checksum as it is stored. *)
Definition udp_hdr (src dest len chk : Z) : list Z :=
  le_split 2 (htons src) ++ le_split 2 (htons dest) ++ le_split 2 (htons len) ++ le_split 2 chk.

Definition pseudo_sum (src_ip dest_ip proto plen : Z) (data : list Z) : Z :=
  short_sum (pseudo_header src_ip dest_ip proto plen ++ data).

Lemma pseudo_sum_chk src_ip dest_ip proto plen sp dp len chk data :
  is_u16 chk →
  pseudo_sum src_ip dest_ip proto plen (udp_hdr sp dp len chk ++ data)
  = pseudo_sum src_ip dest_ip proto plen (udp_hdr sp dp len 0 ++ data) + chk.
Proof.
  intros Hc. unfold pseudo_sum. rewrite !(short_sum_even (pseudo_header _ _ _ _)) by done.
  unfold udp_hdr. rewrite !(short_sum_even _ data) by done. cbn [le_split app short_sum]. width_lia.
Qed.

(** Another protocol number in the pseudo header. *)
Lemma pseudo_sum_proto src_ip dest_ip plen data :
  is_u32 src_ip → is_u32 dest_ip →
  pseudo_sum src_ip dest_ip IP_PROTO_UDPLITE plen data = pseudo_sum src_ip dest_ip IP_PROTO_UDP plen data + 39168.
Proof.
  intros Hs Hd. unfold pseudo_sum. rewrite !(short_sum_even (pseudo_header _ _ _ _)) by done.
  rewrite !pseudo_header_sum by done. change (htons (u16 IP_PROTO_UDPLITE)) with 43520.
  change (htons (u16 IP_PROTO_UDP)) with 4352. lia.
Qed.

(** A stored checksum is not zero and completes the sum to zero. *)
Definition completes (src_ip dest_ip plen sp dp len chk : Z) (data : list Z) : Prop :=
  is_u16 chk ∧ chk ≠ 0 ∧
  ∃ k, 0 < k ∧ pseudo_sum src_ip dest_ip IP_PROTO_UDP plen (udp_hdr sp dp len chk ++ data) = 65535 * k.

Lemma filled_completes chain src_ip dest_ip plen sp dp len data :
  Forall wf_pbuf chain → is_u32 src_ip → is_u32 dest_ip →
  chain_data chain = udp_hdr sp dp len 0 ++ data → 20 + Z.of_nat (length data) <= 65536 →
  ∃ c, inet_chksum_pseudo chain src_ip dest_ip IP_PROTO_UDP plen = Some c ∧
    completes src_ip dest_ip plen sp dp len (if c =? 0 then 65535 else c) data.
Proof.
  intros Hc Hs Hd E Hl.
  destruct (pseudo_folds chain src_ip dest_ip IP_PROTO_UDP plen) as (x & Hf & ->);
    [done..|rewrite E, length_app; change (length (udp_hdr _ _ _ _)) with 8%nat; lia|].
  rewrite E in Hf. fold (pseudo_sum src_ip dest_ip IP_PROTO_UDP plen (udp_hdr sp dp len 0 ++ data)) in Hf.
  destruct Hf as (H0 & Hx & [k Hk] & Hz). eexists. split; [reflexivity|]. unfold is_u16 in Hx.
  assert (is_u16 (if 65535 - x =? 0 then 65535 else 65535 - x)) as Hc16.
  { unfold is_u16. destruct (Z.eqb_spec (65535 - x) 0); lia. }
  split; [done|]. rewrite pseudo_sum_chk by done. rewrite Hk.
  destruct (Z.eqb_spec (65535 - x) 0); (split; [lia|]).
  - exists (k + 2). lia.
  - exists (k + 1). lia.
Qed.

(** The receiver's checksum of such a datagram is zero, and not zero under the
    protocol number of UDP-Lite. *)
Lemma completes_verifies chain src_ip dest_ip plen sp dp len chk data :
  Forall wf_pbuf chain → is_u32 src_ip → is_u32 dest_ip →
  chain_data chain = udp_hdr sp dp len chk ++ data → 20 + Z.of_nat (length data) <= 65536 →
  completes src_ip dest_ip plen sp dp len chk data →
  inet_chksum_pseudo chain src_ip dest_ip IP_PROTO_UDP plen = Some 0 ∧
  ∃ c, inet_chksum_pseudo chain src_ip dest_ip IP_PROTO_UDPLITE plen = Some c ∧ c ≠ 0.
Proof.
  intros Hc Hs Hd E Hl (Hc16 & Hc0 & k & Hk & Hsum).
  assert (12 + Z.of_nat (length (chain_data chain)) <= 65536) as Hlen
    by (rewrite E, length_app; change (length (udp_hdr _ _ _ _)) with 8%nat; lia).
  split.
  - destruct (pseudo_folds chain src_ip dest_ip IP_PROTO_UDP plen) as (x & Hf & ->); [done..|].
    rewrite E in Hf. fold (pseudo_sum src_ip dest_ip IP_PROTO_UDP plen (udp_hdr sp dp len chk ++ data)) in Hf.
    rewrite Hsum in Hf. destruct Hf as (_ & Hx & [j Hj] & Hz). unfold is_u16 in Hx. f_equal. lia.
  - destruct (pseudo_folds chain src_ip dest_ip IP_PROTO_UDPLITE plen) as (x & Hf & ->); [done..|].
    rewrite E in Hf. fold (pseudo_sum src_ip dest_ip IP_PROTO_UDPLITE plen (udp_hdr sp dp len chk ++ data)) in Hf.
    rewrite pseudo_sum_proto, Hsum in Hf by done. destruct Hf as (_ & Hx & [j Hj] & _). unfold is_u16 in Hx.
    eexists. split; [reflexivity|]. lia.
Qed.

(** * Sending *)

Definition wf_pcb (b : udp_pcb) : Prop :=
  is_u32 (local_ip b) ∧ is_u32 (remote_ip b) ∧ is_u16 (local_port b) ∧ is_u16 (remote_port b) ∧ is_u16 (chksum_len b).

Lemma assign_hdr d h D k v :
  wf_dgram d → dg_data d = h ++ D → length h = 8%nat → 8 <= dg_len d → 0 <= k <= 6 →
  ∃ d', assign 2 (dg_payload d + k) v d = Some d' ∧ wf_dgram d' ∧
    dg_data d' = (take (Z.to_nat k) h ++ le_split 2 v ++ drop (Z.to_nat k + 2) h) ++ D ∧
    dg_payload d' = dg_payload d ∧ 8 <= dg_len d' ∧ dg_tot_len d' = dg_tot_len d.
Proof.
  intros Hd E Hh Hl Hk. destruct (assign_data 2 v d k) as (d' & Ha & Hd' & Hs & Hp & Hln & Ht); [done|lia|lia|].
  exists d'. split; [done|]. split; [done|]. split; [|split; [done|split; [lia|done]]].
  unfold store in Hs. rewrite E in Hs. pose proof (length_le_split 2 v) as H2. generalize dependent (le_split 2 v). intros w Hs H2.
  rewrite put_bytes_Some in Hs by (rewrite H2, length_app; lia). apply (inj Some) in Hs.
  rewrite <-Hs, H2, take_app_le, drop_app_le by lia. by rewrite <-!app_assoc.
Qed.

(** Whether a datagram of the block is sent with a checksum, the length in its
    header and its protocol. *)
Definition lite (b : udp_pcb) : bool := negb (Z.land (flags b) UDP_FLAGS_UDPLITE =? 0).
Definition summed (b : udp_pcb) : bool := lite b || (Z.land (flags b) UDP_FLAGS_NOCHKSUM =? 0).
Definition hdr_len (b : udp_pcb) (D : list Z) : Z := if lite b then chksum_len b else Z.of_nat (length D) + 8.
Definition sent_proto (b : udp_pcb) : Z := if lite b then IP_PROTO_UDPLITE else IP_PROTO_UDP.

(** The bytes that go out for the data [D] with the checksum [c]. *)
Definition datagram (b : udp_pcb) (c : Z) (D : list Z) : list Z :=
  udp_hdr (local_port b) (remote_port b) (hdr_len b D) c ++ D.

Definition proper_chk (b : udp_pcb) (c : Z) (D : list Z) : Prop :=
  if summed b
  then completes (local_ip b) (remote_ip b) (hdr_len b D) (local_port b) (remote_port b) (hdr_len b D) c D
  else c = 0.

Lemma fill_chk b p D plen :
  wf_pcb b → wf_dgram p → 8 <= dg_len p → Z.of_nat (length D) + 28 < 65536 →
  dg_data p = udp_hdr (local_port b) (remote_port b) plen 0 ++ D →
  ∃ c p', inet_chksum_pseudo (dg_chain p) (local_ip b) (remote_ip b) IP_PROTO_UDP plen = Some c ∧
    assign 2 (dg_payload p + 6) (if c =? 0 then 65535 else c) p = Some p' ∧ wf_dgram p' ∧
    dg_data p' = udp_hdr (local_port b) (remote_port b) plen (if c =? 0 then 65535 else c) ++ D ∧
    dg_tot_len p' = dg_tot_len p ∧
    completes (local_ip b) (remote_ip b) plen (local_port b) (remote_port b) plen (if c =? 0 then 65535 else c) D.
Proof.
  intros (Hl & Hr & _) Hp Hlen HD E.
  destruct (filled_completes (dg_chain p) (local_ip b) (remote_ip b) plen (local_port b) (remote_port b) plen D)
    as (c & Hc & Hcomp); [by apply wf_dgram_chain|done|done|done|lia|].
  destruct (assign_hdr p _ D 6 (if c =? 0 then 65535 else c) Hp E) as (p' & Ha & Hp' & Hd' & _ & _ & Ht);
    [done|done|lia|]. exists c, p'. by split_and!.
Qed.

Lemma udp_send_run pcb b d mem u :
  pcbs u !! pcb = Some b → wf_pcb b → wf_dgram d → header_room d mem → dg_tot_len d + 28 < 65536 →
  ∃ d' c, udp_send pcb d mem u
      = Some (ERR_OK, d', Some (Output (dg_chain d') (local_ip b) (remote_ip b) (sent_proto b)),
              with_stats (count_xmit (udp_stats u)) u) ∧
    wf_dgram d' ∧ dg_data d' = datagram b c (dg_data d) ∧ proper_chk b c (dg_data d).
Proof.
  intros Hb Hwf Hd Hroom Htot. unfold udp_send. rewrite Hb. cbn [mbind option_bind].
  pose proof (prepend_header d mem Hd Hroom ltac:(lia)) as Hpre. destruct (dg_header d UDP_HLEN) as [failed p].
  destruct Hpre as (d1 & j & -> & Hd1 & Hj & E1 & L1 & T1).
  set (D := dg_data d) in *. assert (dg_tot_len d = Z.of_nat (length D)) as HD by apply Hd.
  destruct j as [|j0 [|j1 [|j2 [|j3 [|j4 [|j5 [|j6 [|j7 [|? ?]]]]]]]]]; try done. clear Hj.
  destruct (assign_hdr d1 _ D 0 (htons (local_port b)) Hd1 E1) as (d2 & A2 & Hd2 & E2 & P2 & L2 & T2); [done|done|lia|].
  rewrite Z.add_0_r in A2. rewrite A2. cbn [mbind option_bind]. rewrite <-P2.
  destruct (assign_hdr d2 _ D 2 (htons (remote_port b)) Hd2 E2) as (d3 & A3 & Hd3 & E3 & P3 & L3 & T3); [done|done|lia|].
  rewrite A3. cbn [mbind option_bind]. rewrite <-P3.
  destruct (assign_hdr d3 _ D 6 0 Hd3 E3) as (d4 & A4 & Hd4 & E4 & P4 & L4 & T4); [done|done|lia|].
  rewrite A4. cbn [mbind option_bind]. rewrite <-P4. fold (lite b).
  unfold datagram, proper_chk, summed, hdr_len, sent_proto. destruct (lite b) eqn:El.
  - destruct (assign_hdr d4 _ D 4 (htons (chksum_len b)) Hd4 E4) as (d5 & A5 & Hd5 & E5 & P5 & L5 & T5); [done|done|lia|].
    rewrite A5. cbn [mbind option_bind]. rewrite <-P5.
    destruct (fill_chk b d5 D (chksum_len b)) as (c & d6 & -> & Ha & Hd6 & E6 & _ & Hc); [done|done|lia|lia|exact E5|].
    cbn [mbind option_bind]. rewrite Ha. cbn [mbind option_bind]. exists d6, (if c =? 0 then 65535 else c). done.
  - destruct (assign_hdr d4 _ D 4 (htons (dg_tot_len d4)) Hd4 E4) as (d5 & A5 & Hd5 & E5 & P5 & L5 & T5); [done|done|lia|].
    rewrite A5. cbn [mbind option_bind]. rewrite <-P5.
    assert (dg_tot_len d5 = Z.of_nat (length D) + 8) as HT by lia.
    replace (dg_tot_len d4) with (Z.of_nat (length D) + 8) in E5 by lia.
    destruct (Z.land (flags b) UDP_FLAGS_NOCHKSUM =? 0); cbn [orb].
    + rewrite HT. destruct (fill_chk b d5 D (Z.of_nat (length D) + 8)) as (c & d6 & -> & Ha & Hd6 & E6 & _ & Hc);
        [done|done|lia|lia|exact E5|]. cbn [mbind option_bind]. rewrite Ha. cbn [mbind option_bind]. exists d6, (if c =? 0 then 65535 else c). done.
    + cbn. exists d5, 0. split; [reflexivity|]. by split.
Qed.

(** * Reception *)

(** A buffer chain with an IP packet that carries [S]; the first buffer holds the
    IP header and the UDP header. *)
Record ip_dgram (r : dgram) (src dst proto n : Z) (S : list Z) : Prop := {
  id_wf : wf_dgram r;
  id_limit : dg_limit r <= dg_payload r;
  id_hl : ∃ v, fetch 2 r (dg_payload r) = Some v ∧ n = IPH_HL v * 4;
  id_len : 20 <= n ∧ n + 8 <= dg_len r;
  id_proto : ∃ w, fetch 2 r (dg_payload r + 8) = Some w ∧ IPH_PROTO w = proto;
  id_src : fetch 4 r (dg_payload r + 12) = Some src;
  id_dst : fetch 4 r (dg_payload r + 16) = Some dst;
  id_data : drop (Z.to_nat n) (dg_data r) = S
}.

(** The block a datagram is for: the first one bound to its ports and addresses,
    else the first one bound to its port and addresses. *)
Definition udp_target (e : endpoints) (src dest src_ip dest_ip : Z) : option Z :=
  match first_match (λ _, perfect_match src dest src_ip dest_ip) (fields e) (ports e) with
  | Some a => Some a
  | None => first_match (λ _, port_match dest src_ip dest_ip) (fields e) (ports e)
  end.

Lemma fetch_area n d d' off : dg_area d = dg_area d' → fetch n d off = fetch n d' off.
Proof. unfold fetch. by intros ->. Qed.

(** To the data behind both headers, back to the UDP header and forth again. *)
Lemma strip_twice d n :
  wf_dgram d → dg_limit d <= dg_payload d → 0 <= n → n + UDP_HLEN <= dg_len d →
  ∃ d1 d2, dg_header d (- (UDP_HLEN + n)) = (0, d1) ∧ dg_header d1 UDP_HLEN = (0, d2) ∧
    dg_header d2 (- UDP_HLEN) = (0, d1) ∧ wf_dgram d1 ∧ wf_dgram d2 ∧
    dg_data d1 = drop (Z.to_nat UDP_HLEN) (dg_data d2) ∧ dg_data d2 = drop (Z.to_nat n) (dg_data d) ∧
    dg_area d1 = dg_area d ∧ dg_area d2 = dg_area d ∧ dg_payload d1 = dg_payload d2 + UDP_HLEN ∧
    dg_payload d2 = dg_payload d + n ∧ dg_len d2 = dg_len d - n ∧ dg_tot_len d2 = dg_tot_len d - n.
Proof.
  intros Hd Hlim Hn Hl. unfold UDP_HLEN in *.
  destruct (strip_header d n) as (d2 & E2 & Hd2 & D2 & A2 & Li2 & P2 & L2 & T2); [done|done|lia|].
  destruct (strip_header d2 8) as (d1 & E1 & Hd1 & D1 & A1 & Li1 & P1 & L1 & T1); [done|lia|lia|].
  exists d1, d2. assert (is_u16 (dg_len d2) ∧ is_u16 (dg_tot_len d2)) as [U1 U2] by (split; apply Hd2).
  assert (is_u16 (dg_len d) ∧ is_u16 (dg_tot_len d)) as [U3 U4] by (split; apply Hd).
  assert (is_u16 (dg_len d1) ∧ is_u16 (dg_tot_len d1)) as [U5 U6] by (split; apply Hd1).
  assert (dg_rest d2 = dg_rest d ∧ dg_rest d1 = dg_rest d2) as [R2 R1].
  { unfold dg_header in E1, E2. destruct (_ <? _); [done|]. injection E2 as <-. destruct (_ <? _); [done|]. by injection E1 as <-. }
  unfold is_u16 in *. split.
  { unfold dg_header. destruct (Z.ltb_spec (dg_payload d - - (8 + n)) (dg_limit d)); [lia|].
    rewrite !u16_small by (unfold is_u16; lia). destruct d1; cbn in *. do 2 f_equal; congruence || lia. }
  split.
  { unfold dg_header. destruct (Z.ltb_spec (dg_payload d1 - 8) (dg_limit d1)); [lia|].
    rewrite !u16_small by (unfold is_u16; lia). destruct d2; cbn in *. do 2 f_equal; congruence || lia. }
  split; [done|]. split_and!; try done; congruence || lia.
Qed.

Lemma find_target u e src dest sip dip (s : Memp.memp_t → Z) m :
  udp_refines s m u e →
  (pcb ← find_pcb (λ _, perfect_match src dest sip dip) u;
   match pcb with None => find_pcb (λ _, port_match dest sip dip) u | Some _ => Some pcb end)
  = Some (udp_target e src dest sip dip).
Proof.
  intros Hr. unfold udp_target. rewrite (ur_fields _ _ _ _ Hr), !first_match_forget by done.
  rewrite !(find_pcb_run _ _ _ _ _ Hr). cbn [mbind option_bind]. by destruct (first_match _ _ _).
Qed.

Lemma load_hdr sp dp len chk D :
  is_u16 chk →
  let S := udp_hdr sp dp len chk ++ D in
  load 2 S 0 = Some (htons sp) ∧ load 2 S 2 = Some (htons dp) ∧ load 2 S 4 = Some (htons len) ∧ load 2 S 6 = Some chk.
Proof.
  intros Hc S. assert (∀ v l1 l2, is_u16 v → load 2 (l1 ++ le_split 2 v ++ l2) (length l1) = Some v) as H.
  { intros v l1 l2 Hv. unfold load. rewrite get_bytes_Some by (rewrite !length_app, length_le_split; lia).
    rewrite drop_app_length, take_app_length' by done. cbn [fmap option_fmap option_map]. f_equal.
    apply le_combine_split_small. exact Hv. }
  pose proof (swap16_range sp). pose proof (swap16_range dp). pose proof (swap16_range len).
  split_and!.
  - by apply (H (htons sp) []).
  - by apply (H (htons dp) (le_split 2 (htons sp))).
  - by apply (H (htons len) (le_split 2 (htons sp) ++ le_split 2 (htons dp))).
  - by apply (H chk (le_split 2 (htons sp) ++ le_split 2 (htons dp) ++ le_split 2 (htons len)) D).
Qed.

Section input.
Context (memp_sizes : memp_t → Z) (memp_memory : Z).

(** The test of the checksum. *)
Definition received_chk (p : dgram) (sip dip proto len chk : Z) : option Z :=
  if proto =? IP_PROTO_UDPLITE then inet_chksum_pseudo (dg_chain p) sip dip IP_PROTO_UDPLITE len
  else if negb (chk =? 0) then inet_chksum_pseudo (dg_chain p) sip dip IP_PROTO_UDP (dg_tot_len p)
  else Some 0.

Lemma udp_input_run r sip dip proto n sp dp len chk D u e :
  ip_dgram r sip dip proto n (udp_hdr sp dp len chk ++ D) →
  is_u16 sp → is_u16 dp → is_u16 len → is_u16 chk → udp_refines memp_sizes memp_memory u e →
  ∃ p1 p2, dg_data p1 = D ∧ dg_data p2 = udp_hdr sp dp len chk ++ D ∧ wf_dgram p2 ∧
    dg_tot_len p2 = Z.of_nat (length D) + 8 ∧
    let u1 := with_stats (count_recv (udp_stats u)) u in
    udp_input r u =
      match udp_target e sp dp sip dip with
      | None => Some (Freed p1, u1)
      | Some a =>
          c ← received_chk p2 sip dip proto len chk;
          if negb (c =? 0) then Some (Freed p2, with_stats (count_chkerr (udp_stats u1)) u1)
          else b ← pcbs u !! a; f ← recv b; Some (Received f (recv_arg b) a p1 sip sp, u1)
      end.
Proof.
  intros [Hwf Hlim (v & Hv & Hn) [Hn1 Hn2] (w & Hw & Hproto) Hsrc Hdst HS] Hsp Hdp Hlen Hchk Hr.
  destruct (strip_twice r n) as (p1 & p2 & E1 & E2 & E3 & Hp1 & Hp2 & D1 & D2 & A1 & A2 & P1 & P2 & L2 & T2);
    [done|done|lia|unfold UDP_HLEN; lia|].
  destruct (load_hdr sp dp len chk D Hchk) as (F0 & F2 & F4 & F6). rewrite HS in D2. rewrite D2 in D1.
  change (drop (Z.to_nat UDP_HLEN) (udp_hdr sp dp len chk ++ D)) with D in D1.
  assert (∀ d k x, dg_area d = dg_area r → 0 <= k <= 6 →
    load 2 (udp_hdr sp dp len chk ++ D) (Z.to_nat k) = Some x → fetch 2 d (dg_payload p2 + k) = Some x) as HF.
  { intros d k x Ha Hk <-. rewrite (fetch_area _ _ p2), <-D2 by congruence. apply fetch_data; [done|lia|lia]. }
  exists p1, p2. split; [done|]. split; [done|]. split; [done|]. split.
  { rewrite (wd_tot_len _ Hp2), D2, length_app. change (length (udp_hdr _ _ _ _)) with 8%nat. lia. }
  unfold udp_input. cbv zeta. rewrite Hv. cbn [mbind option_bind]. rewrite <-Hn, E1. cbn [snd].
  replace (dg_payload p1 - UDP_HLEN) with (dg_payload p2 + 0) by lia.
  rewrite (HF p1 0 _ ltac:(done) ltac:(lia) F0). cbn [fmap option_fmap option_map mbind option_bind].
  rewrite Z.add_0_r, (HF p1 2 _ ltac:(done) ltac:(lia) F2). cbn [fmap option_fmap option_map mbind option_bind].
  rewrite (fetch_area 4 p1 r (dg_payload r + 12) A1), Hsrc. cbn [mbind option_bind].
  rewrite (fetch_area 4 p1 r (dg_payload r + 16) A1), Hdst. cbn [mbind option_bind].
  unfold htons, ntohs. rewrite !swap16_involutive by done.
  set (u1 := with_stats (count_recv (udp_stats u)) u).
  pose proof (find_target u1 e sp dp sip dip memp_sizes memp_memory) as Ht.
  assert (udp_refines memp_sizes memp_memory u1 e) as Hr1 by (destruct Hr; by split).
  specialize (Ht Hr1). destruct (find_pcb (λ _, perfect_match sp dp sip dip) u1) as [o|]; [|done].
  cbn [mbind option_bind] in *. rewrite Ht. cbn [mbind option_bind].
  destruct (udp_target e sp dp sip dip) as [a|]; [|done]. rewrite E2. cbn [snd].
  rewrite (fetch_area 2 p2 r (dg_payload r + 8) A2), Hw. cbn [mbind option_bind].
  rewrite (HF p2 4 _ ltac:(done) ltac:(lia) F4). cbn [mbind option_bind].
  rewrite (HF p2 6 _ ltac:(done) ltac:(lia) F6). cbn [mbind option_bind].
  rewrite Hproto, E3. unfold received_chk, htons. rewrite swap16_involutive by done. done.
Qed.

Context `{Placed memp_sizes memp_memory}.

Lemma udp_hdr_len b D : wf_pcb b → Z.of_nat (length D) + 28 < 65536 → is_u16 (hdr_len b D).
Proof. intros (_ & _ & _ & _ & Hc) HD. unfold hdr_len. destruct (lite b); [done|unfold is_u16; lia]. Qed.

Lemma proper_chk_u16 b c D : proper_chk b c D → is_u16 c.
Proof. unfold proper_chk. destruct (summed b); [by intros [? _]|by intros ->]. Qed.

Lemma received_chk_sent b c D p :
  wf_pcb b → wf_dgram p → Z.of_nat (length D) + 28 < 65536 → dg_data p = datagram b c D →
  dg_tot_len p = Z.of_nat (length D) + 8 → proper_chk b c D →
  ∃ x, received_chk p (local_ip b) (remote_ip b) (sent_proto b) (hdr_len b D) c = Some x ∧ (x = 0 ↔ lite b = false).
Proof.
  intros (Hl & Hr & _) Hp HD Hdata Htot Hc. unfold received_chk, sent_proto, proper_chk, summed in *.
  destruct (lite b) eqn:El; cbn [orb] in Hc.
  - rewrite Z.eqb_refl. destruct (completes_verifies (dg_chain p) _ _ _ _ _ _ _ D (wf_dgram_chain _ Hp) Hl Hr Hdata ltac:(lia) Hc)
      as [_ (x & -> & Hx)]. by exists x.
  - change (IP_PROTO_UDP =? IP_PROTO_UDPLITE) with false. cbv iota. destruct (Z.land _ _ =? 0).
    + destruct (Z.eqb_spec c 0) as [->|]; [by destruct Hc as (_ & ? & _)|]. cbn [negb]. rewrite Htot.
      unfold hdr_len in Hc, Hdata. rewrite El in Hc.
      destruct (completes_verifies (dg_chain p) _ _ _ _ _ _ _ D (wf_dgram_chain _ Hp) Hl Hr
        ltac:(unfold datagram, hdr_len in Hdata; rewrite El in Hdata; exact Hdata) ltac:(lia) Hc) as [-> _]. by exists 0.
    + subst c. by exists 0.
Qed.

(** What becomes of a datagram at the other end. *)
Lemma sent_received b c D r n u e :
  wf_pcb b → Z.of_nat (length D) + 28 < 65536 → proper_chk b c D →
  ip_dgram r (local_ip b) (remote_ip b) (sent_proto b) n (datagram b c D) → udp_refines memp_sizes memp_memory u e →
  ∃ p1 p2, dg_data p1 = D ∧
    let u1 := with_stats (count_recv (udp_stats u)) u in
    udp_input r u =
      match udp_target e (local_port b) (remote_port b) (local_ip b) (remote_ip b) with
      | None => Some (Freed p1, u1)
      | Some a =>
          if lite b then Some (Freed p2, with_stats (count_chkerr (udp_stats u1)) u1)
          else b2 ← pcbs u !! a; f ← recv b2; Some (Received f (recv_arg b2) a p1 (local_ip b) (local_port b), u1)
      end.
Proof.
  intros Hb HD Hc Hr Hu. pose proof Hb as (_ & _ & Hlp & Hrp & _).
  destruct (udp_input_run r _ _ _ n _ _ _ _ D u e Hr) as (p1 & p2 & D1 & D2 & Hp2 & T2 & ->);
    [done|done|by apply udp_hdr_len|by eapply proper_chk_u16|done|].
  exists p1, p2. split; [done|]. cbv zeta. destruct (udp_target _ _ _ _ _) as [a|]; [|done].
  destruct (received_chk_sent b c D p2) as (x & -> & Hx); [done..|]. cbn [mbind option_bind].
  destruct (lite b), (Z.eqb_spec x 0); cbn [negb]; naive_solver.
Qed.

Lemma pcbs_fields u e a b2 f :
  udp_refines memp_sizes memp_memory u e → fields e !! a = Some b2 → recv b2 = Some f →
  ∃ b, pcbs u !! a = Some b ∧ recv b = Some f ∧ recv_arg b = recv_arg b2.
Proof.
  intros Hu. rewrite (ur_fields _ _ _ _ Hu), lookup_fmap, fmap_Some. intros (b & Hb & ->) Hf. by exists b.
Qed.

(** C25: a datagram of less than 65508 bytes arrives that is sent on a block not
    set to UDP-Lite.  [udp_send]
    puts a header in front of the data, in the room there is or in a buffer of
    its own, for which there must be memory, and hands the bytes to the network;
    whatever buffers they fill at the receiver, as long as the first one holds
    the IP header and the UDP header, [udp_input] accepts them
    and calls the function of the block they are for, with the same data, the
    sender's address and its port, and without a block for them it frees them
    without a word to the sender. *)
Theorem udp_datagram_arrives pcb b d mem u :
  pcbs u !! pcb = Some b → wf_pcb b → lite b = false →
  wf_dgram d → header_room d mem → dg_tot_len d + 28 < 65536 →
  ∃ d' out u', udp_send pcb d mem u = Some (ERR_OK, d', Some out, u') ∧
    out_src out = local_ip b ∧ out_dst out = remote_ip b ∧ out_proto out = IP_PROTO_UDP ∧
    ∀ r n v e, udp_reach memp_sizes memp_memory v e →
      ip_dgram r (out_src out) (out_dst out) (out_proto out) n (chain_data (out_chain out)) →
      ∃ r' v', dg_data r' = dg_data d ∧
      match udp_target e (local_port b) (remote_port b) (local_ip b) (remote_ip b) with
      | Some a => ∀ b2 f, fields e !! a = Some b2 → recv b2 = Some f →
          udp_input r v = Some (Received f (recv_arg b2) a r' (local_ip b) (local_port b), v')
      | None => udp_input r v = Some (Freed r', v')
      end.
Proof.
  intros Hpcb Hb Hl Hd Hroom Htot. pose proof (wd_tot_len _ Hd) as HD.
  destruct (udp_send_run pcb b d mem u) as (d' & c & E & Hd' & Hdata & Hc); [done..|].
  eexists d', _, _. split; [exact E|]. cbn [out_src out_dst out_proto out_chain].
  split; [done|]. split; [done|]. split; [unfold sent_proto; by rewrite Hl|].
  intros r n v e Hv0 Hr. pose proof (udp_reach_refines _ _ _ _ Hv0) as Hv. fold (dg_data d') in Hr. rewrite Hdata in Hr.
  destruct (sent_received b c (dg_data d) r n v e) as (p1 & p2 & D1 & ->); [done|lia|done|done|done|].
  exists p1, (with_stats (count_recv (udp_stats v)) v). split; [done|]. destruct (udp_target _ _ _ _ _) as [a|]; [|reflexivity].
  intros b2 f Hb2 Hf. destruct (pcbs_fields v e a b2 f Hv Hb2 Hf) as (b3 & -> & Hf3 & Ha3). rewrite Hl.
  cbn [mbind option_bind]. by rewrite Hf3, Ha3.
Qed.

(** no datagram of UDP-Lite arrives.  The sender computes its checksum with
    the protocol number of UDP and the receiver with that of UDP-Lite, so that
    [udp_input] frees every datagram that [udp_send] sends for a UDP-Lite block
    and counts a checksum error, whichever block it is for. *)
Theorem udp_lite_never_arrives pcb b d mem u :
  pcbs u !! pcb = Some b → wf_pcb b → lite b = true →
  wf_dgram d → header_room d mem → dg_tot_len d + 28 < 65536 →
  ∃ d' out u', udp_send pcb d mem u = Some (ERR_OK, d', Some out, u') ∧
    out_src out = local_ip b ∧ out_dst out = remote_ip b ∧ out_proto out = IP_PROTO_UDPLITE ∧
    ∀ r n v e a, udp_reach memp_sizes memp_memory v e →
      ip_dgram r (out_src out) (out_dst out) (out_proto out) n (chain_data (out_chain out)) →
      udp_target e (local_port b) (remote_port b) (local_ip b) (remote_ip b) = Some a →
      ∃ r', udp_input r v
        = Some (Freed r', with_stats (count_chkerr (count_recv (udp_stats v))) v).
Proof.
  intros Hpcb Hb Hl Hd Hroom Htot. pose proof (wd_tot_len _ Hd) as HD.
  destruct (udp_send_run pcb b d mem u) as (d' & c & E & Hd' & Hdata & Hc); [done..|].
  eexists d', _, _. split; [exact E|]. cbn [out_src out_dst out_proto out_chain].
  split; [done|]. split; [done|]. split; [unfold sent_proto; by rewrite Hl|].
  intros r n v e a Hv0 Hr Ht. pose proof (udp_reach_refines _ _ _ _ Hv0) as Hv. fold (dg_data d') in Hr. rewrite Hdata in Hr.
  destruct (sent_received b c (dg_data d) r n v e) as (p1 & p2 & D1 & ->); [done|lia|done|done|done|].
  rewrite Ht, Hl. by exists p2.
Qed.
End input.

(** * Sample runs *)

(** A block of the sender, with the given flags, and three bytes of data with
    room in front. *)
Definition sender_ops (fl : Z) : list udp_op :=
  [New; SetFlags first_pcb fl; Bind first_pcb (Some 167772161) 1234; Connect first_pcb (Some 184549377) 53].

Definition sample_data : dgram := Dgram (replicate 40 9 ++ [104; 105; 33]) 0 40 3 3 [].

Lemma sample_data_wf : wf_dgram sample_data.
Proof. split; [by apply (bool_decide_unpack _)|done|done|done|constructor|done|done]. Qed.

(** An IP header of twenty bytes in front of the bytes [l], of which the first
    eight are in the first buffer. *)
Definition ip_packet (proto : Z) (l : list Z) : dgram :=
  let hdr := [69; 0; 0; 0; 0; 0; 64; 0; 64; proto; 0; 0] ++ le_split 4 167772161 ++ le_split 4 184549377 in
  Dgram (replicate 16 7 ++ hdr ++ take 8 l) 0 16 28 (20 + Z.of_nat (length l)) [Pbuf (drop 8 l) (Z.of_nat (length l) - 8)].

(** What the sender sends, without and with the flag of UDP-Lite. *)
Definition sent_bytes (chk : list Z) (len : Z) : list Z := [4; 210; 0; 53; 0; len] ++ chk ++ [104; 105; 33].

Definition sent_bytes_run (fl : Z) : option (list Z) :=
  '(u, _) ← udp_run (sender_ops fl);
  '(_, _, o, _) ← udp_send first_pcb sample_data None u;
  o ← o; Some (chain_data (out_chain o)).

Lemma sent_bytes_plain : sent_bytes_run 0 = Some (sent_bytes [111; 83] 11).
Proof. vm_compute. reflexivity. Qed.
Lemma sent_bytes_lite : sent_bytes_run 2 = Some (sent_bytes [111; 105] 0).
Proof. vm_compute. reflexivity. Qed.

Lemma sender_runs fl :
  fl = 0 ∨ fl = 2 →
  (λ st, pcbs st.1 !! first_pcb) <$> udp_run (sender_ops fl)
  = Some (Some (UdpPcb None 167772161 184549377 1234 53 fl 0 None None)).
Proof. intros [->| ->]; vm_compute; reflexivity. Qed.

Lemma receiver_runs :
  (λ st, (fields st.2 !! first_pcb, udp_target st.2 1234 53 167772161 184549377, us_chkerr (udp_stats st.1)))
    <$> udp_run two_ports
  = Some (Some (UdpPcb None 0 0 53 0 0 0 (Some 4096) (Some 7)), Some first_pcb, 0).
Proof. vm_compute. reflexivity. Qed.

Lemma sent_bytes_out fl u e d' o u' l :
  udp_run (sender_ops fl) = Some (u, e) → udp_send first_pcb sample_data None u = Some (ERR_OK, d', Some o, u') →
  sent_bytes_run fl = Some l → chain_data (out_chain o) = l.
Proof. intros Eu Es. unfold sent_bytes_run. rewrite Eu. cbn [mbind option_bind]. rewrite Es. by intros [= <-]. Qed.

Ltac check_packet :=
  split; [split; [by apply (bool_decide_unpack _)|done|done|vm_compute; discriminate
                 |repeat constructor; vm_compute; congruence|done|done]
         |done|eexists; split; reflexivity|vm_compute; split; discriminate|eexists; split; reflexivity
         |reflexivity|reflexivity|reflexivity].

Lemma ip_packet_plain :
  ip_dgram (ip_packet 17 (sent_bytes [111; 83] 11)) 167772161 184549377 17 20 (sent_bytes [111; 83] 11).
Proof. check_packet. Qed.
Lemma ip_packet_lite :
  ip_dgram (ip_packet 170 (sent_bytes [111; 105] 0)) 167772161 184549377 170 20 (sent_bytes [111; 105] 0).
Proof. check_packet. Qed.

Lemma udp_datagram_arrives_witness :
  ∃ u e d' out u' v ev r' v', udp_run (sender_ops 0) = Some (u, e) ∧
    udp_send first_pcb sample_data None u = Some (ERR_OK, d', Some out, u') ∧
    udp_run two_ports = Some (v, ev) ∧
    udp_input (ip_packet 17 (chain_data (out_chain out))) v
      = Some (Received 4096 (Some 7) first_pcb r' 167772161 1234, v') ∧ dg_data r' = [104; 105; 33].
Proof.
  pose proof (sender_runs 0 ltac:(by left)) as Hu. pose proof receiver_runs as Hv.
  destruct (udp_run (sender_ops 0)) as [[u e]|] eqn:Eu; [|discriminate Hu].
  destruct (udp_run two_ports) as [[v ev]|] eqn:Ev; [|discriminate Hv].
  apply (inj Some) in Hu, Hv. cbn [fst snd] in Hu, Hv. injection Hv as Hf Ht _.
  destruct (udp_datagram_arrives sample_sizes 6291456 first_pcb _ sample_data None u Hu)
    as (d' & out & u' & Es & Hsrc & Hdst & Hpr & Hin).
  - repeat split; vm_compute; congruence.
  - reflexivity.
  - exact sample_data_wf.
  - split; [done|]. vm_compute. discriminate.
  - reflexivity.
  - pose proof (sent_bytes_out 0 u e d' out u' _ Eu Es sent_bytes_plain) as Hout.
    destruct (Hin (ip_packet 17 (chain_data (out_chain out))) 20 v ev (udp_run_reach _ _ _ Ev)) as (r' & v' & Hd & Hr).
    + rewrite Hsrc, Hdst, Hpr, Hout. exact ip_packet_plain.
    + cbn [local_port remote_port local_ip remote_ip] in Hr. rewrite Ht in Hr.
      exists u, e, d', out, u', v, ev, r', v'. split; [reflexivity|]. split; [exact Es|]. split; [reflexivity|].
      split; [exact (Hr _ _ Hf eq_refl)|exact Hd].
Defined.

Lemma udp_lite_never_arrives_witness :
  ∃ u e d' out u' v ev r' v', udp_run (sender_ops 2) = Some (u, e) ∧
    udp_send first_pcb sample_data None u = Some (ERR_OK, d', Some out, u') ∧
    udp_run two_ports = Some (v, ev) ∧
    udp_input (ip_packet 170 (chain_data (out_chain out))) v = Some (Freed r', v') ∧ us_chkerr (udp_stats v') = 1.
Proof.
  pose proof (sender_runs 2 ltac:(by right)) as Hu. pose proof receiver_runs as Hv.
  destruct (udp_run (sender_ops 2)) as [[u e]|] eqn:Eu; [|discriminate Hu].
  destruct (udp_run two_ports) as [[v ev]|] eqn:Ev; [|discriminate Hv].
  apply (inj Some) in Hu, Hv. cbn [fst snd] in Hu, Hv. injection Hv as Hf Ht Hc.
  destruct (udp_lite_never_arrives sample_sizes 6291456 first_pcb _ sample_data None u Hu)
    as (d' & out & u' & Es & Hsrc & Hdst & Hpr & Hin).
  - repeat split; vm_compute; congruence.
  - reflexivity.
  - exact sample_data_wf.
  - split; [done|]. vm_compute. discriminate.
  - reflexivity.
  - pose proof (sent_bytes_out 2 u e d' out u' _ Eu Es sent_bytes_lite) as Hout.
    destruct (Hin (ip_packet 170 (chain_data (out_chain out))) 20 v ev first_pcb (udp_run_reach _ _ _ Ev)) as (r' & Hr).
    + rewrite Hsrc, Hdst, Hpr, Hout. exact ip_packet_lite.
    + exact Ht.
    + eexists u, e, d', out, u', v, ev, r', _. split; [reflexivity|]. split; [exact Es|]. split; [reflexivity|].
      split; [exact Hr|]. cbn. by rewrite Hc.
Defined.

(** A buffer that refers to the caller's data is written to in front of the data
    when its structure lies at lower addresses: here eight bytes of the caller's
    memory become the header. *)
Definition overwritten_memory : option (list Z) :=
  '(u, _) ← udp_run (sender_ops 0);
  '(_, d, _, _) ← udp_send first_pcb
    (Dgram [1; 2; 3; 4; 5; 6; 7; 8; 9; 10; 104; 105; 33; 11; 12] (- 4096) 10 3 3 []) None u;
  Some (dg_area d).

Example udp_send_overwrites_caller :
  overwritten_memory = Some [1; 2; 4; 210; 0; 53; 0; 11; 111; 83; 104; 105; 33; 11; 12].
Proof. vm_compute. reflexivity. Qed.

(** A datagram shorter than its headers is not rejected: the length of the data
    wraps around. *)
Definition short_datagram_len : option Z :=
  '(v, _) ← udp_run two_ports;
  '(r, _) ← udp_input (Dgram (replicate 16 7 ++ [69; 0; 0; 22; 0; 0; 64; 0; 64; 17; 0; 0] ++ le_split 4 167772161
                        ++ le_split 4 184549377 ++ [4; 210; 0; 53; 0; 11; 0; 0]) 0 16 22 22 []) v;
  match r with Received _ _ _ d _ _ => Some (dg_tot_len d) | Freed _ => None end.

Example udp_input_accepts_short : short_datagram_len = Some 65530.
Proof. vm_compute. reflexivity. Qed.
