(* ===== verification/ApiMsg.v ===== *)
(** The messages of the other threads to the TCP stack, and the functions that
    TCP and UDP call for a connection (lwtcp/api_msg.c, lwtcp/transport_subsys.c,
    and the functions of lwtcp/api_lib.c that make, bind, connect, close and
    delete connections).

    A thread that uses a connection posts a message and waits for an answer in
    the mailbox [mbox] of the connection; the thread of the stack takes the
    messages one after the other.  All messages in [mbox] are null pointers, so
    their number is kept; mailboxes have room (file Mailbox).  TCP is an
    interface, [TcpApi]; UDP is the file Udp.  [allocs] are the results of the next
    allocations.  Using a null pointer or a block that does not exist is the
    result [None].  [connecting] are the connections whose SYN is under way. *)

From Stdlib Require Import ZArith Lia.
From stdpp Require Import base tactics numbers gmap option list.
From S2P Require Import Prelude Udp Tcp Sockets.

Local Open Scope Z_scope.

(** What TCP offers: blocks by their addresses, a null pointer is [None].
    [tcp_close] says also whether it has freed the block. *)
Class TcpApi (T : Type) := {
  tcp_new : T → option Z * T;
  tcp_bind : Z → option Z → Z → T → err * T;
  tcp_listen : Z → T → option Z * T;
  tcp_connect : Z → option Z → Z → T → err * T;
  tcp_close : Z → T → err * bool * T;
  tcp_abort : Z → T → T;
  tcp_write : Z → list Z → T → err * T;
  tcp_output : Z → T → T;
  tcp_recved : Z → Z → T → T;
  tcp_all_acked : Z → T → bool;
  tcp_listening : Z → T → bool
}.

Inductive netconn_state :=
  | NETCONN_NONE | NETCONN_WRITE | NETCONN_ACCEPT | NETCONN_RECV | NETCONN_CONNECT | NETCONN_CLOSE.

#[global] Instance netconn_state_eq_dec : EqDecision netconn_state.
Proof. solve_decision. Defined.

(** What is in a receive mailbox: the data of a segment, or a [struct netbuf]. *)
Inductive parcel := Segment (p : list Z) | Netbuf (p : dgram) (fromaddr fromport : Z).

Record netconn := Netconn {
  type : netconn_type;
  state : netconn_state;
  pcb : option Z;
  conn_err : err;
  mbox : option nat;
  recvmbox : option (list (option parcel));
  acceptmbox : option (list (option Z));
  sem : option Z
}.

Definition with_state (v : netconn_state) (k : netconn) : netconn :=
  Netconn (type k) v (pcb k) (conn_err k) (mbox k) (recvmbox k) (acceptmbox k) (sem k).
Definition with_pcb (v : option Z) (k : netconn) : netconn :=
  Netconn (type k) (state k) v (conn_err k) (mbox k) (recvmbox k) (acceptmbox k) (sem k).
Definition with_err (v : err) (k : netconn) : netconn :=
  Netconn (type k) (state k) (pcb k) v (mbox k) (recvmbox k) (acceptmbox k) (sem k).
Definition with_mbox (v : option nat) (k : netconn) : netconn :=
  Netconn (type k) (state k) (pcb k) (conn_err k) v (recvmbox k) (acceptmbox k) (sem k).
Definition with_recvmbox (v : option (list (option parcel))) (k : netconn) : netconn :=
  Netconn (type k) (state k) (pcb k) (conn_err k) (mbox k) v (acceptmbox k) (sem k).
Definition with_acceptmbox (v : option (list (option Z))) (k : netconn) : netconn :=
  Netconn (type k) (state k) (pcb k) (conn_err k) (mbox k) (recvmbox k) v (sem k).
Definition with_sem (v : option Z) (k : netconn) : netconn :=
  Netconn (type k) (state k) (pcb k) (conn_err k) (mbox k) (recvmbox k) (acceptmbox k) v.

(** [callback_arg] of a TCP block: a connection, or its field [acceptmbox]. *)
Inductive callback_arg := ArgConn (c : Z) | ArgAcceptmbox (c : Z).

(** The functions registered for a TCP block, which are those of this file. *)
Record hook := Hook {
  h_arg : option callback_arg;
  h_recv : bool;
  h_sent : bool;
  h_err : bool;
  h_accept : bool;
  h_poll : option Z
}.

Definition no_hook : hook := Hook None false false false false None.

(** The fields of [struct api_msg]; [api_msg_type] and the union are one type. *)
Inductive api_request :=
  | API_MSG_NEWCONN
  | API_MSG_DELCONN
  | API_MSG_BIND (ipaddr : option Z) (port : Z)
  | API_MSG_CONNECT (ipaddr : option Z) (port : Z)
  | API_MSG_LISTEN
  | API_MSG_ACCEPT
  | API_MSG_SEND (p : dgram)
  | API_MSG_RECV (len : Z)
  | API_MSG_WRITE (data : list Z)
  | API_MSG_CLOSE.

Record api_msg := ApiMsg { msg_conn : Z; request : api_request }.

Section api.
Context {T : Type} `{TcpApi T}.

Record api := Api {
  conns : gmap Z netconn;
  hooks : gmap Z hook;
  tcp : T;
  udps : udp;
  queue : list api_msg;
  allocs : list bool;
  connecting : gset Z;
  datagrams : list output
}.

Definition with_conns (v : gmap Z netconn) (s : api) : api :=
  Api v (hooks s) (tcp s) (udps s) (queue s) (allocs s) (connecting s) (datagrams s).
Definition with_hooks (v : gmap Z hook) (s : api) : api :=
  Api (conns s) v (tcp s) (udps s) (queue s) (allocs s) (connecting s) (datagrams s).
Definition with_tcp (v : T) (s : api) : api :=
  Api (conns s) (hooks s) v (udps s) (queue s) (allocs s) (connecting s) (datagrams s).
Definition with_udps (v : udp) (s : api) : api :=
  Api (conns s) (hooks s) (tcp s) v (queue s) (allocs s) (connecting s) (datagrams s).
Definition with_queue (v : list api_msg) (s : api) : api :=
  Api (conns s) (hooks s) (tcp s) (udps s) v (allocs s) (connecting s) (datagrams s).
Definition with_allocs (v : list bool) (s : api) : api :=
  Api (conns s) (hooks s) (tcp s) (udps s) (queue s) v (connecting s) (datagrams s).
Definition with_connecting (v : gset Z) (s : api) : api :=
  Api (conns s) (hooks s) (tcp s) (udps s) (queue s) (allocs s) v (datagrams s).
Definition with_datagrams (v : list output) (s : api) : api :=
  Api (conns s) (hooks s) (tcp s) (udps s) (queue s) (allocs s) (connecting s) v.

Definition AM (A : Type) : Type := api → option (A * api).

#[global] Instance am_ret : MRet AM := λ A a s, Some (a, s).
#[global] Instance am_bind : MBind AM := λ A B f m s, match m s with Some (a, s) => f a s | None => None end.

Definition state_of : AM api := λ s, Some (s, s).
Definition null {A} : AM A := λ _, None.

(** An allocation from a pool, or of a mailbox or a semaphore, succeeds. *)
Definition alloc : AM bool := λ s,
  match allocs s with [] => Some (false, s) | b :: l => Some (b, with_allocs l s) end.

Definition get (c : Z) : AM netconn := λ s, k ← conns s !! c; Some (k, s).
Definition put (c : Z) (f : netconn → netconn) : AM unit := λ s,
  k ← conns s !! c; Some (tt, with_conns (<[c := f k]> (conns s)) s).

Definition on_tcp {A} (f : T → A * T) : AM A := λ s, let '(a, t) := f (tcp s) in Some (a, with_tcp t s).
Definition do_tcp (f : T → T) : AM unit := λ s, Some (tt, with_tcp (f (tcp s)) s).
Definition on_udp {A} (f : udp → option (A * udp)) : AM A := λ s, '(a, u) ← f (udps s); Some (a, with_udps u s).
Definition do_udp (f : udp → option udp) : AM unit := λ s, u ← f (udps s); Some (tt, with_udps u s).

(** [sys_mbox_post(conn->mbox, NULL)]. *)
Definition answer (c : Z) : AM unit :=
  k ← get c; match mbox k with Some n => put c (with_mbox (Some (S n))) | None => null end.

(** [sys_sem_signal(conn->sem)]: the count stays at 1 at most. *)
Definition signal (c : Z) : AM unit :=
  k ← get c;
  match sem k with
  | Some n => put c (with_sem (Some (if 1 <? n + 1 then 1 else n + 1)))
  | None => null
  end.

(** * Registration *)

Definition put_hook (p : Z) (f : hook → hook) : AM unit := λ s,
  h ← hooks s !! p; Some (tt, with_hooks (<[p := f h]> (hooks s)) s).

Definition tcp_arg (p : Z) (a : option callback_arg) : AM unit :=
  put_hook p (λ h, Hook a (h_recv h) (h_sent h) (h_err h) (h_accept h) (h_poll h)).
Definition tcp_recv (p : Z) (b : bool) : AM unit :=
  put_hook p (λ h, Hook (h_arg h) b (h_sent h) (h_err h) (h_accept h) (h_poll h)).
Definition tcp_sent (p : Z) (b : bool) : AM unit :=
  put_hook p (λ h, Hook (h_arg h) (h_recv h) b (h_err h) (h_accept h) (h_poll h)).
Definition tcp_err (p : Z) (b : bool) : AM unit :=
  put_hook p (λ h, Hook (h_arg h) (h_recv h) (h_sent h) b (h_accept h) (h_poll h)).
Definition tcp_poll (p : Z) (interval : option Z) : AM unit :=
  put_hook p (λ h, Hook (h_arg h) (h_recv h) (h_sent h) (h_err h) (h_accept h) interval).
Definition tcp_accept (p : Z) (b : bool) : AM unit :=
  put_hook p (λ h, Hook (h_arg h) (h_recv h) (h_sent h) (h_err h) b (h_poll h)).

(** A new block has no functions; [tcp_listen] moves the block. *)
Definition new_hook (p : Z) : AM unit := λ s, Some (tt, with_hooks (<[p := no_hook]> (hooks s)) s).
Definition move_hook (p q : Z) : AM unit := λ s,
  h ← hooks s !! p; Some (tt, with_hooks (<[q := h]> (delete p (hooks s))) s).
Definition drop_hook (p : Z) : AM unit := λ s, Some (tt, with_hooks (delete p (hooks s)) s).

(** [setup_tcp]; [conn->pcb.tcp] is used without a test. *)
Definition setup_tcp (c : Z) : AM unit :=
  k ← get c;
  match pcb k with
  | None => null
  | Some p =>
      tcp_arg p (Some (ArgConn c));; tcp_recv p true;; tcp_sent p true;; tcp_poll p (Some 4);; tcp_err p true
  end.

(** * The functions that TCP and UDP call *)

(** The argument as a connection. *)
Definition conn_arg (a : option callback_arg) : AM (option Z) :=
  match a with
  | None => mret None
  | Some (ArgConn c) => mret (Some c)
  | Some (ArgAcceptmbox _) => null
  end.

Definition recv_tcp (arg : option callback_arg) (p : option (list Z)) (e : err) : AM err :=
  c ← conn_arg arg;
  match c with
  | None => mret ERR_VAL
  | Some c =>
      k ← get c;
      (match recvmbox k with
       | Some l => put c (with_err e);; put c (with_recvmbox (Some (l ++ [Segment <$> p])))
       | None => mret tt
       end);;
      mret ERR_OK
  end.

Definition recv_udp (arg : option Z) (p : dgram) (addr port : Z) : AM unit :=
  match arg with
  | None => mret tt
  | Some c =>
      k ← get c;
      match recvmbox k with
      | Some l =>
          buf ← alloc;
          if negb buf then mret tt else put c (with_recvmbox (Some (l ++ [Some (Netbuf p addr port)])))
      | None => mret tt
      end
  end.

Definition poll_tcp (arg : option callback_arg) : AM err :=
  c ← conn_arg arg;
  (match c with
   | Some c =>
       k ← get c;
       if bool_decide (state k = NETCONN_WRITE ∨ state k = NETCONN_CLOSE) && bool_decide (is_Some (sem k))
       then signal c else mret tt
   | None => mret tt
   end);;
  mret ERR_OK.

Definition sent_tcp (arg : option callback_arg) : AM err :=
  c ← conn_arg arg;
  (match c with
   | Some c => k ← get c; if bool_decide (is_Some (sem k)) then signal c else mret tt
   | None => mret tt
   end);;
  mret ERR_OK.

Definition err_tcp (arg : option callback_arg) (e : err) : AM unit :=
  c ← conn_arg arg;
  match c with
  | None => null
  | Some c =>
      put c (with_pcb None);;
      put c (with_err e);;
      k ← get c;
      (match recvmbox k with Some l => put c (with_recvmbox (Some (l ++ [None]))) | None => mret tt end);;
      (match mbox k with Some _ => answer c | None => mret tt end);;
      (match acceptmbox k with Some l => put c (with_acceptmbox (Some (l ++ [None]))) | None => mret tt end);;
      (match sem k with Some _ => signal c | None => mret tt end)
  end.

Definition new_conn (n : Z) (k : netconn) : AM unit := λ s, Some (tt, with_conns (<[n := k]> (conns s)) s).
Definition free_conn (n : Z) : AM unit := λ s, Some (tt, with_conns (delete n (conns s)) s).

(** [newconn] is what the pool gives and [k0] what its memory holds: [state] is
    not set. *)
Definition accept_function (arg : option callback_arg) (newpcb : Z) (e : err) (newconn : option Z) (k0 : netconn) : AM err :=
  match newconn with
  | None => mret ERR_MEM
  | Some n =>
      let free := free_conn n;; mret ERR_MEM in
      new_conn n (Netconn NETCONN_TCP (state k0) (Some newpcb) (conn_err k0) (mbox k0) (recvmbox k0) (acceptmbox k0) (sem k0));;
      setup_tcp n;;
      b ← alloc;
      if negb b then free
      else
        put n (with_recvmbox (Some []));;
        b ← alloc;
        if negb b then free
        else
          put n (with_mbox (Some 0%nat));;
          b ← alloc;
          if negb b then free
          else
            put n (with_sem (Some 0));;
            put n (with_acceptmbox None);;
            put n (with_err e);;
            match arg with
            | Some (ArgAcceptmbox c) =>
                k ← get c;
                match acceptmbox k with
                | Some l => put c (with_acceptmbox (Some (l ++ [Some n])));; mret ERR_OK
                | None => null
                end
            | _ => null
            end
  end.

Definition do_connected (arg : option callback_arg) (e : err) : AM err :=
  c ← conn_arg arg;
  match c with
  | None => mret ERR_VAL
  | Some c =>
      put c (with_err e);;
      k ← get c;
      (if bool_decide (type k = NETCONN_TCP) && is_ok e then setup_tcp c else mret tt);;
      answer c;;
      mret ERR_OK
  end.

(** * The messages *)

Definition do_newconn (c : Z) : AM unit := mret tt.

Definition do_delconn (c : Z) : AM unit :=
  k ← get c;
  (match pcb k with
   | None => mret tt
   | Some p =>
       match type k with
       | NETCONN_UDPLITE | NETCONN_UDPNOCHKSUM | NETCONN_UDP =>
           do_udp (Udp.put p (λ b, set_recv (Udp.recv b) None b));;
           do_udp (udp_remove p)
       | NETCONN_TCP =>
           tcp_arg p None;; tcp_sent p false;; tcp_recv p false;; tcp_accept p false;; tcp_poll p None;; tcp_err p false;;
           s ← state_of;
           let listening := tcp_listening p (tcp s) in
           '(e, freed) ← on_tcp (tcp_close p);
           (if freed : bool then drop_hook p else mret tt);;
           if listening || is_ok e then mret tt else do_tcp (tcp_abort p);; drop_hook p
       end
   end);;
  match mbox k with Some _ => answer c | None => mret tt end.

(** The address of [recv_udp]. *)
Definition recv_udp_fn : Z := 1.

(** A block for a connection of UDP, registered with the connection. *)
Definition setup_udp (c p : Z) (k : netconn) : AM unit :=
  (match type k with
   | NETCONN_UDPLITE => do_udp (udp_setflags p UDP_FLAGS_UDPLITE)
   | NETCONN_UDPNOCHKSUM => do_udp (udp_setflags p UDP_FLAGS_NOCHKSUM)
   | _ => mret tt
   end);;
  do_udp (udp_recv p (Some recv_udp_fn) (Some c)).

(** The block of [do_bind], used without a test for the null pointer. *)
Definition bind_pcb (c : Z) : AM unit :=
  k ← get c;
  match pcb k with
  | Some _ => mret tt
  | None =>
      match type k with
      | NETCONN_TCP =>
          p ← on_tcp tcp_new;
          put c (with_pcb p);;
          match p with Some p => new_hook p;; setup_tcp c | None => null end
      | _ =>
          p ← on_udp udp_new;
          put c (with_pcb p);;
          match p with Some p => setup_udp c p k | None => null end
      end
  end.

Definition do_bind (c : Z) (ipaddr : option Z) (port : Z) : AM unit :=
  bind_pcb c;;
  k ← get c;
  match pcb k with
  | None => null
  | Some p =>
      (match type k with
       | NETCONN_TCP => e ← on_tcp (tcp_bind p ipaddr port); put c (with_err e)
       | _ => on_udp (udp_bind p ipaddr port);; mret tt
       end);;
      answer c
  end.

(** The block of [do_connect]; without one the caller is told. *)
Definition connect_pcb (c : Z) : AM bool :=
  k ← get c;
  match pcb k with
  | Some _ => mret true
  | None =>
      match type k with
      | NETCONN_TCP =>
          p ← on_tcp tcp_new;
          put c (with_pcb p);;
          match p with
          | Some p => new_hook p;; mret true
          | None => put c (with_err ERR_MEM);; answer c;; mret false
          end
      | _ =>
          p ← on_udp udp_new;
          put c (with_pcb p);;
          match p with
          | Some p => setup_udp c p k;; mret true
          | None => put c (with_err ERR_MEM);; answer c;; mret false
          end
      end
  end.

Definition syn_sent (c : Z) (e : err) : AM unit := λ s,
  Some (tt, if is_ok e then with_connecting ({[c]} ∪ connecting s) s else s).

(** The result of [tcp_connect] is not used. *)
Definition do_connect (c : Z) (ipaddr : option Z) (port : Z) : AM unit :=
  ok ← connect_pcb c;
  if negb ok then mret tt
  else
    k ← get c;
    match pcb k with
    | None => null
    | Some p =>
        match type k with
        | NETCONN_TCP =>
            setup_tcp c;;
            e ← on_tcp (tcp_connect p ipaddr port);
            syn_sent c e
        | _ => on_udp (udp_connect p ipaddr port);; answer c
        end
    end.

Definition do_listen (c : Z) : AM unit :=
  k ← get c;
  (match pcb k, type k with
   | Some p, NETCONN_TCP =>
       q ← on_tcp (tcp_listen p);
       put c (with_pcb q);;
       match q with
       | None => put c (with_err ERR_MEM)
       | Some q =>
           move_hook p q;;
           ok ← (match acceptmbox k with
                 | Some _ => mret true
                 | None =>
                     b ← alloc;
                     if b : bool then put c (with_acceptmbox (Some []));; mret true
                     else put c (with_err ERR_MEM);; mret false
                 end);
           if ok : bool then tcp_arg q (Some (ArgAcceptmbox c));; tcp_accept q true else mret tt
       end
   | _, _ => mret tt
   end);;
  answer c.

Definition do_accept (c : Z) : AM unit := get c;; mret tt.

Definition note_output (o : option output) : AM unit := λ s,
  Some (tt, with_datagrams (datagrams s ++ option_list o) s).

(** [mem] is what [mem_malloc] gives for a header; the result is not used. *)
Definition do_send (c : Z) (p : dgram) (mem : option (list Z)) : AM unit :=
  k ← get c;
  (match pcb k, type k with
   | None, _ | _, NETCONN_TCP => mret tt
   | Some b, _ =>
       o ← on_udp (λ u, '(_, _, o, u) ← udp_send b p mem u; Some (o, u));
       note_output o
   end);;
  answer c.

Definition do_recv (c : Z) (len : Z) : AM unit :=
  k ← get c;
  (match pcb k, type k with Some p, NETCONN_TCP => do_tcp (tcp_recved p len) | _, _ => mret tt end);;
  answer c.

Definition do_write (c : Z) (data : list Z) : AM unit :=
  k ← get c;
  (match pcb k, type k with
   | None, _ => mret tt
   | Some p, NETCONN_TCP =>
       e ← on_tcp (tcp_write p data);
       s ← state_of;
       (if is_ok e && tcp_all_acked p (tcp s) then do_tcp (tcp_output p) else mret tt);;
       put c (with_err e)
   | Some _, _ => put c (with_err ERR_VAL)
   end);;
  answer c.

Definition do_close (c : Z) : AM unit :=
  k ← get c;
  (match pcb k, type k with
   | Some p, NETCONN_TCP =>
       '(e, freed) ← on_tcp (tcp_close p);
       (if freed : bool then drop_hook p else mret tt);;
       put c (with_err e)
   | _, _ => mret tt
   end);;
  answer c.

(** The table [decode]. *)
Definition api_msg_input (m : api_msg) (mem : option (list Z)) : AM unit :=
  let c := msg_conn m in
  match request m with
  | API_MSG_NEWCONN => do_newconn c
  | API_MSG_DELCONN => do_delconn c
  | API_MSG_BIND ipaddr port => do_bind c ipaddr port
  | API_MSG_CONNECT ipaddr port => do_connect c ipaddr port
  | API_MSG_LISTEN => do_listen c
  | API_MSG_ACCEPT => do_accept c
  | API_MSG_SEND p => do_send c p mem
  | API_MSG_RECV len => do_recv c len
  | API_MSG_WRITE data => do_write c data
  | API_MSG_CLOSE => do_close c
  end.

Definition enqueue (m : api_msg) : AM unit := λ s, Some (tt, with_queue (queue s ++ [m]) s).

(** [transport_apimsg]: whether the message is on its way.  Without a block for
    it the caller's message is put into a pool and nothing is posted. *)
Definition transport_apimsg (m : api_msg) : AM bool :=
  b ← alloc;
  if b : bool then enqueue m;; mret true else mret false.

(** One round of [transport_thread] with a message of a client. *)
Definition transport_thread (mem : option (list Z)) : AM unit := λ s,
  match queue s with
  | [] => None
  | m :: l => api_msg_input m mem (with_queue l s)
  end.

(** * The clients

    A call is cut where it waits for the answer: it returns before that, or its
    message is posted, or it is lost. *)

Inductive begun := Returns (e : err) | Posted | Lost.

Definition api_msg_post (c : Z) (r : api_request) : AM begun :=
  b ← transport_apimsg (ApiMsg c r); mret (if b : bool then Posted else Lost).

(** [memp_mallocp(MEMP_API_MSG)] and the message; without a block the error may
    be noted in the connection. *)
Definition send_request (c : Z) (r : api_request) (noted : bool) : AM begun :=
  b ← alloc;
  if b : bool then api_msg_post c r
  else (if noted then put c (with_err ERR_MEM) else mret tt);; mret (Returns ERR_MEM).

(** [n] is the block of the pool and [e0] what its memory holds in [err]. *)
Definition netconn_new (t : netconn_type) (n : option Z) (e0 : err) : AM (option Z) :=
  match n with
  | None => mret None
  | Some n =>
      b ← alloc;
      if b : bool then new_conn n (Netconn t NETCONN_NONE None e0 (Some 0%nat) None None None);; mret (Some n)
      else mret None
  end.

Definition netconn_bind (c : Z) (addr : option Z) (port : Z) : AM begun :=
  k ← get c;
  ok ← (if bool_decide (type k ≠ NETCONN_TCP) && bool_decide (recvmbox k = None)
        then b ← alloc; (if b : bool then put c (with_recvmbox (Some [])) else mret tt);; mret b
        else mret true);
  if ok : bool then send_request c (API_MSG_BIND addr port) true else mret (Returns ERR_MEM).

Definition netconn_connect (c : Z) (addr : option Z) (port : Z) : AM begun :=
  k ← get c;
  ok ← (if bool_decide (recvmbox k = None)
        then b ← alloc; (if b : bool then put c (with_recvmbox (Some [])) else mret tt);; mret b
        else mret true);
  if ok : bool then send_request c (API_MSG_CONNECT addr port) false else mret (Returns ERR_MEM).

Definition netconn_listen (c : Z) : AM begun :=
  k ← get c;
  ok ← (if bool_decide (acceptmbox k = None)
        then b ← alloc; (if b : bool then put c (with_acceptmbox (Some [])) else mret tt);; mret b
        else mret true);
  if ok : bool then send_request c API_MSG_LISTEN true else mret (Returns ERR_MEM).

Definition netconn_send (c : Z) (p : dgram) : AM begun :=
  k ← get c;
  if is_ok (conn_err k) then send_request c (API_MSG_SEND p) true else mret (Returns (conn_err k)).

Definition netconn_close (c : Z) : AM begun :=
  b ← alloc;
  if b : bool then put c (with_state NETCONN_CLOSE);; api_msg_post c API_MSG_CLOSE
  else put c (with_err ERR_MEM);; mret (Returns ERR_MEM).

Definition netconn_delete (c : Z) : AM begun := send_request c API_MSG_DELCONN false.

(** [sys_mbox_fetch(conn->mbox, NULL)], when there is an answer. *)
Definition fetch_answer (c : Z) : AM unit :=
  k ← get c; match mbox k with Some (S n) => put c (with_mbox (Some n)) | _ => null end.

(** The end of most calls. *)
Definition call_end (c : Z) : AM err := fetch_answer c;; k ← get c; mret (conn_err k).

(** The end of a round of [netconn_close]: [None] when it waits for the
    semaphore to try again. *)
Definition close_end (c : Z) : AM (option err) :=
  fetch_answer c;;
  k ← get c;
  if bool_decide (conn_err k = ERR_MEM) && bool_decide (is_Some (sem k)) then mret None
  else put c (with_state NETCONN_NONE);; mret (Some (conn_err k)).

Definition close_again (c : Z) : AM begun :=
  k ← get c;
  match sem k with
  | Some n => if n <=? 0 then null else put c (with_sem (Some (n - 1)));; api_msg_post c API_MSG_CLOSE
  | None => null
  end.

(** The rest of [netconn_delete]: the receive mailbox is emptied; every
    connection that was not accepted is deleted in turn; then the block is freed. *)
Definition delete_end (c : Z) : AM unit := fetch_answer c;; put c (with_recvmbox None).

Definition fetch_accepted (c : Z) : AM (option Z) :=
  k ← get c;
  match acceptmbox k with Some (n :: l) => put c (with_acceptmbox (Some l));; mret n | _ => null end.

Definition delete_done (c : Z) : AM unit :=
  k ← get c;
  match acceptmbox k with Some (_ :: _) => null | _ => free_conn c end.

(** [netconn_accept], when there is a connection. *)
Definition netconn_accept (c : Z) : AM (option Z) := fetch_accepted c.
End api.
