(* ===== verification/ApiProps.v ===== *)
(** Requests and answers: the threads that use connections and the thread of the
    stack as a transition system, and that every wait of a client gets the one
    answer to its own message.  A connection that is reset while nobody waits is
    the exception. *)

From Stdlib Require Import ZArith Lia.
From stdpp Require Import base tactics relations numbers gmap option list.
From S2P Require Import Prelude Udp Tcp Sockets ApiMsg.

Local Open Scope Z_scope.

(** * The transition system *)

(** The calls of [api_lib.c] that post a message: [CallRecv] and [CallWrite] are
    the posting in [netconn_recv] and in a round of [netconn_write], whose other
    parts are in the file Sockets. *)
Inductive call :=
  | CallBind (addr : option Z) (port : Z)
  | CallConnect (addr : option Z) (port : Z)
  | CallListen
  | CallSend (p : dgram)
  | CallRecv (len : Z)
  | CallWrite (data : list Z)
  | CallClose
  | CallDelete.

(** What the client of a connection is doing, if it is in a call. *)
Inductive phase := Waits | WaitsConnect | WaitsClose | WaitsDelete | WaitsSem | Drains.

#[global] Instance phase_eq_dec : EqDecision phase.
Proof. solve_decision. Defined.

(** Whether it waits for an answer. *)
Definition waiting (f : option phase) : bool :=
  match f with Some (Waits | WaitsConnect | WaitsClose | WaitsDelete) => true | _ => false end.

Definition call_phase (k : call) : phase :=
  match k with CallConnect _ _ => WaitsConnect | CallClose => WaitsClose | CallDelete => WaitsDelete | _ => Waits end.

(** The phase of a client whose message is not answered yet; no client posts the
    first two. *)
Definition request_phase (r : api_request) : option phase :=
  match r with
  | API_MSG_NEWCONN | API_MSG_ACCEPT => None
  | API_MSG_CONNECT _ _ => Some WaitsConnect
  | API_MSG_CLOSE => Some WaitsClose
  | API_MSG_DELCONN => Some WaitsDelete
  | _ => Some Waits
  end.

(** What TCP and UDP do on their own. *)
Inductive event :=
  | EvRecv (p : Z) (data : option (list Z)) (e : err)
  | EvSent (p : Z)
  | EvPoll (p : Z)
  | EvErr (p : Z) (e : err)
  | EvAccept (p newpcb : Z) (e : err) (newconn : option Z) (k0 : netconn)
  | EvConnected (p : Z) (e : err)
  | EvDatagram (p : dgram).

Section system.
Context {T : Type} `{TcpApi T}.
Local Abbreviation api := (@api T).
Local Abbreviation AM := (@AM T).

Definition begin_call (k : call) (c : Z) : AM begun :=
  match k with
  | CallBind addr port => netconn_bind c addr port
  | CallConnect addr port => netconn_connect c addr port
  | CallListen => netconn_listen c
  | CallSend p => netconn_send c p
  | CallRecv len => send_request c (API_MSG_RECV len) true
  | CallWrite data => api_msg_post c (API_MSG_WRITE data)
  | CallClose => netconn_close c
  | CallDelete => netconn_delete c
  end.

Definition get_hook (p : Z) : AM hook := λ s, h ← hooks s !! p; Some (h, s).

(** The client of a connect has been answered, in its mailbox. *)
Definition has_mbox (s : api) (c : Z) : bool :=
  match conns s !! c with Some k => bool_decide (is_Some (mbox k)) | None => false end.

Definition syn_done (c : Z) : AM unit := λ s, Some (tt, with_connecting (connecting s ∖ {[c]}) s).

Definition not_connecting (a : option callback_arg) : AM unit := λ s,
  match a with Some (ArgConn c) => if has_mbox s c then syn_done c s else Some (tt, s) | _ => Some (tt, s) end.

(** TCP calls [connected] once for a SYN that it sent. *)
Definition run_event (ev : event) : AM unit :=
  match ev with
  | EvRecv p data e => h ← get_hook p; if h_recv h then recv_tcp (h_arg h) data e;; mret tt else mret tt
  | EvSent p => h ← get_hook p; if h_sent h then sent_tcp (h_arg h);; mret tt else mret tt
  | EvPoll p => h ← get_hook p; match h_poll h with Some _ => poll_tcp (h_arg h);; mret tt | None => mret tt end
  | EvErr p e =>
      h ← get_hook p;
      (if h_err h then not_connecting (h_arg h);; err_tcp (h_arg h) e else mret tt);;
      drop_hook p
  | EvAccept p newpcb e newconn k0 =>
      h ← get_hook p;
      new_hook newpcb;;
      if h_accept h then accept_function (h_arg h) newpcb e newconn k0;; mret tt else mret tt
  | EvConnected p e =>
      h ← get_hook p;
      s ← state_of;
      match h_arg h with
      | Some (ArgConn c) =>
          if decide (c ∈ connecting s) then syn_done c;; do_connected (h_arg h) e;; mret tt else null
      | _ => null
      end
  | EvDatagram p =>
      r ← on_udp (udp_input p);
      match r with Received _ arg _ d addr port => recv_udp arg d addr port | Freed _ => mret tt end
  end.

(** [dropped] are the connections whose client waits although there was no block
    for its message, [lost] those whose message was handled without an answer. *)
Record system := Sys { sys_api : api; phases : gmap Z phase; dropped : gset Z; lost : gset Z }.

(** The answers waiting for the client of a connection. *)
Definition answers (s : api) (c : Z) : nat :=
  match conns s !! c with Some k => default 0%nat (mbox k) | None => 0%nat end.

(** The new connection of an event or a call is a block that is not in use. *)
Definition fresh_conn (s : api) (n : option Z) : Prop :=
  match n with Some n => conns s !! n = None | None => True end.

(** No error is reported for a connection whose client is not connecting. *)
Definition orderly (s : api) (ev : event) : Prop :=
  match ev with
  | EvErr p _ => ∀ h c, hooks s !! p = Some h → h_err h = true → h_arg h = Some (ArgConn c) →
      has_mbox s c = true → c ∈ connecting s
  | EvAccept _ _ _ n _ => fresh_conn s n
  | _ => True
  end.

(** The answer to a handled message is there or will come. *)
Definition answered (s s' : api) (c : Z) : Prop :=
  (answers s c < answers s' c)%nat ∨ (c ∈ connecting s' ∧ c ∉ connecting s).

#[global] Instance answered_dec s s' c : Decision (answered s s' c).
Proof. unfold answered. apply _. Defined.

Inductive sys_step : system → system → Prop :=
  | step_new s fs d l t n e0 r s' :
      fresh_conn s n → netconn_new t n e0 s = Some (r, s') → sys_step (Sys s fs d l) (Sys s' fs d l)
  | step_begin s fs d l k c b s' :
      fs !! c = None → begin_call k c s = Some (b, s') →
      sys_step (Sys s fs d l)
        (match b with
         | Returns _ => Sys s' fs d l
         | Posted => Sys s' (<[c := call_phase k]> fs) d l
         | Lost => Sys s' (<[c := call_phase k]> fs) ({[c]} ∪ d) l
         end)
  | step_handle s fs d l m q mem s' :
      queue s = m :: q → transport_thread mem s = Some (tt, s') →
      sys_step (Sys s fs d l) (Sys s' fs d (if decide (answered s s' (msg_conn m)) then l else {[msg_conn m]} ∪ l))
  | step_event s fs d l ev s' :
      orderly s ev → run_event ev s = Some (tt, s') → sys_step (Sys s fs d l) (Sys s' fs d l)
  | step_end s fs d l c e s' :
      fs !! c = Some Waits ∨ fs !! c = Some WaitsConnect → call_end c s = Some (e, s') →
      sys_step (Sys s fs d l) (Sys s' (delete c fs) d l)
  | step_close_end s fs d l c r s' :
      fs !! c = Some WaitsClose → close_end c s = Some (r, s') →
      sys_step (Sys s fs d l) (Sys s' (match r with Some _ => delete c fs | None => <[c := WaitsSem]> fs end) d l)
  | step_close_again s fs d l c b s' :
      fs !! c = Some WaitsSem → close_again c s = Some (b, s') →
      sys_step (Sys s fs d l) (Sys s' (<[c := WaitsClose]> fs) (match b with Lost => {[c]} ∪ d | _ => d end) l)
  | step_delete_end s fs d l c s' :
      fs !! c = Some WaitsDelete → delete_end c s = Some (tt, s') → sys_step (Sys s fs d l) (Sys s' (<[c := Drains]> fs) d l)
  | step_accepted s fs d l c n s' :
      fs !! c = None ∨ fs !! c = Some Drains → fetch_accepted c s = Some (n, s') → sys_step (Sys s fs d l) (Sys s' fs d l)
  | step_delete_done s fs d l c s' :
      fs !! c = Some Drains → delete_done c s = Some (tt, s') → sys_step (Sys s fs d l) (Sys s' (delete c fs) d l).

(** * What an action does to requests and answers *)

Definition requests (s : api) (c : Z) : nat := length (filter (λ m, msg_conn m = c) (queue s)).

(** ** Actions that keep a relation *)

(** The relation holds between the states before and after. *)
Definition keeps {A} (R : relation api) (m : AM A) : Prop := ∀ s a s', m s = Some (a, s') → R s s'.

(** A preorder that does not look at hooks, blocks, allocations and datagrams. *)
Class Insensitive (R : relation api) := {
  insensitive_pre :: PreOrder R;
  insensitive s s' : conns s' = conns s → queue s' = queue s → connecting s' = connecting s → R s s'
}.

(** One that looks at the connections only. *)
Class OnConns (R : relation api) := {
  on_conns_pre :: PreOrder R;
  on_conns s s' : conns s' = conns s → R s s'
}.

#[global] Instance on_conns_insensitive R : OnConns R → Insensitive R.
Proof. intros HR. split; [apply _|]. intros s s' E _ _. by apply on_conns. Qed.

Lemma bind_Some {A B} (m : AM A) (f : A → AM B) s b s' :
  (m ≫= f) s = Some (b, s') → ∃ a s1, m s = Some (a, s1) ∧ f a s1 = Some (b, s').
Proof. unfold mbind, am_bind. destruct (m s) as [[a s1]|]; [by exists a, s1|done]. Qed.

Section keeps.
Context (R : relation api) `{Insensitive R}.

Lemma keeps_ret {A} (a : A) : keeps R (mret a).
Proof. by intros s a' s' [= <- <-]. Qed.
Lemma keeps_null {A} : keeps R (null : AM A).
Proof. by intros s a s' [=]. Qed.
Lemma keeps_bind {A B} (m : AM A) (f : A → AM B) : keeps R m → (∀ a, keeps R (f a)) → keeps R (m ≫= f).
Proof. intros Hm Hf s b s' (a & s1 & E1 & E2)%bind_Some. etrans; [by eapply Hm|by eapply Hf]. Qed.
Lemma keeps_get c : keeps R (get c).
Proof. intros s a s'. unfold get. destruct (conns s !! c); [|done]. by intros [= <- <-]. Qed.
Lemma keeps_alloc : keeps R alloc.
Proof. intros s a s'. unfold alloc. destruct (allocs s); intros [= <- <-]; by apply insensitive. Qed.
Lemma keeps_state_of : keeps R state_of.
Proof. by intros s a s' [= <- <-]. Qed.
Lemma keeps_on_tcp {A} (f : T → A * T) : keeps R (on_tcp f).
Proof. intros s a s'. unfold on_tcp. destruct (f (tcp s)). intros [= <- <-]. by apply insensitive. Qed.
Lemma keeps_do_tcp f : keeps R (do_tcp f).
Proof. intros s a s' [= <- <-]. by apply insensitive. Qed.
Lemma keeps_on_udp {A} (f : udp → option (A * udp)) : keeps R (on_udp f).
Proof. intros s a s'. unfold on_udp. destruct (f (udps s)) as [[]|]; [|done]. intros [= <- <-]. by apply insensitive. Qed.
Lemma keeps_do_udp f : keeps R (do_udp f).
Proof. intros s a s'. unfold do_udp. destruct (f (udps s)); [|done]. intros [= <- <-]. by apply insensitive. Qed.
Lemma keeps_put_hook p f : keeps R (put_hook p f).
Proof. intros s a s'. unfold put_hook. destruct (hooks s !! p); [|done]. intros [= <- <-]. by apply insensitive. Qed.
Lemma keeps_new_hook p : keeps R (new_hook p).
Proof. intros s a s' [= <- <-]. by apply insensitive. Qed.
Lemma keeps_drop_hook p : keeps R (drop_hook p).
Proof. intros s a s' [= <- <-]. by apply insensitive. Qed.
Lemma keeps_move_hook p q : keeps R (move_hook p q).
Proof. intros s a s'. unfold move_hook. destruct (hooks s !! p); [|done]. intros [= <- <-]. by apply insensitive. Qed.
Lemma keeps_get_hook p : keeps R (get_hook p).
Proof. intros s a s'. unfold get_hook. destruct (hooks s !! p); [|done]. by intros [= <- <-]. Qed.
Lemma keeps_note_output o : keeps R (note_output o).
Proof. intros s a s' [= <- <-]. by apply insensitive. Qed.
End keeps.

Section keeps_conns.
Context (R : relation api) `{OnConns R}.

Lemma keeps_syn_sent c e : keeps R (syn_sent c e).
Proof. intros s a s' [= <- <-]. apply on_conns. by destruct (is_ok e). Qed.
Lemma keeps_enqueue m : keeps R (enqueue m).
Proof. intros s a s' [= <- <-]. by apply on_conns. Qed.
Lemma keeps_syn_done c : keeps R (syn_done c).
Proof. intros s a s' [= <- <-]. by apply on_conns. Qed.
Lemma keeps_not_connecting a : keeps R (not_connecting a).
Proof.
  intros s b s'. unfold not_connecting, syn_done.
  destruct a as [[c|c]|]; [destruct (has_mbox s c)| |]; intros [= <- <-]; by apply on_conns.
Qed.
End keeps_conns.

(** ** Messages and answers *)

(** The messages, the connecting and the answers of the connections in [P] are
    the same. *)
Definition same_answers (P : Z → Prop) : relation api := λ s s',
  queue s' = queue s ∧ connecting s' = connecting s ∧ ∀ c, P c → answers s' c = answers s c.

#[global] Instance same_answers_insensitive P : Insensitive (same_answers P).
Proof.
  split; [split|].
  - by intros s.
  - intros s1 s2 s3 (Q1 & C1 & A1) (Q2 & C2 & A2). split; [congruence|]. split; [congruence|].
    intros c Hc. by rewrite A2, A1.
  - intros s s' E Q C. split; [done|]. split; [done|]. intros c _. unfold answers. by rewrite E.
Qed.

Definition frame {A} (P : Z → Prop) (m : AM A) : Prop := keeps (same_answers P) m.

Lemma frame_put P c f : (∀ k, mbox (f k) = mbox k) ∨ ¬ P c → frame P (put c f).
Proof.
  intros Hf s a s'. unfold put. destruct (conns s !! c) as [k|] eqn:E; [|done]. cbn. intros [= <- <-].
  split; [done|]. split; [done|]. intros c' Hc. unfold answers. cbn. destruct (decide (c' = c)) as [->|].
  - rewrite lookup_insert_eq, E. destruct Hf as [->|]; done.
  - by rewrite lookup_insert_ne.
Qed.
Lemma frame_new_conn n k : frame (λ c, c ≠ n) (new_conn n k).
Proof. intros s a s' [= <- <-]. do 2 (split; [done|]). intros c Hc. unfold answers. cbn. by rewrite lookup_insert_ne. Qed.
Lemma frame_free_conn n : frame (λ c, c ≠ n) (free_conn n).
Proof. intros s a s' [= <- <-]. do 2 (split; [done|]). intros c Hc. unfold answers. cbn. by rewrite lookup_delete_ne. Qed.
End system.

Abbreviation quiet := (frame (λ _, True)).

Create HintDb api.
#[export] Hint Resolve keeps_ret keeps_null keeps_get keeps_alloc keeps_state_of keeps_on_tcp keeps_do_tcp keeps_on_udp
  keeps_do_udp keeps_put_hook keeps_new_hook keeps_drop_hook keeps_move_hook keeps_get_hook keeps_note_output
  keeps_syn_sent keeps_enqueue keeps_syn_done keeps_not_connecting : api.
#[export] Hint Extern 1 (Insensitive _) => apply _ : api.
#[export] Hint Extern 1 (OnConns _) => apply _ : api.

(** Goes through the parts of an action; [write] does the assignments. *)
Ltac keeping write :=
  intros;
  repeat match goal with
  | |- keeps _ (_ ≫= _) => apply keeps_bind; [apply _| |intros]
  | |- keeps _ (let '(_, _) := ?x in _) => destruct x
  | |- keeps _ (match ?x with _ => _ end) => destruct x
  | |- keeps _ (put _ _) => write
  | |- keeps _ _ => by auto with api
  end.

Ltac framed := unfold frame; keeping ltac:(apply frame_put; by left).

Section parts.
Context {T : Type} `{TcpApi T}.
Local Abbreviation AM := (@AM T).
Context (R : relation (@ApiMsg.api T)) `{Insensitive T R}.

Lemma keeps_setup_tcp c : keeps R (setup_tcp c : AM unit).
Proof. unfold setup_tcp, tcp_arg, tcp_recv, tcp_sent, tcp_poll, tcp_err. keeping idtac. Qed.
Lemma keeps_conn_arg a : keeps R (conn_arg a : AM (option Z)).
Proof. unfold conn_arg. keeping idtac. Qed.
Lemma keeps_setup_udp c p k : keeps R (setup_udp c p k : AM unit).
Proof. unfold setup_udp. keeping idtac. Qed.
End parts.
#[export] Hint Resolve keeps_setup_tcp keeps_conn_arg keeps_setup_udp : api.

Section signals.
Context {T : Type} `{TcpApi T}.

Lemma frame_signal P c : keeps (same_answers P) (signal c : @AM T unit).
Proof. unfold signal. framed. Qed.
End signals.
#[export] Hint Resolve frame_signal : api.

Section calls.
Context {T : Type} `{TcpApi T}.
Local Abbreviation api := (@api T).
Local Abbreviation AM := (@AM T).

Lemma frame_recv_tcp P a p e : frame P (recv_tcp a p e : AM err).
Proof. unfold recv_tcp. framed. Qed.
Lemma frame_recv_udp P a p addr port : frame P (recv_udp a p addr port : AM unit).
Proof. unfold recv_udp. framed. Qed.
Lemma frame_poll_tcp P a : frame P (poll_tcp a : AM err).
Proof. unfold poll_tcp. framed. Qed.
Lemma frame_sent_tcp P a : frame P (sent_tcp a : AM err).
Proof. unfold sent_tcp. framed. Qed.
Lemma frame_bind_pcb P c : frame P (bind_pcb c : AM unit).
Proof. unfold bind_pcb. framed. Qed.

(** The action leaves the messages alone, and answers the connection [c] once. *)
Definition once {A} (c : Z) (m : AM A) : Prop := ∀ s a s', m s = Some (a, s') →
  queue s' = queue s ∧ connecting s' = connecting s ∧ answers s' c = S (answers s c) ∧
  ∀ c', c' ≠ c → answers s' c' = answers s c'.

Lemma once_answer c : once c (answer c : AM unit).
Proof.
  intros s a s'. unfold answer, get, mbind, am_bind, option_bind. destruct (conns s !! c) as [k|] eqn:E; [|done].
  destruct (mbox k) as [n|] eqn:Em; [|done]. unfold put. rewrite E. cbn. intros [= <- <-].
  split; [done|]. split; [done|]. unfold answers. cbn. split; [by rewrite lookup_insert_eq, E, Em|].
  intros c' Hc. by rewrite lookup_insert_ne.
Qed.

Lemma once_bind_l {A B} c (m : AM A) (f : A → AM B) : quiet m → (∀ a, once c (f a)) → once c (m ≫= f).
Proof.
  intros Hm Hf s b s' E. unfold mbind, am_bind in E. destruct (m s) as [[a s1]|] eqn:E1; [|done].
  destruct (Hm _ _ _ E1) as (Q1 & C1 & A1). destruct (Hf a _ _ _ E) as (Q2 & C2 & A2 & O2).
  split; [congruence|]. split; [congruence|]. split; [by rewrite A2, A1|]. intros c' Hc. by rewrite O2, A1.
Qed.

Lemma once_bind_r {A B} c (m : AM A) (f : A → AM B) : once c m → (∀ a, quiet (f a)) → once c (m ≫= f).
Proof.
  intros Hm Hf s b s' E. unfold mbind, am_bind in E. destruct (m s) as [[a s1]|] eqn:E1; [|done].
  destruct (Hm _ _ _ E1) as (Q1 & C1 & A1 & O1). destruct (Hf a _ _ _ E) as (Q2 & C2 & A2).
  split; [congruence|]. split; [congruence|]. split; [by rewrite A2, A1|]. intros c' Hc. by rewrite A2, O1.
Qed.

(** The effects of a message for [c]: an answer, a connect under way, or neither. *)
Definition handled {A} (c : Z) (m : AM A) : Prop := ∀ s a s', m s = Some (a, s') →
  queue s' = queue s ∧ (∀ c', c' ≠ c → answers s' c' = answers s c') ∧
  ((answers s' c = S (answers s c) ∧ connecting s' = connecting s) ∨
   (answers s' c = answers s c ∧ connecting s' = {[c]} ∪ connecting s) ∨
   (answers s' c = answers s c ∧ connecting s' = connecting s)).

Lemma handled_once {A} c (m : AM A) : once c m → handled c m.
Proof. intros Hm s a s' E. destruct (Hm _ _ _ E) as (? & ? & ? & ?). naive_solver. Qed.
Lemma handled_quiet {A} c (m : AM A) : quiet m → handled c m.
Proof. intros Hm s a s' E. destruct (Hm _ _ _ E) as (? & ? & ?). naive_solver. Qed.
Lemma handled_bind_l {A B} c (m : AM A) (f : A → AM B) : quiet m → (∀ a, handled c (f a)) → handled c (m ≫= f).
Proof.
  intros Hm Hf s b s' E. unfold mbind, am_bind in E. destruct (m s) as [[a s1]|] eqn:E1; [|done].
  destruct (Hm _ _ _ E1) as (Q1 & C1 & A1). destruct (Hf a _ _ _ E) as (Q2 & O2 & Hor).
  split; [congruence|]. split; [intros c' Hc; by rewrite O2, A1|]. rewrite <-C1, <-(A1 c) by done. exact Hor.
Qed.
Lemma handled_syn_sent c e : handled c (syn_sent c e : AM unit).
Proof. intros s a s' [= <- <-]. destruct (is_ok e); naive_solver. Qed.

(** The last action answers. *)
Ltac answers_last :=
  repeat match goal with
  | |- once _ (answer _) => apply once_answer
  | |- once _ (_ ≫= _) => apply once_bind_l; [solve [framed; apply frame_bind_pcb]|intros]
  | |- once _ (match ?x with _ => _ end) => destruct x
  end.

Lemma once_do_bind c ip port : once c (do_bind c ip port : AM unit).
Proof. unfold do_bind. by answers_last. Qed.
Lemma once_do_listen c : once c (do_listen c : AM unit).
Proof. unfold do_listen, tcp_arg, tcp_accept. by answers_last. Qed.
Lemma once_do_send c p mem : once c (do_send c p mem : AM unit).
Proof. unfold do_send. by answers_last. Qed.
Lemma once_do_recv c len : once c (do_recv c len : AM unit).
Proof. unfold do_recv. by answers_last. Qed.
Lemma once_do_write c data : once c (do_write c data : AM unit).
Proof. unfold do_write. by answers_last. Qed.
Lemma once_do_close c : once c (do_close c : AM unit).
Proof. unfold do_close. by answers_last. Qed.

Lemma handled_do_delconn c : handled c (do_delconn c : AM unit).
Proof.
  unfold do_delconn, tcp_arg, tcp_sent, tcp_recv, tcp_accept, tcp_poll, tcp_err.
  apply handled_bind_l; [framed|]. intros k. apply handled_bind_l; [framed|]. intros _.
  destruct (mbox k); [apply handled_once, once_answer|apply handled_quiet; framed].
Qed.

(** The result is true and nothing was answered, or false and the caller was
    answered. *)
Definition told (c : Z) (m : AM bool) : Prop := ∀ s b s', m s = Some (b, s') →
  queue s' = queue s ∧ connecting s' = connecting s ∧ (∀ c', c' ≠ c → answers s' c' = answers s c') ∧
  answers s' c = (if b then answers s c else S (answers s c)).

Lemma told_bind_l {A} c (m : AM A) (f : A → AM bool) : quiet m → (∀ a, told c (f a)) → told c (m ≫= f).
Proof.
  intros Hm Hf s b s' E. unfold mbind, am_bind in E. destruct (m s) as [[a s1]|] eqn:E1; [|done].
  destruct (Hm _ _ _ E1) as (Q1 & C1 & A1). destruct (Hf a _ _ _ E) as (Q2 & C2 & O2 & A2).
  split; [congruence|]. split; [congruence|]. split; [intros c' Hc; by rewrite O2, A1|]. by rewrite A2, A1.
Qed.
Lemma told_true c : told c (mret true).
Proof. by intros s b s' [= <- <-]. Qed.
Lemma told_false {A} c (m : AM A) : once c m → told c (m;; mret false).
Proof.
  intros Hm s b s' E. unfold mbind, am_bind in E. destruct (m s) as [[a s1]|] eqn:E1; [|done].
  injection E as <- <-. destruct (Hm _ _ _ E1) as (? & ? & ? & ?). naive_solver.
Qed.

Lemma told_connect_pcb c : told c (connect_pcb c).
Proof.
  unfold connect_pcb.
  repeat match goal with
  | |- told _ (mret true) => apply told_true
  | |- told _ (answer _;; _) => apply told_false, once_answer
  | |- told _ (_ ≫= _) => apply told_bind_l; [by framed|intros]
  | |- told _ (match ?x with _ => _ end) => destruct x
  end.
Qed.

Lemma handled_do_connect c ip port : handled c (do_connect c ip port : AM unit).
Proof.
  intros s a s' E. unfold do_connect in E. unfold mbind at 1, am_bind at 1 in E.
  destruct (connect_pcb c s) as [[ok s1]|] eqn:E1; [|done].
  destruct (told_connect_pcb c _ _ _ E1) as (Q1 & C1 & O1 & A1). destruct ok; cbn [negb] in E.
  - assert (handled c (k ← get c;
      match pcb k with
      | Some p =>
          match type k with
          | NETCONN_TCP => setup_tcp c;; e ← on_tcp (tcp_connect p ip port); syn_sent c e
          | _ => on_udp (udp_connect p ip port);; answer c
          end
      | None => null
      end)) as Hrest.
    { repeat match goal with
      | |- handled _ (syn_sent _ _) => apply handled_syn_sent
      | |- handled _ (answer _) => apply handled_once, once_answer
      | |- handled _ null => apply handled_quiet; framed
      | |- handled _ (_ ≫= _) => apply handled_bind_l; [by framed|intros]
      | |- handled _ (match ?x with _ => _ end) => destruct x
      end. }
    destruct (Hrest _ _ _ E) as (Q2 & O2 & Hor). split; [congruence|].
    split; [intros c' Hc; by rewrite O2, O1|]. rewrite A1, C1 in Hor. exact Hor.
  - injection E as <- <-. naive_solver.
Qed.

Lemma handled_input m mem : handled (msg_conn m) (api_msg_input m mem : AM unit).
Proof.
  unfold api_msg_input. destruct (request m); try (apply handled_once; solve
    [apply once_do_bind|apply once_do_listen|apply once_do_send|apply once_do_recv|apply once_do_write|apply once_do_close]).
  - apply handled_quiet. unfold do_newconn. framed.
  - apply handled_do_delconn.
  - apply handled_do_connect.
  - apply handled_quiet. unfold do_accept. framed.
Qed.

(** ** Calls *)

(** The action posts at most one message, for [c], and its client waits as [f]. *)
Definition posts (c : Z) (f : phase) (m : AM begun) : Prop := ∀ s b s', m s = Some (b, s') →
  connecting s' = connecting s ∧ (∀ c', answers s' c' = answers s c') ∧
  match b with
  | Posted => ∃ r, queue s' = queue s ++ [ApiMsg c r] ∧ request_phase r = Some f
  | _ => queue s' = queue s
  end.

Lemma posts_bind_l {A} c f (m : AM A) (g : A → AM begun) : quiet m → (∀ a, posts c f (g a)) → posts c f (m ≫= g).
Proof.
  intros Hm Hf s b s' E. unfold mbind, am_bind in E. destruct (m s) as [[a s1]|] eqn:E1; [|done].
  destruct (Hm _ _ _ E1) as (Q1 & C1 & A1). destruct (Hf a _ _ _ E) as (C2 & A2 & Hb).
  split; [congruence|]. split; [intros c'; by rewrite A2, A1|]. by rewrite <-Q1.
Qed.
Lemma posts_returns c f e : posts c f (mret (Returns e)).
Proof. by intros s b s' [= <- <-]. Qed.
Lemma posts_api_msg_post c f r : request_phase r = Some f → posts c f (api_msg_post c r).
Proof.
  intros Hf s b s'. unfold api_msg_post, transport_apimsg, mbind, am_bind.
  destruct (alloc s) as [[b1 s1]|] eqn:E1; [|done]. destruct (keeps_alloc (same_answers (λ _, True)) _ _ _ E1) as (Q1 & C1 & A1).
  destruct b1; intros [= <- <-]; cbn; (split; [done|]; split; [intros c'; by apply A1|]); [|done].
  exists r. by rewrite Q1.
Qed.

Ltac posting :=
  repeat match goal with
  | |- posts _ _ (api_msg_post _ _) => by apply posts_api_msg_post
  | |- posts _ _ (mret (Returns _)) => apply posts_returns
  | |- posts _ _ null => done
  | |- posts _ _ (_ ≫= _) => apply posts_bind_l; [by framed|intros]
  | |- posts _ _ (match ?x with _ => _ end) => destruct x
  end.

Lemma posts_send_request c f r noted : request_phase r = Some f → posts c f (send_request c r noted).
Proof. intros Hf. unfold send_request. posting. Qed.

Lemma posts_begin_call k c : posts c (call_phase k) (begin_call k c).
Proof.
  destruct k; cbn [begin_call call_phase]; unfold netconn_bind, netconn_connect, netconn_listen, netconn_send,
    netconn_close, netconn_delete; posting; by apply posts_send_request.
Qed.

Lemma posts_close_again c : posts c WaitsClose (close_again c).
Proof. unfold close_again. posting. Qed.

(** The action takes an answer of [c]. *)
Definition takes {A} (c : Z) (m : AM A) : Prop := ∀ s a s', m s = Some (a, s') →
  queue s' = queue s ∧ connecting s' = connecting s ∧ answers s c = S (answers s' c) ∧
  ∀ c', c' ≠ c → answers s' c' = answers s c'.

Lemma takes_fetch_answer c : takes c (fetch_answer c : AM unit).
Proof.
  intros s a s'. unfold fetch_answer, get, mbind, am_bind, option_bind. destruct (conns s !! c) as [k|] eqn:E; [|done].
  destruct (mbox k) as [[|n]|] eqn:Em; [done| |done]. unfold put. rewrite E. cbn. intros [= <- <-].
  split; [done|]. split; [done|]. unfold answers. cbn. split; [by rewrite lookup_insert_eq, E, Em|].
  intros c' Hc. by rewrite lookup_insert_ne.
Qed.

Lemma takes_bind_r {A B} c (m : AM A) (f : A → AM B) : takes c m → (∀ a, quiet (f a)) → takes c (m ≫= f).
Proof.
  intros Hm Hf s b s' E. unfold mbind, am_bind in E. destruct (m s) as [[a s1]|] eqn:E1; [|done].
  destruct (Hm _ _ _ E1) as (Q1 & C1 & A1 & O1). destruct (Hf a _ _ _ E) as (Q2 & C2 & A2).
  split; [congruence|]. split; [congruence|]. split; [by rewrite A1, A2|]. intros c' Hc. by rewrite A2, O1.
Qed.

Lemma takes_call_end c : takes c (call_end c : AM err).
Proof. apply takes_bind_r; [apply takes_fetch_answer|framed]. Qed.
Lemma takes_close_end c : takes c (close_end c : AM (option err)).
Proof. apply takes_bind_r; [apply takes_fetch_answer|framed]. Qed.
Lemma takes_delete_end c : takes c (delete_end c : AM unit).
Proof. apply takes_bind_r; [apply takes_fetch_answer|framed]. Qed.
Lemma quiet_fetch_accepted c : quiet (fetch_accepted c : AM (option Z)).
Proof. unfold fetch_accepted. framed. Qed.

(** ** New connections *)

(** The action ends without an answer for [n], if it started so. *)
Definition keeps_none {A} (n : Z) (m : AM A) : Prop := ∀ s a s', m s = Some (a, s') →
  answers s n = 0%nat → answers s' n = 0%nat.
Definition ends_none {A} (n : Z) (m : AM A) : Prop := ∀ s a s', m s = Some (a, s') → answers s' n = 0%nat.

Lemma none_quiet {A} n (m : AM A) : quiet m → keeps_none n m.
Proof. intros Hm s a s' E. destruct (Hm _ _ _ E) as (_ & _ & HA). by rewrite HA. Qed.
Lemma none_bind {A B} n (m : AM A) (f : A → AM B) : keeps_none n m → (∀ a, keeps_none n (f a)) → keeps_none n (m ≫= f).
Proof.
  intros Hm Hf s b s' E H0. unfold mbind, am_bind in E. destruct (m s) as [[a s1]|] eqn:E1; [|done].
  apply (Hf a _ _ _ E), (Hm _ _ _ E1), H0.
Qed.
Lemma ends_keeps {A B} n (m : AM A) (f : A → AM B) : ends_none n m → (∀ a, keeps_none n (f a)) → ends_none n (m ≫= f).
Proof.
  intros Hm Hf s b s' E. unfold mbind, am_bind in E. destruct (m s) as [[a s1]|] eqn:E1; [|done].
  apply (Hf a _ _ _ E), (Hm _ _ _ E1).
Qed.
Lemma ends_bind {A B} n (m : AM A) (f : A → AM B) : (∀ a, ends_none n (f a)) → ends_none n (m ≫= f).
Proof.
  intros Hf s b s' E. unfold mbind, am_bind in E. destruct (m s) as [[a s1]|] eqn:E1; [|done]. apply (Hf a _ _ _ E).
Qed.
Lemma ends_free_conn n : ends_none n (free_conn n : AM unit).
Proof. intros s a s' [= <- <-]. unfold answers. cbn. by rewrite lookup_delete_eq. Qed.
Lemma ends_empty_mbox n : ends_none n (put n (with_mbox (Some 0%nat)) : AM unit).
Proof.
  intros s a s'. unfold put. destruct (conns s !! n); [|done]. cbn. intros [= <- <-]. unfold answers. cbn.
  by rewrite lookup_insert_eq.
Qed.

Lemma accept_keeps a newpcb e n k0 (s s' : api) r :
  accept_function a newpcb e n k0 s = Some (r, s') → fresh_conn s n →
  queue s' = queue s ∧ connecting s' = connecting s ∧ ∀ c, answers s' c = answers s c.
Proof.
  intros E Hn. destruct n as [n|]; [|injection E as <- <-; done].
  assert (frame (λ c, c ≠ n) (accept_function a newpcb e (Some n) k0 : AM err)) as Hf.
  { unfold accept_function. framed; first [apply frame_new_conn|apply frame_free_conn|apply frame_put; right; naive_solver]. }
  assert (ends_none n (accept_function a newpcb e (Some n) k0 : AM err)) as He.
  { unfold accept_function. cbv zeta. do 2 (apply ends_bind; intros _). apply ends_bind; intros [|]; cbn [negb].
    2: { apply ends_keeps; [apply ends_free_conn|intros; apply none_quiet; framed]. }
    apply ends_bind; intros _. apply ends_bind; intros [|]; cbn [negb].
    2: { apply ends_keeps; [apply ends_free_conn|intros; apply none_quiet; framed]. }
    apply ends_keeps; [apply ends_empty_mbox|]. intros _. apply none_bind; [apply none_quiet; framed|].
    intros [|]; cbn [negb]; [apply none_quiet; framed|].
    apply none_bind; [|intros; apply none_quiet; framed]. intros s1 a1 s2 E1 _. by eapply ends_free_conn. }
  destruct (Hf _ _ _ E) as (? & ? & HA). split; [done|]. split; [done|]. intros c.
  destruct (decide (c = n)) as [->|]; [|by apply HA]. rewrite (He _ _ _ E). unfold answers. by rewrite Hn.
Qed.

(** ** Events *)

Definition connects (s : api) (c : Z) : nat := if decide (c ∈ connecting s) then 1%nat else 0%nat.

(** What [err_tcp] does after it has noted the error. *)
Definition err_rest (c : Z) (k : netconn) : AM unit :=
  (match recvmbox k with Some l => put c (with_recvmbox (Some (l ++ [None]))) | None => mret tt end);;
  (match mbox k with Some _ => answer c | None => mret tt end);;
  (match acceptmbox k with Some l => put c (with_acceptmbox (Some (l ++ [None]))) | None => mret tt end);;
  (match sem k with Some _ => signal c | None => mret tt end).

Lemma err_tcp_run c e (s : api) :
  err_tcp (Some (ArgConn c)) e s
  = match conns s !! c with
    | Some k => err_rest c (with_err e (with_pcb None k)) (with_conns (<[c := with_err e (with_pcb None k)]> (conns s)) s)
    | None => None
    end.
Proof.
  unfold err_tcp, conn_arg. unfold mbind at 1, am_bind at 1. cbn [mret am_ret].
  unfold mbind at 1, am_bind at 1. unfold put at 1. destruct (conns s !! c) as [k|]; [|done]. cbn [mbind option_bind].
  unfold mbind at 1, am_bind at 1. unfold put at 1. cbn [conns with_conns]. rewrite lookup_insert_eq. cbn [mbind option_bind].
  unfold mbind at 1, am_bind at 1. unfold get at 1. cbn [conns with_conns]. rewrite lookup_insert_eq. cbn [mbind option_bind].
  by rewrite insert_insert_eq.
Qed.

(** [err_tcp] answers a connection that has a mailbox. *)
Lemma err_tcp_effect c e (s s' : api) :
  err_tcp (Some (ArgConn c)) e s = Some (tt, s') →
  queue s' = queue s ∧ connecting s' = connecting s ∧ (∀ c', c' ≠ c → answers s' c' = answers s c') ∧
  answers s' c = ((if has_mbox s c then 1 else 0) + answers s c)%nat.
Proof.
  rewrite err_tcp_run. unfold has_mbox. destruct (conns s !! c) as [k|] eqn:Ek; [|done].
  set (k1 := with_err e (with_pcb None k)). set (s1 := with_conns _ s). intros E.
  assert (∀ c', answers s1 c' = answers s c') as A1.
  { intros c'. unfold answers, s1. cbn. destruct (decide (c' = c)) as [->|]; [by rewrite lookup_insert_eq, Ek|by rewrite lookup_insert_ne]. }
  change (mbox k) with (mbox k1). destruct (mbox k1) as [n|] eqn:Em.
  - assert (once c (err_rest c k1)) as Ho.
    { unfold err_rest. rewrite Em. apply once_bind_l; [framed|]. intros _. apply once_bind_r; [apply once_answer|framed]. }
    destruct (Ho _ _ _ E) as (Q & C & A & O). rewrite bool_decide_true by by eexists. split; [done|]. split; [done|].
    split; [intros c' Hc; by rewrite O, A1|]. by rewrite A, A1.
  - assert (quiet (err_rest c k1)) as Hq by (unfold err_rest; rewrite Em; framed).
    destruct (Hq _ _ _ E) as (Q & C & A). rewrite bool_decide_false by (by intros [? ?]). split; [done|]. split; [done|].
    split; [intros c' Hc|]; by rewrite A, A1.
Qed.

Definition steady (s s' : api) : Prop :=
  queue s' = queue s ∧ ∀ c, (answers s' c + connects s' c = answers s c + connects s c)%nat.

Lemma steady_quiet {A} (m : AM A) s a s' : quiet m → m s = Some (a, s') → steady s s'.
Proof. intros Hm E. destruct (Hm _ _ _ E) as (Q & C & HA). split; [done|]. intros c. unfold connects. by rewrite HA, C. Qed.

(** A connect that is answered. *)
Lemma steady_connect c (s s' : api) :
  c ∈ connecting s → queue s' = queue s → connecting s' = connecting s ∖ {[c]} →
  (∀ c', c' ≠ c → answers s' c' = answers s c') → answers s' c = S (answers s c) → steady s s'.
Proof.
  intros Hc Q C O A. split; [done|]. intros c'. unfold connects. rewrite C. destruct (decide (c' = c)) as [->|Hne].
  - rewrite A, decide_False, decide_True by set_solver. lia.
  - rewrite O by done. destruct (decide (c' ∈ connecting s)); [rewrite decide_True by set_solver|rewrite decide_False by set_solver]; done.
Qed.

Lemma event_err_steady p e (s s' : api) :
  orderly s (EvErr p e) → run_event (EvErr p e) s = Some (tt, s') → steady s s'.
Proof.
  intros Ho E. cbn [run_event] in E. apply bind_Some in E as (h & s0 & Eh & E).
  unfold get_hook in Eh. destruct (hooks s !! p) as [h'|] eqn:Ehp; [|done]. injection Eh as <- <-.
  apply bind_Some in E as ([] & s1 & E & Ed). injection Ed as <-.
  assert (steady s s1) as Hs; [|exact Hs]. destruct (h_err h') eqn:Eerr; [|by injection E as <-].
  apply bind_Some in E as ([] & s2 & E2 & E). unfold not_connecting in E2.
  destruct (h_arg h') as [[c|c]|] eqn:Earg; [|done|done].
  destruct (has_mbox s c) eqn:Em; injection E2 as <-.
  - assert (c ∈ connecting s) as Hc by by eapply Ho.
    destruct (err_tcp_effect _ _ _ _ E) as (Q & C & O & A). unfold has_mbox in A, Em. cbn [conns with_connecting] in A.
    rewrite Em in A. by apply (steady_connect c).
  - destruct (err_tcp_effect _ _ _ _ E) as (Q & C & O & A). rewrite Em in A. split; [done|].
    intros c'. unfold connects. rewrite C. destruct (decide (c' = c)) as [->|]; [by rewrite A|by rewrite O].
Qed.

Lemma event_connected_steady p e (s s' : api) : run_event (EvConnected p e) s = Some (tt, s') → steady s s'.
Proof.
  intros E. cbn [run_event] in E. apply bind_Some in E as (h & s0 & Eh & E).
  unfold get_hook in Eh. destruct (hooks s !! p) as [h'|] eqn:Ehp; [|done]. injection Eh as <- <-.
  apply bind_Some in E as (s0 & s1 & E0 & E). injection E0 as <- <-.
  destruct (h_arg h') as [[c|c]|] eqn:Earg; [|done|done]. destruct (decide (c ∈ connecting s)) as [Hc|]; [|done].
  apply bind_Some in E as ([] & s2 & E2 & E). injection E2 as <-. apply bind_Some in E as (r & s3 & E3 & E).
  injection E as <-. unfold do_connected, conn_arg in E3. apply bind_Some in E3 as (o & s4 & E4 & E3). injection E4 as <- <-.
  match type of E3 with ?m _ = _ => assert (once c m) as Ho end.
  { apply once_bind_l; [framed|]. intros _. apply once_bind_l; [framed|]. intros k. apply once_bind_l; [framed|]. intros _.
    apply once_bind_r; [apply once_answer|framed]. }
  destruct (Ho _ _ _ E3) as (Q & C & A & O). by apply (steady_connect c).
Qed.

Lemma event_accept_steady p q e n k0 (s s' : api) :
  fresh_conn s n → run_event (EvAccept p q e n k0) s = Some (tt, s') → steady s s'.
Proof.
  intros Hn E. cbn [run_event] in E. apply bind_Some in E as (h & s0 & Eh & E).
  unfold get_hook in Eh. destruct (hooks s !! p) as [h'|]; [|done]. injection Eh as <- <-.
  apply bind_Some in E as ([] & s1 & E1 & E). injection E1 as <-. destruct (h_accept h'); [|injection E as <-; done].
  apply bind_Some in E as (r & s2 & E2 & E). injection E as <-.
  destruct (accept_keeps _ _ _ _ _ _ _ _ E2) as (Q & C & HA); [by destruct n|]. split; [done|].
  intros c. unfold connects. by rewrite HA, C.
Qed.

(** An orderly event changes no message, and answers only a connect under way. *)
Lemma event_steady ev (s s' : api) : orderly s ev → run_event ev s = Some (tt, s') → steady s s'.
Proof.
  intros Ho E. destruct ev.
  4: by eapply event_err_steady.
  4: by eapply event_accept_steady.
  4: by eapply event_connected_steady.
  all: eapply steady_quiet; [|exact E]; cbn [run_event]; framed;
    solve [apply frame_recv_tcp|apply frame_sent_tcp|apply frame_poll_tcp|apply frame_recv_udp].
Qed.
End calls.
