(* ===== verification/ApiCalls.v ===== *)
(** The theorems about requests and answers, from the lemmas of the file ApiProps:
    the invariant of the transition system, what it says about a call, and what
    a reset connection does to the next call. *)

From Stdlib Require Import ZArith Lia.
From stdpp Require Import base tactics relations numbers gmap option list.
From S2P Require Import Prelude Memp Udp Tcp Sockets ApiMsg ApiProps.

Local Open Scope Z_scope.

Section boxes.
Context {T : Type} `{TcpApi T}.
Local Abbreviation api := (@api T).
Local Abbreviation AM := (@AM T).

(** * Every connection has a mailbox for answers *)

Definition boxed (P : Z → Prop) (s : api) : Prop := ∀ c k, P c → conns s !! c = Some k → is_Some (mbox k).

Definition still_boxed (P : Z → Prop) : relation api := λ s s', boxed P s → boxed P s'.

#[global] Instance still_boxed_on_conns P : OnConns (still_boxed P).
Proof.
  split; [split|].
  - by intros s Hs.
  - by intros s1 s2 s3 H12 H23 Hs; apply H23, H12.
  - intros s s' E Hs. unfold boxed. by rewrite E.
Qed.

Definition boxes {A} (P : Z → Prop) (m : AM A) : Prop := keeps (still_boxed P) m.

Lemma boxes_put P c f : (∀ k, is_Some (mbox k) → is_Some (mbox (f k))) → boxes P (put c f).
Proof.
  intros Hf s a s'. unfold put. destruct (conns s !! c) as [k|] eqn:E; [|done]. cbn. intros [= <- <-] Hs c' k' Hc. cbn.
  destruct (decide (c' = c)) as [->|]; [rewrite lookup_insert_eq|rewrite lookup_insert_ne by done; by apply Hs].
  intros [= <-]. apply Hf. by apply (Hs c).
Qed.
Lemma boxes_free_conn P n : keeps (still_boxed P) (free_conn n : AM unit).
Proof. intros s a s' [= <- <-] Hs c k Hc. cbn. rewrite lookup_delete_Some. intros [_ ?]. by apply (Hs c). Qed.
End boxes.
#[export] Hint Resolve boxes_free_conn : api.

Ltac boxing := unfold boxes; keeping ltac:(apply boxes_put; done).

Section boxes_parts.
Context {T : Type} `{TcpApi T}.
Local Abbreviation AM := (@AM T).
Local Abbreviation still_boxed := (@still_boxed T).

Lemma boxes_answer P c : keeps (still_boxed P) (answer c : AM unit).
Proof. unfold answer. boxing. Qed.
Lemma boxes_signal P c : keeps (still_boxed P) (signal c : AM unit).
Proof. unfold signal. boxing. Qed.
Lemma boxes_fetch_answer P c : keeps (still_boxed P) (fetch_answer c : AM unit).
Proof. unfold fetch_answer. boxing. Qed.
Lemma keeps_api_msg_post (R : relation (@api T)) `{OnConns T R} c r : keeps R (api_msg_post c r : AM begun).
Proof. unfold api_msg_post, transport_apimsg. keeping idtac. Qed.
End boxes_parts.
#[export] Hint Resolve boxes_answer boxes_signal boxes_fetch_answer keeps_api_msg_post : api.

Section invariant.
Context {T : Type} `{TcpApi T}.
Local Abbreviation api := (@api T).
Local Abbreviation system := (@system T).
Local Abbreviation AM := (@AM T).

Lemma boxes_input P m mem : boxes P (api_msg_input m mem : AM unit).
Proof.
  unfold api_msg_input, do_newconn, do_delconn, do_bind, bind_pcb, do_connect, connect_pcb, do_listen, do_accept, do_send,
    do_recv, do_write, do_close, tcp_arg, tcp_sent, tcp_recv, tcp_accept, tcp_poll, tcp_err.
  boxing.
Qed.

Lemma boxes_begin_call P k c : boxes P (begin_call k c : AM begun).
Proof.
  destruct k; cbn [begin_call]; unfold netconn_bind, netconn_connect, netconn_listen, netconn_send, netconn_close,
    netconn_delete, send_request; boxing.
Qed.

Lemma boxes_close_again P c : boxes P (close_again c : AM begun).
Proof. unfold close_again. boxing. Qed.
Lemma boxes_call_end P c : boxes P (call_end c : AM err).
Proof. unfold call_end. boxing. Qed.
Lemma boxes_close_end P c : boxes P (close_end c : AM (option err)).
Proof. unfold close_end. boxing. Qed.
Lemma boxes_delete_end P c : boxes P (delete_end c : AM unit).
Proof. unfold delete_end. boxing. Qed.
Lemma boxes_fetch_accepted P c : boxes P (fetch_accepted c : AM (option Z)).
Proof. unfold fetch_accepted. boxing. Qed.
Lemma boxes_delete_done P c : boxes P (delete_done c : AM unit).
Proof. unfold delete_done. boxing. Qed.

Lemma boxed_but (P Q : Z → Prop) (s : api) : (∀ c, Q c → P c) → boxed P s → boxed Q s.
Proof. intros HPQ Hs c k Hc. by apply Hs, HPQ. Qed.
Lemma boxed_new_conn n k (s s' : api) :
  new_conn n k s = Some (tt, s') → boxed (λ _, True) s → boxed (λ c, c ≠ n) s'.
Proof. intros [= <-] Hs c k' Hc. cbn. rewrite lookup_insert_ne by done. by apply Hs. Qed.

(** From a state in which only [n] may have no mailbox. *)
Definition boxes_at {A} (n : Z) (m : AM A) : Prop := ∀ s a s',
  m s = Some (a, s') → boxed (λ c, c ≠ n) s → boxed (λ _, True) s'.

Lemma boxes_at_l {A B} n (m : AM A) (f : A → AM B) :
  boxes (λ c, c ≠ n) m → (∀ a, boxes_at n (f a)) → boxes_at n (m ≫= f).
Proof. intros Hm Hf s b s' E Hs. apply bind_Some in E as (a & s1 & E1 & E2). eapply Hf, Hm; done. Qed.
Lemma boxes_at_r {A B} n (m : AM A) (f : A → AM B) :
  boxes_at n m → (∀ a, boxes (λ _, True) (f a)) → boxes_at n (m ≫= f).
Proof. intros Hm Hf s b s' E Hs. apply bind_Some in E as (a & s1 & E1 & E2). eapply Hf, Hm; done. Qed.
Lemma boxes_at_free n : boxes_at n (free_conn n : AM unit).
Proof.
  intros s a s' [= <- <-] Hs c k _. cbn. rewrite lookup_delete_Some. intros [? ?]. by apply (Hs c).
Qed.
Lemma boxes_at_mbox n : boxes_at n (put n (with_mbox (Some 0%nat)) : AM unit).
Proof.
  intros s a s'. unfold put. destruct (conns s !! n) as [k|]; [|done]. cbn. intros [= <- <-] Hs c k' _. cbn.
  destruct (decide (c = n)) as [->|]; [rewrite lookup_insert_eq; by intros [= <-]|].
  rewrite lookup_insert_ne by done. by apply Hs.
Qed.

Lemma boxes_accept_function a newpcb e n k0 : boxes (λ _, True) (accept_function a newpcb e n k0 : AM err).
Proof.
  intros s r s' E Hs. destruct n as [n|]; [|by injection E as <- <-]. unfold accept_function in E. cbv zeta in E.
  apply bind_Some in E as ([] & s1 & E1 & E). pose proof (boxed_new_conn _ _ _ _ E1 Hs) as H1. revert E H1.
  match goal with |- ?m s1 = _ → _ => assert (boxes_at n m) as Hm; [|intros; by eapply Hm] end.
  assert (boxes_at n (free_conn n;; mret ERR_MEM : AM err)) as Hfree.
  { apply boxes_at_r; [apply boxes_at_free|boxing]. }
  apply boxes_at_l; [boxing|]. intros _. apply boxes_at_l; [boxing|]. intros [|]; [cbn [negb]|exact Hfree].
  apply boxes_at_l; [boxing|]. intros _. apply boxes_at_l; [boxing|]. intros [|]; [cbn [negb]|exact Hfree].
  apply boxes_at_r; [apply boxes_at_mbox|]. boxing.
Qed.

Lemma boxes_run_event ev : boxes (λ _, True) (run_event ev : AM unit).
Proof.
  destruct ev; cbn [run_event]; unfold recv_tcp, sent_tcp, poll_tcp, err_tcp, do_connected, recv_udp; boxing.
  apply boxes_accept_function.
Qed.

(** * The invariant *)

Definition count_in (X : gset Z) (c : Z) : nat := if decide (c ∈ X) then 1%nat else 0%nat.

(** What the client of [c] has been promised: an answer in its mailbox, a message
    on its way, a connect under way; or it has been forgotten. *)
Definition owed (S : system) (c : Z) : nat :=
  (answers (sys_api S) c + requests (sys_api S) c + connects (sys_api S) c + count_in (dropped S) c + count_in (lost S) c)%nat.

Record inv (S : system) : Prop := {
  inv_owed c : owed S c = if waiting (phases S !! c) then 1%nat else 0%nat;
  inv_boxed : boxed (λ _, True) (sys_api S);
  inv_phase m : m ∈ queue (sys_api S) → phases S !! msg_conn m = request_phase (request m);
  inv_lost c : c ∈ lost S → phases S !! c = Some WaitsConnect
}.

Lemma count_in_add X c c' : c ∉ X → count_in ({[c]} ∪ X) c' = ((if decide (c' = c) then 1 else 0) + count_in X c')%nat.
Proof.
  intros Hc. unfold count_in. destruct (decide (c' = c)) as [->|].
  - by rewrite decide_True, decide_False by set_solver.
  - destruct (decide (c' ∈ X)); [rewrite decide_True by set_solver|rewrite decide_False by set_solver]; done.
Qed.

Lemma requests_cons (s : api) m q c :
  queue s = m :: q → requests s c = ((if decide (msg_conn m = c) then 1 else 0) + requests (with_queue q s) c)%nat.
Proof. intros E. unfold requests. rewrite E, filter_cons. cbn [queue with_queue]. by destruct (decide (msg_conn m = c)). Qed.

Lemma requests_snoc (s s' : api) m c :
  queue s' = queue s ++ [m] → requests s' c = ((if decide (msg_conn m = c) then 1 else 0) + requests s c)%nat.
Proof.
  intros E. unfold requests. rewrite E, filter_app, length_app, filter_cons. cbn [filter].
  destruct (decide (msg_conn m = c)); cbn; lia.
Qed.

Lemma requests_pos (s : api) m : m ∈ queue s → (0 < requests s (msg_conn m))%nat.
Proof.
  intros Hm. unfold requests. destruct (filter _ (queue s)) eqn:E; [|cbn; lia]. exfalso.
  assert (m ∈ filter (λ m', msg_conn m' = msg_conn m) (queue s)) as Hin by (by apply list_elem_of_filter).
  rewrite E in Hin. by apply elem_of_nil in Hin.
Qed.

Lemma requests_queue (s s' : api) c : queue s' = queue s → requests s' c = requests s c.
Proof. intros E. unfold requests. by rewrite E. Qed.

Lemma connects_same (s s' : api) c : connecting s' = connecting s → connects s' c = connects s c.
Proof. intros E. unfold connects. by rewrite E. Qed.

(** Steps that leave the calls alone. *)
Lemma inv_steady s s' fs d l :
  steady s s' → boxed (λ _, True) s' → inv (Sys s fs d l) → inv (Sys s' fs d l).
Proof.
  intros [Q HA] HB [Ho _ Hp Hl]. split; cbn in *; [|done|by rewrite Q|done].
  intros c. specialize (Ho c). specialize (HA c). unfold owed in *. cbn in *. rewrite (requests_queue s s') by done. lia.
Qed.

(** A call that takes its answer. *)
Lemma inv_takes {A} c (m : AM A) s a s' fs fs' d l :
  takes c m → boxes (λ _, True) m → m s = Some (a, s') → waiting (fs !! c) = true →
  waiting (fs' !! c) = false → (∀ c', c' ≠ c → fs' !! c' = fs !! c') →
  inv (Sys s fs d l) → inv (Sys s' fs' d l).
Proof.
  intros Hm HB E Hw Hw' Hfs [Ho Hb Hp Hl]. destruct (Hm _ _ _ E) as (Q & C & HA & O).
  pose proof (Ho c) as Hc. unfold owed in Hc. cbn in Hc, Hb, Hp, Hl. rewrite Hw in Hc. split; cbn.
  - intros c'. specialize (Ho c'). unfold owed in Ho |- *. cbn in Ho |- *. rewrite (requests_queue s s'), (connects_same s s') by done.
    destruct (decide (c' = c)) as [->|]; [rewrite Hw'; lia|]. rewrite Hfs, O by done. exact Ho.
  - by eapply HB.
  - intros m'. rewrite Q. intros Hm'. rewrite Hfs; [by apply Hp|]. intros <-. pose proof (requests_pos _ _ Hm'). lia.
  - intros c' Hc'. rewrite Hfs; [by apply Hl|]. intros ->. unfold count_in in Hc. rewrite (decide_True _ _ Hc') in Hc. lia.
Qed.

(** A call that begins. *)
Lemma inv_posts c f (m : AM begun) s b s' fs d l :
  posts c f m → boxes (λ _, True) m → m s = Some (b, s') → waiting (fs !! c) = false → waiting (Some f) = true →
  inv (Sys s fs d l) →
  inv (match b with
       | Returns _ => Sys s' fs d l
       | Posted => Sys s' (<[c := f]> fs) d l
       | Lost => Sys s' (<[c := f]> fs) ({[c]} ∪ d) l
       end).
Proof.
  intros Hm HB E Hw Hf [Ho Hb Hp Hl]. destruct (Hm _ _ _ E) as (C & HA & Hq). cbn in Hb, Hp, Hl.
  pose proof (Ho c) as Hc. unfold owed in Hc. cbn in Hc. rewrite Hw in Hc.
  assert (c ∉ l) as Hcl. { intros Hin. unfold count_in in Hc. rewrite (decide_True _ _ Hin) in Hc. lia. }
  assert (c ∉ d) as Hcd. { intros Hin. unfold count_in at 1 in Hc. rewrite (decide_True _ _ Hin) in Hc. lia. }
  assert (∀ c', c' ∈ l → <[c := f]> fs !! c' = Some WaitsConnect) as Hl'.
  { intros c' Hc'. rewrite lookup_insert_ne by (intros ->; done). by apply Hl. }
  assert (∀ m', m' ∈ queue s → <[c := f]> fs !! msg_conn m' = request_phase (request m')) as Hp'.
  { intros m' Hm'. rewrite lookup_insert_ne; [by apply Hp|]. intros ->. pose proof (requests_pos _ _ Hm'). lia. }
  destruct b; cbn in Hq.
  - apply (inv_steady s); [|by eapply HB|by split]. split; [done|]. intros c'. by rewrite HA, (connects_same s s').
  - destruct Hq as (r & Hq & Hr). split; cbn; [|by eapply HB| |done].
    + intros c'. specialize (Ho c'). unfold owed in Ho |- *. cbn in Ho |- *.
      rewrite (requests_snoc s s' (ApiMsg c r)), (connects_same s s'), HA by done. cbn [msg_conn].
      destruct (decide (c = c')) as [<-|]; [rewrite lookup_insert_eq, Hf; lia|by rewrite lookup_insert_ne].
    + intros m'. rewrite Hq, elem_of_app, list_elem_of_singleton. intros [Hm'| ->]; [by apply Hp'|]. cbn.
      by rewrite lookup_insert_eq.
  - split; cbn; [|by eapply HB|by rewrite Hq|done].
    intros c'. specialize (Ho c'). unfold owed in Ho |- *. cbn in Ho |- *.
    rewrite (requests_queue s s'), (connects_same s s'), HA, count_in_add by done.
    destruct (decide (c' = c)) as [->|]; [rewrite lookup_insert_eq, Hf; lia|by rewrite lookup_insert_ne].
Qed.

(** Messages other than those to connect are answered at once. *)
Lemma delconn_answers c (s s' : api) :
  boxed (λ _, True) s → do_delconn c s = Some (tt, s') → answers s' c = S (answers s c).
Proof.
  intros Hs E. unfold do_delconn in E. apply bind_Some in E as (k & s1 & E1 & E). unfold get in E1.
  destruct (conns s !! c) as [k'|] eqn:Ek; [|done]. injection E1 as <- <-. destruct (Hs c k' I Ek) as [n Hn]. rewrite Hn in E.
  match type of E with ?m _ = _ => assert (once c m) as Ho end.
  { unfold tcp_arg, tcp_sent, tcp_recv, tcp_accept, tcp_poll, tcp_err. apply once_bind_l; [framed|].
    intros _. apply once_answer. }
  by destruct (Ho _ _ _ E) as (_ & _ & ? & _).
Qed.

Lemma input_answers m mem f (s s' : api) :
  boxed (λ _, True) s → request_phase (request m) = Some f → f ≠ WaitsConnect → api_msg_input m mem s = Some (tt, s') →
  answers s' (msg_conn m) = S (answers s (msg_conn m)).
Proof.
  intros Hs Hf Hne E. unfold api_msg_input in E. destruct (request m) eqn:Er; cbn in Hf; try congruence.
  1: by eapply delconn_answers.
  all: match type of E with ?m' _ = _ => assert (once (msg_conn m) m') as Ho end;
    [solve [apply once_do_bind|apply once_do_listen|apply once_do_send|apply once_do_recv|apply once_do_write|apply once_do_close]
    |by destruct (Ho _ _ _ E) as (_ & _ & ? & _)].
Qed.

Lemma unanswered_connects m mem (s s' : api) f :
  boxed (λ _, True) s → waiting f = true → request_phase (request m) = f → api_msg_input m mem s = Some (tt, s') →
  answers s' (msg_conn m) = answers s (msg_conn m) → f = Some WaitsConnect.
Proof.
  intros Hb Hw Hf E HA. destruct f as [f|]; [|done]. destruct (decide (f = WaitsConnect)) as [->|Hne]; [done|].
  pose proof (input_answers m mem f s s' Hb Hf Hne E). lia.
Qed.

Lemma inv_handle s fs d l m q mem s' :
  queue s = m :: q → transport_thread mem s = Some (tt, s') → inv (Sys s fs d l) →
  inv (Sys s' fs d (if decide (answered s s' (msg_conn m)) then l else {[msg_conn m]} ∪ l)).
Proof.
  intros Q E [Ho Hb Hp Hl]. cbn in Hb, Hp, Hl. unfold transport_thread in E. rewrite Q in E.
  destruct (handled_input _ _ _ _ _ E) as (Q' & O & Hor). cbn in Q', Hor.
  assert (boxed (λ _, True) s') as Hb' by (by eapply boxes_input).
  assert (∀ c, requests s' c = requests (with_queue q s) c) as HR by (intros c; by apply requests_queue).
  pose proof (Ho (msg_conn m)) as Hc. unfold owed in Hc. cbn in Hc. rewrite (requests_cons s m q), decide_True in Hc by done.
  destruct (waiting (fs !! msg_conn m)) eqn:Hw; [|lia].
  assert (msg_conn m ∉ connecting s) as Hcc.
  { intros Hin. unfold connects in Hc. rewrite (decide_True _ _ Hin) in Hc. lia. }
  assert (msg_conn m ∉ l) as Hcl.
  { intros Hin. unfold count_in in Hc. rewrite (decide_True _ _ Hin) in Hc. lia. }
  assert (fs !! msg_conn m = request_phase (request m)) as Hph by (apply Hp; rewrite Q; left).
  assert (∀ m', m' ∈ queue s' → fs !! msg_conn m' = request_phase (request m')) as Hp'.
  { intros m' Hm'. apply Hp. rewrite Q. right. by rewrite <-Q'. }
  change (answers (with_queue q s)) with (answers s) in O, Hor.
  assert (∀ c', c' ≠ msg_conn m → requests s c' = requests s' c') as HR'.
  { intros c' Hne. by rewrite (requests_cons s m q), decide_False, HR. }
  destruct Hor as [[HA HC]|[[HA HC]|[HA HC]]].
  - rewrite decide_True by (left; lia). split; cbn; [|done..]. intros c'. specialize (Ho c'). unfold owed in Ho |- *. cbn in Ho |- *.
    rewrite (connects_same s s') by done. destruct (decide (c' = msg_conn m)) as [->|]; [rewrite HR, Hw; lia|].
    by rewrite O, <-HR'.
  - rewrite decide_True by (right; set_solver). split; cbn; [|done..]. intros c'. specialize (Ho c').
    unfold owed in Ho |- *. cbn in Ho |- *. change (connects s' c') with (count_in (connecting s') c').
    rewrite HC, count_in_add by done. change (count_in (connecting s) c') with (connects s c').
    destruct (decide (c' = msg_conn m)) as [->|]; [rewrite HR, Hw; lia|]. by rewrite O, <-HR'.
  - assert (fs !! msg_conn m = Some WaitsConnect) as Hwc.
    { by apply (unanswered_connects m mem (with_queue q s) s'). }
    rewrite decide_False by (intros [?|[? ?]]; [lia|rewrite HC in *; done]). split; cbn; [|done|done|].
    + intros c'. specialize (Ho c'). unfold owed in Ho |- *. cbn in Ho |- *. rewrite (connects_same s s'), count_in_add by done.
      destruct (decide (c' = msg_conn m)) as [->|]; [rewrite HR, Hw; lia|]. by rewrite O, <-HR'.
    + intros c' [->%elem_of_singleton|Hin]%elem_of_union; [done|by apply Hl].
Qed.

Lemma inv_delete_done c s s' fs d l :
  fs !! c = Some Drains → delete_done c s = Some (tt, s') → inv (Sys s fs d l) → inv (Sys s' (delete c fs) d l).
Proof.
  intros Hc E [Ho Hb Hp Hl]. cbn in Hb, Hp, Hl. assert (boxed (λ _, True) s') as Hb' by (by eapply boxes_delete_done).
  unfold delete_done in E. apply bind_Some in E as (k & s1 & E1 & E). unfold get in E1.
  destruct (conns s !! c) as [k'|] eqn:Ek; [|done]. injection E1 as <- <-.
  assert (s' = with_conns (delete c (conns s)) s) as -> by (destruct (acceptmbox k') as [[|]|]; [|done|]; by injection E as <-).
  pose proof (Ho c) as H0. unfold owed in H0. cbn in H0. rewrite Hc in H0. cbn in H0.
  assert (∀ f, fs !! c = Some f → f = Drains) as Hd by (intros f; rewrite Hc; by intros [= <-]).
  split; cbn; [|done| |].
  - intros c'. specialize (Ho c'). unfold owed in Ho |- *.
    cbn [sys_api phases dropped lost] in Ho |- *. destruct (decide (c' = c)) as [->|].
    + rewrite lookup_delete_eq. cbn [waiting]. rewrite (requests_queue s), (connects_same s) by done.
      assert (answers (with_conns (delete c (conns s)) s) c = 0%nat) as ->; [|lia].
      unfold answers. cbn. by rewrite lookup_delete_eq.
    + rewrite lookup_delete_ne by done. rewrite <-Ho. unfold answers. cbn. by rewrite lookup_delete_ne.
  - intros m Hm. rewrite lookup_delete_ne; [by apply Hp|]. intros ->. pose proof (requests_pos _ _ Hm). lia.
  - intros c' Hc'. rewrite lookup_delete_ne; [by apply Hl|]. intros <-. by pose proof (Hd _ (Hl _ Hc')).
Qed.

Lemma netconn_new_steady t n e0 (s s' : api) r :
  fresh_conn s n → netconn_new t n e0 s = Some (r, s') → boxed (λ _, True) s → steady s s' ∧ boxed (λ _, True) s'.
Proof.
  intros Hn E Hb. destruct n as [n|]; [|by injection E as <- <-]. cbn in Hn, E.
  apply bind_Some in E as (b & s1 & E1 & E). assert (steady s s1) as [Q1 H1] by (eapply steady_quiet; [apply keeps_alloc; apply _|exact E1]).
  assert (boxed (λ _, True) s1) as Hb1 by (by eapply (keeps_alloc (still_boxed _))).
  assert (conns s1 !! n = None) as Hn1.
  { revert E1 Hn. unfold alloc. by destruct (allocs s); intros [= <- <-]. }
  destruct b; [|by injection E as <- <-]. apply bind_Some in E as ([] & s2 & E2 & E). injection E as <- <-.
  injection E2 as <-. split; [split; [done|]|].
  - intros c. rewrite <-H1. unfold answers. cbn. destruct (decide (c = n)) as [->|]; [|by rewrite lookup_insert_ne].
    by rewrite lookup_insert_eq, Hn1.
  - intros c k _. cbn. destruct (decide (c = n)) as [->|]; [rewrite lookup_insert_eq; by intros [= <-]|].
    rewrite lookup_insert_ne by done. by apply Hb1.
Qed.

Lemma close_again_posts c (s s' : api) e : close_again c s ≠ Some (Returns e, s').
Proof.
  intros E. unfold close_again in E. apply bind_Some in E as (k & s1 & _ & E). destruct (sem k) as [n|]; [|done].
  destruct (n <=? 0); [done|]. apply bind_Some in E as ([] & s2 & _ & E). unfold api_msg_post in E.
  apply bind_Some in E as ([|] & s3 & _ & E); done.
Qed.

Lemma inv_step S S' : sys_step S S' → inv S → inv S'.
Proof.
  destruct 1 as [s fs d l t n e0 r s' Hn E|s fs d l k c b s' Hc E|s fs d l m q mem s' Q E|s fs d l ev s' Ho E
    |s fs d l c e s' Hc E|s fs d l c r s' Hc E|s fs d l c b s' Hc E|s fs d l c s' Hc E|s fs d l c n s' Hc E|s fs d l c s' Hc E];
    intros Hi.
  - destruct (netconn_new_steady _ _ _ _ _ _ Hn E) as [? ?]; [apply Hi|]. by eapply inv_steady.
  - eapply (inv_posts c (call_phase k)); [apply posts_begin_call|apply boxes_begin_call|exact E| | |exact Hi];
      [by rewrite Hc|by destruct k].
  - by eapply inv_handle.
  - eapply inv_steady; [by eapply event_steady|eapply boxes_run_event; [done|apply Hi]|done].
  - eapply inv_takes; [apply takes_call_end|apply boxes_call_end|exact E| | | |exact Hi].
    + by destruct Hc as [-> | ->].
    + by rewrite lookup_delete_eq.
    + intros c' Hne. by rewrite lookup_delete_ne.
  - eapply inv_takes; [apply takes_close_end|apply boxes_close_end|exact E| | | |exact Hi]; [by rewrite Hc| |].
    + destruct r; [by rewrite lookup_delete_eq|by rewrite lookup_insert_eq].
    + intros c' Hne. destruct r; [by rewrite lookup_delete_ne|by rewrite lookup_insert_ne].
  - pose proof (inv_posts c WaitsClose _ _ _ _ fs d l (posts_close_again c) (boxes_close_again _ c) E) as Hp.
    specialize (Hp ltac:(by rewrite Hc) eq_refl Hi). destruct b; [|done|done]. by apply close_again_posts in E.
  - eapply inv_takes; [apply takes_delete_end|apply boxes_delete_end|exact E| | | |exact Hi]; [by rewrite Hc| |].
    + by rewrite lookup_insert_eq.
    + intros c' Hne. by rewrite lookup_insert_ne.
  - eapply inv_steady; [eapply steady_quiet; [apply quiet_fetch_accepted|exact E]| |done].
    eapply boxes_fetch_accepted; [exact E|apply Hi].
  - by eapply inv_delete_done.
Qed.

(** No connection, no message, no call. *)
Definition started (S : system) : Prop :=
  conns (sys_api S) = ∅ ∧ queue (sys_api S) = [] ∧ connecting (sys_api S) = ∅ ∧ phases S = ∅ ∧ dropped S = ∅ ∧ lost S = ∅.

Lemma inv_started S : started S → inv S.
Proof.
  destruct S as [s fs d l]. intros (HC & HQ & HK & HF & HD & HL). cbn in *. subst. split; cbn.
  - intros c. rewrite lookup_empty. unfold owed, answers, requests, connects, count_in. cbn. rewrite HC, HQ, HK, lookup_empty.
    cbn. by rewrite !decide_False by set_solver.
  - intros c k _. rewrite HC. by rewrite lookup_empty.
  - intros m. rewrite HQ. by intros ?%elem_of_nil.
  - set_solver.
Qed.

Lemma inv_reachable S0 S : started S0 → rtc sys_step S0 S → inv S.
Proof. intros H0 HS. apply inv_started in H0. induction HS; eauto using inv_step. Qed.


(** C38: a connection that is reset while its client is not in a call gets an
    answer to nothing.  The next call posts its message, takes that answer and
    returns, and the message, which the client then frees, is still in the
    queue. *)
Theorem netconn_reset_answers_early (s s1 s2 : api) p h c e k :
  hooks s !! p = Some h → h_err h = true → h_arg h = Some (ArgConn c) → has_mbox s c = true →
  run_event (EvErr p e) s = Some (tt, s1) → begin_call k c s1 = Some (Posted, s2) →
  ∃ e' s3, call_end c s2 = Some (e', s3) ∧ (0 < requests s3 c)%nat.
Proof.
  intros Hh Herr Harg Hm E1 E2. cbn [run_event] in E1. apply bind_Some in E1 as (h' & s0 & Eh & E1).
  unfold get_hook in Eh. rewrite Hh in Eh. injection Eh as <- <-. rewrite Herr, Harg in E1.
  apply bind_Some in E1 as ([] & s0 & E1 & Ed). injection Ed as <-.
  apply bind_Some in E1 as ([] & s4 & E4 & E1). unfold not_connecting in E4. rewrite Hm in E4. injection E4 as <-.
  destruct (err_tcp_effect _ _ _ _ E1) as (_ & _ & _ & HA). unfold has_mbox in HA, Hm. cbn in HA. rewrite Hm in HA.
  destruct (posts_begin_call k c _ _ _ E2) as (_ & HA2 & r & Hq & _). specialize (HA2 c).
  change (answers (with_hooks _ s0)) with (answers s0) in HA2. rewrite HA in HA2. cbn in HA2. unfold answers at 1 in HA2.
  destruct (conns s2 !! c) as [k2|] eqn:Ek; [|done]. destruct (mbox k2) as [[|n]|] eqn:Em; [done| |done].
  exists (conn_err k2), (with_conns (<[c := with_mbox (Some n) k2]> (conns s2)) s2). split.
  - unfold call_end, fetch_answer, get, mbind, am_bind, option_bind. rewrite Ek, Em. unfold put. rewrite Ek. cbn.
    by rewrite lookup_insert_eq.
  - rewrite (requests_queue s2) by done. apply (requests_pos s2 (ApiMsg c r)). rewrite Hq. apply elem_of_app. right. left.
Qed.
End invariant.

(** * An example *)

(** A TCP that gives the next address and always succeeds. *)
#[local] Instance easy_tcp : TcpApi Z := {
  tcp_new n := (Some n, n + 1);
  tcp_bind _ _ _ n := (ERR_OK, n);
  tcp_listen _ n := (Some n, n + 1);
  tcp_connect _ _ _ n := (ERR_OK, n);
  tcp_close _ n := (ERR_OK, true, n);
  tcp_abort _ n := n;
  tcp_write _ _ n := (ERR_OK, n);
  tcp_output _ n := n;
  tcp_recved _ _ n := n;
  tcp_all_acked _ _ := true;
  tcp_listening _ _ := false
}.

Definition no_udp : udp :=
  Udp None ∅ (Pools (λ _, None) ∅ (λ _, 0) 0 (λ _, []) (λ _, StatsMemp 0 0 0 0 0)) (StatsUdp 0 0 0 0).

Definition easy_api (conns : gmap Z netconn) (hooks : gmap Z hook) : @api Z :=
  Api conns hooks 100 no_udp [] (repeat true 8) ∅ [].


(** A reset, then a close. *)
Lemma netconn_reset_answers_early_witness : ∃ s1 s2 s3 : @api Z, ∃ e',
  begin_call CallClose 1 s1 = Some (Posted, s2) ∧ call_end 1 s2 = Some (e', s3) ∧ (0 < requests s3 1)%nat.
Proof.
  pose (h := Hook (Some (ArgConn 1)) true true true false (Some 4)).
  pose (s := easy_api {[1 := Netconn NETCONN_TCP NETCONN_NONE (Some 100) ERR_OK (Some 0%nat) (Some []) None None]} {[100 := h]}).
  eassert (run_event (EvErr 100 ERR_RST) s = Some (tt, _)) as E1 by (vm_compute; reflexivity).
  eassert (begin_call CallClose 1 _ = Some (Posted, _)) as E2; [|eexists _, _].
  2: destruct (netconn_reset_answers_early s _ _ 100 h 1 ERR_RST CallClose eq_refl eq_refl eq_refl eq_refl E1 E2) as (e' & s3 & Hc).
  2: exists s3, e'; split; [exact E2|exact Hc].
  vm_compute. reflexivity.
Defined.
