(* ===== verification/SocketCalls.v ===== *)
(** The calls of lwtcp/sockets.c that make, bind, connect, listen, accept and
    close, over the connections of the file ApiMsg.

    One thread of the application uses the table of sockets; where a call waits,
    the thread of the stack runs.  What it does in each wait is a list of steps in
    the state, [waits]; at its end the application waits for ever, which is the
    result [Blocked].  [Crashed] is the use of a null pointer, of memory outside of
    the table or of a connection that does not exist.  [fresh] are the blocks that
    the pool of connections gives: one in use is not given out. *)

From Stdlib Require Import ZArith Lia.
From stdpp Require Import base tactics numbers gmap option list.
From S2P Require Import Prelude Udp Tcp Sockets ApiMsg ApiProps.

Local Open Scope Z_scope.

(** The constants of the system's <sys/socket.h>. *)
Definition SOCK_STREAM : Z := 1.
Definition SOCK_DGRAM : Z := 2.

(** The peer of a block of TCP. *)
Class TcpPeer (T : Type) := tcp_peer : Z → T → Z * Z.

(** A step of the stack: a message of the queue, or an event. *)
Inductive stack_step := Handle (mem : option (list Z)) | Happens (ev : event).

Section calls.
Context {T : Type} `{TcpApi T} `{TcpPeer T}.
Local Abbreviation api := (@api T).
Local Abbreviation AM := (@AM T).

Record env := Env {
  net : api;
  table : list lwip_socket;
  waits : list (list stack_step);
  fresh : list (option Z)
}.

Definition with_net (v : api) (s : env) : env := Env v (table s) (waits s) (fresh s).
Definition with_table (v : list lwip_socket) (s : env) : env := Env (net s) v (waits s) (fresh s).

Inductive outcome (A : Type) := Done (a : A) (s : env) | Blocked | Crashed.
Arguments Done {A} a s.
Arguments Blocked {A}.
Arguments Crashed {A}.

Definition SM (A : Type) : Type := env → outcome A.

#[global] Instance sm_ret : MRet SM := λ A a s, Done a s.
#[global] Instance sm_bind : MBind SM := λ A B f m s,
  match m s with Done a s => f a s | Blocked => Blocked | Crashed => Crashed end.

Definition crashed {A} : SM A := λ _, Crashed.
Definition blocked {A} : SM A := λ _, Blocked.

Definition lift {A} (m : AM A) : SM A := λ s,
  match m (net s) with Some (a, n) => Done a (with_net n s) | None => Crashed end.

(** A block that is in use is not given out. *)
Definition unused (s : api) (n : option Z) : bool :=
  match n with Some n => bool_decide (conns s !! n = None) | None => true end.

Definition given (st : stack_step) : option Z :=
  match st with Happens (EvAccept _ _ _ n _) => n | _ => None end.

Definition run_step (st : stack_step) : AM unit := λ s,
  match st with
  | Handle mem => match queue s with [] => Some (tt, s) | _ => transport_thread mem s end
  | Happens ev => run_event ev s
  end.

Fixpoint run_steps (l : list stack_step) : SM unit :=
  match l with
  | [] => mret tt
  | st :: l => λ s, if unused (net s) (given st) then (lift (run_step st);; run_steps l) s else Blocked
  end.

(** The application waits, the stack runs. *)
Definition wait : SM unit := λ s,
  match waits s with
  | [] => Blocked
  | l :: ws => run_steps l (Env (net s) (table s) ws (fresh s))
  end.

(** [sys_mbox_fetch(conn->mbox, NULL)] and what follows. *)
Definition with_answer {A} (c : Z) (m : AM A) : SM A := λ s,
  match answers (net s) c with O => Blocked | S _ => lift m s end.

Definition after_answer {A} (c : Z) (m : AM A) : SM A := wait;; with_answer c m.

(** A call of a connection from beginning to end. *)
Definition whole_call (c : Z) (m : AM begun) : SM err :=
  b ← lift m;
  match b with Returns e => mret e | Posted | Lost => after_answer c (call_end c) end.

(** [netconn_delete] with the connections that were not accepted; [fuel] is the
    number of connections that are deleted at most. *)
Definition pending (c : Z) : SM (option (list (option Z))) := lift (k ← get c; mret (acceptmbox k)).

Fixpoint delete_conn (fuel : nat) (c : Z) : SM err :=
  match fuel with
  | O => blocked
  | S fuel =>
      b ← lift (netconn_delete c);
      match b with
      | Returns e => mret e
      | _ => after_answer c (delete_end c);; drain fuel c;; lift (delete_done c);; mret ERR_OK
      end
  end
with drain (fuel : nat) (c : Z) : SM unit :=
  match fuel with
  | O => blocked
  | S fuel =>
      l ← pending c;
      match l with
      | Some (_ :: _) =>
          n ← lift (fetch_accepted c);
          (match n with Some n => delete_conn fuel n | None => mret ERR_OK end);;
          drain fuel c
      | _ => mret tt
      end
  end.

(** [get_socket]: the connection of a descriptor and its place. *)
Definition socket_conn (i : Z) : SM (option Z) := λ s,
  if NUM_SOCKETS <? i then Done None s
  else if i <? 0 then Crashed
  else match table s !! Z.to_nat i with Some sock => Done (conn sock) s | None => Crashed end.

Definition new_socket (c : Z) : SM Z := λ s,
  match free_socket (table s) 0 with
  | None => Done (-1) s
  | Some i => Done i (with_table (<[Z.to_nat i := Socket (Some c) None 0]> (table s)) s)
  end.

Definition clear_socket (i : Z) : SM unit := λ s,
  Done tt (with_table (<[Z.to_nat i := Socket None None 0]> (table s)) s).

(** The next block of the pool. *)
Definition next_conn : SM (option Z) := λ s,
  match fresh s with
  | [] => Blocked
  | n :: l => if unused (net s) n then Done n (Env (net s) (table s) (waits s) l) else Blocked
  end.

(** A new connection gets a descriptor or is deleted. *)
Definition keep_conn (fuel : nat) (c : Z) : SM Z :=
  i ← new_socket c;
  (if i =? -1 then delete_conn fuel c;; mret tt else mret tt);;
  mret i.

(** [e0] is what the memory of the block holds in [err]. *)
Definition lwip_socket_call (fuel : nat) (type : Z) (e0 : err) : SM Z :=
  let make t := n ← next_conn; lift (netconn_new t n e0) in
  conn ← (if type =? SOCK_DGRAM then make NETCONN_UDP
          else if type =? SOCK_STREAM then make NETCONN_TCP
          else mret None);
  match conn with None => mret (-1) | Some c => keep_conn fuel c end.

(** The result of a call of a connection as that of a socket. *)
Definition status (e : err) : Z := if is_ok e then 0 else -1.

Definition socket_call (i : Z) (m : Z → AM begun) : SM Z :=
  c ← socket_conn i;
  match c with None => mret (-1) | Some c => e ← whole_call c (m c); mret (status e) end.

Definition lwip_bind (i addr port : Z) : SM Z := socket_call i (λ c, netconn_bind c (Some addr) (ntohs port)).
Definition lwip_connect (i addr port : Z) : SM Z := socket_call i (λ c, netconn_connect c (Some addr) (ntohs port)).
Definition lwip_listen (i : Z) : SM Z := socket_call i netconn_listen.

(** The result of [netconn_delete] is not used. *)
Definition lwip_close (fuel : nat) (i : Z) : SM Z :=
  c ← socket_conn i;
  match c with
  | None => mret (-1)
  | Some c => delete_conn fuel c;; clear_socket i;; mret 0
  end.

(** [netconn_peer]: the address, read at once, and the port. *)
Definition netconn_peer (c : Z) : AM (Z * Z) :=
  k ← get c;
  match pcb k with
  | None => null
  | Some p =>
      s ← state_of;
      r ← (match type k with
           | NETCONN_TCP => mret (tcp_peer p (tcp s))
           | _ => match pcbs (udps s) !! p with Some b => mret (Udp.remote_ip b, Udp.remote_port b) | None => null end
           end);
      put c (with_err ERR_OK);;
      mret r
  end.

(** [sys_mbox_fetch(conn->acceptmbox, &newconn)]: waits when it is empty. *)
Definition accept_conn (c : Z) : SM (option Z) :=
  l ← pending c;
  (match l with Some (_ :: _) => mret tt | _ => wait end);;
  l ← pending c;
  match l with Some (_ :: _) => lift (netconn_accept c) | Some [] => blocked | None => crashed end.

(** Also the address and the port of the peer. *)
Definition lwip_accept (fuel : nat) (i : Z) : SM (Z * (Z * Z)) :=
  c ← socket_conn i;
  match c with
  | None => mret (-1, (0, 0))
  | Some c =>
      n ← accept_conn c;
      match n with
      | None => crashed
      | Some n =>
          peer ← lift (netconn_peer n);
          j ← keep_conn fuel n;
          mret (j, peer)
      end
  end.
End calls.

Arguments Done {T A} a s.
Arguments Blocked {T A}.
Arguments Crashed {T A}.
