(* ===== verification/SocketSafety.v ===== *)
(** Sockets and connections: no descriptor refers to a connection that was freed,
    and no two refer to the same one, whatever the application and the stack do;
    and the crash of accepting a connection that was reset. *)

From Stdlib Require Import ZArith Lia.
From stdpp Require Import base tactics relations numbers gmap option list.
From S2P Require Import Prelude Memp Udp Tcp Sockets ApiMsg ApiProps ApiCalls SocketCalls.

Local Open Scope Z_scope.

Section owners.
Context {T : Type} `{TcpApi T}.
Local Abbreviation api := (@api T).
Local Abbreviation AM := (@AM T).

(** * Who holds a connection *)

(** A place of the table, a place in the mailbox of a listening connection, or a
    variable of a call that is under way. *)
Inductive holder := Slot (i : nat) | Box (c : Z) (j : nat) | Local (k : nat).

Definition place (k : netconn) (j : nat) : option Z := l ← acceptmbox k; mjoin (l !! j).
Definition pend (s : api) (c : Z) (j : nat) : option Z := k ← conns s !! c; place k j.

Definition owner (L : list Z) (t : list lwip_socket) (s : api) (h : holder) : option Z :=
  match h with
  | Slot i => sock ← t !! i; conn sock
  | Box c j => pend s c j
  | Local k => L !! k
  end.

Definition alive (s : api) (n : Z) : Prop := is_Some (conns s !! n).

Record sound (L : list Z) (t : list lwip_socket) (s : api) : Prop := {
  sound_alive h n : owner L t s h = Some n → alive s n;
  sound_once h h' n : owner L t s h = Some n → owner L t s h' = Some n → h = h'
}.

(** Connections that are held move to other holders. *)
Lemma sound_move f L t s L' t' s' :
  (∀ n, alive s n → alive s' n) →
  (∀ h n, owner L' t' s' h = Some n → owner L t s (f h) = Some n) →
  (∀ h h' n, owner L' t' s' h = Some n → owner L' t' s' h' = Some n → f h = f h' → h = h') →
  sound L t s → sound L' t' s'.
Proof.
  intros Ha Ho Hf [Hs1 Hs2]. split.
  - intros h n Hh. by eapply Ha, Hs1, Ho.
  - intros h h' n Hh Hh'. eapply Hf; [done..|]. by eapply Hs2; apply Ho.
Qed.

Lemma sound_drop n L t s : sound (n :: L) t s → sound L t s.
Proof.
  apply (sound_move (λ h, match h with Local k => Local (S k) | h => h end)); [done| |].
  - by intros [i|c j|k] m.
  - intros [i|c j|k] [i'|c' j'|k'] m _ _; congruence.
Qed.

(** * What the stack does *)

(** Connections stay, and one that comes into a mailbox is new. *)
Definition grows : relation api := λ s s',
  (∀ n, alive s n → alive s' n) ∧
  ∀ c j n, pend s' c j = Some n →
    pend s c j = Some n ∨
    (¬ alive s n ∧ alive s' n ∧ ∀ c' j', pend s' c' j' = Some n → c' = c ∧ j' = j).

#[global] Instance grows_on_conns : OnConns grows.
Proof.
  split; [split|].
  - intros s. split; [done|]. by left.
  - intros s1 s2 s3 [A1 P1] [A2 P2]. split; [by auto|]. intros c j n Hn.
    destruct (P2 c j n Hn) as [Hn2|(N2 & L3 & U3)]; [|right; split; [naive_solver|done]].
    destruct (P1 c j n Hn2) as [Hn1|(N1 & L2 & U2)]; [by left|]. right. split; [done|]. split; [by auto|].
    intros c' j' Hn'. destruct (P2 c' j' n Hn') as [Hn2'|(N2 & _)]; [by apply U2|done].
  - intros s s' E. unfold grows, alive, pend. rewrite E. split; [done|by left].
Qed.

Lemma sound_grows L t s s' : grows s s' → sound L t s → sound L t s'.
Proof.
  intros [HA HP] [Hs1 Hs2].
  assert (∀ h n, owner L t s' h = Some n → owner L t s h = Some n ∨
    (¬ alive s n ∧ alive s' n ∧ ∀ h', owner L t s' h' = Some n → owner L t s h' = Some n ∨ h' = h)) as Hown.
  { intros [i|c j|k] n Hn; [by left| |by left]. destruct (HP c j n Hn) as [|(N & A & U)]; [by left|]. right.
    split; [done|]. split; [done|]. intros [i|c' j'|k'] Hn'; [by left| |by left]. right. by destruct (U _ _ Hn') as [-> ->]. }
  split.
  - intros h n Hh. destruct (Hown h n Hh) as [Hh'|(_ & ? & _)]; [by eapply HA, Hs1|done].
  - intros h h' n Hh Hh'. destruct (Hown h n Hh) as [H1|(N1 & _ & U1)], (Hown h' n Hh') as [H2|(N2 & _ & U2)].
    + by eapply Hs2.
    + destruct N2. by eapply Hs1.
    + destruct N1. by eapply Hs1.
    + destruct (U1 h' Hh') as [H3| ->]; [|done]. destruct N1. by eapply Hs1.
Qed.

Lemma alive_insert (s : api) c k n : alive s n → alive (with_conns (<[c := k]> (conns s)) s) n.
Proof.
  unfold alive. cbn. destruct (decide (n = c)) as [->|]; [by rewrite lookup_insert_eq|by rewrite lookup_insert_ne].
Qed.

Lemma grows_put c f : (∀ k j n, place (f k) j = Some n → place k j = Some n) → keeps grows (put c f : AM unit).
Proof.
  intros Hf s a s'. unfold put. destruct (conns s !! c) as [k|] eqn:E; [|done]. cbn. intros [= <- <-].
  split; [intros n; apply alive_insert|]. intros c' j n. unfold pend. cbn. destruct (decide (c' = c)) as [->|].
  - rewrite lookup_insert_eq, E. cbn. left. by apply Hf.
  - rewrite lookup_insert_ne by done. by left.
Qed.

Lemma grows_new_conn n k (s : api) :
  conns s !! n = None → (∀ j, place k j = None) → grows s (with_conns (<[n := k]> (conns s)) s).
Proof.
  intros En Hk. split; [intros m; apply alive_insert|]. intros c j m. unfold pend. cbn.
  destruct (decide (c = n)) as [->|]; [rewrite lookup_insert_eq; cbn; by rewrite Hk|rewrite lookup_insert_ne by done; by left].
Qed.

(** The mailboxes of listening connections are the same. *)
Definition same_boxes : relation api := λ s s', ∀ c, acceptmbox <$> conns s' !! c = acceptmbox <$> conns s !! c.

#[global] Instance same_boxes_on_conns : OnConns same_boxes.
Proof.
  split; [split|].
  - by intros s c.
  - intros s1 s2 s3 H12 H23 c. by rewrite H23.
  - intros s s' E c. by rewrite E.
Qed.

Lemma same_boxes_put c f : (∀ k, acceptmbox (f k) = acceptmbox k) → keeps same_boxes (put c f : AM unit).
Proof.
  intros Hf s a s'. unfold put. destruct (conns s !! c) as [k|] eqn:E; [|done]. cbn. intros [= <- <-] c'. cbn.
  destruct (decide (c' = c)) as [->|]; [rewrite lookup_insert_eq, E; cbn; by rewrite Hf|by rewrite lookup_insert_ne].
Qed.

Lemma same_boxes_grows s s' : same_boxes s s' → grows s s'.
Proof.
  intros HS. split.
  - intros n [k Hk]. specialize (HS n). rewrite Hk in HS. unfold alive. by destruct (conns s' !! n).
  - intros c j n. unfold pend, place. specialize (HS c).
    destruct (conns s' !! c) as [k'|], (conns s !! c) as [k|]; [|done..]. cbn in *. injection HS as ->. by left.
Qed.
Lemma keeps_grows {A} (m : AM A) : keeps same_boxes m → keeps grows m.
Proof. intros Hm s a s' E. by eapply same_boxes_grows, Hm. Qed.
End owners.

Ltac growing := keeping ltac:(apply grows_put; first [by intros | by intros ? ? ? [=]]).
Ltac boxes_same := keeping ltac:(apply same_boxes_put; done).

Section stack.
Context {T : Type} `{TcpApi T}.
Local Abbreviation api := (@api T).
Local Abbreviation AM := (@AM T).

Lemma same_boxes_answer c : keeps same_boxes (answer c : AM unit).
Proof. unfold answer. boxes_same. Qed.
Lemma same_boxes_signal c : keeps same_boxes (signal c : AM unit).
Proof. unfold signal. boxes_same. Qed.
Lemma grows_answer c : keeps grows (answer c : AM unit).
Proof. apply keeps_grows, same_boxes_answer. Qed.
Lemma grows_signal c : keeps grows (signal c : AM unit).
Proof. apply keeps_grows, same_boxes_signal. Qed.
End stack.
#[export] Hint Resolve same_boxes_answer same_boxes_signal grows_answer grows_signal : api.

Section stack_steps.
Context {T : Type} `{TcpApi T}.
Local Abbreviation api := (@api T).
Local Abbreviation AM := (@AM T).

Lemma grows_input m mem : keeps grows (api_msg_input m mem : AM unit).
Proof.
  unfold api_msg_input, do_newconn, do_delconn, do_bind, bind_pcb, do_connect, connect_pcb, do_listen, do_accept, do_send,
    do_recv, do_write, do_close, tcp_arg, tcp_sent, tcp_recv, tcp_accept, tcp_poll, tcp_err.
  growing.
Qed.

Lemma grows_begin_call k c : keeps grows (begin_call k c : AM begun).
Proof.
  destruct k; cbn [begin_call]; unfold netconn_bind, netconn_connect, netconn_listen, netconn_send, netconn_close,
    netconn_delete, send_request; growing.
Qed.

(** The null pointer in the mailbox of a connection that failed. *)
Lemma grows_null c l (s s' : api) :
  acceptmbox <$> conns s !! c = Some (Some l) → put c (with_acceptmbox (Some (l ++ [None]))) s = Some (tt, s') → grows s s'.
Proof.
  unfold put. destruct (conns s !! c) as [k|] eqn:E; [|done]. cbn. intros [= Hl] [= <-].
  split; [intros n; apply alive_insert|]. intros c' j n. unfold pend. cbn.
  destruct (decide (c' = c)) as [->|]; [|rewrite lookup_insert_ne by done; by left].
  rewrite lookup_insert_eq, E. cbn. unfold place. rewrite Hl. cbn. intros Hn. left.
  destruct (l !! j) eqn:El.
  - by erewrite lookup_app_l_Some in Hn.
  - rewrite lookup_app_r in Hn by by apply lookup_ge_None. by destruct (j - length l)%nat as [|[]].
Qed.

Lemma grows_err_tcp a e : keeps grows (err_tcp a e : AM unit).
Proof.
  destruct a as [[c|c]|]; [|done|done]. intros s [] s' E. rewrite err_tcp_run in E.
  destruct (conns s !! c) as [k|] eqn:Ek; [|done]. set (k1 := with_err e (with_pcb None k)) in E.
  set (s1 := with_conns _ s) in E. assert (same_boxes s s1) as H1.
  { intros c'. unfold s1. cbn. destruct (decide (c' = c)) as [->|]; [by rewrite lookup_insert_eq, Ek|by rewrite lookup_insert_ne]. }
  assert (acceptmbox <$> conns s1 !! c = Some (acceptmbox k1)) as Hc1.
  { unfold s1. cbn. by rewrite lookup_insert_eq. }
  etrans; [by apply same_boxes_grows|]. unfold err_rest in E.
  apply bind_Some in E as ([] & s2 & E2 & E). apply bind_Some in E as ([] & s3 & E3 & E). apply bind_Some in E as ([] & s4 & E4 & E).
  assert (same_boxes s1 s3) as H13.
  { transitivity s2; [revert E2|revert E3].
    - match goal with |- ?m _ = _ → _ => assert (keeps same_boxes m) as Hm by boxes_same end. apply Hm.
    - match goal with |- ?m _ = _ → _ => assert (keeps same_boxes m) as Hm by boxes_same end. apply Hm. }
  transitivity s3; [by apply same_boxes_grows|]. transitivity s4.
  - destruct (acceptmbox k1) as [l|]; [|by injection E4 as <-]. eapply grows_null; [|exact E4]. by rewrite H13.
  - revert E. match goal with |- ?m _ = _ → _ => assert (keeps grows m) as Hm by growing end. apply Hm.
Qed.

(** Only the connection [n] is changed. *)
Definition only (n : Z) : relation api := λ s s', ∀ c, c ≠ n → conns s' !! c = conns s !! c.

#[global] Instance only_on_conns n : OnConns (only n).
Proof.
  split; [split|].
  - by intros s c.
  - intros s1 s2 s3 H12 H23 c Hc. by rewrite H23, H12.
  - intros s s' E c _. by rewrite E.
Qed.

Lemma only_put n f : keeps (only n) (put n f : AM unit).
Proof.
  intros s a s'. unfold put. destruct (conns s !! n); [|done]. cbn. intros [= <- <-] c Hc. cbn. by rewrite lookup_insert_ne.
Qed.

Lemma grows_freed n (s s1 s' : api) r :
  conns s !! n = None → only n s s1 → (free_conn n;; mret ERR_MEM : AM err) s1 = Some (r, s') → grows s s'.
Proof.
  intros En Ho E. injection E as _ <-. apply on_conns. cbn. apply map_eq. intros c.
  destruct (decide (c = n)) as [->|]; [by rewrite lookup_delete_eq|]. rewrite lookup_delete_ne by done. by apply Ho.
Qed.

Definition closed (s : api) : Prop := ∀ c j n, pend s c j = Some n → alive s n.

(** A new connection comes into a mailbox. *)
Lemma grows_new_pending n k2 c k l (s s3 s' : api) :
  closed s → conns s !! n = None → acceptmbox k2 = None → conns s3 = <[n := k2]> (conns s) →
  conns s3 !! c = Some k → acceptmbox k = Some l →
  conns s' = <[c := with_acceptmbox (Some (l ++ [Some n])) k]> (conns s3) → grows s s'.
Proof.
  intros Hcl En Hk2 E3 Ec El E'.
  assert (c ≠ n) as Hcn. { intros ->. rewrite E3, lookup_insert_eq in Ec. injection Ec as <-. congruence. }
  assert (conns s !! c = Some k) as Ec0 by (by rewrite E3, lookup_insert_ne in Ec).
  assert (∀ c' j m, pend s' c' j = Some m → pend s c' j = Some m ∨ m = n ∧ c' = c ∧ j = length l) as HP.
  { intros c' j m. unfold pend. rewrite E'. destruct (decide (c' = c)) as [->|].
    - rewrite lookup_insert_eq, Ec0. cbn. unfold place. rewrite El. cbn. destruct (decide (j < length l)%nat).
      + rewrite lookup_app_l by done. by left.
      + rewrite lookup_app_r by lia. destruct (j - length l)%nat eqn:Ej; [|done]. intros [= <-]. right. split; [done|]. lia.
    - rewrite lookup_insert_ne, E3 by done. destruct (decide (c' = n)) as [->|]; [|rewrite lookup_insert_ne by done; by left].
      rewrite lookup_insert_eq. cbn. unfold place. by rewrite Hk2. }
  assert (∀ m, alive s m ∨ m = n → alive s' m) as HA.
  { intros m Hm. unfold alive. rewrite E', E3. destruct (decide (m = c)) as [->|]; [by rewrite lookup_insert_eq|].
    rewrite lookup_insert_ne by done. destruct (decide (m = n)) as [->|]; [by rewrite lookup_insert_eq|].
    rewrite lookup_insert_ne by done. by destruct Hm. }
  assert (¬ alive s n) as Hn by (intros [? ?]; congruence).
  split; [by auto|]. intros c' j m Hm. destruct (HP _ _ _ Hm) as [|(-> & -> & ->)]; [by left|]. right. split; [done|].
  split; [by auto|]. intros c' j' Hm'. destruct (HP _ _ _ Hm') as [Hold|(_ & -> & ->)]; [|done]. destruct Hn. by eapply Hcl.
Qed.

(** The end of [accept_function]. *)
Lemma grows_posted n e arg (s s1 s' : api) r :
  closed s → conns s !! n = None → only n s s1 →
  (put n (with_acceptmbox None);; put n (with_err e);;
   match arg with
   | Some (ArgAcceptmbox c) =>
       k ← get c;
       match acceptmbox k with Some l => put c (with_acceptmbox (Some (l ++ [Some n])));; mret ERR_OK | None => null end
   | _ => null
   end : AM err) s1 = Some (r, s') → grows s s'.
Proof.
  intros Hcl En Ho E. apply bind_Some in E as ([] & s2 & E2 & E). apply bind_Some in E as ([] & s3 & E3 & E).
  unfold put in E2. destruct (conns s1 !! n) as [k1|] eqn:E1; [|done]. injection E2 as <-.
  unfold put in E3. cbn in E3. rewrite lookup_insert_eq in E3. injection E3 as <-. rewrite insert_insert_eq in E. cbn in E.
  set (k2 := with_err e (with_acceptmbox None k1)) in E. set (s3 := with_conns _ _) in E.
  assert (conns s3 = <[n := k2]> (conns s)) as EC.
  { unfold s3. cbn. apply map_eq. intros c. destruct (decide (c = n)) as [->|]; [by rewrite !lookup_insert_eq|].
    rewrite !lookup_insert_ne by done. by apply Ho. }
  destruct arg as [[c|c]|]; [done| |done]. apply bind_Some in E as (k & s4 & E4 & E). unfold get in E4.
  destruct (conns s3 !! c) as [k'|] eqn:Ec; [|done]. injection E4 as <- <-. destruct (acceptmbox k') as [l|] eqn:El; [|done].
  apply bind_Some in E as ([] & s5 & E5 & E). injection E as <- <-. unfold put in E5. rewrite Ec in E5. injection E5 as <-.
  by eapply (grows_new_pending n k2 c k' l s s3).
Qed.

Lemma grows_accept_function a newpcb e n k0 (s s' : api) r :
  closed s → unused s n = true → accept_function a newpcb e n k0 s = Some (r, s') → grows s s'.
Proof.
  intros Hcl Hn E. destruct n as [n|]; [|by injection E as <- <-]. apply bool_decide_eq_true in Hn.
  unfold accept_function in E. cbv zeta in E. apply bind_Some in E as ([] & s1 & E1 & E). injection E1 as <-.
  match type of E with _ ?s1 = _ => assert (only n s s1) as H1 end.
  { intros c Hc. cbn. by rewrite lookup_insert_ne. }
  revert H1 E. set (s1 := with_conns _ s). clearbody s1. intros H1 E.
  assert (∀ {A} (m : AM A) sx a sy, keeps (only n) m → m sx = Some (a, sy) → only n s sx → only n s sy) as Hstep.
  { intros A m sx a' sy Hm Em Hx. transitivity sx; [done|]. by eapply Hm. }
  apply bind_Some in E as ([] & s2 & E2 & E). apply Hstep in E2; [|apply keeps_setup_tcp; apply _|done].
  apply bind_Some in E as (b1 & s3 & E3 & E). apply Hstep in E3; [|apply keeps_alloc; apply _|done].
  destruct b1; cbn [negb] in E; [|by eapply grows_freed].
  apply bind_Some in E as ([] & s4 & E4 & E). apply Hstep in E4; [|apply only_put|done].
  apply bind_Some in E as (b2 & s5 & E5 & E). apply Hstep in E5; [|apply keeps_alloc; apply _|done].
  destruct b2; cbn [negb] in E; [|by eapply grows_freed].
  apply bind_Some in E as ([] & s6 & E6 & E). apply Hstep in E6; [|apply only_put|done].
  apply bind_Some in E as (b3 & s7 & E7 & E). apply Hstep in E7; [|apply keeps_alloc; apply _|done].
  destruct b3; cbn [negb] in E; [|by eapply grows_freed].
  apply bind_Some in E as ([] & s8 & E8 & E). apply Hstep in E8; [|apply only_put|done].
  by eapply grows_posted.
Qed.

Lemma grows_run_event ev (s s' : api) :
  closed s → unused s (given (Happens ev)) = true → run_event ev s = Some (tt, s') → grows s s'.
Proof.
  intros Hcl Hn E. destruct ev; cbn [run_event] in E.
  5: { apply bind_Some in E as (h & s1 & E1 & E). unfold get_hook in E1. destruct (hooks s !! p); [|done]. injection E1 as <- <-.
       apply bind_Some in E as ([] & s2 & E2 & E). injection E2 as <-. destruct (h_accept h0); [|injection E as <-; by apply on_conns].
       apply bind_Some in E as (r & s3 & E3 & E). injection E as <-.
       assert (∀ s1 : api, conns s1 = conns s → grows s s1) as Hcs by (intros; by apply on_conns).
       transitivity (with_hooks (<[newpcb := no_hook]> (hooks s)) s); [by apply Hcs|].
       by eapply grows_accept_function. }
  all: revert E; match goal with |- ?m _ = _ → _ => assert (keeps grows m) as Hm end; [|by apply Hm];
    unfold recv_tcp, sent_tcp, poll_tcp, do_connected, recv_udp; growing; apply grows_err_tcp.
Qed.

Lemma grows_run_step st (s s' : api) :
  closed s → unused s (given st) = true → run_step st s = Some (tt, s') → grows s s'.
Proof.
  intros Hcl Hn E. destruct st as [mem|ev]; [|by eapply grows_run_event]. unfold run_step, transport_thread in E.
  destruct (queue s) as [|m q]; [by injection E as <-|]. transitivity (with_queue q s); [by apply on_conns|].
  by eapply grows_input.
Qed.
End stack_steps.

(** * Calls *)

Section socket_calls.
Context {T : Type} `{TcpApi T} `{TcpPeer T}.
Local Abbreviation api := (@api T).
Local Abbreviation AM := (@AM T).
Local Abbreviation SM := (@SM T).

Lemma sound_closed L t (s : api) : sound L t s → closed s.
Proof. intros Hs c j n Hn. by apply (sound_alive L t s Hs (Box c j)). Qed.

Lemma sm_bind_Done {A B} (m : SM A) (f : A → SM B) s b s' :
  (m ≫= f) s = Done b s' → ∃ a s1, m s = Done a s1 ∧ f a s1 = Done b s'.
Proof. unfold mbind, sm_bind. destruct (m s) as [a s1| |]; [by exists a, s1|done|done]. Qed.

(** The call has the connections [L] in its variables at the beginning and [L' a]
    at the end, and does not change the table. *)
Definition moves {A} (L : list Z) (L' : A → list Z) (m : SM A) : Prop := ∀ t s a s',
  m s = Done a s' → sound L t (net s) → sound (L' a) t (net s') ∧ table s' = table s.

Lemma moves_ret {A} L (L' : A → list Z) a : L' a = L → moves L L' (mret a).
Proof. intros HL t s a' s' [= <- <-]. by rewrite HL. Qed.
Lemma moves_blocked {A} L (L' : A → list Z) : moves L L' blocked.
Proof. by intros t s a s' [=]. Qed.
Lemma moves_crashed {A} L (L' : A → list Z) : moves L L' crashed.
Proof. by intros t s a s' [=]. Qed.
Lemma moves_bind {A B} L M N (m : SM A) (f : A → SM B) :
  moves L M m → (∀ a, moves (M a) N (f a)) → moves L N (m ≫= f).
Proof.
  intros Hm Hf t s b s' (a & s1 & E1 & E2)%sm_bind_Done Hs. destruct (Hm _ _ _ _ E1 Hs) as [H1 T1].
  destruct (Hf _ _ _ _ _ E2 H1) as [H2 T2]. split; [done|]. by rewrite T2.
Qed.

Lemma moves_lift {A} L (m : AM A) : keeps grows m → moves L (λ _, L) (lift m).
Proof.
  intros Hm t s a s'. unfold lift. destruct (m (net s)) as [[a1 n]|] eqn:E; [|done]. intros [= <- <-] Hs. split; [|done].
  by eapply sound_grows, Hs; eapply Hm.
Qed.

Lemma moves_run_steps L l : moves L (λ _, L) (run_steps l).
Proof.
  induction l as [|st l IH]; [by apply moves_ret|]. intros t s a s' E Hs. cbn [run_steps] in E.
  destruct (unused (net s) (given st)) eqn:Hu; [|done]. apply sm_bind_Done in E as ([] & s1 & E1 & E2). unfold lift in E1.
  destruct (run_step st (net s)) as [[[] n]|] eqn:Er; [|done]. injection E1 as <-.
  assert (sound L t n) as Hn by (eapply sound_grows, Hs; eapply grows_run_step; [by eapply sound_closed|done|done]).
  by apply (IH t _ _ _ E2).
Qed.

Lemma moves_wait L : moves L (λ _, L) wait.
Proof.
  intros t s a s' E Hs. unfold wait in E. destruct (waits s) as [|l ws]; [done|]. by apply (moves_run_steps _ _ _ _ _ _ E).
Qed.

Lemma moves_after_answer {A} L c (m : AM A) : keeps grows m → moves L (λ _, L) (after_answer c m).
Proof.
  intros Hm. eapply moves_bind; [apply moves_wait|]. intros [] t s a s' E. unfold with_answer in E.
  destruct (answers (net s) c); [done|]. by apply (moves_lift L m Hm t s a s').
Qed.

(** ** Connections change hands *)

Lemma sound_fetch c k l n L t (s : api) :
  conns s !! c = Some k → acceptmbox k = Some (n :: l) → sound L t s →
  sound (option_list n ++ L) t (with_conns (<[c := with_acceptmbox (Some l) k]> (conns s)) s).
Proof.
  intros Ek El Hs. set (s' := with_conns _ s).
  assert (∀ c' j m, pend s' c' j = Some m → pend s c' (if decide (c' = c) then S j else j) = Some m) as HP.
  { intros c' j m. unfold pend, s'. cbn. destruct (decide (c' = c)) as [->|]; [|by rewrite lookup_insert_ne].
    rewrite lookup_insert_eq, Ek. cbn. unfold place. rewrite El. done. }
  assert (∀ m, n = Some m → pend s c 0 = Some m) as Hhead.
  { intros m ->. unfold pend. rewrite Ek. cbn. unfold place. by rewrite El. }
  assert (sound L t s') as Hs'.
  { revert Hs. apply (sound_move (λ h, match h with Box c' j => Box c' (if decide (c' = c) then S j else j) | h => h end));
      [intros m; apply alive_insert| |].
    - intros [i|c' j|k'] m; [done|apply HP|done].
    - intros [i|c1 j1|k1] [i'|c2 j2|k2] m _ _; try congruence. intros [= -> Hj]. destruct (decide (c2 = c)); congruence. }
  destruct n as [n|]; [|done]. cbn. revert Hs.
  apply (sound_move (λ h, match h with
    | Box c' j => Box c' (if decide (c' = c) then S j else j) | Local O => Box c 0 | Local (S k) => Local k | h => h end));
    [intros m; apply alive_insert| |].
  - intros [i|c' j|[|k']] m; [done|apply HP| |done]. intros [= <-]. by apply Hhead.
  - intros [i|c1 j1|[|k1]] [i'|c2 j2|[|k2]] m _ _; try congruence.
    + intros [= -> Hj]. destruct (decide (c2 = c)); congruence.
    + intros [= -> Hj]. rewrite decide_True in Hj by done. done.
    + intros [= <- Hj]. rewrite decide_True in Hj by done. done.
Qed.

Lemma moves_fetch_accepted L c : moves L (λ n, option_list n ++ L) (lift (fetch_accepted c)).
Proof.
  intros t s n s'. unfold lift. destruct (fetch_accepted c (net s)) as [[n1 a1]|] eqn:E; [|done]. intros [= <- <-] Hs.
  split; [|done]. cbn. unfold fetch_accepted in E. apply bind_Some in E as (k & a2 & E2 & E). unfold get in E2.
  destruct (conns (net s) !! c) as [k'|] eqn:Ek; [|done]. injection E2 as <- <-.
  destruct (acceptmbox k') as [[|n l]|] eqn:El; [done| |done]. apply bind_Some in E as ([] & a3 & E3 & E).
  injection E as <- <-. unfold put in E3. rewrite Ek in E3. injection E3 as <-. by apply (sound_fetch c k' l).
Qed.

Lemma sound_free c L t (s : api) : sound (c :: L) t s → sound L t (with_conns (delete c (conns s)) s).
Proof.
  intros Hs. set (s' := with_conns _ s).
  assert (∀ h m, owner L t s' h = Some m → owner (c :: L) t s (match h with Local k => Local (S k) | h => h end) = Some m) as HO.
  { intros [i|c' j|k] m; [done| |done]. cbn. unfold pend, s'. cbn. destruct (decide (c' = c)) as [->|].
    - by rewrite lookup_delete_eq.
    - by rewrite lookup_delete_ne. }
  split.
  - intros h m Hh. pose proof (HO h m Hh) as Hh'. destruct (decide (m = c)) as [->|].
    + pose proof (sound_once _ _ _ Hs _ (Local 0) _ Hh' eq_refl). by destruct h.
    + unfold alive, s'. cbn. rewrite lookup_delete_ne by done. by apply (sound_alive _ _ _ Hs _ _ Hh').
  - intros h h' m Hh Hh'. pose proof (sound_once _ _ _ Hs _ _ _ (HO h m Hh) (HO h' m Hh')) as E.
    destruct h, h'; congruence.
Qed.

Lemma moves_delete_done L c : moves (c :: L) (λ _, L) (lift (delete_done c)).
Proof.
  intros t s a s'. unfold lift. destruct (delete_done c (net s)) as [[[] n]|] eqn:E; [|done]. intros [= <- <-] Hs.
  split; [|done]. cbn. unfold delete_done in E. apply bind_Some in E as (k & s1 & E1 & E). unfold get in E1.
  destruct (conns (net s) !! c) as [k'|]; [|done]. injection E1 as <- <-.
  destruct (acceptmbox k') as [[|]|]; [|done|]; injection E as <-; by apply sound_free.
Qed.

Lemma grows_call_end c : keeps grows (call_end c : AM err).
Proof. unfold call_end, fetch_answer. growing. Qed.
Lemma grows_delete_end c : keeps grows (delete_end c : AM unit).
Proof. unfold delete_end, fetch_answer. growing. Qed.
Lemma moves_pending L c : moves L (λ _, L) (pending c).
Proof. apply moves_lift. growing. Qed.

Lemma moves_delete fuel :
  (∀ L c, moves (c :: L) (λ _, L) (delete_conn fuel c)) ∧ (∀ L c, moves L (λ _, L) (drain fuel c)).
Proof.
  induction fuel as [|fuel [IHdel IHdrain]]; [split; intros; apply moves_blocked|]. split; intros L c; cbn [delete_conn drain].
  - eapply moves_bind; [apply moves_lift, (grows_begin_call CallDelete)|]. cbv beta. intros [e| |].
    1: { intros t s a s' [= <- <-] Hs. split; [by eapply sound_drop|done]. }
    all: eapply moves_bind; [apply moves_after_answer, grows_delete_end|]; intros ?;
      eapply moves_bind; [apply IHdrain|]; intros ?;
      eapply moves_bind; [apply moves_delete_done|]; intros ?; by apply moves_ret.
  - eapply moves_bind; [apply moves_pending|]. cbv beta. intros [[|x l]|]; [by apply moves_ret| |by apply moves_ret].
    eapply moves_bind; [apply moves_fetch_accepted|]. cbv beta. intros [n|]; cbn.
    + eapply moves_bind; [apply IHdel|]. intros ?. apply IHdrain.
    + eapply moves_bind; [by apply (moves_ret L (λ _, L))|]. intros ?. apply IHdrain.
Qed.

Lemma moves_whole_call L c k : moves L (λ _, L) (whole_call c (begin_call k c)).
Proof.
  eapply moves_bind; [apply moves_lift, grows_begin_call|]. cbv beta.
  intros [e| |]; [by apply moves_ret|apply moves_after_answer, grows_call_end..].
Qed.

(** ** The table *)

Lemma free_socket_free l i j :
  free_socket l i = Some j → ∃ k sock, j = i + Z.of_nat k ∧ l !! k = Some sock ∧ conn sock = None.
Proof.
  revert i. induction l as [|sock l IH]; intros i; [done|]. cbn [free_socket]. destruct (conn sock) eqn:Ec.
  - intros (k & sock' & -> & Hk & Hc)%IH. exists (S k), sock'. split; [lia|done].
  - intros [= <-]. exists 0%nat, sock. split; [lia|done].
Qed.

Lemma sound_slot i sock c L t (s : api) :
  t !! i = Some sock → conn sock = None → sound (c :: L) t s → sound L (<[i := Socket (Some c) None 0]> t) s.
Proof.
  intros Hi Hc. apply (sound_move (λ h, match h with
    | Slot j => if decide (j = i) then Local 0 else Slot j | Local k => Local (S k) | h => h end)); [done| |].
  - intros [j|c' j|k] m; [|done|done]. cbn. destruct (decide (j = i)) as [->|].
    + rewrite list_lookup_insert_eq by by eapply lookup_lt_Some. done.
    + by rewrite list_lookup_insert_ne.
  - intros [j|c1 j1|k1] [j'|c2 j2|k2] m _ _; repeat case_decide; congruence.
Qed.

Lemma sound_unslot i sock c L t (s : api) :
  t !! i = Some sock → conn sock = Some c → sound L t s → sound (c :: L) (<[i := Socket None None 0]> t) s.
Proof.
  intros Hi Hc. apply (sound_move (λ h, match h with
    | Local O => Slot i | Local (S k) => Local k | h => h end)); [done| |].
  - intros [j|c' j|[|k]] m; [|done| |done]; cbn.
    + destruct (decide (j = i)) as [->|]; [|by rewrite list_lookup_insert_ne].
      by rewrite list_lookup_insert_eq by by eapply lookup_lt_Some.
    + intros [= <-]. by rewrite Hi.
  - intros [j|c1 j1|[|k1]] [j'|c2 j2|[|k2]] m Hm Hm'; try congruence; cbn in Hm, Hm'; intros [= ->];
      by rewrite list_lookup_insert_eq in Hm || rewrite list_lookup_insert_eq in Hm'; [|by eapply lookup_lt_Some].
Qed.

Lemma sound_new n k L t (s : api) :
  sound L t s → conns s !! n = None → acceptmbox k = None → sound (n :: L) t (with_conns (<[n := k]> (conns s)) s).
Proof.
  intros Hs En Hk. set (s' := with_conns _ s).
  assert (sound L t s') as Hs' by (eapply sound_grows, Hs; apply grows_new_conn; [done|]; intros j; unfold place; by rewrite Hk).
  assert (∀ h m, owner (n :: L) t s' h = Some m → h = Local 0 ∧ m = n ∨
    ∃ h', h = (match h' with Local k => Local (S k) | h => h end) ∧ owner L t s' h' = Some m ∧ m ≠ n) as HO.
  { assert (∀ h' m, owner L t s' h' = Some m → m ≠ n) as Hne.
    { intros h' m Hm ->. destruct (sound_alive L t s Hs h' n) as [k' Hk']; [|congruence].
      destruct h' as [i|c j|j]; [done| |done]. revert Hm. cbn. unfold pend, s'. cbn.
      destruct (decide (c = n)) as [->|]; [|by rewrite lookup_insert_ne].
      rewrite lookup_insert_eq. cbn. unfold place. by rewrite Hk. }
    intros [i|c j|[|j]] m Hm; [| |left; by injection Hm as <-|].
    - right. exists (Slot i). split; [done|]. split; [exact Hm|by apply (Hne (Slot i))].
    - right. exists (Box c j). split; [done|]. split; [exact Hm|by apply (Hne (Box c j))].
    - right. exists (Local j). split; [done|]. split; [exact Hm|by apply (Hne (Local j))]. }
  split.
  - intros h m [[-> ->]|(h' & -> & Hm & _)]%HO; [|by eapply sound_alive]. unfold alive, s'. cbn. by rewrite lookup_insert_eq.
  - intros h1 h2 m H1 H2. apply HO in H1, H2. destruct H1 as [[-> ->]|(h1' & -> & H1 & N1)], H2 as [[-> E]|(h2' & -> & H2 & N2)];
      [done|done|done|]. by rewrite (sound_once _ _ _ Hs' _ _ _ H1 H2).
Qed.

(** ** The calls of the application *)

Definition safe {A} (m : SM A) : Prop := ∀ s a s', m s = Done a s' → sound [] (table s) (net s) → sound [] (table s') (net s').

Lemma safe_moves {A} (m : SM A) : moves [] (λ _, []) m → safe m.
Proof. intros Hm s a s' E Hs. destruct (Hm _ _ _ _ E Hs) as [? ->]. done. Qed.

Lemma safe_bind {A B} (m : SM A) (f : A → SM B) : safe m → (∀ a, safe (f a)) → safe (m ≫= f).
Proof. intros Hm Hf s b s' (a & s1 & E1 & E2)%sm_bind_Done Hs. eapply Hf, Hm; done. Qed.

Lemma keep_conn_sound fuel c s i s' :
  keep_conn fuel c s = Done i s' → sound [c] (table s) (net s) → sound [] (table s') (net s').
Proof.
  intros E Hs. unfold keep_conn in E. apply sm_bind_Done in E as (j & s1 & E1 & E). unfold new_socket in E1.
  destruct (free_socket (table s) 0) as [k|] eqn:Ef; injection E1 as <- <-.
  - apply free_socket_free in Ef as (n & sock & -> & Hn & Hc). rewrite Z.add_0_l in E.
    destruct (Z.eqb_spec (Z.of_nat n) (-1)) as [|_]; [lia|]. injection E as <- <-. cbn. rewrite Nat2Z.id. by eapply sound_slot.
  - cbn in E. apply sm_bind_Done in E as ([] & s2 & E2 & E). injection E as <- <-. apply sm_bind_Done in E2 as (e & s3 & E3 & E).
    injection E as <-. destruct (proj1 (moves_delete fuel) [] c _ _ _ _ E3 Hs) as [? ->]. done.
Qed.

Lemma socket_conn_run i (s s' : @env T) c :
  socket_conn i s = Done c s' →
  s' = s ∧ match c with Some c => ∃ sock, table s !! Z.to_nat i = Some sock ∧ conn sock = Some c | None => True end.
Proof.
  unfold socket_conn. destruct (_ <? i); [by intros [= <- <-]|]. destruct (i <? 0); [done|].
  destruct (table s !! Z.to_nat i) as [sock|] eqn:Et; [|done]. intros [= <- <-]. split; [done|].
  destruct (conn sock) eqn:Ec; [by exists sock|done].
Qed.

Lemma safe_socket_call i k m : (∀ c, m c = begin_call k c) → safe (socket_call i m).
Proof.
  intros Hm s a s' E Hs. unfold socket_call in E. apply sm_bind_Done in E as (c & s1 & E1 & E).
  apply socket_conn_run in E1 as [-> _]. destruct c as [c|]; [|by injection E as <- <-]. rewrite Hm in E.
  apply sm_bind_Done in E as (e & s2 & E2 & E). injection E as <- <-. by eapply (safe_moves _ (moves_whole_call [] c k)).
Qed.

Lemma safe_close fuel i : safe (lwip_close fuel i).
Proof.
  intros s a s' E Hs. unfold lwip_close in E. apply sm_bind_Done in E as (c & s1 & E1 & E).
  apply socket_conn_run in E1 as [-> Hc]. destruct c as [c|]; [|by injection E as <- <-]. destruct Hc as (sock & Ht & Hc).
  apply sm_bind_Done in E as (e & s2 & E2 & E). apply sm_bind_Done in E as ([] & s3 & E3 & E). injection E as <- <-.
  injection E3 as <-. cbn.
  destruct (proj1 (moves_delete fuel) [] c (<[Z.to_nat i := Socket None None 0]> (table s)) _ _ _ E2) as [Hs' ->]; [|done].
  by eapply sound_unslot.
Qed.

Lemma safe_socket fuel type e0 : safe (lwip_socket_call fuel type e0).
Proof.
  intros s a s' E Hs. unfold lwip_socket_call in E. apply sm_bind_Done in E as (c & s1 & E1 & E).
  assert (sound (option_list c) (table s1) (net s1)) as H1; [|destruct c as [c|]; [by eapply keep_conn_sound|by injection E as <- <-]].
  clear E. assert (∀ t, (n ← next_conn; lift (netconn_new t n e0)) s = Done c s1 → sound (option_list c) (table s1) (net s1)) as Hmake.
  { intros t E. apply sm_bind_Done in E as (n & s2 & E2 & E). unfold next_conn in E2. destruct (fresh s) as [|n0 l]; [done|].
    destruct (unused (net s) n0) eqn:Hu; [|done]. injection E2 as <- <-. unfold lift in E. cbn in E.
    destruct n0 as [n|]; [|injection E as <- <-; done]. cbn in E. apply bool_decide_eq_true in Hu. unfold mbind at 1, am_bind at 1 in E.
    destruct (alloc (net s)) as [[b a1]|] eqn:Ea; [|done].
    assert (conns a1 = conns (net s)) as Ec by (revert Ea; unfold alloc; by destruct (allocs (net s)); intros [= <- <-]).
    assert (sound [] (table s) a1) as Ha by (eapply sound_grows, Hs; by apply on_conns).
    destruct b; cbn in E; injection E as <- <-; [|done]. cbn. apply sound_new; [done|by rewrite Ec|done]. }
  destruct (type =? SOCK_DGRAM); [by eapply Hmake|]. destruct (type =? SOCK_STREAM); [by eapply Hmake|by injection E1 as <- <-].
Qed.

Lemma moves_accept_conn c : moves [] (λ n, option_list n) (accept_conn c).
Proof.
  eapply moves_bind; [apply moves_pending|]. cbv beta. intros l. eapply (moves_bind _ (λ _, [])).
  { destruct l as [[|]|]; [apply moves_wait|by apply moves_ret|apply moves_wait]. }
  intros _. eapply moves_bind; [apply moves_pending|]. cbv beta. intros [[|]|]; [apply moves_blocked| |apply moves_crashed].
  pose proof (moves_fetch_accepted [] c) as Hf. intros t s n s' E Hs. destruct (Hf _ _ _ _ E Hs) as [Hn ?].
  by rewrite app_nil_r in Hn.
Qed.

Lemma grows_netconn_peer c : keeps grows (netconn_peer c : AM (Z * Z)).
Proof. unfold netconn_peer. growing. Qed.

Lemma safe_accept fuel i : safe (lwip_accept fuel i).
Proof.
  intros s a s' E Hs. unfold lwip_accept in E. apply sm_bind_Done in E as (c & s1 & E1 & E).
  apply socket_conn_run in E1 as [-> _]. destruct c as [c|]; [|by injection E as <- <-].
  apply sm_bind_Done in E as (n & s2 & E2 & E). destruct (moves_accept_conn c _ _ _ _ E2 Hs) as [Hs2 T2].
  destruct n as [n|]; [|done]. apply sm_bind_Done in E as (pr & s3 & E3 & E).
  destruct (moves_lift [n] _ (grows_netconn_peer n) _ _ _ _ E3 Hs2) as [Hs3 T3].
  apply sm_bind_Done in E as (j & s4 & E4 & E). injection E as <- <-. eapply keep_conn_sound; [exact E4|]. by rewrite T3, T2.
Qed.
End socket_calls.

(** What the application does, and the stack while it does nothing. *)
Inductive socket_op :=
  | OpSocket (type : Z) (e0 : err)
  | OpBind (i addr port : Z)
  | OpConnect (i addr port : Z)
  | OpListen (i : Z)
  | OpAccept (i : Z)
  | OpClose (i : Z)
  | OpIdle.

Section runs.
Context {T : Type} `{TcpApi T} `{TcpPeer T}.
Local Abbreviation api := (@api T).
Local Abbreviation AM := (@AM T).
Local Abbreviation SM := (@SM T).
Local Abbreviation env := (@env T).

Definition run_op (fuel : nat) (o : socket_op) : SM unit :=
  match o with
  | OpSocket type e0 => lwip_socket_call fuel type e0;; mret tt
  | OpBind i addr port => lwip_bind i addr port;; mret tt
  | OpConnect i addr port => lwip_connect i addr port;; mret tt
  | OpListen i => lwip_listen i;; mret tt
  | OpAccept i => lwip_accept fuel i;; mret tt
  | OpClose i => lwip_close fuel i;; mret tt
  | OpIdle => wait
  end.

Fixpoint run_ops (fuel : nat) (l : list socket_op) : SM unit :=
  match l with [] => mret tt | o :: l => run_op fuel o;; run_ops fuel l end.

Lemma safe_ret {A} (a : A) : safe (mret a : SM A).
Proof. by intros s a' s' [= <- <-]. Qed.

Lemma safe_op fuel o : safe (run_op fuel o).
Proof.
  destruct o; cbn [run_op]; try (apply safe_bind; [|intros; apply safe_ret]).
  - apply safe_socket.
  - by apply (safe_socket_call i (CallBind (Some addr) (ntohs port))).
  - by apply (safe_socket_call i (CallConnect (Some addr) (ntohs port))).
  - by apply (safe_socket_call i CallListen).
  - apply safe_accept.
  - apply safe_close.
  - apply safe_moves, moves_wait.
Qed.

Lemma safe_ops fuel l : safe (run_ops fuel l).
Proof. induction l as [|o l IH]; [apply safe_ret|]. apply safe_bind; [apply safe_op|by intros]. Qed.

(** No connection and no descriptor. *)
Definition fresh_start (s : env) : Prop :=
  conns (net s) = ∅ ∧ ∀ i sock, table s !! i = Some sock → conn sock = None.

Lemma sound_start (s : env) : fresh_start s → sound [] (table s) (net s).
Proof.
  intros [HC HT]. assert (∀ h n, owner [] (table s) (net s) h ≠ Some n) as Hn.
  { intros [i|c j|k] n; cbn; [|unfold pend; by rewrite HC, lookup_empty|done].
    destruct (table s !! i) as [sock|] eqn:E; [|done]. cbn. by rewrite (HT _ _ E). }
  split; [by intros h n ?%Hn|by intros h h' n ?%Hn].
Qed.

(** C28: whatever sockets an application makes, binds, connects, listens on,
    accepts and closes, and whatever the stack does whenever it waits, every
    descriptor refers to a connection that exists, and no two descriptors refer to
    the same connection. *)
Theorem descriptors_stay_valid (s s' : env) fuel (l : list socket_op) :
  fresh_start s → run_ops fuel l s = Done tt s' →
  (∀ i sock c, table s' !! i = Some sock → conn sock = Some c → is_Some (conns (net s') !! c)) ∧
  (∀ i j sock sock' c, table s' !! i = Some sock → table s' !! j = Some sock' →
     conn sock = Some c → conn sock' = Some c → i = j).
Proof.
  intros Hst E. pose proof (safe_ops fuel l s tt s' E (sound_start s Hst)) as Hs. split.
  - intros i sock c Hi Hc. apply (sound_alive _ _ _ Hs (Slot i)). cbn. by rewrite Hi.
  - intros i j sock sock' c Hi Hj Hc Hc'.
    assert (Slot i = Slot j) as [= ->]; [|done]. apply (sound_once _ _ _ Hs _ _ c); cbn; [by rewrite Hi|by rewrite Hj].
Qed.

(** ** A connection that is reset before it is accepted *)

Definition no_pcb (n : Z) : relation api := λ s s',
  (∃ k, conns s !! n = Some k ∧ pcb k = None) → ∃ k, conns s' !! n = Some k ∧ pcb k = None.

#[global] Instance no_pcb_on_conns n : OnConns (no_pcb n).
Proof.
  split; [split|].
  - by intros s Hk.
  - intros s1 s2 s3 H12 H23 Hk. by apply H23, H12.
  - intros s s' E Hk. by rewrite E.
Qed.

Lemma no_pcb_put n c f : (∀ k, pcb (f k) = pcb k) → keeps (no_pcb n) (put c f : AM unit).
Proof.
  intros Hf s a s'. unfold put. destruct (conns s !! c) as [k|] eqn:E; [|done]. cbn. intros [= <- <-] (k' & Hk & Hp). cbn.
  destruct (decide (n = c)) as [->|]; [|rewrite lookup_insert_ne by done; by exists k'].
  rewrite lookup_insert_eq. exists (f k). rewrite Hf. split; [done|]. congruence.
Qed.

Lemma err_tcp_no_pcb n e (s s' : api) :
  err_tcp (Some (ArgConn n)) e s = Some (tt, s') → only n s s' ∧ ∃ k, conns s' !! n = Some k ∧ pcb k = None.
Proof.
  rewrite err_tcp_run. destruct (conns s !! n) as [k|] eqn:Ek; [|done]. set (s1 := with_conns _ s). intros E. split.
  - transitivity s1; [intros c Hc; unfold s1; cbn; by rewrite lookup_insert_ne|]. revert E.
    match goal with |- ?m _ = _ → _ => assert (keeps (only n) m) as Hm end; [|apply Hm].
    unfold err_rest, answer, signal. keeping ltac:(apply only_put).
  - revert E. match goal with |- ?m _ = _ → _ => assert (keeps (no_pcb n) m) as Hm end.
    { unfold err_rest, answer, signal. keeping ltac:(apply no_pcb_put; done). }
    intros E. apply (Hm _ _ _ E). eexists. unfold s1. cbn. by rewrite lookup_insert_eq.
Qed.

(** C39: a connection that waits to be accepted and is reset by its peer stays in
    the mailbox, without a block; the accept that takes it reads the peer's port
    from that block and the router crashes. *)
Theorem accept_after_reset_crashes (s : env) (s1 : api) fuel i sock c k n l p h e :
  0 ≤ i < NUM_SOCKETS → table s !! Z.to_nat i = Some sock → conn sock = Some c →
  conns (net s) !! c = Some k → acceptmbox k = Some (Some n :: l) → c ≠ n →
  hooks (net s) !! p = Some h → h_err h = true → h_arg h = Some (ArgConn n) →
  run_event (EvErr p e) (net s) = Some (tt, s1) →
  lwip_accept fuel i (with_net s1 s) = Crashed.
Proof.
  intros Hi Ht Hc Hk Hl Hne Hh Herr Harg E. cbn [run_event] in E. apply bind_Some in E as (h' & s2 & E2 & E).
  unfold get_hook in E2. rewrite Hh in E2. injection E2 as <- <-. rewrite Herr, Harg in E.
  apply bind_Some in E as ([] & s3 & E3 & Ed). injection Ed as <-. apply bind_Some in E3 as ([] & s4 & E4 & E3).
  assert (conns s4 = conns (net s)) as E4'.
  { unfold not_connecting in E4. destruct (has_mbox (net s) n); by injection E4 as <-. }
  destruct (err_tcp_no_pcb _ _ _ _ E3) as [Ho (kn & Hkn & Hpn)].
  assert (conns s3 !! c = Some k) as Hk3 by (by rewrite Ho, E4').
  unfold lwip_accept, mbind at 1, sm_bind at 1, socket_conn.
  destruct (Z.ltb_spec NUM_SOCKETS i) as [|_]; [lia|]. destruct (Z.ltb_spec i 0) as [|_]; [lia|].
  change (table (with_net _ s)) with (table s). rewrite Ht, Hc.
  set (w := with_net _ s). assert (accept_conn c w = Done (Some n)
    (with_net (with_conns (<[c := with_acceptmbox (Some l) k]> (conns s3)) (net w)) w)) as Ea.
  { unfold accept_conn, pending, lift, netconn_accept, fetch_accepted, get, put, mbind, sm_bind, am_bind, option_bind, w. cbn.
    rewrite Hk3. cbn. rewrite Hl. cbn. rewrite Hk3. cbn. rewrite Hl. cbn. rewrite Hk3. cbn. rewrite Hl. cbn. by rewrite Hk3. }
  unfold mbind at 1, sm_bind at 1. rewrite Ea. unfold mbind at 1, sm_bind at 1, lift at 1, netconn_peer, w.
  unfold mbind at 1, am_bind at 1, get at 1. cbn. rewrite lookup_insert_ne by done. rewrite Hkn. cbn. by rewrite Hpn.
Qed.
End runs.

(** * Examples *)

#[local] Existing Instance easy_tcp.
#[local] Instance easy_peer : TcpPeer Z := λ _ _, (0, 0).

(** A server: the stack handles the messages of bind and listen, then accepts a
    connection. *)
Definition server : @env Z :=
  Env (with_allocs (repeat true 20) (easy_api ∅ ∅)) (replicate 10 (Socket None None 0))
    [[Handle None]; [Handle None];
     [Happens (EvAccept 101 200 ERR_OK (Some 2)
        (Netconn NETCONN_TCP NETCONN_NONE None ERR_OK None None None None))]]
    [Some 1].

Definition serve : list socket_op := [OpSocket SOCK_STREAM ERR_OK; OpBind 0 0 80; OpListen 0; OpIdle].

(** The server accepts: two descriptors with two connections. *)
Lemma descriptors_stay_valid_witness : ∃ s' : @env Z,
  run_ops 3 (serve ++ [OpAccept 0]) server = Done tt s' ∧
  (∀ i sock c, table s' !! i = Some sock → conn sock = Some c → is_Some (conns (net s') !! c)) ∧
  table s' !! 0%nat = Some (Socket (Some 1) None 0) ∧ table s' !! 1%nat = Some (Socket (Some 2) None 0).
Proof.
  destruct (run_ops 3 (serve ++ [OpAccept 0]) server) as [[] s'| |] eqn:E; [|by vm_compute in E..].
  assert (fresh_start server) as Hst.
  { split; [done|]. intros i sock [-> _]%lookup_replicate. done. }
  exists s'. split; [done|]. split; [by apply (descriptors_stay_valid server s' 3 (serve ++ [OpAccept 0]) Hst E)|].
  vm_compute in E. by injection E as <-.
Defined.

(** The peer resets the connection first. *)
Definition served : @env Z :=
  Eval vm_compute in match run_ops 3 serve server with Done _ s => s | _ => server end.
Definition reset : @api Z :=
  Eval vm_compute in match run_event (EvErr 200 ERR_RST) (net served) with Some (_, s) => s | None => net served end.

Lemma accept_after_reset_crashes_witness :
  run_ops 3 serve server = Done tt served ∧ run_event (EvErr 200 ERR_RST) (net served) = Some (tt, reset) ∧
  lwip_accept 3 0 (with_net reset served) = Crashed.
Proof.
  split; [by vm_compute|]. split; [by vm_compute|].
  destruct (conns (net served) !! 1) as [k|] eqn:Ek; [|by vm_compute in Ek].
  destruct (hooks (net served) !! 200) as [h|] eqn:Eh; [|by vm_compute in Eh].
  assert (acceptmbox k = Some [Some 2] ∧ h_err h = true ∧ h_arg h = Some (ArgConn 2)) as (Hl & He & Ha).
  { vm_compute in Ek, Eh. injection Ek as <-. injection Eh as <-. done. }
  apply (accept_after_reset_crashes served reset 3 0 (Socket (Some 1) None 0) 1 k 2 [] 200 h ERR_RST);
    first [done|by vm_compute].
Defined.
